(* ===== verification/_CoqProject ===== *)
-Q . S2P
Prelude.v
State.v
Spinlock.v
Strings.v
Printf.v
Memory.v
Bytes.v
Ring.v
Kalloc.v
Vm.v
PageTable.v
UserMem.v
UserSpace.v
UserCopy.v
UserAlloc.v
UserFree.v
Proc.v
Sched.v
Deadlock.v
Sleeplock.v
Quiet.v
Bio.v
Cache.v
Log.v
LogSpec.v
Crash.v
Txn.v
Reserve.v
Uio.v
Fs.v
Bitmap.v
FileData.v
FileWrite.v
Writei.v
Icache.v
Namei.v
Devices.v
Tty.v
Virtio.v
Pipe.v
Peterson.v
PipeSpec.v
File.v
Process.v
Exec.v
Sysproc.v
UserView.v
Sysfile.v
Trap.v
TrapSpec.v
Asm.v
AsmSpec.v
Kvm.v
Boot.v
Ulib.v
Uprintf.v
Filters.v
Grind.v
Grep.v
Umalloc.v
Malloc.v
Mkfs.v
MkfsFile.v
MkfsSpec.v
MkfsMain.v
MkfsTree.v
Ls.v
Shell.v
ShellSpec.v
ShellPrint.v
Runcmd.v
RuncmdSpec.v
ShellRun.v
Witnesses.v
VmWitnesses.v
FsWitnesses.v
StoreWitnesses.v
MkfsWitnesses.v
IoWitnesses.v
KvmWitnesses.v
