(* ===== verification/Prelude.v ===== *)
(** * A verification library for the Group 14 xv6-riscv kernel

    The program is a small Unix-like kernel for RISC-V (an xv6 fork under
    [src/xv6-riscv]) with an energy-aware scheduler, an adaptive timer,
    deadlock detection on resources and on sleep-locks, and pipes guarded by
    Peterson's algorithm, together with its user library and programs. This
    library translates the C code into executable functions and proves what
    the parts promise to each other and to user programs.

    ** How code is modelled

    A kernel function is a function in the monad [M kst] below: it takes the
    kernel state and ends in [Ok], [Panic] (a call of [panic()]), [Fault] (an
    invalid access) or [Hang] (a loop that nothing can end). The state [kst]
    ([State.v]) is the record of the kernel's global variables: CPUs, process
    table, physical memory byte by byte, sleep-locks, buffer cache, log, inode
    and file tables, pipes, devices and console output. A pointer into a table
    is an index, [None] the null pointer. Machine integers are [Z] with the
    wrap-around written out ([wrap8], [wrap32], [wrap64], [to_int]); structures
    on disk and in user memory are lists of bytes. [wp m Q s] says that [m]
    run in [s] returns, in a state that satisfies [Q]: all specifications
    are total.

    What is outside the kernel is a class of parameters, with its documented
    behaviour as a class of laws where a theorem needs it:
    - [World] ([Proc.v]): the state in which a context resumes after a switch;
    - [Disk], [DiskSpec] ([Bio.v], [Cache.v]): the disk as the buffer cache
      uses it, [virtio_disk_rw] reading and writing whole blocks. The driver
      itself is in [Virtio]; that it keeps [DiskSpec] is assumed, since it
      depends on the device;
    - [Mmio] ([Devices.v]): what a load from a device register gives; for the
      UART the line status follows from the bytes received ([d_rx]) and from
      how long each byte takes to be sent ([d_busy]);
    - [Stack] ([File.v]): the padding bytes of structures on the kernel stack;
    - [Image] ([Process.v]): the addresses the linker gives to symbols;
    - [Patience]: how often a waiting loop is run before it counts as hanging;
    - [Reader] ([Ulib.v]): how [read] splits the input of a program;
    - [Files] ([Filters.v]): the files [cat], [wc] and [grep] name, and their
      errors;
    - [Dirs] ([Ls.v]): what [ls] finds under a path;
    - [Host] ([Mkfs.v]): the files of the host that [mkfs] packs;
    - [Brk] ([Umalloc.v]): which requests of [sbrk] the kernel grants.

    ** The parts

    - Base: [Prelude] (monad, integers, loops, hints), [State] (kernel data),
      [Memory], [Bytes] (words in memory and in byte arrays), [Ring] (buffers
      indexed by running counters).
    - Locks and text: [Spinlock] ([spinlock.c]), [Strings] ([string.c]),
      [Printf] ([printf.c]).
    - Memory: [Kalloc] ([kalloc.c]), [Vm] ([vm.c]) with its specification
      [PageTable] and the client interface [UserMem]; whole address spaces
      in [UserSpace], [UserCopy] ([uvmcopy]), [UserAlloc]
      ([uvmalloc], [uvmdealloc]), [UserFree] ([uvmfree], [freewalk]) and
      [UserView] ([vmfault], [growproc], [sys_sbrk]); [Kvm] ([kvmmake],
      [proc_mapstacks], [proc_pagetable], [proc_freepagetable]).
    - Processes: [Proc], [Sched], [Deadlock], [Process] ([proc.c]),
      [Sleeplock] ([sleeplock.c]), [Exec] ([exec.c]), [Trap], [TrapSpec]
      ([trap.c], [syscall.c]), [Sysproc] ([sysproc.c]), [Boot] ([main.c],
      [start.c]).
    - Machine: [Asm] ([trampoline.S], [swtch.S], [kernelvec.S], [entry.S]) is a
      hart with registers, page-table translation and the instructions of
      these routines, with [AsmSpec].
    - Storage: [Bio] ([bio.c]) with [Cache], [Log] ([log.c]) with [LogSpec],
      [Crash], [Txn] and [Reserve], [Virtio] ([virtio_disk.c]), [Fs] ([fs.c])
      with [Bitmap], [FileData], [FileWrite], [Writei], [Icache] and [Namei],
      [File] ([file.c]), [Sysfile] ([sysfile.c]), [Uio] ([either_copyin],
      [either_copyout]); [Quiet] is the setting of these specifications: one
      process running with no spin-lock held.
    - Terminal and pipes: [Devices] ([uart.c], [console.c], [plic.c]) with
      [Tty]; [Pipe] ([pipe.c]) with [PipeSpec] and [Peterson].
    - User code: [Ulib] ([ulib.c]), [Uprintf] (the user
      [printf.c]), [Filters] ([wc.c], [cat.c]), [Grep] ([grep.c]), [Ls]
      ([ls.c]), [Grind] (the generator of [grind.c]), [Umalloc] and [Malloc]
      ([umalloc.c]); of the shell ([sh.c]), [Shell] is the parser
      with [ShellSpec] and [ShellPrint], [Runcmd] the execution of commands on
      a machine of interleaved processes, with [RuncmdSpec] and [ShellRun].
    - Host code: [Mkfs] ([mkfs.c]) with [MkfsFile], [MkfsSpec], [MkfsMain] and
      [MkfsTree].
    - [Witnesses], [VmWitnesses], [FsWitnesses], [StoreWitnesses],
      [MkfsWitnesses], [IoWitnesses] and [KvmWitnesses]: concrete states on which the theorems apply.

    ** What is proved

    - Scheduling: the three passes of [scheduler()] choose the process a
      declarative policy names, with only its lock held; a round switches to
      it or stretches the timer; [sleep] loses no wakeup channel.
    - Deadlock: [check_deadlock] and [would_create_deadlock] are exact with
      respect to cycles of their graphs; [NPROC] runs of [check_deadlock]
      leave no cycle; the recovery for sleep-locks leaves the deadlock in
      place.
    - Accounting: a timer tick during user code reaches the [yield] of
      [usertrap] charged twice, one in the kernel that of [kerneltrap] once.
    - Crash safety: any prefix of the disk writes of [commit], followed by
      recovery, leaves all old or all new contents; recovery may be repeated.
      The reservations of [begin_op] keep the log from overflowing in every
      interleaving of the critical sections of [log.c], as long as each
      operation changes fewer than [MAXOPBLOCKS] blocks.
    - Files: [balloc] and [bfree] on the free map; [readi] and [writei] on the
      bytes of a file, with the round trip between them; [namei] resolves a
      path as a walk over the directories does.
    - Images: [mkfs] writes an image whose root directory names every file it
      was given, and through which the kernel's reader finds its contents,
      but for the block missing from a root directory that fills its blocks
      exactly.
    - Pipes and terminal: the rings implement a bounded queue and an editing
      line; Peterson's lock excludes with one party per end, can always let
      one of them in, and lets one in before the other that gave way to it,
      when memory accesses take effect in program order; it does not exclude with two parties on an end, or with reordered
      stores (rule induction on a step relation).
    - Memory: the allocator's free list; page tables as maps from virtual to
      physical pages, with [copyout]/[copyin] as a round trip; the memory copy
      of [fork], its failure included, and that tearing the child down gives
      every page back; what a process reads after [sbrk], eager or lazy, page
      faults included: its old pages as they were and zeros in new ones, while
      the rest of its last page keeps its contents. The kernel's
      page table maps what it should, leaves a guard page below each stack
      and has no page both writable and executable.
    - Machine: [userret] and [uservec] carry every user register through the
      trapframe across the change of page tables, and with what
      [prepare_return] stores the next trap arrives in [usertrap] on the
      kernel's page table and stack; a [swtch] away from a context and back
      is a return; [kernelvec] keeps the registers of interrupted code; each
      hart enters [main] in supervisor mode on a stack of its own.
    - User code: [grep] filters the lines its pattern occurs in, up to the
      first that does not fit its buffer; the shell's
      parser terminates, keeps words apart and reads back printed commands;
      its result is well typed for [runcmd]. In every interleaving of the
      processes a line starts, the descriptors are those the line describes
      and the commands of a list run in order; and every run can be completed,
      if a program ends once no pipe it uses keeps it waiting.
      [malloc] and [free] keep all memory, allocated or free, accounted for.
      The user library's [printf] and string functions agree with the
      kernel's; [cat] copies and [wc] counts; [grind]'s generator is the
      Lehmer generator it cites, without overflow.

    ** Bounds and fuel

    Loops over tables recurse on the remaining entries. Other loops carry fuel
    that a lemma shows to be enough: the chain of owners is bounded by [NPROC]
    as in the code; the wait for the UART by [d_busy]; walks over the heap by
    its number of units; the parser by
    the length of the line; the shell's input by its length; the loops of
    [mkfs], [cat] and [wc] by the number of bytes; loops that wait for another party by [Patience],
    after which the outcome is [Hang] and no specification claims a result.

    ** Not modelled

    The model of [swtch] in the C code is [World]: what a process sees of a
    switch is the state in which it resumes. The assembly is modelled apart
    from it, on a hart; a routine is fetched from one page, and the addresses
    of its instructions within the page are left open. The TLB and weak
    memory, but for the store order in [Peterson]. Harts run one at a time
    between switches, but for [Peterson] and for the critical sections of
    [log.c] in [Reserve]. Writes of [mkfs] to its image
    succeed, and so does [malloc] in the shell's constructors. Of [ulib.c],
    [start], [stat] and [sbrk], which hand their arguments to system calls.
    User programs other than those above: [init], [echo], [kill], [ln],
    [mkdir], [rm], [grind]'s loop and the test programs are sequences of
    system calls and prints with no data of their own, so that a model of them
    would repeat their text.
*)

From stdpp Require Import base gmap strings numbers list.
From Stdlib Require Import ZArith Lia.

#[global] Open Scope Z_scope.

(** ** Outcomes and the kernel monad *)

(** What a call of a kernel function can end in: it returns, it calls
    [panic()], it dereferences an invalid pointer (the kernel page table maps
    nothing at address 0, so the hart traps and [kerneltrap] panics), or it
    spins for ever. *)
Inductive outcome (S A : Type) : Type :=
| Ok (a : A) (s : S)
| Panic (msg : string) (s : S)
| Fault (s : S)
| Hang (s : S).

Arguments Ok {S A} a s.
Arguments Panic {S A} msg s.
Arguments Fault {S A} s.
Arguments Hang {S A} s.

Definition M (S A : Type) : Type := S -> outcome S A.

#[global] Instance M_ret {S} : MRet (M S) := fun A a s => Ok a s.

#[global] Instance M_bind {S} : MBind (M S) := fun A B k m s =>
  match m s with
  | Ok a s' => k a s'
  | Panic msg s' => Panic msg s'
  | Fault s' => Fault s'
  | Hang s' => Hang s'
  end.

Definition panic {S A} (msg : string) : M S A := fun s => Panic msg s.
Definition fault {S A} : M S A := fun s => Fault s.
Definition hang {S A} : M S A := fun s => Hang s.
Definition gets {S A} (f : S -> A) : M S A := fun s => Ok (f s) s.
Definition modify {S} (f : S -> S) : M S unit := fun s => Ok tt (f s).

(** A pointer dereference: [None] is an invalid pointer. *)
Definition deref {S A} (o : option A) : M S A :=
  match o with Some a => mret a | None => fault end.

(** [if(b) m] with no else branch. *)
Definition when {S} (b : bool) (m : M S unit) : M S unit :=
  if b then m else mret tt.

(** The three shapes of C loop over a table: plain, with an accumulator, and
    with an early [return] or [goto] out of the loop ([Some] leaves it). *)
Fixpoint for_each {S A} (l : list A) (body : A -> M S unit) : M S unit :=
  match l with
  | [] => mret tt
  | x :: l => body x;; for_each l body
  end.

Fixpoint for_fold {S A B} (l : list A) (b : B) (body : A -> B -> M S B) : M S B :=
  match l with
  | [] => mret b
  | x :: l => b' ← body x b; for_fold l b' body
  end.

Fixpoint for_find {S A R} (l : list A) (body : A -> M S (option R)) : M S (option R) :=
  match l with
  | [] => mret None
  | x :: l => r ← body x; match r with Some v => mret (Some v) | None => for_find l body end
  end.

(** ** Total correctness *)

(** [wp m Q s]: [m] started in [s] returns, and [Q] holds of what it returns. *)
Definition wp {S A} (m : M S A) (Q : A -> S -> Prop) (s : S) : Prop :=
  match m s with Ok a s' => Q a s' | _ => False end.

Section wp.
Context {S : Type}.

Lemma wp_eq {A} (m : M S A) Q s a s' : m s = Ok a s' -> Q a s' -> wp m Q s.
Proof. unfold wp. by intros ->. Qed.

Lemma wp_inv {A} (m : M S A) Q s :
  wp m Q s -> exists a s', m s = Ok a s' /\ Q a s'.
Proof. unfold wp. destruct (m s); naive_solver. Qed.

Lemma wp_run {A} (m : M S A) s a s' :
  wp m (fun b t => b = a /\ t = s') s -> m s = Ok a s'.
Proof. intros (b & t & -> & -> & ->)%wp_inv. done. Qed.

Lemma wp_ret {A} (a : A) Q (s : S) : Q a s -> wp (mret a) Q s.
Proof. done. Qed.

Lemma wp_bind {A B} (m : M S A) (k : A -> M S B) Q s :
  wp m (fun a => wp (k a) Q) s -> wp (m ≫= k) Q s.
Proof. unfold wp, mbind, M_bind. by destruct (m s). Qed.

Lemma wp_mono {A} (m : M S A) (Q R : A -> S -> Prop) s :
  wp m Q s -> (forall a s', Q a s' -> R a s') -> wp m R s.
Proof. unfold wp. destruct (m s); naive_solver. Qed.

Lemma wp_gets {A} (f : S -> A) Q s : Q (f s) s -> wp (gets f) Q s.
Proof. done. Qed.

Lemma wp_modify (f : S -> S) Q s : Q tt (f s) -> wp (modify f) Q s.
Proof. done. Qed.

Lemma wp_deref {A} (o : option A) a Q (s : S) :
  o = Some a -> Q a s -> wp (deref o) Q s.
Proof. by intros ->. Qed.

Lemma wp_when b (m : M S unit) Q s :
  (b = true -> wp m Q s) -> (b = false -> Q tt s) -> wp (when b m) Q s.
Proof. destruct b; cbn; [naive_solver|]. intros _ H. by apply H. Qed.

Lemma bind_ok {A B} (m : M S A) (k : A -> M S B) s a s' :
  m s = Ok a s' -> (m ≫= k) s = k a s'.
Proof. unfold mbind, M_bind. by intros ->. Qed.

(** The call panics. *)
Definition panics {A} (msg : string) (m : M S A) (s : S) : Prop := exists t, m s = Panic msg t.

Lemma panics_bind {A B} msg (m : M S A) (k : A -> M S B) s :
  wp m (fun a t => panics msg (k a) t) s -> panics msg (m ≫= k) s.
Proof. intros (a & t & E & t' & E')%wp_inv. exists t'. by rewrite (bind_ok _ _ _ _ _ E). Qed.

Lemma panics_first {A B} msg (m : M S A) (k : A -> M S B) s : panics msg m s -> panics msg (m ≫= k) s.
Proof. intros [t E]. exists t. unfold mbind, M_bind. by rewrite E. Qed.

(** The call comes to a state in which [rest] is what it has left to do. *)
Definition reaches {A} (m rest : M S A) (Q : S -> Prop) (s : S) : Prop := exists t, m s = rest t /\ Q t.

Lemma reaches_here {A} (rest : M S A) (Q : S -> Prop) s : Q s -> reaches rest rest Q s.
Proof. by exists s. Qed.

Lemma reaches_bind {A B} (m : M S A) (k : A -> M S B) rest Q s :
  wp m (fun a t => reaches (k a) rest Q t) s -> reaches (m ≫= k) rest Q s.
Proof. intros (a & t & E & t' & E' & HQ)%wp_inv. exists t'. by rewrite (bind_ok _ _ _ _ _ E). Qed.

Lemma reaches_assoc {A B C} (m : M S A) (k : A -> M S B) (h : B -> M S C) rest Q s :
  reaches (m ≫= fun a => k a ≫= h) rest Q s -> reaches ((m ≫= k) ≫= h) rest Q s.
Proof. intros (t & E & HQ). exists t. split; [|done]. rewrite <- E. unfold mbind, M_bind. by destruct (m s). Qed.

(** Loop rules: the invariant speaks of the part of the table already visited. *)
Lemma wp_for_fold {A B} (I : list A -> B -> S -> Prop) (body : A -> B -> M S B)
    (l : list A) b (Q : B -> S -> Prop) s :
  I [] b s ->
  (forall pre x post b s, l = pre ++ x :: post -> I pre b s ->
     wp (body x b) (I (pre ++ [x])) s) ->
  (forall b s, I l b s -> Q b s) ->
  wp (for_fold l b body) Q s.
Proof.
  intros H0 Hstep HQ.
  assert (Hgen : forall pre post b s, l = pre ++ post -> I pre b s ->
            wp (for_fold post b body) (I l) s).
  { intros pre post; revert pre; induction post as [|x post IH];
      intros pre b' s' Hl HI; cbn.
    - apply wp_ret. by rewrite app_nil_r in Hl; subst.
    - apply wp_bind. eapply wp_mono; [eapply Hstep; eauto|].
      intros b'' s'' HI'. eapply IH; [|done].
      by rewrite <- app_assoc. }
  eapply wp_mono; [by apply (Hgen [] l)|done].
Qed.

Lemma wp_for_each {A} (I : list A -> S -> Prop) (body : A -> M S unit)
    (l : list A) (Q : unit -> S -> Prop) s :
  I [] s ->
  (forall pre x post s, l = pre ++ x :: post -> I pre s ->
     wp (body x) (fun _ => I (pre ++ [x])) s) ->
  (forall s, I l s -> Q tt s) ->
  wp (for_each l body) Q s.
Proof.
  intros H0 Hstep HQ.
  assert (Hgen : forall pre post s, l = pre ++ post -> I pre s ->
            wp (for_each post body) (fun _ => I l) s).
  { intros pre post; revert pre; induction post as [|x post IH];
      intros pre s' Hl HI; cbn.
    - apply wp_ret. by rewrite app_nil_r in Hl; subst.
    - apply wp_bind. eapply wp_mono; [eapply Hstep; eauto|].
      intros [] s'' HI'. eapply IH; [|done].
      by rewrite <- app_assoc. }
  eapply wp_mono; [by apply (Hgen [] l)|]. intros [] ? ?. by apply HQ.
Qed.

(** A search loop either leaves at some element or visits the whole table. *)
Lemma wp_for_find {A R} (I : list A -> S -> Prop) (body : A -> M S (option R))
    (l : list A) (Q : option R -> S -> Prop) s :
  I [] s ->
  (forall pre x post s, l = pre ++ x :: post -> I pre s ->
     wp (body x) (fun r s' => match r with
                              | Some v => Q (Some v) s'
                              | None => I (pre ++ [x]) s'
                              end) s) ->
  (forall s, I l s -> Q None s) ->
  wp (for_find l body) Q s.
Proof.
  intros H0 Hstep HQ.
  assert (Hgen : forall pre post s, l = pre ++ post -> I pre s ->
            wp (for_find post body) Q s).
  { intros pre post; revert pre; induction post as [|x post IH];
      intros pre s' Hl HI; cbn.
    - apply wp_ret, HQ. by rewrite app_nil_r in Hl; subst.
    - apply wp_bind. eapply wp_mono; [eapply Hstep; eauto|].
      intros [v|] s'' HI'; [done|]. eapply IH; [|done].
      by rewrite <- app_assoc. }
  by apply (Hgen [] l).
Qed.

End wp.

(** Symbolic execution: split a bind and run the pure steps. *)
Ltac wp_pure :=
  repeat first
    [ apply wp_bind
    | apply wp_ret
    | apply wp_gets
    | apply wp_modify ]; cbv beta.

(** Close a goal [Q a t] with [H : Q a s], leaving [s = t]. *)
Ltac same_state H :=
  match type of H with
  | _ ?s => match goal with |- _ ?t => replace t with s; [exact H|] end
  end.

(** ** Machine integers *)

Definition wrap8 (x : Z) : Z := x mod 2 ^ 8.
Definition wrap32 (x : Z) : Z := x mod 2 ^ 32.
Definition wrap64 (x : Z) : Z := x mod 2 ^ 64.

(** Conversion of a 64-bit value to [int] (gcc: modulo 2^32, two's complement). *)
Definition to_int (x : Z) : Z :=
  let y := x mod 2 ^ 32 in if y <? 2 ^ 31 then y else y - 2 ^ 32.

Definition Zb (b : bool) : Z := if b then 1 else 0.

Lemma wrap64_small x : 0 <= x < 2 ^ 64 -> wrap64 x = x.
Proof. apply Z.mod_small. Qed.

Lemma wrap32_small x : 0 <= x < 2 ^ 32 -> wrap32 x = x.
Proof. apply Z.mod_small. Qed.

Lemma to_int_range x : - 2 ^ 31 <= to_int x < 2 ^ 31.
Proof.
  unfold to_int. pose proof (Z.mod_pos_bound x (2 ^ 32)). destruct (Z.ltb_spec (x mod 2 ^ 32) (2 ^ 31)); lia.
Qed.

Lemma to_int_small x : - 2 ^ 31 <= x < 2 ^ 31 -> to_int x = x.
Proof.
  intros H. unfold to_int.
  destruct (decide (0 <= x)).
  - rewrite Z.mod_small by lia. case_match; lia.
  - replace (x mod 2 ^ 32) with (x + 2 ^ 32).
    + case_match; lia.
    + apply (Z.mod_unique _ _ (-1)); lia.
Qed.

(** Case analysis on the integer comparisons in the goal. *)
Ltac zcases :=
  repeat match goal with
  | |- context [?a <=? ?b] => destruct (Z.leb_spec a b)
  | |- context [?a <? ?b] => destruct (Z.ltb_spec a b)
  | |- context [?a =? ?b] => destruct (Z.eqb_spec a b)
  end; cbn [andb orb negb].

(** ** Lists *)

Section lists.
Context {A : Type}.

(** An update of an entry that exists. *)
Lemma list_alter_at (g : A -> A) (i : nat) (l : list A) (a : A) : l !! i = Some a -> alter g i l = <[i := g a]> l.
Proof.
  intros H. apply list_eq. intros j. destruct (decide (j = i)) as [->|Hne].
  - rewrite list_lookup_alter_eq, H, list_lookup_insert_eq; [done|by eapply lookup_lt_Some].
  - by rewrite list_lookup_alter_ne, list_lookup_insert_ne by done.
Qed.

Lemma seq_split_lt (n : nat) pre x post :
  seq 0 n = pre ++ x :: post -> pre = seq 0 x /\ (x < n)%nat /\ post = seq (S x) (n - S x).
Proof.
  intros H.
  assert (Hx : seq 0 n !! length pre = Some x).
  { by rewrite H, list_lookup_middle. }
  apply lookup_seq in Hx as [-> Hlt]. cbn in *.
  assert (Hn : n = (length pre + (n - length pre))%nat) by lia.
  rewrite Hn, seq_app in H.
  apply app_inj_1 in H; [|by rewrite length_seq].
  destruct H as [Hpre Hpost]. split; [done|]. split; [done|].
  replace (n - length pre)%nat with (S (n - S (length pre))) in Hpost by lia.
  cbn in Hpost. by injection Hpost as <-.
Qed.

(** Pigeonhole: a duplicate-free list of indices below [n] has at most [n] of them. *)
Lemma NoDup_lt_length (l : list nat) n :
  NoDup l -> Forall (fun i => (i < n)%nat) l -> (length l <= n)%nat.
Proof.
  intros Hnd Hall.
  rewrite <- (length_seq n 0). apply NoDup_incl_length; [by apply NoDup_ListNoDup|].
  intros x Hx. apply in_seq. rewrite Forall_forall in Hall.
  apply list_elem_of_In, Hall in Hx. lia.
Qed.

End lists.
