(* ===== verification/State.v ===== *)
(** * Kernel data

    The structures of the kernel's headers ([proc.h], [spinlock.h],
    [sleeplock.h]), the constants of [param.h], [memlayout.h] and [riscv.h],
    and the record [kst] of the kernel's global variables. A pointer into a
    table is the index of the entry ([None] is the null pointer); locks, wait
    channels and sleep-locks are named by the object they belong to. *)

From stdpp Require Import base gmap strings numbers countable list.
From S2P Require Import Prelude.

(** ** Constants *)

Definition NPROC : nat := 64.
Definition NCPU : nat := 8.
Definition NOFILE : nat := 16.
Definition NFILE : nat := 100.
Definition DEFAULT_ENERGY_BUDGET : Z := 1000.
Definition ENERGY_PER_TICK : Z := 1.
Definition LOW_ENERGY_THRESHOLD : Z := 100.
Definition NINODE : nat := 50.
Definition NDEV : Z := 10.
Definition ROOTDEV : Z := 1.
Definition MAXARG : nat := 32.
Definition MAXOPBLOCKS : Z := 10.
Definition LOGBLOCKS : nat := 30.
Definition NBUF : nat := 30.
Definition MAXPATH : nat := 128.
Definition USERSTACK : Z := 1.
Definition NRES : nat := 16.
Definition DEADLOCK_CHECK_INTERVAL : Z := 100.

Definition PGSIZE : Z := 4096.
Definition PGROUNDUP (sz : Z) : Z := Z.land (wrap64 (sz + PGSIZE - 1)) (Z.lnot (PGSIZE - 1)).
Definition PGROUNDDOWN (a : Z) : Z := Z.land a (Z.lnot (PGSIZE - 1)).
Definition MAXVA : Z := Z.shiftl 1 (9 + 9 + 9 + 12 - 1).
Definition KERNBASE : Z := 0x80000000.
Definition PHYSTOP : Z := KERNBASE + 128 * 1024 * 1024.
Definition TRAMPOLINE : Z := MAXVA - PGSIZE.
Definition TRAPFRAME : Z := TRAMPOLINE - PGSIZE.
Definition KSTACK (p : nat) : Z := TRAMPOLINE - (Z.of_nat p + 1) * 2 * PGSIZE.

(** ** Names of locks, sleep-locks and wait channels *)

(** The sleep-locks: the two demonstration locks of [sysproc.c], the lock of
    each buffer of the block cache and of each in-memory inode. *)
Inductive slid : Type :=
| SLDemo (i : nat)
| SLBuf (i : nat)
| SLInode (i : nat).

(** The spin-locks: one per process, the global ones, and the spin-lock [lk]
    inside every sleep-lock. *)
Inductive lockid : Type :=
| LProc (i : nat)
| LPid
| LWait
| LTicks
| LKmem
| LFtable
| LItable
| LBcache
| LLog
| LCons
| LPr
| LUart
| LVdisk
| LSleep (l : slid).

(** Addresses processes sleep on. *)
Inductive chan : Type :=
| ChProc (i : nat)
| ChTicks
| ChSleep (l : slid)
| ChPipeRead (pi : Z)
| ChPipeWrite (pi : Z)
| ChLog
| ChCons
| ChUart
| ChBuf (i : nat)
| ChVdisk.

#[global] Instance slid_eq_dec : EqDecision slid.
Proof. solve_decision. Defined.

#[global] Instance lockid_eq_dec : EqDecision lockid.
Proof. solve_decision. Defined.

#[global] Instance chan_eq_dec : EqDecision chan.
Proof. solve_decision. Defined.

Definition slid_code (l : slid) : nat * nat :=
  match l with SLDemo i => (0, i)%nat | SLBuf i => (1, i)%nat | SLInode i => (2, i)%nat end.

Definition slid_decode (c : nat * nat) : slid :=
  match c with (O, i) => SLDemo i | (1%nat, i) => SLBuf i | (_, i) => SLInode i end.

#[global] Instance slid_countable : Countable slid.
Proof. refine (inj_countable' slid_code slid_decode _). by intros []. Defined.

Definition lockid_code (l : lockid) : nat + slid :=
  match l with
  | LPid => inl 0%nat | LWait => inl 1%nat | LTicks => inl 2%nat | LKmem => inl 3%nat
  | LFtable => inl 4%nat | LItable => inl 5%nat | LBcache => inl 6%nat | LLog => inl 7%nat
  | LCons => inl 8%nat | LPr => inl 9%nat | LUart => inl 10%nat | LVdisk => inl 11%nat
  | LProc i => inl (12 + i)%nat
  | LSleep l => inr l
  end.

Definition lockid_decode (c : nat + slid) : lockid :=
  match c with
  | inl 0%nat => LPid | inl 1%nat => LWait | inl 2%nat => LTicks | inl 3%nat => LKmem
  | inl 4%nat => LFtable | inl 5%nat => LItable | inl 6%nat => LBcache | inl 7%nat => LLog
  | inl 8%nat => LCons | inl 9%nat => LPr | inl 10%nat => LUart | inl 11%nat => LVdisk
  | inl n => LProc (n - 12)
  | inr l => LSleep l
  end.

#[global] Instance lockid_countable : Countable lockid.
Proof.
  refine (inj_countable' lockid_code lockid_decode _).
  intros []; cbn; by rewrite ?Nat.sub_0_r.
Defined.

(** ** Structures *)

(** [struct cpu], with the hart's interrupt-enable bit [sstatus.SIE]. *)
Record cpu : Type := mkcpu {
  c_proc : option nat;
  c_noff : Z;
  c_intena : bool;
  c_sie : bool
}.

Record spinlock : Type := mkspin {
  sl_name : string;
  sl_locked : bool;
  sl_cpu : option nat
}.

(** The executing hart, the per-CPU state and every spin-lock of the kernel. *)
Record sync : Type := mksync {
  y_hart : nat;
  y_cpus : list cpu;
  y_locks : gmap lockid spinlock
}.

Record sleeplock : Type := mksleep {
  slk_locked : bool;
  slk_name : string;
  slk_pid : Z
}.

Inductive procstate : Type := UNUSED | USED | SLEEPING | RUNNABLE | RUNNING | ZOMBIE.

#[global] Instance procstate_eq_dec : EqDecision procstate.
Proof. solve_decision. Defined.

Record context : Type := mkcontext {
  ctx_ra : Z;
  ctx_sp : Z;
  ctx_s : list Z
}.

Record proc : Type := mkproc {
  p_state : procstate;
  p_chan : option chan;
  p_killed : bool;
  p_xstate : Z;
  p_pid : Z;
  p_parent : option nat;
  p_kstack : Z;
  p_sz : Z;
  p_pagetable : Z;
  p_trapframe : Z;
  p_context : context;
  p_ofile : list (option nat);
  p_cwd : option nat;
  p_name : list Z;
  p_waiting_tick : Z;
  p_energy_budget : Z;
  p_energy_consumed : Z;
  p_last_scheduled_tick : Z;
  p_waiting_for_lock : option slid;
  p_deadlock_reports : Z;
  p_in_deadlock : bool;
  p_holding_res : list bool;
  p_waiting_res : Z
}.

(** The supervisor trap registers of the executing hart ([sstatus.SIE] is
    [c_sie] of its [cpu]). *)
Record csrs : Type := mkcsrs {
  r_scause : Z;
  r_sepc : Z;
  r_stval : Z;
  r_sstatus : Z;
  r_stvec : Z;
  r_satp : Z
}.

Definition set_r_scause (v : Z) (x : csrs) : csrs :=
  mkcsrs v x.(r_sepc) x.(r_stval) x.(r_sstatus) x.(r_stvec) x.(r_satp).
Definition set_r_sepc (v : Z) (x : csrs) : csrs :=
  mkcsrs x.(r_scause) v x.(r_stval) x.(r_sstatus) x.(r_stvec) x.(r_satp).
Definition set_r_stval (v : Z) (x : csrs) : csrs :=
  mkcsrs x.(r_scause) x.(r_sepc) v x.(r_sstatus) x.(r_stvec) x.(r_satp).
Definition set_r_sstatus (v : Z) (x : csrs) : csrs :=
  mkcsrs x.(r_scause) x.(r_sepc) x.(r_stval) v x.(r_stvec) x.(r_satp).
Definition set_r_stvec (v : Z) (x : csrs) : csrs :=
  mkcsrs x.(r_scause) x.(r_sepc) x.(r_stval) x.(r_sstatus) v x.(r_satp).
Definition set_r_satp (v : Z) (x : csrs) : csrs :=
  mkcsrs x.(r_scause) x.(r_sepc) x.(r_stval) x.(r_sstatus) x.(r_stvec) v.

(** [struct pipe] of [pipe.c]; [pi_flag0] and [pi_flag1] are [flag[0]] and
    [flag[1]]. *)
Record pipe : Type := mkpipe {
  pi_flag0 : Z;
  pi_flag1 : Z;
  pi_turn : Z;
  pi_data : list Z;
  pi_nread : Z;
  pi_nwrite : Z;
  pi_readopen : bool;
  pi_writeopen : bool
}.

Definition set_pi_flag0 (v : Z) (x : pipe) : pipe :=
  mkpipe v x.(pi_flag1) x.(pi_turn) x.(pi_data) x.(pi_nread) x.(pi_nwrite) x.(pi_readopen)
    x.(pi_writeopen).
Definition set_pi_flag1 (v : Z) (x : pipe) : pipe :=
  mkpipe x.(pi_flag0) v x.(pi_turn) x.(pi_data) x.(pi_nread) x.(pi_nwrite) x.(pi_readopen)
    x.(pi_writeopen).
Definition set_pi_turn (v : Z) (x : pipe) : pipe :=
  mkpipe x.(pi_flag0) x.(pi_flag1) v x.(pi_data) x.(pi_nread) x.(pi_nwrite) x.(pi_readopen)
    x.(pi_writeopen).
Definition set_pi_data (v : list Z) (x : pipe) : pipe :=
  mkpipe x.(pi_flag0) x.(pi_flag1) x.(pi_turn) v x.(pi_nread) x.(pi_nwrite) x.(pi_readopen)
    x.(pi_writeopen).
Definition set_pi_nread (v : Z) (x : pipe) : pipe :=
  mkpipe x.(pi_flag0) x.(pi_flag1) x.(pi_turn) x.(pi_data) v x.(pi_nwrite) x.(pi_readopen)
    x.(pi_writeopen).
Definition set_pi_nwrite (v : Z) (x : pipe) : pipe :=
  mkpipe x.(pi_flag0) x.(pi_flag1) x.(pi_turn) x.(pi_data) x.(pi_nread) v x.(pi_readopen)
    x.(pi_writeopen).
Definition set_pi_readopen (v : bool) (x : pipe) : pipe :=
  mkpipe x.(pi_flag0) x.(pi_flag1) x.(pi_turn) x.(pi_data) x.(pi_nread) x.(pi_nwrite) v
    x.(pi_writeopen).
Definition set_pi_writeopen (v : bool) (x : pipe) : pipe :=
  mkpipe x.(pi_flag0) x.(pi_flag1) x.(pi_turn) x.(pi_data) x.(pi_nread) x.(pi_nwrite)
    x.(pi_readopen) v.

(** [struct buf] of [buf.h]; its sleep-lock is [SLBuf]. The links [prev] and
    [next] are indices; [NBUF] is the index of [bcache.head]. *)
Record buf : Type := mkbuf {
  b_valid : bool;
  b_disk : bool;
  b_dev : Z;
  b_blockno : Z;
  b_refcnt : Z;
  b_prev : nat;
  b_next : nat;
  b_data : list Z
}.

Definition set_b_valid (v : bool) (x : buf) : buf :=
  mkbuf v x.(b_disk) x.(b_dev) x.(b_blockno) x.(b_refcnt) x.(b_prev) x.(b_next) x.(b_data).
Definition set_b_disk (v : bool) (x : buf) : buf :=
  mkbuf x.(b_valid) v x.(b_dev) x.(b_blockno) x.(b_refcnt) x.(b_prev) x.(b_next) x.(b_data).
Definition set_b_dev (v : Z) (x : buf) : buf :=
  mkbuf x.(b_valid) x.(b_disk) v x.(b_blockno) x.(b_refcnt) x.(b_prev) x.(b_next) x.(b_data).
Definition set_b_blockno (v : Z) (x : buf) : buf :=
  mkbuf x.(b_valid) x.(b_disk) x.(b_dev) v x.(b_refcnt) x.(b_prev) x.(b_next) x.(b_data).
Definition set_b_refcnt (v : Z) (x : buf) : buf :=
  mkbuf x.(b_valid) x.(b_disk) x.(b_dev) x.(b_blockno) v x.(b_prev) x.(b_next) x.(b_data).
Definition set_b_prev (v : nat) (x : buf) : buf :=
  mkbuf x.(b_valid) x.(b_disk) x.(b_dev) x.(b_blockno) x.(b_refcnt) v x.(b_next) x.(b_data).
Definition set_b_next (v : nat) (x : buf) : buf :=
  mkbuf x.(b_valid) x.(b_disk) x.(b_dev) x.(b_blockno) x.(b_refcnt) x.(b_prev) v x.(b_data).
Definition set_b_data (v : list Z) (x : buf) : buf :=
  mkbuf x.(b_valid) x.(b_disk) x.(b_dev) x.(b_blockno) x.(b_refcnt) x.(b_prev) x.(b_next) v.

(** [struct log] of [log.c], with its header [lh]. *)
Record log : Type := mklog {
  lg_start : Z;
  lg_outstanding : Z;
  lg_committing : bool;
  lg_dev : Z;
  lg_n : Z;
  lg_block : list Z
}.

Definition set_lg_start (v : Z) (x : log) : log :=
  mklog v x.(lg_outstanding) x.(lg_committing) x.(lg_dev) x.(lg_n) x.(lg_block).
Definition set_lg_outstanding (v : Z) (x : log) : log :=
  mklog x.(lg_start) v x.(lg_committing) x.(lg_dev) x.(lg_n) x.(lg_block).
Definition set_lg_committing (v : bool) (x : log) : log :=
  mklog x.(lg_start) x.(lg_outstanding) v x.(lg_dev) x.(lg_n) x.(lg_block).
Definition set_lg_dev (v : Z) (x : log) : log :=
  mklog x.(lg_start) x.(lg_outstanding) x.(lg_committing) v x.(lg_n) x.(lg_block).
Definition set_lg_n (v : Z) (x : log) : log :=
  mklog x.(lg_start) x.(lg_outstanding) x.(lg_committing) x.(lg_dev) v x.(lg_block).
Definition set_lg_block (v : list Z) (x : log) : log :=
  mklog x.(lg_start) x.(lg_outstanding) x.(lg_committing) x.(lg_dev) x.(lg_n) v.

(** [struct superblock] of [fs.h]. *)
Record superblock : Type := mksuper {
  sb_magic : Z;
  sb_size : Z;
  sb_nblocks : Z;
  sb_ninodes : Z;
  sb_nlog : Z;
  sb_logstart : Z;
  sb_inodestart : Z;
  sb_bmapstart : Z
}.

Definition set_sb_magic (v : Z) (x : superblock) : superblock :=
  mksuper v x.(sb_size) x.(sb_nblocks) x.(sb_ninodes) x.(sb_nlog) x.(sb_logstart)
    x.(sb_inodestart) x.(sb_bmapstart).
Definition set_sb_size (v : Z) (x : superblock) : superblock :=
  mksuper x.(sb_magic) v x.(sb_nblocks) x.(sb_ninodes) x.(sb_nlog) x.(sb_logstart)
    x.(sb_inodestart) x.(sb_bmapstart).
Definition set_sb_nblocks (v : Z) (x : superblock) : superblock :=
  mksuper x.(sb_magic) x.(sb_size) v x.(sb_ninodes) x.(sb_nlog) x.(sb_logstart)
    x.(sb_inodestart) x.(sb_bmapstart).
Definition set_sb_ninodes (v : Z) (x : superblock) : superblock :=
  mksuper x.(sb_magic) x.(sb_size) x.(sb_nblocks) v x.(sb_nlog) x.(sb_logstart)
    x.(sb_inodestart) x.(sb_bmapstart).
Definition set_sb_nlog (v : Z) (x : superblock) : superblock :=
  mksuper x.(sb_magic) x.(sb_size) x.(sb_nblocks) x.(sb_ninodes) v x.(sb_logstart)
    x.(sb_inodestart) x.(sb_bmapstart).
Definition set_sb_logstart (v : Z) (x : superblock) : superblock :=
  mksuper x.(sb_magic) x.(sb_size) x.(sb_nblocks) x.(sb_ninodes) x.(sb_nlog) v x.(sb_inodestart)
    x.(sb_bmapstart).
Definition set_sb_inodestart (v : Z) (x : superblock) : superblock :=
  mksuper x.(sb_magic) x.(sb_size) x.(sb_nblocks) x.(sb_ninodes) x.(sb_nlog) x.(sb_logstart) v
    x.(sb_bmapstart).
Definition set_sb_bmapstart (v : Z) (x : superblock) : superblock :=
  mksuper x.(sb_magic) x.(sb_size) x.(sb_nblocks) x.(sb_ninodes) x.(sb_nlog) x.(sb_logstart)
    x.(sb_inodestart) v.

(** [struct inode] of [file.h]; its sleep-lock is [SLInode]. *)
Record inode : Type := mkinode {
  i_dev : Z;
  i_inum : Z;
  i_ref : Z;
  i_valid : bool;
  i_type : Z;
  i_major : Z;
  i_minor : Z;
  i_nlink : Z;
  i_size : Z;
  i_addrs : list Z
}.

Definition set_i_dev (v : Z) (x : inode) : inode :=
  mkinode v x.(i_inum) x.(i_ref) x.(i_valid) x.(i_type) x.(i_major) x.(i_minor) x.(i_nlink)
    x.(i_size) x.(i_addrs).
Definition set_i_inum (v : Z) (x : inode) : inode :=
  mkinode x.(i_dev) v x.(i_ref) x.(i_valid) x.(i_type) x.(i_major) x.(i_minor) x.(i_nlink)
    x.(i_size) x.(i_addrs).
Definition set_i_ref (v : Z) (x : inode) : inode :=
  mkinode x.(i_dev) x.(i_inum) v x.(i_valid) x.(i_type) x.(i_major) x.(i_minor) x.(i_nlink)
    x.(i_size) x.(i_addrs).
Definition set_i_valid (v : bool) (x : inode) : inode :=
  mkinode x.(i_dev) x.(i_inum) x.(i_ref) v x.(i_type) x.(i_major) x.(i_minor) x.(i_nlink)
    x.(i_size) x.(i_addrs).
Definition set_i_type (v : Z) (x : inode) : inode :=
  mkinode x.(i_dev) x.(i_inum) x.(i_ref) x.(i_valid) v x.(i_major) x.(i_minor) x.(i_nlink)
    x.(i_size) x.(i_addrs).
Definition set_i_major (v : Z) (x : inode) : inode :=
  mkinode x.(i_dev) x.(i_inum) x.(i_ref) x.(i_valid) x.(i_type) v x.(i_minor) x.(i_nlink)
    x.(i_size) x.(i_addrs).
Definition set_i_minor (v : Z) (x : inode) : inode :=
  mkinode x.(i_dev) x.(i_inum) x.(i_ref) x.(i_valid) x.(i_type) x.(i_major) v x.(i_nlink)
    x.(i_size) x.(i_addrs).
Definition set_i_nlink (v : Z) (x : inode) : inode :=
  mkinode x.(i_dev) x.(i_inum) x.(i_ref) x.(i_valid) x.(i_type) x.(i_major) x.(i_minor) v
    x.(i_size) x.(i_addrs).
Definition set_i_size (v : Z) (x : inode) : inode :=
  mkinode x.(i_dev) x.(i_inum) x.(i_ref) x.(i_valid) x.(i_type) x.(i_major) x.(i_minor)
    x.(i_nlink) v x.(i_addrs).
Definition set_i_addrs (v : list Z) (x : inode) : inode :=
  mkinode x.(i_dev) x.(i_inum) x.(i_ref) x.(i_valid) x.(i_type) x.(i_major) x.(i_minor)
    x.(i_nlink) x.(i_size) v.

Inductive ftype : Type := FD_NONE | FD_PIPE | FD_INODE | FD_DEVICE.

#[global] Instance ftype_eq_dec : EqDecision ftype.
Proof. solve_decision. Defined.

(** [struct file] of [file.h]; [f_pipe] is the address of the pipe. *)
Record file : Type := mkfile {
  f_type : ftype;
  f_ref : Z;
  f_readable : bool;
  f_writable : bool;
  f_pipe : Z;
  f_ip : option nat;
  f_off : Z;
  f_major : Z
}.

Definition set_f_type (v : ftype) (x : file) : file :=
  mkfile v x.(f_ref) x.(f_readable) x.(f_writable) x.(f_pipe) x.(f_ip) x.(f_off) x.(f_major).
Definition set_f_ref (v : Z) (x : file) : file :=
  mkfile x.(f_type) v x.(f_readable) x.(f_writable) x.(f_pipe) x.(f_ip) x.(f_off) x.(f_major).
Definition set_f_readable (v : bool) (x : file) : file :=
  mkfile x.(f_type) x.(f_ref) v x.(f_writable) x.(f_pipe) x.(f_ip) x.(f_off) x.(f_major).
Definition set_f_writable (v : bool) (x : file) : file :=
  mkfile x.(f_type) x.(f_ref) x.(f_readable) v x.(f_pipe) x.(f_ip) x.(f_off) x.(f_major).
Definition set_f_pipe (v : Z) (x : file) : file :=
  mkfile x.(f_type) x.(f_ref) x.(f_readable) x.(f_writable) v x.(f_ip) x.(f_off) x.(f_major).
Definition set_f_ip (v : option nat) (x : file) : file :=
  mkfile x.(f_type) x.(f_ref) x.(f_readable) x.(f_writable) x.(f_pipe) v x.(f_off) x.(f_major).
Definition set_f_off (v : Z) (x : file) : file :=
  mkfile x.(f_type) x.(f_ref) x.(f_readable) x.(f_writable) x.(f_pipe) x.(f_ip) v x.(f_major).
Definition set_f_major (v : Z) (x : file) : file :=
  mkfile x.(f_type) x.(f_ref) x.(f_readable) x.(f_writable) x.(f_pipe) x.(f_ip) x.(f_off) v.

(** The file system's variables: [bcache] (its buffers and, last, its head),
    [log], [sb], [itable] and [ftable]; the blocks on the disk and the writes
    it has performed, oldest first. *)
Record fsst : Type := mkfsst {
  fs_bufs : list buf;
  fs_log : log;
  fs_sb : superblock;
  fs_inodes : list inode;
  fs_files : list file;
  fs_disk : Z -> list Z;
  fs_writes : list (Z * list Z)
}.

Definition set_fs_bufs (v : list buf) (x : fsst) : fsst :=
  mkfsst v x.(fs_log) x.(fs_sb) x.(fs_inodes) x.(fs_files) x.(fs_disk) x.(fs_writes).
Definition set_fs_log (v : log) (x : fsst) : fsst :=
  mkfsst x.(fs_bufs) v x.(fs_sb) x.(fs_inodes) x.(fs_files) x.(fs_disk) x.(fs_writes).
Definition set_fs_sb (v : superblock) (x : fsst) : fsst :=
  mkfsst x.(fs_bufs) x.(fs_log) v x.(fs_inodes) x.(fs_files) x.(fs_disk) x.(fs_writes).
Definition set_fs_inodes (v : list inode) (x : fsst) : fsst :=
  mkfsst x.(fs_bufs) x.(fs_log) x.(fs_sb) v x.(fs_files) x.(fs_disk) x.(fs_writes).
Definition set_fs_files (v : list file) (x : fsst) : fsst :=
  mkfsst x.(fs_bufs) x.(fs_log) x.(fs_sb) x.(fs_inodes) v x.(fs_disk) x.(fs_writes).
Definition set_fs_disk (v : Z -> list Z) (x : fsst) : fsst :=
  mkfsst x.(fs_bufs) x.(fs_log) x.(fs_sb) x.(fs_inodes) x.(fs_files) v x.(fs_writes).
Definition set_fs_writes (v : list (Z * list Z)) (x : fsst) : fsst :=
  mkfsst x.(fs_bufs) x.(fs_log) x.(fs_sb) x.(fs_inodes) x.(fs_files) x.(fs_disk) v.

(** The functions in the device switch. *)
Inductive devfun : Type := DevConsole.

(** The descriptors of the virtio queue ([virtio.h]). A descriptor points at
    a command header [disk.ops[i]], at the data of a buffer, or at a status
    byte [disk.info[i].status]. *)
Inductive daddr : Type := DANull | DAOps (i : nat) | DAData (b : nat) | DAStatus (i : nat).

#[global] Instance daddr_eq_dec : EqDecision daddr.
Proof. solve_decision. Defined.

(** [struct virtq_desc]. *)
Record vdesc : Type := mkvdesc {
  vd_addr : daddr;
  vd_len : Z;
  vd_flags : Z;
  vd_next : Z
}.

Definition set_vd_addr (v : daddr) (x : vdesc) : vdesc :=
  mkvdesc v x.(vd_len) x.(vd_flags) x.(vd_next).
Definition set_vd_len (v : Z) (x : vdesc) : vdesc :=
  mkvdesc x.(vd_addr) v x.(vd_flags) x.(vd_next).
Definition set_vd_flags (v : Z) (x : vdesc) : vdesc :=
  mkvdesc x.(vd_addr) x.(vd_len) v x.(vd_next).
Definition set_vd_next (v : Z) (x : vdesc) : vdesc :=
  mkvdesc x.(vd_addr) x.(vd_len) x.(vd_flags) v.

(** [struct virtio_blk_req]. *)
Record vreq : Type := mkvreq {
  vr_type : Z;
  vr_reserved : Z;
  vr_sector : Z
}.

Definition set_vr_type (v : Z) (x : vreq) : vreq :=
  mkvreq v x.(vr_reserved) x.(vr_sector).
Definition set_vr_reserved (v : Z) (x : vreq) : vreq :=
  mkvreq x.(vr_type) v x.(vr_sector).
Definition set_vr_sector (v : Z) (x : vreq) : vreq :=
  mkvreq x.(vr_type) x.(vr_reserved) v.

(** An entry of [disk.info]. *)
Record vinfo : Type := mkvinfo {
  vi_b : option nat;
  vi_status : Z
}.

Definition set_vi_b (v : option nat) (x : vinfo) : vinfo :=
  mkvinfo v x.(vi_status).
Definition set_vi_status (v : Z) (x : vinfo) : vinfo :=
  mkvinfo x.(vi_b) v.

(** [struct disk] of [virtio_disk.c]: the descriptors, the available ring
    [avail->idx] and [avail->ring], the used ring [used->idx] and the ids of
    [used->ring], the driver's book-keeping, and the addresses of the three
    pages that hold the first three. *)
Record vdisk : Type := mkvdisk {
  v_desc : list vdesc;
  v_avail_idx : Z;
  v_avail_ring : list Z;
  v_dev_idx : Z;
  v_dev_ring : list Z;
  v_free : list bool;
  v_used_idx : Z;
  v_info : list vinfo;
  v_ops : list vreq;
  v_pages : Z * Z * Z
}.

Definition set_v_desc (v : list vdesc) (x : vdisk) : vdisk :=
  mkvdisk v x.(v_avail_idx) x.(v_avail_ring) x.(v_dev_idx) x.(v_dev_ring) x.(v_free)
    x.(v_used_idx) x.(v_info) x.(v_ops) x.(v_pages).
Definition set_v_avail_idx (v : Z) (x : vdisk) : vdisk :=
  mkvdisk x.(v_desc) v x.(v_avail_ring) x.(v_dev_idx) x.(v_dev_ring) x.(v_free) x.(v_used_idx)
    x.(v_info) x.(v_ops) x.(v_pages).
Definition set_v_avail_ring (v : list Z) (x : vdisk) : vdisk :=
  mkvdisk x.(v_desc) x.(v_avail_idx) v x.(v_dev_idx) x.(v_dev_ring) x.(v_free) x.(v_used_idx)
    x.(v_info) x.(v_ops) x.(v_pages).
Definition set_v_dev_idx (v : Z) (x : vdisk) : vdisk :=
  mkvdisk x.(v_desc) x.(v_avail_idx) x.(v_avail_ring) v x.(v_dev_ring) x.(v_free) x.(v_used_idx)
    x.(v_info) x.(v_ops) x.(v_pages).
Definition set_v_dev_ring (v : list Z) (x : vdisk) : vdisk :=
  mkvdisk x.(v_desc) x.(v_avail_idx) x.(v_avail_ring) x.(v_dev_idx) v x.(v_free) x.(v_used_idx)
    x.(v_info) x.(v_ops) x.(v_pages).
Definition set_v_free (v : list bool) (x : vdisk) : vdisk :=
  mkvdisk x.(v_desc) x.(v_avail_idx) x.(v_avail_ring) x.(v_dev_idx) x.(v_dev_ring) v
    x.(v_used_idx) x.(v_info) x.(v_ops) x.(v_pages).
Definition set_v_used_idx (v : Z) (x : vdisk) : vdisk :=
  mkvdisk x.(v_desc) x.(v_avail_idx) x.(v_avail_ring) x.(v_dev_idx) x.(v_dev_ring) x.(v_free) v
    x.(v_info) x.(v_ops) x.(v_pages).
Definition set_v_info (v : list vinfo) (x : vdisk) : vdisk :=
  mkvdisk x.(v_desc) x.(v_avail_idx) x.(v_avail_ring) x.(v_dev_idx) x.(v_dev_ring) x.(v_free)
    x.(v_used_idx) v x.(v_ops) x.(v_pages).
Definition set_v_ops (v : list vreq) (x : vdisk) : vdisk :=
  mkvdisk x.(v_desc) x.(v_avail_idx) x.(v_avail_ring) x.(v_dev_idx) x.(v_dev_ring) x.(v_free)
    x.(v_used_idx) x.(v_info) v x.(v_pages).
Definition set_v_pages (v : Z * Z * Z) (x : vdisk) : vdisk :=
  mkvdisk x.(v_desc) x.(v_avail_idx) x.(v_avail_ring) x.(v_dev_idx) x.(v_dev_ring) x.(v_free)
    x.(v_used_idx) x.(v_info) x.(v_ops) v.

(** The console's input buffer [cons], the UART driver's [tx_busy], the
    characters waiting in the UART's receive FIFO, [devsw], the disk driver's
    [disk], the values stored in device registers so far, by address, and how
    long the UART takes to send: after [n] bytes, [d_busy n] reads of its line
    status register find it still sending. *)
Record devst : Type := mkdevst {
  d_buf : list Z;
  d_r : Z;
  d_w : Z;
  d_e : Z;
  d_tx_busy : bool;
  d_rx : list Z;
  d_devsw : list (option devfun);
  d_disk : vdisk;
  d_mmio : list (Z * Z);
  d_busy : nat -> nat
}.

Definition set_d_buf (v : list Z) (x : devst) : devst :=
  mkdevst v x.(d_r) x.(d_w) x.(d_e) x.(d_tx_busy) x.(d_rx) x.(d_devsw) x.(d_disk) x.(d_mmio) x.(d_busy).
Definition set_d_r (v : Z) (x : devst) : devst :=
  mkdevst x.(d_buf) v x.(d_w) x.(d_e) x.(d_tx_busy) x.(d_rx) x.(d_devsw) x.(d_disk) x.(d_mmio) x.(d_busy).
Definition set_d_w (v : Z) (x : devst) : devst :=
  mkdevst x.(d_buf) x.(d_r) v x.(d_e) x.(d_tx_busy) x.(d_rx) x.(d_devsw) x.(d_disk) x.(d_mmio) x.(d_busy).
Definition set_d_e (v : Z) (x : devst) : devst :=
  mkdevst x.(d_buf) x.(d_r) x.(d_w) v x.(d_tx_busy) x.(d_rx) x.(d_devsw) x.(d_disk) x.(d_mmio) x.(d_busy).
Definition set_d_tx_busy (v : bool) (x : devst) : devst :=
  mkdevst x.(d_buf) x.(d_r) x.(d_w) x.(d_e) v x.(d_rx) x.(d_devsw) x.(d_disk) x.(d_mmio) x.(d_busy).
Definition set_d_rx (v : list Z) (x : devst) : devst :=
  mkdevst x.(d_buf) x.(d_r) x.(d_w) x.(d_e) x.(d_tx_busy) v x.(d_devsw) x.(d_disk) x.(d_mmio) x.(d_busy).
Definition set_d_devsw (v : list (option devfun)) (x : devst) : devst :=
  mkdevst x.(d_buf) x.(d_r) x.(d_w) x.(d_e) x.(d_tx_busy) x.(d_rx) v x.(d_disk) x.(d_mmio) x.(d_busy).
Definition set_d_disk (v : vdisk) (x : devst) : devst :=
  mkdevst x.(d_buf) x.(d_r) x.(d_w) x.(d_e) x.(d_tx_busy) x.(d_rx) x.(d_devsw) v x.(d_mmio) x.(d_busy).
Definition set_d_mmio (v : list (Z * Z)) (x : devst) : devst :=
  mkdevst x.(d_buf) x.(d_r) x.(d_w) x.(d_e) x.(d_tx_busy) x.(d_rx) x.(d_devsw) x.(d_disk) v x.(d_busy).

(** The kernel's global variables. [k_mem] is physical memory, byte by byte;
    [k_end] the linker's symbol [end]; [k_out] the characters sent to the
    UART so far; [k_time] and [k_stimecmp] the RISC-V timer registers;
    [k_nsw] counts the context switches taken; [k_pipes] holds the pipes, by
    the address of the page each was allocated in; [k_first] is [first] of
    [forkret] and [k_kpt] is [kernel_pagetable]. *)
Record kst : Type := mkkst {
  k_sync : sync;
  k_procs : list proc;
  k_initproc : option nat;
  k_nextpid : Z;
  k_ticks : Z;
  k_timer_interval : Z;
  k_stimecmp : Z;
  k_time : Z;
  k_mem : Z -> Z;
  k_freelist : Z;
  k_end : Z;
  k_slocks : gmap slid sleeplock;
  k_demo_inited : bool;
  k_out : list Z;
  k_panicking : bool;
  k_panicked : bool;
  k_nsw : nat;
  k_csr : csrs;
  k_pipes : gmap Z pipe;
  k_fs : fsst;
  k_dev : devst;
  k_first : bool;
  k_kpt : Z
}.

(** ** Field updates *)

Definition set_c_proc (v : option nat) (x : cpu) : cpu :=
  mkcpu v x.(c_noff) x.(c_intena) x.(c_sie).
Definition set_c_noff (v : Z) (x : cpu) : cpu :=
  mkcpu x.(c_proc) v x.(c_intena) x.(c_sie).
Definition set_c_intena (v : bool) (x : cpu) : cpu :=
  mkcpu x.(c_proc) x.(c_noff) v x.(c_sie).
Definition set_c_sie (v : bool) (x : cpu) : cpu :=
  mkcpu x.(c_proc) x.(c_noff) x.(c_intena) v.

Definition set_sl_name (v : string) (x : spinlock) : spinlock :=
  mkspin v x.(sl_locked) x.(sl_cpu).
Definition set_sl_locked (v : bool) (x : spinlock) : spinlock :=
  mkspin x.(sl_name) v x.(sl_cpu).
Definition set_sl_cpu (v : option nat) (x : spinlock) : spinlock :=
  mkspin x.(sl_name) x.(sl_locked) v.

Definition set_y_hart (v : nat) (x : sync) : sync :=
  mksync v x.(y_cpus) x.(y_locks).
Definition set_y_cpus (v : list cpu) (x : sync) : sync :=
  mksync x.(y_hart) v x.(y_locks).
Definition set_y_locks (v : gmap lockid spinlock) (x : sync) : sync :=
  mksync x.(y_hart) x.(y_cpus) v.

Definition set_slk_locked (v : bool) (x : sleeplock) : sleeplock :=
  mksleep v x.(slk_name) x.(slk_pid).
Definition set_slk_name (v : string) (x : sleeplock) : sleeplock :=
  mksleep x.(slk_locked) v x.(slk_pid).
Definition set_slk_pid (v : Z) (x : sleeplock) : sleeplock :=
  mksleep x.(slk_locked) x.(slk_name) v.

Definition set_ctx_ra (v : Z) (x : context) : context :=
  mkcontext v x.(ctx_sp) x.(ctx_s).
Definition set_ctx_sp (v : Z) (x : context) : context :=
  mkcontext x.(ctx_ra) v x.(ctx_s).
Definition set_ctx_s (v : list Z) (x : context) : context :=
  mkcontext x.(ctx_ra) x.(ctx_sp) v.

Definition set_p_state (v : procstate) (x : proc) : proc :=
mkproc v x.(p_chan) x.(p_killed) x.(p_xstate) x.(p_pid) x.(p_parent) x.(p_kstack) x.(p_sz)
    x.(p_pagetable) x.(p_trapframe) x.(p_context) x.(p_ofile) x.(p_cwd) x.(p_name)
    x.(p_waiting_tick) x.(p_energy_budget) x.(p_energy_consumed) x.(p_last_scheduled_tick)
    x.(p_waiting_for_lock) x.(p_deadlock_reports) x.(p_in_deadlock) x.(p_holding_res)
    x.(p_waiting_res).
Definition set_p_chan (v : option chan) (x : proc) : proc :=
mkproc x.(p_state) v x.(p_killed) x.(p_xstate) x.(p_pid) x.(p_parent) x.(p_kstack) x.(p_sz)
    x.(p_pagetable) x.(p_trapframe) x.(p_context) x.(p_ofile) x.(p_cwd) x.(p_name)
    x.(p_waiting_tick) x.(p_energy_budget) x.(p_energy_consumed) x.(p_last_scheduled_tick)
    x.(p_waiting_for_lock) x.(p_deadlock_reports) x.(p_in_deadlock) x.(p_holding_res)
    x.(p_waiting_res).
Definition set_p_killed (v : bool) (x : proc) : proc :=
mkproc x.(p_state) x.(p_chan) v x.(p_xstate) x.(p_pid) x.(p_parent) x.(p_kstack) x.(p_sz)
    x.(p_pagetable) x.(p_trapframe) x.(p_context) x.(p_ofile) x.(p_cwd) x.(p_name)
    x.(p_waiting_tick) x.(p_energy_budget) x.(p_energy_consumed) x.(p_last_scheduled_tick)
    x.(p_waiting_for_lock) x.(p_deadlock_reports) x.(p_in_deadlock) x.(p_holding_res)
    x.(p_waiting_res).
Definition set_p_xstate (v : Z) (x : proc) : proc :=
mkproc x.(p_state) x.(p_chan) x.(p_killed) v x.(p_pid) x.(p_parent) x.(p_kstack) x.(p_sz)
    x.(p_pagetable) x.(p_trapframe) x.(p_context) x.(p_ofile) x.(p_cwd) x.(p_name)
    x.(p_waiting_tick) x.(p_energy_budget) x.(p_energy_consumed) x.(p_last_scheduled_tick)
    x.(p_waiting_for_lock) x.(p_deadlock_reports) x.(p_in_deadlock) x.(p_holding_res)
    x.(p_waiting_res).
Definition set_p_pid (v : Z) (x : proc) : proc :=
mkproc x.(p_state) x.(p_chan) x.(p_killed) x.(p_xstate) v x.(p_parent) x.(p_kstack) x.(p_sz)
    x.(p_pagetable) x.(p_trapframe) x.(p_context) x.(p_ofile) x.(p_cwd) x.(p_name)
    x.(p_waiting_tick) x.(p_energy_budget) x.(p_energy_consumed) x.(p_last_scheduled_tick)
    x.(p_waiting_for_lock) x.(p_deadlock_reports) x.(p_in_deadlock) x.(p_holding_res)
    x.(p_waiting_res).
Definition set_p_parent (v : option nat) (x : proc) : proc :=
mkproc x.(p_state) x.(p_chan) x.(p_killed) x.(p_xstate) x.(p_pid) v x.(p_kstack) x.(p_sz)
    x.(p_pagetable) x.(p_trapframe) x.(p_context) x.(p_ofile) x.(p_cwd) x.(p_name)
    x.(p_waiting_tick) x.(p_energy_budget) x.(p_energy_consumed) x.(p_last_scheduled_tick)
    x.(p_waiting_for_lock) x.(p_deadlock_reports) x.(p_in_deadlock) x.(p_holding_res)
    x.(p_waiting_res).
Definition set_p_kstack (v : Z) (x : proc) : proc :=
mkproc x.(p_state) x.(p_chan) x.(p_killed) x.(p_xstate) x.(p_pid) x.(p_parent) v x.(p_sz)
    x.(p_pagetable) x.(p_trapframe) x.(p_context) x.(p_ofile) x.(p_cwd) x.(p_name)
    x.(p_waiting_tick) x.(p_energy_budget) x.(p_energy_consumed) x.(p_last_scheduled_tick)
    x.(p_waiting_for_lock) x.(p_deadlock_reports) x.(p_in_deadlock) x.(p_holding_res)
    x.(p_waiting_res).
Definition set_p_sz (v : Z) (x : proc) : proc :=
mkproc x.(p_state) x.(p_chan) x.(p_killed) x.(p_xstate) x.(p_pid) x.(p_parent) x.(p_kstack) v
    x.(p_pagetable) x.(p_trapframe) x.(p_context) x.(p_ofile) x.(p_cwd) x.(p_name)
    x.(p_waiting_tick) x.(p_energy_budget) x.(p_energy_consumed) x.(p_last_scheduled_tick)
    x.(p_waiting_for_lock) x.(p_deadlock_reports) x.(p_in_deadlock) x.(p_holding_res)
    x.(p_waiting_res).
Definition set_p_pagetable (v : Z) (x : proc) : proc :=
mkproc x.(p_state) x.(p_chan) x.(p_killed) x.(p_xstate) x.(p_pid) x.(p_parent) x.(p_kstack)
    x.(p_sz) v x.(p_trapframe) x.(p_context) x.(p_ofile) x.(p_cwd) x.(p_name) x.(p_waiting_tick)
    x.(p_energy_budget) x.(p_energy_consumed) x.(p_last_scheduled_tick) x.(p_waiting_for_lock)
    x.(p_deadlock_reports) x.(p_in_deadlock) x.(p_holding_res) x.(p_waiting_res).
Definition set_p_trapframe (v : Z) (x : proc) : proc :=
mkproc x.(p_state) x.(p_chan) x.(p_killed) x.(p_xstate) x.(p_pid) x.(p_parent) x.(p_kstack)
    x.(p_sz) x.(p_pagetable) v x.(p_context) x.(p_ofile) x.(p_cwd) x.(p_name) x.(p_waiting_tick)
    x.(p_energy_budget) x.(p_energy_consumed) x.(p_last_scheduled_tick) x.(p_waiting_for_lock)
    x.(p_deadlock_reports) x.(p_in_deadlock) x.(p_holding_res) x.(p_waiting_res).
Definition set_p_context (v : context) (x : proc) : proc :=
mkproc x.(p_state) x.(p_chan) x.(p_killed) x.(p_xstate) x.(p_pid) x.(p_parent) x.(p_kstack)
    x.(p_sz) x.(p_pagetable) x.(p_trapframe) v x.(p_ofile) x.(p_cwd) x.(p_name)
    x.(p_waiting_tick) x.(p_energy_budget) x.(p_energy_consumed) x.(p_last_scheduled_tick)
    x.(p_waiting_for_lock) x.(p_deadlock_reports) x.(p_in_deadlock) x.(p_holding_res)
    x.(p_waiting_res).
Definition set_p_ofile (v : list (option nat)) (x : proc) : proc :=
mkproc x.(p_state) x.(p_chan) x.(p_killed) x.(p_xstate) x.(p_pid) x.(p_parent) x.(p_kstack)
    x.(p_sz) x.(p_pagetable) x.(p_trapframe) x.(p_context) v x.(p_cwd) x.(p_name)
    x.(p_waiting_tick) x.(p_energy_budget) x.(p_energy_consumed) x.(p_last_scheduled_tick)
    x.(p_waiting_for_lock) x.(p_deadlock_reports) x.(p_in_deadlock) x.(p_holding_res)
    x.(p_waiting_res).
Definition set_p_cwd (v : option nat) (x : proc) : proc :=
mkproc x.(p_state) x.(p_chan) x.(p_killed) x.(p_xstate) x.(p_pid) x.(p_parent) x.(p_kstack)
    x.(p_sz) x.(p_pagetable) x.(p_trapframe) x.(p_context) x.(p_ofile) v x.(p_name)
    x.(p_waiting_tick) x.(p_energy_budget) x.(p_energy_consumed) x.(p_last_scheduled_tick)
    x.(p_waiting_for_lock) x.(p_deadlock_reports) x.(p_in_deadlock) x.(p_holding_res)
    x.(p_waiting_res).
Definition set_p_name (v : list Z) (x : proc) : proc :=
mkproc x.(p_state) x.(p_chan) x.(p_killed) x.(p_xstate) x.(p_pid) x.(p_parent) x.(p_kstack)
    x.(p_sz) x.(p_pagetable) x.(p_trapframe) x.(p_context) x.(p_ofile) x.(p_cwd) v
    x.(p_waiting_tick) x.(p_energy_budget) x.(p_energy_consumed) x.(p_last_scheduled_tick)
    x.(p_waiting_for_lock) x.(p_deadlock_reports) x.(p_in_deadlock) x.(p_holding_res)
    x.(p_waiting_res).
Definition set_p_waiting_tick (v : Z) (x : proc) : proc :=
mkproc x.(p_state) x.(p_chan) x.(p_killed) x.(p_xstate) x.(p_pid) x.(p_parent) x.(p_kstack)
    x.(p_sz) x.(p_pagetable) x.(p_trapframe) x.(p_context) x.(p_ofile) x.(p_cwd) x.(p_name) v
    x.(p_energy_budget) x.(p_energy_consumed) x.(p_last_scheduled_tick) x.(p_waiting_for_lock)
    x.(p_deadlock_reports) x.(p_in_deadlock) x.(p_holding_res) x.(p_waiting_res).
Definition set_p_energy_budget (v : Z) (x : proc) : proc :=
mkproc x.(p_state) x.(p_chan) x.(p_killed) x.(p_xstate) x.(p_pid) x.(p_parent) x.(p_kstack)
    x.(p_sz) x.(p_pagetable) x.(p_trapframe) x.(p_context) x.(p_ofile) x.(p_cwd) x.(p_name)
    x.(p_waiting_tick) v x.(p_energy_consumed) x.(p_last_scheduled_tick) x.(p_waiting_for_lock)
    x.(p_deadlock_reports) x.(p_in_deadlock) x.(p_holding_res) x.(p_waiting_res).
Definition set_p_energy_consumed (v : Z) (x : proc) : proc :=
mkproc x.(p_state) x.(p_chan) x.(p_killed) x.(p_xstate) x.(p_pid) x.(p_parent) x.(p_kstack)
    x.(p_sz) x.(p_pagetable) x.(p_trapframe) x.(p_context) x.(p_ofile) x.(p_cwd) x.(p_name)
    x.(p_waiting_tick) x.(p_energy_budget) v x.(p_last_scheduled_tick) x.(p_waiting_for_lock)
    x.(p_deadlock_reports) x.(p_in_deadlock) x.(p_holding_res) x.(p_waiting_res).
Definition set_p_last_scheduled_tick (v : Z) (x : proc) : proc :=
mkproc x.(p_state) x.(p_chan) x.(p_killed) x.(p_xstate) x.(p_pid) x.(p_parent) x.(p_kstack)
    x.(p_sz) x.(p_pagetable) x.(p_trapframe) x.(p_context) x.(p_ofile) x.(p_cwd) x.(p_name)
    x.(p_waiting_tick) x.(p_energy_budget) x.(p_energy_consumed) v x.(p_waiting_for_lock)
    x.(p_deadlock_reports) x.(p_in_deadlock) x.(p_holding_res) x.(p_waiting_res).
Definition set_p_waiting_for_lock (v : option slid) (x : proc) : proc :=
mkproc x.(p_state) x.(p_chan) x.(p_killed) x.(p_xstate) x.(p_pid) x.(p_parent) x.(p_kstack)
    x.(p_sz) x.(p_pagetable) x.(p_trapframe) x.(p_context) x.(p_ofile) x.(p_cwd) x.(p_name)
    x.(p_waiting_tick) x.(p_energy_budget) x.(p_energy_consumed) x.(p_last_scheduled_tick) v
    x.(p_deadlock_reports) x.(p_in_deadlock) x.(p_holding_res) x.(p_waiting_res).
Definition set_p_deadlock_reports (v : Z) (x : proc) : proc :=
mkproc x.(p_state) x.(p_chan) x.(p_killed) x.(p_xstate) x.(p_pid) x.(p_parent) x.(p_kstack)
    x.(p_sz) x.(p_pagetable) x.(p_trapframe) x.(p_context) x.(p_ofile) x.(p_cwd) x.(p_name)
    x.(p_waiting_tick) x.(p_energy_budget) x.(p_energy_consumed) x.(p_last_scheduled_tick)
    x.(p_waiting_for_lock) v x.(p_in_deadlock) x.(p_holding_res) x.(p_waiting_res).
Definition set_p_in_deadlock (v : bool) (x : proc) : proc :=
mkproc x.(p_state) x.(p_chan) x.(p_killed) x.(p_xstate) x.(p_pid) x.(p_parent) x.(p_kstack)
    x.(p_sz) x.(p_pagetable) x.(p_trapframe) x.(p_context) x.(p_ofile) x.(p_cwd) x.(p_name)
    x.(p_waiting_tick) x.(p_energy_budget) x.(p_energy_consumed) x.(p_last_scheduled_tick)
    x.(p_waiting_for_lock) x.(p_deadlock_reports) v x.(p_holding_res) x.(p_waiting_res).
Definition set_p_holding_res (v : list bool) (x : proc) : proc :=
mkproc x.(p_state) x.(p_chan) x.(p_killed) x.(p_xstate) x.(p_pid) x.(p_parent) x.(p_kstack)
    x.(p_sz) x.(p_pagetable) x.(p_trapframe) x.(p_context) x.(p_ofile) x.(p_cwd) x.(p_name)
    x.(p_waiting_tick) x.(p_energy_budget) x.(p_energy_consumed) x.(p_last_scheduled_tick)
    x.(p_waiting_for_lock) x.(p_deadlock_reports) x.(p_in_deadlock) v x.(p_waiting_res).
Definition set_p_waiting_res (v : Z) (x : proc) : proc :=
mkproc x.(p_state) x.(p_chan) x.(p_killed) x.(p_xstate) x.(p_pid) x.(p_parent) x.(p_kstack)
    x.(p_sz) x.(p_pagetable) x.(p_trapframe) x.(p_context) x.(p_ofile) x.(p_cwd) x.(p_name)
    x.(p_waiting_tick) x.(p_energy_budget) x.(p_energy_consumed) x.(p_last_scheduled_tick)
    x.(p_waiting_for_lock) x.(p_deadlock_reports) x.(p_in_deadlock) x.(p_holding_res) v.

Definition set_k_sync (v : sync) (x : kst) : kst :=
  mkkst v x.(k_procs) x.(k_initproc) x.(k_nextpid) x.(k_ticks) x.(k_timer_interval)
    x.(k_stimecmp) x.(k_time) x.(k_mem) x.(k_freelist) x.(k_end) x.(k_slocks) x.(k_demo_inited)
    x.(k_out) x.(k_panicking) x.(k_panicked) x.(k_nsw) x.(k_csr) x.(k_pipes) x.(k_fs) x.(k_dev)
    x.(k_first) x.(k_kpt).
Definition set_k_procs (v : list proc) (x : kst) : kst :=
  mkkst x.(k_sync) v x.(k_initproc) x.(k_nextpid) x.(k_ticks) x.(k_timer_interval)
    x.(k_stimecmp) x.(k_time) x.(k_mem) x.(k_freelist) x.(k_end) x.(k_slocks) x.(k_demo_inited)
    x.(k_out) x.(k_panicking) x.(k_panicked) x.(k_nsw) x.(k_csr) x.(k_pipes) x.(k_fs) x.(k_dev)
    x.(k_first) x.(k_kpt).
Definition set_k_initproc (v : option nat) (x : kst) : kst :=
  mkkst x.(k_sync) x.(k_procs) v x.(k_nextpid) x.(k_ticks) x.(k_timer_interval) x.(k_stimecmp)
    x.(k_time) x.(k_mem) x.(k_freelist) x.(k_end) x.(k_slocks) x.(k_demo_inited) x.(k_out)
    x.(k_panicking) x.(k_panicked) x.(k_nsw) x.(k_csr) x.(k_pipes) x.(k_fs) x.(k_dev)
    x.(k_first) x.(k_kpt).
Definition set_k_nextpid (v : Z) (x : kst) : kst :=
  mkkst x.(k_sync) x.(k_procs) x.(k_initproc) v x.(k_ticks) x.(k_timer_interval) x.(k_stimecmp)
    x.(k_time) x.(k_mem) x.(k_freelist) x.(k_end) x.(k_slocks) x.(k_demo_inited) x.(k_out)
    x.(k_panicking) x.(k_panicked) x.(k_nsw) x.(k_csr) x.(k_pipes) x.(k_fs) x.(k_dev)
    x.(k_first) x.(k_kpt).
Definition set_k_ticks (v : Z) (x : kst) : kst :=
  mkkst x.(k_sync) x.(k_procs) x.(k_initproc) x.(k_nextpid) v x.(k_timer_interval)
    x.(k_stimecmp) x.(k_time) x.(k_mem) x.(k_freelist) x.(k_end) x.(k_slocks) x.(k_demo_inited)
    x.(k_out) x.(k_panicking) x.(k_panicked) x.(k_nsw) x.(k_csr) x.(k_pipes) x.(k_fs) x.(k_dev)
    x.(k_first) x.(k_kpt).
Definition set_k_timer_interval (v : Z) (x : kst) : kst :=
  mkkst x.(k_sync) x.(k_procs) x.(k_initproc) x.(k_nextpid) x.(k_ticks) v x.(k_stimecmp)
    x.(k_time) x.(k_mem) x.(k_freelist) x.(k_end) x.(k_slocks) x.(k_demo_inited) x.(k_out)
    x.(k_panicking) x.(k_panicked) x.(k_nsw) x.(k_csr) x.(k_pipes) x.(k_fs) x.(k_dev)
    x.(k_first) x.(k_kpt).
Definition set_k_stimecmp (v : Z) (x : kst) : kst :=
  mkkst x.(k_sync) x.(k_procs) x.(k_initproc) x.(k_nextpid) x.(k_ticks) x.(k_timer_interval) v
    x.(k_time) x.(k_mem) x.(k_freelist) x.(k_end) x.(k_slocks) x.(k_demo_inited) x.(k_out)
    x.(k_panicking) x.(k_panicked) x.(k_nsw) x.(k_csr) x.(k_pipes) x.(k_fs) x.(k_dev)
    x.(k_first) x.(k_kpt).
Definition set_k_time (v : Z) (x : kst) : kst :=
  mkkst x.(k_sync) x.(k_procs) x.(k_initproc) x.(k_nextpid) x.(k_ticks) x.(k_timer_interval)
    x.(k_stimecmp) v x.(k_mem) x.(k_freelist) x.(k_end) x.(k_slocks) x.(k_demo_inited) x.(k_out)
    x.(k_panicking) x.(k_panicked) x.(k_nsw) x.(k_csr) x.(k_pipes) x.(k_fs) x.(k_dev)
    x.(k_first) x.(k_kpt).
Definition set_k_mem (v : Z -> Z) (x : kst) : kst :=
  mkkst x.(k_sync) x.(k_procs) x.(k_initproc) x.(k_nextpid) x.(k_ticks) x.(k_timer_interval)
    x.(k_stimecmp) x.(k_time) v x.(k_freelist) x.(k_end) x.(k_slocks) x.(k_demo_inited)
    x.(k_out) x.(k_panicking) x.(k_panicked) x.(k_nsw) x.(k_csr) x.(k_pipes) x.(k_fs) x.(k_dev)
    x.(k_first) x.(k_kpt).
Definition set_k_freelist (v : Z) (x : kst) : kst :=
  mkkst x.(k_sync) x.(k_procs) x.(k_initproc) x.(k_nextpid) x.(k_ticks) x.(k_timer_interval)
    x.(k_stimecmp) x.(k_time) x.(k_mem) v x.(k_end) x.(k_slocks) x.(k_demo_inited) x.(k_out)
    x.(k_panicking) x.(k_panicked) x.(k_nsw) x.(k_csr) x.(k_pipes) x.(k_fs) x.(k_dev)
    x.(k_first) x.(k_kpt).
Definition set_k_end (v : Z) (x : kst) : kst :=
  mkkst x.(k_sync) x.(k_procs) x.(k_initproc) x.(k_nextpid) x.(k_ticks) x.(k_timer_interval)
    x.(k_stimecmp) x.(k_time) x.(k_mem) x.(k_freelist) v x.(k_slocks) x.(k_demo_inited)
    x.(k_out) x.(k_panicking) x.(k_panicked) x.(k_nsw) x.(k_csr) x.(k_pipes) x.(k_fs) x.(k_dev)
    x.(k_first) x.(k_kpt).
Definition set_k_slocks (v : gmap slid sleeplock) (x : kst) : kst :=
  mkkst x.(k_sync) x.(k_procs) x.(k_initproc) x.(k_nextpid) x.(k_ticks) x.(k_timer_interval)
    x.(k_stimecmp) x.(k_time) x.(k_mem) x.(k_freelist) x.(k_end) v x.(k_demo_inited) x.(k_out)
    x.(k_panicking) x.(k_panicked) x.(k_nsw) x.(k_csr) x.(k_pipes) x.(k_fs) x.(k_dev)
    x.(k_first) x.(k_kpt).
Definition set_k_demo_inited (v : bool) (x : kst) : kst :=
  mkkst x.(k_sync) x.(k_procs) x.(k_initproc) x.(k_nextpid) x.(k_ticks) x.(k_timer_interval)
    x.(k_stimecmp) x.(k_time) x.(k_mem) x.(k_freelist) x.(k_end) x.(k_slocks) v x.(k_out)
    x.(k_panicking) x.(k_panicked) x.(k_nsw) x.(k_csr) x.(k_pipes) x.(k_fs) x.(k_dev)
    x.(k_first) x.(k_kpt).
Definition set_k_out (v : list Z) (x : kst) : kst :=
  mkkst x.(k_sync) x.(k_procs) x.(k_initproc) x.(k_nextpid) x.(k_ticks) x.(k_timer_interval)
    x.(k_stimecmp) x.(k_time) x.(k_mem) x.(k_freelist) x.(k_end) x.(k_slocks) x.(k_demo_inited)
    v x.(k_panicking) x.(k_panicked) x.(k_nsw) x.(k_csr) x.(k_pipes) x.(k_fs) x.(k_dev)
    x.(k_first) x.(k_kpt).
Definition set_k_panicking (v : bool) (x : kst) : kst :=
  mkkst x.(k_sync) x.(k_procs) x.(k_initproc) x.(k_nextpid) x.(k_ticks) x.(k_timer_interval)
    x.(k_stimecmp) x.(k_time) x.(k_mem) x.(k_freelist) x.(k_end) x.(k_slocks) x.(k_demo_inited)
    x.(k_out) v x.(k_panicked) x.(k_nsw) x.(k_csr) x.(k_pipes) x.(k_fs) x.(k_dev) x.(k_first)
    x.(k_kpt).
Definition set_k_panicked (v : bool) (x : kst) : kst :=
  mkkst x.(k_sync) x.(k_procs) x.(k_initproc) x.(k_nextpid) x.(k_ticks) x.(k_timer_interval)
    x.(k_stimecmp) x.(k_time) x.(k_mem) x.(k_freelist) x.(k_end) x.(k_slocks) x.(k_demo_inited)
    x.(k_out) x.(k_panicking) v x.(k_nsw) x.(k_csr) x.(k_pipes) x.(k_fs) x.(k_dev) x.(k_first)
    x.(k_kpt).
Definition set_k_nsw (v : nat) (x : kst) : kst :=
  mkkst x.(k_sync) x.(k_procs) x.(k_initproc) x.(k_nextpid) x.(k_ticks) x.(k_timer_interval)
    x.(k_stimecmp) x.(k_time) x.(k_mem) x.(k_freelist) x.(k_end) x.(k_slocks) x.(k_demo_inited)
    x.(k_out) x.(k_panicking) x.(k_panicked) v x.(k_csr) x.(k_pipes) x.(k_fs) x.(k_dev)
    x.(k_first) x.(k_kpt).
Definition set_k_csr (v : csrs) (x : kst) : kst :=
  mkkst x.(k_sync) x.(k_procs) x.(k_initproc) x.(k_nextpid) x.(k_ticks) x.(k_timer_interval)
    x.(k_stimecmp) x.(k_time) x.(k_mem) x.(k_freelist) x.(k_end) x.(k_slocks) x.(k_demo_inited)
    x.(k_out) x.(k_panicking) x.(k_panicked) x.(k_nsw) v x.(k_pipes) x.(k_fs) x.(k_dev)
    x.(k_first) x.(k_kpt).
Definition set_k_pipes (v : gmap Z pipe) (x : kst) : kst :=
  mkkst x.(k_sync) x.(k_procs) x.(k_initproc) x.(k_nextpid) x.(k_ticks) x.(k_timer_interval)
    x.(k_stimecmp) x.(k_time) x.(k_mem) x.(k_freelist) x.(k_end) x.(k_slocks) x.(k_demo_inited)
    x.(k_out) x.(k_panicking) x.(k_panicked) x.(k_nsw) x.(k_csr) v x.(k_fs) x.(k_dev)
    x.(k_first) x.(k_kpt).
Definition set_k_fs (v : fsst) (x : kst) : kst :=
  mkkst x.(k_sync) x.(k_procs) x.(k_initproc) x.(k_nextpid) x.(k_ticks) x.(k_timer_interval)
    x.(k_stimecmp) x.(k_time) x.(k_mem) x.(k_freelist) x.(k_end) x.(k_slocks) x.(k_demo_inited)
    x.(k_out) x.(k_panicking) x.(k_panicked) x.(k_nsw) x.(k_csr) x.(k_pipes) v x.(k_dev)
    x.(k_first) x.(k_kpt).
Definition set_k_dev (v : devst) (x : kst) : kst :=
  mkkst x.(k_sync) x.(k_procs) x.(k_initproc) x.(k_nextpid) x.(k_ticks) x.(k_timer_interval)
    x.(k_stimecmp) x.(k_time) x.(k_mem) x.(k_freelist) x.(k_end) x.(k_slocks) x.(k_demo_inited)
    x.(k_out) x.(k_panicking) x.(k_panicked) x.(k_nsw) x.(k_csr) x.(k_pipes) x.(k_fs) v
    x.(k_first) x.(k_kpt).
Definition set_k_first (v : bool) (x : kst) : kst :=
  mkkst x.(k_sync) x.(k_procs) x.(k_initproc) x.(k_nextpid) x.(k_ticks) x.(k_timer_interval)
    x.(k_stimecmp) x.(k_time) x.(k_mem) x.(k_freelist) x.(k_end) x.(k_slocks) x.(k_demo_inited)
    x.(k_out) x.(k_panicking) x.(k_panicked) x.(k_nsw) x.(k_csr) x.(k_pipes) x.(k_fs) x.(k_dev)
    v x.(k_kpt).
Definition set_k_kpt (v : Z) (x : kst) : kst :=
  mkkst x.(k_sync) x.(k_procs) x.(k_initproc) x.(k_nextpid) x.(k_ticks) x.(k_timer_interval)
    x.(k_stimecmp) x.(k_time) x.(k_mem) x.(k_freelist) x.(k_end) x.(k_slocks) x.(k_demo_inited)
    x.(k_out) x.(k_panicking) x.(k_panicked) x.(k_nsw) x.(k_csr) x.(k_pipes) x.(k_fs) x.(k_dev)
    x.(k_first) v.


(** ** Access to the tables *)

Abbreviation KM := (M kst).

Definition upd_sync (f : sync -> sync) (s : kst) : kst := set_k_sync (f (k_sync s)) s.
Definition upd_procs (f : list proc -> list proc) (s : kst) : kst :=
  set_k_procs (f (k_procs s)) s.
Definition upd_fs (f : fsst -> fsst) (s : kst) : kst := set_k_fs (f (k_fs s)) s.
Definition upd_dev (f : devst -> devst) (s : kst) : kst := set_k_dev (f (k_dev s)) s.

(** [*p] and [p->field = v] for a process pointer; an index outside the table
    is an invalid pointer. *)
Definition getp (i : nat) : KM proc := fun s => deref (k_procs s !! i) s.
Definition updp (i : nat) (f : proc -> proc) : KM unit :=
  _ ← getp i; modify (upd_procs (alter f i)).

Lemma wp_getp i p Q s : k_procs s !! i = Some p -> Q p s -> wp (getp i) Q s.
Proof. intros H HQ. unfold wp, getp. by rewrite H. Qed.

Lemma wp_updp i f Q s :
  (i < length (k_procs s))%nat -> Q tt (upd_procs (alter f i) s) -> wp (updp i f) Q s.
Proof.
  intros [p Hp]%lookup_lt_is_Some_2 HQ. apply wp_bind.
  eapply wp_getp; [done|]. by apply wp_modify.
Qed.

(** Decide an equation between two updates of the same kernel state: both
    sides are evaluated to a record of the fields of the original state. *)
Ltac kflat :=
  cbv beta iota delta [
    k_sync k_procs k_initproc k_nextpid k_ticks k_timer_interval k_stimecmp k_time k_mem
    k_freelist k_end k_slocks k_demo_inited k_out k_panicking k_panicked k_nsw k_csr k_pipes
    k_fs k_dev k_first k_kpt set_k_sync set_k_procs set_k_initproc set_k_nextpid set_k_ticks
    set_k_timer_interval set_k_stimecmp set_k_time set_k_mem set_k_freelist set_k_end
    set_k_slocks set_k_demo_inited set_k_out set_k_panicking set_k_panicked set_k_nsw
    set_k_csr set_k_pipes set_k_fs set_k_dev set_k_first set_k_kpt upd_sync upd_procs upd_fs upd_dev].

Ltac kst_eq :=
  repeat match goal with s : kst |- _ => destruct s end; kflat; try reflexivity; f_equal.
