(* ===== verification/Spinlock.v ===== *)
(** * Spin-locks and interrupt nesting ([spinlock.c])

    [push_off]/[pop_off], [acquire]/[release]/[holding] as functions of the
    kernel state, and the pure functions [acq], [rel] and [touch] on the
    synchronisation state that say exactly what they do. *)

From stdpp Require Import base gmap strings numbers list.
From S2P Require Import Prelude State.

(** ** The code *)

(** [cpuid()] and [mycpu()]: the hart number in [tp]; the [struct cpu] it
    indexes is read and written through [getcpu] and [updcpu]. *)
Definition cpuid : KM nat := gets (fun s => y_hart (k_sync s)).
Definition mycpu : KM nat := cpuid.

Definition cur_cpu (y : sync) : option cpu := y_cpus y !! y_hart y.

Definition getcpu : KM cpu := fun s => deref (cur_cpu (k_sync s)) s.

Definition upd_cpu (f : cpu -> cpu) (y : sync) : sync :=
  set_y_cpus (alter f (y_hart y) (y_cpus y)) y.

Definition updcpu (f : cpu -> cpu) : KM unit := _ ← getcpu; modify (upd_sync (upd_cpu f)).

Definition intr_get : KM bool := c ← getcpu; mret (c_sie c).
Definition intr_on : KM unit := updcpu (set_c_sie true).
Definition intr_off : KM unit := updcpu (set_c_sie false).

Definition initlock (l : lockid) (name : string) : KM unit :=
  modify (upd_sync (fun y => set_y_locks (<[l := mkspin name false None]> (y_locks y)) y)).

Definition getlock (l : lockid) : KM spinlock := fun s => deref (y_locks (k_sync s) !! l) s.
Definition setlock (l : lockid) (k : spinlock) : KM unit :=
  modify (upd_sync (fun y => set_y_locks (<[l := k]> (y_locks y)) y)).

Definition push_off : KM unit :=
  old ← intr_get;
  intr_off;;
  c ← getcpu;
  when (c_noff c =? 0) (updcpu (set_c_intena old));;
  updcpu (fun c => set_c_noff (to_int (c_noff c + 1)) c).

Definition pop_off : KM unit :=
  i ← intr_get;
  if (i : bool) then panic "pop_off - interruptible" else
  c ← getcpu;
  if c_noff c <? 1 then panic "pop_off" else
  updcpu (fun c => set_c_noff (to_int (c_noff c - 1)) c);;
  c ← getcpu;
  when ((c_noff c =? 0) && c_intena c) intr_on.

Definition holding (l : lockid) : KM bool :=
  k ← getlock l;
  id ← mycpu;
  mret (sl_locked k && bool_decide (sl_cpu k = Some id)).

(** The spinning [amoswap] loop: it takes a free lock at once and, while
    another hart holds it, never leaves the loop. *)
Definition acquire (l : lockid) : KM unit :=
  push_off;;
  h ← holding l;
  if (h : bool) then panic "acquire" else
  k ← getlock l;
  if sl_locked k then hang else
  setlock l (set_sl_locked true k);;
  id ← mycpu;
  k ← getlock l;
  setlock l (set_sl_cpu (Some id) k).

Definition release (l : lockid) : KM unit :=
  h ← holding l;
  if negb h then panic "release" else
  k ← getlock l;
  setlock l (set_sl_cpu None k);;
  k ← getlock l;
  setlock l (set_sl_locked false k);;
  pop_off.

(** [release(lk)] through a pointer: [holding(lk)] reads [lk->locked], which
    faults when [lk] is null. *)
Definition release_ptr (lk : option lockid) : KM unit :=
  match lk with Some l => release l | None => fault end.

Definition acquire_ptr (lk : option lockid) : KM unit :=
  match lk with Some l => acquire l | None => push_off;; fault end.

(** [myproc()] *)
Definition myproc : KM (option nat) :=
  push_off;;
  c ← getcpu;
  pop_off;;
  mret (c_proc c).

(** ** What the code does to the synchronisation state *)

Definition push_cpu (c : cpu) : cpu :=
  mkcpu (c_proc c) (to_int (c_noff c + 1)) (if c_noff c =? 0 then c_sie c else c_intena c) false.

Definition pop_cpu (c : cpu) : cpu :=
  mkcpu (c_proc c) (to_int (c_noff c - 1)) (c_intena c)
        (if (to_int (c_noff c - 1) =? 0) && c_intena c then true else c_sie c).

(** A balanced [push_off]/[pop_off] leaves a trace only in the dead
    [intena] slot of a CPU that is not inside any critical section. *)
Definition touch_cpu (c : cpu) : cpu :=
  if c_noff c =? 0 then set_c_intena (c_sie c) c else c.

Definition touch (y : sync) : sync := upd_cpu touch_cpu y.

Definition set_lock (l : lockid) (b : bool) (o : option nat) (y : sync) : sync :=
  set_y_locks (alter (fun k => mkspin (sl_name k) b o) l (y_locks y)) y.

Definition acq (l : lockid) (y : sync) : sync :=
  set_lock l true (Some (y_hart y)) (upd_cpu push_cpu y).

Definition rel (l : lockid) (y : sync) : sync :=
  upd_cpu pop_cpu (set_lock l false None y).

(** ** Well-formed synchronisation states *)

(** The nesting depth is not negative and has room to grow, and interrupts are
    off inside it. *)
Definition cpu_wf (c : cpu) : Prop := 0 <= c_noff c < 2 ^ 31 - 8 /\ (0 < c_noff c -> c_sie c = false).

(** The depth does not overflow its [int]: every level of it is a lock that is
    held, and there are fewer than 2^30 locks. *)
Definition few_locks (y : sync) : Prop := Z.of_nat (size (y_locks y)) < 2 ^ 30.
Definition locked_count (y : sync) : nat := size (filter (fun kv => sl_locked kv.2 = true) (y_locks y)).
Definition depth_ok (c : cpu) (y : sync) : Prop := few_locks y /\ c_noff c <= Z.of_nat (locked_count y).

Definition sync_wf (y : sync) : Prop := exists c, cur_cpu y = Some c /\ cpu_wf c /\ depth_ok c y.

Definition lock_free (l : lockid) (y : sync) : Prop :=
  exists name, y_locks y !! l = Some (mkspin name false None).

(** The executing hart holds [l]. *)
Definition lock_held (l : lockid) (y : sync) : Prop :=
  exists name, y_locks y !! l = Some (mkspin name true (Some (y_hart y))).

Definition noff (y : sync) : Z := default 0 (c_noff <$> cur_cpu y).

#[global] Arguments cur_cpu : simpl never.
#[global] Arguments upd_cpu : simpl never.
#[global] Arguments touch : simpl never.
#[global] Arguments acq : simpl never.
#[global] Arguments rel : simpl never.
#[global] Arguments set_lock : simpl never.

(** ** Algebra of the synchronisation state *)

Section sync_algebra.
Implicit Types (y : sync) (c : cpu) (l : lockid).

Lemma cur_upd_cpu f y : cur_cpu (upd_cpu f y) = f <$> cur_cpu y.
Proof. unfold cur_cpu, upd_cpu, set_y_cpus. cbn. by rewrite list_lookup_alter_eq. Qed.

Lemma upd_cpu_compose f g y : upd_cpu f (upd_cpu g y) = upd_cpu (f ∘ g) y.
Proof. unfold upd_cpu, set_y_cpus. cbn. by rewrite list_alter_alter_eq. Qed.

Lemma upd_cpu_ext f g y c :
  cur_cpu y = Some c -> f c = g c -> upd_cpu f y = upd_cpu g y.
Proof.
  intros Hc Hfg. unfold upd_cpu. f_equal. apply list_alter_ext; [|done].
  unfold cur_cpu in Hc. intros x Hx. by simplify_eq.
Qed.

Lemma upd_cpu_id f y c : cur_cpu y = Some c -> f c = c -> upd_cpu f y = y.
Proof.
  intros Hc Hf. rewrite (upd_cpu_ext f id y c Hc Hf).
  unfold upd_cpu, set_y_cpus. destruct y as [h cs ls]; cbn. f_equal.
  by apply list_alter_id.
Qed.

Lemma upd_cpu_set_lock f l b o y :
  upd_cpu f (set_lock l b o y) = set_lock l b o (upd_cpu f y).
Proof. done. Qed.

Lemma set_lock_lookup_eq l b o y k :
  y_locks y !! l = Some k -> y_locks (set_lock l b o y) !! l = Some (mkspin (sl_name k) b o).
Proof. intros H. unfold set_lock. cbn. by rewrite lookup_alter_eq, H. Qed.

Lemma set_lock_lookup_ne l l' b o y :
  l <> l' -> y_locks (set_lock l b o y) !! l' = y_locks y !! l'.
Proof. intros H. unfold set_lock. cbn. by rewrite lookup_alter_ne. Qed.

Lemma set_lock_twice l b o b' o' y :
  set_lock l b o (set_lock l b' o' y) = set_lock l b o y.
Proof. unfold set_lock, set_y_locks. cbn. by rewrite alter_alter_eq. Qed.

Lemma set_lock_comm l l' b o b' o' y :
  l <> l' -> set_lock l b o (set_lock l' b' o' y) = set_lock l' b' o' (set_lock l b o y).
Proof. intros H. unfold set_lock, set_y_locks. cbn. by rewrite alter_alter_ne. Qed.

Lemma set_lock_id l b o y name :
  y_locks y !! l = Some (mkspin name b o) -> set_lock l b o y = y.
Proof.
  intros H. unfold set_lock, set_y_locks. destruct y as [h cs ls]; cbn in *. f_equal.
  apply map_eq. intros l'. destruct (decide (l = l')) as [->|Hne].
  - by rewrite lookup_alter_eq, H.
  - by rewrite lookup_alter_ne.
Qed.

Lemma insert_set_lock l b o y k :
  y_locks y !! l = Some k ->
  set_y_locks (<[l := mkspin (sl_name k) b o]> (y_locks y)) y = set_lock l b o y.
Proof.
  intros H. unfold set_lock. f_equal. apply map_eq. intros l'.
  destruct (decide (l = l')) as [->|Hne].
  - by rewrite lookup_insert_eq, lookup_alter_eq, H.
  - by rewrite lookup_insert_ne, lookup_alter_ne.
Qed.

Lemma depth_small c y : depth_ok c y -> c_noff c < 2 ^ 30.
Proof.
  intros [Hf Hd]. unfold few_locks in Hf.
  assert (locked_count y <= size (y_locks y))%nat; [|lia].
  apply map_subseteq_size, map_filter_subseteq.
Qed.

Lemma noff_push c : cpu_wf c -> c_noff (push_cpu c) = c_noff c + 1.
Proof. intros [? _]. cbn. apply to_int_small. lia. Qed.

Lemma noff_pop c : cpu_wf c -> to_int (c_noff c - 1) = c_noff c - 1.
Proof. intros [? _]. apply to_int_small. lia. Qed.

Lemma cpu_wf_push c : cpu_wf c -> c_noff c < 2 ^ 30 + 4 -> cpu_wf (push_cpu c).
Proof. intros Hw Hs. split; [|done]. rewrite noff_push by done. destruct Hw. lia. Qed.

Lemma cpu_wf_touch c : cpu_wf c -> cpu_wf (touch_cpu c).
Proof. unfold cpu_wf, touch_cpu. intros [? ?]. by case_match. Qed.

Lemma touch_cpu_idem c : touch_cpu (touch_cpu c) = touch_cpu c.
Proof. unfold touch_cpu. by destruct (c_noff c =? 0) eqn:E; cbn; rewrite E. Qed.

(** Undoing a [push_off] gives the CPU back, up to the dead [intena] slot. *)
Lemma pop_push_cpu c : cpu_wf c -> pop_cpu (push_cpu c) = touch_cpu c.
Proof.
  intros Hw. destruct (Hw) as [H0 H1]. unfold pop_cpu. rewrite noff_push by done.
  replace (c_noff c + 1 - 1) with (c_noff c) by lia. rewrite (to_int_small (c_noff c)) by lia.
  unfold push_cpu, touch_cpu, set_c_intena. cbn.
  destruct c as [pr n ia sie]; cbn in *.
  destruct (Z.eqb_spec n 0) as [->|Hn]; cbn.
  - by destruct sie.
  - rewrite H1 by lia. done.
Qed.

Lemma push_touch_cpu c : push_cpu (touch_cpu c) = push_cpu c.
Proof.
  unfold push_cpu, touch_cpu, set_c_intena.
  destruct (c_noff c =? 0) eqn:E; cbn; rewrite E; done.
Qed.

Lemma y_locks_acq l y name : y_locks y !! l = Some (mkspin name false None) ->
  y_locks (acq l y) = <[l := mkspin name true (Some (y_hart y))]> (y_locks y).
Proof.
  intros Hl. unfold acq, set_lock. cbn. apply map_eq. intros l'.
  change (y_locks (upd_cpu push_cpu y)) with (y_locks y). destruct (decide (l = l')) as [<-|].
  - by rewrite lookup_alter_eq, lookup_insert_eq, Hl.
  - by rewrite lookup_alter_ne, lookup_insert_ne.
Qed.

Lemma locked_count_acq l y : lock_free l y -> locked_count (acq l y) = S (locked_count y).
Proof.
  intros [name Hl]. unfold locked_count. rewrite (y_locks_acq _ _ _ Hl), map_filter_insert_True by done.
  apply map_size_insert_None. apply map_lookup_filter_None. right. intros x Hx. rewrite Hl in Hx. by injection Hx as <-.
Qed.

Lemma few_locks_acq l y : lock_free l y -> few_locks y -> few_locks (acq l y).
Proof.
  intros [name Hl] H. unfold few_locks. rewrite (y_locks_acq _ _ _ Hl).
  by rewrite map_size_insert_Some by (by eexists).
Qed.

Lemma sync_wf_acq l y : sync_wf y -> lock_free l y -> sync_wf (acq l y).
Proof.
  intros (c & Hc & Hwf & Hd) Hl. assert (Hs := depth_small _ _ Hd). exists (push_cpu c).
  split; [|split; [apply cpu_wf_push; [done|lia]|]].
  - change (cur_cpu (acq l y)) with (cur_cpu (upd_cpu push_cpu y)). by rewrite cur_upd_cpu, Hc.
  - destruct Hd as [Hf Hd]. split; [by apply few_locks_acq|].
    rewrite locked_count_acq, noff_push by done. lia.
Qed.

Lemma sync_wf_touch y : sync_wf y -> sync_wf (touch y).
Proof.
  intros (c & Hc & Hwf & Hd). exists (touch_cpu c). split; [|split; [by apply cpu_wf_touch|]].
  - unfold touch. by rewrite cur_upd_cpu, Hc.
  - destruct Hd as [Hf Hd]. split; [done|]. unfold touch_cpu. by case_match.
Qed.

Lemma touch_idem y : touch (touch y) = touch y.
Proof.
  unfold touch. rewrite upd_cpu_compose. unfold upd_cpu. f_equal.
  apply list_alter_ext; [|done]. intros x _. apply touch_cpu_idem.
Qed.

Lemma acq_touch l y : acq l (touch y) = acq l y.
Proof.
  unfold acq, touch. f_equal. rewrite upd_cpu_compose.
  unfold upd_cpu. f_equal. apply list_alter_ext; [|done]. intros x _. apply push_touch_cpu.
Qed.

Lemma acq_touch_eq l y y' : touch y = touch y' -> acq l y = acq l y'.
Proof. intros H. by rewrite <- (acq_touch l y), H, acq_touch. Qed.

(** Inside a critical section there is no trace at all. *)
Lemma touch_acq l y : sync_wf y -> touch (acq l y) = acq l y.
Proof.
  intros (c & Hc & Hw & _). apply (upd_cpu_id _ _ (push_cpu c)).
  - change (cur_cpu (acq l y)) with (cur_cpu (upd_cpu push_cpu y)).
    by rewrite cur_upd_cpu, Hc.
  - unfold touch_cpu. rewrite noff_push by done. destruct Hw. destruct (Z.eqb_spec (c_noff c + 1) 0); [lia|done].
Qed.

(** A critical section is invisible from outside, up to [touch]. *)
Lemma rel_acq l y : sync_wf y -> lock_free l y -> rel l (acq l y) = touch y.
Proof.
  intros (c & Hc & Hwf & _) [name Hl]. unfold rel, acq.
  rewrite set_lock_twice, upd_cpu_set_lock, upd_cpu_compose.
  rewrite (upd_cpu_ext _ touch_cpu y c Hc) by (by apply pop_push_cpu).
  by apply (set_lock_id _ _ _ _ name).
Qed.

(** Hand-over-hand locking: take [l'] while holding [l], then drop [l]. *)
Lemma rel_acq_acq l l' y :
  l <> l' -> sync_wf y -> lock_free l y -> rel l (acq l' (acq l y)) = acq l' y.
Proof.
  intros Hne Hwf Hfree. unfold rel.
  assert (E : set_lock l false None (acq l' (acq l y)) =
              set_lock l' true (Some (y_hart y)) (upd_cpu push_cpu (upd_cpu push_cpu y))).
  { unfold acq. rewrite upd_cpu_set_lock, set_lock_comm by done.
    rewrite set_lock_twice. cbn. f_equal. destruct Hfree as [name Hl].
    apply (set_lock_id _ _ _ _ name). done. }
  rewrite E, upd_cpu_set_lock. unfold acq. f_equal.
  destruct Hwf as (c & Hc & Hw & Hd%depth_small). rewrite !upd_cpu_compose.
  apply (upd_cpu_ext _ _ _ c Hc). unfold compose.
  rewrite pop_push_cpu by (apply cpu_wf_push; [done|lia]).
  unfold touch_cpu. rewrite noff_push by done. destruct Hw.
  destruct (Z.eqb_spec (c_noff c + 1) 0); [lia|done].
Qed.

Lemma lock_free_touch l y : lock_free l (touch y) <-> lock_free l y.
Proof. done. Qed.

Lemma lock_free_acq_ne l l' y : l <> l' -> lock_free l' (acq l y) <-> lock_free l' y.
Proof. intros H. unfold lock_free, acq. by rewrite set_lock_lookup_ne. Qed.

Lemma lock_held_acq l y : lock_free l y -> lock_held l (acq l y).
Proof.
  intros [name Hl]. exists name. unfold acq.
  by erewrite set_lock_lookup_eq by done.
Qed.

Lemma lock_held_acq_ne l l' y : l <> l' -> lock_held l' (acq l y) <-> lock_held l' y.
Proof. intros H. unfold lock_held, acq. by rewrite set_lock_lookup_ne. Qed.

Lemma y_hart_acq l y : y_hart (acq l y) = y_hart y.
Proof. done. Qed.

Lemma noff_acq l y : sync_wf y -> noff (acq l y) = noff y + 1.
Proof.
  intros (c & Hc & Hw & _). unfold noff.
  change (cur_cpu (acq l y)) with (cur_cpu (upd_cpu push_cpu y)).
  rewrite cur_upd_cpu, Hc. by apply noff_push.
Qed.

End sync_algebra.

(** [initlock] outside any critical section. *)
Lemma sync_wf_initlock l name y :
  sync_wf y -> noff y = 0 -> Z.of_nat (S (size (y_locks y))) < 2 ^ 30 ->
  sync_wf (set_y_locks (<[l := mkspin name false None]> (y_locks y)) y).
Proof.
  intros (c & Hc & Hw & _) Hn Hf. exists c. split_and!; [done..|].
  unfold noff in Hn. rewrite Hc in Hn. cbn in Hn. split; [|lia]. unfold few_locks. cbn.
  assert (size (<[l := mkspin name false None]> (y_locks y)) <= S (size (y_locks y)))%nat; [|lia].
  rewrite map_size_insert. by destruct (y_locks y !! l); cbn; lia.
Qed.

Create HintDb sync.
#[export] Hint Resolve sync_wf_acq sync_wf_touch lock_held_acq : sync.

(** ** Running the code *)

Section run.
Implicit Types (s : kst) (y : sync) (c : cpu) (l : lockid).

Lemma wp_getcpu c Q s : cur_cpu (k_sync s) = Some c -> Q c s -> wp getcpu Q s.
Proof. intros H HQ. unfold wp, getcpu. by rewrite H. Qed.

Lemma wp_updcpu f Q s :
  is_Some (cur_cpu (k_sync s)) -> Q tt (upd_sync (upd_cpu f) s) -> wp (updcpu f) Q s.
Proof. intros [c Hc] HQ. apply wp_bind. by eapply wp_getcpu. Qed.

Lemma wp_intr_get c Q s : cur_cpu (k_sync s) = Some c -> Q (c_sie c) s -> wp intr_get Q s.
Proof. intros Hc HQ. apply wp_bind. by eapply wp_getcpu. Qed.

Lemma wp_push_off Q s :
  is_Some (cur_cpu (k_sync s)) ->
  Q tt (upd_sync (upd_cpu push_cpu) s) -> wp push_off Q s.
Proof.
  intros [c Hc] HQ. unfold push_off.
  apply wp_bind. eapply wp_intr_get; [done|].
  apply wp_bind. apply wp_updcpu; [done|].
  apply wp_bind. eapply wp_getcpu; [cbn; by rewrite cur_upd_cpu, Hc|]. cbn.
  apply wp_bind. apply wp_when; intros Hn.
  - apply wp_updcpu; [cbn; by rewrite cur_upd_cpu, Hc|].
    apply wp_updcpu; [cbn; by rewrite !cur_upd_cpu, Hc|].
    same_state HQ. unfold upd_sync, set_k_sync; cbn. f_equal. rewrite !upd_cpu_compose.
    apply (upd_cpu_ext _ _ _ c Hc). unfold push_cpu, compose. cbn. by rewrite Hn.
  - cbv beta. apply wp_updcpu; [cbn; by rewrite cur_upd_cpu, Hc|].
    same_state HQ. unfold upd_sync, set_k_sync; cbn. f_equal. rewrite !upd_cpu_compose.
    apply (upd_cpu_ext _ _ _ c Hc). unfold push_cpu, compose. cbn. by rewrite Hn.
Qed.

Lemma wp_pop_off c Q s :
  cur_cpu (k_sync s) = Some c -> c_sie c = false -> 1 <= c_noff c ->
  Q tt (upd_sync (upd_cpu pop_cpu) s) -> wp pop_off Q s.
Proof.
  intros Hc Hsie Hn HQ. unfold pop_off.
  apply wp_bind. eapply wp_intr_get; [done|]. rewrite Hsie.
  apply wp_bind. eapply wp_getcpu; [done|].
  destruct (Z.ltb_spec (c_noff c) 1); [lia|].
  apply wp_bind. apply wp_updcpu; [done|].
  apply wp_bind. eapply wp_getcpu; [cbn; by rewrite cur_upd_cpu, Hc|]. cbn.
  apply wp_when; intros Hb.
  - apply wp_updcpu; [cbn; by rewrite !cur_upd_cpu, Hc|].
    same_state HQ. unfold upd_sync, set_k_sync; cbn. f_equal. rewrite !upd_cpu_compose.
    apply (upd_cpu_ext _ _ _ c Hc). unfold pop_cpu, compose. cbn. by rewrite Hb.
  - same_state HQ. unfold upd_sync; cbn. f_equal.
    apply (upd_cpu_ext _ _ _ c Hc). unfold pop_cpu. by rewrite Hb.
Qed.

Lemma wp_getlock l k Q s : y_locks (k_sync s) !! l = Some k -> Q k s -> wp (getlock l) Q s.
Proof. intros H HQ. unfold wp, getlock. by rewrite H. Qed.

Lemma wp_holding l k Q s :
  y_locks (k_sync s) !! l = Some k ->
  Q (sl_locked k && bool_decide (sl_cpu k = Some (y_hart (k_sync s)))) s ->
  wp (holding l) Q s.
Proof. intros H HQ. apply wp_bind. by eapply wp_getlock. Qed.

Lemma wp_acquire l Q s :
  sync_wf (k_sync s) -> lock_free l (k_sync s) ->
  Q tt (upd_sync (acq l) s) -> wp (acquire l) Q s.
Proof.
  intros (c & Hc & _) [name Hl] HQ. unfold acquire.
  apply wp_bind. apply wp_push_off; [done|].
  apply wp_bind. eapply wp_holding; [done|]. cbn.
  apply wp_bind. eapply wp_getlock; [done|]. cbn.
  apply wp_bind. apply wp_modify. cbn.
  apply wp_bind. apply wp_gets. cbn.
  apply wp_bind. eapply wp_getlock; [cbn; by rewrite lookup_insert_eq|].
  apply wp_modify. same_state HQ.
  unfold upd_sync, acq, set_k_sync; cbn. f_equal.
  rewrite <- (insert_set_lock l true _ (upd_cpu push_cpu (k_sync s)) _ Hl).
  unfold set_sl_cpu, set_sl_locked, set_y_locks. cbn. by rewrite insert_insert_eq.
Qed.

Lemma wp_release l c Q s :
  cur_cpu (k_sync s) = Some c -> cpu_wf c -> 1 <= c_noff c ->
  lock_held l (k_sync s) ->
  Q tt (upd_sync (rel l) s) -> wp (release l) Q s.
Proof.
  intros Hc [_ Hsie] Hn [name Hl] HQ. unfold release.
  apply wp_bind. eapply wp_holding; [done|]. cbn.
  rewrite bool_decide_true by done. cbn.
  apply wp_bind. eapply wp_getlock; [done|].
  apply wp_bind. apply wp_modify.
  apply wp_bind. eapply wp_getlock; [cbn; by rewrite lookup_insert_eq|].
  apply wp_bind. apply wp_modify.
  eapply wp_pop_off; [done|apply Hsie; lia|done|].
  same_state HQ. unfold upd_sync, rel, set_k_sync; cbn. f_equal.
  rewrite <- (insert_set_lock l false None _ _ Hl).
  unfold set_sl_cpu, set_sl_locked, set_y_locks. cbn. by rewrite insert_insert_eq.
Qed.

(** [release] right at the end of a critical section opened by [acquire]. *)
Lemma wp_release_acq l y Q s :
  sync_wf y -> lock_free l y -> k_sync s = acq l y ->
  Q tt (set_k_sync (touch y) s) -> wp (release l) Q s.
Proof.
  intros Hwf Hf Hs HQ. assert (Hwf0 := Hwf). destruct Hwf as (c & Hc & Hw & Hd%depth_small).
  eapply (wp_release l (push_cpu c)).
  - rewrite Hs. change (cur_cpu (acq l y)) with (cur_cpu (upd_cpu push_cpu y)).
    by rewrite cur_upd_cpu, Hc.
  - apply cpu_wf_push; [done|lia].
  - rewrite noff_push by done. destruct Hw. lia.
  - rewrite Hs. by apply lock_held_acq.
  - unfold upd_sync. by rewrite Hs, rel_acq.
Qed.

(** [release] of the outer of two nested locks. *)
Lemma wp_release_outer l l' y Q s :
  l <> l' -> sync_wf y -> lock_free l y -> k_sync s = acq l' (acq l y) ->
  Q tt (set_k_sync (acq l' y) s) -> wp (release l) Q s.
Proof.
  intros Hne Hwf Hf Hs HQ. assert (Hwf0 := Hwf). destruct Hwf as (c & Hc & Hw & Hd%depth_small).
  assert (Hw1 : cpu_wf (push_cpu c)) by (apply cpu_wf_push; [done|lia]).
  eapply (wp_release l (push_cpu (push_cpu c))).
  - rewrite Hs. change (cur_cpu (upd_cpu push_cpu (upd_cpu push_cpu y)) = Some (push_cpu (push_cpu c))).
    by rewrite !cur_upd_cpu, Hc.
  - apply cpu_wf_push; [done|rewrite noff_push by done; lia].
  - rewrite !noff_push by done. destruct Hw. lia.
  - rewrite Hs. apply lock_held_acq_ne; [done|]. by apply lock_held_acq.
  - unfold upd_sync. by rewrite Hs, rel_acq_acq.
Qed.

Lemma wp_myproc c Q s :
  cur_cpu (k_sync s) = Some c -> cpu_wf c ->
  Q (c_proc c) (upd_sync touch s) -> wp myproc Q s.
Proof.
  intros Hc Hw HQ. unfold myproc.
  apply wp_bind. apply wp_push_off; [done|].
  apply wp_bind. eapply wp_getcpu; [cbn; by rewrite cur_upd_cpu, Hc|].
  apply wp_bind. eapply wp_pop_off; [cbn; by rewrite cur_upd_cpu, Hc|done| |].
  - rewrite noff_push by done. destruct Hw. lia.
  - apply wp_ret. cbn. same_state HQ. unfold upd_sync, set_k_sync, touch; cbn. f_equal.
    rewrite upd_cpu_compose. apply (upd_cpu_ext _ _ _ c Hc). symmetry.
    by apply pop_push_cpu.
Qed.

End run.

(** ** Properties *)

(** [acquire] on a free lock takes it, records the hart and disables
    interrupts; a matching [release] restores every lock and the CPU, up to
    the dead [intena] slot. *)
Theorem acquire_release_roundtrip (l : lockid) (s : kst)
    (Hwf : sync_wf (k_sync s)) (Hfree : lock_free l (k_sync s)) :
  wp (acquire l) (fun _ s1 => lock_held l (k_sync s1) /\
        (forall c, cur_cpu (k_sync s1) = Some c -> c_sie c = false) /\
        release l s1 = Ok tt (upd_sync touch s)) s.
Proof.
  apply wp_acquire; [done..|]. split; [by apply lock_held_acq|]. split.
  - intros c. cbn. change (cur_cpu (acq l (k_sync s))) with (cur_cpu (upd_cpu push_cpu (k_sync s))).
    rewrite cur_upd_cpu. destruct (cur_cpu (k_sync s)); cbn; naive_solver.
  - apply wp_run. by eapply (wp_release_acq l (k_sync s)).
Qed.

(** The error paths of [acquire] and [release]: a lock this hart already
    holds panics, a lock another hart holds spins for ever, releasing a lock
    this hart does not hold panics and releasing through a null pointer
    faults. *)
Theorem spinlock_misuse (l : lockid) (s : kst) (k : spinlock)
    (Hwf : sync_wf (k_sync s)) (Hl : y_locks (k_sync s) !! l = Some k) :
  (sl_locked k = true -> sl_cpu k = Some (y_hart (k_sync s)) ->
     exists s', acquire l s = Panic "acquire" s') /\
  (sl_locked k = true -> sl_cpu k <> Some (y_hart (k_sync s)) ->
     (exists s', acquire l s = Hang s') /\ release l s = Panic "release" s) /\
  (sl_locked k = false -> release l s = Panic "release" s) /\
  release_ptr None s = Fault s.
Proof.
  destruct Hwf as (c & Hc & _).
  assert (Hpush : push_off s = Ok tt (upd_sync (upd_cpu push_cpu) s)).
  { apply wp_run, wp_push_off; eauto. }
  assert (Hh : forall t, y_locks (k_sync t) = y_locks (k_sync s) -> forall b,
    sl_locked k && bool_decide (sl_cpu k = Some (y_hart (k_sync t))) = b ->
    holding l t = Ok b t /\ getlock l t = Ok k t).
  { intros t Ht b <-. rewrite <- Ht in Hl. split; apply wp_run.
    - by eapply wp_holding.
    - by eapply wp_getlock. }
  unfold acquire, release. rewrite !(bind_ok _ _ _ _ _ Hpush). split_and!.
  - intros Hk Hcpu. destruct (Hh (upd_sync (upd_cpu push_cpu) s) eq_refl true) as [E _].
    { rewrite Hk. by apply bool_decide_eq_true. }
    rewrite (bind_ok _ _ _ _ _ E). cbn. eauto.
  - intros Hk Hcpu. assert (Eb : sl_locked k && bool_decide (sl_cpu k = Some (y_hart (k_sync s)))
                               = false).
    { rewrite Hk. by apply bool_decide_eq_false. }
    destruct (Hh (upd_sync (upd_cpu push_cpu) s) eq_refl false Eb) as [E1 E2].
    destruct (Hh s eq_refl false Eb) as [E3 _].
    rewrite (bind_ok _ _ _ _ _ E1), (bind_ok _ _ _ _ _ E2), Hk.
    rewrite (bind_ok _ _ _ _ _ E3). cbn. eauto.
  - intros Hk. destruct (Hh s eq_refl false) as [E _]; [by rewrite Hk|].
    by rewrite (bind_ok _ _ _ _ _ E).
  - done.
Qed.

Section nesting.

Lemma push_iter n c : cpu_wf c -> c_noff c + Z.of_nat n < 2 ^ 30 ->
  cpu_wf (Nat.iter n push_cpu c) /\ c_noff (Nat.iter n push_cpu c) = c_noff c + Z.of_nat n.
Proof.
  intros H. induction n as [|n IH]; intros Hn; [split; [done|cbn; lia]|]. rewrite Nat.iter_succ.
  destruct IH as [Hw E]; [lia|]. rewrite noff_push, E by done. split; [|lia].
  apply cpu_wf_push; [done|lia].
Qed.

Lemma run_pushes (k n : nat) c s :
  cur_cpu (k_sync s) = Some c ->
  for_each (seq k n) (fun _ => push_off) s = Ok tt (upd_sync (upd_cpu (Nat.iter n push_cpu)) s).
Proof.
  revert k c s; induction n as [|n IH]; intros k c s Hc.
  - cbn. unfold mret, M_ret. f_equal. destruct s; unfold upd_sync, set_k_sync; cbn in *.
    by rewrite (upd_cpu_id _ _ _ Hc).
  - cbn [for_each seq]. erewrite bind_ok by (apply wp_run, wp_push_off; eauto).
    erewrite IH by (cbn; rewrite cur_upd_cpu, Hc; done).
    unfold upd_sync, set_k_sync; cbn. rewrite upd_cpu_compose. do 2 f_equal.
    apply (upd_cpu_ext _ _ _ c Hc). unfold compose. by rewrite Nat.iter_succ_r.
Qed.

Lemma run_pop (n : nat) c y s :
  cur_cpu y = Some c -> cpu_wf c -> c_noff c + Z.of_nat n < 2 ^ 30 ->
  k_sync s = upd_cpu (Nat.iter (S n) push_cpu) y ->
  pop_off s = Ok tt (set_k_sync (upd_cpu (touch_cpu ∘ Nat.iter n push_cpu) y) s).
Proof.
  intros Hc Hwf Hn Hs. destruct (push_iter n c Hwf Hn) as [Hw Hno]. apply wp_run. eapply wp_pop_off.
  - by rewrite Hs, cur_upd_cpu, Hc.
  - done.
  - rewrite Nat.iter_succ, noff_push by done. destruct Hwf. lia.
  - split; [done|]. unfold upd_sync. f_equal. rewrite Hs, upd_cpu_compose.
    apply (upd_cpu_ext _ _ _ c Hc). unfold compose. by rewrite Nat.iter_succ, pop_push_cpu.
Qed.

Lemma run_pops (k n : nat) c y s :
  cur_cpu y = Some c -> cpu_wf c -> c_noff c + Z.of_nat n < 2 ^ 30 ->
  k_sync s = upd_cpu (Nat.iter (S n) push_cpu) y ->
  for_each (seq k (S n)) (fun _ => pop_off) s = Ok tt (set_k_sync (touch y) s).
Proof.
  intros Hc Hwf. revert k s; induction n as [|n IH]; intros k s Hn Hs.
  all: cbn [for_each seq]; erewrite bind_ok by (by eapply run_pop).
  { done. }
  change (for_each (seq (S k) (S n)) (fun _ => pop_off)
            (set_k_sync (upd_cpu (touch_cpu ∘ Nat.iter (S n) push_cpu) y) s)
          = Ok tt (set_k_sync (touch y) s)).
  rewrite IH; [done|lia|]. cbn. apply (upd_cpu_ext _ _ _ c Hc). unfold compose, touch_cpu.
  rewrite (proj2 (push_iter (S n) c Hwf Hn)). destruct Hwf.
  destruct (Z.eqb_spec (c_noff c + Z.of_nat (S n)) 0); [lia|done].
Qed.

End nesting.

(** [push_off]s nest: after [n] of them interrupts are off, and [n]
    [pop_off]s bring the interrupt state back to what it was. *)
Theorem push_pop_nesting (n : nat) (s : kst) (Hwf : sync_wf (k_sync s))
    (Hn : noff (k_sync s) + Z.of_nat n < 2 ^ 30) :
  wp (for_each (seq 0 (S n)) (fun _ => push_off)) (fun _ s1 =>
        (forall c, cur_cpu (k_sync s1) = Some c -> c_sie c = false) /\
        for_each (seq 0 (S n)) (fun _ => pop_off) s1 = Ok tt (upd_sync touch s)) s.
Proof.
  destruct Hwf as (c & Hc & Hw & _). unfold noff in Hn. rewrite Hc in Hn. eapply wp_eq; [by apply (run_pushes _ _ c)|]. split.
  - intros c'. cbn. rewrite cur_upd_cpu, Hc. cbn. by intros [= <-].
  - by rewrite (run_pops 0 n c (k_sync s)).
Qed.

(** ** Critical sections over a table *)

Lemma touch_cur y y' c :
  touch y = touch y' -> cur_cpu y = Some c ->
  exists c', cur_cpu y' = Some c' /\ touch_cpu c = touch_cpu c'.
Proof.
  intros Ht Hc. apply (f_equal cur_cpu) in Ht. unfold touch in Ht.
  rewrite !cur_upd_cpu, Hc in Ht. destruct (cur_cpu y') as [c'|]; [|done].
  exists c'. split; [done|]. by injection Ht.
Qed.

Lemma touch_cpu_proc c c' : touch_cpu c = touch_cpu c' -> c_proc c = c_proc c'.
Proof.
  intros H. apply (f_equal c_proc) in H. unfold touch_cpu in H. by do 2 case_match.
Qed.

Lemma touch_cpu_noff c c' : touch_cpu c = touch_cpu c' -> c_noff c = c_noff c'.
Proof.
  intros H. apply (f_equal c_noff) in H. unfold touch_cpu in H. by do 2 case_match.
Qed.

Lemma touch_cpu_wf c c' : touch_cpu c = touch_cpu c' -> cpu_wf c -> cpu_wf c'.
Proof.
  intros H. assert (c_noff c = c_noff c' /\ c_sie c = c_sie c') as [Hn Hs].
  { split; [apply (f_equal c_noff) in H|apply (f_equal c_sie) in H];
      unfold touch_cpu in H; by do 2 case_match. }
  unfold cpu_wf. by rewrite Hn, Hs.
Qed.

Lemma touch_locks y y' : touch y = touch y' -> y_locks y = y_locks y'.
Proof. intros H. by apply (f_equal y_locks) in H. Qed.

Lemma touch_sync_wf y y' : touch y = touch y' -> sync_wf y -> sync_wf y'.
Proof.
  intros Ht (c & Hc & Hw & Hf & Hd). destruct (touch_cur _ _ _ Ht Hc) as (c' & Hc' & E).
  exists c'. split; [done|]. split; [by eapply touch_cpu_wf|]. assert (El := touch_locks _ _ Ht).
  unfold depth_ok, few_locks, locked_count in *. rewrite <- El, <- (touch_cpu_noff _ _ E). done.
Qed.

Lemma touch_lock_free l y y' : touch y = touch y' -> lock_free l y -> lock_free l y'.
Proof. intros H [name Hl]. exists name. by rewrite <- (touch_locks _ _ H). Qed.

(** Inside a critical section [touch] is the identity. *)
Lemma touch_acq_inj l y y' : sync_wf y -> touch y' = touch (acq l y) -> y' = acq l y.
Proof.
  intros Hwf Ht. rewrite touch_acq in Ht by done.
  destruct Hwf as (c & Hc & Hw & _).
  assert (Hc' : cur_cpu (acq l y) = Some (push_cpu c)).
  { change (cur_cpu (upd_cpu push_cpu y) = Some (push_cpu c)). by rewrite cur_upd_cpu, Hc. }
  rewrite <- Ht. unfold touch. rewrite <- Ht in Hc'. unfold touch in Hc'.
  rewrite cur_upd_cpu in Hc'. destruct (cur_cpu y') as [d|] eqn:Hd; [|done].
  injection Hc' as Hc'. symmetry. apply (upd_cpu_id _ _ d Hd). unfold touch_cpu in *.
  destruct (Z.eqb_spec (c_noff d) 0) as [E|]; [|done].
  apply (f_equal c_noff) in Hc'. rewrite noff_push in Hc' by done. cbn in Hc'. destruct Hw. lia.
Qed.

(** The running process of this hart. *)
Definition running (y : sync) : option nat := cur_cpu y ≫= c_proc.

Lemma touch_running y y' : touch y = touch y' -> sync_wf y -> running y = running y'.
Proof.
  intros Ht (c & Hc & _). destruct (touch_cur _ _ _ Ht Hc) as (c' & Hc' & E).
  unfold running. rewrite Hc, Hc'. cbn. by apply touch_cpu_proc.
Qed.

Lemma running_acq l y : running (acq l y) = running y.
Proof.
  unfold running. change (cur_cpu (acq l y)) with (cur_cpu (upd_cpu push_cpu y)).
  rewrite cur_upd_cpu. by destruct (cur_cpu y).
Qed.

Lemma running_touch y : running (touch y) = running y.
Proof.
  unfold running, touch. rewrite cur_upd_cpu. destruct (cur_cpu y) as [c|]; [|done].
  cbn. unfold touch_cpu. by case_match.
Qed.

Lemma wp_myproc' Q s :
  sync_wf (k_sync s) -> Q (running (k_sync s)) (upd_sync touch s) -> wp myproc Q s.
Proof.
  intros (c & Hc & Hw & _) HQ. eapply wp_myproc; [done..|].
  unfold running in HQ. by rewrite Hc in HQ.
Qed.

Lemma foldl_alter_seq {A} (f : nat -> A -> A) (l : list A) n j :
  foldl (fun l i => alter (f i) i l) l (seq 0 n) !! j =
  if decide (j < n)%nat then f j <$> l !! j else l !! j.
Proof.
  induction n as [|n IH].
  { by rewrite decide_False by lia. }
  rewrite seq_S, foldl_app. cbn [foldl Nat.add]. rewrite list_lookup_alter.
  destruct (decide (n = j)) as [->|Hne]; rewrite IH; repeat case_decide; try lia; done.
Qed.

Lemma foldl_alter_imap {A} (f : nat -> A -> A) (l : list A) n :
  length l = n -> foldl (fun l i => alter (f i) i l) l (seq 0 n) = imap f l.
Proof.
  intros <-. apply list_eq. intros j. rewrite foldl_alter_seq, list_lookup_imap.
  case_decide; [done|]. by rewrite lookup_ge_None_2 by lia.
Qed.

(** A loop over the process table whose body is a critical section that
    updates entry [i] by [f i]: the whole table is updated, and no lock or
    CPU state is left changed. [R] is what the body relies on of the table. *)
Lemma wp_scan_inv (R : list proc -> Prop) (f : nat -> proc -> proc) (body : nat -> KM unit) Q s :
  length (k_procs s) = NPROC -> R (k_procs s) ->
  (forall i l, R l -> R (alter (f i) i l)) ->
  (forall i t, (i < NPROC)%nat -> touch (k_sync t) = touch (k_sync s) ->
     length (k_procs t) = NPROC -> R (k_procs t) ->
     wp (body i) (fun _ t' => t' = upd_sync touch (upd_procs (alter (f i) i) t)) t) ->
  Q tt (upd_sync touch (upd_procs (imap f) s)) ->
  wp (for_each (seq 0 NPROC) body) Q s.
Proof.
  intros Hlen HR HRf Hbody HQ.
  apply (wp_for_each (fun pre t =>
    t = set_k_sync (k_sync t)
          (set_k_procs (foldl (fun l i => alter (f i) i l) (k_procs s) pre) s) /\
    touch (k_sync t) = touch (k_sync s) /\
    (pre <> [] -> k_sync t = touch (k_sync s)))).
  - split_and!; [by destruct s|done|done].
  - intros pre i post t Hsplit (Ht & Hy & _).
    apply seq_split_lt in Hsplit as (-> & Hi & _).
    assert (length (k_procs t) = NPROC /\ R (k_procs t)) as [Hlt HRt].
    { rewrite Ht. cbn. rewrite <- Hlen. clear -HR HRf.
      induction (seq 0 i) as [|j l IH] using rev_ind; [done|].
      rewrite foldl_app. cbn. rewrite length_alter. destruct IH as [? ?]. auto. }
    eapply wp_mono; [by apply Hbody|]. intros [] t' ->. cbn.
    rewrite foldl_app. cbn. split_and!.
    + rewrite Ht. unfold upd_sync, upd_procs. kst_eq.
    + by rewrite touch_idem.
    + done.
  - intros t (Ht & _ & Hy). rewrite Ht, Hy by done.
    same_state HQ. unfold upd_sync, upd_procs. by rewrite foldl_alter_imap.
Qed.

Lemma wp_scan (f : nat -> proc -> proc) (body : nat -> KM unit) Q s :
  length (k_procs s) = NPROC ->
  (forall i t, (i < NPROC)%nat -> touch (k_sync t) = touch (k_sync s) ->
     length (k_procs t) = NPROC ->
     wp (body i) (fun _ t' => t' = upd_sync touch (upd_procs (alter (f i) i) t)) t) ->
  Q tt (upd_sync touch (upd_procs (imap f) s)) ->
  wp (for_each (seq 0 NPROC) body) Q s.
Proof.
  intros Hlen Hb HQ. apply (wp_scan_inv (fun _ => True) f); [done..| |done].
  intros i t ? ? ? _. by apply Hb.
Qed.
