(* ===== verification/Strings.v ===== *)
(** * C strings and memory blocks ([string.c])

    Memory is a function from addresses to bytes. The functions that only
    read take views: [nat -> Z] is what a pointer points at, so that the same
    code compares strings in memory and character arrays inside structures. *)

From stdpp Require Import base strings numbers list.
From Stdlib Require Import Ascii.
From S2P Require Import Prelude.

Definition mem : Type := Z -> Z.

Definition mupd (m : mem) (a v : Z) : mem := fun x => if x =? a then v else m x.

(** The memory seen through a pointer, an array, and a string literal. *)
Definition view (m : mem) (p : Z) : nat -> Z := fun i => m (p + Z.of_nat i).
Definition arr (l : list Z) : nat -> Z := fun i => nth i l 0.
Definition bytes_of (t : string) : list Z :=
  (fun c => Z.of_nat (nat_of_ascii c)) <$> String.list_ascii_of_string t.
Definition lit (t : string) : nat -> Z := arr (bytes_of t).

(** [p++] on a view. *)
Definition inc (p : nat -> Z) : nat -> Z := fun i => p (S i).

(** ** The code *)

Definition memset (m : mem) (dst c : Z) (n : nat) : mem :=
  foldl (fun m i => mupd m (dst + Z.of_nat i) (wrap8 c)) m (seq 0 n).

Fixpoint memcmp (s1 s2 : nat -> Z) (n : nat) : Z :=
  match n with
  | O => 0
  | S n => if s1 O =? s2 O then memcmp (inc s1) (inc s2) n else s1 O - s2 O
  end.

(** The two copying loops of [memmove]: upwards, and downwards from the end. *)
Fixpoint copy_up (m : mem) (d s : Z) (n : nat) : mem :=
  match n with
  | O => m
  | S n => copy_up (mupd m d (m s)) (d + 1) (s + 1) n
  end.

Fixpoint copy_down (m : mem) (d s : Z) (n : nat) : mem :=
  match n with
  | O => m
  | S n => copy_down (mupd m (d - 1) (m (s - 1))) (d - 1) (s - 1) n
  end.

Definition memmove (m : mem) (dst src : Z) (n : nat) : mem :=
  if (n =? 0)%nat then m
  else if (src <? dst) && (dst <? src + Z.of_nat n)
  then copy_down m (dst + Z.of_nat n) (src + Z.of_nat n) n
  else copy_up m dst src n.

Definition memcpy : mem -> Z -> Z -> nat -> mem := memmove.

Fixpoint strncmp (p q : nat -> Z) (n : nat) : Z :=
  match n with
  | O => 0
  | S n' => if negb (p O =? 0) && (p O =? q O) then strncmp (inc p) (inc q) n'
            else p O - q O
  end.

Fixpoint zero_fill (m : mem) (s : Z) (n : nat) : mem :=
  match n with O => m | S n => zero_fill (mupd m s 0) (s + 1) n end.

Fixpoint strncpy (m : mem) (s t : Z) (n : nat) : mem :=
  match n with
  | O => m
  | S n =>
      let c := m t in
      let m := mupd m s c in
      if c =? 0 then zero_fill m (s + 1) n else strncpy m (s + 1) (t + 1) n
  end.

(** [safestrcpy]: [k] is the value of [n] after the [--n] of the loop test. *)
Fixpoint safestrcpy_loop (m : mem) (s t : Z) (k : nat) : mem :=
  match k with
  | O => mupd m s 0
  | S k =>
      let c := m t in
      let m := mupd m s c in
      if c =? 0 then mupd m (s + 1) 0 else safestrcpy_loop m (s + 1) (t + 1) k
  end.

Definition safestrcpy (m : mem) (s t : Z) (n : Z) : mem :=
  if n <=? 0 then m else safestrcpy_loop m s t (Z.to_nat (n - 1)).

(** [strlen] looks for the first NUL; [fuel] bounds how far it looks. *)
Fixpoint strlen (fuel : nat) (s : nat -> Z) : option nat :=
  match fuel with
  | O => None
  | S fuel => if s O =? 0 then Some O else S <$> strlen fuel (inc s)
  end.

(** ** Specifications *)

(** The C string at a view, cut at [n] characters. *)
Fixpoint cstr (n : nat) (p : nat -> Z) : list Z :=
  match n with
  | O => []
  | S n => if p O =? 0 then [] else p O :: cstr n (inc p)
  end.

Lemma mupd_at m a v x : mupd m a v x = if x =? a then v else m x.
Proof. done. Qed.

Lemma mupd_eq m a v : mupd m a v a = v.
Proof. unfold mupd. by rewrite Z.eqb_refl. Qed.

Lemma mupd_ne m a b v : a <> b -> mupd m a v b = m b.
Proof. intros H. unfold mupd. destruct (Z.eqb_spec b a); [congruence|done]. Qed.

Ltac mupd_solve :=
  repeat first
    [ rewrite mupd_eq
    | rewrite mupd_ne by lia ].

Lemma memset_spec m dst c n a :
  memset m dst c n a =
  if (dst <=? a) && (a <? dst + Z.of_nat n) then wrap8 c else m a.
Proof.
  unfold memset. induction n as [|n IH].
  { cbn [seq foldl]. zcases; lia || done. }
  rewrite seq_S, foldl_app. cbn [foldl Nat.add]. rewrite mupd_at, IH.
  zcases; lia || done.
Qed.

Lemma copy_up_spec m d s n a :
  d <= s \/ s + Z.of_nat n <= d ->
  copy_up m d s n a =
  if (d <=? a) && (a <? d + Z.of_nat n) then m (s + (a - d)) else m a.
Proof.
  revert m d s. induction n as [|n IH]; intros m d s H.
  { cbn [copy_up]. zcases; lia || done. }
  cbn [copy_up]. rewrite IH by lia. unfold mupd.
  zcases; try lia; try done; f_equal; lia.
Qed.

Lemma copy_down_spec m d s n a :
  s <= d \/ d <= s - Z.of_nat n ->
  copy_down m d s n a =
  if (d - Z.of_nat n <=? a) && (a <? d) then m (s + (a - d)) else m a.
Proof.
  revert m d s. induction n as [|n IH]; intros m d s H.
  { cbn [copy_down]. zcases; lia || done. }
  cbn [copy_down]. rewrite IH by lia. unfold mupd.
  zcases; try lia; try done; f_equal; lia.
Qed.

Lemma zero_fill_spec m s n a :
  zero_fill m s n a = if (s <=? a) && (a <? s + Z.of_nat n) then 0 else m a.
Proof.
  revert m s. induction n as [|n IH]; intros m s; cbn [zero_fill].
  { zcases; lia || done. }
  rewrite IH. unfold mupd. zcases; lia || done.
Qed.

Lemma cstr_ext n (p q : nat -> Z) :
  (forall i, (i < n)%nat -> p i = q i) -> cstr n p = cstr n q.
Proof.
  revert p q. induction n as [|n IH]; intros p q H; cbn; [done|].
  rewrite (H O) by lia. case_match; [done|]. f_equal. apply IH.
  intros i Hi. apply H. lia.
Qed.

Lemma cstr_length n p : (length (cstr n p) <= n)%nat.
Proof.
  revert p. induction n as [|n IH]; intros p; cbn; [lia|].
  case_match; cbn; [lia|]. specialize (IH (inc p)). lia.
Qed.

(** ** Properties *)

(** [memmove] copies the block as it was before the call, whichever way
    source and destination overlap, and changes nothing else. *)
Theorem memmove_spec (m : mem) (dst src : Z) (n : nat) (a : Z) :
  memmove m dst src n a =
  if (dst <=? a) && (a <? dst + Z.of_nat n) then m (src + (a - dst)) else m a.
Proof.
  unfold memmove. destruct (Nat.eqb_spec n 0) as [->|Hn].
  { zcases; lia || done. }
  destruct (Z.ltb_spec src dst), (Z.ltb_spec dst (src + Z.of_nat n)); cbn [andb].
  2-4: by apply copy_up_spec; lia.
  rewrite copy_down_spec by lia.
  zcases; try lia; try done. f_equal. lia.
Qed.

(** [strncmp] returns 0 exactly when the two strings, cut at [n] characters,
    are equal. *)
Lemma strncmp_zero (p q : nat -> Z) (n : nat) :
  strncmp p q n = 0 <-> cstr n p = cstr n q.
Proof.
  revert p q. induction n as [|n IH]; intros p q; cbn; [done|].
  destruct (Z.eqb_spec (p O) 0) as [Hp|Hp], (Z.eqb_spec (p O) (q O)) as [Hq|Hq];
    cbn [andb negb].
  - destruct (Z.eqb_spec (q O) 0); [|lia]. split; [done|lia].
  - destruct (Z.eqb_spec (q O) 0); [lia|]. split; [lia|done].
  - destruct (Z.eqb_spec (q O) 0); [lia|]. rewrite IH, Hq. split; [congruence|].
    by intros [=].
  - destruct (Z.eqb_spec (q O) 0); (split; [lia|]); [done|]. intros [=]. lia.
Qed.

Lemma strncpy_frame m s t n a :
  ~ (s <= a < s + Z.of_nat n) -> strncpy m s t n a = m a.
Proof.
  revert m s t. induction n as [|n IH]; intros m s t Ha; cbn; [done|].
  case_match.
  - rewrite zero_fill_spec. zcases; try lia; by rewrite mupd_ne by lia.
  - rewrite IH by lia. by rewrite mupd_ne by lia.
Qed.

(** [strncpy] into a block that does not overlap the source writes exactly
    [n] bytes: the string cut at [n] characters, then zeros. *)
Theorem strncpy_spec (m : mem) (s t : Z) (n i : nat)
    (Hsep : t + Z.of_nat n <= s \/ s + Z.of_nat n <= t) (Hi : (i < n)%nat) :
  strncpy m s t n (s + Z.of_nat i) = default 0 (cstr n (view m t) !! i).
Proof.
  revert m s t i Hsep Hi. induction n as [|n IH]; intros m s t i Hsep Hi; [lia|].
  cbn [strncpy cstr]. replace (view m t O) with (m t) by (unfold view; f_equal; lia).
  destruct (Z.eqb_spec (m t) 0) as [E|E].
  - rewrite zero_fill_spec. cbn. rewrite mupd_at. zcases; lia || done.
  - destruct i as [|i].
    + rewrite strncpy_frame by lia. cbn. rewrite mupd_at. zcases; [done|lia].
    + replace (s + Z.of_nat (S i)) with (s + 1 + Z.of_nat i) by lia.
      rewrite IH by lia. cbn. do 2 f_equal. apply cstr_ext. intros j Hj.
      unfold inc, view. rewrite mupd_ne by lia. f_equal. lia.
Qed.

Lemma safestrcpy_loop_frame m s t k a :
  ~ (s <= a <= s + Z.of_nat k) -> safestrcpy_loop m s t k a = m a.
Proof.
  revert m s t. induction k as [|k IH]; intros m s t Ha; cbn [safestrcpy_loop].
  { by rewrite mupd_ne by lia. }
  case_match; [by rewrite !mupd_ne by lia|].
  rewrite IH by lia. by rewrite mupd_ne by lia.
Qed.

Lemma view_0 m p : view m p O = m p.
Proof. unfold view. f_equal. lia. Qed.

Lemma cstr_S n p : cstr (S n) p = if p O =? 0 then [] else p O :: cstr n (inc p).
Proof. done. Qed.

Lemma cstr_inc_view n m p : cstr n (inc (view m p)) = cstr n (view m (p + 1)).
Proof. apply cstr_ext. intros i _. unfold inc, view. f_equal. lia. Qed.

Lemma safestrcpy_loop_cstr m s t k :
  t + Z.of_nat k <= s \/ s + Z.of_nat k < t ->
  cstr (S k) (view (safestrcpy_loop m s t k) s) = cstr k (view m t).
Proof.
  revert m s t. induction k as [|k IH]; intros m s t Hsep.
  { rewrite cstr_S, view_0. cbn [safestrcpy_loop]. by rewrite mupd_eq. }
  rewrite cstr_S, (cstr_S k (view m t)), !view_0. cbn [safestrcpy_loop].
  destruct (Z.eqb_spec (m t) 0) as [E|E].
  - assert (Hz : mupd (mupd m s (m t)) (s + 1) 0 s = 0) by (rewrite mupd_ne, mupd_eq by lia; done).
    by rewrite Hz.
  - rewrite safestrcpy_loop_frame, mupd_eq by lia.
    destruct (Z.eqb_spec (m t) 0); [lia|]. f_equal.
    rewrite !cstr_inc_view, IH by lia. apply cstr_ext. intros i Hi.
    unfold view. by rewrite mupd_ne by lia.
Qed.

Lemma cstr_nul n p : (length (cstr n p) < n)%nat -> p (length (cstr n p)) = 0.
Proof.
  revert p. induction n as [|n IH]; intros p H; [lia|]. rewrite cstr_S in *.
  destruct (Z.eqb_spec (p O) 0) as [E|E]; [done|]. cbn in *. apply (IH (inc p)). lia.
Qed.

(** [safestrcpy] always leaves a NUL-terminated string in the [n] bytes at
    [s], the source cut at [n-1] characters, and writes nowhere else. *)
Theorem safestrcpy_spec (m : mem) (s t n : Z)
    (Hn : 0 < n) (Hsep : t + n <= s \/ s + n <= t) :
  let m' := safestrcpy m s t n in
  cstr (Z.to_nat n) (view m' s) = cstr (Z.to_nat (n - 1)) (view m t) /\
  (exists i, 0 <= i < n /\ m' (s + i) = 0) /\
  (forall a, ~ (s <= a < s + n) -> m' a = m a).
Proof.
  unfold safestrcpy. destruct (Z.leb_spec n 0); [lia|]. cbn zeta.
  set (m' := safestrcpy_loop m s t (Z.to_nat (n - 1))).
  assert (Hcut : cstr (Z.to_nat n) (view m' s) = cstr (Z.to_nat (n - 1)) (view m t)).
  { replace (Z.to_nat n) with (S (Z.to_nat (n - 1))) by lia.
    apply safestrcpy_loop_cstr. lia. }
  split; [done|]. split.
  - pose proof (cstr_length (Z.to_nat (n - 1)) (view m t)) as Hl.
    rewrite <- Hcut in Hl.
    exists (Z.of_nat (length (cstr (Z.to_nat n) (view m' s)))). split; [lia|].
    apply (cstr_nul (Z.to_nat n) (view m' s)). lia.
  - intros a Ha. apply safestrcpy_loop_frame. lia.
Qed.

(** [strlen] finds the terminating NUL: with enough fuel it returns the
    position of the first one, which is the length of the C string. *)
Theorem strlen_spec (s : nat -> Z) (n k : nat) (Hk : (k < n)%nat)
    (Hnul : s k = 0) (Hpre : forall i, (i < k)%nat -> s i <> 0) :
  strlen n s = Some k /\ k = length (cstr n s).
Proof.
  revert s k Hk Hnul Hpre. induction n as [|n IH]; intros s k Hk Hnul Hpre; [lia|].
  cbn [strlen]. rewrite cstr_S. destruct (Z.eqb_spec (s O) 0) as [E|E].
  - destruct k as [|k]; [done|]. exfalso. by apply (Hpre O); [lia|].
  - destruct k as [|k]; [done|].
    destruct (IH (inc s) k) as [-> ->]; [lia|done|intros i Hi; apply (Hpre (S i)); lia|].
    done.
Qed.

Lemma strlen_spec_witness :
  strlen 16 (lit "init") = Some 4%nat /\ 4%nat = length (cstr 16 (lit "init")).
Proof.
  apply (strlen_spec (lit "init") 16 4); [lia|done|].
  intros [|[|[|[|i]]]] Hi; vm_compute; lia || done.
Defined.

Lemma strncpy_spec_witness :
  strncpy (fun a => if a =? 7 then 65 else 0) 100 7 4 (100 + Z.of_nat 0) = 65.
Proof.
  rewrite (strncpy_spec (fun a => if a =? 7 then 65 else 0) 100 7 4 0); [done|lia|lia].
Defined.

Lemma safestrcpy_spec_witness :
  cstr 2 (view (safestrcpy (fun a => if a =? 7 then 65 else 0) 100 7 2) 100) = [65].
Proof.
  destruct (safestrcpy_spec (fun a => if a =? 7 then 65 else 0) 100 7 2) as [E _];
    [lia|lia|]. exact E.
Defined.
