(* ===== verification/Printf.v ===== *)
(** * Formatted console output ([printf.c]) and the synchronous UART path

    [format] is the formatting loop of [printf] as a function from the format
    string and the variadic arguments to the characters written; [printf]
    sends them to the UART one by one under [pr.lock]. *)

From stdpp Require Import base gmap strings numbers list.
From Stdlib Require Import Ascii.
From S2P Require Import Prelude State Spinlock Strings.

(** ** Numbers *)

(** The character [digits[d]] of "0123456789abcdef". *)
Definition digit (d : Z) : Z := if d <? 10 then 48 + d else 97 + (d - 10).

(** [do { buf[i++] = digits[x % base]; } while((x /= base) != 0)]; an
    unsigned 64-bit value has at most 64 digits in any base. *)
Fixpoint digits_loop (fuel : nat) (x base : Z) : list Z :=
  match fuel with
  | O => []
  | S fuel => digit (x mod base) :: (if x / base =? 0 then [] else digits_loop fuel (x / base) base)
  end.

(** The buffer [buf], then printed from the end. *)
Definition printint_buf (xx base : Z) (sign : bool) : list Z :=
  let neg := sign && (xx <? 0) in
  let x := wrap64 (if neg then - xx else xx) in
  digits_loop 64 x base ++ (if neg then [45] else []).

Definition printint (xx base : Z) (sign : bool) : list Z := rev (printint_buf xx base sign).

Fixpoint printptr_loop (n : nat) (x : Z) : list Z :=
  match n with
  | O => []
  | S n => digit (Z.shiftr x 60) :: printptr_loop n (wrap64 (Z.shiftl x 4))
  end.

Definition printptr (x : Z) : list Z := 48 :: 120 :: printptr_loop 16 (wrap64 x).

(** ** The format loop *)

(** A variadic argument: an integer, or a string pointer. *)
Inductive parg : Type :=
| PInt (x : Z)
| PStr (s : option (list Z)).

(** [va_arg] as an integer and as a [char*]; running out of arguments or
    reading one at the wrong type is undefined behaviour. *)
Definition va_int (ap : list parg) : option (Z * list parg) :=
  match ap with PInt x :: ap => Some (x, ap) | _ => None end.

Definition va_str (ap : list parg) : option (list Z * list parg) :=
  match ap with
  | PStr None :: ap => Some (bytes_of "(null)", ap)
  | PStr (Some s) :: ap => Some (s, ap)
  | _ => None
  end.

(** Long long view of a [uint64] argument. *)
Definition to_ll (x : Z) : Z :=
  let y := wrap64 x in if y <? 2 ^ 63 then y else y - 2 ^ 64.

Definition chr (a : ascii) : Z := Z.of_nat (nat_of_ascii a).

(** One conversion: the characters it prints, how many characters of the
    format it skips after [c0], and the arguments left. *)
Definition conversion (c0 c1 c2 : Z) (ap : list parg) : option (list Z * nat * list parg) :=
  let int f skip := '(x, ap) ← va_int ap; Some (f x : list Z, skip : nat, ap) in
  if c0 =? chr "d" then int (fun x => printint (to_int x) 10 true) 0%nat
  else if (c0 =? chr "l") && (c1 =? chr "d") then int (fun x => printint (to_ll x) 10 true) 1%nat
  else if (c0 =? chr "l") && (c1 =? chr "l") && (c2 =? chr "d")
  then int (fun x => printint (to_ll x) 10 true) 2%nat
  else if c0 =? chr "u" then int (fun x => printint (wrap32 x) 10 false) 0%nat
  else if (c0 =? chr "l") && (c1 =? chr "u") then int (fun x => printint (to_ll x) 10 false) 1%nat
  else if (c0 =? chr "l") && (c1 =? chr "l") && (c2 =? chr "u")
  then int (fun x => printint (to_ll x) 10 false) 2%nat
  else if c0 =? chr "x" then int (fun x => printint (wrap32 x) 16 false) 0%nat
  else if (c0 =? chr "l") && (c1 =? chr "x") then int (fun x => printint (to_ll x) 16 false) 1%nat
  else if (c0 =? chr "l") && (c1 =? chr "l") && (c2 =? chr "x")
  then int (fun x => printint (to_ll x) 16 false) 2%nat
  else if c0 =? chr "p" then int printptr 0%nat
  else if c0 =? chr "c" then int (fun x => [wrap32 x]) 0%nat
  else if c0 =? chr "s" then '(s, ap) ← va_str ap; Some (s, 0%nat, ap)
  else if c0 =? chr "%" then Some ([chr "%"], 0%nat, ap)
  else Some ([chr "%"; c0], 0%nat, ap).

Fixpoint format_loop (fuel : nat) (fmt : list Z) (ap : list parg) : option (list Z) :=
  match fuel with
  | O => None
  | S fuel =>
      match fmt with
      | [] => Some []
      | cx :: fmt =>
          if negb (cx =? chr "%") then out ← format_loop fuel fmt ap; Some (cx :: out)
          else match fmt with
               | [] => Some []
               | c0 :: rest =>
                   let c1 := nth 0 rest 0 in
                   let c2 := if c1 =? 0 then 0 else nth 1 rest 0 in
                   '(txt, skip, ap) ← conversion c0 c1 c2 ap;
                   out ← format_loop fuel (drop skip rest) ap;
                   Some (txt ++ out)
               end
      end
  end.

Definition format (fmt : string) (ap : list parg) : option (list Z) :=
  format_loop (S (String.length fmt)) (bytes_of fmt) ap.

(** ** The console *)

Definition BACKSPACE : Z := 256.

(** [WriteReg(THR, c)]: the byte leaves on the serial line. *)
Definition emit (c : Z) (s : kst) : kst := set_k_out (k_out s ++ [wrap8 c]) s.

(** [ReadReg(LSR)], the [polls]-th since the last byte was given to the UART:
    the device sets [LSR_RX_READY] while received bytes wait and
    [LSR_TX_IDLE] once it has sent all bytes it was given. *)
Definition LSR_RX_READY : Z := Z.shiftl 1 0.
Definition LSR_TX_IDLE : Z := Z.shiftl 1 5.

Definition uart_lsr (polls : nat) (s : kst) : Z :=
  Z.lor (match d_rx (k_dev s) with [] => 0 | _ => LSR_RX_READY end)
    (if (d_busy (k_dev s) (length (k_out s)) <=? polls)%nat then LSR_TX_IDLE else 0).

(** [while((ReadReg(LSR) & LSR_TX_IDLE) == 0) ;] *)
Fixpoint wait_idle (fuel polls : nat) : KM unit :=
  lsr ← gets (uart_lsr polls);
  if negb (Z.land lsr LSR_TX_IDLE =? 0) then mret tt else
  match fuel with
  | O => hang
  | S fuel => wait_idle fuel (S polls)
  end.

Definition uartputc_sync (c : Z) : KM unit :=
  panicking ← gets k_panicking;
  when (negb panicking) push_off;;
  panicked ← gets k_panicked;
  if (panicked : bool) then hang else
  n ← gets (fun s => d_busy (k_dev s) (length (k_out s)));
  wait_idle n 0;;
  modify (emit c);;
  panicking ← gets k_panicking;
  when (negb panicking) pop_off.

Definition consputc (c : Z) : KM unit :=
  if c =? BACKSPACE
  then uartputc_sync 8;; uartputc_sync 32;; uartputc_sync 8
  else uartputc_sync c.

Definition printf (fmt : string) (ap : list parg) : KM unit :=
  panicking ← gets k_panicking;
  when (negb panicking) (acquire LPr);;
  txt ← deref (format fmt ap);
  for_each txt consputc;;
  when (negb panicking) (release LPr).

(** ** Reading numbers back *)

(** [atoi] of [user/ulib.c] on a NUL-terminated string; [n] is an [int],
    and wraps around as the RISC-V word operations do. *)
Fixpoint atoi_loop (s : list Z) (n : Z) : Z :=
  match s with
  | [] => n
  | c :: s => if (48 <=? c) && (c <=? 57) then atoi_loop s (to_int (n * 10 + c - 48)) else n
  end.

Definition atoi (s : list Z) : Z := atoi_loop s 0.

(** ** Lemmas *)

Lemma digits_loop_length fuel x base (k : nat) :
  2 <= base -> 0 <= x < base ^ Z.of_nat (S k) -> (length (digits_loop fuel x base) <= S k)%nat.
Proof.
  intros Hb. revert x k. induction fuel as [|fuel IH]; intros x k Hx; cbn; [lia|].
  destruct (Z.eqb_spec (x / base) 0) as [E|E]; cbn; [lia|].
  destruct k as [|k].
  - exfalso. apply E. apply Z.div_small. rewrite Z.pow_1_r in Hx. lia.
  - apply le_n_S, IH. split; [apply Z.div_pos; lia|].
    apply Z.div_lt_upper_bound; [lia|].
    rewrite <- Z.pow_succ_r, <- Nat2Z.inj_succ by lia. lia.
Qed.

Definition is_digit (c : Z) : Prop := 48 <= c <= 57.

Lemma digits_loop_10_digits fuel x : 0 <= x -> Forall is_digit (digits_loop fuel x 10).
Proof.
  revert x. induction fuel as [|fuel IH]; intros x Hx; cbn; [constructor|].
  pose proof (Z.mod_pos_bound x 10). constructor.
  - unfold is_digit, digit. zcases; lia.
  - case_match; [constructor|]. apply IH, Z.div_pos; lia.
Qed.

(** The number a string of digits denotes. *)
Definition decimal (l : list Z) (n : Z) : Z := foldl (fun n c => n * 10 + (c - 48)) n l.

Lemma decimal_ge l n : Forall is_digit l -> 0 <= n -> n <= decimal l n.
Proof.
  intros H. revert n. induction H as [|c l Hc _ IH]; intros n Hn; cbn; [lia|].
  unfold is_digit in Hc. specialize (IH (n * 10 + (c - 48))). unfold decimal in IH. lia.
Qed.

(** [atoi] computes it when it fits an [int]. *)
Lemma atoi_decimal l n :
  Forall is_digit l -> 0 <= n -> decimal l n < 2 ^ 31 -> atoi_loop l n = decimal l n.
Proof.
  intros H. revert n. induction H as [|c l Hc Hl IH]; intros n Hn Hlt; cbn; [done|].
  assert (Hc' := Hc). unfold is_digit in Hc'. zcases; try lia. cbn in Hlt.
  assert (Hge := decimal_ge l (n * 10 + (c - 48)) Hl). unfold decimal in Hge, IH.
  replace (n * 10 + c - 48) with (n * 10 + (c - 48)) by lia.
  rewrite to_int_small by lia. apply IH; lia.
Qed.

Lemma decimal_digits fuel x n :
  0 <= x < 10 ^ Z.of_nat fuel ->
  decimal (rev (digits_loop fuel x 10)) n = n * 10 ^ Z.of_nat (length (digits_loop fuel x 10)) + x.
Proof.
  revert x n. induction fuel as [|fuel IH]; intros x n Hx; cbn [digits_loop].
  { cbn in *. lia. }
  pose proof (Z.mod_pos_bound x 10). pose proof (Z.div_mod x 10).
  cbn [rev]. unfold decimal in *. rewrite foldl_app. cbn [foldl].
  assert (Hd : digit (x mod 10) - 48 = x mod 10) by (unfold digit; zcases; lia). rewrite Hd.
  destruct (Z.eqb_spec (x / 10) 0) as [E|E]; cbn [rev foldl length].
  { rewrite Z.pow_1_r. lia. }
  rewrite IH.
  - rewrite (Nat2Z.inj_succ (length _)), Z.pow_succ_r by lia. lia.
  - split; [apply Z.div_pos; lia|]. apply Z.div_lt_upper_bound; [lia|].
    rewrite <- Z.pow_succ_r, <- Nat2Z.inj_succ by lia. lia.
Qed.

Lemma wrap64_nonneg x : 0 <= wrap64 x < 2 ^ 64.
Proof. apply Z.mod_pos_bound. lia. Qed.

Section console.
Implicit Types s : kst.

(** No other hart has panicked. *)
Definition calm s : Prop := k_panicking s = false /\ k_panicked s = false.

(** The wait ends: the device takes [d_busy] polls to send a byte. *)
Lemma wp_wait_idle fuel polls Q s :
  (d_busy (k_dev s) (length (k_out s)) <= fuel + polls)%nat -> Q tt s -> wp (wait_idle fuel polls) Q s.
Proof.
  revert polls. induction fuel as [|fuel IH]; intros polls Hf HQ; cbn [wait_idle];
    apply wp_bind, wp_gets; unfold uart_lsr; destruct (Nat.leb_spec (d_busy (k_dev s) (length (k_out s))) polls).
  1, 3: by destruct (d_rx (k_dev s)).
  - cbn in Hf. lia.
  - destruct (d_rx (k_dev s)); apply IH; by (done || lia).
Qed.

Lemma wp_uartputc_sync c Q s :
  sync_wf (k_sync s) -> calm s -> Q tt (upd_sync touch (emit c s)) -> wp (uartputc_sync c) Q s.
Proof.
  intros (k & Hk & Hw & _) [Hp Hd] HQ. unfold uartputc_sync.
  apply wp_bind, wp_gets. rewrite Hp. cbn [negb when].
  apply wp_bind, wp_push_off; [done|]. apply wp_bind, wp_gets. cbn [k_panicked upd_sync set_k_sync]. rewrite Hd.
  apply wp_bind, wp_gets. apply wp_bind, wp_wait_idle; [lia|].
  apply wp_bind, wp_modify. apply wp_bind, wp_gets. cbn [k_panicking emit set_k_out upd_sync set_k_sync]. rewrite Hp.
  cbn [negb when].
  eapply wp_pop_off; [cbn; by rewrite cur_upd_cpu, Hk|done|rewrite noff_push by done; destruct Hw; lia|].
  same_state HQ. unfold upd_sync, emit, set_k_sync, set_k_out; cbn. f_equal.
  rewrite upd_cpu_compose. apply (upd_cpu_ext _ _ _ k Hk). symmetry. by apply pop_push_cpu.
Qed.

(** The bytes of a text as the UART sees them. *)
Definition emits (txt : list Z) (s : kst) : kst := set_k_out (k_out s ++ (wrap8 <$> txt)) s.

Definition expand (c : Z) : list Z := if c =? BACKSPACE then [8; 32; 8] else [c].

Lemma emits_app t1 t2 s : emits t2 (emits t1 s) = emits (t1 ++ t2) s.
Proof. unfold emits, set_k_out. cbn. by rewrite fmap_app, app_assoc. Qed.

Lemma wp_consputc c Q s :
  sync_wf (k_sync s) -> calm s -> touch (k_sync s) = k_sync s ->
  Q tt (emits (expand c) s) -> wp (consputc c) Q s.
Proof.
  intros Hwf Hc Ht HQ.
  assert (E : forall c t, k_sync t = k_sync s -> upd_sync touch (emit c t) = emits [c] t).
  { intros c' t Hy. unfold upd_sync, emit, set_k_sync, emits, set_k_out. cbn. by rewrite Hy, Ht, <- Hy. }
  unfold consputc, expand in *. destruct (c =? BACKSPACE).
  - do 2 (apply wp_bind, wp_uartputc_sync; [done..|]; rewrite E by done).
    apply wp_uartputc_sync; [done..|]. rewrite E by done. by rewrite !emits_app.
  - apply wp_uartputc_sync; [done..|]. by rewrite E.
Qed.

Lemma wp_consputc_text txt Q s :
  sync_wf (k_sync s) -> calm s -> touch (k_sync s) = k_sync s ->
  Q tt (emits (txt ≫= expand) s) -> wp (for_each txt consputc) Q s.
Proof.
  intros Hwf Hc Ht. revert s Hwf Hc Ht.
  induction txt as [|c txt IH]; intros s Hwf Hc Ht HQ; cbn [for_each].
  { apply wp_ret. same_state HQ. unfold emits, set_k_out. destruct s; cbn. by rewrite app_nil_r. }
  apply wp_bind, wp_consputc; [done..|]. apply IH; [done..|]. by rewrite emits_app.
Qed.

Lemma wp_printf fmt ap txt Q s :
  sync_wf (k_sync s) -> calm s -> lock_free LPr (k_sync s) -> format fmt ap = Some txt ->
  Q tt (upd_sync touch (emits (txt ≫= expand) s)) -> wp (printf fmt ap) Q s.
Proof.
  intros Hwf Hc Hl Hf HQ. destruct (Hc) as [Hp Hd]. unfold printf.
  apply wp_bind, wp_gets. rewrite Hp. cbn [negb when].
  apply wp_bind, wp_acquire; [done..|]. apply wp_bind. eapply wp_deref; [done|].
  apply wp_bind, wp_consputc_text; cbn; [by apply sync_wf_acq|done|by apply touch_acq|].
  by eapply (wp_release_acq LPr (k_sync s)).
Qed.

(** Whether a format string fits its arguments depends only on their types. *)
Definition shape (a : parg) : parg :=
  match a with PInt _ => PInt 0 | PStr _ => PStr None end.

Lemma va_int_shape (ap : list parg) x l :
  va_int (shape <$> ap) = Some (x, l) -> exists x' l', va_int ap = Some (x', l') /\ l = shape <$> l'.
Proof. destruct ap as [|[|] ap]; cbn; naive_solver. Qed.

Lemma va_str_shape (ap : list parg) x l :
  va_str (shape <$> ap) = Some (x, l) -> exists x' l', va_str ap = Some (x', l') /\ l = shape <$> l'.
Proof. destruct ap as [|[|[]] ap]; cbn; naive_solver. Qed.

Lemma conversion_shape c0 c1 c2 (ap : list parg) t k l :
  conversion c0 c1 c2 (shape <$> ap) = Some (t, k, l) ->
  exists t' l', conversion c0 c1 c2 ap = Some (t', k, l') /\ l = shape <$> l'.
Proof.
  unfold conversion. cbv zeta.
  assert (Hi : forall (f : Z -> list Z) n,
    ('(x, ap) ← va_int (shape <$> ap); Some (f x, n, ap)) = Some (t, k, l) ->
    exists t' l', ('(x, ap) ← va_int ap; Some (f x, n, ap)) = Some (t', k, l') /\ l = shape <$> l').
  { intros f n. destruct (va_int (shape <$> ap)) as [[x l0]|] eqn:E; cbn; [|done].
    intros [= <- <- ->]. apply va_int_shape in E as (x' & l' & -> & ->). cbn. eauto. }
  repeat (match goal with |- context [if ?b then _ else _] => destruct b; [by apply Hi|] end).
  destruct (c0 =? chr "s").
  { destruct (va_str (shape <$> ap)) as [[x l0]|] eqn:E; cbn; [|done].
    intros [= <- <- ->]. apply va_str_shape in E as (x' & l' & -> & ->). cbn. eauto. }
  destruct (c0 =? chr "%"); intros [= <- <- <-]; eauto.
Qed.

Lemma format_shape fmt (ap : list parg) :
  is_Some (format fmt (shape <$> ap)) -> is_Some (format fmt ap).
Proof.
  unfold format. generalize (S (String.length fmt)) as fuel. generalize (bytes_of fmt) as l.
  intros l fuel. revert l ap. induction fuel as [|fuel IH]; intros l ap; cbn; [done|].
  destruct l as [|cx l]; [done|]. destruct (negb (cx =? chr "%")).
  { intros [o H]. destruct (format_loop fuel l (shape <$> ap)) as [t|] eqn:E; [|done].
    destruct (IH l ap) as [t' ->]; [by eexists|]. by eexists. }
  destruct l as [|c0 rest]; [done|]. intros [o H].
  destruct (conversion _ _ _ (shape <$> ap)) as [[[t k] l1]|] eqn:E; [|done]. cbn in H.
  destruct (format_loop fuel (drop k rest) l1) as [t1|] eqn:E1; [|done].
  apply conversion_shape in E as (t' & l' & -> & ->). cbn.
  destruct (IH (drop k rest) l') as [t2 ->]; [by eexists|]. by eexists.
Qed.

(** [printf] with arguments of the right types prints something, and changes
    nothing else. *)
Lemma wp_printf_any fmt ap Q s :
  sync_wf (k_sync s) -> calm s -> lock_free LPr (k_sync s) ->
  is_Some (format fmt (shape <$> ap)) ->
  (forall txt, Q tt (upd_sync touch (set_k_out (k_out s ++ txt) s))) -> wp (printf fmt ap) Q s.
Proof.
  intros Hwf Hc Hl [txt Hf]%format_shape HQ. eapply wp_printf; [done..|]. apply HQ.
Qed.

End console.

(** A run that printed something and changed nothing else. *)
Definition printed (s t : kst) : Prop := exists out, t = upd_sync touch (set_k_out out s).

Lemma printed_trans s t u : printed s t -> printed t u -> printed s u.
Proof.
  intros [o1 ->] [o2 ->]. exists o2. unfold upd_sync. cbn. rewrite touch_idem. kst_eq.
Qed.

(** The conditions under which [printf] works. *)
Definition can_print (s : kst) : Prop :=
  sync_wf (k_sync s) /\ calm s /\ lock_free LPr (k_sync s).

Lemma printed_can_print s t : printed s t -> can_print s -> can_print t.
Proof. intros [out ->] (? & ? & ?). split_and!; [by apply sync_wf_touch|done|done]. Qed.

Lemma wp_printf_printed fmt ap Q s :
  can_print s -> is_Some (format fmt (shape <$> ap)) ->
  (forall t, printed s t -> Q tt t) -> wp (printf fmt ap) Q s.
Proof.
  intros (? & ? & ?) Hf HQ. apply wp_printf_any; [done..|]. intros txt. apply HQ. by eexists.
Qed.

(** ** Properties *)

(** C40: [printint] never overruns its 20-byte buffer: every [long long], printed
    in base 10 or 16, signed or not, fits, sign included. *)
Theorem printint_fits_buf (xx base : Z) (sign : bool)
    (Hx : - 2 ^ 63 <= xx < 2 ^ 63) (Hb : base = 10 \/ base = 16) :
  (length (printint_buf xx base sign) <= 20)%nat.
Proof.
  unfold printint_buf. rewrite length_app.
  pose proof (wrap64_nonneg (if sign && (xx <? 0) then - xx else xx)).
  assert (Hb2 : 2 <= base) by lia.
  destruct (sign && (xx <? 0)) eqn:E; cbn [length].
  - assert (length (digits_loop 64 (wrap64 (- xx)) base) <= 19)%nat; [|lia].
    apply andb_true_iff in E as [_ E%Z.ltb_lt].
    apply digits_loop_length; [done|]. rewrite wrap64_small by lia.
    destruct Hb as [-> | ->]; cbn; lia.
  - assert (length (digits_loop 64 (wrap64 xx) base) <= 20)%nat; [|lia].
    apply digits_loop_length; [done|]. destruct Hb as [-> | ->]; cbn; lia.
Qed.

Lemma printint_fits_buf_witness : (length (printint_buf (- 2 ^ 63) 10 true) <= 20)%nat.
Proof. apply (printint_fits_buf (- 2 ^ 63) 10 true); [lia|by left]. Defined.

Lemma atoi_printed x :
  0 <= x < 2 ^ 31 -> atoi (rev (digits_loop 64 x 10)) = x.
Proof.
  intros Hx. assert (E : decimal (rev (digits_loop 64 x 10)) 0 = x).
  { rewrite decimal_digits; [lia|]. cbn. lia. }
  unfold atoi. rewrite atoi_decimal; [done|apply List.Forall_rev, digits_loop_10_digits; lia|lia|lia].
Qed.

(** Decimal output reads back: [atoi] of what [printint] prints for a
    non-negative [int] is that number, and a negative one prints as a minus
    sign followed by its absolute value. *)
Theorem printint_atoi (xx : Z) (Hx : - 2 ^ 31 < xx < 2 ^ 31) :
  (0 <= xx -> atoi (printint xx 10 true) = xx) /\
  (xx < 0 -> exists ds, printint xx 10 true = 45 :: ds /\ atoi ds = - xx).
Proof.
  unfold printint, printint_buf. cbn [andb]. split; intros Hs.
  - destruct (Z.ltb_spec xx 0); [lia|]. rewrite app_nil_r, wrap64_small by lia.
    apply atoi_printed. lia.
  - destruct (Z.ltb_spec xx 0); [|lia]. rewrite rev_app_distr. eexists. split; [done|].
    rewrite wrap64_small by lia. apply atoi_printed. lia.
Qed.

Lemma printint_atoi_witness : atoi (printint 1000 10 true) = 1000.
Proof. apply (printint_atoi 1000); lia. Defined.
