(* ===== verification/Memory.v ===== *)
(** * Words in memory

    Little-endian loads and stores of [n]-byte words, as the C code's accesses
    through [uint64*] and [uint*] pointers do on RISC-V. *)

From stdpp Require Import base numbers list.
From S2P Require Import Prelude State Strings.

Fixpoint ldn (n : nat) (m : mem) (a : Z) : Z :=
  match n with O => 0 | S n => m a + 256 * ldn n m (a + 1) end.

Fixpoint stn (n : nat) (m : mem) (a v : Z) : mem :=
  match n with O => m | S n => stn n (mupd m a (v mod 256)) (a + 1) (v / 256) end.

Definition ld64 : mem -> Z -> Z := ldn 8.
Definition st64 : mem -> Z -> Z -> mem := stn 8.
Definition ld32 : mem -> Z -> Z := ldn 4.
Definition st32 : mem -> Z -> Z -> mem := stn 4.

#[global] Arguments ld64 : simpl never.
#[global] Arguments st64 : simpl never.
#[global] Arguments ld32 : simpl never.
#[global] Arguments st32 : simpl never.
#[global] Opaque memset memmove.

Lemma stn_frame n m a v x : ~ (a <= x < a + Z.of_nat n) -> stn n m a v x = m x.
Proof.
  revert m a v. induction n as [|n IH]; intros m a v H; cbn; [done|].
  rewrite IH by lia. by rewrite mupd_ne by lia.
Qed.

Lemma ldn_ext n m m' a :
  (forall x, a <= x < a + Z.of_nat n -> m x = m' x) -> ldn n m a = ldn n m' a.
Proof.
  revert a. induction n as [|n IH]; intros a H; cbn; [done|].
  rewrite H, IH by (intros; apply H; lia) || lia. done.
Qed.

Lemma ldn_stn_eq n m a v : 0 <= v < 256 ^ Z.of_nat n -> ldn n (stn n m a v) a = v.
Proof.
  revert m a v. induction n as [|n IH]; intros m a v H.
  { cbn in *. lia. }
  cbn [ldn stn]. rewrite IH.
  - rewrite stn_frame, mupd_eq by lia. rewrite (Z.div_mod v 256) at 3 by lia. lia.
  - split; [apply Z.div_pos; lia|]. apply Z.div_lt_upper_bound; [lia|].
    rewrite <- Z.pow_succ_r, <- Nat2Z.inj_succ by lia. lia.
Qed.

Lemma ld64_st64_eq m a v : 0 <= v < 2 ^ 64 -> ld64 (st64 m a v) a = v.
Proof. intros H. apply (ldn_stn_eq 8). cbn in *. lia. Qed.

Lemma ld64_st64_ne m a b v : b + 8 <= a \/ a + 8 <= b -> ld64 (st64 m a v) b = ld64 m b.
Proof. intros H. apply ldn_ext. intros x Hx. apply stn_frame. cbn in *. lia. Qed.

Lemma ldn_zero n m a : (forall x, a <= x < a + Z.of_nat n -> m x = 0) -> ldn n m a = 0.
Proof.
  revert a. induction n as [|n IH]; intros a H; cbn; [done|].
  rewrite H, IH by (intros; apply H; lia) || lia. done.
Qed.

(** ** Pages *)

(** [sizeof] a page as a count of bytes. *)
Definition pgsize : nat := Z.to_nat PGSIZE.

Lemma pgsize_Z : Z.of_nat pgsize = 4096.
Proof. apply Z2Nat.id. done. Qed.

#[global] Opaque pgsize.

Definition aligned (a : Z) : Prop := a mod PGSIZE = 0.

Definition in_page (pa a : Z) : Prop := pa <= a < pa + PGSIZE.

(** Two memories that differ at most inside page [pa]. *)
Definition same_outside (pa : Z) (m m' : mem) : Prop :=
  forall a, ~ in_page pa a -> m' a = m a.

Lemma aligned_disjoint p q : aligned p -> aligned q -> p <> q -> p + PGSIZE <= q \/ q + PGSIZE <= p.
Proof.
  unfold aligned, PGSIZE. intros Hp Hq Hne.
  pose proof (Z.div_mod p 4096). pose proof (Z.div_mod q 4096). lia.
Qed.

Lemma same_outside_memset pa m c : same_outside pa m (memset m pa c pgsize).
Proof.
  intros a Ha. rewrite memset_spec. unfold in_page in Ha.
  unfold PGSIZE in *. rewrite pgsize_Z. zcases; lia || done.
Qed.

Lemma same_outside_st64 pa m v o :
  0 <= o <= PGSIZE - 8 -> same_outside pa m (st64 m (pa + o) v).
Proof. intros Ho a Ha. apply stn_frame. unfold in_page, PGSIZE in *. cbn. lia. Qed.

Lemma same_outside_trans pa m1 m2 m3 :
  same_outside pa m1 m2 -> same_outside pa m2 m3 -> same_outside pa m1 m3.
Proof. intros H1 H2 a Ha. rewrite H2, H1; done. Qed.

Lemma same_outside_ld64 pa m m' a :
  same_outside pa m m' -> a + 8 <= pa \/ pa + PGSIZE <= a -> ld64 m' a = ld64 m a.
Proof.
  intros H Ha. apply ldn_ext. intros x Hx. apply H. unfold in_page, PGSIZE in *. cbn in *. lia.
Qed.

#[global] Opaque ld64 st64 ld32 st32.

(** ** Page rounding *)

Lemma land_lnot_page a : Z.land a (Z.lnot (PGSIZE - 1)) = a / 4096 * 4096.
Proof.
  rewrite <- Z.ldiff_land. change (PGSIZE - 1) with (Z.ones 12).
  rewrite Z.ldiff_ones_r, Z.shiftr_div_pow2, Z.shiftl_mul_pow2 by done. done.
Qed.

Lemma PGROUNDDOWN_spec a : PGROUNDDOWN a = a / 4096 * 4096.
Proof. apply land_lnot_page. Qed.

Lemma PGROUNDUP_spec a : 0 <= a -> a + 4095 < 2 ^ 64 -> PGROUNDUP a = (a + 4095) / 4096 * 4096.
Proof.
  intros H0 H1. unfold PGROUNDUP. rewrite land_lnot_page, wrap64_small; unfold PGSIZE; [|lia].
  by replace (a + 4096 - 1) with (a + 4095) by lia.
Qed.

Lemma PGROUNDUP_bounds a :
  0 <= a -> a + 4095 < 2 ^ 64 -> a <= PGROUNDUP a < a + 4096 /\ aligned (PGROUNDUP a).
Proof.
  intros H0 H1. rewrite PGROUNDUP_spec by done. pose proof (Z.div_mod (a + 4095) 4096).
  pose proof (Z.mod_pos_bound (a + 4095) 4096). split; [lia|].
  unfold aligned, PGSIZE. apply Z.mod_mul. lia.
Qed.

Lemma PGROUNDDOWN_bounds a : PGROUNDDOWN a <= a < PGROUNDDOWN a + 4096 /\ aligned (PGROUNDDOWN a).
Proof.
  rewrite PGROUNDDOWN_spec. pose proof (Z.div_mod a 4096).
  pose proof (Z.mod_pos_bound a 4096). split; [lia|].
  unfold aligned, PGSIZE. apply Z.mod_mul. lia.
Qed.
