(* ===== verification/Bytes.v ===== *)
(** * Little-endian integers in byte arrays

    Disk blocks and structures copied to user space are lists of bytes; the
    kernel reads and writes C integers inside them. *)

From stdpp Require Import base gmap strings numbers list.
From S2P Require Import Prelude.

(** The [n] bytes of [v], least significant first, and back. *)
Fixpoint le_bytes (n : nat) (v : Z) : list Z :=
  match n with O => [] | S n => v mod 256 :: le_bytes n (v / 256) end.

Fixpoint le_val (l : list Z) : Z :=
  match l with [] => 0 | b :: l => b + 256 * le_val l end.

(** Overwrite part of a list. *)
Definition splice (off : nat) (bs l : list Z) : list Z :=
  take off l ++ bs ++ drop (off + length bs) l.

Definition slice (off n : nat) (l : list Z) : list Z := take n (drop off l).

Definition get_le (n off : nat) (l : list Z) : Z := le_val (slice off n l).
Definition put_le (n off : nat) (v : Z) (l : list Z) : list Z := splice off (le_bytes n v) l.

Abbreviation get32 := (get_le 4).
Abbreviation put32 := (put_le 4).
Abbreviation get16 := (get_le 2).
Abbreviation put16 := (put_le 2).

Section bytes.
Implicit Types (l bs : list Z) (off n : nat) (v : Z).

Lemma le_bytes_length n v : length (le_bytes n v) = n.
Proof. revert v; induction n; intros v; cbn; auto. Qed.

Lemma le_val_bytes n v : le_val (le_bytes n v) = v mod 256 ^ Z.of_nat n.
Proof.
  revert v; induction n as [|n IH]; intros v; cbn [le_bytes le_val].
  - cbn. by rewrite Z.mod_1_r.
  - rewrite IH. rewrite Nat2Z.inj_succ, Z.pow_succ_r by lia.
    rewrite (Z.rem_mul_r v 256) by lia. done.
Qed.

Lemma le_bytes_range n v : Forall (fun b => 0 <= b < 256) (le_bytes n v).
Proof.
  revert v; induction n as [|n IH]; intros v; cbn; constructor; [|done].
  by apply Z.mod_pos_bound.
Qed.

Lemma splice_length off bs l :
  (off + length bs <= length l)%nat -> length (splice off bs l) = length l.
Proof. intros H. unfold splice. rewrite !length_app, length_take, length_drop. lia. Qed.

Lemma splice_lookup_in off bs l i :
  (off + length bs <= length l)%nat -> (i < length bs)%nat -> splice off bs l !! (off + i)%nat = bs !! i.
Proof.
  intros H Hi. unfold splice. rewrite lookup_app_r by (rewrite length_take; lia).
  rewrite length_take, lookup_app_l by lia. f_equal. lia.
Qed.

Lemma splice_lookup_out off bs l i :
  (off + length bs <= length l)%nat -> (i < off \/ off + length bs <= i)%nat ->
  splice off bs l !! i = l !! i.
Proof.
  intros H [Hi|Hi]; unfold splice.
  - rewrite lookup_app_l by (rewrite length_take; lia). by rewrite lookup_take_lt.
  - rewrite lookup_app_r by (rewrite length_take; lia).
    rewrite lookup_app_r by (rewrite length_take; lia).
    rewrite lookup_drop, length_take. f_equal. lia.
Qed.

Lemma slice_lookup off n l i : (i < n)%nat -> slice off n l !! i = l !! (off + i)%nat.
Proof. intros Hi. unfold slice. by rewrite lookup_take_lt, lookup_drop. Qed.

Lemma slice_length off n l : (off + n <= length l)%nat -> length (slice off n l) = n.
Proof. intros H. unfold slice. rewrite length_take, length_drop. lia. Qed.

Lemma slice_splice_same off bs l :
  (off + length bs <= length l)%nat -> slice off (length bs) (splice off bs l) = bs.
Proof.
  intros H. apply list_eq. intros i. destruct (decide (i < length bs)%nat).
  - by rewrite slice_lookup, splice_lookup_in.
  - rewrite !lookup_ge_None_2; [done|lia|rewrite slice_length; [lia|by rewrite splice_length]].
Qed.

Lemma slice_splice_out off off' n bs l :
  (off + length bs <= length l)%nat -> (off' + n <= length l)%nat ->
  (off' + n <= off \/ off + length bs <= off')%nat -> slice off' n (splice off bs l) = slice off' n l.
Proof.
  intros H H' Hd. apply list_eq. intros i. destruct (decide (i < n)%nat).
  - rewrite !slice_lookup by done. apply splice_lookup_out; [done|lia].
  - rewrite !lookup_ge_None_2; [done|..]; rewrite slice_length; rewrite ?splice_length; lia.
Qed.

Lemma put_le_length n off v l :
  (off + n <= length l)%nat -> length (put_le n off v l) = length l.
Proof. intros H. apply splice_length. by rewrite le_bytes_length. Qed.

Lemma get_put_same n off v l :
  (off + n <= length l)%nat -> get_le n off (put_le n off v l) = v mod 256 ^ Z.of_nat n.
Proof.
  intros H. unfold get_le, put_le. rewrite <- (le_bytes_length n v) at 1.
  rewrite slice_splice_same; [apply le_val_bytes|by rewrite le_bytes_length].
Qed.

Lemma get_put_other n n' off off' v l :
  (off + n <= length l)%nat -> (off' + n' <= length l)%nat ->
  (off' + n' <= off \/ off + n <= off')%nat ->
  get_le n' off' (put_le n off v l) = get_le n' off' l.
Proof.
  intros H H' Hd. unfold get_le, put_le. f_equal.
  apply slice_splice_out; rewrite ?le_bytes_length; lia.
Qed.

End bytes.
