(* ===== verification/Ring.v ===== *)
(** * Rings indexed by running counters

    Pipes and the console keep bytes in an array of [N] cells indexed by
    [uint] counters that are never reset: cell [i % N] holds byte number [i].
    As [N] divides 2^32 the cells do not move when a counter wraps around. *)

From stdpp Require Import base numbers list.
From S2P Require Import Prelude.

Section ring.
Context (N : nat) (HN : (0 < N)%nat) (Hdiv : (Z.of_nat N | 2 ^ 32)).

Definition ring_idx (i : Z) : nat := Z.to_nat (i mod Z.of_nat N).

Lemma ring_idx_lt i : (ring_idx i < N)%nat.
Proof using HN. unfold ring_idx. pose proof (Z.mod_pos_bound i (Z.of_nat N)). lia. Qed.

Lemma ring_idx_wrap i : ring_idx (wrap32 i) = ring_idx i.
Proof using HN Hdiv.
  unfold ring_idx, wrap32. f_equal. destruct Hdiv as [k Hk]. rewrite Hk, Z.mul_comm.
  assert (0 < k) by lia. rewrite (Z.rem_mul_r i (Z.of_nat N) k) by lia.
  rewrite Z.mul_comm, Z.mod_add, Z.mod_mod by lia. done.
Qed.

Lemma ring_idx_inj a (j k : nat) :
  (j < N)%nat -> (k < N)%nat -> ring_idx (a + Z.of_nat j) = ring_idx (a + Z.of_nat k) -> j = k.
Proof using HN.
  unfold ring_idx. intros Hj Hk H.
  pose proof (Z.mod_pos_bound (a + Z.of_nat j) (Z.of_nat N)).
  pose proof (Z.mod_pos_bound (a + Z.of_nat k) (Z.of_nat N)).
  pose proof (Z.div_mod (a + Z.of_nat j) (Z.of_nat N)). pose proof (Z.div_mod (a + Z.of_nat k) (Z.of_nat N)).
  assert (E : (a + Z.of_nat j) mod Z.of_nat N = (a + Z.of_nat k) mod Z.of_nat N) by lia.
  assert (D : Z.of_nat j - Z.of_nat k =
    Z.of_nat N * ((a + Z.of_nat j) / Z.of_nat N - (a + Z.of_nat k) / Z.of_nat N)) by lia.
  assert (((a + Z.of_nat j) / Z.of_nat N - (a + Z.of_nat k) / Z.of_nat N) = 0); [nia|lia].
Qed.

(** The cells hold the bytes [q] from counter [r] on. *)
Definition holds (buf : list Z) (r : Z) (q : list Z) : Prop :=
  forall k c, q !! k = Some c -> buf !! ring_idx (r + Z.of_nat k) = Some c.

Lemma holds_snoc buf r q c :
  length buf = N -> (length q < N)%nat -> holds buf r q ->
  holds (<[ring_idx (r + Z.of_nat (length q)) := c]> buf) r (q ++ [c]).
Proof using HN.
  intros Hl Hlt H k b Hk. destruct (decide (k = length q)) as [->|Hne].
  - rewrite list_lookup_insert_eq by (rewrite Hl; apply ring_idx_lt). by rewrite list_lookup_middle in Hk.
  - assert (Hk' := lookup_lt_Some _ _ _ Hk). rewrite length_app in Hk'. cbn in Hk'.
    rewrite lookup_app_l in Hk by lia. rewrite list_lookup_insert_ne; [by apply H|].
    intros E%ring_idx_inj; lia.
Qed.

Lemma holds_front buf r c q : holds buf r (c :: q) -> buf !! ring_idx r = Some c.
Proof. intros H. rewrite <- (Z.add_0_r r). by apply (H 0%nat). Qed.

Lemma holds_tail buf r c q : holds buf r (c :: q) -> holds buf (wrap32 (r + 1)) q.
Proof using HN Hdiv.
  intros H k b Hk. rewrite <- (H (S k) b Hk). f_equal.
  rewrite <- (ring_idx_wrap (wrap32 _ + _)), <- (ring_idx_wrap (r + _)). f_equal.
  unfold wrap32. rewrite Zplus_mod_idemp_l. f_equal. lia.
Qed.

Lemma holds_app_l buf r q q' : holds buf r (q ++ q') -> holds buf r q.
Proof. intros H k c Hk. apply H. by apply lookup_app_l_Some. Qed.

End ring.

(** Counters at most [n] apart are equal only if their distances are. *)
Lemma wrap32_offset a (j k : nat) :
  Z.of_nat j < 2 ^ 32 -> Z.of_nat k < 2 ^ 32 ->
  (wrap32 (a + Z.of_nat j) =? wrap32 (a + Z.of_nat k)) = (j =? k)%nat.
Proof.
  unfold wrap32. change (2 ^ 32) with 4294967296. intros Hj Hk.
  pose proof (Z.mod_pos_bound (a + Z.of_nat j) 4294967296). pose proof (Z.mod_pos_bound (a + Z.of_nat k) 4294967296).
  pose proof (Z.div_mod (a + Z.of_nat j) 4294967296). pose proof (Z.div_mod (a + Z.of_nat k) 4294967296).
  destruct (Nat.eqb_spec j k) as [->|]; [apply Z.eqb_refl|]. apply Z.eqb_neq. lia.
Qed.

Lemma wrap32_dist a (j k : nat) :
  (k <= j)%nat -> Z.of_nat j < 2 ^ 32 -> wrap32 (wrap32 (a + Z.of_nat j) - wrap32 (a + Z.of_nat k)) = Z.of_nat (j - k).
Proof.
  intros Hkj Hj. unfold wrap32. rewrite Zminus_mod_idemp_l, Zminus_mod_idemp_r.
  replace (a + Z.of_nat j - (a + Z.of_nat k)) with (Z.of_nat (j - k)) by lia. apply Z.mod_small. lia.
Qed.

Lemma wrap32_add a b : wrap32 (wrap32 a + b) = wrap32 (a + b).
Proof. apply Zplus_mod_idemp_l. Qed.

Lemma wrap32_sub a b : wrap32 (wrap32 a - b) = wrap32 (a - b).
Proof. apply Zminus_mod_idemp_l. Qed.
