(* ===== verification/Kalloc.v ===== *)
(** * The physical page allocator ([kalloc.c])

    The free list is threaded through the free pages themselves: the first
    eight bytes of a free page are its [run.next]. *)

From stdpp Require Import base gmap strings numbers list.
From S2P Require Import Prelude State Spinlock Strings Memory.

(** ** The code *)

Definition kfree (pa : Z) : KM unit :=
  kend ← gets k_end;
  if negb (pa mod PGSIZE =? 0) || (pa <? kend) || (PHYSTOP <=? pa) then panic "kfree" else
  modify (fun s => set_k_mem (memset (k_mem s) pa 1 pgsize) s);;
  acquire LKmem;;
  modify (fun s => set_k_mem (st64 (k_mem s) pa (k_freelist s)) s);;
  modify (set_k_freelist pa);;
  release LKmem.

Definition kalloc : KM Z :=
  acquire LKmem;;
  r ← gets k_freelist;
  when (negb (r =? 0)) (modify (fun s => set_k_freelist (ld64 (k_mem s) r) s));;
  release LKmem;;
  when (negb (r =? 0)) (modify (fun s => set_k_mem (memset (k_mem s) r 5 pgsize) s));;
  mret r.

(** [for(; p + PGSIZE <= pa_end; p += PGSIZE) kfree(p)]; [fuel] bounds the
    number of pages. *)
Fixpoint freerange_loop (fuel : nat) (p pa_end : Z) : KM unit :=
  match fuel with
  | O => hang
  | S fuel =>
      if p + PGSIZE <=? pa_end then kfree p;; freerange_loop fuel (p + PGSIZE) pa_end
      else mret tt
  end.

Definition freerange (pa_start pa_end : Z) : KM unit :=
  freerange_loop (S (Z.to_nat (pa_end / PGSIZE))) (PGROUNDUP pa_start) pa_end.

Definition kinit : KM unit :=
  initlock LKmem "kmem";;
  kend ← gets k_end;
  freerange kend PHYSTOP.

(** ** The free list *)

Definition page_ok (kend pa : Z) : Prop := aligned pa /\ kend <= pa < PHYSTOP.

Fixpoint freelist_at (m : mem) (h : Z) (l : list Z) : Prop :=
  match l with
  | [] => h = 0
  | r :: l => h = r /\ freelist_at m (ld64 m r) l
  end.

(** The allocator's invariant: the pages of [l], in order, are the free list;
    they are distinct, page-aligned and inside the allocatable range. *)
Record kmem_wf (s : kst) (l : list Z) : Prop := {
  kmem_end : 0 < k_end s;
  kmem_list : freelist_at (k_mem s) (k_freelist s) l;
  kmem_nodup : NoDup l;
  kmem_pages : Forall (page_ok (k_end s)) l
}.

(** Only memory and the free list changed (and the dead [intena] slot). *)
Definition kmem_frame (s s' : kst) : Prop :=
  s' = set_k_mem (k_mem s') (set_k_freelist (k_freelist s') (upd_sync touch s)).

Lemma page_ok_pos kend pa : 0 < kend -> page_ok kend pa -> 0 < pa < 2 ^ 64.
Proof. unfold page_ok, PHYSTOP, KERNBASE. lia. Qed.

Lemma freelist_at_frame kend pa m m' h l :
  same_outside pa m m' -> aligned pa -> Forall (page_ok kend) l -> pa ∉ l ->
  freelist_at m h l -> freelist_at m' h l.
Proof.
  intros Hm Hpa. revert h. induction l as [|r l IH]; intros h Hall Hni Hl; [done|].
  apply Forall_cons_1 in Hall as [[Hr _] Hall]. apply not_elem_of_cons in Hni as [Hne Hni].
  destruct Hl as [-> Hl]. split; [done|].
  rewrite (same_outside_ld64 pa m m'); [by apply IH|done|].
  assert (r <> pa) as Hne' by done.
  destruct (aligned_disjoint r pa Hr Hpa Hne'); unfold PGSIZE in *; lia.
Qed.

(** ** Running the code *)

(** The memory after [kfree(pa)], and after [kalloc] handed out [r]. *)
Definition freed_mem (m : mem) (pa next : Z) : mem := st64 (memset m pa 1 pgsize) pa next.
#[global] Arguments freed_mem : simpl never.

Lemma same_outside_freed pa m next : same_outside pa m (freed_mem m pa next).
Proof.
  eapply same_outside_trans; [apply (same_outside_memset pa m 1)|].
  pose proof (same_outside_st64 pa (memset m pa 1 pgsize) next 0 ltac:(done)) as H.
  by rewrite Z.add_0_r in H.
Qed.

Lemma wp_kfree pa Q s :
  sync_wf (k_sync s) -> lock_free LKmem (k_sync s) -> page_ok (k_end s) pa ->
  Q tt (upd_sync touch (set_k_freelist pa
          (set_k_mem (freed_mem (k_mem s) pa (k_freelist s)) s))) ->
  wp (kfree pa) Q s.
Proof.
  intros Hwf Hl (Hal & Hlo & Hhi) HQ. unfold kfree.
  apply wp_bind, wp_gets. rewrite Hal.
  destruct (Z.ltb_spec pa (k_end s)); [lia|]. destruct (Z.leb_spec PHYSTOP pa); [lia|].
  cbn [negb orb Z.eqb]. apply wp_bind, wp_modify.
  apply wp_bind, wp_acquire; [done..|]. apply wp_bind, wp_modify. apply wp_bind, wp_modify.
  eapply (wp_release_acq LKmem (k_sync s)); done.
Qed.

Lemma wp_kalloc Q s :
  sync_wf (k_sync s) -> lock_free LKmem (k_sync s) ->
  Q (k_freelist s)
    (upd_sync touch
       (if k_freelist s =? 0 then s
        else set_k_mem (memset (k_mem s) (k_freelist s) 5 pgsize)
               (set_k_freelist (ld64 (k_mem s) (k_freelist s)) s))) ->
  wp kalloc Q s.
Proof.
  intros Hwf Hl HQ. unfold kalloc.
  apply wp_bind, wp_acquire; [done..|]. apply wp_bind, wp_gets. cbn [k_freelist upd_sync set_k_sync].
  apply wp_bind. apply wp_when; rewrite ?negb_true_iff, ?negb_false_iff; intros E; rewrite E in HQ.
  - apply wp_modify. apply wp_bind. eapply (wp_release_acq LKmem (k_sync s)); [done..|].
    apply wp_bind. rewrite E. apply wp_when; [intros _|done]. apply wp_modify, wp_ret. same_state HQ. kst_eq.
  - apply wp_bind. eapply (wp_release_acq LKmem (k_sync s)); [done..|].
    apply wp_bind. rewrite E. apply wp_when; [done|intros _]. exact HQ.
Qed.

(** ** Properties *)

Lemma wp_kalloc_list (s : kst) (l : list Z)
    (Hwf : sync_wf (k_sync s)) (Hl : lock_free LKmem (k_sync s)) (Hk : kmem_wf s l) :
  wp kalloc (fun r s' => kmem_frame s s' /\
    match l with
    | [] => r = 0 /\ kmem_wf s' [] /\ k_mem s' = k_mem s
    | pa :: l' => r = pa /\ kmem_wf s' l' /\ same_outside pa (k_mem s) (k_mem s') /\
                  (forall a, in_page pa a -> k_mem s' a = 5)
    end) s.
Proof.
  destruct Hk as [Hend Hlist Hnd Hpg]. apply wp_kalloc; [done..|]. destruct l as [|pa l]; cbn in Hlist.
  - rewrite Hlist. cbn. split; [unfold kmem_frame; kst_eq|]. split; [done|]. split; [|done].
    by split.
  - destruct Hlist as [-> Hlist]. apply Forall_cons_1 in Hpg as [Hpa Hpg].
    apply NoDup_cons in Hnd as [Hni Hnd].
    pose proof (page_ok_pos _ _ Hend Hpa). destruct (Z.eqb_spec pa 0); [lia|].
    split; [unfold kmem_frame; kst_eq|]. split; [done|].
    assert (Ho := same_outside_memset pa (k_mem s) 5).
    split; [|split; [done|]].
    + split; cbn; [done| |done|done]. eapply freelist_at_frame; [apply Ho|apply Hpa|done..].
    + intros a Ha. cbn. rewrite memset_spec, pgsize_Z.
      unfold in_page, PGSIZE in Ha. zcases; lia || done.
Qed.

(** [kalloc] pops the first free page: it returns a page of the free list
    (filled with 5s) or 0 when the list is empty, the invariant is kept with
    the rest of the list, and no byte outside the returned page changes. *)
Theorem kalloc_spec (s : kst) (l : list Z)
    (Hwf : sync_wf (k_sync s)) (Hl : lock_free LKmem (k_sync s)) (Hk : kmem_wf s l) :
  wp kalloc (fun r s' => kmem_frame s s' /\
    match l with
    | [] => r = 0 /\ kmem_wf s' [] /\ k_mem s' = k_mem s
    | pa :: l' => r = pa /\ kmem_wf s' l' /\ same_outside pa (k_mem s) (k_mem s') /\
                  (forall a, in_page pa a -> k_mem s' a = 5)
    end) s.
Proof. by apply wp_kalloc_list. Qed.

Lemma wp_kfree_list (s : kst) (pa : Z) (l : list Z)
    (Hwf : sync_wf (k_sync s)) (Hl : lock_free LKmem (k_sync s))
    (Hk : kmem_wf s l) (Hpa : page_ok (k_end s) pa) (Hni : pa ∉ l) :
  wp (kfree pa) (fun _ s' => kmem_frame s s' /\ kmem_wf s' (pa :: l) /\
    same_outside pa (k_mem s) (k_mem s')) s.
Proof.
  destruct Hk as [Hend Hlist Hnd Hpg]. apply wp_kfree; [done..|].
  assert (Ho := same_outside_freed pa (k_mem s) (k_freelist s)).
  split; [unfold kmem_frame; kst_eq|]. split; [|done].
  split; cbn; [done| |by constructor|by constructor].
  split; [done|]. unfold freed_mem at 2. rewrite ld64_st64_eq.
  - eapply freelist_at_frame; [apply Ho|apply Hpa|done..].
  - destruct l as [|r l]; cbn in Hlist; [lia|]. destruct Hlist as [-> _].
    apply Forall_cons_1 in Hpg as [Hr _]. pose proof (page_ok_pos _ _ Hend Hr). lia.
Qed.

(** [kfree] pushes an allocated page back on the free list, keeping the
    invariant and every byte outside the page. *)
Theorem kfree_spec (s : kst) (pa : Z) (l : list Z)
    (Hwf : sync_wf (k_sync s)) (Hl : lock_free LKmem (k_sync s))
    (Hk : kmem_wf s l) (Hpa : page_ok (k_end s) pa) (Hni : pa ∉ l) :
  wp (kfree pa) (fun _ s' => kmem_frame s s' /\ kmem_wf s' (pa :: l) /\
    same_outside pa (k_mem s) (k_mem s')) s.
Proof. by apply wp_kfree_list. Qed.

(** [kfree] of a pointer that is not a page of the allocatable range panics
    without touching memory. *)
Theorem kfree_bad_panics (s : kst) (pa : Z) (Hbad : ~ page_ok (k_end s) pa) :
  kfree pa s = Panic "kfree" s.
Proof.
  unfold kfree, mbind, M_bind, gets. cbn.
  assert (E : negb (pa mod PGSIZE =? 0) || (pa <? k_end s) || (PHYSTOP <=? pa) = true).
  { unfold page_ok, aligned in Hbad. zcases; cbn [negb orb]; try done. exfalso. tauto. }
  by rewrite E.
Qed.

(** The [n] pages from [p] on. *)
Definition pages (p : Z) (n : nat) : list Z := (fun i => p + Z.of_nat i * PGSIZE) <$> seq 0 n.

Lemma pages_S p n : pages p (S n) = p :: pages (p + PGSIZE) n.
Proof.
  unfold pages. cbn [seq fmap list_fmap]. rewrite Z.mul_0_l, Z.add_0_r. f_equal.
  rewrite <- fmap_S_seq, <- list_fmap_compose. apply list_fmap_ext.
  intros i j _. unfold compose. lia.
Qed.

Lemma elem_of_pages p n q : q ∈ pages p n -> p <= q.
Proof. unfold pages. rewrite list_elem_of_fmap. intros (i & -> & _). unfold PGSIZE. lia. Qed.

(** Only the allocator's state, memory and the bookkeeping of the locks changed. *)
Definition rest_same (s s' : kst) : Prop :=
  s' = set_k_sync (k_sync s') (set_k_mem (k_mem s') (set_k_freelist (k_freelist s') s)).

Lemma freerange_loop_spec fuel (n : nat) p e s l :
  (n < fuel)%nat -> p + Z.of_nat n * PGSIZE <= e < p + Z.of_nat (S n) * PGSIZE ->
  aligned p -> k_end s <= p -> e <= PHYSTOP ->
  sync_wf (k_sync s) -> lock_free LKmem (k_sync s) -> kmem_wf s l ->
  Forall (fun q => q < p) l ->
  wp (freerange_loop fuel p e) (fun _ s' =>
    kmem_wf s' (rev (pages p n) ++ l) /\ touch (k_sync s') = touch (k_sync s) /\ rest_same s s') s.
Proof.
  revert n p s l. induction fuel as [|fuel IH]; intros n p s l Hf Hn Ha Hend He Hwf Hl Hk Hlt;
    [lia|]. cbn [freerange_loop]. unfold PGSIZE in *.
  destruct n as [|n]; destruct (Z.leb_spec (p + 4096) e); try lia; [by apply wp_ret; split_and!; [done|done|destruct s]|].
  assert (Hp : page_ok (k_end s) p) by (split; [done|lia]).
  assert (Hni : p ∉ l).
  { intros Hin. rewrite Forall_forall in Hlt. specialize (Hlt p Hin). cbn in Hlt. lia. }
  apply wp_bind. eapply wp_mono; [by apply wp_kfree_list|].
  intros [] s1 (Hf1 & Hk1 & _).
  assert (k_end s1 = k_end s) as He1 by (by rewrite Hf1).
  assert (k_sync s1 = touch (k_sync s)) as Hs1 by (by rewrite Hf1).
  eapply wp_mono.
  - eapply (IH n (p + 4096) s1 (p :: l)); try lia.
    + unfold aligned, PGSIZE in *. rewrite Z.add_mod, Ha by lia. done.
    + rewrite Hs1. by apply sync_wf_touch.
    + by rewrite Hs1.
    + done.
    + constructor; [lia|]. eapply Forall_impl; [done|]. cbn. lia.
  - intros [] s2 (Hk2 & Hs2 & R2). rewrite pages_S. cbn [rev]. rewrite <- app_assoc. split_and!; [done| |].
    + by rewrite Hs2, Hs1, touch_idem.
    + unfold rest_same in *. rewrite R2, Hf1. done.
Qed.

Lemma wp_kinit (s : kst)
    (Hwf : sync_wf (k_sync s)) (Hn : noff (k_sync s) = 0) (Hfew : Z.of_nat (S (size (y_locks (k_sync s)))) < 2 ^ 30)
    (Hend : KERNBASE <= k_end s <= PHYSTOP) (Hfree : k_freelist s = 0) :
  let p := PGROUNDUP (k_end s) in
  wp kinit (fun _ s' => kmem_wf s' (rev (pages p (Z.to_nat ((PHYSTOP - p) / PGSIZE)))) /\
                        lock_free LKmem (k_sync s') /\ sync_wf (k_sync s') /\ running (k_sync s') = running (k_sync s) /\
                        y_hart (k_sync s') = y_hart (k_sync s) /\ rest_same s s') s.
Proof.
  assert (Hwf' := sync_wf_initlock LKmem "kmem" _ Hwf Hn Hfew).
  intros p. unfold kinit. apply wp_bind, wp_modify. apply wp_bind, wp_gets.
  unfold freerange. cbn [k_end set_k_sync upd_sync].
  unfold KERNBASE, PHYSTOP in *.
  destruct (PGROUNDUP_bounds (k_end s)) as [Hp Ha]; [unfold KERNBASE in *; lia..|].
  fold p in Hp, Ha |- *. unfold aligned, PGSIZE in *.
  assert (Hpe : p <= KERNBASE + 128 * 1024 * 1024).
  { unfold KERNBASE in *. pose proof (Z.div_mod p 4096). lia. }
  eapply wp_mono; [eapply (freerange_loop_spec _ (Z.to_nat ((KERNBASE + 128 * 1024 * 1024 - p) / 4096)) _ _ _ [])|].
  all: unfold KERNBASE, PGSIZE in *; cbn [k_end k_sync set_k_sync upd_sync].
  all: pose proof (Z.div_mod (2147483648 + 128 * 1024 * 1024 - p) 4096).
  all: pose proof (Z.mod_pos_bound (2147483648 + 128 * 1024 * 1024 - p) 4096).
  all: assert (0 <= (2147483648 + 128 * 1024 * 1024 - p) / 4096) by (apply Z.div_pos; lia).
  - apply le_n_S, Z2Nat.inj_le; [done|by apply Z.div_pos|]. apply Z.div_le_mono; lia.
  - rewrite Nat2Z.inj_succ, Z2Nat.id by done. lia.
  - done.
  - lia.
  - done.
  - done.
  - exists "kmem". cbn. by rewrite lookup_insert_eq.
  - split; cbn; [lia|done|by apply NoDup_nil|by apply Forall_nil].
  - by apply Forall_nil.
  - intros [] s' (Hk & Hs & R). rewrite app_nil_r in Hk. symmetry in Hs. split_and!; [done|..|].
    + eapply touch_lock_free; [exact Hs|]. exists "kmem". cbn. by rewrite lookup_insert_eq.
    + by eapply touch_sync_wf.
    + by rewrite <- (touch_running _ _ Hs).
    + change (y_hart (touch (k_sync s')) = y_hart (k_sync s)). by rewrite <- Hs.
    + unfold rest_same in *. rewrite R. done.
Qed.

(** Booting the allocator: [kinit] puts exactly the whole pages between [end]
    and [PHYSTOP] on the free list, the highest first. *)
Theorem kinit_spec (s : kst)
    (Hwf : sync_wf (k_sync s)) (Hn : noff (k_sync s) = 0) (Hfew : Z.of_nat (S (size (y_locks (k_sync s)))) < 2 ^ 30)
    (Hend : KERNBASE <= k_end s <= PHYSTOP) (Hfree : k_freelist s = 0) :
  let p := PGROUNDUP (k_end s) in
  wp kinit (fun _ s' => kmem_wf s' (rev (pages p (Z.to_nat ((PHYSTOP - p) / PGSIZE)))) /\
                        lock_free LKmem (k_sync s')) s.
Proof. intros p. eapply wp_mono; [by apply wp_kinit|]. intros r s' (H1 & H2 & _). done. Qed.
