(* ===== verification/Vm.v ===== *)
(** * Page tables and user memory ([vm.c])

    Sv39 page tables live in physical memory: a page-table page holds 512
    little-endian 64-bit entries. Addresses are [uint64] values as integers;
    the buffer on the kernel side of [copyin] and [copyout] is a list of
    bytes. *)

From stdpp Require Import base gmap strings numbers list.
From S2P Require Import Prelude State Spinlock Strings Memory Kalloc.

(** ** Page-table entries ([riscv.h]) *)

Definition PTE_V : Z := 1.
Definition PTE_R : Z := 2.
Definition PTE_W : Z := 4.
Definition PTE_X : Z := 8.
Definition PTE_U : Z := 16.

Definition PA2PTE (pa : Z) : Z := Z.shiftl (Z.shiftr pa 12) 10.
Definition PTE2PA (pte : Z) : Z := wrap64 (Z.shiftl (Z.shiftr pte 10) 12).
Definition PTE_FLAGS (pte : Z) : Z := Z.land pte 0x3FF.
Definition PXMASK : Z := 0x1FF.
Definition PXSHIFT (level : Z) : Z := 12 + 9 * level.
Definition PX (level va : Z) : Z := Z.land (Z.shiftr va (PXSHIFT level)) PXMASK.

(** [pte & flag] as a condition. *)
Definition has (pte flag : Z) : bool := negb (Z.land pte flag =? 0).

(** ** The code *)

Definition rd64 (a : Z) : KM Z := gets (fun s => ld64 (k_mem s) a).
Definition wr64 (a v : Z) : KM unit := modify (fun s => set_k_mem (st64 (k_mem s) a v) s).
Definition fill_page (a c : Z) : KM unit :=
  modify (fun s => set_k_mem (memset (k_mem s) a c pgsize) s).

(** One turn of the loop of [walk]: the next page table, [None] where the
    code returns 0. *)
Definition walk_level (level : Z) (pagetable va : Z) (alloc : bool) : KM (option Z) :=
  let pte := pagetable + 8 * PX level va in
  v ← rd64 pte;
  if has v PTE_V then mret (Some (PTE2PA v)) else
  if negb alloc then mret None else
  pa ← kalloc;
  if pa =? 0 then mret None else
  fill_page pa 0;;
  wr64 pte (Z.lor (PA2PTE pa) PTE_V);;
  mret (Some pa).

Definition walk (pagetable va : Z) (alloc : bool) : KM Z :=
  if MAXVA <=? va then panic "walk" else
  p1 ← walk_level 2 pagetable va alloc;
  match p1 with
  | None => mret 0
  | Some p1 =>
      p0 ← walk_level 1 p1 va alloc;
      match p0 with
      | None => mret 0
      | Some p0 => mret (p0 + 8 * PX 0 va)
      end
  end.

Definition walkaddr (pagetable va : Z) : KM Z :=
  if MAXVA <=? va then mret 0 else
  pte ← walk pagetable va false;
  if pte =? 0 then mret 0 else
  v ← rd64 pte;
  if negb (has v PTE_V) then mret 0 else
  if negb (has v PTE_U) then mret 0 else
  mret (PTE2PA v).

(** The loop runs [size / PGSIZE] times. *)
Fixpoint mappages_loop (fuel : nat) (pagetable a last pa perm : Z) : KM Z :=
  match fuel with
  | O => hang
  | S fuel =>
      pte ← walk pagetable a true;
      if pte =? 0 then mret (-1) else
      v ← rd64 pte;
      if has v PTE_V then panic "mappages: remap" else
      wr64 pte (Z.lor (Z.lor (PA2PTE pa) perm) PTE_V);;
      if a =? last then mret 0
      else mappages_loop fuel pagetable (wrap64 (a + PGSIZE)) last (wrap64 (pa + PGSIZE)) perm
  end.

Definition mappages (pagetable va size pa perm : Z) : KM Z :=
  if negb (va mod PGSIZE =? 0) then panic "mappages: va not aligned" else
  if negb (size mod PGSIZE =? 0) then panic "mappages: size not aligned" else
  if size =? 0 then panic "mappages: size" else
  mappages_loop (Z.to_nat (size / PGSIZE)) pagetable va (wrap64 (va + size - PGSIZE)) pa perm.

Definition kvmmap (kpgtbl va pa sz perm : Z) : KM unit :=
  r ← mappages kpgtbl va sz pa perm;
  if negb (r =? 0) then panic "kvmmap" else mret tt.

Definition uvmcreate : KM Z :=
  pagetable ← kalloc;
  if pagetable =? 0 then mret 0 else
  fill_page pagetable 0;;
  mret pagetable.

(** [for(a = va; a < end; a += PGSIZE)]; at most [npages] turns. *)
Fixpoint uvmunmap_loop (fuel : nat) (pagetable a last : Z) (do_free : bool) : KM unit :=
  if negb (a <? last) then mret tt else
  match fuel with
  | O => hang
  | S fuel =>
      pte ← walk pagetable a false;
      (if pte =? 0 then mret tt else
       v ← rd64 pte;
       if negb (has v PTE_V) then mret tt else
       when do_free (kfree (PTE2PA v));;
       wr64 pte 0);;
      uvmunmap_loop fuel pagetable (wrap64 (a + PGSIZE)) last do_free
  end.

Definition uvmunmap (pagetable va npages : Z) (do_free : bool) : KM unit :=
  if negb (va mod PGSIZE =? 0) then panic "uvmunmap: not aligned" else
  uvmunmap_loop (Z.to_nat npages) pagetable va (wrap64 (va + wrap64 (npages * PGSIZE))) do_free.

(** [npages] is an [int], widened again by the call. *)
Definition uvmdealloc (pagetable oldsz newsz : Z) : KM Z :=
  if oldsz <=? newsz then mret oldsz else
  when (PGROUNDUP newsz <? PGROUNDUP oldsz)
    (uvmunmap pagetable (PGROUNDUP newsz)
       (wrap64 (to_int ((PGROUNDUP oldsz - PGROUNDUP newsz) / PGSIZE))) true);;
  mret newsz.

Fixpoint uvmalloc_loop (fuel : nat) (pagetable a oldsz newsz xperm : Z) : KM Z :=
  if negb (a <? newsz) then mret newsz else
  match fuel with
  | O => hang
  | S fuel =>
      mem ← kalloc;
      if mem =? 0 then _ ← uvmdealloc pagetable a oldsz; mret 0 else
      fill_page mem 0;;
      r ← mappages pagetable a PGSIZE mem (Z.lor (Z.lor PTE_R PTE_U) xperm);
      if negb (r =? 0) then kfree mem;; _ ← uvmdealloc pagetable a oldsz; mret 0
      else uvmalloc_loop fuel pagetable (wrap64 (a + PGSIZE)) oldsz newsz xperm
  end.

Definition uvmalloc (pagetable oldsz newsz xperm : Z) : KM Z :=
  if newsz <? oldsz then mret oldsz else
  let oldsz := PGROUNDUP oldsz in
  uvmalloc_loop (Z.to_nat ((newsz - oldsz) / PGSIZE + 1)) pagetable oldsz oldsz newsz xperm.

(** A page table is a tree of depth three: [level] bounds the recursion. *)
Fixpoint freewalk (level : nat) (pagetable : Z) : KM unit :=
  for_each (seq 0 512) (fun i =>
    pte ← rd64 (pagetable + 8 * Z.of_nat i);
    if has pte PTE_V && negb (has pte (Z.lor (Z.lor PTE_R PTE_W) PTE_X)) then
      match level with
      | O => hang
      | S level => freewalk level (PTE2PA pte);; wr64 (pagetable + 8 * Z.of_nat i) 0
      end
    else if has pte PTE_V then panic "freewalk: leaf" else mret tt);;
  kfree pagetable.

Definition uvmfree (pagetable sz : Z) : KM unit :=
  when (0 <? sz) (uvmunmap pagetable 0 (PGROUNDUP sz / PGSIZE) true);;
  freewalk 2 pagetable.

(** [memmove] of one page between physical addresses. *)
Definition copy_page (dst src : Z) : KM unit :=
  modify (fun s => set_k_mem (memmove (k_mem s) dst src pgsize) s).

Fixpoint uvmcopy_loop (fuel : nat) (old new i sz : Z) : KM Z :=
  if negb (i <? sz) then mret 0 else
  match fuel with
  | O => hang
  | S fuel =>
      let err := uvmunmap new 0 (i / PGSIZE) true;; mret (-1) in
      let continue := uvmcopy_loop fuel old new (wrap64 (i + PGSIZE)) sz in
      pte ← walk old i false;
      if pte =? 0 then continue else
      v ← rd64 pte;
      if negb (has v PTE_V) then continue else
      mem ← kalloc;
      if mem =? 0 then err else
      copy_page mem (PTE2PA v);;
      r ← mappages new i PGSIZE mem (PTE_FLAGS v);
      if negb (r =? 0) then kfree mem;; err else continue
  end.

Definition uvmcopy (old new sz : Z) : KM Z :=
  uvmcopy_loop (Z.to_nat (sz / PGSIZE + 1)) old new 0 sz.

Definition uvmclear (pagetable va : Z) : KM unit :=
  pte ← walk pagetable va false;
  if pte =? 0 then panic "uvmclear" else
  v ← rd64 pte;
  wr64 pte (Z.land v (Z.lnot PTE_U)).

Definition ismapped (pagetable va : Z) : KM bool :=
  pte ← walk pagetable va false;
  if pte =? 0 then mret false else
  v ← rd64 pte;
  mret (has v PTE_V).

Definition vmfault (pagetable va : Z) (read : bool) : KM Z :=
  me ← myproc;
  i ← deref me;
  p ← getp i;
  if p_sz p <=? va then mret 0 else
  let va := PGROUNDDOWN va in
  b ← ismapped pagetable va;
  if (b : bool) then mret 0 else
  mem ← kalloc;
  if mem =? 0 then mret 0 else
  fill_page mem 0;;
  r ← mappages (p_pagetable p) va PGSIZE mem (Z.lor (Z.lor PTE_W PTE_U) PTE_R);
  if negb (r =? 0) then kfree mem;; mret 0 else mret mem.

(** Bytes to and from physical memory. *)
Fixpoint put (m : mem) (a : Z) (l : list Z) : mem :=
  match l with [] => m | b :: l => put (mupd m a b) (a + 1) l end.
Definition take_bytes (m : mem) (a : Z) (n : nat) : list Z :=
  (fun i => m (a + Z.of_nat i)) <$> seq 0 n.

Definition write_mem (a : Z) (l : list Z) : KM unit := modify (fun s => set_k_mem (put (k_mem s) a l) s).
Definition read_mem (a : Z) (n : nat) : KM (list Z) := gets (fun s => take_bytes (k_mem s) a n).

(** [fuel] bounds the number of pages touched. *)
Fixpoint copyout_loop (fuel : nat) (pagetable dstva : Z) (src : list Z) : KM Z :=
  match src with
  | [] => mret 0
  | _ =>
  match fuel with
  | O => hang
  | S fuel =>
      let va0 := PGROUNDDOWN dstva in
      if MAXVA <=? va0 then mret (-1) else
      pa0 ← walkaddr pagetable va0;
      pa0 ← (if pa0 =? 0 then vmfault pagetable va0 false else mret pa0);
      if pa0 =? 0 then mret (-1) else
      pte ← walk pagetable va0 false;
      if pte =? 0 then fault else
      v ← rd64 pte;
      if negb (has v PTE_W) then mret (-1) else
      let n := Nat.min (Z.to_nat (PGSIZE - (dstva - va0))) (length src) in
      write_mem (pa0 + (dstva - va0)) (take n src);;
      copyout_loop fuel pagetable (wrap64 (va0 + PGSIZE)) (drop n src)
  end end.

Definition copyout (pagetable dstva : Z) (src : list Z) : KM Z :=
  copyout_loop (length src) pagetable dstva src.

(** The result, and the bytes stored at [dst]: all [len] of them when the
    result is 0, those of the pages before the failing one when it is -1. *)
Fixpoint copyin_loop (fuel : nat) (pagetable srcva : Z) (len : nat) : KM (Z * list Z) :=
  match len with
  | O => mret (0, [])
  | _ =>
  match fuel with
  | O => hang
  | S fuel =>
      let va0 := PGROUNDDOWN srcva in
      pa0 ← walkaddr pagetable va0;
      pa0 ← (if pa0 =? 0 then vmfault pagetable va0 false else mret pa0);
      if pa0 =? 0 then mret (-1, []) else
      let n := Nat.min (Z.to_nat (PGSIZE - (srcva - va0))) len in
      bs ← read_mem (pa0 + (srcva - va0)) n;
      r ← copyin_loop fuel pagetable (wrap64 (va0 + PGSIZE)) (len - n);
      mret (r.1, bs ++ r.2)
  end end.

Definition copyin (pagetable srcva : Z) (len : nat) : KM (Z * list Z) :=
  copyin_loop len pagetable srcva len.

(** The inner loop of [copyinstr]: the characters before the NUL, and whether
    there is one among the [n]. *)
Fixpoint scan_str (bs : list Z) : list Z * bool :=
  match bs with
  | [] => ([], false)
  | b :: bs => if b =? 0 then ([], true) else let '(l, got) := scan_str bs in (b :: l, got)
  end.

(** The result, and the characters stored at [dst] before the NUL: the whole
    string when the result is 0. *)
Fixpoint copyinstr_loop (fuel : nat) (pagetable srcva : Z) (max : nat) : KM (Z * list Z) :=
  match max with
  | O => mret (-1, [])
  | _ =>
  match fuel with
  | O => hang
  | S fuel =>
      let va0 := PGROUNDDOWN srcva in
      pa0 ← walkaddr pagetable va0;
      if pa0 =? 0 then mret (-1, []) else
      let n := Nat.min (Z.to_nat (PGSIZE - (srcva - va0))) max in
      bs ← read_mem (pa0 + (srcva - va0)) n;
      let '(l, got_null) := scan_str bs in
      if got_null then mret (0, l) else
      r ← copyinstr_loop fuel pagetable (wrap64 (va0 + PGSIZE)) (max - n);
      mret (r.1, l ++ r.2)
  end end.

Definition copyinstr (pagetable srcva : Z) (max : nat) : KM (Z * list Z) :=
  copyinstr_loop max pagetable srcva max.

(** ** Encoding of entries *)

Lemma testbit_small f n i : 0 <= n -> 0 <= f < 2 ^ n -> n <= i -> Z.testbit f i = false.
Proof.
  intros Hn Hf Hi. destruct (decide (f = 0)) as [->|]; [apply Z.bits_0|].
  apply Z.bits_above_log2; [lia|]. apply Z.log2_lt_pow2; [lia|].
  eapply Z.lt_le_trans; [apply Hf|]. apply Z.pow_le_mono_r; lia.
Qed.

Lemma land_shiftl_small a n f : 0 <= n -> 0 <= f < 2 ^ n -> Z.land (Z.shiftl a n) f = 0.
Proof.
  intros Hn Hf. apply Z.bits_inj'. intros i Hi. rewrite Z.land_spec, Z.bits_0.
  destruct (Z.ltb_spec i n); [by rewrite Z.shiftl_spec_low|].
  by rewrite (testbit_small f n i), andb_false_r.
Qed.

Lemma lor_shiftl_add a n f : 0 <= n -> 0 <= f < 2 ^ n -> Z.lor (Z.shiftl a n) f = Z.shiftl a n + f.
Proof. intros Hn Hf. symmetry. by apply Z.add_nocarry_lor, land_shiftl_small. Qed.

(** An entry for physical page [pa] with [flags]. *)
Definition mk_pte (pa flags : Z) : Z := Z.lor (PA2PTE pa) flags.

Lemma PTE2PA_mk pa f : aligned pa -> 0 <= pa < 2 ^ 56 -> 0 <= f < 2 ^ 10 -> PTE2PA (mk_pte pa f) = pa.
Proof.
  unfold aligned, PGSIZE. intros Ha Hpa Hf. unfold PTE2PA, mk_pte, PA2PTE.
  rewrite lor_shiftl_add by lia. rewrite !Z.shiftr_div_pow2, !Z.shiftl_mul_pow2 by lia.
  change (2 ^ 12) with 4096. change (2 ^ 10) with 1024 in *.
  pose proof (Z.div_mod pa 4096). rewrite Z.div_add_l, (Z.div_small f 1024), Z.add_0_r by lia.
  rewrite wrap64_small; lia.
Qed.

Lemma land_mk_pte pa f g : 0 <= g < 2 ^ 10 -> Z.land (mk_pte pa f) g = Z.land f g.
Proof.
  intros Hg. unfold mk_pte. rewrite Z.land_lor_distr_l. unfold PA2PTE.
  by rewrite land_shiftl_small.
Qed.

Lemma has_mk_pte pa f g : 0 <= g < 2 ^ 10 -> has (mk_pte pa f) g = has f g.
Proof. intros Hg. unfold has. by rewrite land_mk_pte. Qed.

Lemma mk_pte_range pa f : 0 <= pa < 2 ^ 56 -> 0 <= f < 2 ^ 10 -> 0 <= mk_pte pa f < 2 ^ 64.
Proof.
  intros Hpa Hf. unfold mk_pte, PA2PTE. rewrite lor_shiftl_add by lia.
  rewrite Z.shiftr_div_pow2, Z.shiftl_mul_pow2 by lia. change (2 ^ 12) with 4096.
  pose proof (Z.div_pos pa 4096). pose proof (Z.div_lt_upper_bound pa 4096 (2 ^ 44)). lia.
Qed.

Lemma PX_range level va : 0 <= PX level va < 512.
Proof.
  unfold PX, PXMASK. change 0x1FF with (Z.ones 9). rewrite Z.land_ones by lia.
  apply Z.mod_pos_bound. lia.
Qed.

Lemma PX_div level va : 0 <= level -> PX level va = va / 2 ^ (12 + 9 * level) mod 512.
Proof.
  intros Hl. unfold PX, PXMASK, PXSHIFT. change 0x1FF with (Z.ones 9). rewrite Z.land_ones by lia.
  by rewrite Z.shiftr_div_pow2 by lia.
Qed.

Lemma PX_top va : 0 <= va < MAXVA -> PX 2 va < 256.
Proof.
  intros H. rewrite PX_div by lia. unfold MAXVA in H. change (Z.shiftl 1 _) with (2 ^ 38) in H.
  change (2 ^ (12 + 9 * 2)) with (2 ^ 30). rewrite Z.mod_small; [apply Z.div_lt_upper_bound; lia|].
  split; [apply Z.div_pos; lia|apply Z.div_lt_upper_bound; lia].
Qed.

(** The three indices determine a page-aligned address below [MAXVA]. *)
Lemma PX_inj va va' :
  0 <= va < MAXVA -> 0 <= va' < MAXVA -> aligned va -> aligned va' ->
  PX 2 va = PX 2 va' -> PX 1 va = PX 1 va' -> PX 0 va = PX 0 va' -> va = va'.
Proof.
  unfold MAXVA, aligned, PGSIZE. rewrite !PX_div by lia.
  change (Z.shiftl 1 _) with (2 ^ 38). change (2 ^ (12 + 9 * 2)) with (2 ^ 30).
  change (2 ^ (12 + 9 * 1)) with (2 ^ 21). change (2 ^ (12 + 9 * 0)) with (2 ^ 12).
  intros H H' Ha Ha' H2 H1 H0.
  assert (E : forall v, 0 <= v < 2 ^ 38 -> v mod 4096 = 0 ->
    v = 2 ^ 30 * ((v / 2 ^ 30) mod 512) + 2 ^ 21 * ((v / 2 ^ 21) mod 512) + 2 ^ 12 * ((v / 2 ^ 12) mod 512)).
  { clear. intros v Hv Ha. pose proof (Z.div_mod v (2 ^ 12)). pose proof (Z.div_mod (v / 2 ^ 12) 512).
    rewrite Z.div_div in * by lia. change (2 ^ 12 * 512) with (2 ^ 21) in *.
    pose proof (Z.div_mod (v / 2 ^ 21) 512). rewrite Z.div_div in * by lia.
    change (2 ^ 21 * 512) with (2 ^ 30) in *.
    assert (0 <= v / 2 ^ 30 < 512).
    { split; [apply Z.div_pos; lia|apply Z.div_lt_upper_bound; lia]. }
    rewrite (Z.mod_small (v / 2 ^ 30)) by lia. change (v mod 2 ^ 12) with (v mod 4096) in *. lia. }
  rewrite (E va H Ha), (E va' H' Ha'), H2, H1, H0. done.
Qed.
