(* ===== verification/PageTable.v ===== *)
(** * Page tables as maps from virtual to physical pages

    The specification of [vm.c]: the tree of page-table pages as a map from
    paths to physical pages ([pt_wf]), the translation it defines ([leaf]),
    and what [walk], [mappages], [copyin] and [copyout] do to it. *)

From stdpp Require Import base gmap strings numbers list.
From S2P Require Import Prelude State Spinlock Strings Memory Kalloc Vm.

(** ** Translation *)

(** The address of the leaf entry for [va], if its page-table pages exist. *)
Definition leaf_addr (m : mem) (root va : Z) : option Z :=
  let e2 := ld64 m (root + 8 * PX 2 va) in
  if has e2 PTE_V then
    let e1 := ld64 m (PTE2PA e2 + 8 * PX 1 va) in
    if has e1 PTE_V then Some (PTE2PA e1 + 8 * PX 0 va) else None
  else None.

(** The leaf entry, if it is valid. *)
Definition leaf (m : mem) (root va : Z) : option Z :=
  a ← leaf_addr m root va;
  let v := ld64 m a in
  if has v PTE_V then Some v else None.

(** ** The tree *)

(** Paths of indices from the root to a page-table page. *)
Abbreviation tree := (gmap (list Z) Z).

(** The entries [walk] may go through: virtual addresses end at [MAXVA], half
    of what the root page could translate. *)
Definition entry_ok (pi : list Z) (i : Z) : Prop := 0 <= i < 512 /\ (pi = [] -> i < 256).

(** [N] maps every path to its page: the pages are distinct, allocated and
    not on the free list [l], and the entries of the two upper levels are
    pointers to the pages below them. *)
Record pt_wf (kend : Z) (l : list Z) (m : mem) (root : Z) (N : tree) : Prop := {
  pt_root : N !! [] = Some root;
  pt_page : forall pi p, N !! pi = Some p -> page_ok kend p /\ p ∉ l /\ (length pi <= 2)%nat;
  pt_inj : forall pi pi' p, N !! pi = Some p -> N !! pi' = Some p -> pi = pi';
  pt_parent : forall pi i q, N !! (pi ++ [i]) = Some q -> is_Some (N !! pi) /\ entry_ok pi i;
  pt_entry : forall pi p i, N !! pi = Some p -> (length pi < 2)%nat -> 0 <= i < 512 ->
    match N !! (pi ++ [i]) with
    | Some q => ld64 m (p + 8 * i) = mk_pte q PTE_V
    | None => has (ld64 m (p + 8 * i)) PTE_V = false
    end
}.

Arguments pt_root {_ _ _ _ _} _.
Arguments pt_page {_ _ _ _ _} _ {_ _} _.
Arguments pt_inj {_ _ _ _ _} _ {_ _ _} _ _.
Arguments pt_parent {_ _ _ _ _} _ {_ _ _} _.
Arguments pt_entry {_ _ _ _ _} _ {_ _} _ _ _ _.

(** The leaf page table of [va]. *)
Definition path (va : Z) : list Z := [PX 2 va; PX 1 va].

Section tree.
Context (kend : Z) (Hkend : 0 < kend).
Implicit Types (l : list Z) (m : mem) (N : tree).

Lemma page_ok_range p : page_ok kend p -> aligned p /\ 0 < p < 2 ^ 56.
Proof.
  intros Hp. pose proof (page_ok_pos _ _ Hkend Hp). destruct Hp as [Ha [_ Hp]].
  split; [done|]. unfold PHYSTOP, KERNBASE in Hp. lia.
Qed.

Lemma ptr_decode q :
  page_ok kend q -> PTE2PA (mk_pte q PTE_V) = q /\ has (mk_pte q PTE_V) PTE_V = true.
Proof.
  intros Hq. apply page_ok_range in Hq as [Ha Hr]. split.
  - apply PTE2PA_mk; [done|lia|unfold PTE_V; lia].
  - by rewrite has_mk_pte by (unfold PTE_V; lia).
Qed.

Lemma leaf_addr_tree l m root N va :
  pt_wf kend l m root N ->
  leaf_addr m root va = (fun p => p + 8 * PX 0 va) <$> N !! path va.
Proof.
  intros H. unfold leaf_addr, path. assert (Hr := pt_root H).
  assert (H2 := pt_entry H (PX 2 va) Hr ltac:(cbn; lia) (PX_range _ _)). cbn in H2.
  destruct (N !! [PX 2 va]) as [p1|] eqn:E1.
  - rewrite H2. destruct (pt_page H E1) as (Hp1 & _).
    destruct (ptr_decode p1 Hp1) as [-> ->].
    assert (H1 := pt_entry H (PX 1 va) E1 ltac:(cbn; lia) (PX_range _ _)). cbn in H1.
    destruct (N !! [PX 2 va; PX 1 va]) as [p0|] eqn:E0.
    + rewrite H1. destruct (pt_page H E0) as (Hp0 & _).
      by destruct (ptr_decode p0 Hp0) as [-> ->].
    + by rewrite H1.
  - rewrite H2. destruct (N !! [PX 2 va; PX 1 va]) eqn:E0; [|done].
    destruct (pt_parent H (pi := [PX 2 va]) (i := PX 1 va) E0) as [[? ?] _]. congruence.
Qed.

(** Memory may change outside the tree's pages. *)
Lemma pt_wf_frame l m m' root N :
  pt_wf kend l m root N ->
  (forall pi p i, N !! pi = Some p -> (length pi < 2)%nat -> 0 <= i < 512 ->
     ld64 m' (p + 8 * i) = ld64 m (p + 8 * i)) ->
  pt_wf kend l m' root N.
Proof.
  intros H Hm. destruct H as [H1 H2 H3 H4 H5]. split; [done..|].
  intros pi p i Hp Hl Hi. rewrite (Hm pi p i Hp Hl Hi). by apply H5.
Qed.

Lemma pt_wf_freelist l l' m root N :
  pt_wf kend l m root N -> (forall q, q ∈ l' -> q ∈ l) -> pt_wf kend l' m root N.
Proof.
  intros [H1 H2 H3 H4 H5] Hl. split; [done| |done..].
  intros pi p Hp. destruct (H2 pi p Hp) as (? & ? & ?). naive_solver.
Qed.

(** Entries of distinct pages are disjoint. *)
Lemma entry_disjoint p q i j :
  aligned p -> aligned q -> p <> q -> 0 <= i < 512 -> 0 <= j < 512 ->
  p + 8 * i + 8 <= q + 8 * j \/ q + 8 * j + 8 <= p + 8 * i.
Proof. intros Hp Hq Hne Hi Hj. destruct (aligned_disjoint p q Hp Hq Hne); unfold PGSIZE in *; lia. Qed.

Lemma entry_outside p q i : aligned p -> aligned q -> p <> q -> 0 <= i < 512 ->
  p + 8 * i + 8 <= q \/ q + PGSIZE <= p + 8 * i.
Proof. intros Hp Hq Hne Hi. destruct (aligned_disjoint p q Hp Hq Hne); unfold PGSIZE in *; lia. Qed.

(** [m2] is [m] with the zeroed page [q] hung below entry [i] of page [p]. *)
Record linked (q p i : Z) (m m2 : mem) : Prop := {
  linked_here : ld64 m2 (p + 8 * i) = mk_pte q PTE_V;
  linked_zero : forall j, 0 <= j < 512 -> ld64 m2 (q + 8 * j) = 0;
  linked_else : forall p' j, aligned p' -> p' <> q -> 0 <= j < 512 ->
    (p', j) <> (p, i) -> ld64 m2 (p' + 8 * j) = ld64 m (p' + 8 * j);
  linked_out : forall a, ~ in_page q a -> ~ in_page p a -> m2 a = m a
}.

Lemma link_mem q p i m m1 :
  page_ok kend q -> aligned p -> p <> q -> 0 <= i < 512 -> same_outside q m m1 ->
  linked q p i m (st64 (memset m1 q 0 pgsize) (p + 8 * i) (mk_pte q PTE_V)).
Proof.
  intros Hq Hp Hne Hi Ho. destruct (page_ok_range q Hq) as [Haq Hrq].
  assert (Ho1 : same_outside q m (memset m1 q 0 pgsize)).
  { eapply same_outside_trans; [done|apply same_outside_memset]. }
  split.
  - apply ld64_st64_eq, mk_pte_range; [lia|unfold PTE_V; lia].
  - intros j Hj. rewrite ld64_st64_ne by (by apply entry_disjoint).
    apply (ldn_zero 8). intros x Hx. rewrite memset_spec, pgsize_Z. zcases; done || lia.
  - intros p' j Hp' Hnq Hj Hne'. rewrite ld64_st64_ne.
    + by apply (same_outside_ld64 q); [|apply entry_outside].
    + destruct (decide (p' = p)) as [->|]; [|by apply or_comm, entry_disjoint].
      assert (i <> j) by congruence. lia.
  - intros a Hqa Hpa. rewrite <- (Ho1 a Hqa).
    apply (same_outside_st64 p _ _ (8 * i)); [unfold PGSIZE; lia|done].
Qed.

Lemma path_not_short pi va : (length pi < 2)%nat -> path va <> pi.
Proof. intros H <-. cbn in H. lia. Qed.

Lemma pt_wf_link q l m m2 root N pi p i :
  pt_wf kend (q :: l) m root N -> NoDup (q :: l) -> page_ok kend q ->
  N !! pi = Some p -> (length pi < 2)%nat -> entry_ok pi i -> N !! (pi ++ [i]) = None ->
  linked q p i m m2 -> pt_wf kend l m2 root (<[pi ++ [i] := q]> N).
Proof.
  intros H Hnd Hq Hp Hlen Hok Hnone Hl. destruct (Hok) as [Hi _]. apply NoDup_cons in Hnd as [Hql _].
  assert (Hnew : forall pi', N !! pi' = Some q -> False).
  { intros pi' Hq'. destruct (pt_page H Hq') as (_ & Hn & _). apply Hn. constructor. }
  split.
  - rewrite lookup_insert_ne; [apply (pt_root H)|]. intros E%(f_equal length).
    rewrite length_app in E. cbn in E. lia.
  - intros pi' p' Hp'. apply lookup_insert_Some in Hp' as [[<- <-]|[_ Hp']].
    + split_and!; [done..|]. rewrite length_app. cbn. lia.
    + destruct (pt_page H Hp') as (? & Hn & ?). split_and!; [done| |done].
      intros Hin. apply Hn. by constructor.
  - intros pi1 pi2 p' H1 H2.
    apply lookup_insert_Some in H1 as [[<- <-]|[_ H1]], H2 as [[<- E]|[_ H2]]; try done.
    + by apply Hnew in H2.
    + subst. by apply Hnew in H1.
    + by eapply (pt_inj H).
  - intros pi' i' q' Hq'. apply lookup_insert_Some in Hq' as [[E <-]|[_ Hq']].
    + apply app_inj_2 in E as [-> [= ->]]; [|done]. split; [|done].
      destruct (decide (pi' ++ [i'] = pi')) as [E|Hne].
      { apply (f_equal length) in E. rewrite length_app in E. cbn in E. lia. }
      rewrite lookup_insert_ne by done. by eexists.
    + destruct (pt_parent H Hq') as [[x Hx] Hi']. split; [|done].
      destruct (decide (pi ++ [i] = pi')) as [E|Hne]; [rewrite E in Hnone; congruence|].
      rewrite lookup_insert_ne by done. by eexists.
  - intros pi' p' i' Hp' Hlen' Hi'.
    apply lookup_insert_Some in Hp' as [[<- <-]|[Hne Hp']].
    + rewrite (linked_zero _ _ _ _ _ Hl i' Hi').
      rewrite lookup_insert_ne by (intros E%(f_equal length); rewrite !length_app in E; cbn in E; lia).
      destruct (N !! ((pi ++ [i]) ++ [i'])) eqn:E; [|done].
      destruct (pt_parent H E) as [[? ?] _]. congruence.
    + destruct (pt_page H Hp') as ([Hap _] & Hn & _).
      assert (p' <> q) by (intros ->; apply Hn; constructor).
      destruct (decide ((p', i') = (p, i))) as [[= -> ->]|Hd].
      * assert (pi' = pi) as -> by (by eapply (pt_inj H)).
        rewrite lookup_insert_eq. apply (linked_here _ _ _ _ _ Hl).
      * rewrite lookup_insert_ne.
        -- rewrite (linked_else _ _ _ _ _ Hl) by done. by apply (pt_entry H).
        -- intros E. apply app_inj_2 in E as [-> [= ->]]; [|done]. congruence.
Qed.

(** No translation changes. *)
Lemma leaf_link q l m m2 root N pi p i va :
  pt_wf kend (q :: l) m root N -> NoDup (q :: l) -> page_ok kend q ->
  N !! pi = Some p -> (length pi < 2)%nat -> entry_ok pi i -> N !! (pi ++ [i]) = None ->
  linked q p i m m2 -> leaf m2 root va = leaf m root va.
Proof.
  intros H Hnd Hq Hp Hlen Hok Hnone Hl. destruct (Hok) as [Hi _].
  assert (H2 := pt_wf_link _ _ _ _ _ _ _ _ _ H Hnd Hq Hp Hlen Hok Hnone Hl).
  unfold leaf. rewrite (leaf_addr_tree _ _ _ _ _ H2), (leaf_addr_tree _ _ _ _ _ H).
  destruct (decide (pi ++ [i] = path va)) as [E|Hne].
  - rewrite <- E, lookup_insert_eq, Hnone. cbn.
    by rewrite (linked_zero _ _ _ _ _ Hl) by apply PX_range.
  - rewrite lookup_insert_ne by done. destruct (N !! path va) as [p0|] eqn:E0; [|done].
    cbn [fmap option_fmap option_map mbind option_bind].
    destruct (pt_page H E0) as ([Ha _] & Hn & _).
    rewrite (linked_else _ _ _ _ _ Hl); [done|done| |apply PX_range|].
    + intros ->. apply Hn. constructor.
    + intros [= -> _]. apply (path_not_short pi va Hlen). by eapply (pt_inj H).
Qed.

End tree.

(** ** Running the code *)

(** Only memory and the free list may have changed. *)
Definition vm_frame (s s' : kst) : Prop :=
  s' = set_k_sync (k_sync s') (set_k_mem (k_mem s') (set_k_freelist (k_freelist s') s)) /\
  touch (k_sync s') = touch (k_sync s).

Lemma vm_frame_refl s : vm_frame s s.
Proof. split; [by destruct s|done]. Qed.

Lemma vm_frame_trans s1 s2 s3 : vm_frame s1 s2 -> vm_frame s2 s3 -> vm_frame s1 s3.
Proof. intros [H1 T1] [H2 T2]. split; [|congruence]. rewrite H2, H1. kst_eq. Qed.

Lemma kmem_vm_frame s s' : kmem_frame s s' -> vm_frame s s'.
Proof.
  unfold kmem_frame. intros H. assert (Hs : k_sync s' = touch (k_sync s)) by (by rewrite H).
  split; [|by rewrite Hs, touch_idem]. etransitivity; [exact H|]. rewrite Hs.
  generalize (k_mem s') (k_freelist s'). intros m h. kst_eq.
Qed.

Lemma vm_frame_mem s m : vm_frame s (set_k_mem m s).
Proof. split; [kst_eq|done]. Qed.

(** The allocator and one page table, at rest. *)
Record vm_inv (s : kst) (l : list Z) (root : Z) (N : tree) : Prop := {
  inv_sync : sync_wf (k_sync s);
  inv_kmem : lock_free LKmem (k_sync s);
  inv_free : kmem_wf s l;
  inv_tree : pt_wf (k_end s) l (k_mem s) root N
}.

(** The tree may have grown by pages of the free list, and memory outside
    both is as before. *)
Record vm_step (s : kst) (l : list Z) (root : Z) (N : tree) (s' : kst) (l' : list Z) (N' : tree) : Prop := {
  step_inv : vm_inv s' l' root N';
  step_frame : vm_frame s s';
  step_tree : N ⊆ N';
  step_list : forall q, q ∈ l' -> q ∈ l;
  step_keep : forall q, q ∈ l -> q ∈ l' \/ exists pi, N' !! pi = Some q;
  step_pages : forall pi p, N' !! pi = Some p -> N !! pi = Some p \/ p ∈ l;
  step_mem : forall a, (forall pi p, N !! pi = Some p -> ~ in_page p a) ->
    (forall q, q ∈ l -> ~ in_page q a) -> k_mem s' a = k_mem s a
}.

Arguments step_inv {_ _ _ _ _ _ _} _.
Arguments step_frame {_ _ _ _ _ _ _} _.
Arguments step_tree {_ _ _ _ _ _ _} _.
Arguments step_list {_ _ _ _ _ _ _} _.
Arguments step_keep {_ _ _ _ _ _ _} _.
Arguments step_pages {_ _ _ _ _ _ _} _.
Arguments step_mem {_ _ _ _ _ _ _} _.

(** ... and no translation changed. *)
Definition grown (s : kst) (l : list Z) (root : Z) (N : tree) (s' : kst) (l' : list Z) (N' : tree) : Prop :=
  vm_step s l root N s' l' N' /\ forall va, leaf (k_mem s') root va = leaf (k_mem s) root va.

Lemma vm_step_refl s l root N : vm_inv s l root N -> vm_step s l root N s l N.
Proof. intros H. split; try done; [apply vm_frame_refl|auto..]. Qed.

Lemma vm_step_trans s1 l1 root N1 s2 l2 N2 s3 l3 N3 :
  vm_step s1 l1 root N1 s2 l2 N2 -> vm_step s2 l2 root N2 s3 l3 N3 -> vm_step s1 l1 root N1 s3 l3 N3.
Proof.
  intros [I1 F1 T1 L1 K1 P1 M1] [I2 F2 T2 L2 K2 P2 M2]. split; [done| | | | | |].
  - by eapply vm_frame_trans.
  - by transitivity N2.
  - auto.
  - intros q Hq. destruct (K1 q Hq) as [Hq2|[pi Hpi]]; [by apply K2|]. right. exists pi. by eapply lookup_weaken.
  - intros pi p Hp. destruct (P2 pi p Hp) as [Hp2|Hp2]; [by apply P1|]. right. by apply L1.
  - intros a HN Hl. rewrite M2; [by apply M1| |].
    + intros pi p Hp. destruct (P1 pi p Hp); [by eapply HN|by apply Hl].
    + intros q Hq. by apply Hl, L1.
Qed.

Lemma grown_refl s l root N : vm_inv s l root N -> grown s l root N s l N.
Proof. intros H. split; [by apply vm_step_refl|done]. Qed.

Lemma grown_trans s1 l1 root N1 s2 l2 N2 s3 l3 N3 :
  grown s1 l1 root N1 s2 l2 N2 -> grown s2 l2 root N2 s3 l3 N3 -> grown s1 l1 root N1 s3 l3 N3.
Proof.
  intros [H1 E1] [H2 E2]. split; [by eapply vm_step_trans|]. intros va. by rewrite E2.
Qed.

Lemma vm_frame_end s s' : vm_frame s s' -> k_end s' = k_end s.
Proof. intros [-> _]. done. Qed.

Lemma vm_frame_wf s s' : vm_frame s s' -> sync_wf (k_sync s) -> sync_wf (k_sync s').
Proof. intros [_ H]. apply touch_sync_wf. done. Qed.

Lemma vm_frame_lock l s s' : vm_frame s s' -> lock_free l (k_sync s) -> lock_free l (k_sync s').
Proof. intros [_ H]. apply touch_lock_free. done. Qed.

(** Writes to allocated pages keep the free list. *)
Lemma kmem_wf_mem s l m :
  kmem_wf s l ->
  (forall q, q ∈ l -> ld64 m q = ld64 (k_mem s) q) -> kmem_wf (set_k_mem m s) l.
Proof.
  intros [H1 H2 H3 H4] Hm. split; cbn; [done| |done..].
  clear H3 H4. revert H2 Hm. generalize (k_freelist s) as h. induction l as [|r l IH]; intros h H2 Hm; [done|].
  destruct H2 as [-> H2]. split; [done|]. rewrite Hm by constructor. apply IH; [done|].
  intros q Hq. apply Hm. by constructor.
Qed.

Lemma vm_inv_frame s s' l root N :
  vm_inv s l root N -> vm_frame s s' -> kmem_wf s' l -> pt_wf (k_end s) l (k_mem s') root N ->
  vm_inv s' l root N.
Proof.
  intros [Iy Ik If It] Hf Hk Ht. split; [by eapply vm_frame_wf|by eapply vm_frame_lock|done|].
  by rewrite (vm_frame_end _ _ Hf).
Qed.

(** Hanging a freshly allocated page into the tree. *)
Lemma grown_link q l root N pi p i s s1 :
  vm_inv s (q :: l) root N -> N !! pi = Some p -> (length pi < 2)%nat -> entry_ok pi i ->
  N !! (pi ++ [i]) = None ->
  vm_frame s s1 -> kmem_wf s1 l -> same_outside q (k_mem s) (k_mem s1) ->
  grown s (q :: l) root N
    (set_k_mem (st64 (memset (k_mem s1) q 0 pgsize) (p + 8 * i) (mk_pte q PTE_V)) s1)
    l (<[pi ++ [i] := q]> N).
Proof.
  intros I Hp Hlen Hok Hnone Hf Hk Ho. destruct (Hok) as [Hi _]. destruct I as [Iy Ik If It].
  destruct If as [Hend Hlist Hnd Hall]. apply Forall_cons_1 in Hall as [Hq Hall].
  destruct (pt_page It Hp) as ([Hap _] & Hpl & _). apply not_elem_of_cons in Hpl as [Hpq Hpl].
  assert (HL := link_mem _ Hend q p i _ _ Hq Hap Hpq Hi Ho).
  set (m2 := st64 _ _ _) in *. assert (Hf2 : vm_frame s (set_k_mem m2 s1)).
  { eapply vm_frame_trans; [done|apply vm_frame_mem]. }
  assert (Hk2 : kmem_wf (set_k_mem m2 s1) l).
  { apply kmem_wf_mem; [done|]. intros r Hr. rewrite Forall_forall in Hall.
    destruct (Hall r Hr) as [Har _]. apply NoDup_cons in Hnd as [Hql _].
    assert (r <> q) by congruence. assert (r <> p) by congruence.
    assert (E := linked_else _ _ _ _ _ HL r 0 Har ltac:(done) ltac:(lia) ltac:(congruence)).
    rewrite Z.mul_0_r, Z.add_0_r in E. rewrite E.
    symmetry. apply (same_outside_ld64 q); [done|].
    destruct (aligned_disjoint r q Har (proj1 Hq)); unfold PGSIZE in *; [done|lia|lia]. }
  assert (Ht2 : pt_wf (k_end s) l m2 root (<[pi ++ [i] := q]> N)).
  { by eapply pt_wf_link. }
  split; [split; [| |by apply insert_subseteq| | | |]|intros va; by eapply leaf_link].
  - split; [by eapply vm_frame_wf|by eapply vm_frame_lock|done|]. by rewrite (vm_frame_end _ _ Hf2).
  - done.
  - intros r Hr. by constructor.
  - intros r [->|Hr]%elem_of_cons; [right|by left]. exists (pi ++ [i]). apply lookup_insert_eq.
  - intros pi' p' Hp'. apply lookup_insert_Some in Hp' as [[_ <-]|[_ Hp']]; [right; constructor|by left].
  - intros a HN Hl. apply (linked_out _ _ _ _ _ HL); [apply Hl; constructor|by eapply HN].
Qed.

(** The page-table pages that are new hold entries for addresses from [a] to
    [b]. *)
Definition new_paths (a b : Z) (N N' : tree) : Prop :=
  forall pi, is_Some (N' !! pi) -> is_Some (N !! pi) \/ exists va, a <= va < b /\ (pi = [PX 2 va] \/ pi = path va).

Lemma new_paths_refl a b N : new_paths a b N N.
Proof. intros pi Hpi. by left. Qed.

Lemma new_paths_trans a b N1 N2 N3 : new_paths a b N1 N2 -> new_paths a b N2 N3 -> new_paths a b N1 N3.
Proof. intros H1 H2 pi Hpi. destruct (H2 pi Hpi) as [Hpi2|?]; [by apply H1|by right]. Qed.

Lemma new_paths_mono a b a' b' N N' : a' <= a -> b <= b' -> new_paths a b N N' -> new_paths a' b' N N'.
Proof. intros Ha Hb H pi Hpi. destruct (H pi Hpi) as [?|(va & Hva & E)]; [by left|right]. exists va. split; [lia|done]. Qed.

Lemma wp_walk_level level va pi p s l root N Q :
  vm_inv s l root N -> N !! pi = Some p -> (length pi < 2)%nat -> (pi = [] -> PX level va < 256) ->
  (forall o s' l' N', grown s l root N s' l' N' -> (length l <= 1 + length l')%nat ->
     (forall pi', is_Some (N' !! pi') -> is_Some (N !! pi') \/ pi' = pi ++ [PX level va]) ->
     match o with Some q => N' !! (pi ++ [PX level va]) = Some q | None => l' = [] /\ N' !! (pi ++ [PX level va]) = None end -> Q o s') ->
  wp (walk_level level p va true) Q s.
Proof.
  intros I Hp Hlen Htop HQ. destruct (I) as [Iy Ik If It]. set (i := PX level va) in *.
  assert (Hi : 0 <= i < 512) by apply PX_range.
  unfold walk_level. apply wp_bind, wp_gets. assert (He := pt_entry It i Hp Hlen Hi).
  destruct (N !! (pi ++ [i])) as [q|] eqn:Eq; fold i; rewrite He.
  - destruct (pt_page It Eq) as (Hq & _).
    destruct (ptr_decode _ (kmem_end _ _ If) q Hq) as [-> ->]. apply wp_ret.
    eapply HQ; [by apply grown_refl|lia|by left|done].
  - cbn [negb]. apply wp_bind. eapply wp_mono; [exact (wp_kalloc_list s l Iy Ik If)|]. cbv beta.
    intros r s1 (Hf1%kmem_vm_frame & Hk1). destruct l as [|q l].
    + destruct Hk1 as (-> & Hk1 & Hm). apply wp_ret. eapply (HQ None s1 [] N); [|cbn; lia|by left|done].
      split; [split; [|done|done|done|auto|auto|by rewrite Hm]|by rewrite Hm].
      eapply vm_inv_frame; [done..|]. by rewrite Hm.
    + destruct Hk1 as (-> & Hk1 & Ho & _).
      assert (Hq : 0 < q).
      { destruct If as [Hend _ _ Hall]. apply Forall_cons_1 in Hall as [Hq _].
        pose proof (page_ok_pos _ _ Hend Hq). lia. }
      destruct (Z.eqb_spec q 0); [lia|]. apply wp_bind, wp_modify, wp_bind, wp_modify, wp_ret.
      eapply HQ; [by eapply (grown_link q l root N pi p i s s1)|cbn; lia| |apply lookup_insert_eq].
      intros pi' [p' Hp']. apply lookup_insert_Some in Hp' as [[<- _]|[_ Hp']]; [by right|left; by eexists].
Qed.

(** [walk] with [alloc]: the entry for [va] exists afterwards, unless memory
    ran out. *)
Lemma wp_walk_alloc va s l root N Q :
  vm_inv s l root N -> 0 <= va < MAXVA ->
  (forall r s' l' N', grown s l root N s' l' N' -> (length l <= 2 + length l')%nat -> new_paths va (va + 1) N N' ->
     (r = 0 /\ l' = [] /\ N' !! path va = None) \/ (exists p0, N' !! path va = Some p0 /\ r = p0 + 8 * PX 0 va /\ r <> 0) ->
     Q r s') ->
  wp (walk root va true) Q s.
Proof.
  intros I Hva HQ. unfold walk. destruct (Z.leb_spec MAXVA va); [lia|].
  apply wp_bind. eapply (wp_walk_level 2 va []); [done|apply (pt_root (inv_tree _ _ _ _ I))|cbn; lia|by intros _; apply PX_top|].
  intros o1 s1 l1 N1 G1 C1 P1 H1.
  assert (P1' : new_paths va (va + 1) N N1).
  { intros pi Hpi. destruct (P1 pi Hpi) as [?| ->]; [by left|right]. exists va. split; [lia|by left]. }
  destruct o1 as [p1|].
  2: { destruct H1 as [-> H1]. apply wp_ret. eapply HQ; [exact G1|lia|done|left]. split_and!; [done|done|].
       destruct (N1 !! path va) as [p|] eqn:Ep; [|done].
       destruct (pt_parent (inv_tree _ _ _ _ (step_inv (proj1 G1))) (Ep : N1 !! ([PX 2 va] ++ [PX 1 va]) = Some p)) as [[p' Hp'] _].
       change (N1 !! [PX 2 va] = None) in H1. congruence. }
  apply wp_bind. eapply (wp_walk_level 1 va [PX 2 va]); [apply (step_inv (proj1 G1))|done|cbn; lia|done|].
  intros o2 s2 l2 N2 G2 C2 P2 H2.
  assert (P2' : new_paths va (va + 1) N N2).
  { eapply new_paths_trans; [exact P1'|]. intros pi Hpi. destruct (P2 pi Hpi) as [?| ->]; [by left|right].
    exists va. split; [lia|by right]. }
  destruct o2 as [p0|]; apply wp_ret; (eapply HQ; [by eapply grown_trans|lia|exact P2'|]); [|left; by destruct H2].
  right. exists p0. split_and!; [done|done|].
  assert (I2 := step_inv (proj1 G2)). destruct (pt_page (inv_tree _ _ _ _ I2) H2) as (Hp0 & _).
  apply (page_ok_pos _ _ (kmem_end _ _ (inv_free _ _ _ _ I2))) in Hp0.
  pose proof (PX_range 0 va). lia.
Qed.

(** [walk] without [alloc] only reads. *)
Lemma walk_level_read level p va s :
  walk_level level p va false s =
  Ok (let v := ld64 (k_mem s) (p + 8 * PX level va) in if has v PTE_V then Some (PTE2PA v) else None) s.
Proof.
  unfold walk_level. rewrite (bind_ok _ _ _ (ld64 (k_mem s) (p + 8 * PX level va)) s) by done.
  cbv zeta. by destruct (has _ PTE_V).
Qed.

Lemma walk_read root va s :
  va < MAXVA -> walk root va false s = Ok (default 0 (leaf_addr (k_mem s) root va)) s.
Proof.
  intros Hva. unfold walk, leaf_addr. destruct (Z.leb_spec MAXVA va); [lia|].
  rewrite (bind_ok _ _ _ _ _ (walk_level_read 2 root va s)). cbv zeta.
  destruct (has (ld64 (k_mem s) (root + 8 * PX 2 va)) PTE_V); [|done].
  rewrite (bind_ok _ _ _ _ _ (walk_level_read 1 _ va s)). cbv zeta. by destruct (has _ PTE_V).
Qed.

(** ** Leaf entries *)

Definition valid_pte (v : Z) : option Z := if has v PTE_V then Some v else None.

Lemma leaf_tree s l root N va :
  vm_inv s l root N ->
  leaf (k_mem s) root va = N !! path va ≫= fun p0 => valid_pte (ld64 (k_mem s) (p0 + 8 * PX 0 va)).
Proof.
  intros I. unfold leaf.
  rewrite (leaf_addr_tree _ (kmem_end _ _ (inv_free _ _ _ _ I)) _ _ _ _ _ (inv_tree _ _ _ _ I)).
  by destruct (N !! path va).
Qed.

(** Writing the leaf entry of [va]. *)
Definition set_leaf (p0 va v : Z) (s : kst) : kst :=
  set_k_mem (st64 (k_mem s) (p0 + 8 * PX 0 va) v) s.

(** Virtual pages: page-aligned addresses below [MAXVA]. *)
Definition vpage (va : Z) : Prop := aligned va /\ 0 <= va < MAXVA.

Lemma set_leaf_else s l root N va p0 v pi p j :
  vm_inv s l root N -> N !! path va = Some p0 -> N !! pi = Some p -> 0 <= j < 512 ->
  (pi, j) <> (path va, PX 0 va) ->
  ld64 (k_mem (set_leaf p0 va v s)) (p + 8 * j) = ld64 (k_mem s) (p + 8 * j).
Proof.
  intros I Hp0 Hp Hj Hne. assert (It := inv_tree _ _ _ _ I). cbn.
  pose proof (PX_range 0 va). apply ld64_st64_ne.
  destruct (decide (p = p0)) as [->|Hd].
  - assert (pi = path va) as -> by (by eapply (pt_inj It)).
    assert (j <> PX 0 va) by congruence. lia.
  - destruct (pt_page It Hp) as ([Ha _] & _), (pt_page It Hp0) as ([Ha0 _] & _).
    by apply entry_disjoint.
Qed.

Lemma vm_step_set_leaf s l root N va p0 v :
  vm_inv s l root N -> N !! path va = Some p0 ->
  vm_step s l root N (set_leaf p0 va v s) l N.
Proof.
  intros I Hp0. destruct (I) as [Iy Ik If It].
  assert (Hf : vm_frame s (set_leaf p0 va v s)) by apply vm_frame_mem.
  pose proof (PX_range 0 va) as Hpx. destruct (pt_page It Hp0) as ([Ha0 _] & Hl0 & _).
  split; [|done|done|done|auto|auto|].
  - eapply vm_inv_frame; [done|done| |].
    + apply kmem_wf_mem; [done|]. intros q Hq. apply ld64_st64_ne.
      destruct If as [_ _ _ Hall]. rewrite Forall_forall in Hall. destruct (Hall q Hq) as [Haq _].
      assert (Hne : p0 <> q) by congruence.
      destruct (entry_outside p0 q (PX 0 va) Ha0 Haq Hne Hpx); unfold PGSIZE in *; lia.
    + eapply pt_wf_frame; [done|]. intros pi p i Hp Hlen Hi. eapply set_leaf_else; [done..|].
      intros [= -> _]. cbn in Hlen. lia.
  - intros a HN _. apply (same_outside_st64 p0 _ _ (8 * PX 0 va)); [unfold PGSIZE; lia|by eapply HN].
Qed.

Lemma leaf_set_leaf s l root N va p0 v va' :
  vm_inv s l root N -> N !! path va = Some p0 -> vpage va -> vpage va' -> 0 <= v < 2 ^ 64 ->
  leaf (k_mem (set_leaf p0 va v s)) root va' =
  if decide (va' = va) then valid_pte v else leaf (k_mem s) root va'.
Proof.
  intros I Hp0 [Ha Hr] [Ha' Hr'] Hv.
  assert (S1 := vm_step_set_leaf s l root N va p0 v I Hp0).
  rewrite (leaf_tree _ _ _ _ _ (step_inv S1)), (leaf_tree _ _ _ _ _ I).
  case_decide as Hd; [subst; rewrite Hp0; cbn; by rewrite ld64_st64_eq|].
  destruct (N !! path va') as [p|] eqn:Hp; [|done]. cbn [mbind option_bind]. f_equal.
  eapply set_leaf_else; [done..|apply PX_range|]. intros E.
  apply Hd. unfold path in E. injection E as E2 E1 E0. by apply PX_inj.
Qed.

(** ** Mapping *)

(** [j] pages from [va] on are mapped to those from [pa] on; no other
    translation changed. *)
Definition maps (root va pa perm : Z) (j : nat) (m m' : mem) : Prop :=
  forall va', vpage va' -> leaf m' root va' =
    if decide (va <= va' < va + Z.of_nat j * PGSIZE)
    then Some (mk_pte (pa + (va' - va)) (Z.lor perm PTE_V)) else leaf m root va'.

Lemma maps_0 root va pa perm m m' :
  (forall va', leaf m' root va' = leaf m root va') -> maps root va pa perm 0 m m'.
Proof. intros H va' _. rewrite H. case_decide; [lia|done]. Qed.

Lemma lor_bound f : 0 <= f < 2 ^ 10 -> 0 <= Z.lor f PTE_V < 2 ^ 10.
Proof.
  intros Hf. assert (Z.lor f PTE_V <> 0 -> Z.log2 (Z.lor f PTE_V) < 10).
  { intros _. rewrite Z.log2_lor by (unfold PTE_V; lia). apply Z.max_lub_lt; [|done].
    destruct (decide (f = 0)) as [->|]; [done|]. apply Z.log2_lt_pow2; lia. }
  assert (0 <= Z.lor f PTE_V) by (apply Z.lor_nonneg; unfold PTE_V; lia).
  destruct (decide (Z.lor f PTE_V = 0)) as [->|]; [lia|].
  split; [done|]. apply Z.log2_lt_pow2; [lia|auto].
Qed.

Lemma has_lor_V f : has (Z.lor f PTE_V) PTE_V = true.
Proof.
  unfold has. rewrite Z.land_lor_distr_l, Z.land_diag.
  destruct (Z.eqb_spec (Z.lor (Z.land f PTE_V) PTE_V) 0) as [E|]; [|done].
  apply Z.lor_eq_0_iff in E as [_ E]. done.
Qed.

Lemma maps_cons root va pa perm j m m1 m2 :
  maps root va pa perm 1 m m1 -> maps root (va + PGSIZE) (pa + PGSIZE) perm j m1 m2 -> vpage va ->
  maps root va pa perm (S j) m m2.
Proof.
  intros H1 H2 [Ha _] va' Hv. rewrite (H2 va' Hv), (H1 va' Hv). destruct Hv as [Ha' _].
  unfold aligned, PGSIZE in *.
  pose proof (Z.div_mod va 4096). pose proof (Z.div_mod va' 4096).
  repeat case_decide; try lia; try done; do 2 f_equal; lia.
Qed.

Lemma vpage_next va : vpage va -> va + PGSIZE < MAXVA -> vpage (va + PGSIZE).
Proof.
  intros [Ha Hr] Hlt. unfold vpage, aligned, PGSIZE in *. split; [|lia].
  rewrite Z.add_mod, Ha by lia. done.
Qed.

Section mapping.
Context (root perm : Z) (Hperm : 0 <= perm < 2 ^ 10).

(** One page. *)
Lemma wp_map_one a pa p0 s l N :
  vm_inv s l root N -> vpage a -> aligned pa -> 0 <= pa < 2 ^ 56 -> N !! path a = Some p0 ->
  let s' := set_leaf p0 a (mk_pte pa (Z.lor perm PTE_V)) s in
  vm_step s l root N s' l N /\ maps root a pa perm 1 (k_mem s) (k_mem s').
Proof.
  intros I Hva Hpa Hpr Hp0. split; [by apply vm_step_set_leaf|]. intros va' Hv'.
  assert (Hb := lor_bound perm Hperm).
  rewrite (leaf_set_leaf s l root N) by (done || by apply mk_pte_range).
  destruct Hva as [Ha Hr], Hv' as [Ha' Hr']. unfold aligned, PGSIZE in *.
  pose proof (Z.div_mod a 4096). pose proof (Z.div_mod va' 4096).
  repeat case_decide; try lia; [|done]. subst. rewrite Z.sub_diag, Z.add_0_r.
  unfold valid_pte. by rewrite has_mk_pte, has_lor_V by (unfold PTE_V; lia).
Qed.

Lemma mappages_loop_S fuel a last pa :
  mappages_loop (S fuel) root a last pa perm =
  (pte ← walk root a true;
   if pte =? 0 then mret (-1) else
   v ← rd64 pte;
   if has v PTE_V then panic "mappages: remap" else
   wr64 pte (Z.lor (Z.lor (PA2PTE pa) perm) PTE_V);;
   if a =? last then mret 0
   else mappages_loop fuel root (wrap64 (a + PGSIZE)) last (wrap64 (pa + PGSIZE)) perm).
Proof. done. Qed.

Lemma wp_mappages_loop k a pa s l N Q :
  vm_inv s l root N -> vpage a -> a + Z.of_nat k * PGSIZE < MAXVA ->
  aligned pa -> 0 <= pa -> pa + Z.of_nat (S k) * PGSIZE <= 2 ^ 56 ->
  (forall va', vpage va' -> a <= va' < a + Z.of_nat (S k) * PGSIZE -> leaf (k_mem s) root va' = None) ->
  (forall r j s' l' N', vm_step s l root N s' l' N' -> maps root a pa perm j (k_mem s) (k_mem s') ->
     (length l <= 2 * S k + length l')%nat -> new_paths a (a + Z.of_nat (S k) * PGSIZE) N N' ->
     (r = 0 /\ j = S k) \/ (r = -1 /\ (j <= k)%nat /\ l' = [] /\
       exists va', a <= va' < a + Z.of_nat (S k) * PGSIZE /\ N' !! path va' = None) -> Q r s') ->
  wp (mappages_loop (S k) root a (a + Z.of_nat k * PGSIZE) pa perm) Q s.
Proof.
  revert a pa s l N. induction k as [|k IH]; intros a pa s l N I Hva Hmax Hpa Hp0 Hpr Hnone HQ;
    rewrite mappages_loop_S; unfold PGSIZE in *.
  all: (apply wp_bind; eapply wp_walk_alloc; [done|destruct Hva; lia|]).
  all: (intros r s1 l1 N1 [S1 E1] C1 P1 [(-> & -> & Hmiss)|(p & Hp & -> & Hr)];
        [apply wp_ret; eapply (HQ _ 0%nat); [done|by apply maps_0|cbn in *; lia|eapply new_paths_mono; [| |exact P1]; lia|right; split_and!; [done|lia|done|exists a; split; [lia|done]]]|]).
  all: (destruct (Z.eqb_spec (p + 8 * PX 0 a) 0) as [|_]; [done|];
        apply wp_bind, wp_gets).
  all: assert (Hinv : has (ld64 (k_mem s1) (p + 8 * PX 0 a)) PTE_V = false)
         by (specialize (Hnone a Hva ltac:(lia)); rewrite <- E1, (leaf_tree _ _ _ _ _ (step_inv S1)), Hp in Hnone;
             cbn [mbind option_bind] in Hnone; unfold valid_pte in Hnone; by destruct (has _ _)).
  all: rewrite Hinv; apply wp_bind, wp_modify.
  all: rewrite <- (Z.lor_assoc (PA2PTE pa) perm PTE_V).
  all: change (set_k_mem (st64 (k_mem s1) _ _) s1)
         with (set_leaf p a (mk_pte pa (Z.lor perm PTE_V)) s1).
  all: destruct (wp_map_one a pa p s1 l1 N1 (step_inv S1) Hva Hpa ltac:(lia) Hp) as [S2 M2].
  all: assert (M2' : maps root a pa perm 1 (k_mem s) (k_mem (set_leaf p a (mk_pte pa (Z.lor perm PTE_V)) s1)))
         by (intros va' Hv'; rewrite (M2 va' Hv'), E1; done).
  - rewrite Z.mul_0_l, Z.add_0_r, Z.eqb_refl. apply wp_ret.
    eapply (HQ _ 1%nat); [by eapply vm_step_trans|done|lia|eapply new_paths_mono; [| |exact P1]; lia|by left].
  - destruct (Z.eqb_spec a (a + Z.of_nat (S k) * 4096)) as [|_]; [lia|].
    unfold vpage, MAXVA in *. change (Z.shiftl 1 _) with (2 ^ 38) in *.
    rewrite !wrap64_small by lia.
    replace (a + Z.of_nat (S k) * 4096) with ((a + 4096) + Z.of_nat k * 4096) by lia.
    eapply (IH (a + 4096) (pa + 4096)); [apply (step_inv S2)| |lia| |lia|lia| |].
    + apply (vpage_next a Hva). unfold PGSIZE, MAXVA. change (Z.shiftl 1 _) with (2 ^ 38). lia.
    + unfold aligned, PGSIZE in *. rewrite Z.add_mod, Hpa by lia. done.
    + intros va' Hv' Hr'. rewrite (M2' va' Hv'). unfold PGSIZE. case_decide; [lia|]. apply Hnone; [done|lia].
    + intros r j s' l' N' S3 M3 C3 P3 Hrj. eapply (HQ r (S j)).
      * eapply vm_step_trans; [exact S1|]. by eapply vm_step_trans.
      * eapply maps_cons; [exact M2'|exact M3|done].
      * lia.
      * eapply new_paths_trans; (eapply new_paths_mono; [| |first [exact P3|exact P1]]; lia).
      * destruct Hrj as [[-> ->]|(-> & ? & -> & va' & Hva' & Hmiss)]; [by left|right]. split_and!; [done|lia|done|]. exists va'. split; [lia|done].
Qed.

End mapping.

Lemma wp_mappages_paths root va size pa perm s l N Q (n : nat) :
  vm_inv s l root N -> vpage va -> size = Z.of_nat (S n) * PGSIZE -> va + size <= MAXVA ->
  aligned pa -> 0 <= pa -> pa + size <= 2 ^ 56 -> 0 <= perm < 2 ^ 10 ->
  (forall va', vpage va' -> va <= va' < va + size -> leaf (k_mem s) root va' = None) ->
  (forall r j s' l' N', vm_step s l root N s' l' N' -> maps root va pa perm j (k_mem s) (k_mem s') ->
     (length l <= 2 * S n + length l')%nat -> new_paths va (va + size) N N' ->
     (r = 0 /\ j = S n) \/ (r = -1 /\ (j <= n)%nat /\ l' = [] /\
       exists va', va <= va' < va + size /\ N' !! path va' = None) -> Q r s') ->
  wp (mappages root va size pa perm) Q s.
Proof.
  intros I Hva -> Hmax Hpa Hpa0 Hpr Hperm Hnone HQ. unfold mappages. destruct (Hva) as [Ha Hr].
  unfold aligned in Ha. rewrite Ha, Z.mod_mul by done. cbn [negb Z.eqb].
  destruct (Z.eqb_spec (Z.of_nat (S n) * PGSIZE) 0) as [E|_]; [unfold PGSIZE in E; lia|].
  rewrite Z.div_mul, Nat2Z.id by done.
  replace (wrap64 (va + Z.of_nat (S n) * PGSIZE - PGSIZE)) with (va + Z.of_nat n * PGSIZE).
  - apply (wp_mappages_loop root perm Hperm n va pa s l N); try done. unfold PGSIZE in *. lia.
  - unfold MAXVA, PGSIZE in *. change (Z.shiftl 1 _) with (2 ^ 38) in *.
    rewrite wrap64_small by lia. lia.
Qed.

Lemma wp_mappages root va size pa perm s l N Q (n : nat) :
  vm_inv s l root N -> vpage va -> size = Z.of_nat (S n) * PGSIZE -> va + size <= MAXVA ->
  aligned pa -> 0 <= pa -> pa + size <= 2 ^ 56 -> 0 <= perm < 2 ^ 10 ->
  (forall va', vpage va' -> va <= va' < va + size -> leaf (k_mem s) root va' = None) ->
  (forall r j s' l' N', vm_step s l root N s' l' N' -> maps root va pa perm j (k_mem s) (k_mem s') ->
     (length l <= 2 * S n + length l')%nat ->
     (r = 0 /\ j = S n) \/ (r = -1 /\ (j <= n)%nat /\ l' = []) -> Q r s') ->
  wp (mappages root va size pa perm) Q s.
Proof.
  intros I H1 H2 H3 H4 H5 H6 H7 H8 HQ. apply (wp_mappages_paths root va size pa perm s l N Q n); [done..|].
  intros r j s' l' N' S M C _ Hr. apply (HQ r j s' l' N'); [done..|]. tauto.
Qed.

(** ** User memory *)

(** The physical address behind a user virtual address, and the byte there. *)
Definition user_pa (m : mem) (root va : Z) : option Z :=
  v ← leaf m root (PGROUNDDOWN va);
  if has v PTE_U then Some (PTE2PA v + (va - PGROUNDDOWN va)) else None.

Definition umem (m : mem) (root va : Z) : option Z := m <$> user_pa m root va.

(** User pages are pages, distinct from one another and from the tree. *)
Record user_wf (m : mem) (root : Z) (N : tree) : Prop := {
  user_page : forall va v, vpage va -> leaf m root va = Some v -> has v PTE_U = true ->
    aligned (PTE2PA v) /\ 0 < PTE2PA v /\ forall pi p, N !! pi = Some p -> p <> PTE2PA v;
  user_inj : forall va va' v v', vpage va -> vpage va' -> leaf m root va = Some v -> has v PTE_U = true ->
    leaf m root va' = Some v' -> has v' PTE_U = true -> PTE2PA v = PTE2PA v' -> va = va'
}.

Lemma vpage_down va : 0 <= va < MAXVA -> vpage (PGROUNDDOWN va).
Proof.
  intros H. destruct (PGROUNDDOWN_bounds va) as [Hb Ha]. split; [done|].
  rewrite PGROUNDDOWN_spec in *. pose proof (Z.div_pos va 4096). lia.
Qed.

Lemma PGROUNDDOWN_in_page va0 va :
  aligned va0 -> va0 <= va < va0 + PGSIZE -> PGROUNDDOWN va = va0.
Proof.
  intros Ha Hr. rewrite PGROUNDDOWN_spec. unfold aligned, PGSIZE in *.
  pose proof (Z.div_mod va0 4096). pose proof (Z.div_mod va 4096). pose proof (Z.mod_pos_bound va 4096).
  lia.
Qed.

Lemma walkaddr_read root va s :
  0 <= va < MAXVA ->
  walkaddr root va s =
    Ok (match leaf (k_mem s) root va with
        | Some v => if has v PTE_U then PTE2PA v else 0
        | None => 0
        end) s \/ leaf_addr (k_mem s) root va = Some 0.
Proof.
  intros Hva. destruct (decide (leaf_addr (k_mem s) root va = Some 0)); [by right|left].
  unfold walkaddr, leaf. destruct (Z.leb_spec MAXVA va); [lia|].
  rewrite (bind_ok _ _ _ _ _ (walk_read root va s ltac:(lia))).
  destruct (leaf_addr (k_mem s) root va) as [a|]; [|done]. cbn [default from_option id].
  destruct (Z.eqb_spec a 0) as [->|]; [done|].
  rewrite (bind_ok _ _ _ (ld64 (k_mem s) a) s) by done. cbn [mbind option_bind].
  destruct (has (ld64 (k_mem s) a) PTE_V); [|done]. cbn [negb].
  by destruct (has (ld64 (k_mem s) a) PTE_U).
Qed.

Section user.
Context (kend : Z) (Hkend : 0 < kend) (l : list Z) (root : Z) (N : tree).

Lemma leaf_addr_pos m va a : pt_wf kend l m root N -> leaf_addr m root va = Some a -> a <> 0.
Proof.
  intros H. rewrite (leaf_addr_tree _ Hkend _ _ _ _ _ H). destruct (N !! path va) as [p|] eqn:E; [|done].
  intros [= <-]. destruct (pt_page H E) as (Hp & _). apply (page_ok_range _ Hkend) in Hp as [_ Hp].
  pose proof (PX_range 0 va). lia.
Qed.

(** Memory that agrees on the tree's pages gives the same translations. *)
Lemma leaf_frame m m' :
  pt_wf kend l m root N ->
  (forall pi p a, N !! pi = Some p -> in_page p a -> m' a = m a) ->
  pt_wf kend l m' root N /\ forall va, leaf m' root va = leaf m root va.
Proof.
  intros H Hm.
  assert (Hld : forall pi p i, N !! pi = Some p -> 0 <= i < 512 -> ld64 m' (p + 8 * i) = ld64 m (p + 8 * i)).
  { intros pi p i Hp Hi. apply (ldn_ext 8). intros x Hx. eapply Hm; [done|].
    unfold in_page, PGSIZE. lia. }
  assert (H' : pt_wf kend l m' root N) by (eapply pt_wf_frame; eauto).
  split; [done|]. intros va. unfold leaf.
  rewrite (leaf_addr_tree _ Hkend _ _ _ _ _ H'), (leaf_addr_tree _ Hkend _ _ _ _ _ H).
  destruct (N !! path va) as [p|] eqn:E; [|done]. cbn [fmap option_fmap option_map mbind option_bind].
  by rewrite (Hld _ _ _ E (PX_range 0 va)).
Qed.

Lemma walkaddr_user m va v s :
  k_mem s = m -> pt_wf kend l m root N -> vpage va -> leaf m root va = Some v -> has v PTE_U = true ->
  walkaddr root va s = Ok (PTE2PA v) s.
Proof.
  intros <- H [_ Hr] Hl Hu. destruct (walkaddr_read root va s Hr) as [E|E].
  - by rewrite E, Hl, Hu.
  - by apply (leaf_addr_pos _ _ _ H) in E.
Qed.

(** The [n] bytes of user memory from [va] on. *)
Definition ubytes (m : mem) (va : Z) (n : nat) : list Z :=
  (fun i => default 0 (umem m root (va + Z.of_nat i))) <$> seq 0 n.

Lemma ubytes_add m va n k : ubytes m va (n + k) = ubytes m va n ++ ubytes m (va + Z.of_nat n) k.
Proof.
  unfold ubytes. rewrite seq_app, fmap_app. f_equal.
  replace (seq (0 + n) k) with (Nat.add n <$> seq 0 k) by (rewrite fmap_add_seq; f_equal; lia).
  rewrite <- list_fmap_compose.
  apply list_fmap_ext. intros i j _. unfold compose. do 2 f_equal. lia.
Qed.

(** The page a chunk of a copy falls into. *)
Lemma user_pa_chunk m va pa : 0 <= va < MAXVA -> user_pa m root va = Some pa ->
  exists v, leaf m root (PGROUNDDOWN va) = Some v /\ has v PTE_U = true /\
    forall i, 0 <= i < PGSIZE - (va - PGROUNDDOWN va) ->
      user_pa m root (va + i) = Some (PTE2PA v + (va - PGROUNDDOWN va) + i).
Proof.
  intros Hva. unfold user_pa. destruct (leaf m root (PGROUNDDOWN va)) as [v|] eqn:E; [|done]. cbn.
  destruct (has v PTE_U) eqn:Eu; [|done]. intros _. exists v. split_and!; [done..|].
  intros i Hi. destruct (PGROUNDDOWN_bounds va) as [Hb Ha].
  rewrite (PGROUNDDOWN_in_page (PGROUNDDOWN va) (va + i)) by (done || lia).
  rewrite E. cbn. rewrite Eu. f_equal. lia.
Qed.

Definition mapped (m : mem) (va : Z) (n : nat) : Prop :=
  0 <= va /\ va + Z.of_nat n <= MAXVA /\
  forall i, (i < n)%nat -> is_Some (user_pa m root (va + Z.of_nat i)).

Lemma wrap64_page va : 0 <= va < MAXVA -> wrap64 (PGROUNDDOWN va + PGSIZE) = PGROUNDDOWN va + PGSIZE.
Proof.
  intros H. destruct (PGROUNDDOWN_bounds va) as [Hb _]. unfold MAXVA, PGSIZE in *.
  change (Z.shiftl 1 _) with (2 ^ 38) in *. apply wrap64_small. lia.
Qed.

Lemma mapped_next m va len n :
  mapped m va len -> (n <= len)%nat -> mapped m (va + Z.of_nat n) (len - n).
Proof.
  intros (H0 & H1 & H2) Hn. split_and!; [lia|lia|]. intros i Hi.
  replace (va + Z.of_nat n + Z.of_nat i) with (va + Z.of_nat (n + i)) by lia. apply H2. lia.
Qed.

(** The length of the first chunk, and where the next one starts. *)
Definition chunk (va : Z) (len : nat) : nat := Nat.min (Z.to_nat (PGSIZE - (va - PGROUNDDOWN va))) len.

Lemma chunk_next va len :
  (chunk va len < len)%nat -> PGROUNDDOWN va + PGSIZE = va + Z.of_nat (chunk va len).
Proof. unfold chunk. destruct (PGROUNDDOWN_bounds va) as [Hb _]. unfold PGSIZE in *. lia. Qed.

Lemma chunk_pos va len : (0 < len)%nat -> (0 < chunk va len <= len)%nat.
Proof. unfold chunk. destruct (PGROUNDDOWN_bounds va) as [Hb _]. unfold PGSIZE in *. lia. Qed.

Lemma take_ubytes m va pa len :
  0 <= va < MAXVA -> user_pa m root va = Some pa ->
  take_bytes m pa (chunk va len) = ubytes m va (chunk va len).
Proof.
  intros Hva Hpa. destruct (user_pa_chunk m va pa Hva Hpa) as (v & _ & _ & Hc).
  destruct (PGROUNDDOWN_bounds va) as [Hb _].
  assert (pa = PTE2PA v + (va - PGROUNDDOWN va)) as ->.
  { specialize (Hc 0). rewrite !Z.add_0_r, Hpa in Hc. unfold PGSIZE in Hc. specialize (Hc ltac:(lia)). by injection Hc. }
  unfold take_bytes, ubytes. apply list_fmap_ext. intros k i Hi. apply lookup_seq in Hi as [-> Hi].
  unfold umem. rewrite Hc; [done|]. unfold chunk in Hi. lia.
Qed.

Lemma copyin_loop_spec fuel va len s :
  pt_wf kend l (k_mem s) root N -> user_wf (k_mem s) root N -> mapped (k_mem s) va len ->
  (len <= fuel)%nat ->
  copyin_loop fuel root va len s = Ok (0, ubytes (k_mem s) va len) s.
Proof.
  intros Ht Hu. revert va len. induction fuel as [|fuel IH]; intros va len Hm Hf.
  { destruct len; [done|lia]. }
  destruct len as [|len']; [done|]. set (len := S len') in *.
  destruct (Hm) as (H0 & H1 & H2). destruct (H2 0%nat ltac:(lia)) as [pa Hpa]. rewrite Z.add_0_r in Hpa.
  assert (Hva : 0 <= va < MAXVA) by lia.
  destruct (user_pa_chunk _ va pa Hva Hpa) as (v & Hv & Hvu & Hc).
  assert (Hvp := vpage_down va Hva).
  destruct (user_page _ _ _ Hu _ _ Hvp Hv Hvu) as (_ & Hpos & _).
  assert (Epa : pa = PTE2PA v + (va - PGROUNDDOWN va)).
  { destruct (PGROUNDDOWN_bounds va) as [Hb _]. specialize (Hc 0).
    rewrite !Z.add_0_r, Hpa in Hc. unfold PGSIZE in Hc. specialize (Hc ltac:(lia)). by injection Hc. }
  cbn [copyin_loop len]. fold len.
  rewrite (bind_ok _ _ _ _ _ (walkaddr_user _ _ _ s eq_refl Ht Hvp Hv Hvu)).
  destruct (Z.eqb_spec (PTE2PA v) 0); [lia|].
  rewrite (bind_ok _ _ _ (PTE2PA v) s) by done.
  destruct (Z.eqb_spec (PTE2PA v) 0); [lia|].
  change (Nat.min (Z.to_nat (PGSIZE - (va - PGROUNDDOWN va))) len) with (chunk va len).
  rewrite (bind_ok _ _ _ (ubytes (k_mem s) va (chunk va len)) s).
  2: { unfold read_mem, gets. by rewrite <- Epa, take_ubytes. }
  pose proof (chunk_pos va len ltac:(lia)) as Hcp. rewrite wrap64_page by done.
  rewrite (bind_ok _ _ _ (0, ubytes (k_mem s) (va + Z.of_nat (chunk va len)) (len - chunk va len)) s).
  - unfold mret, M_ret. cbn [fst snd]. rewrite <- ubytes_add.
    by replace (chunk va len + (len - chunk va len))%nat with len by lia.
  - destruct (decide (chunk va len < len)%nat) as [Hlt|Hge].
    + rewrite (chunk_next va len Hlt). apply IH; [|lia]. apply mapped_next; [done|lia].
    + replace (len - chunk va len)%nat with 0%nat by lia. by destruct fuel.
Qed.

Lemma put_spec m a bs x :
  put m a bs x = if decide (a <= x < a + Z.of_nat (length bs))
                 then default 0 (bs !! Z.to_nat (x - a)) else m x.
Proof.
  revert m a. induction bs as [|b bs IH]; intros m a; cbn [put length].
  { by rewrite decide_False by lia. }
  rewrite IH. destruct (decide (x = a)) as [->|Hne].
  - rewrite decide_False, decide_True by lia. by rewrite mupd_eq, Z.sub_diag.
  - rewrite mupd_ne by done. repeat case_decide; try lia.
    replace (Z.to_nat (x - a)) with (S (Z.to_nat (x - (a + 1)))) by lia. done.
Qed.

(** Writing one chunk into a user page changes those user bytes only. *)
Lemma put_user m va v bs :
  pt_wf kend l m root N -> user_wf m root N -> 0 <= va < MAXVA ->
  leaf m root (PGROUNDDOWN va) = Some v -> has v PTE_U = true ->
  Z.of_nat (length bs) <= PGSIZE - (va - PGROUNDDOWN va) ->
  let m1 := put m (PTE2PA v + (va - PGROUNDDOWN va)) bs in
  pt_wf kend l m1 root N /\ (forall va', leaf m1 root va' = leaf m root va') /\
  forall va', 0 <= va' < MAXVA -> umem m1 root va' =
    if decide (va <= va' < va + Z.of_nat (length bs)) then bs !! Z.to_nat (va' - va)
    else umem m root va'.
Proof.
  intros Ht Hu Hva Hv Hvu Hlen m1. assert (Hvp := vpage_down va Hva).
  destruct (PGROUNDDOWN_bounds va) as [Hb _].
  destruct (user_page _ _ _ Hu _ _ Hvp Hv Hvu) as (Hav & Hpos & Hout).
  destruct (leaf_frame m m1 Ht) as [Ht1 Hleaf].
  { intros pi p a Hp Ha. unfold m1. rewrite put_spec, decide_False; [done|].
    destruct (pt_page Ht Hp) as ([Hap _] & _).
    destruct (aligned_disjoint p (PTE2PA v) Hap Hav (Hout _ _ Hp)); unfold in_page, PGSIZE in *; lia. }
  split_and!; [done..|]. intros va' Hva'. unfold umem.
  assert (E : user_pa m1 root va' = user_pa m root va') by (unfold user_pa; by rewrite Hleaf).
  rewrite E. case_decide as Hin.
  - assert (Epg : PGROUNDDOWN va' = PGROUNDDOWN va).
    { apply PGROUNDDOWN_in_page; [apply Hvp|]. lia. }
    unfold user_pa. rewrite Epg, Hv. cbn [mbind option_bind]. rewrite Hvu.
    cbn [fmap option_fmap option_map]. unfold m1. rewrite put_spec, decide_True by lia.
    replace (PTE2PA v + (va' - PGROUNDDOWN va) - (PTE2PA v + (va - PGROUNDDOWN va))) with (va' - va) by lia.
    destruct (lookup_lt_is_Some_2 bs (Z.to_nat (va' - va)) ltac:(lia)) as [b ->]. done.
  - unfold user_pa. destruct (leaf m root (PGROUNDDOWN va')) as [v'|] eqn:Hv'; [|done].
    cbn [mbind option_bind]. destruct (has v' PTE_U) eqn:Hvu'; [|done].
    cbn [fmap option_fmap option_map]. f_equal. unfold m1. rewrite put_spec, decide_False; [done|].
    assert (Hvp' := vpage_down va' Hva'). destruct (PGROUNDDOWN_bounds va') as [Hb' _].
    destruct (user_page _ _ _ Hu _ _ Hvp' Hv' Hvu') as (Hav' & _).
    destruct (decide (PTE2PA v = PTE2PA v')) as [Ep|Hne].
    + assert (Epg := user_inj _ _ _ Hu _ _ _ _ Hvp Hvp' Hv Hvu Hv' Hvu' Ep). lia.
    + destruct (aligned_disjoint _ _ Hav Hav' Hne); unfold PGSIZE in *; lia.
Qed.

Lemma user_wf_leaf m m1 :
  (forall va', leaf m1 root va' = leaf m root va') -> user_wf m root N -> user_wf m1 root N.
Proof.
  intros Hl [H1 H2]. split.
  - intros va v Hva Hv. rewrite Hl in Hv. by apply (H1 va).
  - intros va va' v v' Hva Hva' Hv Hvu Hv'. rewrite Hl in Hv, Hv'. by eapply H2.
Qed.

(** The pages from [va] on may be written. *)
Definition writable (m : mem) (va : Z) (n : nat) : Prop :=
  forall i v, (i < n)%nat -> leaf m root (PGROUNDDOWN (va + Z.of_nat i)) = Some v -> has v PTE_W = true.

Lemma mapped_leaf m m1 va n :
  (forall va', leaf m1 root va' = leaf m root va') -> mapped m va n -> mapped m1 va n.
Proof.
  intros Hl (H0 & H1 & H2). split_and!; [done..|]. intros i Hi. unfold user_pa. rewrite Hl. by apply H2.
Qed.

(** What a write of [src] at [va] does to user memory. *)
Definition user_write (va : Z) (src : list Z) (m m' : mem) : Prop :=
  pt_wf kend l m' root N /\ (forall va', leaf m' root va' = leaf m root va') /\
  forall va', 0 <= va' < MAXVA -> umem m' root va' =
    if decide (va <= va' < va + Z.of_nat (length src)) then src !! Z.to_nat (va' - va)
    else umem m root va'.

Lemma user_write_app va bs src m m1 m2 :
  user_write va bs m m1 -> user_write (va + Z.of_nat (length bs)) src m1 m2 ->
  user_write va (bs ++ src) m m2.
Proof.
  intros (T1 & L1 & U1) (T2 & L2 & U2). split_and!; [done|congruence|].
  intros va' Hva'. rewrite U2, U1 by done. rewrite length_app.
  destruct (decide (va <= va' < va + Z.of_nat (length bs))).
  - rewrite decide_False, decide_True by lia. rewrite lookup_app_l by lia. done.
  - destruct (decide (va + Z.of_nat (length bs) <= va' < va + Z.of_nat (length bs) + Z.of_nat (length src))).
    + rewrite decide_True by lia. rewrite lookup_app_r by lia. f_equal. lia.
    + rewrite decide_False by lia. done.
Qed.

Lemma copyout_loop_spec fuel va src s :
  pt_wf kend l (k_mem s) root N -> user_wf (k_mem s) root N ->
  mapped (k_mem s) va (length src) -> writable (k_mem s) va (length src) ->
  (length src <= fuel)%nat ->
  exists m', copyout_loop fuel root va src s = Ok 0 (set_k_mem m' s) /\ user_write va src (k_mem s) m'.
Proof.
  revert va src s. induction fuel as [|fuel IH]; intros va src s Ht Hu Hm Hw Hf.
  all: destruct src as [|b src']; [exists (k_mem s); split; [by destruct s|];
         split_and!; [done|done|intros va' _; cbn; by rewrite decide_False by lia]|].
  { cbn in Hf. lia. }
  set (src := b :: src') in *. assert (Hlen : (0 < length src)%nat) by (cbn; lia).
  destruct (Hm) as (H0 & H1 & H2). destruct (H2 0%nat Hlen) as [pa Hpa]. rewrite Z.add_0_r in Hpa.
  assert (Hva : 0 <= va < MAXVA) by lia.
  destruct (user_pa_chunk _ va pa Hva Hpa) as (v & Hv & Hvu & _).
  assert (Hvp := vpage_down va Hva). destruct (user_page _ _ _ Hu _ _ Hvp Hv Hvu) as (_ & Hpos & _).
  assert (Hvw : has v PTE_W = true).
  { apply (Hw 0%nat v Hlen). by rewrite Z.add_0_r. }
  cbn [copyout_loop src]. fold src. destruct (Z.leb_spec MAXVA (PGROUNDDOWN va)) as [|_]; [destruct Hvp; lia|].
  rewrite (bind_ok _ _ _ _ _ (walkaddr_user _ _ _ s eq_refl Ht Hvp Hv Hvu)).
  destruct (Z.eqb_spec (PTE2PA v) 0) as [|Hnz]; [lia|].
  rewrite (bind_ok _ _ _ (PTE2PA v) s) by done.
  destruct (Z.eqb_spec (PTE2PA v) 0) as [|_]; [done|].
  assert (Hla := Hv). unfold leaf in Hla.
  destruct (leaf_addr (k_mem s) root (PGROUNDDOWN va)) as [ea|] eqn:Ea; [|done]. cbn in Hla.
  rewrite (bind_ok _ _ _ ea s) by (rewrite walk_read by apply Hvp; by rewrite Ea).
  destruct (Z.eqb_spec ea 0) as [->|_]; [by apply (leaf_addr_pos _ _ _ Ht) in Ea|].
  assert (Hld : ld64 (k_mem s) ea = v) by (destruct (has (ld64 (k_mem s) ea) PTE_V); congruence).
  rewrite (bind_ok _ _ _ v s) by (unfold rd64, gets; by rewrite Hld).
  rewrite Hvw. cbn [negb].
  change (Nat.min (Z.to_nat (PGSIZE - (va - PGROUNDDOWN va))) (length src)) with (chunk va (length src)).
  set (n := chunk va (length src)). assert (Hn := chunk_pos va (length src) Hlen). fold n in Hn.
  assert (Htk : length (take n src) = n) by (rewrite length_take; lia).
  destruct (put_user (k_mem s) va v (take n src) Ht Hu Hva Hv Hvu) as (T1 & L1 & U1).
  { rewrite Htk. unfold n, chunk. destruct (PGROUNDDOWN_bounds va). unfold PGSIZE. lia. }
  set (m1 := put _ _ _) in *. set (s1 := set_k_mem m1 s).
  rewrite (bind_ok _ _ _ tt s1) by done. rewrite wrap64_page by done.
  destruct (IH (va + Z.of_nat n) (drop n src) s1) as (m' & E & W).
  { done. }
  { by eapply user_wf_leaf. }
  { rewrite length_drop. apply mapped_next; [|lia]. by eapply mapped_leaf. }
  { intros i x Hi. rewrite length_drop in Hi. cbn. rewrite L1.
    replace (va + Z.of_nat n + Z.of_nat i) with (va + Z.of_nat (n + i)) by lia. apply Hw. lia. }
  { rewrite length_drop. lia. }
  exists m'. split.
  - destruct (decide (n < length src)%nat) as [Hlt|Hge].
    + rewrite (chunk_next va (length src) Hlt). exact E.
    + rewrite (nil_length_inv (drop n src)) in E |- * by (rewrite length_drop; lia).
      by destruct fuel.
  - rewrite <- (take_drop n src). eapply user_write_app; [split_and!; [exact T1|exact L1|exact U1]|].
    by rewrite Htk.
Qed.

End user.

(** ** Properties *)

(** [mappages] on an unmapped, page-aligned range: it returns 0 and maps
    exactly the pages of the range to the given physical pages, or it returns
    -1 with the free list exhausted and only a prefix mapped; every other
    translation, the tree's invariant, the allocator's and all memory outside
    page tables and free pages are kept. *)
Theorem mappages_spec (root va size pa perm : Z) (n : nat) (s : kst) (l : list Z) (N : tree)
    (I : vm_inv s l root N) (Hva : vpage va) (Hsize : size = Z.of_nat (S n) * PGSIZE)
    (Hmax : va + size <= MAXVA) (Hpa : aligned pa) (Hpa0 : 0 <= pa) (Hpa1 : pa + size <= 2 ^ 56)
    (Hperm : 0 <= perm < 2 ^ 10)
    (Hnone : forall va', vpage va' -> va <= va' < va + size -> leaf (k_mem s) root va' = None) :
  wp (mappages root va size pa perm) (fun r s' => exists j l' N',
    vm_step s l root N s' l' N' /\ maps root va pa perm j (k_mem s) (k_mem s') /\
    ((r = 0 /\ j = S n) \/ (r = -1 /\ (j <= n)%nat /\ l' = []))) s.
Proof. eapply wp_mappages; [done..|]. intros r j s' l' N' H1 H2 H3. by exists j, l', N'. Qed.

(** The error branches of [mappages]: a misaligned address or size, an empty
    range and an address at or above [MAXVA] panic without touching memory. *)
Theorem mappages_misuse (root va size pa perm : Z) (s : kst) :
  (~ aligned va -> mappages root va size pa perm s = Panic "mappages: va not aligned" s) /\
  (aligned va -> ~ aligned size -> mappages root va size pa perm s = Panic "mappages: size not aligned" s) /\
  (aligned va -> size = 0 -> mappages root va size pa perm s = Panic "mappages: size" s) /\
  (aligned va -> aligned size -> 0 < size -> MAXVA <= va -> mappages root va size pa perm s = Panic "walk" s).
Proof.
  unfold mappages, aligned. split_and!.
  - intros H. by destruct (Z.eqb_spec (va mod PGSIZE) 0).
  - intros -> H. by destruct (Z.eqb_spec (size mod PGSIZE) 0).
  - by intros -> ->.
  - intros -> Ha Hs Hv. rewrite Ha. cbn [negb Z.eqb]. destruct (Z.eqb_spec size 0) as [|_]; [lia|].
    destruct (Z.to_nat (size / PGSIZE)) as [|n] eqn:E.
    + unfold PGSIZE in *. pose proof (Z.div_mod size 4096). lia.
    + rewrite mappages_loop_S. unfold mbind, M_bind, walk. by destruct (Z.leb_spec MAXVA va); [|lia].
Qed.

(** [copyin] of a mapped range of user memory returns exactly its bytes and
    changes nothing. *)
Theorem copyin_spec (root va : Z) (len : nat) (s : kst) (l : list Z) (N : tree)
    (I : vm_inv s l root N) (Hu : user_wf (k_mem s) root N) (Hm : mapped root (k_mem s) va len) :
  copyin root va len s = Ok (0, ubytes root (k_mem s) va len) s /\
  forall i, (i < len)%nat ->
    ubytes root (k_mem s) va len !! i = umem (k_mem s) root (va + Z.of_nat i).
Proof.
  split.
  - eapply (copyin_loop_spec (k_end s) (kmem_end _ _ (inv_free _ _ _ _ I)) l root N);
      [apply (inv_tree _ _ _ _ I)|done..].
  - intros i Hi. unfold ubytes. rewrite list_lookup_fmap, lookup_seq_lt by done. cbn.
    destruct Hm as (_ & _ & Hm). destruct (Hm i Hi) as [pa Hpa]. unfold umem. by rewrite Hpa.
Qed.

(** C39: [copyout] to a mapped, writable range returns 0 and changes exactly the
    user bytes of the range; [copyin] then reads back what was written. *)
Theorem copyout_copyin (root va : Z) (src : list Z) (s : kst) (l : list Z) (N : tree)
    (I : vm_inv s l root N) (Hu : user_wf (k_mem s) root N)
    (Hm : mapped root (k_mem s) va (length src)) (Hw : writable root (k_mem s) va (length src)) :
  exists m', copyout root va src s = Ok 0 (set_k_mem m' s) /\
    (forall va', 0 <= va' < MAXVA -> umem m' root va' =
       if decide (va <= va' < va + Z.of_nat (length src)) then src !! Z.to_nat (va' - va)
       else umem (k_mem s) root va') /\
    copyin root va (length src) (set_k_mem m' s) = Ok (0, src) (set_k_mem m' s).
Proof.
  assert (Hend := kmem_end _ _ (inv_free _ _ _ _ I)).
  destruct (copyout_loop_spec (k_end s) Hend l root N (length src) va src s) as (m' & E & T & L & U);
    [apply (inv_tree _ _ _ _ I)|done..|]. exists m'. split_and!; [done..|].
  unfold copyin. rewrite (copyin_loop_spec (k_end s) Hend l root N); cbn; [|done| |by eapply mapped_leaf|done].
  2: { by eapply user_wf_leaf. }
  do 2 f_equal. apply list_eq. intros i. unfold ubytes. rewrite list_lookup_fmap.
  destruct (decide (i < length src)%nat) as [Hi|Hi].
  - rewrite lookup_seq_lt by done. cbn. destruct Hm as (H0 & H1 & _). rewrite U by lia.
    rewrite decide_True by lia. replace (Z.to_nat (va + Z.of_nat i - va)) with i by lia.
    by destruct (lookup_lt_is_Some_2 src i Hi) as [b ->].
  - rewrite lookup_seq_ge, lookup_ge_None_2 by lia. done.
Qed.
