(* ===== verification/UserMem.v ===== *)
(** * Copies between the kernel and one address space

    The specifications of [copyin] and [copyout] in the form the clients use:
    an address space [addrspace root s], ranges that are mapped and writable,
    and what a write does to the bytes the user sees. *)

From stdpp Require Import base gmap strings numbers list.
From S2P Require Import Prelude State Spinlock Strings Memory Bytes Kalloc Vm PageTable.

(** A well-formed page table at [root] whose user pages are pages of their
    own. *)
Definition addrspace (root : Z) (s : kst) : Prop :=
  0 < k_end s /\ exists l N, pt_wf (k_end s) l (k_mem s) root N /\ user_wf (k_mem s) root N.

(** The translations are the same, and the user bytes differ by [src] at
    [va]. *)
Definition uwrite (root va : Z) (src : list Z) (m m' : mem) : Prop :=
  (forall va', leaf m' root va' = leaf m root va') /\
  forall va', 0 <= va' < MAXVA -> umem m' root va' =
    if decide (va <= va' < va + Z.of_nat (length src)) then src !! Z.to_nat (va' - va)
    else umem m root va'.

(** A range a user program may have the kernel write. *)
Definition ubuf (root : Z) (m : mem) (va : Z) (n : nat) : Prop := mapped root m va n /\ writable root m va n.

Section usermem.
Implicit Types (root va : Z) (s : kst) (m : mem).

Lemma addrspace_ext root s s' :
  k_end s' = k_end s -> k_mem s' = k_mem s -> addrspace root s -> addrspace root s'.
Proof. unfold addrspace. by intros -> ->. Qed.

Lemma uwrite_nil root va m : uwrite root va [] m m.
Proof. split; [done|]. intros va' _. cbn. by rewrite decide_False by lia. Qed.

Lemma uwrite_app root va bs src m m1 m2 :
  uwrite root va bs m m1 -> uwrite root (va + Z.of_nat (length bs)) src m1 m2 ->
  uwrite root va (bs ++ src) m m2.
Proof.
  intros (L1 & U1) (L2 & U2). split; [congruence|].
  intros va' Hva'. rewrite U2, U1 by done. rewrite length_app.
  destruct (decide (va <= va' < va + Z.of_nat (length bs))).
  - rewrite decide_False, decide_True by lia. rewrite lookup_app_l by lia. done.
  - destruct (decide (va + Z.of_nat (length bs) <= va' < va + Z.of_nat (length bs) + Z.of_nat (length src))).
    + rewrite decide_True by lia. rewrite lookup_app_r by lia. f_equal. lia.
    + rewrite decide_False by lia. done.
Qed.

Lemma ubuf_uwrite root va src m m' va' n : uwrite root va src m m' -> ubuf root m va' n -> ubuf root m' va' n.
Proof.
  intros [L _] [Hm Hw]. split; [by eapply mapped_leaf|].
  intros i v Hi. rewrite L. by apply Hw.
Qed.

Lemma mapped_sub root m va n k len :
  mapped root m va n -> (k + len <= n)%nat -> mapped root m (va + Z.of_nat k) len.
Proof.
  intros (H0 & H1 & H2) Hn. split_and!; [lia|lia|]. intros i Hi.
  replace (va + Z.of_nat k + Z.of_nat i) with (va + Z.of_nat (k + i)) by lia. apply H2. lia.
Qed.

Lemma ubuf_sub root m va n k len :
  ubuf root m va n -> (k + len <= n)%nat -> ubuf root m (va + Z.of_nat k) len.
Proof.
  intros [Hm Hw] Hn. split; [by eapply mapped_sub|]. intros i v Hi Hl.
  apply (Hw (k + i)%nat v); [lia|]. by rewrite Nat2Z.inj_add, Z.add_assoc.
Qed.

Lemma mapped_range root m va n k : mapped root m va n -> (k < n)%nat -> wrap64 (va + Z.of_nat k) = va + Z.of_nat k.
Proof.
  intros (H0 & H1 & _) Hk. apply wrap64_small. unfold MAXVA in H1. change (Z.shiftl 1 _) with (2 ^ 38) in H1. lia.
Qed.

Lemma wp_copyin_user root va n Q s :
  addrspace root s -> mapped root (k_mem s) va n -> Q (0, ubytes root (k_mem s) va n) s ->
  wp (copyin root va n) Q s.
Proof.
  intros (He & l & N & T & U) Hm HQ. eapply wp_eq; [|exact HQ].
  by apply (copyin_loop_spec (k_end s) He l root N).
Qed.

Lemma wp_copyout_user root va src Q s :
  addrspace root s -> ubuf root (k_mem s) va (length src) ->
  (forall m', uwrite root va src (k_mem s) m' -> addrspace root (set_k_mem m' s) -> Q 0 (set_k_mem m' s)) ->
  wp (copyout root va src) Q s.
Proof.
  intros (He & l & N & T & U) [Hm Hw] HQ.
  destruct (copyout_loop_spec (k_end s) He l root N (length src) va src s) as (m' & E & T' & L & W); [done..|].
  eapply wp_eq; [exact E|]. apply HQ; [by split|]. split; [done|]. exists l, N. split; [done|].
  by eapply user_wf_leaf.
Qed.

End usermem.
