(* ===== verification/UserSpace.v ===== *)
(** * The pages of an address space

    What a page table maps, which physical pages it owns, and the
    specification of [uvmunmap], which gives the pages of a range of addresses
    back to the allocator; pages on their way from the allocator into a
    table. *)

From stdpp Require Import base gmap strings numbers list.
From S2P Require Import Prelude State Spinlock Strings Memory Kalloc Vm PageTable.

(** The physical pages behind the virtual pages from [a] up to [b]. *)
Definition pages_of (m : mem) (root a b q : Z) : Prop :=
  exists va v, vpage va /\ a <= va < b /\ leaf m root va = Some v /\ PTE2PA v = q.

Definition tree_page (N : tree) (q : Z) : Prop := exists pi, N !! pi = Some q.

(** The pages from [a] to [b] belong to this page table: they are not free,
    not part of the tree, and each is mapped once. *)
Record owned (kend : Z) (l : list Z) (m : mem) (root : Z) (N : tree) (a b : Z) : Prop := {
  own_page : forall va v, vpage va -> a <= va < b -> leaf m root va = Some v ->
    page_ok kend (PTE2PA v) /\ PTE2PA v ∉ l /\ ~ tree_page N (PTE2PA v);
  own_inj : forall va va' v v', vpage va -> vpage va' -> a <= va < b -> a <= va' < b ->
    leaf m root va = Some v -> leaf m root va' = Some v' -> PTE2PA v = PTE2PA v' -> va = va'
}.

Arguments own_page {_ _ _ _ _ _ _} _.
Arguments own_inj {_ _ _ _ _ _ _} _.

(** The range is unmapped, and its pages are free. *)
Record unmapped (s : kst) (l : list Z) (root : Z) (N : tree) (a b : Z) (s' : kst) (l' : list Z) : Prop := {
  un_inv : vm_inv s' l' root N;
  un_frame : vm_frame s s';
  un_leaf : forall va, vpage va ->
    leaf (k_mem s') root va = if decide (a <= va < b) then None else leaf (k_mem s) root va;
  un_list : forall q, q ∈ l' <-> q ∈ l \/ pages_of (k_mem s) root a b q;
  un_mem : forall x, (forall q, tree_page N q -> ~ in_page q x) ->
    (forall q, pages_of (k_mem s) root a b q -> ~ in_page q x) -> k_mem s' x = k_mem s x
}.

Arguments un_inv {_ _ _ _ _ _ _ _} _.
Arguments un_frame {_ _ _ _ _ _ _ _} _.
Arguments un_leaf {_ _ _ _ _ _ _ _} _.
Arguments un_list {_ _ _ _ _ _ _ _} _.
Arguments un_mem {_ _ _ _ _ _ _ _} _.

(** ** Unmapping *)

Lemma wp_bind_nested {S A B C} (m : M S A) (f : A -> M S B) (k : B -> M S C) Q s :
  wp (m ≫= f) (fun b => wp (k b) Q) s -> wp (m ≫= fun a => f a ≫= k) Q s.
Proof. unfold wp, mbind, M_bind. destruct (m s) as [a s1| | |]; [|done..]. by destruct (f a s1). Qed.

Lemma pages_of_split m root a c b q : a <= c <= b ->
  pages_of m root a b q <-> pages_of m root a c q \/ pages_of m root c b q.
Proof.
  intros H. split.
  - intros (va & v & Hv & Hr & Hl & Hq). destruct (decide (va < c)); [left|right]; exists va, v; split_and!; done || lia.
  - intros [(va & v & Hv & Hr & Hl & Hq)|(va & v & Hv & Hr & Hl & Hq)]; exists va, v; split_and!; done || lia.
Qed.

Lemma pages_of_ext m m' root a b q :
  (forall va, vpage va -> a <= va < b -> leaf m' root va = leaf m root va) ->
  pages_of m' root a b q <-> pages_of m root a b q.
Proof.
  intros H. split; intros (va & v & Hv & Hr & Hl & Hq); exists va, v.
  - by rewrite <- H.
  - by rewrite H.
Qed.

(** One page: the only virtual page from [a] up to [a + PGSIZE] is [a]. *)
Lemma vpage_one a va : vpage a -> vpage va -> a <= va < a + PGSIZE -> va = a.
Proof.
  intros [Ha _] [Hv _] Hr. unfold aligned, PGSIZE in *. pose proof (Z.div_mod a 4096). pose proof (Z.div_mod va 4096). lia.
Qed.

Lemma vpage_below va sz : vpage va -> va < PGROUNDUP sz -> 0 <= sz <= MAXVA -> va < sz.
Proof.
  intros [Ha _] Hr Hs. unfold MAXVA in Hs. change (Z.shiftl 1 _) with (2 ^ 38) in Hs.
  destruct (PGROUNDUP_bounds sz) as [Hb Hu]; [lia..|]. unfold aligned, PGSIZE in *.
  pose proof (Z.div_mod va 4096). pose proof (Z.div_mod (PGROUNDUP sz) 4096). lia.
Qed.

(** Rounding up stays below an aligned bound. *)
Lemma PGROUNDUP_le sz b : aligned b -> 0 <= sz <= b -> b <= MAXVA -> PGROUNDUP sz <= b.
Proof.
  intros Ha Hs Hb. unfold MAXVA in Hb. change (Z.shiftl 1 _) with (2 ^ 38) in Hb.
  destruct (PGROUNDUP_bounds sz) as [Hr Hu]; [lia..|]. unfold aligned, PGSIZE in *.
  pose proof (Z.div_mod b 4096). pose proof (Z.div_mod (PGROUNDUP sz) 4096). lia.
Qed.

Lemma vpage_end a : vpage a -> a + PGSIZE <= MAXVA.
Proof.
  intros [Ha Hr]. unfold aligned, PGSIZE, MAXVA in *. change (Z.shiftl 1 _) with (2 ^ 26 * 4096) in *.
  pose proof (Z.div_mod a 4096). lia.
Qed.

Lemma pages_of_one m root a q : vpage a ->
  pages_of m root a (a + PGSIZE) q <-> exists v, leaf m root a = Some v /\ PTE2PA v = q.
Proof.
  intros Ha. split.
  - intros (va & v & Hv & Hr & Hl & Hq). apply vpage_one in Hr as ->; [|done..]. eauto.
  - intros (v & Hl & Hq). exists a, v. split_and!; [done|lia|unfold PGSIZE; lia|done|done].
Qed.

Lemma unmapped_trans s l root N a c b s1 l1 s2 l2 : a <= c <= b ->
  unmapped s l root N a c s1 l1 -> unmapped s1 l1 root N c b s2 l2 -> unmapped s l root N a b s2 l2.
Proof.
  intros Hc [I1 F1 L1 Q1 M1] [I2 F2 L2 Q2 M2].
  assert (E : forall q, pages_of (k_mem s1) root c b q <-> pages_of (k_mem s) root c b q).
  { intros q. apply pages_of_ext. intros va Hv Hr. rewrite L1 by done. by rewrite decide_False by lia. }
  split; [done|by eapply vm_frame_trans| | |].
  - intros va Hv. rewrite L2, L1 by done. repeat case_decide; done || lia.
  - intros q. rewrite Q2, Q1, E, (pages_of_split _ _ a c b q Hc). tauto.
  - intros x HN Hx. rewrite M2, M1; [done|done| |done|].
    + intros q Hq. apply Hx. rewrite (pages_of_split _ _ a c b q Hc). by left.
    + intros q Hq. apply Hx. rewrite (pages_of_split _ _ a c b q Hc). right. by apply E.
Qed.

Lemma unmapped_nil s l root N a : vm_inv s l root N -> unmapped s l root N a a s l.
Proof.
  intros I. split; [done|apply vm_frame_refl| | |done].
  - intros va _. by rewrite decide_False by lia.
  - intros q. split; [by left|]. intros [?|(va & v & _ & ? & _)]; [done|lia].
Qed.

Lemma owned_sub kend l m root N a b a' b' : a <= a' -> b' <= b -> owned kend l m root N a b -> owned kend l m root N a' b'.
Proof.
  intros Ha Hb [Op Oj]. split; [intros va v ? ?; by apply Op; [|lia]|intros va va' v v' ? ? ? ?; by apply Oj; [..|lia|lia]].
Qed.

(** A page with no mapping is skipped. *)
Lemma unmapped_skip s l root N a :
  vm_inv s l root N -> vpage a -> leaf (k_mem s) root a = None -> unmapped s l root N a (a + PGSIZE) s l.
Proof.
  intros I Ha E. split; [done|apply vm_frame_refl| |intros q|done].
  - intros va Hv. case_decide as Hr; [|done]. by apply vpage_one in Hr as ->.
  - rewrite pages_of_one by done. rewrite E. naive_solver.
Qed.

Lemma pt_wf_free kend q l m root N : pt_wf kend l m root N -> ~ tree_page N q -> pt_wf kend (q :: l) m root N.
Proof.
  intros [H1 H2 H3 H4 H5] Ht. split; [done| |done..]. intros pi p Hp. destruct (H2 pi p Hp) as (Hp1 & Hp2 & Hp3).
  split_and!; [done| |done]. apply not_elem_of_cons. split; [|done]. intros ->. apply Ht. by exists pi.
Qed.

Lemma in_page_apart p q x : aligned p -> aligned q -> in_page p x -> in_page q x -> p = q.
Proof.
  intros Hp Hq H1 H2. destruct (decide (p = q)) as [|Hne]; [done|].
  destruct (aligned_disjoint p q Hp Hq Hne); unfold in_page in *; lia.
Qed.

(** A step keeps the pages of the tree and the free list. *)
Lemma vm_step_use s l root N s' l' N' q :
  vm_step s l root N s' l' N' -> q ∈ l' \/ tree_page N' q <-> q ∈ l \/ tree_page N q.
Proof.
  intros S. split.
  - intros [Hq|[pi Hq]]; [left; by apply (step_list S)|]. destruct (step_pages S pi q Hq); [right; by exists pi|by left].
  - intros [Hq|[pi Hq]]; [by apply (step_keep S)|]. right. exists pi. by eapply lookup_weaken, (step_tree S).
Qed.

(** Giving a page that is not part of the tree to the allocator. *)
Lemma wp_kfree_vm q s l root N Q :
  vm_inv s l root N -> page_ok (k_end s) q -> q ∉ l -> ~ tree_page N q ->
  (forall s', vm_inv s' (q :: l) root N -> vm_frame s s' -> (forall va, leaf (k_mem s') root va = leaf (k_mem s) root va) ->
     same_outside q (k_mem s) (k_mem s') -> Q tt s') ->
  wp (kfree q) Q s.
Proof.
  intros I Hq Hl Ht HQ. destruct (I) as [Iy Ik If It].
  eapply wp_mono; [exact (wp_kfree_list s q l Iy Ik If Hq Hl)|]. cbv beta. intros [] s1 (Hf%kmem_vm_frame & Hk & Ho).
  destruct (leaf_frame (k_end s) (kmem_end _ _ If) l root N (k_mem s) (k_mem s1) It) as [It1 Hleaf].
  { intros pi p a Hp Ha. apply Ho. intros Hin. apply Ht. exists pi. rewrite Hp. f_equal.
    eapply in_page_apart; [apply (pt_page It Hp)|apply Hq|done..]. }
  apply HQ; [|done..]. split; [by eapply vm_frame_wf|by eapply vm_frame_lock|done|].
  rewrite (vm_frame_end _ _ Hf). by apply pt_wf_free.
Qed.

(** Where [walk] finds the entry of a page. *)
Lemma walk_leaf kend l root N a s :
  0 < kend -> pt_wf kend l (k_mem s) root N -> a < MAXVA ->
  exists pte, walk root a false s = Ok pte s /\
    ((pte = 0 /\ leaf (k_mem s) root a = None) \/
     exists p0, N !! path a = Some p0 /\ pte = p0 + 8 * PX 0 a /\ pte <> 0 /\
       leaf (k_mem s) root a = valid_pte (ld64 (k_mem s) pte)).
Proof.
  intros He Ht Ha. eexists. split; [by apply walk_read|].
  assert (Hpos := leaf_addr_pos kend He l root N (k_mem s) a). unfold leaf.
  rewrite (leaf_addr_tree _ He _ _ _ _ _ Ht) in *.
  destruct (N !! path a) as [p0|]; cbn [default from_option id fmap option_fmap option_map mbind option_bind] in *; [right|by left].
  exists p0. split_and!; [done..| |done]. by apply Hpos.
Qed.

Lemma leaf_valid m root a v : leaf m root a = Some v -> has v PTE_V = true.
Proof. unfold leaf. intros (x & _ & Hx)%bind_Some. by destruct (has (ld64 m x) PTE_V) eqn:E; simplify_eq. Qed.

(** The body of the loop, at one page. *)
Definition unmap_page (root a : Z) : KM unit :=
  pte ← walk root a false;
  (if pte =? 0 then mret tt else
   v ← rd64 pte;
   if negb (has v PTE_V) then mret tt else
   when true (kfree (PTE2PA v));;
   wr64 pte 0).

Lemma wp_unmap_page a s l root N Q :
  vm_inv s l root N -> owned (k_end s) l (k_mem s) root N a (a + PGSIZE) -> vpage a ->
  (forall s' l', unmapped s l root N a (a + PGSIZE) s' l' -> Q tt s') -> wp (unmap_page root a) Q s.
Proof.
  intros I Ho Ha HQ. unfold unmap_page.
  destruct (walk_leaf _ l root N a s (kmem_end _ _ (inv_free _ _ _ _ I)) (inv_tree _ _ _ _ I) ltac:(destruct Ha; lia))
    as (pte & E & Hcase). apply wp_bind. eapply wp_eq; [exact E|].
  destruct Hcase as [[-> Hl]|(p0 & Hp0 & Hpte & Hz%Z.eqb_neq & Hl)]; [apply wp_ret; eapply HQ; by apply unmapped_skip|].
  rewrite Hz. subst pte. apply wp_bind, wp_gets. unfold valid_pte in Hl. destruct (has _ PTE_V) eqn:Hv; cbn [negb].
  2: { apply wp_ret. eapply HQ. by apply unmapped_skip. }
  set (v := ld64 _ _) in *. destruct (own_page Ho a v Ha ltac:(unfold PGSIZE; lia) Hl) as (Hok & Hni & Hnt).
  apply wp_bind. cbn [when]. eapply wp_kfree_vm; [done..|]. intros s1 I1 F1 L1 M1.
  apply wp_modify. change (set_k_mem _ s1) with (set_leaf p0 a 0 s1).
  assert (S2 := vm_step_set_leaf s1 _ root N a p0 0 I1 Hp0). apply (HQ _ (PTE2PA v :: l)). split.
  - apply (step_inv S2).
  - eapply vm_frame_trans; [done|apply (step_frame S2)].
  - intros va Hva. rewrite (leaf_set_leaf s1 _ root N) by (done || lia). rewrite L1.
    case_decide as Hd; [subst; by rewrite decide_True by (unfold PGSIZE; lia)|].
    case_decide as Hr; [|done]. by apply vpage_one in Hr.
  - intros q. rewrite pages_of_one, elem_of_cons by done. rewrite Hl. naive_solver.
  - intros x HN Hx. cbn [set_leaf k_mem set_k_mem].
    rewrite (same_outside_st64 p0 _ _ (8 * PX 0 a)) by first [by apply HN; exists (path a)|pose proof (PX_range 0 a); unfold PGSIZE; lia].
    apply M1, Hx. apply pages_of_one; [done|]. eauto.
Qed.

Lemma wp_uvmunmap_loop_S fuel root a last Q s : a < last ->
  wp (unmap_page root a) (fun _ => wp (uvmunmap_loop fuel root (wrap64 (a + PGSIZE)) last true) Q) s ->
  wp (uvmunmap_loop (S fuel) root a last true) Q s.
Proof.
  intros H%Z.ltb_lt. cbn [uvmunmap_loop]. rewrite H. cbn [negb]. intros HQ. apply wp_bind_nested, HQ.
Qed.

(** What is mapped outside a range does not share pages with it. *)
Lemma owned_apart kend l m root N a b c d va v :
  owned kend l m root N c d -> c <= a -> b <= d -> vpage va -> c <= va < d -> ~ a <= va < b -> leaf m root va = Some v ->
  ~ pages_of m root a b (PTE2PA v).
Proof.
  intros Ho Hc Hd Hv Hr Hn Hl (va' & v' & Hv' & Hr' & Hl' & E). apply Hn.
  assert (va' = va) as <-; [|done]. apply (own_inj Ho va' va v' v); done || lia.
Qed.

(** What is left is still owned. *)
Lemma unmapped_owned s l root N a b c d s' l' : c <= a -> b <= d ->
  owned (k_end s) l (k_mem s) root N c d -> unmapped s l root N a b s' l' -> owned (k_end s') l' (k_mem s') root N c d.
Proof.
  intros Hc Hd Ho U. rewrite (vm_frame_end _ _ (un_frame U)). split.
  - intros va v Hv Hr. rewrite (un_leaf U va Hv). case_decide as Hn; [done|]. intros Hl.
    destruct (own_page Ho va v Hv Hr Hl) as (H1 & H2 & H3). split_and!; [done| |done].
    rewrite (un_list U). intros [?|Hp]; [done|]. by eapply (owned_apart _ _ _ _ _ a b c d va v).
  - intros va va' v v' Hv Hv' Hr Hr'. rewrite !(un_leaf U) by done. repeat case_decide; try done. by apply (own_inj Ho).
Qed.

Lemma wp_uvmunmap_loop k a s l root N Q :
  vm_inv s l root N -> owned (k_end s) l (k_mem s) root N a (a + Z.of_nat k * PGSIZE) ->
  aligned a -> 0 <= a -> a + Z.of_nat k * PGSIZE <= MAXVA ->
  (forall s' l', unmapped s l root N a (a + Z.of_nat k * PGSIZE) s' l' -> Q tt s') ->
  wp (uvmunmap_loop k root a (a + Z.of_nat k * PGSIZE) true) Q s.
Proof.
  revert a s l. induction k as [|k IH]; intros a s l I Ho Ha H0 Hm HQ.
  - cbn [uvmunmap_loop]. rewrite Z.mul_0_l, Z.add_0_r in *. rewrite Z.ltb_irrefl. by apply wp_ret, (HQ s l), unmapped_nil.
  - replace (a + Z.of_nat (S k) * PGSIZE) with (a + PGSIZE + Z.of_nat k * PGSIZE) in * by lia.
    assert (0 < PGSIZE) by done.
    assert (Hv : vpage a) by (split; [done|lia]).
    apply wp_uvmunmap_loop_S; [lia|]. eapply wp_unmap_page; [done| |done|].
    { eapply owned_sub; [| |exact Ho]; lia. }
    intros s1 l1 U1. rewrite wrap64_small by (unfold MAXVA, PGSIZE in *; change (Z.shiftl 1 _) with (2 ^ 38) in *; lia).
    eapply IH; [apply (un_inv U1)| | |lia|lia|].
    + eapply owned_sub; [| |eapply (unmapped_owned s l root N a (a + PGSIZE) a); [| |exact Ho|exact U1]]; lia.
    + unfold aligned, PGSIZE in *. rewrite Z.add_mod, Ha by lia. done.
    + intros s2 l2 U2. eapply HQ, unmapped_trans; [|done..]. lia.
Qed.

Lemma wp_uvmunmap (n : nat) a s l root N Q :
  vm_inv s l root N -> owned (k_end s) l (k_mem s) root N a (a + Z.of_nat n * PGSIZE) ->
  aligned a -> 0 <= a -> a + Z.of_nat n * PGSIZE <= MAXVA ->
  (forall s' l', unmapped s l root N a (a + Z.of_nat n * PGSIZE) s' l' -> Q tt s') ->
  wp (uvmunmap root a (Z.of_nat n) true) Q s.
Proof.
  intros I Ho Ha H0 Hm HQ. unfold uvmunmap. rewrite Ha. cbn [negb Z.eqb]. rewrite Nat2Z.id.
  unfold MAXVA in *. change (Z.shiftl 1 _) with (2 ^ 38) in *. unfold PGSIZE in *.
  rewrite (wrap64_small (Z.of_nat n * 4096)), (wrap64_small (a + _)) by lia. by apply wp_uvmunmap_loop with (l := l) (N := N).
Qed.

(** ** Pages on their way from the allocator to an address space *)

(** Writing to a page of no table and not on the free list. *)
Lemma vm_inv_private q m s l root N :
  vm_inv s l root N -> aligned q -> q ∉ l -> ~ tree_page N q -> same_outside q (k_mem s) m ->
  vm_inv (set_k_mem m s) l root N /\ forall va, leaf m root va = leaf (k_mem s) root va.
Proof.
  intros I Hq Hl Ht Ho. destruct (I) as [Iy Ik If It].
  destruct (leaf_frame (k_end s) (kmem_end _ _ If) l root N (k_mem s) m It) as [It1 Hleaf].
  { intros pi p a Hp Ha. apply Ho. intros Hin. apply Ht. exists pi. rewrite Hp. f_equal.
    eapply in_page_apart; [apply (pt_page It Hp)|done..]. }
  split; [|done]. eapply vm_inv_frame; [done|apply vm_frame_mem| |done].
  apply kmem_wf_mem; [done|]. intros p Hp. apply (ldn_ext 8). intros x Hx. apply Ho. intros Hin.
  destruct If as [_ _ _ Hall]. rewrite Forall_forall in Hall. apply Hl.
  replace q with p; [done|]. eapply in_page_apart; [apply (Hall p Hp)|done| |done]. unfold in_page, PGSIZE. lia.
Qed.

(** [kalloc] and a whole copy of the page at [src] into what it returned. *)
Lemma wp_kalloc_vm s l root N Q :
  vm_inv s l root N ->
  (forall s', l = [] -> vm_inv s' [] root N -> vm_frame s s' -> k_mem s' = k_mem s -> Q 0 s') ->
  (forall q l' s', l = q :: l' -> page_ok (k_end s) q -> 0 < q -> q ∉ l' -> ~ tree_page N q -> vm_inv s' l' root N ->
     vm_frame s s' -> (forall va, leaf (k_mem s') root va = leaf (k_mem s) root va) ->
     same_outside q (k_mem s) (k_mem s') -> Q q s') ->
  wp kalloc Q s.
Proof.
  intros I HQ0 HQ. destruct (I) as [Iy Ik If It]. eapply wp_mono; [exact (wp_kalloc_list s l Iy Ik If)|]. cbv beta.
  intros r s1 (Hf%kmem_vm_frame & Hk). destruct l as [|q l].
  - destruct Hk as (-> & Hk & Hm). apply HQ0; try done. eapply vm_inv_frame; [done..|]. by rewrite Hm.
  - destruct Hk as (-> & Hk & Ho & _). destruct If as [Hend _ Hnd Hall].
    apply NoDup_cons in Hnd as [Hql _]. apply Forall_cons_1 in Hall as [Hq _].
    assert (Ht : ~ tree_page N q). { intros [pi Hpi]. destruct (pt_page It Hpi) as (_ & Hni & _). apply Hni. constructor. }
    assert (It' : pt_wf (k_end s) l (k_mem s) root N).
    { eapply pt_wf_freelist; [done|]. intros p Hp. by constructor. }
    destruct (leaf_frame (k_end s) Hend l root N (k_mem s) (k_mem s1) It') as [It1 Hleaf].
    { intros pi p a Hp Ha. apply Ho. intros Hin. apply Ht. exists pi. rewrite Hp. f_equal.
      eapply in_page_apart; [apply (pt_page It Hp)|apply Hq|done..]. }
    apply (HQ q l s1); try done; [by apply (page_ok_pos _ _ Hend)|].
    split; [by eapply vm_frame_wf|by eapply vm_frame_lock|done|]. by rewrite (vm_frame_end _ _ Hf).
Qed.

(** ** Flags of entries *)

Lemma PTE_FLAGS_range v : 0 <= PTE_FLAGS v < 2 ^ 10.
Proof. unfold PTE_FLAGS. change 0x3FF with (Z.ones 10). rewrite Z.land_ones by lia. apply Z.mod_pos_bound. lia. Qed.

Lemma PTE_FLAGS_mk p v : PTE_FLAGS (mk_pte p (PTE_FLAGS v)) = PTE_FLAGS v.
Proof.
  unfold PTE_FLAGS. rewrite land_mk_pte by done. rewrite <- Z.land_assoc. by rewrite Z.land_diag.
Qed.

(** A valid entry's flags are unchanged by setting the valid bit. *)
Lemma PTE_FLAGS_valid v : has v PTE_V = true -> Z.lor (PTE_FLAGS v) PTE_V = PTE_FLAGS v.
Proof.
  unfold has. intros H%negb_true_iff%Z.eqb_neq.
  assert (H0 : Z.testbit v 0 = true).
  { change PTE_V with (Z.ones 1) in H. rewrite Z.land_ones in H by lia. pose proof (Z.bit0_mod v).
    change (2 ^ 1) with 2 in H. destruct (Z.testbit v 0); [done|]. by destruct H. }
  apply Z.bits_inj'. intros n Hn. unfold PTE_FLAGS. rewrite Z.lor_spec, Z.land_spec. change PTE_V with (2 ^ 0).
  rewrite Z.pow2_bits_eqb by lia. destruct (Z.eqb_spec 0 n) as [<-|]; [by rewrite H0|by rewrite orb_false_r].
Qed.

Lemma has_FLAGS v f : Z.land 0x3FF f = f -> has (PTE_FLAGS v) f = has v f.
Proof. intros H. unfold has, PTE_FLAGS. by rewrite <- Z.land_assoc, H. Qed.

Lemma mk_pte_page kend p f : 0 < kend -> page_ok kend p -> 0 <= f < 2 ^ 10 -> PTE2PA (mk_pte p f) = p.
Proof. intros Hk Hp Hf. destruct (page_ok_range kend Hk p Hp) as [Ha Hr]. apply PTE2PA_mk; [done|lia|done]. Qed.

(** The pages of the tree and of the free list are pages. *)
Lemma vm_inv_aligned s l root N q : vm_inv s l root N -> q ∈ l \/ tree_page N q -> aligned q.
Proof.
  intros I [Hq|[pi Hq]]; [|apply (pt_page (inv_tree _ _ _ _ I) Hq)].
  destruct (inv_free _ _ _ _ I) as [_ _ _ Hall]. rewrite Forall_forall in Hall. apply (Hall q Hq).
Qed.

(** Changes to pages that an address space does not hold are not seen by it. *)
Lemma space_frame kend l m m' root N sz (P : Z -> Prop) :
  0 < kend -> pt_wf kend l m root N -> owned kend l m root N 0 sz -> sz <= MAXVA ->
  (forall q, P q -> aligned q /\ ~ tree_page N q /\ ~ pages_of m root 0 sz q) ->
  (forall x, (forall q, P q -> ~ in_page q x) -> m' x = m x) ->
  pt_wf kend l m' root N /\ (forall va, leaf m' root va = leaf m root va) /\
  forall va, 0 <= va < sz -> umem m' root va = umem m root va.
Proof.
  intros He Ht Ho Hsz HP Hm. destruct (leaf_frame kend He l root N m m' Ht) as [Ht' Hl].
  { intros pi p a Hp Ha. apply Hm. intros q Hq Hin. destruct (HP q Hq) as (Hqa & Hnt & _). apply Hnt. exists pi. rewrite Hp. f_equal.
    eapply in_page_apart; [apply (pt_page Ht Hp)|done..]. }
  split_and!; [done..|]. intros va Hva. destruct (PGROUNDDOWN_bounds va) as [Hb _].
  assert (Hv : vpage (PGROUNDDOWN va)) by (apply vpage_down; lia). unfold umem, user_pa. rewrite Hl.
  destruct (leaf m root (PGROUNDDOWN va)) as [v|] eqn:E; [|done]. cbn. destruct (has v PTE_U); [|done]. cbn. f_equal.
  apply Hm. intros q Hq Hin. destruct (HP q Hq) as (Hqa & _ & Hnp). apply Hnp.
  exists (PGROUNDDOWN va), v. split_and!; [done|destruct Hv; lia|lia|done|].
  eapply in_page_apart; [apply (own_page Ho _ v Hv ltac:(destruct Hv; lia) E)|done| |done]. unfold in_page, PGSIZE. lia.
Qed.

(** ** Filling a range of an address space

    [uvmalloc] and [uvmcopy] go over a range of virtual pages in the same way:
    take a page from the allocator, fill it, map it; on failure undo what was
    done. Here are the invariant of that loop ([filled]) and the lemma for one
    page, for any wanted contents of the pages. *)

Section fill.
Context (s0 : kst) (l0 : list Z) (root : Z) (N0 : tree) (base : Z).

(** The flags and the bytes wanted for a virtual page; [None] for a page that
    is to be left out. *)
Context (want : Z -> option (Z * (Z -> Z))).

(** The pages that may be used. *)
Definition usable (q : Z) : Prop := q ∈ l0 \/ tree_page N0 q.

(** The page [va] is as wanted. *)
Definition page_filled (m : mem) (va : Z) : Prop :=
  match want va with
  | Some (f, c) => exists p, page_ok (k_end s0) p /\ leaf m root va = Some (mk_pte p f) /\
      forall k, 0 <= k < PGSIZE -> m (p + k) = c k
  | None => leaf m root va = None
  end.

(** The pages from [base] up to [i] are done. *)
Record filled (i : Z) (s : kst) (l : list Z) (N : tree) : Prop := {
  fl_inv : vm_inv s l root N;
  fl_frame : vm_frame s0 s;
  fl_own : owned (k_end s0) l (k_mem s) root N base i;
  fl_rest : forall va, vpage va -> ~ base <= va < i -> leaf (k_mem s) root va = leaf (k_mem s0) root va;
  fl_use : forall q, q ∈ l \/ tree_page N q \/ pages_of (k_mem s) root base i q <-> usable q;
  fl_mem : forall x, (forall q, usable q -> ~ in_page q x) -> k_mem s x = k_mem s0 x;
  fl_page : forall va, vpage va -> base <= va < i -> page_filled (k_mem s) va
}.

Context (Hwant : forall va f c, want va = Some (f, c) -> 0 <= f < 2 ^ 10).

(** Steps that only change what is mapped from [i] up to [i']. *)
Lemma filled_step i i' s l N s' l' N' :
  base <= i <= i' -> filled i s l N -> vm_inv s' l' root N' -> vm_frame s s' ->
  (forall va, vpage va -> ~ i <= va < i' -> leaf (k_mem s') root va = leaf (k_mem s) root va) ->
  (forall q, q ∈ l' \/ tree_page N' q \/ pages_of (k_mem s') root i i' q <-> q ∈ l \/ tree_page N q) ->
  (forall x, (forall q, q ∈ l \/ tree_page N q -> ~ in_page q x) -> k_mem s' x = k_mem s x) ->
  owned (k_end s0) l' (k_mem s') root N' i i' -> (forall va, vpage va -> i <= va < i' -> page_filled (k_mem s') va) ->
  filled i' s' l' N'.
Proof.
  intros Hi [Ci Cf [Cp Cj] Cr Cu Cm Cc] I F L U M [Op Oj] K.
  assert (He := kmem_end _ _ (inv_free _ _ _ _ Ci)). rewrite (vm_frame_end _ _ Cf) in He.
  assert (P : forall q, pages_of (k_mem s') root base i q <-> pages_of (k_mem s) root base i q).
  { intros q. apply pages_of_ext. intros va Hv Hr. apply L; [done|lia]. }
  assert (Hnew : forall va v, vpage va -> i <= va < i' -> leaf (k_mem s') root va = Some v -> PTE2PA v ∈ l \/ tree_page N (PTE2PA v)).
  { intros va v Hv Hr Hl. apply U. right. right. by exists va, v. }
  assert (Hold : forall va v, vpage va -> base <= va < i -> leaf (k_mem s') root va = Some v ->
            leaf (k_mem s) root va = Some v /\ page_ok (k_end s0) (PTE2PA v) /\ ~ (PTE2PA v ∈ l \/ tree_page N (PTE2PA v))).
  { intros va v Hv Hr. rewrite L by (done || lia). intros Hl. destruct (Cp va v Hv Hr Hl) as (? & ? & ?). split_and!; [done..|tauto]. }
  split; [done|by eapply vm_frame_trans|split| | | |].
  - intros va v Hv Hr Hl. destruct (decide (i <= va)); [apply (Op va); done || lia|].
    destruct (Hold va v Hv ltac:(lia) Hl) as (_ & H1 & H2). split; [done|]. specialize (U (PTE2PA v)). tauto.
  - intros va va' v v' Hv Hv' Hr Hr' Hl Hl' E.
    destruct (decide (i <= va)) as [H|H], (decide (i <= va')) as [H'|H'].
    + apply (Oj va va' v v'); done || lia.
    + destruct (Hold va' v' Hv' ltac:(lia) Hl') as (_ & _ & []). rewrite <- E. apply (Hnew va); done || lia.
    + destruct (Hold va v Hv ltac:(lia) Hl) as (_ & _ & []). rewrite E. apply (Hnew va'); done || lia.
    + apply (Cj va va' v v'); try done; try lia; by apply Hold; [..|lia|].
  - intros va Hv Hr. rewrite L by (done || lia). apply Cr; [done|lia].
  - intros q. rewrite <- Cu, (pages_of_split _ _ base i i' q) by lia. rewrite P. specialize (U q). tauto.
  - intros x Hx. rewrite M; [by apply Cm|]. intros q Hq. apply Hx, Cu. tauto.
  - intros va Hv Hr. destruct (decide (i <= va)); [apply K; done || lia|]. assert (Hva : base <= va < i) by lia.
    specialize (Cc va Hv Hva). unfold page_filled in *. rewrite L by (done || lia).
    destruct (want va) as [[f c]|] eqn:Hw; [|done]. destruct Cc as (p & Hp & Hm & Hk).
    exists p. split_and!; [done..|]. intros k Hk0. rewrite M; [by apply Hk|].
    intros q Hq Hin. destruct (Cp va _ Hv Hva Hm) as (_ & H2 & H3). rewrite (mk_pte_page (k_end s0)) in H2, H3 by (done || by eapply Hwant).
    replace q with p in Hq by (eapply in_page_apart; [apply Hp|by apply (vm_inv_aligned _ _ _ _ _ Ci)| |done]; unfold in_page; lia).
    tauto.
Qed.

Lemma filled_quiet i s l N s' l' N' :
  base <= i -> filled i s l N -> vm_inv s' l' root N' -> vm_frame s s' ->
  (forall va, vpage va -> leaf (k_mem s') root va = leaf (k_mem s) root va) ->
  (forall q, q ∈ l' \/ tree_page N' q <-> q ∈ l \/ tree_page N q) ->
  (forall x, (forall q, q ∈ l \/ tree_page N q -> ~ in_page q x) -> k_mem s' x = k_mem s x) ->
  filled i s' l' N'.
Proof.
  intros Hi C I F L U M. eapply (filled_step i i); [lia|exact C|done|done|by intros; apply L| |done|split; intros; lia|intros; lia].
  intros q. rewrite <- U. split; [|tauto]. intros [?|[?|(va & v & _ & ? & _)]]; [tauto..|lia].
Qed.

Lemma filled_free i s l N q : filled i s l N -> q ∈ l \/ tree_page N q -> usable q.
Proof. intros C Hq. apply (fl_use _ _ _ _ C). tauto. Qed.

Context (Inew : vm_inv s0 l0 root N0).

Lemma filled_base : filled base s0 l0 N0.
Proof.
  split; [done|apply vm_frame_refl|split; intros; lia|done| |done|intros; lia].
  intros q. unfold usable. split; [|tauto]. intros [?|[?|(va & v & _ & ? & _)]]; [tauto..|lia].
Qed.

Lemma usable_aligned q : usable q -> aligned q.
Proof. by apply (vm_inv_aligned _ _ _ _ _ Inew). Qed.

Context (lim : Z) (Hlim : 0 <= base /\ lim <= MAXVA).
Context (Hblank : forall va, vpage va -> base <= va < lim -> leaf (k_mem s0) root va = None).

Section state.
Context (i : Z) (s : kst) (l : list Z) (N : tree) (C : filled i s l N) (Hi : vpage i) (Hr : base <= i < lim).

(** Pages that are not wanted are left out. *)
Lemma filled_skip : want i = None -> filled (i + PGSIZE) s l N.
Proof.
  intros Hw. assert (Hn : leaf (k_mem s) root i = None).
  { rewrite (fl_rest _ _ _ _ C) by (done || lia). by apply Hblank. }
  assert (One : forall va, vpage va -> i <= va < i + PGSIZE -> leaf (k_mem s) root va = None).
  { intros va Hv Hva. by rewrite (vpage_one i va). }
  eapply filled_step; [|done|apply C|apply vm_frame_refl|done| |done| |].
  - unfold PGSIZE. lia.
  - intros q. rewrite pages_of_one by done. rewrite Hn. naive_solver.
  - split; [intros va v Hv Hva; by rewrite One|intros va va' v v' Hv _ Hva _; by rewrite One].
  - intros va Hv Hva. unfold page_filled. rewrite (vpage_one i va) by done. by rewrite Hw.
Qed.

(** The page [q], filled, is mapped. *)
Lemma filled_map q f c s' l' N' :
  want i = Some (f, c) -> page_ok (k_end s0) q -> vm_inv s' l' root N' -> vm_frame s s' ->
  (forall va, vpage va -> leaf (k_mem s') root va = if decide (va = i) then Some (mk_pte q f) else leaf (k_mem s) root va) ->
  (forall p, p ∈ l' \/ tree_page N' p \/ p = q <-> p ∈ l \/ tree_page N p) -> ~ (q ∈ l' \/ tree_page N' q) ->
  (forall x, (forall p, p ∈ l \/ tree_page N p -> ~ in_page p x) -> k_mem s' x = k_mem s x) ->
  (forall k, 0 <= k < PGSIZE -> k_mem s' (q + k) = c k) ->
  filled (i + PGSIZE) s' l' N'.
Proof.
  intros Hw Hq I F L U Hn O K. assert (Li := L i Hi). rewrite decide_True in Li by done.
  assert (Hpa := mk_pte_page _ q f (kmem_end _ _ (inv_free _ _ _ _ Inew)) Hq (Hwant _ _ _ Hw)).
  eapply filled_step; [|exact C|done|done| | |done| |].
  - unfold PGSIZE. lia.
  - intros va Hv Hva. rewrite L by done. rewrite decide_False; [done|]. unfold PGSIZE in Hva. lia.
  - intros p. rewrite <- U, pages_of_one by done. rewrite Li. naive_solver.
  - split.
    + intros va w Hv ->%vpage_one; [|done..]. rewrite Li. intros [= <-]. rewrite Hpa. tauto.
    + intros va va' w w' Hv Hv' ->%vpage_one ->%vpage_one; done.
  - intros va Hv ->%vpage_one; [|done..]. unfold page_filled. rewrite Hw. by exists q.
Qed.

(** Mapping the page [q] with the contents wanted at [i], and what follows:
    [cont] when it was mapped, [err] when memory ran out. *)
Lemma wp_map_filled q l1 s2 f c perm (err : KM Z) (cont : Z -> KM Z) Q :
  l = q :: l1 -> want i = Some (f, c) -> f = Z.lor perm PTE_V -> 0 <= perm < 2 ^ 10 ->
  page_ok (k_end s0) q -> q ∉ l1 -> ~ tree_page N q -> vm_inv s2 l1 root N -> vm_frame s s2 ->
  (forall va, leaf (k_mem s2) root va = leaf (k_mem s) root va) -> same_outside q (k_mem s) (k_mem s2) ->
  (forall k, 0 <= k < PGSIZE -> k_mem s2 (q + k) = c k) ->
  (forall s' l' N', filled (i + PGSIZE) s' l' N' -> (length l <= 3 + length l')%nat ->
     leaf (k_mem s') root i = Some (mk_pte q f) -> wp (cont q) Q s') ->
  (forall s' l' N', filled i s' l' N' -> (length l <= 3)%nat -> wp err Q s') ->
  wp (r ← mappages root i PGSIZE q perm; if negb (r =? 0) then kfree q;; err else cont q) Q s2.
Proof.
  intros El Hw -> Hperm Hq Hql Hqt I2 F2 L2 O2 K2 HQ HE.
  apply wp_bind. destruct (page_ok_range _ (kmem_end _ _ (inv_free _ _ _ _ Inew)) q Hq) as [Hqa Hqr].
  eapply (wp_mappages _ _ _ _ _ _ _ _ _ 0); [exact I2|done|done| |done|lia| |done| |].
  { by apply vpage_end. }
  { destruct Hq as (_ & _ & Hq). unfold PHYSTOP, KERNBASE, PGSIZE in *. lia. }
  { intros va Hv Hva. rewrite L2, (vpage_one i va Hi Hv Hva). rewrite (fl_rest _ _ _ _ C) by (done || lia). by apply Hblank. }
  intros r j s3 l3 N3 S3 M3 Len Hrj.
  assert (U3 : forall p, p ∈ l3 \/ tree_page N3 p <-> p ∈ l1 \/ tree_page N p) by (intros p; by eapply vm_step_use).
  assert (Hq3 : ~ (q ∈ l3 \/ tree_page N3 q)) by (rewrite U3; tauto).
  assert (O3 : forall x, (forall p, p ∈ l1 \/ tree_page N p -> ~ in_page p x) -> k_mem s3 x = k_mem s2 x).
  { intros x Hx. apply (step_mem S3); [intros pi p Hp|intros p Hp]; apply Hx; [right; by exists pi|by left]. }
  assert (F3 : vm_frame s s3) by (eapply vm_frame_trans; [done|apply (step_frame S3)]).
  assert (O03 : forall x, (forall p, p ∈ l \/ tree_page N p -> ~ in_page p x) -> k_mem s3 x = k_mem s x).
  { intros x. rewrite El. intros Hx. rewrite O3; [apply O2, Hx; left; constructor|]. intros p [Hp|Hp]; apply Hx; [left; by constructor|by right]. }
  destruct Hrj as [[-> ->]|(-> & Hj & ->)]; cbn [negb Z.eqb].
  - assert (M3i : leaf (k_mem s3) root i = Some (mk_pte q (Z.lor perm PTE_V))).
    { rewrite (M3 i Hi), decide_True by (unfold PGSIZE; lia). do 2 f_equal. lia. }
    apply (HQ s3 l3 N3); [|rewrite El; cbn in *; lia|done].
    eapply (filled_map q _ c); [done..|apply (step_inv S3)|done| | |done|done|].
    + intros va Hv. rewrite (M3 va Hv), L2. repeat case_decide; [| | |done].
      * subst va. do 2 f_equal. lia.
      * assert (va = i) by (apply vpage_one; done || lia). done.
      * subst va. unfold PGSIZE in *. lia.
    + intros p. specialize (U3 p). rewrite El, elem_of_cons. tauto.
    + intros k Hk. rewrite O3; [by apply K2|]. intros p Hp Hin. destruct Hp as [Hp|Hp]; [apply Hql|apply Hqt].
      all: replace q with p; [done|]; eapply in_page_apart; [eapply (vm_inv_aligned _ _ _ _ _ I2)|done|done|unfold in_page; lia]; tauto.
  - apply wp_bind. eapply wp_kfree_vm; [apply (step_inv S3)| |by apply not_elem_of_nil|tauto|].
    { by rewrite (vm_frame_end _ _ F3), (vm_frame_end _ _ (fl_frame _ _ _ _ C)). }
    intros s4 I4 F4 L4 O4. apply (HE s4 [q] N3); [|rewrite El; cbn in *; lia]. eapply filled_quiet; [lia|exact C|done| | | |].
    + by eapply vm_frame_trans.
    + intros va Hv. rewrite L4, (M3 va Hv), L2. by rewrite decide_False by (unfold PGSIZE in *; lia).
    + intros p. specialize (U3 p). rewrite elem_of_nil in U3. rewrite El, list_elem_of_singleton, elem_of_cons. tauto.
    + intros x Hx. rewrite O4; [by apply O03|]. apply Hx. left. rewrite El. constructor.
Qed.

(** One page: [act] fills it. *)
Lemma wp_fill_one f c perm (act : Z -> KM unit) (err : KM Z) (cont : Z -> KM Z) Q :
  want i = Some (f, c) -> f = Z.lor perm PTE_V -> 0 <= perm < 2 ^ 10 ->
  (forall q s1 R, usable q -> page_ok (k_end s0) q -> same_outside q (k_mem s) (k_mem s1) ->
     (forall m, same_outside q (k_mem s1) m -> (forall k, 0 <= k < PGSIZE -> m (q + k) = c k) -> R tt (set_k_mem m s1)) ->
     wp (act q) R s1) ->
  (forall q s' l' N', filled (i + PGSIZE) s' l' N' -> (length l <= 3 + length l')%nat ->
     leaf (k_mem s') root i = Some (mk_pte q f) -> wp (cont q) Q s') ->
  (forall s' l' N', filled i s' l' N' -> (length l <= 3)%nat -> wp err Q s') ->
  wp (mem ← kalloc;
      if mem =? 0 then err else
      act mem;;
      r ← mappages root i PGSIZE mem perm;
      if negb (r =? 0) then kfree mem;; err else cont mem) Q s.
Proof.
  intros Hw Hf Hperm Hact HQ HE. apply wp_bind. eapply wp_kalloc_vm; [apply C|intros s1 -> I1 F1 M1; cbn [Z.eqb]|].
  { apply (HE s1 [] N); [|cbn; lia]. eapply filled_quiet; [lia|exact C|done|done|by rewrite M1|done|by rewrite M1]. }
  intros q l1 s1 El Hq Hq0 Hql Hqt I1 F1 L1 O1. destruct (Z.eqb_spec q 0) as [|_]; [lia|].
  rewrite (vm_frame_end _ _ (fl_frame _ _ _ _ C)) in Hq. apply wp_bind. eapply Hact; [|done..|].
  { eapply filled_free; [done|]. left. rewrite El. constructor. }
  intros m Om Km. destruct (vm_inv_private q m s1 l1 root N I1 (proj1 Hq) Hql Hqt Om) as [I2 L2].
  eapply wp_map_filled; [done..| | | |exact Km|by apply HQ|done].
  - eapply vm_frame_trans; [done|apply vm_frame_mem].
  - intros va. cbn [k_mem set_k_mem]. by rewrite L2.
  - by eapply same_outside_trans.
Qed.

End state.

(** Undoing what was done. *)
Lemma filled_undo i s l N s' l' :
  base <= i <= lim -> filled i s l N -> unmapped s l root N base i s' l' -> filled base s' l' N.
Proof.
  intros Hi C U. split.
  - apply U.
  - eapply vm_frame_trans; [apply C|apply U].
  - split; intros; lia.
  - intros va Hv _. rewrite (un_leaf U va Hv). case_decide; [symmetry; apply Hblank; [done|lia]|].
    by apply (fl_rest _ _ _ _ C).
  - intros q. rewrite (un_list U), <- (fl_use _ _ _ _ C). split; [|tauto].
    intros [?|[?|(va & v & _ & ? & _)]]; [tauto..|lia].
  - intros x Hx. rewrite (un_mem U); [by apply (fl_mem _ _ _ _ C)|intros q Hq..]; apply Hx, (fl_use _ _ _ _ C); tauto.
  - intros; lia.
Qed.

End fill.

Arguments fl_inv {_ _ _ _ _ _ _ _ _ _} _.
Arguments fl_frame {_ _ _ _ _ _ _ _ _ _} _.
Arguments fl_own {_ _ _ _ _ _ _ _ _ _} _.
Arguments fl_rest {_ _ _ _ _ _ _ _ _ _} _.
Arguments fl_use {_ _ _ _ _ _ _ _ _ _} _.
Arguments fl_mem {_ _ _ _ _ _ _ _ _ _} _.
Arguments fl_page {_ _ _ _ _ _ _ _ _ _} _.
