(* ===== verification/UserCopy.v ===== *)
(** * Copying an address space

    The specification of [uvmcopy], with which [fork] gives the child the memory
    of the parent: what the two page tables map afterwards, what became of
    every physical page, and the path on which memory runs out half-way. *)

From stdpp Require Import base gmap strings numbers list.
From S2P Require Import Prelude State Spinlock Strings Memory Kalloc Vm PageTable UserSpace.

Section copy.
Context (s0 : kst) (l0 : list Z) (old new : Z) (No N0 : tree) (sz : Z).

(** A copy has the parent's flags and bytes. *)
Definition copy_of (va : Z) : option (Z * (Z -> Z)) :=
  (fun v => (PTE_FLAGS v, fun k => k_mem s0 (PTE2PA v + k))) <$> leaf (k_mem s0) old va.

Let usable := usable l0 N0.
Let copied := filled s0 l0 new N0 0 copy_of.

(** The parent's table and the child's, as [fork] has them: apart, and the
    child's empty below [sz]. *)
Context (Iold : vm_inv s0 l0 old No) (Inew : vm_inv s0 l0 new N0).
Context (Hown : owned (k_end s0) l0 (k_mem s0) old No 0 sz).
Context (Hapart : forall q, tree_page N0 q -> ~ tree_page No q /\ ~ pages_of (k_mem s0) old 0 sz q).
Context (Hblank : forall va, vpage va -> va < sz -> leaf (k_mem s0) new va = None).
Context (Hsz : 0 <= sz <= MAXVA).

Lemma copy_of_flags va f c : copy_of va = Some (f, c) -> 0 <= f < 2 ^ 10.
Proof. unfold copy_of. intros (v & _ & [= -> _])%fmap_Some. apply PTE_FLAGS_range. Qed.

Lemma copy_blank va : vpage va -> 0 <= va < sz -> leaf (k_mem s0) new va = None.
Proof. intros Hv Hr. apply Hblank; [done|lia]. Qed.

(** The parent's tables and pages are out of reach of the copy. *)
Lemma old_tree_unusable q : tree_page No q -> ~ usable q.
Proof.
  intros [pi Hp] [Hq|Hq]; [by destruct (pt_page (inv_tree _ _ _ _ Iold) Hp) as (_ & ? & _)|].
  destruct (Hapart q Hq) as [[] _]. by exists pi.
Qed.

Lemma old_page_unusable va v : vpage va -> va < sz -> leaf (k_mem s0) old va = Some v ->
  aligned (PTE2PA v) /\ ~ usable (PTE2PA v).
Proof.
  intros Hv Hr Hl. destruct (own_page Hown va v Hv ltac:(destruct Hv; lia) Hl) as ([Ha _] & H1 & H2).
  split; [done|]. intros [?|Hq]; [done|]. destruct (Hapart _ Hq) as [_ []]. exists va, v. split_and!; [done|destruct Hv; lia|done..].
Qed.

Lemma copied_0 : copied 0 s0 l0 N0.
Proof. by apply filled_base. Qed.

Section state.
Context (i : Z) (s : kst) (l : list Z) (N : tree) (C : copied i s l N).

Lemma copied_old : pt_wf (k_end s0) l0 (k_mem s) old No /\ (forall va, leaf (k_mem s) old va = leaf (k_mem s0) old va) /\
  forall va, 0 <= va < sz -> umem (k_mem s) old va = umem (k_mem s0) old va.
Proof.
  apply (space_frame _ _ _ _ _ _ _ usable (kmem_end _ _ (inv_free _ _ _ _ Iold)) (inv_tree _ _ _ _ Iold) Hown (proj2 Hsz)); [|apply C].
  intros q Hq. split_and!; [by apply (usable_aligned _ _ _ _ Inew)|intros Ht; by apply (old_tree_unusable q)|].
  intros (va & v & Hv & Hr & Hl & <-). by apply (old_page_unusable va v Hv (proj2 Hr) Hl).
Qed.

Lemma copied_old_page va v k : vpage va -> va < sz -> leaf (k_mem s0) old va = Some v -> 0 <= k < PGSIZE ->
  k_mem s (PTE2PA v + k) = k_mem s0 (PTE2PA v + k).
Proof.
  intros Hv Hr Hl Hk. destruct (old_page_unusable va v Hv Hr Hl) as [Ha Hu]. apply (fl_mem C).
  intros q Hq Hin. apply Hu. replace (PTE2PA v) with q; [done|].
  eapply in_page_apart; [by apply (usable_aligned _ _ _ _ Inew)|done|done|]. unfold in_page. lia.
Qed.

(** Copying a page of the parent into one the child may use. *)
Lemma wp_copy_page va v q s1 R :
  vpage va -> va < sz -> leaf (k_mem s0) old va = Some v -> usable q -> page_ok (k_end s0) q ->
  same_outside q (k_mem s) (k_mem s1) ->
  (forall m, same_outside q (k_mem s1) m -> (forall k, 0 <= k < PGSIZE -> m (q + k) = k_mem s0 (PTE2PA v + k)) ->
     R tt (set_k_mem m s1)) ->
  wp (copy_page q (PTE2PA v)) R s1.
Proof.
  intros Hv Hr Hl Hu Hq O1 HR. apply wp_modify, HR.
  - intros x Hx. rewrite memmove_spec, pgsize_Z. unfold in_page, PGSIZE in Hx. zcases; lia || done.
  - intros k Hk. destruct (old_page_unusable va v Hv Hr Hl) as [Ha Hn].
    rewrite <- (copied_old_page va v k Hv Hr Hl Hk), <- (O1 (PTE2PA v + k)).
    + rewrite memmove_spec, pgsize_Z. unfold PGSIZE in Hk. zcases; try lia. f_equal. lia.
    + intros Hin. apply Hn. replace (PTE2PA v) with q; [done|].
      eapply in_page_apart; [apply Hq|done|done|]. unfold in_page. lia.
Qed.

(** The child sees a copy of the parent's memory. *)
Lemma copied_umem va : 0 <= va < sz -> va < i -> umem (k_mem s) new va = umem (k_mem s0) old va.
Proof.
  intros Hva Hi. destruct (PGROUNDDOWN_bounds va) as [Hb _]. assert (Hv : vpage (PGROUNDDOWN va)) by (apply vpage_down; lia).
  assert (K := fl_page C _ Hv ltac:(destruct Hv; lia)). unfold page_filled, copy_of in K. unfold umem, user_pa.
  destruct (leaf (k_mem s0) old (PGROUNDDOWN va)) as [v|] eqn:Hl; [|by rewrite K].
  destruct K as (p & Hp & -> & K). cbn [mbind option_bind]. rewrite has_mk_pte, has_FLAGS by done.
  rewrite (mk_pte_page _ p _ (kmem_end _ _ (inv_free _ _ _ _ Inew)) Hp (PTE_FLAGS_range v)).
  destruct (has v PTE_U); [|done]. cbn. f_equal. apply K. unfold PGSIZE. lia.
Qed.

(** What the states of the copy have in common, whatever the outcome. *)
Lemma copied_old_own : owned (k_end s0) l (k_mem s) old No 0 sz.
Proof.
  destruct copied_old as (_ & L & _). split; [intros va v Hv Hr|intros va va' v v']; rewrite !L; [|by apply (own_inj Hown)].
  intros Hl. destruct (own_page Hown va v Hv Hr Hl) as (? & _ & ?). split_and!; [done| |done].
  intros Hq. destruct (old_page_unusable va v Hv (proj2 Hr) Hl) as [_ []]. by eapply filled_free; [exact C|left].
Qed.

Lemma copied_old_inv : vm_inv s l old No.
Proof.
  destruct (fl_inv C) as [Iy Ik If It]. split; [done..|].
  rewrite (vm_frame_end _ _ (fl_frame C)). destruct copied_old as [[H1 H2 H3 H4 H5] _]. split; [done| |done..].
  intros pi p Hp. destruct (H2 pi p Hp) as (? & ? & ?). split_and!; [done| |done].
  intros Hq. eapply old_tree_unusable; [|by eapply filled_free; [exact C|left]]. by exists pi.
Qed.

End state.

(** [i] has passed the last page below [sz]. *)
Lemma past_end i va : aligned i -> i < sz + PGSIZE -> vpage va -> va < i -> va < sz.
Proof.
  intros Hi Hs [Ha _] Hva. unfold aligned, PGSIZE in *. pose proof (Z.div_mod i 4096). pose proof (Z.div_mod va 4096). lia.
Qed.

(** The outcome of [uvmcopy], in [s'] with the free list [l'] and the child's
    tree [N']. *)
Record duplicated (r : Z) (s' : kst) (l' : list Z) (N' : tree) : Prop := {
  dup_frame : vm_frame s0 s';
  dup_old_inv : vm_inv s' l' old No;
  dup_new_inv : vm_inv s' l' new N';
  dup_old : forall va, leaf (k_mem s') old va = leaf (k_mem s0) old va;
  dup_old_mem : forall va, 0 <= va < sz -> umem (k_mem s') old va = umem (k_mem s0) old va;
  dup_old_own : owned (k_end s0) l' (k_mem s') old No 0 sz;
  dup_own : owned (k_end s0) l' (k_mem s') new N' 0 sz;
  dup_rest : forall va, vpage va -> sz <= va -> leaf (k_mem s') new va = leaf (k_mem s0) new va;
  dup_pages : forall q, q ∈ l' \/ tree_page N' q \/ pages_of (k_mem s') new 0 sz q <-> q ∈ l0 \/ tree_page N0 q;
  dup_result :
    (r = 0 /\ (forall va, 0 <= va < sz -> umem (k_mem s') new va = umem (k_mem s0) old va) /\
       forall va, vpage va -> va < sz -> PTE_FLAGS <$> leaf (k_mem s') new va = PTE_FLAGS <$> leaf (k_mem s0) old va) \/
    (r = -1 /\ (forall va, vpage va -> va < sz -> leaf (k_mem s') new va = None) /\
       Z.of_nat (length l0) <= 3 * (PGROUNDUP sz / PGSIZE))
}.

Lemma duplicated_ok i s l N : copied i s l N -> aligned i -> 0 <= i -> sz <= i < sz + PGSIZE -> duplicated 0 s l N.
Proof.
  intros C Ha H0 Hi. assert (Hend := past_end i).
  assert (Hpages : forall q, pages_of (k_mem s) new 0 sz q <-> pages_of (k_mem s) new 0 i q).
  { intros q. rewrite (pages_of_split _ _ 0 sz i q) by lia. split; [tauto|]. intros [?|(va & v & Hv & Hr & _)]; [done|].
    specialize (Hend va Ha ltac:(lia) Hv). lia. }
  split; [apply C|..].
  - apply (copied_old_inv i s l N C).
  - apply C.
  - apply (copied_old i s l N C).
  - apply (copied_old i s l N C).
  - apply (copied_old_own i s l N C).
  - eapply owned_sub; [| |apply (fl_own C)]; lia.
  - intros va Hv Hr. apply (fl_rest C); [done|]. destruct (decide (va < i)); [|lia]. specialize (Hend va Ha ltac:(lia) Hv). lia.
  - intros q. rewrite Hpages. apply (fl_use C).
  - left. split; [done|]. split; intros va Hv; [apply (copied_umem i s l N C); lia|intros Hr].
    assert (K := fl_page C va Hv ltac:(destruct Hv; lia)). unfold page_filled, copy_of in K.
    destruct (leaf (k_mem s0) old va) as [v|]; [|by rewrite K]. destruct K as (p & _ & -> & _). cbn. by rewrite PTE_FLAGS_mk.
Qed.

Lemma duplicated_fail s l N :
  copied 0 s l N -> Z.of_nat (length l0) <= 3 * (PGROUNDUP sz / PGSIZE) -> duplicated (-1) s l N.
Proof.
  intros C Hlen. assert (Hb : forall va, vpage va -> va < sz -> leaf (k_mem s) new va = None).
  { intros va Hv Hr. rewrite (fl_rest C va Hv) by (destruct Hv; lia). by apply Hblank. }
  split; [apply C|..].
  - apply (copied_old_inv 0 s l N C).
  - apply C.
  - apply (copied_old 0 s l N C).
  - apply (copied_old 0 s l N C).
  - apply (copied_old_own 0 s l N C).
  - split; [intros va v Hv Hr|intros va va' v v' Hv _ Hr _]; rewrite Hb by (done || lia); done.
  - intros va Hv Hr. apply (fl_rest C); [done|lia].
  - intros q. change (q ∈ l0 \/ tree_page N0 q) with (UserSpace.usable l0 N0 q). rewrite <- (fl_use C q). split.
    + intros [?|[?|(va & v & Hv & Hr & Hl & _)]]; [tauto..|]. rewrite Hb in Hl by (done || lia). done.
    + intros [?|[?|(va & v & _ & ? & _)]]; [tauto..|lia].
  - by right.
Qed.

Lemma wp_copy_err i s l N Q :
  copied i s l N -> vpage i -> i < sz -> Z.of_nat (length l0) <= 3 * (i / PGSIZE) + 3 ->
  (forall r s' l' N', duplicated r s' l' N' -> Q r s') -> wp (uvmunmap new 0 (i / PGSIZE) true;; mret (-1)) Q s.
Proof.
  intros C [Ha Hi] Hr Hlen HQ. assert (Hn : i = 0 + Z.of_nat (Z.to_nat (i / PGSIZE)) * PGSIZE).
  { unfold aligned, PGSIZE in *. pose proof (Z.div_mod i 4096). pose proof (Z.div_pos i 4096). lia. }
  apply wp_bind. rewrite <- (Z2Nat.id (i / PGSIZE)) by (apply Z.div_pos; [lia|done]).
  eapply wp_uvmunmap; [apply C| |done|done| |]; rewrite <- ?Hn; [|lia|].
  - rewrite (vm_frame_end _ _ (fl_frame C)). apply C.
  - intros s' l' U. apply wp_ret. eapply HQ, duplicated_fail; [by eapply (filled_undo _ _ _ _ _ _ sz) with (i := i); [lia|exact copy_blank|lia|exact C|exact U]|].
    unfold MAXVA in Hsz. change (Z.shiftl 1 _) with (2 ^ 38) in Hsz. rewrite PGROUNDUP_spec by lia. unfold aligned, PGSIZE in *. rewrite Z.div_mul by lia.
    pose proof (Z.div_mod i 4096). pose proof (Z.div_mod (sz + 4095) 4096). pose proof (Z.mod_pos_bound (sz + 4095) 4096). lia.
Qed.

Lemma copied_skip i s l N : copied i s l N -> vpage i -> i < sz -> leaf (k_mem s0) old i = None -> copied (i + PGSIZE) s l N.
Proof.
  intros C Hv Hr Hl. eapply (filled_skip _ _ _ _ 0 _ copy_of_flags sz); [lia|exact copy_blank|exact C|done|destruct Hv; lia|].
  unfold copy_of. by rewrite Hl.
Qed.

Lemma wp_uvmcopy_loop fuel i s l N Q :
  copied i s l N -> aligned i -> 0 <= i < sz + PGSIZE -> sz <= i + Z.of_nat fuel * PGSIZE ->
  Z.of_nat (length l0) <= Z.of_nat (length l) + 3 * (i / PGSIZE) ->
  (forall r s' l' N', duplicated r s' l' N' -> Q r s') -> wp (uvmcopy_loop fuel old new i sz) Q s.
Proof.
  revert i s l N. induction fuel as [|fuel IH]; intros i s l N C Ha Hi Hf Hlen HQ; cbn [uvmcopy_loop];
    destruct (Z.ltb_spec i sz) as [Hr|Hr]; cbn [negb]; try lia.
  1,3: apply wp_ret; eapply HQ, duplicated_ok; try done; lia.
  assert (Hv : vpage i) by (split; [done|lia]).
  assert (Hnext : wrap64 (i + PGSIZE) = i + PGSIZE).
  { apply wrap64_small. pose proof (vpage_end i Hv). unfold PGSIZE, MAXVA in *. change (Z.shiftl 1 _) with (2 ^ 38) in *. lia. }
  assert (Hdiv : (i + PGSIZE) / PGSIZE = i / PGSIZE + 1) by (unfold PGSIZE; rewrite <- (Z.mul_1_l 4096) at 1; by rewrite Z.div_add by lia).
  assert (Hcont : forall s' l' N', copied (i + PGSIZE) s' l' N' -> (length l <= 3 + length l')%nat ->
            wp (uvmcopy_loop fuel old new (wrap64 (i + PGSIZE)) sz) Q s').
  { intros s' l' N' C' Hl'. rewrite Hnext. eapply IH; [done| |unfold PGSIZE in *; lia..|rewrite Hdiv; lia|done].
    unfold aligned, PGSIZE in *. by rewrite Z.add_mod, Ha by lia. }
  destruct (copied_old i s l N C) as (Ht & Hleaf & _).
  destruct (walk_leaf _ l0 old No i s (kmem_end _ _ (inv_free _ _ _ _ Iold)) Ht ltac:(lia)) as (pte & E & Hcase).
  rewrite Hleaf in Hcase. apply wp_bind. eapply wp_eq; [exact E|].
  destruct Hcase as [[-> Hl]|(p0 & Hp0 & Hpte & Hz%Z.eqb_neq & Hl)].
  { apply (Hcont s l N); [by apply copied_skip; rewrite ?Hl|lia]. }
  rewrite Hz. apply wp_bind, wp_gets. unfold valid_pte in Hl. destruct (has _ PTE_V) eqn:Hvalid; cbn [negb].
  2: { apply (Hcont s l N); [by apply copied_skip; rewrite ?Hl|lia]. }
  set (v := ld64 _ _) in *. assert (Hc : copy_of i = Some (PTE_FLAGS v, fun k => k_mem s0 (PTE2PA v + k))) by (unfold copy_of; by rewrite Hl).
  eapply (wp_fill_one _ _ _ _ 0 _ copy_of_flags Inew sz) with (i := i) (act := fun q => copy_page q (PTE2PA v)) (cont := fun _ => uvmcopy_loop fuel old new (wrap64 (i + PGSIZE)) sz);
    [lia|exact copy_blank|exact C|done|lia|exact Hc|by rewrite PTE_FLAGS_valid|apply PTE_FLAGS_range| |intros q s' l' N' C' Hl' _; by eapply Hcont|].
  - intros q s1 R Hu Hq O1. by eapply (wp_copy_page i s l N C i).
  - intros s' l' N' C' Hl'. eapply wp_copy_err; [exact C'|done..|lia|done].
Qed.

Lemma wp_uvmcopy Q : (forall r s' l' N', duplicated r s' l' N' -> Q r s') -> wp (uvmcopy old new sz) Q s0.
Proof.
  intros HQ. unfold uvmcopy. eapply wp_uvmcopy_loop; [exact copied_0|done|unfold PGSIZE; lia| |rewrite Z.div_0_l by done; lia|done].
  unfold PGSIZE. pose proof (Z.div_mod sz 4096). pose proof (Z.mod_pos_bound sz 4096). pose proof (Z.div_pos sz 4096). lia.
Qed.

End copy.

(** ** The property *)

(** C7: [uvmcopy], called with a parent's page table and a child's that is empty
    below [sz] and shares no page with the parent's, always returns. The
    parent's translations and memory are as before; the child's table is well
    formed and the pages it maps below [sz] are its own; every page that was
    free or in the child's table is still one of free, in the child's table or
    mapped by the child. On 0 the child sees, at every address below [sz], the
    byte the parent saw, with the same permissions. On -1 nothing is mapped in
    the child, and there were at most three free pages for each page to
    copy. *)
Theorem uvmcopy_spec (s : kst) (l : list Z) (old new : Z) (No Nn : tree) (sz : Z)
    (Iold : vm_inv s l old No) (Inew : vm_inv s l new Nn)
    (Hown : owned (k_end s) l (k_mem s) old No 0 sz)
    (Hapart : forall q, tree_page Nn q -> ~ tree_page No q /\ ~ pages_of (k_mem s) old 0 sz q)
    (Hblank : forall va, vpage va -> va < sz -> leaf (k_mem s) new va = None)
    (Hsz : 0 <= sz <= MAXVA) :
  wp (uvmcopy old new sz) (fun r s' => exists l' N', duplicated s l old new No Nn sz r s' l' N') s.
Proof. eapply wp_uvmcopy; [done..|]. intros r s' l' N' H. by exists l', N'. Qed.
