(* ===== verification/UserAlloc.v ===== *)
(** * Growing and shrinking an address space

    The specifications of [uvmalloc] and [uvmdealloc], with which [sbrk], [exec]
    and the first process change the size of user memory: what a process sees
    in the new pages, that the memory it had is untouched, and that a growth
    that runs out of memory leaves no trace. *)

From stdpp Require Import base gmap strings numbers list.
From S2P Require Import Prelude State Spinlock Strings Memory Kalloc Vm PageTable UserSpace.

(** ** Shrinking *)

Lemma npages_int n : 0 <= n < 2 ^ 31 -> wrap64 (to_int n) = n.
Proof. intros H. rewrite to_int_small by lia. apply wrap64_small. lia. Qed.

(** [uvmdealloc] gives back the pages between the new end and the old one. *)
Lemma wp_uvmdealloc oldsz newsz s l root N Q :
  vm_inv s l root N -> 0 <= newsz <= oldsz -> oldsz <= MAXVA ->
  owned (k_end s) l (k_mem s) root N (PGROUNDUP newsz) (PGROUNDUP oldsz) ->
  (forall s' l', unmapped s l root N (PGROUNDUP newsz) (PGROUNDUP oldsz) s' l' -> Q newsz s') ->
  wp (uvmdealloc root oldsz newsz) Q s.
Proof.
  intros I Hsz Hmax Ho HQ. unfold MAXVA in Hmax. change (Z.shiftl 1 _) with (2 ^ 26 * 4096) in Hmax. unfold uvmdealloc.
  destruct (Z.leb_spec oldsz newsz); [assert (newsz = oldsz) as -> by lia; by apply wp_ret, (HQ s l), unmapped_nil|].
  destruct (PGROUNDUP_bounds newsz) as [Hb Ha], (PGROUNDUP_bounds oldsz) as [Hb' Ha']; [lia..|].
  set (a := PGROUNDUP newsz) in *. set (b := PGROUNDUP oldsz) in *.
  apply wp_bind, wp_when; [intros Hlt%Z.ltb_lt|intros Hge%Z.ltb_ge].
  - assert (Hn : b = a + Z.of_nat (Z.to_nat ((b - a) / PGSIZE)) * PGSIZE /\ 0 <= (b - a) / PGSIZE < 2 ^ 31 /\ b <= 2 ^ 26 * 4096).
    { unfold aligned, PGSIZE in *. pose proof (Z.div_mod b 4096). pose proof (Z.div_mod a 4096).
      replace (b - a) with ((b / 4096 - a / 4096) * 4096) by lia. rewrite Z.div_mul by lia. lia. }
    destruct Hn as (Hn & Hr & Hmb). rewrite npages_int by done. rewrite <- (Z2Nat.id ((b - a) / PGSIZE)) by lia.
    eapply wp_uvmunmap; [done| |done|lia| |]; rewrite <- ?Hn; [done|done|]. intros s' l' U. by apply wp_ret, (HQ s' l').
  - assert (a = b) as E. { unfold aligned, PGSIZE in *. pose proof (Z.div_mod b 4096). pose proof (Z.div_mod a 4096). lia. }
    rewrite E in HQ. by apply wp_ret, (HQ s l), unmapped_nil.
Qed.

(** ** Growing *)

Lemma lor_range n a b : 0 <= n -> 0 <= a < 2 ^ n -> 0 <= b < 2 ^ n -> 0 <= Z.lor a b < 2 ^ n.
Proof.
  intros Hn Ha Hb. rewrite <- (Z.mod_small a (2 ^ n)), <- (Z.mod_small b (2 ^ n)), <- !Z.land_ones by done.
  rewrite <- Z.land_lor_distr_l, Z.land_ones by done. apply Z.mod_pos_bound. lia.
Qed.

Lemma PGROUNDUP_aligned a : aligned a -> 0 <= a -> a + 4095 < 2 ^ 64 -> PGROUNDUP a = a.
Proof.
  intros Ha H0 H1. rewrite PGROUNDUP_spec by done. unfold aligned, PGSIZE in Ha. pose proof (Z.div_mod a 4096).
  pose proof (Z.div_mod (a + 4095) 4096). pose proof (Z.mod_pos_bound (a + 4095) 4096). lia.
Qed.

Section grow.
Context (s0 : kst) (l0 : list Z) (root : Z) (N0 : tree) (base newsz xperm : Z).

Definition alloc_perm : Z := Z.lor (Z.lor PTE_R PTE_U) xperm.

(** The new pages are zero. *)
Definition zero_page (va : Z) : option (Z * (Z -> Z)) := Some (Z.lor alloc_perm PTE_V, fun _ => 0).

Let grown_to := filled s0 l0 root N0 base zero_page.

Context (I0 : vm_inv s0 l0 root N0) (Hperm : 0 <= xperm < 2 ^ 10) (Hbase : 0 <= base /\ aligned base) (Hnew : newsz <= MAXVA).
Context (Hblank : forall va, vpage va -> base <= va < newsz -> leaf (k_mem s0) root va = None).

Lemma alloc_perm_range : 0 <= alloc_perm < 2 ^ 10.
Proof. unfold alloc_perm. apply lor_range; [lia|by vm_compute|done]. Qed.

Lemma zero_page_flags va f c : zero_page va = Some (f, c) -> 0 <= f < 2 ^ 10.
Proof. intros [= <- _]. apply lor_bound, alloc_perm_range. Qed.

(** What becomes of the address space: on failure ([r] is 0) and on success. *)
Record enlarged (r : Z) (s' : kst) (l' : list Z) (N' : tree) : Prop := {
  en_inv : vm_inv s' l' root N';
  en_frame : vm_frame s0 s';
  en_mem : forall x, (forall q, usable l0 N0 q -> ~ in_page q x) -> k_mem s' x = k_mem s0 x;
  en_own : owned (k_end s0) l' (k_mem s') root N' base newsz;
  en_rest : forall va, vpage va -> ~ base <= va < newsz -> leaf (k_mem s') root va = leaf (k_mem s0) root va;
  en_pages : forall q, q ∈ l' \/ tree_page N' q \/ pages_of (k_mem s') root base newsz q <-> usable l0 N0 q;
  en_result :
    (r = newsz /\ forall va, vpage va -> base <= va < newsz -> exists p, page_ok (k_end s0) p /\
       leaf (k_mem s') root va = Some (mk_pte p (Z.lor alloc_perm PTE_V)) /\ forall k, 0 <= k < PGSIZE -> k_mem s' (p + k) = 0) \/
    (r = 0 /\ (forall va, vpage va -> leaf (k_mem s') root va = leaf (k_mem s0) root va) /\
       Z.of_nat (length l0) <= 3 * ((newsz - base) / PGSIZE + 1))
}.

Lemma enlarged_ok i s l N : grown_to i s l N -> aligned i -> base <= i -> newsz <= i -> i = base \/ i < newsz + PGSIZE ->
  enlarged newsz s l N.
Proof.
  intros C Ha Hb Hi Hend.
  assert (Hlast : forall va, vpage va -> base <= va < i -> va < newsz).
  { intros va [Hv _] Hr. unfold aligned, PGSIZE in *. pose proof (Z.div_mod i 4096). pose proof (Z.div_mod va 4096). lia. }
  split; [apply C|apply C|apply C| | | |left; split; [done|]].
  - eapply owned_sub; [| |apply (fl_own C)]; lia.
  - intros va Hv Hr. apply (fl_rest C); [done|]. intros Hr'. specialize (Hlast va Hv Hr'). lia.
  - intros q. rewrite <- (fl_use C q). enough (pages_of (k_mem s) root base newsz q <-> pages_of (k_mem s) root base i q) by tauto.
    split; intros (va & v & Hv & Hr & Hl & Hq); exists va, v; split_and!; try done; try lia. by apply Hlast.
  - intros va Hv Hr. destruct (fl_page C va Hv ltac:(lia)) as (p & Hok & Hp & Hk). by exists p.
Qed.

Lemma enlarged_fail s l N : grown_to base s l N -> Z.of_nat (length l0) <= 3 * ((newsz - base) / PGSIZE + 1) -> enlarged 0 s l N.
Proof.
  intros C Hlen. assert (Hb : forall va, vpage va -> leaf (k_mem s) root va = leaf (k_mem s0) root va).
  { intros va Hv. apply (fl_rest C); [done|lia]. }
  split; [apply C|apply C|apply C| |by intros va Hv _; apply Hb| |by right].
  - split; [intros va v Hv Hr|intros va va' v v' Hv _ Hr _]; rewrite Hb, Hblank by done; done.
  - intros q. rewrite <- (fl_use C q).
    enough (~ pages_of (k_mem s) root base newsz q /\ ~ pages_of (k_mem s) root base base q) by tauto.
    split; intros (va & v & Hv & Hr & Hl & Hq); [|lia]. rewrite Hb, Hblank in Hl by done. done.
Qed.

Lemma wp_grow_err i s l N Q :
  grown_to i s l N -> vpage i -> base <= i < newsz -> Z.of_nat (length l0) <= 3 * ((i - base) / PGSIZE) + 3 ->
  (forall r s' l' N', enlarged r s' l' N' -> Q r s') -> wp (_ ← uvmdealloc root i base; mret 0) Q s.
Proof.
  intros C [Ha Hi] Hr Hlen HQ. assert (Hm := Hnew). unfold MAXVA in Hm, Hi. change (Z.shiftl 1 _) with (2 ^ 38) in Hm, Hi.
  destruct Hbase as [Hb0 Hba]. apply wp_bind. eapply wp_uvmdealloc; [apply C|lia|lia| |]; rewrite !PGROUNDUP_aligned by (done || lia).
  - rewrite (vm_frame_end _ _ (fl_frame C)). apply C.
  - intros s' l' U. apply wp_ret. eapply HQ, enlarged_fail.
    + eapply (filled_undo _ _ _ _ _ _ newsz) with (i := i); [lia|exact Hblank|lia|exact C|exact U].
    + pose proof (Z.div_le_mono (i - base) (newsz - base) PGSIZE). unfold PGSIZE in *. lia.
Qed.

(** [memset] of a page. *)
Lemma wp_zero_page q s1 R :
  (forall m, same_outside q (k_mem s1) m -> (forall k, 0 <= k < PGSIZE -> m (q + k) = 0) -> R tt (set_k_mem m s1)) ->
  wp (fill_page q 0) R s1.
Proof.
  intros HR. apply wp_modify, HR; [apply same_outside_memset|]. intros k Hk.
  rewrite memset_spec, pgsize_Z. unfold PGSIZE in Hk. zcases; lia || done.
Qed.

Lemma wp_uvmalloc_loop fuel i s l N Q :
  grown_to i s l N -> aligned i -> base <= i -> i = base \/ i < newsz + PGSIZE -> newsz <= i + Z.of_nat fuel * PGSIZE ->
  Z.of_nat (length l0) <= Z.of_nat (length l) + 3 * ((i - base) / PGSIZE) ->
  (forall r s' l' N', enlarged r s' l' N' -> Q r s') -> wp (uvmalloc_loop fuel root i base newsz xperm) Q s.
Proof.
  revert i s l N. induction fuel as [|fuel IH]; intros i s l N C Ha Hi Hend Hf Hlen HQ; cbn [uvmalloc_loop];
    destruct (Z.ltb_spec i newsz) as [Hr|Hr]; cbn [negb]; try lia.
  1,3: apply wp_ret; eapply HQ, enlarged_ok; try done; lia.
  assert (Hv : vpage i) by (split; [done|lia]).
  assert (Hnext : wrap64 (i + PGSIZE) = i + PGSIZE).
  { apply wrap64_small. pose proof (vpage_end i Hv). unfold PGSIZE, MAXVA in *. change (Z.shiftl 1 _) with (2 ^ 38) in *. lia. }
  assert (Hdiv : (i + PGSIZE - base) / PGSIZE = (i - base) / PGSIZE + 1).
  { replace (i + PGSIZE - base) with (i - base + 1 * PGSIZE) by lia. by rewrite Z.div_add by done. }
  eapply (wp_fill_one _ _ _ _ base _ zero_page_flags I0 newsz) with (i := i) (act := fun q => fill_page q 0)
    (cont := fun _ => uvmalloc_loop fuel root (wrap64 (i + PGSIZE)) base newsz xperm);
    [lia|exact Hblank|exact C|done|lia|reflexivity|done|apply alloc_perm_range| | |].
  - intros q s1 R _ _ _. apply wp_zero_page.
  - intros q s' l' N' C' Hl' _. rewrite Hnext. eapply IH; [done| |unfold PGSIZE in *; lia..|rewrite Hdiv; lia|done].
    unfold aligned, PGSIZE in *. by rewrite Z.add_mod, Ha by lia.
  - intros s' l' N' C' Hl'. eapply wp_grow_err; [exact C'|done|lia|lia|done].
Qed.

End grow.

Section space.
Context (s0 : kst) (l0 : list Z) (root : Z) (N0 : tree) (base newsz xperm r : Z) (s' : kst) (l' : list Z) (N' : tree).
Context (I0 : vm_inv s0 l0 root N0) (Hown : owned (k_end s0) l0 (k_mem s0) root N0 0 base).
Context (Hbase : 0 <= base <= MAXVA) (E : enlarged s0 l0 root N0 base newsz xperm r s' l' N').

(** The pages the process had cannot be used for the growth. *)
Lemma had_unusable va v : vpage va -> 0 <= va < base -> leaf (k_mem s0) root va = Some v -> ~ usable l0 N0 (PTE2PA v).
Proof. intros Hv Hr Hl. destruct (own_page Hown va v Hv Hr Hl) as (_ & ? & ?). unfold usable. tauto. Qed.

Lemma enlarged_had va : vpage va -> 0 <= va < base -> leaf (k_mem s') root va = leaf (k_mem s0) root va.
Proof. intros Hv Hr. apply (en_rest _ _ _ _ _ _ _ _ _ _ _ E); [done|lia]. Qed.

(** The memory the process had is what it was. *)
Lemma enlarged_umem va : 0 <= va < base -> umem (k_mem s') root va = umem (k_mem s0) root va.
Proof.
  intros Hva. destruct (PGROUNDDOWN_bounds va) as [Hb _].
  assert (Hv : vpage (PGROUNDDOWN va)) by (apply vpage_down; lia). assert (Hr : 0 <= PGROUNDDOWN va < base) by (destruct Hv; lia).
  unfold umem, user_pa. rewrite enlarged_had by done. destruct (leaf (k_mem s0) root (PGROUNDDOWN va)) as [v|] eqn:Hl; [|done].
  cbn. destruct (has v PTE_U); [|done]. cbn. f_equal. apply (en_mem _ _ _ _ _ _ _ _ _ _ _ E). intros q Hq Hin.
  apply (had_unusable _ v Hv Hr Hl). replace (PTE2PA v) with q; [done|].
  eapply in_page_apart; [by apply (usable_aligned _ _ _ _ I0)|apply (own_page Hown _ v Hv Hr Hl)|done|unfold in_page, PGSIZE; lia].
Qed.

(** All user pages, old and new, belong to the table. *)
Lemma enlarged_owned b : (forall va, vpage va -> base <= va < b -> va < newsz) -> owned (k_end s0) l' (k_mem s') root N' 0 b.
Proof.
  intros Hb. destruct (en_own _ _ _ _ _ _ _ _ _ _ _ E) as [Op Oj]. assert (U := en_pages _ _ _ _ _ _ _ _ _ _ _ E).
  assert (Hold : forall va v, vpage va -> 0 <= va < base -> leaf (k_mem s') root va = Some v ->
    leaf (k_mem s0) root va = Some v /\ page_ok (k_end s0) (PTE2PA v) /\
    ~ (PTE2PA v ∈ l' \/ tree_page N' (PTE2PA v) \/ pages_of (k_mem s') root base newsz (PTE2PA v))).
  { intros va v Hv Hr Hl. rewrite enlarged_had in Hl by done. split; [done|]. split; [apply (own_page Hown va v Hv Hr Hl)|].
    rewrite U. by apply (had_unusable va). }
  split.
  - intros va v Hv Hr Hl. destruct (decide (base <= va)); [specialize (Hb va Hv ltac:(lia)); apply (Op va); done || lia|].
    destruct (Hold va v Hv ltac:(lia) Hl) as (_ & ? & ?). tauto.
  - intros va va' v v' Hv Hv' Hr Hr' Hl Hl' Eq. destruct (decide (base <= va)) as [H|H], (decide (base <= va')) as [H'|H'].
    + assert (Hb1 := Hb va Hv ltac:(lia)). specialize (Hb va' Hv' ltac:(lia)). apply (Oj va va' v v'); done || lia.
    + specialize (Hb va Hv ltac:(lia)). destruct (Hold va' v' Hv' ltac:(lia) Hl') as (_ & _ & Hn). exfalso. apply Hn. right. right. exists va, v. split_and!; done || lia.
    + specialize (Hb va' Hv' ltac:(lia)). destruct (Hold va v Hv ltac:(lia) Hl) as (_ & _ & Hn). exfalso. apply Hn. right. right. exists va', v'. split_and!; done || lia.
    + destruct (Hold va v Hv ltac:(lia) Hl) as (Hl0 & _), (Hold va' v' Hv' ltac:(lia) Hl') as (Hl0' & _).
      apply (own_inj Hown va va' v v'); done || lia.
Qed.

End space.

(** New memory reads as zero. *)
Lemma zero_umem kend m root va p xperm : 0 <= va < MAXVA -> 0 < kend -> page_ok kend p -> 0 <= xperm < 2 ^ 10 ->
  leaf m root (PGROUNDDOWN va) = Some (mk_pte p (Z.lor (alloc_perm xperm) PTE_V)) ->
  (forall k, 0 <= k < PGSIZE -> m (p + k) = 0) -> umem m root va = Some 0.
Proof.
  intros Hva Hk Hp Hx Hl Hz. assert (Hr := lor_bound _ (alloc_perm_range xperm Hx)). destruct (PGROUNDDOWN_bounds va) as [Hb _].
  unfold umem, user_pa. rewrite Hl. cbn [mbind option_bind]. rewrite (mk_pte_page kend), has_mk_pte by done.
  assert (Hu : has (Z.lor (alloc_perm xperm) PTE_V) PTE_U = true).
  { unfold has, alloc_perm. apply negb_true_iff, Z.eqb_neq. intros H%(f_equal (fun z => Z.testbit z 4)).
    rewrite Z.land_spec, !Z.lor_spec, Z.bits_0 in H. change (Z.testbit PTE_U 4) with true in H.
    by rewrite orb_true_r in H. }
  rewrite Hu. cbn. f_equal. apply Hz. unfold PGSIZE. lia.
Qed.

Lemma wp_uvmalloc s l root N oldsz newsz xperm Q :
  vm_inv s l root N -> 0 <= xperm < 2 ^ 10 -> 0 <= oldsz <= newsz -> newsz <= MAXVA ->
  (forall va, vpage va -> PGROUNDUP oldsz <= va < newsz -> leaf (k_mem s) root va = None) ->
  (forall r s' l' N', enlarged s l root N (PGROUNDUP oldsz) newsz xperm r s' l' N' -> Q r s') ->
  wp (uvmalloc root oldsz newsz xperm) Q s.
Proof.
  intros I Hperm Hsz Hmax Hblank HQ. assert (Hm := Hmax). unfold MAXVA in Hm. change (Z.shiftl 1 _) with (2 ^ 38) in Hm.
  unfold uvmalloc. destruct (Z.ltb_spec newsz oldsz); [lia|]. destruct (PGROUNDUP_bounds oldsz) as [Hb Ha]; [lia..|].
  set (base := PGROUNDUP oldsz) in *.
  eapply (wp_uvmalloc_loop s l root N base newsz xperm); [done|done|split; [lia|done]|done|done|by apply filled_base|done|lia|by left| | |done].
  - unfold PGSIZE. pose proof (Z.div_mod (newsz - base) 4096). pose proof (Z.mod_pos_bound (newsz - base) 4096). lia.
  - rewrite Z.sub_diag, Z.div_0_l by done. lia.
Qed.

(** ** Properties *)

(** [uvmalloc], when the addresses it is to add are not mapped, always returns.
    The memory the process had is as it was. Either it returns the new size,
    and at every added address the process sees a zero byte, in pages that
    belong to it alone; or it returns 0, no translation has changed, no page is
    lost, and there were at most three free pages for each page to add. *)
Theorem uvmalloc_spec (s : kst) (l : list Z) (root : Z) (N : tree) (oldsz newsz xperm : Z)
    (I : vm_inv s l root N) (Hown : owned (k_end s) l (k_mem s) root N 0 (PGROUNDUP oldsz))
    (Hperm : 0 <= xperm < 2 ^ 10) (Hsz : 0 <= oldsz <= newsz) (Hmax : newsz <= MAXVA)
    (Hblank : forall va, vpage va -> PGROUNDUP oldsz <= va < newsz -> leaf (k_mem s) root va = None) :
  wp (uvmalloc root oldsz newsz xperm) (fun r s' => exists l' N',
    vm_inv s' l' root N' /\ owned (k_end s') l' (k_mem s') root N' 0 (PGROUNDUP newsz) /\
    (forall va, 0 <= va < PGROUNDUP oldsz -> umem (k_mem s') root va = umem (k_mem s) root va) /\
    ((r = newsz /\ forall va, PGROUNDUP oldsz <= va < newsz -> umem (k_mem s') root va = Some 0) \/
     (r = 0 /\ (forall va, vpage va -> leaf (k_mem s') root va = leaf (k_mem s) root va) /\
      (forall q, q ∈ l' \/ tree_page N' q <-> q ∈ l \/ tree_page N q) /\
      Z.of_nat (length l) <= 3 * ((newsz - PGROUNDUP oldsz) / PGSIZE + 1)))) s.
Proof.
  assert (Hm := Hmax). unfold MAXVA in Hm. change (Z.shiftl 1 _) with (2 ^ 38) in Hm.
  destruct (PGROUNDUP_bounds oldsz) as [Hb Ha]; [lia..|]. destruct (PGROUNDUP_bounds newsz) as [Hb' Ha']; [lia..|].
  assert (Hbase : PGROUNDUP oldsz <= MAXVA). { apply PGROUNDUP_le; [done|lia|done]. }
  eapply wp_uvmalloc; [done..|]. set (base := PGROUNDUP oldsz) in *.
  intros r s' l' N' E. exists l', N'. assert (Hf := en_frame _ _ _ _ _ _ _ _ _ _ _ E).
  split; [apply E|]. split; [rewrite (vm_frame_end _ _ Hf); eapply enlarged_owned; [done..|lia|done|]|].
  { intros va Hv Hr. apply (vpage_below _ _ Hv); lia. }
  split; [intros va Hva; eapply enlarged_umem; [done|done|lia|done|done]|]. destruct (en_result _ _ _ _ _ _ _ _ _ _ _ E) as [[-> Hz]|(-> & Hl & Hlen)].
  - left. split; [done|]. intros va Hva. destruct (PGROUNDDOWN_bounds va) as [Hd Hda].
    destruct (Hz (PGROUNDDOWN va)) as (p & Hp & Hlp & Hk); [apply vpage_down; lia|split; [|lia]|].
    { unfold aligned, PGSIZE in *. pose proof (Z.div_mod base 4096). pose proof (Z.div_mod (PGROUNDDOWN va) 4096). lia. }
    eapply (zero_umem (k_end s)); [lia|apply (kmem_end _ _ (inv_free _ _ _ _ I))|done..].
  - right. split_and!; [done..| |done]. intros q. change (q ∈ l \/ tree_page N q) with (usable l N q).
    rewrite <- (en_pages _ _ _ _ _ _ _ _ _ _ _ E q).
    enough (~ pages_of (k_mem s') root base newsz q) by tauto. intros (va & v & Hv & Hr & Hlv & _).
    rewrite Hl, Hblank in Hlv by done. done.
Qed.
