(* ===== verification/UserFree.v ===== *)
(** * Tearing down an address space

    The specification of [freewalk], which frees the pages of a page table from
    the leaves up, and of [uvmfree], which unmaps user memory first: both
    return, no page is freed twice, and everything the address space held is
    on the free list. *)

From stdpp Require Import base gmap strings numbers list.
From S2P Require Import Prelude State Spinlock Strings Memory Kalloc Vm PageTable UserSpace UserCopy.

(** The pages of the tree at and below [pi]. *)
Definition under (N : tree) (pi : list Z) (q : Z) : Prop := exists rest, N !! (pi ++ rest) = Some q.

(** The allocator can be called, and [l] is its free list. *)
Record ready (s : kst) (l : list Z) : Prop := {
  rd_sync : sync_wf (k_sync s);
  rd_lock : lock_free LKmem (k_sync s);
  rd_free : kmem_wf s l
}.

(** What [freewalk] relies on, of the tree below [pi]. *)
Record subtree (s : kst) (l : list Z) (N : tree) (pi : list Z) : Prop := {
  sub_ready : ready s l;
  sub_page : forall q, under N pi q -> page_ok (k_end s) q /\ q ∉ l;
  sub_entry : forall rest p i, N !! (pi ++ rest) = Some p -> 0 <= i < 512 ->
    match N !! (pi ++ rest ++ [i]) with
    | Some q => ld64 (k_mem s) (p + 8 * i) = mk_pte q PTE_V
    | None => has (ld64 (k_mem s) (p + 8 * i)) PTE_V = false
    end
}.

(** The pages that satisfy [P] have been freed. *)
Record freed (s : kst) (l : list Z) (P : Z -> Prop) (s' : kst) (l' : list Z) : Prop := {
  fr_frame : vm_frame s s';
  fr_ready : ready s' l';
  fr_list : forall q, q ∈ l' <-> q ∈ l \/ P q;
  fr_mem : forall x, (forall q, P q -> ~ in_page q x) -> k_mem s' x = k_mem s x
}.

Arguments fr_frame {_ _ _ _ _} _.
Arguments fr_ready {_ _ _ _ _} _.
Arguments fr_list {_ _ _ _ _} _.
Arguments fr_mem {_ _ _ _ _} _.

Section walk.
Context (N : tree).
Context (Hinj : forall pi pi' p, N !! pi = Some p -> N !! pi' = Some p -> pi = pi').
Context (Hparent : forall pi i q, N !! (pi ++ [i]) = Some q -> is_Some (N !! pi) /\ 0 <= i < 512).
Context (Hdepth : forall pi p, N !! pi = Some p -> (length pi <= 2)%nat).

Lemma under_self pi p : N !! pi = Some p -> under N pi p.
Proof. exists []. by rewrite app_nil_r. Qed.

Lemma under_child pi i q : under N (pi ++ [i]) q -> under N pi q.
Proof. intros [rest H]. exists (i :: rest). by rewrite <- app_assoc in H. Qed.

Lemma under_node pi q : under N pi q -> is_Some (N !! pi).
Proof.
  intros [rest H]. revert q H. induction rest as [|i rest IH] using rev_ind; intros q H; [rewrite app_nil_r in H; by eexists|].
  rewrite app_assoc in H. destruct (Hparent _ _ _ H) as [[p Hp] _]. by apply (IH p).
Qed.

(** A page below [pi] is the page at [pi] or below one of its entries. *)
Lemma under_cases pi p q : N !! pi = Some p ->
  under N pi q <-> q = p \/ exists i, 0 <= i < 512 /\ under N (pi ++ [i]) q.
Proof.
  intros Hp. split.
  - intros [[|i rest] H]; [rewrite app_nil_r in H; left; congruence|right]. exists i.
    assert (Hu : under N (pi ++ [i]) q) by (exists rest; by rewrite <- app_assoc).
    split; [|done]. destruct (under_node _ _ Hu) as [c Hc]. by apply (Hparent pi i c).
  - intros [->|(i & _ & H)]; [by apply under_self|by eapply under_child].
Qed.

Lemma under_apart pi i j q : under N (pi ++ [i]) q -> under N (pi ++ [j]) q -> i = j.
Proof.
  intros [r1 H1] [r2 H2]. assert (E := Hinj _ _ _ H1 H2). rewrite <- !app_assoc in E. by apply app_inv_head in E as [= -> _].
Qed.

Lemma under_parent pi p i : N !! pi = Some p -> ~ under N (pi ++ [i]) p.
Proof.
  intros Hp [rest H]. assert (E := Hinj _ _ _ Hp H). apply (f_equal length) in E. rewrite !length_app in E. cbn in E. lia.
Qed.

(** The entries below [j] of the page [p], at [pi], have been dealt with. *)
Section loop.
Context (s : kst) (l : list Z) (pi : list Z) (p : Z) (Hp : N !! pi = Some p) (T : subtree s l N pi).

Record partway (j : Z) (s' : kst) (l' : list Z) : Prop := {
  pw_frame : vm_frame s s';
  pw_ready : ready s' l';
  pw_list : forall q, q ∈ l' <-> q ∈ l \/ exists i, 0 <= i < j /\ under N (pi ++ [i]) q;
  pw_mem : forall x, (forall i q, 0 <= i < j -> under N (pi ++ [i]) q -> ~ in_page q x) -> ~ p <= x < p + 8 * j ->
    k_mem s' x = k_mem s x
}.

Lemma partway_0 : partway 0 s l.
Proof.
  split; [apply vm_frame_refl|apply T| |done]. intros q. split; [by left|]. intros [?|(i & ? & _)]; [done|lia].
Qed.

Lemma page_at : page_ok (k_end s) p /\ p ∉ l.
Proof. apply (sub_page _ _ _ _ T). by apply under_self. Qed.

Lemma page_under q : under N pi q -> aligned q.
Proof. intros Hq. apply (sub_page _ _ _ _ T q Hq). Qed.

(** The entries from [j] on, and the pages below them, are as they were. *)
Lemma partway_entry j s' l' i : partway j s' l' -> 0 <= j <= i -> i < 512 ->
  ld64 (k_mem s') (p + 8 * i) = ld64 (k_mem s) (p + 8 * i).
Proof.
  intros P Hj Hi. apply (ldn_ext 8). intros x Hx. apply (pw_mem _ _ _ P); [|lia]. intros k q Hk Hq Hin.
  apply (under_parent pi p k Hp). replace p with q; [done|].
  eapply in_page_apart; [by eapply page_under, under_child|apply page_at|done|]. unfold in_page, PGSIZE. lia.
Qed.

Lemma partway_below j s' l' q x : partway j s' l' -> 0 <= j < 512 -> under N (pi ++ [j]) q -> in_page q x ->
  k_mem s' x = k_mem s x.
Proof.
  intros P Hj Hq Hin. assert (Ha : aligned q) by by eapply page_under, under_child. apply (pw_mem _ _ _ P).
  - intros i r Hi Hr Hin'. assert (r = q) as -> by (eapply in_page_apart; [by eapply page_under, under_child|done..]).
    assert (i = j) by by eapply under_apart. lia.
  - intros Hx. apply (under_parent pi p j Hp). replace p with q; [done|].
    eapply in_page_apart; [done|apply page_at|done|]. unfold in_page, PGSIZE. lia.
Qed.

Lemma partway_child j s' l' : partway j s' l' -> 0 <= j < 512 -> subtree s' l' N (pi ++ [j]).
Proof.
  intros P Hj. split; [apply P| |].
  - intros q Hq. rewrite (vm_frame_end _ _ (pw_frame _ _ _ P)), (pw_list _ _ _ P).
    destruct (sub_page _ _ _ _ T q (under_child _ _ _ Hq)) as [? ?]. split; [done|]. intros [?|(i & Hi & Hu)]; [done|].
    assert (i = j) by by eapply under_apart. lia.
  - intros rest c i Hc Hi. assert (E := sub_entry _ _ _ _ T (j :: rest) c i). rewrite <- app_assoc in Hc |- *. specialize (E Hc Hi).
    replace (ld64 (k_mem s') (c + 8 * i)) with (ld64 (k_mem s) (c + 8 * i)); [done|].
    symmetry. apply (ldn_ext 8). intros x Hx. apply (partway_below j s' l' c x); [done..| |].
    + exists rest. by rewrite <- app_assoc.
    + unfold in_page, PGSIZE. lia.
Qed.

Lemma partway_skip j s' l' : partway j s' l' -> 0 <= j -> N !! (pi ++ [j]) = None -> partway (j + 1) s' l'.
Proof.
  intros [F R L M] Hj Hn. split; [done..| |].
  - intros q. rewrite L. split; [naive_solver lia|]. intros [?|(i & Hi & Hu)]; [by left|right]. exists i. split; [|done].
    destruct (decide (i = j)) as [->|]; [|lia]. apply under_node in Hu as [c Hc]. congruence.
  - intros x Hx Hr. apply M; [|lia]. intros i q Hi. apply Hx. lia.
Qed.

Lemma partway_next j s' l' s'' l'' :
  partway j s' l' -> 0 <= j < 512 -> freed s' l' (under N (pi ++ [j])) s'' l'' ->
  partway (j + 1) (set_k_mem (st64 (k_mem s'') (p + 8 * j) 0) s'') l''.
Proof.
  intros [F R L M] Hj [F2 [R1 R2 R3] L2 M2]. destruct page_at as [Hok Hpl].
  assert (Hl'' : forall q, q ∈ l'' <-> q ∈ l \/ exists i, 0 <= i < j + 1 /\ under N (pi ++ [i]) q).
  { intros q. rewrite L2, L. split; [naive_solver lia|]. intros [?|(i & Hi & Hu)]; [tauto|].
    destruct (decide (i = j)) as [->|]; [tauto|]. left. right. exists i. split; [lia|done]. }
  split; [| |done|].
  - eapply vm_frame_trans; [done|]. eapply vm_frame_trans; [done|apply vm_frame_mem].
  - split; [done..|]. apply kmem_wf_mem; [done|]. intros q Hq. apply ld64_st64_ne.
    assert (p <> q). { intros <-. apply Hl'' in Hq as [?|(i & _ & Hu)]; [done|]. by apply (under_parent pi p i Hp). }
    destruct R3 as [_ _ _ Hall]. rewrite Forall_forall in Hall.
    destruct (entry_outside p q j (proj1 Hok) (proj1 (Hall q Hq))); [done|lia|unfold PGSIZE in *; lia..].
  - intros x Hx Hr. cbn [k_mem set_k_mem].
    transitivity (k_mem s'' x); [apply (stn_frame 8); cbn; lia|]. rewrite M2, M; [done|..|lia|].
    + intros i q Hi. apply Hx. lia.
    + intros q. apply Hx. lia.
Qed.

End loop.

(** One turn of the loop over the entries. *)
Definition free_entry (level : nat) (p i : Z) : KM unit :=
  pte ← rd64 (p + 8 * i);
  if has pte PTE_V && negb (has pte (Z.lor (Z.lor PTE_R PTE_W) PTE_X)) then
    match level with
    | O => hang
    | S level => freewalk level (PTE2PA pte);; wr64 (p + 8 * i) 0
    end
  else if has pte PTE_V then panic "freewalk: leaf" else mret tt.

Lemma freewalk_eq level p : freewalk level p = (for_each (seq 0 512) (fun i => free_entry level p (Z.of_nat i));; kfree p).
Proof. by destruct level. Qed.

Lemma wp_kfree_ready q s l Q :
  ready s l -> page_ok (k_end s) q -> q ∉ l -> (forall s' l', freed s l (eq q) s' l' -> Q tt s') -> wp (kfree q) Q s.
Proof.
  intros [R1 R2 R3] Hq Hl HQ. eapply wp_mono; [exact (wp_kfree_list s q l R1 R2 R3 Hq Hl)|]. cbv beta.
  intros [] s1 (Hf%kmem_vm_frame & Hk & Ho). apply (HQ s1 (q :: l)). split; [done| | |].
  - split; [by eapply vm_frame_wf|by eapply vm_frame_lock|done].
  - intros r. rewrite elem_of_cons. naive_solver.
  - intros x Hx. apply Ho. by apply Hx.
Qed.

Lemma wp_free_entry level j s l pi p s' l' Q :
  N !! pi = Some p -> subtree s l N pi -> partway s l pi p j s' l' -> 0 <= j < 512 -> (length pi + level = 2)%nat ->
  (forall level' c, level = S level' -> N !! (pi ++ [j]) = Some c -> forall s1 l1 Q', subtree s1 l1 N (pi ++ [j]) ->
     (forall s2 l2, freed s1 l1 (under N (pi ++ [j])) s2 l2 -> Q' tt s2) -> wp (freewalk level' c) Q' s1) ->
  (forall s2 l2, partway s l pi p (j + 1) s2 l2 -> Q tt s2) ->
  wp (free_entry level p j) Q s'.
Proof.
  intros Hp T P Hj Hlev IH HQ. unfold free_entry. apply wp_bind, wp_gets.
  assert (E := sub_entry _ _ _ _ T [] p j). rewrite app_nil_r in E. specialize (E Hp Hj). cbn [app] in E.
  rewrite (partway_entry s l pi p Hp T j s' l' j P) by lia.
  destruct (N !! (pi ++ [j])) as [c|] eqn:Hc; rewrite E.
  - assert (Hok : page_ok (k_end s) c) by (eapply (sub_page _ _ _ _ T), under_child, under_self, Hc).
    destruct (ptr_decode _ (kmem_end _ _ (rd_free _ _ (sub_ready _ _ _ _ T))) c Hok) as [-> ->].
    rewrite has_mk_pte by done. change (true && negb (has PTE_V _)) with true. cbv iota.
    destruct level as [|level]; [apply Hdepth in Hc; rewrite length_app in Hc; cbn in Hc; lia|].
    apply wp_bind. eapply (IH level c); [done..|by eapply partway_child|]. intros s2 l2 F2. apply wp_modify.
    eapply HQ, partway_next; done.
  - cbn [andb]. apply wp_ret. eapply HQ, partway_skip; done || lia.
Qed.

(** The whole loop, and the page itself. *)
Lemma wp_freewalk_step level pi p s l Q :
  N !! pi = Some p -> subtree s l N pi -> (length pi + level = 2)%nat ->
  (forall level' j c, level = S level' -> N !! (pi ++ [j]) = Some c -> forall s1 l1 Q', subtree s1 l1 N (pi ++ [j]) ->
     (forall s2 l2, freed s1 l1 (under N (pi ++ [j])) s2 l2 -> Q' tt s2) -> wp (freewalk level' c) Q' s1) ->
  (forall s' l', freed s l (under N pi) s' l' -> Q tt s') -> wp (freewalk level p) Q s.
Proof.
  intros Hp T Hlev IH HQ. rewrite freewalk_eq. apply wp_bind.
  apply (wp_for_each (fun pre s' => exists l', partway s l pi p (Z.of_nat (length pre)) s' l')).
  - exists l. by apply partway_0.
  - intros pre i post s' (-> & Hi & _)%seq_split_lt [l' P]. rewrite length_seq in P.
    eapply wp_free_entry; [done..|lia|done|intros level' c -> Hc; by eapply IH|].
    intros s2 l2 P2. exists l2. rewrite length_app, length_seq. cbn [length].
    by replace (Z.of_nat (i + 1)) with (Z.of_nat i + 1) by lia.
  - intros s' [l' [F R L M]]. rewrite length_seq in *. destruct (page_at s l pi p Hp T) as [Hok Hpl].
    eapply wp_kfree_ready; [done| | |].
    + by rewrite (vm_frame_end _ _ F).
    + rewrite L. intros [?|(i & _ & Hu)]; [done|]. by apply (under_parent pi p i Hp).
    + intros s2 l2 [F2 R2 L2 M2]. apply (HQ s2 l2). split; [by eapply vm_frame_trans|done| |].
      * intros q. rewrite L2, L, (under_cases pi p q Hp). change (Z.of_nat 512) with 512. naive_solver.
      * intros x Hx. rewrite M2, M; [done|..].
        -- intros i q _ Hq. by eapply Hx, under_child.
        -- specialize (Hx p (under_self _ _ Hp)). unfold in_page, PGSIZE in Hx. lia.
        -- intros q <-. by apply Hx, under_self.
Qed.

(** [freewalk] ends, at every level, and frees each page of the tree. *)
Lemma wp_freewalk level pi p s l Q :
  N !! pi = Some p -> subtree s l N pi -> (length pi + level = 2)%nat ->
  (forall s' l', freed s l (under N pi) s' l' -> Q tt s') -> wp (freewalk level p) Q s.
Proof.
  revert pi p s l Q. induction level as [|level IH]; intros pi p s l Q Hp T Hlev HQ;
    (eapply wp_freewalk_step; [done..| |done]); intros level' j c [= <-] Hc s1 l1 Q' T' HQ'.
  eapply IH; [done..| |done]. rewrite length_app. cbn. lia.
Qed.

End walk.

(** ** The whole address space *)

(** Every entry of a leaf page table translates some virtual page. *)
Lemma vpage_of a b i : 0 <= a < 256 -> 0 <= b < 512 -> 0 <= i < 512 ->
  exists va, vpage va /\ path va = [a; b] /\ PX 0 va = i.
Proof.
  intros Ha Hb Hi. exists (a * 2 ^ 30 + b * 2 ^ 21 + i * 2 ^ 12).
  unfold vpage, aligned, path, PGSIZE, MAXVA. change (Z.shiftl 1 _) with (2 ^ 38). rewrite !PX_div by lia.
  change (2 ^ (12 + 9 * 2)) with (2 ^ 30). change (2 ^ (12 + 9 * 1)) with (2 ^ 21). change (2 ^ (12 + 9 * 0)) with (2 ^ 12).
  change (2 ^ 30) with 1073741824. change (2 ^ 21) with 2097152. change (2 ^ 12) with 4096.
  split_and!; [Z.div_mod_to_equations; lia|lia|lia| |Z.div_mod_to_equations; lia].
  apply (f_equal2 cons); [Z.div_mod_to_equations; lia|]. apply (f_equal2 cons); [Z.div_mod_to_equations; lia|done].
Qed.

(** A page table that maps nothing any more. *)
Lemma vm_inv_subtree s l root N :
  vm_inv s l root N -> (forall va, vpage va -> leaf (k_mem s) root va = None) -> subtree s l N [].
Proof.
  intros I Hnone. destruct (I) as [Iy Ik If It]. split; [by split| |].
  - intros q [rest Hq]. by destruct (pt_page It Hq) as (? & ? & _).
  - intros rest p i Hp Hi. cbn [app] in *. destruct (decide (length rest < 2)%nat) as [Hlen|Hlen]; [by apply (pt_entry It)|].
    destruct (N !! (rest ++ [i])) as [q|] eqn:Hq; [apply (pt_page It) in Hq as (_ & _ & Hq); rewrite length_app in Hq; cbn in Hq; lia|].
    assert (Hd := pt_page It Hp). destruct rest as [|a [|b [|]]]; cbn in Hlen, Hd; try lia. clear Hlen Hd.
    destruct (pt_parent It (pi := [a]) Hp) as [[p1 Hp1] [Hb _]], (pt_parent It (pi := []) Hp1) as [_ [Ha Htop]].
    specialize (Htop eq_refl). destruct (vpage_of a b i) as (va & Hva & Hpath & <-); [lia|done..|].
    specialize (Hnone va Hva). rewrite (leaf_tree _ _ _ _ _ I), Hpath, Hp in Hnone. cbn [mbind option_bind] in Hnone.
    unfold valid_pte in Hnone. by destruct (has _ PTE_V).
Qed.

Section space.
Context (s : kst) (l : list Z) (root : Z) (N : tree) (sz : Z).

(** What an address space holds: its tables and its user pages. *)
Definition held (q : Z) : Prop := tree_page N q \/ pages_of (k_mem s) root 0 sz q.

Context (I : vm_inv s l root N) (Hown : owned (k_end s) l (k_mem s) root N 0 sz) (Hsz : 0 <= sz <= MAXVA).
Context (Hrest : forall va, vpage va -> sz <= va -> leaf (k_mem s) root va = None).

(** The second half of [uvmfree]. *)
Lemma wp_freewalk_unmapped b s' l' Q : sz <= b -> unmapped s l root N 0 b s' l' ->
  (forall s2 l2, freed s l held s2 l2 -> Q tt s2) -> wp (freewalk 2 root) Q s'.
Proof.
  intros Hb U HQ. assert (It := inv_tree _ _ _ _ (un_inv U)).
  assert (Hpages : forall q, pages_of (k_mem s) root 0 b q <-> pages_of (k_mem s) root 0 sz q).
  { intros q. rewrite (pages_of_split _ _ 0 sz b q) by lia. split; [|tauto]. intros [?|(va & v & Hv & Hr & Hl & _)]; [done|].
    rewrite Hrest in Hl by (done || lia). done. }
  eapply (wp_freewalk N) with (pi := []) (l := l').
  - intros pi pi' p. apply (pt_inj It).
  - intros pi i q Hq. by destruct (pt_parent It Hq) as [? [? _]].
  - intros pi p Hp. apply (pt_page It Hp).
  - apply (pt_root It).
  - eapply vm_inv_subtree; [apply (un_inv U)|]. intros va Hv. rewrite (un_leaf U va Hv). case_decide; [done|].
    apply Hrest; [done|]. destruct Hv. lia.
  - done.
  - intros s2 l2 [F2 R2 L2 M2]. apply (HQ s2 l2). split; [eapply vm_frame_trans; [apply (un_frame U)|done]|done| |].
    + intros q. rewrite L2, (un_list U), Hpages. unfold held, tree_page, under. cbn [app]. tauto.
    + intros x Hx. rewrite M2, (un_mem U); [done| | |].
      * intros q Hq. apply Hx. by left.
      * intros q Hq%Hpages. apply Hx. by right.
      * intros q Hq. apply Hx. by left.
Qed.

Lemma wp_uvmfree Q : (forall s' l', freed s l held s' l' -> Q tt s') -> wp (uvmfree root sz) Q s.
Proof.
  intros HQ. unfold uvmfree. apply wp_bind. apply wp_when; [intros H0%Z.ltb_lt|intros H0%Z.ltb_ge].
  - unfold MAXVA in Hsz. change (Z.shiftl 1 _) with (2 ^ 26 * 4096) in Hsz.
    destruct (PGROUNDUP_bounds sz) as [Hb Hu]; [lia..|]. set (b := PGROUNDUP sz) in *.
    assert (Hn : b = 0 + Z.of_nat (Z.to_nat (b / PGSIZE)) * PGSIZE /\ b <= 2 ^ 26 * 4096).
    { unfold aligned, PGSIZE in *. pose proof (Z.div_mod b 4096). pose proof (Z.div_pos b 4096). lia. }
    destruct Hn as [Hn Hmax]. rewrite <- (Z2Nat.id (b / PGSIZE)) by (apply Z.div_pos; [lia|done]).
    eapply wp_uvmunmap; [done| |done|done| |]; rewrite <- ?Hn; [|done|].
    + split.
      * intros va v Hv Hr Hl. destruct (decide (va < sz)); [|rewrite Hrest in Hl by (done || lia); done]. apply (own_page Hown va); done || lia.
      * intros va va' v v' Hv Hv' Hr Hr' Hl Hl'. destruct (decide (va < sz)); [|rewrite Hrest in Hl by (done || lia); done].
        destruct (decide (va' < sz)); [|rewrite Hrest in Hl' by (done || lia); done]. apply (own_inj Hown va va' v v'); done || lia.
    + intros s' l' U. eapply wp_freewalk_unmapped; [|done..]. lia.
  - eapply (wp_freewalk_unmapped 0 s l); [lia|by apply unmapped_nil|done].
Qed.

End space.

(** ** Properties *)

(** C22: [uvmfree], of an address space whose user pages below [sz] are its own and
    which maps nothing above, ends without a panic, and the free list then
    holds in addition exactly the user pages and the pages of the table; no
    other memory changed. *)
Theorem uvmfree_spec (s : kst) (l : list Z) (root : Z) (N : tree) (sz : Z)
    (I : vm_inv s l root N) (Hown : owned (k_end s) l (k_mem s) root N 0 sz) (Hsz : 0 <= sz <= MAXVA)
    (Hrest : forall va, vpage va -> sz <= va -> leaf (k_mem s) root va = None) :
  wp (uvmfree root sz) (fun _ s' => exists l', freed s l (held s root N sz) s' l') s.
Proof. eapply wp_uvmfree; [done..|]. intros s' l' H. by exists l'. Qed.
