(* ===== verification/Proc.v ===== *)
(** * Processes: sleeping, waking and killing ([proc.c])

    The process-table operations that need no memory management: [procinit],
    [allocpid], [sched], [yield], [sleep], [wakeup], [kkill], [setkilled],
    [killed], [reparent]. A context switch hands the machine to everything
    else that runs until this context is resumed: the class [World] says what
    state it finds then. *)

From stdpp Require Import base gmap strings numbers list.
From S2P Require Import Prelude State Spinlock.

(** What the rest of the machine does between a [swtch] away from a context
    and the [swtch] back to it ([k_nsw] tells successive switches apart). *)
Class World : Type := { resume : kst -> kst }.

(** ** The code *)

Definition procinit : KM unit :=
  initlock LPid "nextpid";;
  initlock LWait "wait_lock";;
  for_each (seq 0 NPROC) (fun i =>
    initlock (LProc i) "proc";;
    updp i (set_p_state UNUSED);;
    updp i (set_p_kstack (KSTACK i))).

Definition allocpid : KM Z :=
  acquire LPid;;
  pid ← gets k_nextpid;
  modify (fun s => set_k_nextpid (to_int (k_nextpid s + 1)) s);;
  release LPid;;
  mret pid.

Definition wakeup (c : option chan) : KM unit :=
  for_each (seq 0 NPROC) (fun i =>
    me ← myproc;
    when (negb (bool_decide (me = Some i)))
      (acquire (LProc i);;
       p ← getp i;
       when (bool_decide (p_state p = SLEEPING) && bool_decide (p_chan p = c))
         (updp i (set_p_state RUNNABLE));;
       release (LProc i))).

Definition kkill (pid : Z) : KM Z :=
  r ← for_find (seq 0 NPROC) (fun i =>
    acquire (LProc i);;
    p ← getp i;
    if p_pid p =? pid then
      updp i (set_p_killed true);;
      when (bool_decide (p_state p = SLEEPING)) (updp i (set_p_state RUNNABLE));;
      release (LProc i);;
      mret (Some 0)
    else
      release (LProc i);;
      mret None);
  mret (default (-1) r).

Definition setkilled (i : nat) : KM unit :=
  acquire (LProc i);;
  updp i (set_p_killed true);;
  release (LProc i).

Definition killed (i : nat) : KM bool :=
  acquire (LProc i);;
  p ← getp i;
  release (LProc i);;
  mret (p_killed p).

Definition reparent (p : nat) : KM unit :=
  for_each (seq 0 NPROC) (fun i =>
    pp ← getp i;
    when (bool_decide (p_parent pp = Some p))
      (ip ← gets k_initproc;
       updp i (set_p_parent ip);;
       wakeup (ChProc <$> ip))).

Section blocking.
Context {W : World}.

Definition swtch : KM unit := modify (fun s => resume (set_k_nsw (S (k_nsw s)) s)).

Definition sched : KM unit :=
  me ← myproc;
  p ← deref me;
  h ← holding (LProc p);
  if negb h then panic "sched p->lock" else
  c ← getcpu;
  if negb (c_noff c =? 1) then panic "sched locks" else
  pr ← getp p;
  if bool_decide (p_state pr = RUNNING) then panic "sched RUNNING" else
  i ← intr_get;
  if (i : bool) then panic "sched interruptible" else
  c ← getcpu;
  swtch;;
  updcpu (set_c_intena (c_intena c)).

Definition yield : KM unit :=
  me ← myproc;
  p ← deref me;
  acquire (LProc p);;
  updp p (set_p_state RUNNABLE);;
  sched;;
  release (LProc p).

Definition sleep (c : option chan) (lk : option lockid) : KM unit :=
  me ← myproc;
  p ← deref me;
  acquire (LProc p);;
  release_ptr lk;;
  updp p (set_p_chan c);;
  updp p (set_p_state SLEEPING);;
  sched;;
  updp p (set_p_chan None);;
  release (LProc p);;
  acquire_ptr lk.

End blocking.

(** ** Specifications *)

(** What [wakeup c], [kill] do to one process. *)
Definition wake (c : option chan) (p : proc) : proc :=
  if bool_decide (p_state p = SLEEPING) && bool_decide (p_chan p = c)
  then set_p_state RUNNABLE p else p.

Definition kill1 (p : proc) : proc :=
  let p := set_p_killed true p in
  if bool_decide (p_state p = SLEEPING) then set_p_state RUNNABLE p else p.

Definition wake_others (c : option chan) (me : option nat) (i : nat) (p : proc) : proc :=
  if bool_decide (me = Some i) then p else wake c p.

(** The process table's shape: [NPROC] entries, each with its lock free. *)
Definition table_ok (s : kst) : Prop := length (k_procs s) = NPROC.

Definition proc_locks_free (y : sync) : Prop :=
  forall i, (i < NPROC)%nat -> lock_free (LProc i) y.

Lemma touch_proc_locks_free y y' :
  touch y = touch y' -> proc_locks_free y -> proc_locks_free y'.
Proof. intros H Hf i Hi. eapply touch_lock_free; [done|]. by apply Hf. Qed.

Lemma proc_locks_free_acq l y :
  (forall i, l <> LProc i) -> proc_locks_free (acq l y) <-> proc_locks_free y.
Proof.
  intros Hl. split; intros H i Hi; specialize (H i Hi);
    by apply (lock_free_acq_ne l (LProc i)) || apply (lock_free_acq_ne l (LProc i)) in H.
Qed.

Lemma touch_table s : table_ok (upd_sync touch s) <-> table_ok s.
Proof. done. Qed.

(** A critical section that updates one entry, from a state whose locks are
    those of [s] up to the dead [intena] slot. *)
Lemma wp_entry {A} i (f : proc -> proc) (a : A) (k : KM A) Q s :
  sync_wf (k_sync s) -> lock_free (LProc i) (k_sync s) ->
  (forall t, k_procs t = k_procs s ->
     wp (release (LProc i)) (fun _ => Q a) (upd_procs (alter f i) t) -> wp k Q t) ->
  Q a (upd_sync touch (upd_procs (alter f i) s)) ->
  wp (acquire (LProc i);; k) Q s.
Proof.
  intros Hwf Hl Hm HQ. apply wp_bind, wp_acquire; [done..|].
  apply Hm; [done|].
  eapply (wp_release_acq (LProc i) (k_sync s)); [done..|].
  same_state HQ. unfold upd_sync, upd_procs. kst_eq.
Qed.

Lemma upd_procs_id (f : proc -> proc) i s p :
  k_procs s !! i = Some p -> f p = p -> upd_procs (alter f i) s = s.
Proof.
  intros Hp Hf. unfold upd_procs. rewrite (list_alter_ext f id _ (k_procs s) i); [|naive_solver|done].
  rewrite list_alter_id by done. by destruct s.
Qed.

Lemma alter_ext_at (f g : proc -> proc) i s p :
  k_procs s !! i = Some p -> f p = g p -> upd_procs (alter f i) s = upd_procs (alter g i) s.
Proof. intros Hp Hf. unfold upd_procs. f_equal. apply list_alter_ext; naive_solver. Qed.

Lemma wp_wakeup c Q s :
  sync_wf (k_sync s) -> table_ok s -> proc_locks_free (k_sync s) ->
  Q tt (upd_sync touch (upd_procs (imap (wake_others c (running (k_sync s)))) s)) ->
  wp (wakeup c) Q s.
Proof.
  intros Hwf Hlen Hfree HQ. eapply wp_scan; [done| |exact HQ].
  intros i t Hi Ht Hlt. symmetry in Ht.
  assert (Hwt := touch_sync_wf _ _ Ht Hwf).
  assert (Hft := touch_lock_free (LProc i) _ _ Ht (Hfree i Hi)).
  destruct (lookup_lt_is_Some_2 (k_procs t) i) as [p Hp]; [by rewrite Hlt|].
  apply wp_bind, wp_myproc'; [done|].
  rewrite (touch_running _ _ Ht Hwf). unfold wake_others.
  case_bool_decide as Hme; cbn [negb when].
  - apply wp_ret. rewrite (upd_procs_id _ i t p Hp); done.
  - apply (wp_entry i (wake c) tt); [by apply sync_wf_touch|done| |].
    + intros u Hu Hr. apply wp_bind. eapply wp_getp; [by rewrite Hu|].
      assert (Hlu : (i < length (k_procs u))%nat) by (by rewrite Hu; cbn; rewrite Hlt).
      apply wp_bind, wp_when; intros E.
      * apply wp_updp; [done|]. same_state Hr. apply (alter_ext_at _ _ _ _ p); [by rewrite Hu|].
        unfold wake. by rewrite E.
      * same_state Hr. apply (upd_procs_id _ _ _ p); [by rewrite Hu|]. unfold wake. by rewrite E.
    + unfold upd_sync, upd_procs. kst_eq. by rewrite touch_idem.
Qed.

(** The first process with a given pid, as the table scan finds it. *)
Definition find_pid (pid : Z) (l : list proc) : option nat :=
  fst <$> list_find (fun p => p_pid p = pid) l.

Lemma find_pid_Some pid l i p :
  l !! i = Some p -> p_pid p = pid ->
  (forall j q, (j < i)%nat -> l !! j = Some q -> p_pid q <> pid) ->
  find_pid pid l = Some i.
Proof.
  intros Hp Hpid Hj. unfold find_pid.
  assert (E : list_find (fun p => p_pid p = pid) l = Some (i, p)).
  { apply list_find_Some. split_and!; [done..|]. intros j q Hq Hlt. by apply (Hj j). }
  by rewrite E.
Qed.

Lemma find_pid_None pid l :
  (forall j q, l !! j = Some q -> p_pid q <> pid) -> find_pid pid l = None.
Proof.
  intros Hj. unfold find_pid.
  assert (E : list_find (fun p => p_pid p = pid) l = None).
  { apply list_find_None, Forall_lookup. done. }
  by rewrite E.
Qed.

Lemma wp_kkill pid Q s :
  sync_wf (k_sync s) -> table_ok s -> proc_locks_free (k_sync s) ->
  match find_pid pid (k_procs s) with
  | Some i => Q 0 (upd_sync touch (upd_procs (alter kill1 i) s))
  | None => Q (-1) (upd_sync touch s)
  end -> wp (kkill pid) Q s.
Proof.
  intros Hwf Hlen Hfree HQ. unfold kkill. apply wp_bind.
  apply (wp_for_find (fun pre t => t = set_k_sync (k_sync t) s /\
    touch (k_sync t) = touch (k_sync s) /\ (pre <> [] -> k_sync t = touch (k_sync s)) /\
    forall j q, (j < length pre)%nat -> k_procs s !! j = Some q -> p_pid q <> pid)).
  - split_and!; [by destruct s|done..|cbn; lia].
  - intros pre i post t Hsplit (Ht & Hy & _ & Hpre).
    apply seq_split_lt in Hsplit as (-> & Hi & _). rewrite length_seq in Hpre.
    destruct (lookup_lt_is_Some_2 (k_procs s) i) as [p Hp]; [by rewrite Hlen|].
    assert (Hps : k_procs t = k_procs s) by (by rewrite Ht).
    symmetry in Hy.
    apply (wp_entry i (if p_pid p =? pid then kill1 else id)
             (if p_pid p =? pid then Some 0 else None));
      [by eapply touch_sync_wf|eapply touch_lock_free; [done|by apply Hfree]| |].
    + intros u Hu Hr. apply wp_bind. eapply wp_getp; [by rewrite Hu, Hps|].
      assert (Hpu : k_procs u !! i = Some p) by (by rewrite Hu, Hps).
      destruct (Z.eqb_spec (p_pid p) pid) as [E|E].
      * apply wp_bind, wp_updp; [by eapply lookup_lt_Some|].
        apply wp_bind, wp_when; intros Es.
        -- apply wp_updp; [cbn; rewrite length_alter; by eapply lookup_lt_Some|].
           apply wp_bind.
           same_state Hr. unfold upd_procs. cbn. rewrite list_alter_alter_eq.
           unfold set_k_procs; cbn. f_equal. apply list_alter_ext; [|done].
           intros q Hq. simplify_eq. unfold kill1, compose. cbn. by rewrite Es.
        -- apply wp_bind.
           same_state Hr. apply (alter_ext_at _ _ _ _ p); [done|].
           unfold kill1. cbn. by rewrite Es.
      * apply wp_bind.
        same_state Hr. by apply (upd_procs_id _ _ _ p).
    + destruct (Z.eqb_spec (p_pid p) pid) as [E|E].
      * apply wp_ret. cbn. erewrite find_pid_Some in HQ by done.
        same_state HQ. rewrite Ht. unfold upd_sync, upd_procs. kst_eq. cbn in Hy. by rewrite Hy.
      * rewrite (upd_procs_id _ _ _ p); [|by rewrite Hps|done]. cbn. split_and!.
        -- rewrite Ht. unfold upd_sync. kst_eq.
        -- by rewrite touch_idem.
        -- done.
        -- rewrite length_app, length_seq. intros j q Hj Hq. cbn in Hj.
           destruct (decide (j = i)) as [->|]; [by simplify_eq|]. apply (Hpre j); [lia|done].
  - intros t (Ht & _ & Hy & Hpre). apply wp_ret. cbn.
    rewrite find_pid_None in HQ.
    + same_state HQ. rewrite Ht, Hy by done. done.
    + intros j q Hq. apply (Hpre j); [|done]. rewrite length_seq, <- Hlen.
      by eapply lookup_lt_Some.
Qed.

Lemma wp_killed i q Q s :
  sync_wf (k_sync s) -> lock_free (LProc i) (k_sync s) -> k_procs s !! i = Some q ->
  Q (p_killed q) (upd_sync touch s) -> wp (killed i) Q s.
Proof.
  intros Hwf Hf Hq HQ. unfold killed. apply wp_bind, wp_acquire; [done..|].
  apply wp_bind. eapply wp_getp; [done|]. apply wp_bind.
  eapply (wp_release_acq (LProc i) (k_sync s)); [done..|]. apply wp_ret. exact HQ.
Qed.

(** ** Blocking *)

(** The executing hart runs process [p] outside any critical section. *)
Definition on_cpu (p : nat) (y : sync) : Prop :=
  exists c, cur_cpu y = Some c /\ cpu_wf c /\ c_noff c = 0 /\ c_proc c = Some p /\ few_locks y.

(** It is inside exactly one critical section, that of [p]'s own lock: the
    state in which [p] leaves the CPU, and in which it is resumed. *)
Definition parked (p : nat) (y : sync) : Prop :=
  exists y0, y = acq (LProc p) y0 /\ on_cpu p y0 /\ lock_free (LProc p) y0.

Lemma on_cpu_wf p y : on_cpu p y -> sync_wf y.
Proof. intros (c & ? & ? & Hn & _ & ?). exists c. split_and!; [done..|]. split; [done|]. lia. Qed.

Lemma on_cpu_running p y : on_cpu p y -> running y = Some p.
Proof. intros (c & Hc & _ & _ & Hp & _). unfold running. by rewrite Hc. Qed.

Lemma cur_acq l y : cur_cpu (acq l y) = push_cpu <$> cur_cpu y.
Proof. change (cur_cpu (acq l y)) with (cur_cpu (upd_cpu push_cpu y)). apply cur_upd_cpu. Qed.

Lemma noff_on_cpu p l y : on_cpu p y -> noff (acq l y) = 1.
Proof.
  intros H. rewrite noff_acq by (by eapply on_cpu_wf).
  destruct H as (c & Hc & _ & Hn & _). unfold noff. rewrite Hc. cbn. lia.
Qed.

(** [myproc] inside a critical section changes nothing. *)
Lemma wp_myproc_in l y0 Q s :
  sync_wf y0 -> k_sync s = acq l y0 -> lock_free l y0 -> Q (running y0) s -> wp myproc Q s.
Proof.
  intros Hwf Hs Hf HQ. apply wp_myproc'; [rewrite Hs; by apply sync_wf_acq|].
  rewrite Hs, running_acq. same_state HQ. unfold upd_sync. rewrite Hs, touch_acq by done.
  rewrite <- Hs. by destruct s.
Qed.

(** The value of [intena] that [sched] carries across the switch. *)
Definition intena (y : sync) : bool := default false (c_intena <$> cur_cpu y).

Section blocking_specs.
Context {W : World}.

(** The state a context finds when a switch made in [s] comes back to it. *)
Definition resumed (s : kst) : kst := resume (set_k_nsw (S (k_nsw s)) s).

Lemma wp_sched p pr Q s :
  parked p (k_sync s) -> k_procs s !! p = Some pr -> p_state pr <> RUNNING ->
  sync_wf (k_sync (resumed s)) ->
  Q tt (upd_sync (upd_cpu (set_c_intena (intena (k_sync s)))) (resumed s)) ->
  wp sched Q s.
Proof.
  intros (y0 & Hs & Hon & Hfree) Hp Hst Hwf HQ. unfold sched.
  assert (Hw0 := on_cpu_wf _ _ Hon).
  apply wp_bind. eapply wp_myproc_in; [done..|]. rewrite (on_cpu_running p) by done.
  apply wp_bind. eapply wp_deref; [done|].
  destruct (lock_held_acq _ _ Hfree) as [name Hl]. rewrite <- Hs in Hl.
  apply wp_bind. eapply wp_holding; [done|]. cbn [sl_locked sl_cpu].
  rewrite Hs, y_hart_acq, bool_decide_true by done. cbn [andb negb].
  destruct Hon as (c & Hc & Hcw & Hn & Hcp & _).
  assert (Hcur : cur_cpu (k_sync s) = Some (push_cpu c)) by (by rewrite Hs, cur_acq, Hc).
  apply wp_bind. eapply wp_getcpu; [done|]. cbn [push_cpu c_noff]. rewrite Hn. cbn [Z.add Z.eqb].
  apply wp_bind. eapply wp_getp; [done|]. rewrite bool_decide_false by done.
  apply wp_bind. eapply wp_intr_get; [done|]. cbn [push_cpu c_sie].
  apply wp_bind. eapply wp_getcpu; [done|].
  apply wp_bind. apply wp_modify. destruct Hwf as (c' & Hc' & _).
  apply wp_updcpu; [by eexists|]. same_state HQ. unfold intena. by rewrite Hcur.
Qed.

(** What follows the switch: [intena] is restored and [p->lock] released. *)
Lemma release_resumed p y1 b Q s :
  k_sync s = upd_cpu (set_c_intena b) (acq (LProc p) y1) -> on_cpu p y1 ->
  lock_free (LProc p) y1 ->
  (forall y', y_locks y' = y_locks y1 -> y_hart y' = y_hart y1 -> on_cpu p y' ->
     (forall c, cur_cpu y' = Some c -> c_sie c = b) ->
     Q tt (set_k_sync y' s)) ->
  wp (release (LProc p)) Q s.
Proof.
  intros Hs (c & Hc & Hw & Hn & Hp & Hfew) Hfree HQ.
  assert (Hcur : cur_cpu (k_sync s) = Some (set_c_intena b (push_cpu c))).
  { by rewrite Hs, cur_upd_cpu, cur_acq, Hc. }
  destruct (lock_held_acq _ _ Hfree) as [name Hl].
  assert (Hn1 : to_int (c_noff c + 1) = 1) by by rewrite Hn.
  eapply wp_release; [done|split; cbn; [lia|done]|cbn; lia|by exists name; rewrite Hs|].
  assert (Hlk : y_locks (set_lock (LProc p) false None
              (set_lock (LProc p) true (Some (y_hart y1)) y1)) = y_locks y1).
  { destruct Hfree as [nm Hf]. by rewrite set_lock_twice, (set_lock_id _ _ _ _ nm). }
  apply HQ; rewrite Hs.
  - exact Hlk.
  - done.
  - unfold rel. eexists. rewrite cur_upd_cpu. split.
    { change (cur_cpu (set_lock ?l ?b ?o ?y)) with (cur_cpu y).
      by rewrite cur_upd_cpu, cur_acq, Hc. }
    unfold pop_cpu, cpu_wf. cbn. rewrite Hn. cbn. split_and!; try (done || lia).
    unfold few_locks. change (Z.of_nat (size (y_locks (set_lock (LProc p) false None
      (set_lock (LProc p) true (Some (y_hart y1)) y1)))) < 2 ^ 30). by rewrite Hlk.
  - intros c'. unfold rel. rewrite cur_upd_cpu.
    change (cur_cpu (set_lock ?l ?b ?o ?y)) with (cur_cpu y).
    rewrite cur_upd_cpu, cur_acq, Hc. intros [= <-]. cbn. rewrite Hn. cbn. by destruct b.
Qed.

Definition asleep (c : option chan) (q : proc) : proc := set_p_state SLEEPING (set_p_chan c q).

(** The state in which [sleep c lk] leaves the CPU: [p] is asleep on [c],
    [p->lock] has been taken and [lk] dropped. *)
Definition sleep_point (p : nat) (c : option chan) (y0 : sync) (s : kst) : kst :=
  set_k_sync (acq (LProc p) y0) (upd_procs (alter (asleep c) p) s).

Lemma sleep_upto_switch (p : nat) (c : option chan) (l : lockid) (y0 : sync) Q (s : kst) :
  k_sync s = acq l y0 -> on_cpu p y0 -> lock_free l y0 -> lock_free (LProc p) y0 ->
  l <> LProc p -> (p < length (k_procs s))%nat ->
  wp (sched;; updp p (set_p_chan None);; release (LProc p);; acquire l) Q (sleep_point p c y0 s) ->
  wp (sleep c (Some l)) Q s.
Proof.
  intros Hs Hon Hl Hp Hne Hlen HQ. assert (Hw0 := on_cpu_wf _ _ Hon). unfold sleep.
  apply wp_bind. eapply wp_myproc_in; [done..|]. rewrite (on_cpu_running p) by done.
  apply wp_bind. eapply wp_deref; [done|].
  apply wp_bind. apply wp_acquire; [rewrite Hs; by apply sync_wf_acq| |].
  { rewrite Hs. by apply lock_free_acq_ne. }
  cbn [release_ptr acquire_ptr]. apply wp_bind.
  eapply (wp_release_outer l (LProc p) y0); [done..|cbn; by rewrite Hs|].
  apply wp_bind. apply wp_updp; [done|].
  apply wp_bind. apply wp_updp; [cbn; by rewrite length_alter|].
  same_state HQ. unfold sleep_point, upd_procs, upd_sync. cbn.
  rewrite list_alter_alter_eq by done. kst_eq.
Qed.

(** After the switch: the sleeper is on a CPU again with [p->lock] held. *)
Lemma sleep_after_switch p l y1 b Q s :
  k_sync s = upd_cpu (set_c_intena b) (acq (LProc p) y1) -> on_cpu p y1 ->
  lock_free (LProc p) y1 -> lock_free l y1 -> l <> LProc p ->
  (p < length (k_procs s))%nat ->
  (forall y', y_locks y' = y_locks y1 -> on_cpu p y' ->
     Q tt (set_k_sync (acq l y') (upd_procs (alter (set_p_chan None) p) s))) ->
  wp (updp p (set_p_chan None);; release (LProc p);; acquire l) Q s.
Proof.
  intros Hs Hon Hp Hl Hne Hlen HQ.
  apply wp_bind. apply wp_updp; [done|].
  apply wp_bind. eapply release_resumed; [done..|].
  intros y' Hlk _ Hon' _. apply wp_acquire; [by eapply on_cpu_wf| |].
  - destruct Hl as [nm Hl]. exists nm. cbn. by rewrite Hlk.
  - specialize (HQ y' Hlk Hon'). same_state HQ. unfold upd_sync, upd_procs. kst_eq.
Qed.

End blocking_specs.

(** ** Properties *)

(** [wakeup c] makes exactly the processes asleep on [c], the caller's own
    excepted, runnable; nothing else in the table changes, and every lock and
    the CPU end as they began. *)
Theorem wakeup_spec (c : option chan) (s : kst)
    (Hwf : sync_wf (k_sync s)) (Hlen : table_ok s) (Hfree : proc_locks_free (k_sync s)) :
  wakeup c s = Ok tt (upd_sync touch (upd_procs (imap (fun i p =>
    if bool_decide (p_state p = SLEEPING) && bool_decide (p_chan p = c)
       && negb (bool_decide (running (k_sync s) = Some i))
    then set_p_state RUNNABLE p else p)) s)).
Proof.
  apply wp_run, wp_wakeup; [done..|]. split; [done|]. unfold upd_procs. f_equal. f_equal.
  apply imap_ext. intros i p _. unfold wake_others, wake.
  case_bool_decide; cbn; [by rewrite andb_false_r|by rewrite andb_true_r].
Qed.

(** [kkill pid] marks the first process with that pid killed, makes it
    runnable when it sleeps and returns 0; without such a process it returns
    -1 and changes nothing. *)
Theorem kkill_spec (pid : Z) (s : kst)
    (Hwf : sync_wf (k_sync s)) (Hlen : table_ok s) (Hfree : proc_locks_free (k_sync s)) :
  kkill pid s =
    match find_pid pid (k_procs s) with
    | Some i => Ok 0 (upd_sync touch (upd_procs (alter kill1 i) s))
    | None => Ok (-1) (upd_sync touch s)
    end.
Proof. by case_match eqn:E; apply wp_run, wp_kkill; rewrite ?E. Qed.

(** C27: [sleep c lk], called by process [p] with [lk] held, leaves the CPU with
    [p] asleep on [c], [lk] free and only [p->lock] held, so that no
    [wakeup c] under [lk] can be missed; when it is resumed with [p->lock]
    held it returns with [lk] held again, [p->lock] free, [p->chan] cleared
    and the rest of the state as it was found on resumption. *)
Theorem sleep_spec {W : World} (p : nat) (c : option chan) (l : lockid) (y0 y1 : sync) (s : kst)
    (Hs : k_sync s = acq l y0) (Hon : on_cpu p y0) (Hl : lock_free l y0)
    (Hp : lock_free (LProc p) y0) (Hne : l <> LProc p) (Hlen : (p < length (k_procs s))%nat)
    (Hr : k_sync (resumed (sleep_point p c y0 s)) = acq (LProc p) y1) (Hon1 : on_cpu p y1)
    (Hl1 : lock_free l y1) (Hp1 : lock_free (LProc p) y1)
    (Hlen1 : (p < length (k_procs (resumed (sleep_point p c y0 s))))%nat) :
  lock_free l (k_sync (sleep_point p c y0 s)) /\
  lock_held (LProc p) (k_sync (sleep_point p c y0 s)) /\
  noff (k_sync (sleep_point p c y0 s)) = 1 /\
  wp (sleep c (Some l)) (fun _ s' => exists y',
        s' = set_k_sync (acq l y') (upd_procs (alter (set_p_chan None) p)
               (resumed (sleep_point p c y0 s))) /\
        y_locks y' = y_locks y1 /\ on_cpu p y') s.
Proof.
  split; [by apply lock_free_acq_ne|]. split; [by apply lock_held_acq|].
  split; [by eapply noff_on_cpu|].
  apply sleep_upto_switch with p y0; [done..|]. apply wp_bind.
  destruct (lookup_lt_is_Some_2 (k_procs s) p Hlen) as [pr Hpr].
  apply (wp_sched p (asleep c pr)); [by exists y0| |done| |].
  - cbn. by rewrite list_lookup_alter_eq, Hpr.
  - rewrite Hr. apply sync_wf_acq; [by eapply on_cpu_wf|done].
  - eapply sleep_after_switch; [cbn; by rewrite Hr|done..|].
    intros y' Hlk Hon'. exists y'. split_and!; [|done..].
    unfold upd_sync, upd_procs, set_k_sync, set_k_procs. done.
Qed.

(** [sleep] through a null lock pointer never returns: it faults in
    [release], with [p->lock] held and interrupts off. *)
Theorem sleep_null_lock_faults {W : World} (p : nat) (c : option chan) (s : kst)
    (Hwf : sync_wf (k_sync s)) (Hrun : running (k_sync s) = Some p)
    (Hp : lock_free (LProc p) (k_sync s)) :
  sleep c None s = Fault (upd_sync (acq (LProc p)) s).
Proof.
  unfold sleep. rewrite (bind_ok _ _ _ (Some p) (upd_sync touch s)).
  2: { apply wp_run, wp_myproc'; [done|]. by rewrite Hrun. }
  cbn [deref]. rewrite (bind_ok _ _ _ p (upd_sync touch s)) by done.
  rewrite (bind_ok _ _ _ tt (upd_sync (acq (LProc p)) s)); [done|].
  apply wp_run, wp_acquire; [by apply sync_wf_touch|done|]. split; [done|].
  unfold upd_sync. cbn. by rewrite acq_touch.
Qed.
