(* ===== verification/Sched.v ===== *)
(** * The energy-aware scheduler and the adaptive timer

    [scheduler()] of [proc.c]: three passes over the process table choose a
    process, its lock is kept across the switch, waiting children of
    [schedtest] age, and the timer interval stretches when the CPU idles. *)

From stdpp Require Import base gmap strings numbers list.
From S2P Require Import Prelude State Spinlock Strings Proc.

(** ** The code *)

Definition r_time : KM Z := gets k_time.
Definition w_stimecmp (t : Z) : KM unit := modify (set_k_stimecmp t).

(** [p->state == RUNNABLE && p->parent != 0 &&
    strncmp(p->parent->name, "schedtest", 16) == 0] *)
Definition runnable_child (i : nat) : KM bool :=
  p ← getp i;
  if negb (bool_decide (p_state p = RUNNABLE)) then mret false else
  match p_parent p with
  | None => mret false
  | Some pp => q ← getp pp; mret (strncmp (arr (p_name q)) (lit "schedtest") 16 =? 0)
  end.

(** ... [&& p->energy_budget > LOW_ENERGY_THRESHOLD] *)
Definition energetic_child (i : nat) : KM bool :=
  b ← runnable_child i;
  if (b : bool) then p ← getp i; mret (LOW_ENERGY_THRESHOLD <? p_energy_budget p)
  else mret false.

(** The first two passes: the lowest pid that satisfies the condition, its
    lock kept. *)
Definition lowest_pid_pass (cond : nat -> KM bool) : KM (option nat) :=
  for_fold (seq 0 NPROC) None (fun i chosen =>
    acquire (LProc i);;
    ok ← cond i;
    if (ok : bool) then
      better ← match chosen with
               | None => mret true
               | Some c => p ← getp i; q ← getp c; mret (p_pid p <? p_pid q)
               end;
      if (better : bool) then
        match chosen with Some c => release (LProc c) | None => mret tt end;;
        mret (Some i)
      else release (LProc i);; mret chosen
    else release (LProc i);; mret chosen).

(** The third pass: the first RUNNABLE process. *)
Definition first_runnable_pass : KM (option nat) :=
  for_find (seq 0 NPROC) (fun i =>
    acquire (LProc i);;
    p ← getp i;
    if bool_decide (p_state p = RUNNABLE) then mret (Some i)
    else release (LProc i);; mret None).

Definition choose : KM (option nat) :=
  chosen ← lowest_pid_pass energetic_child;
  chosen ← match chosen with Some c => mret (Some c) | None => lowest_pid_pass runnable_child end;
  match chosen with Some c => mret (Some c) | None => first_runnable_pass end.

Definition age_waiting (c : nat) : KM unit :=
  for_each (seq 0 NPROC) (fun i =>
    when (negb (i =? c)%nat)
      (acquire (LProc i);;
       b ← runnable_child i;
       when b (updp i (fun p => set_p_waiting_tick (to_int (p_waiting_tick p + 1)) p));;
       release (LProc i))).

(** [if(test) { timer_interval = ti; w_stimecmp(r_time() + timer_interval); }] *)
Definition set_timer (test : Z -> bool) (ti : Z) : KM unit :=
  old ← gets k_timer_interval;
  when (test old)
    (modify (set_k_timer_interval ti);;
     t ← r_time;
     cur ← gets k_timer_interval;
     w_stimecmp (wrap64 (t + cur))).

Definition busy_timer : KM unit := set_timer (fun ti => negb (ti =? 1000000)) 1000000.
Definition idle_timer : KM unit := set_timer (fun ti => ti =? 1000000) 10000000.

Definition prepare_switch (c : nat) : KM unit :=
  age_waiting c;;
  busy_timer;;
  updp c (set_p_state RUNNING);;
  updp c (set_p_last_scheduled_tick 0);;
  updcpu (set_c_proc (Some c)).

Section scheduler.
Context {W : World}.

(** One round of [for(;;)]; [wfi] waits and changes nothing. *)
Definition scheduler_round : KM unit :=
  intr_on;;
  chosen ← choose;
  match chosen with
  | Some c =>
      prepare_switch c;;
      swtch;;
      updcpu (set_c_proc None);;
      release (LProc c)
  | None => idle_timer
  end.

(** [scheduler()] for its first [n] rounds; it never returns. *)
Definition scheduler (n : nat) : KM unit :=
  updcpu (set_c_proc None);;
  for_each (seq 0 n) (fun _ => scheduler_round).

End scheduler.

(** ** The policy *)

Definition schedtest_name : list Z := bytes_of "schedtest".

Definition is_schedtest (q : proc) : bool :=
  bool_decide (cstr 16 (arr (p_name q)) = schedtest_name).

(** A RUNNABLE process whose parent is called "schedtest". *)
Definition sched_child (tbl : list proc) (p : proc) : bool :=
  bool_decide (p_state p = RUNNABLE) &&
  match p_parent p ≫= (fun j => tbl !! j) with
  | Some q => is_schedtest q
  | None => false
  end.

Definition sched_energetic (tbl : list proc) (p : proc) : bool :=
  sched_child tbl p && (LOW_ENERGY_THRESHOLD <? p_energy_budget p).

Definition sched_runnable (p : proc) : bool := bool_decide (p_state p = RUNNABLE).

(** [i] is, among the first [n] entries that satisfy [P], one of lowest pid
    (the first such). *)
Definition is_lowest (P : proc -> bool) (tbl : list proc) (n : nat) (i : nat) : Prop :=
  exists p, tbl !! i = Some p /\ (i < n)%nat /\ P p = true /\
  forall j q, (j < n)%nat -> tbl !! j = Some q -> P q = true ->
    p_pid p < p_pid q \/ (p_pid p = p_pid q /\ (i <= j)%nat).

Definition none_of (P : proc -> bool) (tbl : list proc) (n : nat) : Prop :=
  forall j q, (j < n)%nat -> tbl !! j = Some q -> P q = false.

Definition lowest (P : proc -> bool) (tbl : list proc) (n : nat) (o : option nat) : Prop :=
  match o with Some i => is_lowest P tbl n i | None => none_of P tbl n end.

Definition is_first (P : proc -> bool) (tbl : list proc) (i : nat) : Prop :=
  exists p, tbl !! i = Some p /\ P p = true /\ none_of P tbl i.

(** The scheduling policy: energetic children of schedtest first, then any
    child of schedtest, by pid; then the first RUNNABLE process. *)
Inductive policy (tbl : list proc) : option nat -> Prop :=
| policy_energetic i :
    is_lowest (sched_energetic tbl) tbl NPROC i -> policy tbl (Some i)
| policy_child i :
    none_of (sched_energetic tbl) tbl NPROC ->
    is_lowest (sched_child tbl) tbl NPROC i -> policy tbl (Some i)
| policy_first i :
    none_of (sched_child tbl) tbl NPROC ->
    is_first sched_runnable tbl i -> policy tbl (Some i)
| policy_none :
    none_of sched_runnable tbl NPROC -> policy tbl None.

(** Parents are entries of the table. *)
Definition parents_ok (tbl : list proc) : Prop :=
  forall i p j, tbl !! i = Some p -> p_parent p = Some j -> (j < length tbl)%nat.

(** What the passes leave locked. *)
Definition keep (o : option nat) (y : sync) : sync :=
  match o with Some c => acq (LProc c) y | None => touch y end.

(** ** Lemmas *)

Lemma schedtest_eq (q : proc) :
  (strncmp (arr (p_name q)) (lit "schedtest") 16 =? 0) =
  is_schedtest q.
Proof. unfold is_schedtest.
  apply Bool.eq_iff_eq_true. rewrite Z.eqb_eq, bool_decide_eq_true.
  rewrite (strncmp_zero (arr (p_name q)) (lit "schedtest") 16). done.
Qed.

Lemma wp_runnable_child i p Q s :
  k_procs s !! i = Some p -> parents_ok (k_procs s) ->
  Q (sched_child (k_procs s) p) s -> wp (runnable_child i) Q s.
Proof.
  intros Hp Hpar HQ. unfold runnable_child. apply wp_bind. eapply wp_getp; [done|].
  unfold sched_child in HQ. case_bool_decide; cbn [negb andb] in *; [|by apply wp_ret].
  destruct (p_parent p) as [j|] eqn:E; [|by apply wp_ret].
  destruct (lookup_lt_is_Some_2 (k_procs s) j) as [q Hq]; [by eapply Hpar|].
  apply wp_bind. eapply wp_getp; [done|]. apply wp_ret. rewrite schedtest_eq.
  cbn [mbind option_bind] in HQ. by rewrite Hq in HQ.
Qed.

Lemma wp_energetic_child i p Q s :
  k_procs s !! i = Some p -> parents_ok (k_procs s) ->
  Q (sched_energetic (k_procs s) p) s -> wp (energetic_child i) Q s.
Proof.
  intros Hp Hpar HQ. unfold energetic_child. apply wp_bind.
  eapply wp_runnable_child; [done..|]. unfold sched_energetic in HQ.
  destruct (sched_child (k_procs s) p); [|by apply wp_ret].
  apply wp_bind. by eapply wp_getp.
Qed.

Lemma none_of_S P tbl n p :
  tbl !! n = Some p -> none_of P tbl n -> P p = false -> none_of P tbl (S n).
Proof.
  intros Hp Hn Hf j q Hj Hq. destruct (decide (j = n)) as [->|]; [by simplify_eq|].
  apply (Hn j); [lia|done].
Qed.

Lemma lowest_skip P tbl n o p :
  tbl !! n = Some p -> lowest P tbl n o -> P p = false -> lowest P tbl (S n) o.
Proof.
  intros Hp Hl Hf. destruct o as [i|]; cbn in *; [|by eapply none_of_S].
  destruct Hl as (pi & Hi & Hlt & HP & Hmin). exists pi. split_and!; [done|lia|done|].
  intros j q Hj Hq HPq. destruct (decide (j = n)) as [->|]; [congruence|].
  apply (Hmin j); [lia|done|done].
Qed.

Lemma lowest_keep P tbl n i pi p :
  tbl !! n = Some p -> tbl !! i = Some pi -> lowest P tbl n (Some i) ->
  p_pid pi <= p_pid p -> lowest P tbl (S n) (Some i).
Proof.
  intros Hp Hi (pi' & Hi' & Hlt & HP & Hmin) Hle. simplify_eq.
  exists pi. split_and!; [done|lia|done|].
  intros j q Hj Hq HPq. destruct (decide (j = n)) as [->|]; [simplify_eq; lia|].
  apply (Hmin j); [lia|done|done].
Qed.

Lemma lowest_take P tbl n o p :
  tbl !! n = Some p -> lowest P tbl n o -> P p = true ->
  (forall i pi, o = Some i -> tbl !! i = Some pi -> p_pid p < p_pid pi) ->
  lowest P tbl (S n) (Some n).
Proof.
  intros Hp Hl HP Hlt. exists p. split_and!; [done|lia|done|].
  intros j q Hj Hq HPq. destruct (decide (j = n)) as [->|Hne]; [simplify_eq; lia|].
  assert (Hj' : (j < n)%nat) by lia. destruct o as [i|]; cbn in Hl.
  - destruct Hl as (pi & Hi & _ & _ & Hmin). specialize (Hlt i pi eq_refl Hi).
    specialize (Hmin j q Hj' Hq HPq). lia.
  - by rewrite (Hl j q Hj' Hq) in HPq.
Qed.

(** A pass, over a table whose condition [cond] decides [P]. *)
Section pass.
Context (P : list proc -> proc -> bool) (cond : nat -> KM bool).
Context (Hcond : forall i p Q s, k_procs s !! i = Some p -> parents_ok (k_procs s) ->
                 Q (P (k_procs s) p) s -> wp (cond i) Q s).

Definition pass_inv (s : kst) (pre : list nat) (o : option nat) (t : kst) : Prop :=
  t = set_k_sync (k_sync t) s /\
  (forall c, o = Some c -> k_sync t = acq (LProc c) (k_sync s)) /\
  (o = None -> touch (k_sync t) = touch (k_sync s) /\
               (pre <> [] -> k_sync t = touch (k_sync s))) /\
  lowest (P (k_procs s)) (k_procs s) (length pre) o.

Lemma pass_inv_release s i o t Q :
  sync_wf (k_sync t) -> lock_free (LProc i) (k_sync t) -> sync_wf (k_sync s) ->
  pass_inv s (seq 0 i) o t -> lowest (P (k_procs s)) (k_procs s) (S i) o ->
  (forall t', pass_inv s (seq 0 i ++ [i]) o t' -> Q t') ->
  wp (release (LProc i)) (fun _ => Q) (upd_sync (acq (LProc i)) t).
Proof.
  intros Hwt Hft Hwf (Ht & Hsome & Hnone & _) Hl HQ.
  eapply (wp_release_acq (LProc i) (k_sync t)); [done..|]. apply HQ. split_and!.
  - rewrite Ht. unfold upd_sync. kst_eq.
  - intros c Hc. cbn. by rewrite (Hsome c Hc), touch_acq.
  - intros Ho. cbn. rewrite touch_idem. by destruct (Hnone Ho) as [-> _].
  - by rewrite length_app, length_seq, Nat.add_1_r.
Qed.

Lemma pass_inv_take s i t' :
  t' = set_k_sync (acq (LProc i) (k_sync s)) s ->
  lowest (P (k_procs s)) (k_procs s) (S i) (Some i) ->
  pass_inv s (seq 0 i ++ [i]) (Some i) t'.
Proof.
  intros -> Hl. split_and!; [done| |done|].
  - by intros c [= <-].
  - by rewrite length_app, length_seq, Nat.add_1_r.
Qed.

Lemma pass_inv_sync s i o t :
  sync_wf (k_sync s) -> proc_locks_free (k_sync s) -> (i < NPROC)%nat ->
  pass_inv s (seq 0 i) o t ->
  sync_wf (k_sync t) /\ lock_free (LProc i) (k_sync t) /\
  forall c, o = Some c -> (c < i)%nat.
Proof.
  intros Hwf Hfree Hi (Ht & Hsome & Hnone & Hl). rewrite length_seq in Hl.
  destruct o as [c|].
  - destruct Hl as (pc & _ & Hlt & _). rewrite (Hsome c eq_refl). split_and!.
    + apply sync_wf_acq; [done|]. apply Hfree. lia.
    + apply lock_free_acq_ne; [intros [= ->]; lia|by apply Hfree].
    + by intros ? [= ->].
  - destruct (Hnone eq_refl) as [Hy _]. symmetry in Hy. split_and!; [|by eapply touch_lock_free; eauto|done].
    by eapply touch_sync_wf.
Qed.

Lemma wp_lowest_pid_pass Q s :
  sync_wf (k_sync s) -> table_ok s -> proc_locks_free (k_sync s) -> parents_ok (k_procs s) ->
  (forall o, lowest (P (k_procs s)) (k_procs s) NPROC o -> Q o (upd_sync (keep o) s)) ->
  wp (lowest_pid_pass cond) Q s.
Proof.
  intros Hwf Hlen Hfree Hpar HQ. apply (wp_for_fold (pass_inv s)).
  - split_and!; [by destruct s|done|done|]. intros j q Hj. cbn in Hj. lia.
  - intros pre i post o t Hsplit. apply seq_split_lt in Hsplit as (-> & Hi & _).
    intros Hinv. destruct (pass_inv_sync _ _ _ _ Hwf Hfree Hi Hinv) as (Hwt & Hft & Hci).
    assert (Hinv0 := Hinv). destruct Hinv0 as (Ht & Hsome & Hnone & Hl).
    rewrite length_seq in Hl.
    destruct (lookup_lt_is_Some_2 (k_procs s) i) as [p Hp]; [by rewrite Hlen|].
    assert (Hps : k_procs (upd_sync (acq (LProc i)) t) = k_procs s) by (by rewrite Ht).
    apply wp_bind, wp_acquire; [done..|].
    apply wp_bind. eapply Hcond; [by rewrite Hps|by rewrite Hps|]. rewrite Hps.
    destruct (P (k_procs s) p) eqn:HP.
    2: { apply wp_bind. eapply (pass_inv_release s); [done..|by eapply lowest_skip|done]. }
    destruct o as [c|].
    + destruct (Hl) as (pc & Hc & Hlt & _).
      apply wp_bind. apply wp_bind. eapply wp_getp; [by rewrite Hps|].
      apply wp_bind. eapply wp_getp; [by rewrite Hps|]. apply wp_ret.
      destruct (Z.ltb_spec (p_pid p) (p_pid pc)).
      * apply wp_bind. eapply (wp_release_outer (LProc c) (LProc i) (k_sync s));
          [intros [= ->]; lia|done|apply Hfree; lia|cbn; by rewrite (Hsome c eq_refl)|].
        apply wp_ret, pass_inv_take; [rewrite Ht; unfold upd_sync; kst_eq|].
        eapply lowest_take; [done..|]. intros ? ? [= <-] ?. by simplify_eq.
      * apply wp_bind. eapply (pass_inv_release s); [done..|by eapply (lowest_keep _ _ _ c pc p)|done].
    + apply wp_bind, wp_ret, wp_bind, wp_ret, wp_ret, pass_inv_take.
      * destruct (Hnone eq_refl) as [Hy _]. rewrite Ht. unfold upd_sync. cbn.
        rewrite (acq_touch_eq _ _ _ Hy). kst_eq.
      * by eapply lowest_take.
  - intros o t (Ht & Hsome & Hnone & Hl). rewrite length_seq in Hl. specialize (HQ o Hl).
    same_state HQ. rewrite Ht. unfold upd_sync. f_equal. destruct o as [c|]; cbn.
    + by rewrite (Hsome c).
    + symmetry. by apply Hnone.
Qed.

End pass.

Lemma keep_touch o y : keep o (touch y) = keep o y.
Proof. destruct o; cbn; [apply acq_touch|apply touch_idem]. Qed.

Lemma wp_first_runnable_pass Q s :
  sync_wf (k_sync s) -> table_ok s -> proc_locks_free (k_sync s) ->
  (forall o, match o with
             | Some i => is_first sched_runnable (k_procs s) i
             | None => none_of sched_runnable (k_procs s) NPROC
             end -> Q o (upd_sync (keep o) s)) ->
  wp first_runnable_pass Q s.
Proof.
  intros Hwf Hlen Hfree HQ.
  apply (wp_for_find (fun pre t => t = set_k_sync (k_sync t) s /\
    touch (k_sync t) = touch (k_sync s) /\ (pre <> [] -> k_sync t = touch (k_sync s)) /\
    none_of sched_runnable (k_procs s) (length pre))).
  - split_and!; [by destruct s|done..|]. intros j q Hj. cbn in Hj. lia.
  - intros pre i post t Hsplit (Ht & Hy & _ & Hpre).
    apply seq_split_lt in Hsplit as (-> & Hi & _). rewrite length_seq in Hpre.
    destruct (lookup_lt_is_Some_2 (k_procs s) i) as [p Hp]; [by rewrite Hlen|].
    assert (Hps : k_procs (upd_sync (acq (LProc i)) t) = k_procs s) by (by rewrite Ht).
    assert (Hwt : sync_wf (k_sync t)) by (by eapply touch_sync_wf).
    assert (Hft : lock_free (LProc i) (k_sync t)).
    { eapply touch_lock_free; [symmetry; exact Hy|by apply Hfree]. }
    apply wp_bind, wp_acquire; [done..|].
    apply wp_bind. eapply wp_getp; [by rewrite Hps|]. case_bool_decide as E.
    + apply wp_ret. specialize (HQ (Some i)). same_state (HQ ltac:(exists p; split_and!;
        [done|by apply bool_decide_eq_true|done])).
      rewrite Ht. unfold upd_sync. cbn. rewrite (acq_touch_eq _ _ _ Hy). kst_eq.
    + apply wp_bind. eapply (wp_release_acq (LProc i) (k_sync t)); [done..|]. apply wp_ret.
      split_and!; cbn.
      * rewrite Ht. unfold upd_sync. kst_eq.
      * by rewrite touch_idem.
      * done.
      * rewrite length_app, length_seq, Nat.add_1_r. eapply none_of_S; [done..|].
        by apply bool_decide_eq_false.
  - intros t (Ht & _ & Hy & Hpre). rewrite length_seq in Hpre. specialize (HQ None Hpre).
    same_state HQ. rewrite Ht, Hy by done. done.
Qed.

Lemma wp_choose Q s :
  sync_wf (k_sync s) -> table_ok s -> proc_locks_free (k_sync s) -> parents_ok (k_procs s) ->
  (forall o, policy (k_procs s) o -> Q o (upd_sync (keep o) s)) -> wp choose Q s.
Proof.
  intros Hwf Hlen Hfree Hpar HQ. unfold choose. apply wp_bind.
  apply (wp_lowest_pid_pass sched_energetic); [exact wp_energetic_child|done..|].
  intros [i|] H1; [apply wp_bind, wp_ret, wp_ret, HQ; by constructor|].
  apply wp_bind.
  apply (wp_lowest_pid_pass sched_child); [exact wp_runnable_child|by apply sync_wf_touch|done..|].
  assert (Hk : forall o, upd_sync (keep o) (upd_sync touch s) = upd_sync (keep o) s).
  { intros o. unfold upd_sync. cbn. by rewrite keep_touch. }
  intros [i|] H2; cbn [keep]; rewrite Hk; [apply wp_ret, HQ; by constructor 2|].
  apply wp_first_runnable_pass; [by apply sync_wf_touch|done..|].
  intros [i|] H3; rewrite Hk; apply HQ; [by constructor 3|by constructor 4].
Qed.

(** What the scheduler's passes read of a process. *)
Definition sched_view (p : proc) : procstate * option nat * list Z :=
  (p_state p, p_parent p, p_name p).

Definition same_view (l l' : list proc) : Prop := sched_view <$> l = sched_view <$> l'.

Lemma same_view_lookup l l' i p :
  same_view l l' -> l !! i = Some p -> exists q, l' !! i = Some q /\ sched_view p = sched_view q.
Proof.
  intros H Hp. apply (f_equal (lookup i)) in H. rewrite !list_lookup_fmap, Hp in H. cbn in H.
  destruct (l' !! i) as [q|]; [|done]. exists q. split; [done|]. by apply (inj Some).
Qed.

Lemma sched_child_view l l' p q :
  same_view l l' -> sched_view p = sched_view q -> sched_child l p = sched_child l' q.
Proof.
  intros Hl [= Hs Hpar _]. unfold sched_child. rewrite Hs, Hpar. f_equal.
  destruct (p_parent q) as [j|]; [|done]. cbn [mbind option_bind].
  destruct (l !! j) as [pj|] eqn:E.
  - destruct (same_view_lookup _ _ _ _ Hl E) as (qj & -> & [= _ _ Hn]).
    unfold is_schedtest. by rewrite Hn.
  - apply (f_equal (lookup j)) in Hl. rewrite !list_lookup_fmap, E in Hl.
    by destruct (l' !! j).
Qed.

Lemma parents_ok_view l l' : same_view l l' -> parents_ok l' -> parents_ok l.
Proof.
  intros H Hp i p j Hi Hj. destruct (same_view_lookup _ _ _ _ H Hi) as (q & Hq & [= _ E _]).
  apply (f_equal length) in H. rewrite !length_fmap in H. rewrite H.
  eapply Hp; [done|]. congruence.
Qed.

Definition age1 (p : proc) : proc := set_p_waiting_tick (to_int (p_waiting_tick p + 1)) p.

(** Every waiting child of schedtest but the chosen process ages. *)
Definition aged (tbl : list proc) (c i : nat) (p : proc) : proc :=
  if (i =? c)%nat then p else if sched_child tbl p then age1 p else p.

Lemma aged_view tbl c i l : same_view l tbl -> same_view (alter (aged tbl c i) i l) tbl.
Proof.
  intros H. unfold same_view. rewrite <- H. apply list_eq. intros j.
  rewrite !list_lookup_fmap. destruct (decide (i = j)) as [->|Hne].
  - rewrite list_lookup_alter_eq. destruct (l !! j) as [p|]; [|done]. cbn [fmap option_fmap option_map]. f_equal.
    unfold aged. by destruct (j =? c)%nat, (sched_child tbl p).
  - by rewrite list_lookup_alter_ne.
Qed.

Lemma wp_age_waiting c y Q s :
  sync_wf y -> k_sync s = acq (LProc c) y -> (c < NPROC)%nat -> table_ok s -> proc_locks_free y ->
  parents_ok (k_procs s) ->
  Q tt (upd_procs (imap (aged (k_procs s) c)) s) ->
  wp (age_waiting c) Q s.
Proof.
  intros Hwf Hy Hc Hlen Hfree Hpar HQ.
  apply (wp_scan_inv (fun l => same_view l (k_procs s)) (aged (k_procs s) c));
    [done|done|intros; by apply aged_view| |].
  2: { same_state HQ. unfold upd_sync, upd_procs. cbn. rewrite Hy, touch_acq by done.
       rewrite <- Hy. kst_eq. }
  intros i t Hi Ht Hlt Hview. rewrite Hy in Ht. apply touch_acq_inj in Ht; [|done].
  destruct (lookup_lt_is_Some_2 (k_procs t) i) as [p Hp]; [by rewrite Hlt|].
  assert (Hid : forall l, upd_sync touch (set_k_procs l t) = set_k_procs l t).
  { intros l. unfold upd_sync. cbn. rewrite Ht, touch_acq, <- Ht by done. kst_eq. }
  apply wp_when; intros Hic; unfold aged.
  2: { rewrite negb_false_iff in Hic. rewrite Hic, (upd_procs_id _ _ _ p) by done.
       specialize (Hid (k_procs t)). by destruct t. }
  rewrite negb_true_iff in Hic. rewrite Hic. apply Nat.eqb_neq in Hic.
  destruct (same_view_lookup _ _ _ _ Hview Hp) as (q & Hq & Hpq).
  apply (wp_entry i (if sched_child (k_procs t) p then age1 else id) tt);
    [rewrite Ht; apply sync_wf_acq; [done|by apply Hfree]|rewrite Ht; apply lock_free_acq_ne; [congruence|by apply Hfree]| |].
  - intros u Hu Hr. apply wp_bind. eapply wp_runnable_child; [by rewrite Hu| |].
    { rewrite Hu. by eapply parents_ok_view. }
    rewrite Hu. apply wp_bind, wp_when; intros E; rewrite E in Hr.
    + apply wp_updp; [|done]. rewrite Hu, Hlt. done.
    + same_state Hr. eapply upd_procs_id; [by rewrite Hu|done].
  - f_equal. apply (alter_ext_at _ _ _ _ p); [done|].
    rewrite (sched_child_view (k_procs t) (k_procs s) p p) by done. by case_match.
Qed.

Lemma wp_set_timer (test : Z -> bool) ti Q s :
  Q tt (if test (k_timer_interval s)
        then set_k_stimecmp (wrap64 (k_time s + ti)) (set_k_timer_interval ti s) else s) ->
  wp (set_timer test ti) Q s.
Proof.
  intros HQ. apply wp_bind, wp_gets, wp_when; intros E; rewrite E in HQ; [|done].
  by wp_pure.
Qed.

(** The timer while a process runs: ten interrupts a second. *)
Definition busy (s : kst) : kst :=
  if k_timer_interval s =? 1000000 then s
  else set_k_stimecmp (wrap64 (k_time s + 1000000)) (set_k_timer_interval 1000000 s).

(** The timer while the CPU idles: the interval is stretched tenfold, once. *)
Definition idle (s : kst) : kst :=
  if k_timer_interval s =? 1000000
  then set_k_stimecmp (wrap64 (k_time s + 10000000)) (set_k_timer_interval 10000000 s)
  else s.

(** The process table at the moment the scheduler switches to [c]. *)
Definition dispatched (c : nat) (tbl : list proc) : list proc :=
  alter (fun p => set_p_last_scheduled_tick 0 (set_p_state RUNNING p)) c (imap (aged tbl c) tbl).

(** The whole state at that moment; [y] is the state of the locks before. *)
Definition dispatch_point (c : nat) (y : sync) (s : kst) : kst :=
  set_k_sync (upd_cpu (set_c_proc (Some c)) (acq (LProc c) y))
    (upd_procs (dispatched c) (busy s)).

Lemma wp_prepare_switch c y Q s :
  sync_wf y -> k_sync s = acq (LProc c) y -> table_ok s -> proc_locks_free y ->
  parents_ok (k_procs s) -> (c < NPROC)%nat ->
  Q tt (dispatch_point c y s) -> wp (prepare_switch c) Q s.
Proof.
  intros Hwf Hy Hlen Hfree Hpar Hc HQ. unfold prepare_switch.
  assert (Hl : forall f : nat -> proc -> proc, length (imap f (k_procs s)) = NPROC) by (intros; by rewrite length_imap).
  apply wp_bind. eapply wp_age_waiting; [done..|].
  apply wp_bind, wp_set_timer.
  match goal with |- context [if ?b then ?x else ?y] =>
    assert (E1 : (if b then x else y) = upd_procs (imap (aged (k_procs s) c)) (busy s)) end.
  { unfold busy. cbn. destruct (k_timer_interval s =? 1000000); cbn; [done|].
    unfold upd_procs. kst_eq. }
  assert (Hb : k_procs (busy s) = k_procs s /\ k_sync (busy s) = k_sync s).
  { unfold busy. by destruct (k_timer_interval s =? 1000000). }
  destruct Hb as [Hb1 Hb2].
  rewrite E1. apply wp_bind, wp_updp; [cbn; by rewrite Hb1, Hl|].
  apply wp_bind, wp_updp; [cbn; by rewrite length_alter, Hb1, Hl|].
  apply wp_updcpu.
  { cbn. rewrite Hb2, Hy, cur_acq. destruct Hwf as (k & -> & _). by eexists. }
  same_state HQ. unfold dispatch_point, dispatched, upd_sync, upd_procs. cbn.
  rewrite list_alter_alter_eq, Hb1, Hb2, Hy. kst_eq.
Qed.

(** The policy chooses one process, and chooses one whenever it can. *)
Lemma is_lowest_inj P tbl n i j : is_lowest P tbl n i -> is_lowest P tbl n j -> i = j.
Proof.
  intros (p & Hp & Hi & HPp & Hminp) (q & Hq & Hj & HPq & Hminq).
  specialize (Hminp j q Hj Hq HPq). specialize (Hminq i p Hi Hp HPp). lia.
Qed.

Lemma is_first_inj P tbl i j : is_first P tbl i -> is_first P tbl j -> i = j.
Proof.
  intros (p & Hp & HPp & Hi) (q & Hq & HPq & Hj).
  destruct (Nat.lt_trichotomy i j) as [Hlt|[->|Hlt]]; [|done|].
  - by rewrite (Hj i p Hlt Hp) in HPp.
  - by rewrite (Hi j q Hlt Hq) in HPq.
Qed.

Lemma sched_energetic_child tbl p : sched_energetic tbl p = true -> sched_child tbl p = true.
Proof. unfold sched_energetic. by intros [? _]%andb_true_iff. Qed.

Lemma sched_child_runnable tbl p : sched_child tbl p = true -> p_state p = RUNNABLE.
Proof. unfold sched_child. intros [H _]%andb_true_iff. by apply bool_decide_eq_true in H. Qed.

Lemma is_lowest_not_none P tbl n i : is_lowest P tbl n i -> none_of P tbl n -> False.
Proof. intros (p & Hp & Hi & HP & _) H. by rewrite (H i p Hi Hp) in HP. Qed.

Lemma none_of_impl (P R : proc -> bool) tbl n :
  (forall p, P p = true -> R p = true) -> none_of R tbl n -> none_of P tbl n.
Proof.
  intros HPR HR j q Hj Hq. destruct (P q) eqn:E; [|done].
  apply HPR in E. by rewrite (HR j q Hj Hq) in E.
Qed.

Lemma policy_lt tbl i : length tbl = NPROC -> policy tbl (Some i) -> (i < NPROC)%nat.
Proof.
  intros Hlen H. inversion H as [? (p & _ & ? & _)|? ? (p & _ & ? & _)|? ? (p & Hp & _)|]; subst;
    [done..|]. rewrite <- Hlen. by eapply lookup_lt_Some.
Qed.

(** What [policy] guarantees, in terms of the processes. *)
Definition policy_facts (tbl : list proc) (o : option nat) : Prop :=
  match o with
  | None => forall j q, (j < NPROC)%nat -> tbl !! j = Some q -> p_state q <> RUNNABLE
  | Some i => exists p, tbl !! i = Some p /\ p_state p = RUNNABLE /\
      forall j q, (j < NPROC)%nat -> tbl !! j = Some q ->
        (sched_energetic tbl q = true -> sched_energetic tbl p = true /\ p_pid p <= p_pid q) /\
        (sched_child tbl q = true -> sched_child tbl p = true /\
           (sched_energetic tbl p = false -> p_pid p <= p_pid q))
  end.

Lemma policy_policy_facts tbl o : policy tbl o -> policy_facts tbl o.
Proof.
  intros H. inversion H as [i (p & Hp & Hi & HP & Hmin)|i Hn (p & Hp & Hi & HP & Hmin)
                           |i Hn (p & Hp & HP & _)|Hn]; subst; cbn.
  - exists p. split; [done|]. assert (HC := sched_energetic_child _ _ HP).
    split; [by eapply sched_child_runnable|].
    intros j q Hj Hq. split; [|by rewrite HP]. intros Hq'.
    split; [done|]. specialize (Hmin j q Hj Hq Hq'). lia.
  - exists p. split; [done|]. split; [by eapply sched_child_runnable|].
    intros j q Hj Hq. rewrite (Hn j q Hj Hq). split; [done|]. intros Hq'. split; [done|].
    specialize (Hmin j q Hj Hq Hq'). lia.
  - exists p. split; [done|]. split; [by apply bool_decide_eq_true in HP|].
    intros j q Hj Hq. assert (E := Hn j q Hj Hq). rewrite E. split; [|done].
    intros Hq'%sched_energetic_child. congruence.
  - intros j q Hj Hq Hr. specialize (Hn j q Hj Hq). by apply bool_decide_eq_false in Hn.
Qed.

(** The executing hart is in the scheduler: in no critical section. *)
Definition in_scheduler (y : sync) : Prop :=
  exists c, cur_cpu y = Some c /\ cpu_wf c /\ c_noff c = 0 /\ few_locks y.

(** Interrupts on, as at the top of every round. *)
Definition listening (y : sync) : sync := upd_cpu (set_c_sie true) y.

Lemma in_scheduler_listening y : in_scheduler y -> in_scheduler (listening y).
Proof.
  intros (c & Hc & _ & Hn & Hf). exists (set_c_sie true c). unfold listening.
  rewrite cur_upd_cpu, Hc. split_and!; [done| |done|done]. split; cbn; lia.
Qed.

Lemma in_scheduler_wf y : in_scheduler y -> sync_wf y.
Proof. intros (c & ? & ? & Hn & ?). exists c. split_and!; [done..|]. split; [done|]. lia. Qed.

(** The chosen process is resumed exactly as [sched] requires. *)
Lemma dispatch_parked c y s :
  in_scheduler y -> lock_free (LProc c) y -> parked c (k_sync (dispatch_point c y s)).
Proof.
  intros (k & Hk & Hw & Hn & Hfew) Hf. exists (upd_cpu (set_c_proc (Some c)) y). split_and!; [|exists (set_c_proc (Some c) k)|done].
  - cbn. unfold acq. rewrite upd_cpu_set_lock. cbn. f_equal.
    rewrite !upd_cpu_compose. apply (upd_cpu_ext _ _ _ k Hk). done.
  - by rewrite cur_upd_cpu, Hk.
Qed.

Lemma policy_unique tbl o o' : length tbl = NPROC -> policy tbl o -> policy tbl o' -> o = o'.
Proof.
  intros Hlen H H'.
  assert (Hcase : forall i, policy tbl (Some i) -> none_of sched_runnable tbl NPROC -> False).
  { intros i Hi Hn. assert (Hlt := policy_lt _ _ Hlen Hi). apply policy_policy_facts in Hi as (p & Hp & Hr & _).
    specialize (Hn i p Hlt Hp). by apply bool_decide_eq_false in Hn. }
  assert (He : none_of (sched_child tbl) tbl NPROC -> none_of (sched_energetic tbl) tbl NPROC).
  { apply none_of_impl, sched_energetic_child. }
  assert (H0 := H). assert (H1 := H').
  destruct H as [i Hi|i Hn Hi|i Hn Hi|Hn], H' as [j Hj|j Hn' Hj|j Hn' Hj|Hn'];
    first [ done
          | f_equal; solve [eauto using is_lowest_inj]
          | f_equal; solve [eauto using is_first_inj]
          | exfalso; solve [eauto using is_lowest_not_none]
          | exfalso; eapply Hcase; eassumption ].
Qed.

(** ** Properties *)

(** C1: The three passes choose what the policy says, and end with exactly the
    chosen process's lock held (no lock when there is none), every other lock
    and the table as before. *)
Theorem choose_refines_policy (s : kst)
    (Hwf : sync_wf (k_sync s)) (Hlen : table_ok s) (Hfree : proc_locks_free (k_sync s))
    (Hpar : parents_ok (k_procs s)) :
  exists o, policy (k_procs s) o /\ (forall o', policy (k_procs s) o' -> o' = o) /\
    choose s = Ok o (upd_sync (keep o) s).
Proof.
  assert (H : wp choose (fun o s' => policy (k_procs s) o /\ s' = upd_sync (keep o) s) s).
  { by apply wp_choose. }
  apply wp_inv in H as (o & s' & E & Hpol & ->). exists o. split_and!; [done| |done].
  intros o' Ho'. by eapply policy_unique.
Qed.

(** The scheduler is work-conserving and energy-aware: it idles only when no
    process is RUNNABLE; it runs a RUNNABLE process; while a child of
    schedtest with budget above the threshold is RUNNABLE it runs such a
    child, of lowest pid; while any child of schedtest is RUNNABLE it runs
    one, of lowest pid when all are low on energy. *)
Theorem choose_energy_priority (s : kst)
    (Hwf : sync_wf (k_sync s)) (Hlen : table_ok s) (Hfree : proc_locks_free (k_sync s))
    (Hpar : parents_ok (k_procs s)) :
  wp choose (fun o _ => policy_facts (k_procs s) o) s.
Proof. apply wp_choose; [done..|]. intros o Ho. by apply policy_policy_facts. Qed.

(** C26: One round of the scheduler: with a process to run it switches to it with
    the process RUNNING, current on this CPU, its lock the only one held and
    the other waiting children of schedtest one tick older; with none it
    stretches the timer interval and returns with the table untouched. *)
Theorem scheduler_round_spec {W : World} (s : kst)
    (Hin : in_scheduler (k_sync s)) (Hlen : table_ok s) (Hfree : proc_locks_free (k_sync s))
    (Hpar : parents_ok (k_procs s)) :
  exists o, policy (k_procs s) o /\
  match o with
  | Some c =>
      let d := dispatch_point c (listening (k_sync s)) s in
      parked c (k_sync d) /\
      scheduler_round s = (swtch;; updcpu (set_c_proc None);; release (LProc c)) d
  | None => scheduler_round s = Ok tt (upd_sync (touch ∘ listening) (idle s))
  end.
Proof.
  set (s1 := upd_sync listening s).
  assert (Hin1 : in_scheduler (k_sync s1)) by (by apply in_scheduler_listening).
  assert (E0 : intr_on s = Ok tt s1).
  { apply wp_run, wp_updcpu; [|done]. destruct Hin as (c & -> & _). by eexists. }
  assert (H : wp choose (fun o s' => policy (k_procs s) o /\ s' = upd_sync (keep o) s1) s1).
  { apply wp_choose; [by apply in_scheduler_wf|done..]. }
  apply wp_inv in H as (o & s' & E & Hpol & ->). exists o. split; [done|].
  unfold scheduler_round. rewrite (bind_ok _ _ _ _ _ E0), (bind_ok _ _ _ _ _ E).
  destruct o as [c|].
  - assert (Hc := policy_lt _ _ Hlen Hpol). split.
    { by apply dispatch_parked; [apply in_scheduler_listening|apply Hfree]. }
    rewrite (bind_ok _ _ _ tt (dispatch_point c (listening (k_sync s)) s)); [done|].
    apply wp_run. eapply (wp_prepare_switch c (k_sync s1)); [by apply in_scheduler_wf|done..|].
    split; [done|]. unfold dispatch_point, busy, upd_procs. cbn.
    subst s1. destruct (k_timer_interval s =? 1000000); kst_eq.
  - apply wp_run, wp_set_timer. split; [done|]. unfold idle, upd_sync. cbn.
    subst s1. destruct (k_timer_interval s =? 1000000); kst_eq.
Qed.
