(* ===== verification/Deadlock.v ===== *)
(** * Deadlock detection on the resource-allocation graph ([proc.c])

    [res_acquire], [res_release], [res_wait] maintain the graph in the process
    table; [check_deadlock] follows the wait-for chain of every waiting
    process, and kills the member of a cycle that has used most energy. *)

From stdpp Require Import base gmap strings numbers list.
From S2P Require Import Prelude State Spinlock Strings Printf Proc.

(** ** The code *)

Definition res_guard (res_id : Z) : bool := (res_id <? 0) || (Z.of_nat NRES <=? res_id).

Definition set_res (r : nat) (b : bool) (p : proc) : proc :=
  set_p_holding_res (<[r := b]> (p_holding_res p)) p.

Definition res_acquire (res_id : Z) : KM unit :=
  me ← myproc;
  if res_guard res_id then mret tt else
  acquire_ptr (LProc <$> me);;
  p ← deref me;
  updp p (set_res (Z.to_nat res_id) true);;
  updp p (set_p_waiting_res (-1));;
  release (LProc p).

Definition res_release (res_id : Z) : KM unit :=
  me ← myproc;
  if res_guard res_id then mret tt else
  acquire_ptr (LProc <$> me);;
  p ← deref me;
  updp p (set_res (Z.to_nat res_id) false);;
  release (LProc p).

Definition res_wait (res_id : Z) : KM unit :=
  me ← myproc;
  if res_guard res_id then mret tt else
  acquire_ptr (LProc <$> me);;
  p ← deref me;
  updp p (set_p_waiting_res res_id);;
  release (LProc p).

(** [holding_res[res_id]] outside the array is an invalid access. *)
Definition find_holder (res_id : Z) : KM (option nat) :=
  for_find (seq 0 NPROC) (fun i =>
    p ← getp i;
    if bool_decide (p_state p = UNUSED) then mret None else
    h ← deref (p_holding_res p !! Z.to_nat res_id);
    mret (if (h : bool) then Some i else None)).

(** The [while] loop: [visited] is the array, [Some] the processes collected
    in [deadlocked] when a visited process is met again. *)
Fixpoint follow (fuel : nat) (visited : list nat) (cur : option nat) : KM (option (list nat)) :=
  match fuel with
  | O => hang
  | S fuel =>
      match cur with
      | None => mret None
      | Some c =>
          p ← getp c;
          if p_waiting_res p <? 0 then mret None else
          match list_find (fun v => v = c) visited with
          | Some (i, _) => mret (Some (drop i visited))
          | None =>
              if (NPROC <=? length visited)%nat then mret None else
              next ← find_holder (p_waiting_res p);
              follow fuel (visited ++ [c]) next
          end
      end
  end.

Definition find_deadlock : KM (option (list nat)) :=
  for_find (seq 0 NPROC) (fun i =>
    p ← getp i;
    if bool_decide (p_state p = UNUSED) || (p_waiting_res p <? 0) then mret None
    else follow (S (S NPROC)) [] (Some i)).

(** The victim: the first member with the highest [energy_consumed]. *)
Definition pick_victim (d0 : nat) (ds : list nat) : KM nat :=
  p0 ← getp d0;
  r ← for_fold ds (d0, p_energy_consumed p0) (fun d '(victim, max_energy) =>
    p ← getp d;
    mret (if max_energy <? p_energy_consumed p then (d, p_energy_consumed p)
          else (victim, max_energy)));
  mret r.1.

Definition name_arg (p : proc) : parg := PStr (Some (cstr 16 (arr (p_name p)))).

Definition report_cycle (ds : list nat) : KM unit :=
  printf "DEADLOCK DETECTED! %d processes in cycle:
" [PInt (Z.of_nat (length ds))];;
  for_each ds (fun d =>
    p ← getp d;
    printf "  pid=%d name=%s energy_consumed=%ld waiting_res=%d
" [PInt (p_pid p); name_arg p; PInt (p_energy_consumed p); PInt (p_waiting_res p)]).

Definition kill_victim (v : nat) : KM Z :=
  p ← getp v;
  printf "ENERGY-AWARE RECOVERY: Killing pid=%d (name=%s, energy=%ld) — highest energy consumer
" [PInt (p_pid p); name_arg p; PInt (p_energy_consumed p)];;
  acquire (LProc v);;
  for_each (seq 0 NRES) (fun i => updp v (set_res i false));;
  updp v (set_p_waiting_res (-1));;
  updp v (set_p_killed true);;
  p ← getp v;
  when (bool_decide (p_state p = SLEEPING)) (updp v (set_p_state RUNNABLE));;
  release (LProc v);;
  p ← getp v;
  mret (p_pid p).

Definition check_deadlock : KM Z :=
  found ← find_deadlock;
  match found with
  | None | Some [] => mret 0
  | Some (d0 :: ds) =>
      victim ← pick_victim d0 ds;
      report_cycle (d0 :: ds);;
      kill_victim victim
  end.

Definition deadlock_recover : KM unit := _ ← check_deadlock; mret tt.

(** ** The wait-for graph *)

Definition holds (r : nat) (p : proc) : Prop :=
  p_state p <> UNUSED /\ p_holding_res p !! r = Some true.

#[global] Instance holds_dec r p : Decision (holds r p).
Proof. unfold holds. apply _. Defined.

(** The process the scan of the table finds holding [r]. *)
Definition holder (tbl : list proc) (r : nat) : option nat := fst <$> list_find (holds r) tbl.

(** Process [i] waits for a resource that [next tbl i] holds. *)
Definition next (tbl : list proc) (i : nat) : option nat :=
  p ← tbl !! i;
  if p_waiting_res p <? 0 then None else holder tbl (Z.to_nat (p_waiting_res p)).

(** A deadlock: every member waits for the following one, cyclically. *)
Definition cycle (tbl : list proc) (l : list nat) : Prop :=
  l <> [] /\ NoDup l /\
  forall k i, l !! k = Some i -> next tbl i = l !! (S k mod length l)%nat.

(** Chains that end: no deadlock behind this process. *)
Inductive ends (tbl : list proc) : nat -> Prop :=
| ends_stop i : next tbl i = None -> ends tbl i
| ends_step i j : next tbl i = Some j -> ends tbl j -> ends tbl i.

(** [visited] is a chain of waiting processes that leads to [cur]. *)
Definition chain (tbl : list proc) (visited : list nat) (cur : nat) : Prop :=
  forall k i, visited !! k = Some i -> next tbl i = (visited ++ [cur]) !! S k.

(** The array bounds the code relies on. *)
Definition res_ok (tbl : list proc) : Prop :=
  Forall (fun p => length (p_holding_res p) = NRES /\ p_waiting_res p < Z.of_nat NRES) tbl.

(** ** The search *)

Section search.
Implicit Types (tbl : list proc) (visited : list nat).

Lemma wp_find_holder r Q s :
  table_ok s -> res_ok (k_procs s) -> (r < NRES)%nat ->
  Q (holder (k_procs s) r) s -> wp (find_holder (Z.of_nat r)) Q s.
Proof.
  intros Hlen Hres Hr HQ.
  apply (wp_for_find (fun pre t => t = s /\
    forall j q, (j < length pre)%nat -> k_procs s !! j = Some q -> ~ holds r q)).
  - split; [done|]. cbn. lia.
  - intros pre i post t Hsplit [-> Hpre].
    apply seq_split_lt in Hsplit as (-> & Hi & _). rewrite length_seq in Hpre.
    destruct (lookup_lt_is_Some_2 (k_procs s) i) as [p Hp]; [by rewrite Hlen|].
    destruct (proj1 (Forall_lookup _ _) Hres i p Hp) as [Hl _].
    destruct (lookup_lt_is_Some_2 (p_holding_res p) r) as [b Hb]; [by rewrite Hl|].
    assert (Hdec : ~ holds r p -> forall j q, (j < length (seq 0 i ++ [i]))%nat ->
                     k_procs s !! j = Some q -> ~ holds r q).
    { intros Hn j q. rewrite length_app, length_seq. intros Hj Hq. cbn in Hj.
      destruct (decide (j = i)) as [->|]; [by simplify_eq|]. apply (Hpre j); [lia|done]. }
    apply wp_bind. eapply wp_getp; [done|]. case_bool_decide as Hu.
    { apply wp_ret. split; [done|]. apply Hdec. by intros [? _]. }
    rewrite Nat2Z.id. apply wp_bind. eapply wp_deref; [done|]. apply wp_ret. destruct b.
    + unfold holder in HQ.
      assert (E : list_find (holds r) (k_procs s) = Some (i, p)).
      { apply list_find_Some. split_and!; [done|done|]. intros j q Hq Hj. by apply (Hpre j). }
      by rewrite E in HQ.
    + split; [done|]. apply Hdec. intros [_ ?]. congruence.
  - intros t [-> Hpre]. unfold holder in HQ.
    assert (E : list_find (holds r) (k_procs s) = None); [|by rewrite E in HQ].
    apply list_find_None, Forall_lookup. intros j q Hq. apply (Hpre j); [|done].
    rewrite length_seq, <- Hlen. by eapply lookup_lt_Some.
Qed.

Lemma holder_lt tbl r i : holder tbl r = Some i -> (i < length tbl)%nat.
Proof.
  unfold holder. destruct (list_find _ tbl) as [[j p]|] eqn:E; cbn; [|done].
  intros [= <-]. apply list_find_Some in E as [Hp _]. by eapply lookup_lt_Some.
Qed.

Lemma next_lt tbl i j : next tbl i = Some j -> (j < length tbl)%nat.
Proof.
  unfold next. destruct (tbl !! i) as [p|]; cbn; [|done].
  case_match; [done|]. apply holder_lt.
Qed.

Lemma chain_snoc tbl visited c j :
  chain tbl visited c -> next tbl c = Some j -> chain tbl (visited ++ [c]) j.
Proof.
  intros Hch Hn k i Hk. destruct (decide (k < length visited)%nat) as [Hlt|Hge].
  - rewrite lookup_app_l in Hk by done. rewrite (Hch k i Hk).
    rewrite (lookup_app_l (visited ++ [c])); [done|]. rewrite length_app. cbn. lia.
  - apply lookup_snoc_Some in Hk as [[? _]|[-> <-]]; [lia|]. rewrite Hn.
    rewrite lookup_app_r by (rewrite length_app; cbn; lia).
    by rewrite length_app, Nat.add_1_r, Nat.sub_diag.
Qed.

(** Meeting a visited process again closes a cycle. *)
Lemma chain_cycle tbl visited c i :
  chain tbl visited c -> NoDup visited -> visited !! i = Some c ->
  cycle tbl (drop i visited).
Proof.
  intros Hch Hnd Hi. assert (Hlt := lookup_lt_Some _ _ _ Hi).
  split; [|split].
  - intros E. apply (f_equal length) in E. rewrite length_drop in E. cbn in E. lia.
  - rewrite <- (take_drop i visited) in Hnd. by apply NoDup_app in Hnd as (_ & _ & ?).
  - intros k x Hk. rewrite lookup_drop in Hk. rewrite (Hch _ _ Hk), lookup_drop, length_drop.
    assert (Hk' := lookup_lt_Some _ _ _ Hk).
    destruct (decide (S k = length visited - i)%nat) as [E|E].
    + rewrite <- E, Nat.Div0.mod_same, Nat.add_0_r, Hi.
      rewrite lookup_app_r by lia. by replace (S (i + k) - length visited)%nat with 0%nat by lia.
    + rewrite Nat.mod_small by lia. rewrite lookup_app_l by lia. f_equal. lia.
Qed.

Lemma cycle_next tbl l i :
  cycle tbl l -> i ∈ l -> exists j, next tbl i = Some j /\ j ∈ l.
Proof.
  intros (Hne & _ & Hn) [k Hk]%list_elem_of_lookup.
  assert (Hlen : length l <> 0%nat) by (by destruct l).
  destruct (lookup_lt_is_Some_2 l (S k mod length l)) as [j Hj].
  { by apply Nat.mod_upper_bound. }
  exists j. split; [by rewrite (Hn k i Hk)|]. by eapply list_elem_of_lookup_2.
Qed.

(** A chain that ends contains no member of a cycle. *)
Lemma ends_not_cycle tbl l i : ends tbl i -> cycle tbl l -> i ∉ l.
Proof.
  intros He Hc. induction He as [i Hn|i j Hn _ IH]; intros Hi;
    destruct (cycle_next _ _ _ Hc Hi) as (j' & Hj & Hl); congruence.
Qed.

(** The fuel suffices: the visited processes are distinct entries of the table. *)
Lemma wp_follow fuel visited c Q s :
  table_ok s -> res_ok (k_procs s) -> (c < NPROC)%nat ->
  NoDup visited -> Forall (fun i => (i < NPROC)%nat) visited ->
  chain (k_procs s) visited c -> (S (S NPROC) <= fuel + length visited)%nat ->
  (forall l, cycle (k_procs s) l -> Q (Some l) s) ->
  (ends (k_procs s) c -> Q None s) ->
  wp (follow fuel visited (Some c)) Q s.
Proof.
  intros Hlen Hres. revert visited c. induction fuel as [|fuel IH];
    intros visited c Hc Hnd Hall Hch Hfuel HQ1 HQ2.
  { pose proof (NoDup_lt_length visited NPROC Hnd Hall). lia. }
  cbn [follow]. destruct (lookup_lt_is_Some_2 (k_procs s) c) as [p Hp]; [by rewrite Hlen|].
  apply wp_bind. eapply wp_getp; [done|].
  destruct (Z.ltb_spec (p_waiting_res p) 0) as [Hw|Hw].
  { apply wp_ret, HQ2. apply ends_stop. unfold next. rewrite Hp. cbn.
    by destruct (Z.ltb_spec (p_waiting_res p) 0); [|lia]. }
  destruct (list_find (fun v => v = c) visited) as [[i v]|] eqn:E.
  { apply list_find_Some in E as (Hi & -> & _). apply wp_ret, HQ1. by eapply chain_cycle. }
  assert (Hnv : c ∉ visited).
  { apply list_find_None in E. rewrite Forall_forall in E. intros Hin. by apply (E c). }
  assert (Hnd' : NoDup (visited ++ [c])).
  { apply NoDup_app. split_and!; [done| |apply NoDup_singleton].
    intros x Hx ->%list_elem_of_singleton. done. }
  assert (Hall' : Forall (fun i => (i < NPROC)%nat) (visited ++ [c])).
  { apply Forall_app. split; [done|by constructor]. }
  assert (Hlv := NoDup_lt_length _ _ Hnd' Hall'). rewrite length_app in Hlv. cbn in Hlv.
  rewrite (proj2 (Nat.leb_gt NPROC (length visited))) by lia.
  destruct (proj1 (Forall_lookup _ _) Hres c p Hp) as [_ Hwr].
  assert (Hnext : next (k_procs s) c = holder (k_procs s) (Z.to_nat (p_waiting_res p))).
  { unfold next. rewrite Hp. cbn. by destruct (Z.ltb_spec (p_waiting_res p) 0); [lia|]. }
  apply wp_bind. rewrite <- (Z2Nat.id (p_waiting_res p)) by done.
  apply wp_find_holder; [done..|lia|]. rewrite <- Hnext.
  destruct (next (k_procs s) c) as [j|] eqn:En.
  - apply IH; [|done|done|by apply chain_snoc| |done|].
    + rewrite <- Hlen. by eapply next_lt.
    + rewrite length_app. cbn. lia.
    + intros He. apply HQ2. by eapply ends_step.
  - destruct fuel as [|fuel]; [lia|]. apply wp_ret, HQ2. by apply ends_stop.
Qed.

Lemma cycle_prev tbl l i : cycle tbl l -> i ∈ l -> exists j, j ∈ l /\ next tbl j = Some i.
Proof.
  intros (Hne & _ & Hn) [k Hk]%list_elem_of_lookup.
  assert (Hlt := lookup_lt_Some _ _ _ Hk).
  assert (Hk' : exists k', (k' < length l)%nat /\ (S k' mod length l)%nat = k).
  { destruct k as [|k].
    - exists (length l - 1)%nat. split; [lia|]. replace (S (length l - 1)) with (length l) by lia.
      by rewrite Nat.Div0.mod_same.
    - exists k. split; [lia|]. by apply Nat.mod_small. }
  destruct Hk' as (k' & Hlt' & E). destruct (lookup_lt_is_Some_2 l k' Hlt') as [j Hj].
  exists j. split; [by eapply list_elem_of_lookup_2|]. by rewrite (Hn k' j Hj), E.
Qed.

(** The members of a cycle are live processes that wait for a resource. *)
Lemma cycle_member tbl l i :
  cycle tbl l -> i ∈ l ->
  exists p, tbl !! i = Some p /\ p_state p <> UNUSED /\ 0 <= p_waiting_res p.
Proof.
  intros Hc Hi. destruct (cycle_next _ _ _ Hc Hi) as (j & Hj & _).
  destruct (cycle_prev _ _ _ Hc Hi) as (h & _ & Hh). unfold next in *.
  destruct (tbl !! i) as [p|] eqn:Hp; [|done]. exists p. cbn in Hj.
  destruct (Z.ltb_spec (p_waiting_res p) 0); [done|]. split_and!; [done| |done].
  destruct (tbl !! h) as [ph|]; [|done]. cbn in Hh. case_match; [done|].
  unfold holder in Hh. destruct (list_find _ tbl) as [[i' p']|] eqn:E; [|done].
  cbn in Hh. simplify_eq. apply list_find_Some in E as (Hp' & [Hu _] & _). by simplify_eq.
Qed.

Lemma wp_find_deadlock Q s :
  table_ok s -> res_ok (k_procs s) ->
  (forall l, cycle (k_procs s) l -> Q (Some l) s) ->
  ((forall l, ~ cycle (k_procs s) l) -> Q None s) ->
  wp find_deadlock Q s.
Proof.
  intros Hlen Hres HQ1 HQ2.
  apply (wp_for_find (fun pre t => t = s /\
    forall j l, (j < length pre)%nat -> cycle (k_procs s) l -> j ∉ l)).
  - split; [done|]. cbn. lia.
  - intros pre i post t Hsplit [-> Hpre].
    apply seq_split_lt in Hsplit as (-> & Hi & _). rewrite length_seq in Hpre.
    destruct (lookup_lt_is_Some_2 (k_procs s) i) as [p Hp]; [by rewrite Hlen|].
    assert (Hstep : (forall l, cycle (k_procs s) l -> i ∉ l) -> s = s /\
      forall j l, (j < length (seq 0 i ++ [i]))%nat -> cycle (k_procs s) l -> j ∉ l).
    { intros Hn. split; [done|]. intros j l. rewrite length_app, length_seq. cbn. intros Hj Hc.
      destruct (decide (j = i)) as [->|]; [by apply Hn|]. apply Hpre; [lia|done]. }
    apply wp_bind. eapply wp_getp; [done|].
    destruct (bool_decide (p_state p = UNUSED) || (p_waiting_res p <? 0)) eqn:E.
    + apply wp_ret, Hstep. intros l Hc Hin.
      destruct (cycle_member _ _ _ Hc Hin) as (p' & Hp' & Hu & Hw). simplify_eq.
      apply orb_true_iff in E as [E|E]; [by apply bool_decide_eq_true in E|lia].
    + apply wp_follow; [done..|by apply NoDup_nil|by apply Forall_nil|intros k ? Hk; by destruct k|by rewrite Nat.add_0_r|done|].
      intros He. apply Hstep. intros l Hc. by eapply ends_not_cycle.
  - intros t [-> Hpre]. apply HQ2. intros l Hc. assert (Hne := proj1 Hc).
    destruct l as [|i l]; [done|]. assert (Hin : i ∈ i :: l) by constructor.
    apply (Hpre i (i :: l)); [|done|done]. rewrite length_seq, <- Hlen.
    destruct (cycle_member _ _ _ Hc Hin) as (p & Hp & _). by eapply lookup_lt_Some.
Qed.

End search.

(** ** Recovery *)

(** What [check_deadlock] does to the victim. *)
Definition recovered (p : proc) : proc :=
  let p := set_p_killed true (set_p_waiting_res (-1)
             (set_p_holding_res (replicate NRES false) p)) in
  if bool_decide (p_state p = SLEEPING) then set_p_state RUNNABLE p else p.

(** [v] has used at least as much energy as every member of [l]. *)
Definition top_energy (tbl : list proc) (l : list nat) (v : nat) : Prop :=
  v ∈ l /\ exists p, tbl !! v = Some p /\
  forall j q, j ∈ l -> tbl !! j = Some q -> p_energy_consumed q <= p_energy_consumed p.

Lemma wp_pick_victim d0 ds Q s :
  (forall d, d ∈ d0 :: ds -> is_Some (k_procs s !! d)) ->
  (forall v, top_energy (k_procs s) (d0 :: ds) v -> Q v s) ->
  wp (pick_victim d0 ds) Q s.
Proof.
  intros Hd HQ. destruct (Hd d0) as [p0 Hp0]; [constructor|]. unfold pick_victim.
  apply wp_bind. eapply wp_getp; [done|]. apply wp_bind.
  apply (wp_for_fold (fun pre '(v, m) t => t = s /\ v ∈ d0 :: pre /\
    exists p, k_procs s !! v = Some p /\ m = p_energy_consumed p /\
    forall j q, j ∈ d0 :: pre -> k_procs s !! j = Some q -> p_energy_consumed q <= m)).
  - split_and!; [done|constructor|]. exists p0. split_and!; [done..|].
    intros j q ->%list_elem_of_singleton Hq. simplify_eq. lia.
  - intros pre d post [v m] t Hds (-> & Hv & p & Hp & -> & Hmax). rewrite Hds in Hd.
    destruct (Hd d) as [q Hq]; [set_solver|].
    apply wp_bind. eapply wp_getp; [done|]. apply wp_ret.
    destruct (Z.ltb_spec (p_energy_consumed p) (p_energy_consumed q)).
    + split_and!; [done|set_solver|]. exists q. split_and!; [done..|].
      intros j q' Hj Hq'. rewrite app_comm_cons in Hj.
      apply elem_of_app in Hj as [Hj| ->%list_elem_of_singleton]; [|by simplify_eq].
      specialize (Hmax j q' Hj Hq'). lia.
    + split_and!; [done|set_solver|]. exists p. split_and!; [done..|].
      intros j q' Hj Hq'. rewrite app_comm_cons in Hj.
      apply elem_of_app in Hj as [Hj| ->%list_elem_of_singleton]; [|by simplify_eq].
      by apply (Hmax j).
  - intros [v m] t (-> & Hv & p & Hp & -> & Hmax). apply wp_ret, HQ. split; [done|].
    by exists p.
Qed.

Lemma wp_report_cycle ds Q s :
  can_print s -> (forall d, d ∈ ds -> is_Some (k_procs s !! d)) ->
  (forall t, printed s t -> Q tt t) -> wp (report_cycle ds) Q s.
Proof.
  intros Hcp Hd HQ. apply wp_bind, wp_printf_printed; [done|vm_compute; by eexists|].
  intros s0 H0. apply (wp_for_each (fun _ t => printed s t)); [done| |done].
  intros pre d post t Hsplit Ht. destruct (Hd d) as [p Hp]; [set_solver|].
  apply wp_bind. eapply wp_getp; [by destruct Ht as [? ->]|].
  apply wp_printf_printed; [by eapply printed_can_print|vm_compute; by eexists|].
  intros u Hu. by eapply printed_trans.
Qed.

Lemma foldl_clear (l : list bool) :
  length l = NRES -> foldl (fun l i => <[i := false]> l) l (seq 0 NRES) = replicate NRES false.
Proof.
  intros Hl. do 16 (destruct l as [|? l]; [done|]). by destruct l.
Qed.

Lemma wp_clear_res v p Q s :
  k_procs s !! v = Some p -> length (p_holding_res p) = NRES ->
  Q tt (upd_procs (alter (set_p_holding_res (replicate NRES false)) v) s) ->
  wp (for_each (seq 0 NRES) (fun i => updp v (set_res i false))) Q s.
Proof.
  intros Hp Hl HQ.
  apply (wp_for_each (fun pre t => t = upd_procs (alter (set_p_holding_res
    (foldl (fun l i => <[i := false]> l) (p_holding_res p) pre)) v) s)).
  - cbn. symmetry. by apply (upd_procs_id _ _ _ p); [|destruct p].
  - intros pre i post t _ ->. apply wp_updp.
    { cbn. rewrite length_alter. by eapply lookup_lt_Some. }
    unfold upd_procs, set_k_procs. cbn. f_equal. rewrite list_alter_alter_eq, foldl_app. cbn.
    apply list_alter_ext; [|done]. intros q Hq. done.
  - intros t ->. rewrite foldl_clear by done. done.
Qed.

Lemma wp_kill_victim v p Q s :
  can_print s -> lock_free (LProc v) (k_sync s) ->
  k_procs s !! v = Some p -> length (p_holding_res p) = NRES ->
  (forall t, printed (upd_procs (alter recovered v) s) t -> Q (p_pid p) t) ->
  wp (kill_victim v) Q s.
Proof.
  intros Hcp Hf Hp Hl HQ. unfold kill_victim.
  apply wp_bind. eapply wp_getp; [done|].
  apply wp_bind, wp_printf_printed; [done|vm_compute; by eexists|]. intros s1 H1.
  destruct (printed_can_print _ _ H1 Hcp) as (Hwf1 & _).
  assert (Hp1 : k_procs s1 !! v = Some p) by (by destruct H1 as [? ->]).
  assert (Hv1 := lookup_lt_Some _ _ _ Hp1).
  assert (Hf1 : lock_free (LProc v) (k_sync s1)) by (by destruct H1 as [? ->]).
  apply wp_bind, wp_acquire; [done..|]. set (t := upd_sync (acq (LProc v)) s1).
  assert (Hpt : k_procs t !! v = Some p) by done.
  apply wp_bind. eapply wp_clear_res; [done..|].
  do 2 (apply wp_bind, wp_updp; [cbn; by rewrite ?length_alter|]).
  apply wp_bind. eapply wp_getp; [cbn; by rewrite !list_lookup_alter_eq, Hp1|].
  assert (Hfin : forall f, f p = recovered p ->
    wp (release (LProc v);; p ← getp v; mret (p_pid p)) Q (upd_procs (alter f v) t)).
  { intros f Hfp. rewrite (alter_ext_at f recovered v t p) by done.
    apply wp_bind. eapply (wp_release_acq (LProc v) (k_sync s1)); [done..|].
    apply wp_bind. eapply wp_getp; [cbn; by rewrite list_lookup_alter_eq, Hp1|].
    apply wp_ret. assert (Hpid : p_pid (recovered p) = p_pid p).
    { unfold recovered. cbn. by destruct (bool_decide _). }
    rewrite Hpid. apply HQ. destruct H1 as [out ->]. exists out. subst t.
    unfold upd_sync, upd_procs. cbn. rewrite touch_idem. kst_eq. }
  assert (Hcomb : forall f g h, upd_procs (alter f v) (upd_procs (alter g v)
             (upd_procs (alter h v) t)) = upd_procs (alter (f ∘ g ∘ h) v) t).
  { intros f g h. unfold upd_procs. cbn. by rewrite !list_alter_alter_eq. }
  rewrite Hcomb. apply wp_bind, wp_when; intros E; cbn in E.
  - apply wp_updp; [cbn; by rewrite length_alter|].
    match goal with |- wp _ _ ?u =>
      replace u with (upd_procs (alter (set_p_state RUNNABLE ∘ (set_p_killed true ∘
        set_p_waiting_res (-1) ∘ set_p_holding_res (replicate NRES false))) v) t) end.
    + apply Hfin. unfold recovered, compose. cbn. by rewrite E.
    + unfold upd_procs. cbn. by rewrite list_alter_alter_eq.
  - apply Hfin. unfold recovered, compose. cbn. by rewrite E.
Qed.

(** No resource has two holders. *)
Definition exclusive (tbl : list proc) : Prop :=
  forall r i j p q, tbl !! i = Some p -> tbl !! j = Some q -> holds r p -> holds r q -> i = j.

Lemma holder_Some tbl r i :
  holder tbl r = Some i -> exists p, tbl !! i = Some p /\ holds r p.
Proof.
  unfold holder. destruct (list_find _ tbl) as [[j p]|] eqn:E; cbn; [|done].
  intros [= <-]. apply list_find_Some in E as (? & ? & _). eauto.
Qed.

Lemma holder_None tbl r j q : holder tbl r = None -> tbl !! j = Some q -> ~ holds r q.
Proof.
  unfold holder. destruct (list_find _ tbl) eqn:E; [done|]. intros _ Hq.
  apply list_find_None in E. by eapply (proj1 (Forall_lookup _ _) E).
Qed.

Lemma recovered_holds r p : ~ holds r (recovered p).
Proof.
  assert (E : p_holding_res (recovered p) = replicate NRES false).
  { unfold recovered. by destruct (bool_decide _). }
  intros [_ H]. rewrite E in H. apply lookup_replicate in H as [? _]. done.
Qed.

Lemma recovered_waiting p : p_waiting_res (recovered p) = -1.
Proof. unfold recovered. by destruct (bool_decide _). Qed.

(** Recovery removes edges of the wait-for graph and adds none. *)
Lemma next_recovered tbl v i j :
  exclusive tbl -> next (alter recovered v tbl) i = Some j -> i <> v /\ next tbl i = Some j.
Proof.
  intros Hex. unfold next at 1. destruct (decide (i = v)) as [->|Hne].
  { rewrite list_lookup_alter_eq. destruct (tbl !! v); [|done]. cbn. by rewrite recovered_waiting. }
  rewrite list_lookup_alter_ne by done. intros H. split; [done|]. unfold next.
  destruct (tbl !! i) as [p|]; [|done]. cbn in *. case_match; [done|].
  apply holder_Some in H as (q & Hq & Hh).
  destruct (decide (j = v)) as [->|Hjv].
  { rewrite list_lookup_alter_eq in Hq. destruct (tbl !! v) as [qv|]; [|done].
    cbn in Hq. simplify_eq. by apply recovered_holds in Hh. }
  rewrite list_lookup_alter_ne in Hq by done.
  destruct (holder tbl (Z.to_nat (p_waiting_res p))) as [j'|] eqn:E.
  - apply holder_Some in E as (q' & Hq' & Hh'). f_equal. by eapply Hex.
  - by eapply holder_None in E.
Qed.

Lemma cycle_recovered tbl v l :
  exclusive tbl -> cycle (alter recovered v tbl) l -> cycle tbl l /\ v ∉ l.
Proof.
  intros Hex Hc. assert (Hc' := Hc). destruct Hc as (Hne & Hnd & Hn).
  assert (Hstep : forall i, i ∈ l -> i <> v /\ exists j, next (alter recovered v tbl) i = Some j /\ next tbl i = Some j).
  { intros i Hi. destruct (cycle_next _ _ _ Hc' Hi) as (j & Hj & _).
    destruct (next_recovered _ _ _ _ Hex Hj). eauto. }
  split.
  - split_and!; [done..|]. intros k i Hk.
    destruct (Hstep i) as [_ (j & Hj & Hj')]; [by eapply list_elem_of_lookup_2|].
    by rewrite Hj', <- (Hn k i Hk).
  - intros Hv. by destruct (Hstep v Hv).
Qed.

Lemma wp_check_deadlock Q s :
  can_print s -> table_ok s -> proc_locks_free (k_sync s) -> res_ok (k_procs s) ->
  ((forall l, ~ cycle (k_procs s) l) -> Q 0 s) ->
  (forall l v p t, cycle (k_procs s) l -> top_energy (k_procs s) l v ->
     k_procs s !! v = Some p -> printed (upd_procs (alter recovered v) s) t -> Q (p_pid p) t) ->
  wp check_deadlock Q s.
Proof.
  intros Hcp Hlen Hfree Hres HQ0 HQ.
  apply wp_bind, wp_find_deadlock; [done..| |intros Hn; by apply HQ0].
  intros [|d0 ds] Hc; [by destruct Hc|]. apply wp_bind, wp_pick_victim.
  { intros d Hd. destruct (cycle_member _ _ _ Hc Hd) as (p & -> & _). by eexists. }
  intros v Htop. assert (Hv := proj1 Htop). apply wp_bind, wp_report_cycle; [done| |].
  { intros d Hd. destruct (cycle_member _ _ _ Hc Hd) as (p & -> & _). by eexists. }
  intros t Ht. destruct (cycle_member _ _ _ Hc Hv) as (p & Hp & _).
  destruct (proj1 (Forall_lookup _ _) Hres v p Hp) as [Hl _].
  eapply (wp_kill_victim v p); [by eapply printed_can_print| |by destruct Ht as [? ->]|done|].
  { destruct Ht as [? ->]. apply Hfree. rewrite <- Hlen. by eapply lookup_lt_Some. }
  intros u Hu. eapply HQ; [done..|].
  destruct Ht as [o1 ->], Hu as [o2 ->]. exists o2. unfold upd_sync, upd_procs. cbn.
  rewrite touch_idem. kst_eq.
Qed.

Lemma res_ok_recovered v tbl : res_ok tbl -> res_ok (alter recovered v tbl).
Proof.
  unfold res_ok. rewrite !Forall_lookup. intros H i p Hp.
  destruct (decide (v = i)) as [->|Hne].
  - rewrite list_lookup_alter_eq in Hp. destruct (tbl !! i); [|done]. cbn in Hp. simplify_eq.
    rewrite recovered_waiting. split; [|done]. unfold recovered. by destruct (bool_decide _).
  - rewrite list_lookup_alter_ne in Hp by done. by eapply H.
Qed.

Lemma exclusive_recovered v tbl : exclusive tbl -> exclusive (alter recovered v tbl).
Proof.
  assert (Hne : forall i q r, alter recovered v tbl !! i = Some q -> holds r q -> tbl !! i = Some q).
  { intros i q r Hq Hh. destruct (decide (v = i)) as [<-|Hn]; [|by rewrite list_lookup_alter_ne in Hq].
    rewrite list_lookup_alter_eq in Hq. destruct (tbl !! v); [|done]. cbn in Hq. simplify_eq. by apply recovered_holds in Hh. }
  intros Hex r i j p q Hp Hq Hh Hh'. apply (Hex r i j p q); [by eapply Hne..|done|done].
Qed.

(** The processes that wait for a resource. *)
Definition waiters (tbl : list proc) : nat := length (filter (fun p => 0 <= p_waiting_res p) tbl).

Lemma cycle_waiters tbl l v : cycle tbl l -> v ∈ l -> (waiters (alter recovered v tbl) < waiters tbl)%nat.
Proof.
  intros Hc Hv. destruct (cycle_member _ _ _ Hc Hv) as (p & Hp & _ & Hw). unfold waiters.
  rewrite (list_alter_at _ _ _ p) by done. rewrite insert_take_drop by by eapply lookup_lt_Some.
  rewrite <- (take_drop_middle tbl v p Hp) at 3. rewrite !filter_app, !length_app.
  rewrite filter_cons_False by (rewrite recovered_waiting; lia). rewrite filter_cons_True by done. cbn. lia.
Qed.

(** ** Properties *)

(** C2: [check_deadlock] returns, and is exact: it returns 0 and changes nothing
    when the wait-for graph has no cycle; otherwise it finds a cycle, picks a
    member that has used the most energy, clears its resources and its wait,
    marks it killed, wakes it if it sleeps and returns its pid; no other
    process changes and no lock stays held. *)
Theorem check_deadlock_spec (s : kst)
    (Hcp : can_print s) (Hlen : table_ok s) (Hfree : proc_locks_free (k_sync s))
    (Hres : res_ok (k_procs s)) :
  wp check_deadlock (fun r s' =>
    ((forall l, ~ cycle (k_procs s) l) /\ r = 0 /\ s' = s) \/
    (exists l v p, cycle (k_procs s) l /\ top_energy (k_procs s) l v /\
       k_procs s !! v = Some p /\ r = p_pid p /\
       printed (upd_procs (alter recovered v) s) s')) s.
Proof.
  apply wp_check_deadlock; [done..|intros; by left|].
  intros l v p t Hc Ht Hp Hpr. right. by exists l, v, p.
Qed.

(** C28: Recovery makes progress. Each run of [check_deadlock] keeps what the next
    run relies on; when there is a deadlock, fewer processes wait afterwards
    than before; when moreover no resource has two holders, this stays so, the
    table that is left has no deadlock that was not there before, and one that
    was there is gone. Hence [NPROC] runs, one after the other, leave no
    deadlock, whether or not resources are held exclusively. *)
Theorem check_deadlock_progress (s : kst)
    (Hcp : can_print s) (Hlen : table_ok s) (Hfree : proc_locks_free (k_sync s))
    (Hres : res_ok (k_procs s)) :
  wp check_deadlock (fun _ s' =>
    can_print s' /\ table_ok s' /\ proc_locks_free (k_sync s') /\ res_ok (k_procs s') /\
    ((exists l, cycle (k_procs s) l) -> (waiters (k_procs s') < waiters (k_procs s))%nat) /\
    (exclusive (k_procs s) -> exclusive (k_procs s') /\
       (forall l, cycle (k_procs s') l -> cycle (k_procs s) l) /\
       ((exists l, cycle (k_procs s) l) -> exists l, cycle (k_procs s) l /\ ~ cycle (k_procs s') l))) s /\
  wp (for_each (seq 0 NPROC) (fun _ => deadlock_recover)) (fun _ s' => forall l, ~ cycle (k_procs s') l) s.
Proof.
  split.
  - apply wp_check_deadlock; [done..| |].
    + intros Hn. split_and!; [done..|by intros [l Hl%Hn]|]. intros Hex. split_and!; [done..|]. by intros [l Hl%Hn].
    + intros l v p t Hc [Hv _] Hp Hpr.
      assert (Hcp' := printed_can_print _ _ Hpr Hcp). destruct Hpr as [out ->]. cbn in *.
      split_and!; [done|by unfold table_ok in *; cbn; rewrite length_alter|done|by apply res_ok_recovered| |].
      { intros _. by eapply cycle_waiters. }
      intros Hex. assert (Hcr := fun l => cycle_recovered _ v l Hex).
      split_and!; [by apply exclusive_recovered|by intros l' [? _]%Hcr|].
      intros _. exists l. split; [done|]. by intros [_ Hnv]%Hcr.
  - apply (wp_for_each (fun pre t => can_print t /\ table_ok t /\ proc_locks_free (k_sync t) /\ res_ok (k_procs t) /\
      ((forall l, ~ cycle (k_procs t) l) \/ (length pre + waiters (k_procs t) <= NPROC)%nat))).
    + split_and!; [done..|]. right. cbn [length Nat.add]. rewrite <- Hlen. apply length_filter.
    + intros pre i post t _ (H1 & H2 & H3 & H4 & H5). apply wp_bind, wp_check_deadlock; [done..| |].
      * intros Hn. apply wp_ret. split_and!; [done..|]. by left.
      * intros l v p u Hc [Hv _] Hp Hpr. apply wp_ret.
        assert (Hcp' := printed_can_print _ _ Hpr H1). destruct Hpr as [out ->]. cbn [k_procs k_sync upd_sync set_k_sync set_k_out upd_procs set_k_procs] in *.
        split_and!; [done|by unfold table_ok in *; cbn; rewrite length_alter|done|by apply res_ok_recovered|].
        right. destruct H5 as [Hn|H5]; [by destruct (Hn l)|]. assert (H6 := cycle_waiters _ _ _ Hc Hv). rewrite length_app. cbn [length]. lia.
    + intros t (_ & _ & _ & _ & [Hn|Hle]); [done|]. rewrite length_seq in Hle. intros l Hc.
      assert (Hne := proj1 Hc). destruct l as [|i l]; [done|].
      assert (H6 := cycle_waiters _ _ i Hc (list_elem_of_here _ _)). lia.
Qed.
