(* ===== verification/Sleeplock.v ===== *)
(** * Sleep-locks with deadlock detection ([sleeplock.c])

    A process that is about to wait for a sleep-lock follows the chain "owner
    of the lock, lock the owner waits for"; when the chain comes back to the
    process, the member that has used most energy is marked killed. *)

From stdpp Require Import base gmap strings numbers list.
From S2P Require Import Prelude State Spinlock Strings Printf Proc Deadlock.

(** ** The code *)

Definition getslk (l : slid) : KM sleeplock := fun s => deref (k_slocks s !! l) s.
Definition updslk (l : slid) (f : sleeplock -> sleeplock) : KM unit :=
  _ ← getslk l; modify (fun s => set_k_slocks (alter f l (k_slocks s)) s).

Definition pid2proc (pid : Z) : KM (option nat) :=
  if pid <=? 0 then mret None else
  for_find (seq 0 NPROC) (fun i =>
    p ← getp i;
    mret (if (p_pid p =? pid) && negb (bool_decide (p_state p = UNUSED)) then Some i else None)).

(** [next_lock = owner->waiting_for_lock; if(next_lock == 0 ||
    next_lock->locked == 0) stop; owner_pid = next_lock->pid] *)
Definition next_owner (owner : nat) : KM (option Z) :=
  p ← getp owner;
  match p_waiting_for_lock p with
  | None => mret None
  | Some l => k ← getslk l; mret (if slk_locked k then Some (slk_pid k) else None)
  end.

(** [n] is [NPROC - hops]. *)
Fixpoint wcd_loop (n : nat) (current_pid owner_pid : Z) : KM bool :=
  match n with
  | O => mret false
  | S n =>
      if owner_pid <=? 0 then mret false else
      o ← pid2proc owner_pid;
      match o with
      | None => mret false
      | Some owner =>
          p ← getp owner;
          if p_pid p =? current_pid then mret true else
          nx ← next_owner owner;
          match nx with None => mret false | Some pid => wcd_loop n current_pid pid end
      end
  end.

Definition would_create_deadlock (current_proc : option nat) (target_lock : option slid) : KM bool :=
  match current_proc, target_lock with
  | Some c, Some l =>
      k ← getslk l;
      p ← getp c;
      wcd_loop NPROC (p_pid p) (slk_pid k)
  | _, _ => mret false
  end.

(** The loop [while(owner_pid > 0 && owner_pid != start_pid && hops < NPROC)]
    of the recovery, with its body's effect on the owner. *)
Fixpoint walk_owners {A} (n : nat) (start_pid owner_pid : Z) (visit : nat -> A -> KM A) (a : A) : KM A :=
  match n with
  | O => mret a
  | S n =>
      if (owner_pid <=? 0) || (owner_pid =? start_pid) then mret a else
      o ← pid2proc owner_pid;
      match o with
      | None => mret a
      | Some owner =>
          a ← visit owner a;
          nx ← next_owner owner;
          match nx with None => mret a | Some pid => walk_owners n start_pid pid visit a end
      end
  end.

Definition mark_owner (owner : nat) (vm : nat * Z) : KM (nat * Z) :=
  updp owner (set_p_in_deadlock true);;
  p ← getp owner;
  mret (if vm.2 <? p_energy_consumed p then (owner, p_energy_consumed p) else vm).

Definition clear_owner (owner : nat) (_ : unit) : KM unit :=
  updp owner (set_p_in_deadlock false).

(** Steps 1 and 2: mark the cycle, find the victim. *)
Definition mark_cycle (c : nat) (l : slid) (start_pid : Z) : KM nat :=
  updp c (set_p_in_deadlock true);;
  p ← getp c;
  k ← getslk l;
  vm ← walk_owners NPROC start_pid (slk_pid k) mark_owner (c, p_energy_consumed p);
  mret vm.1.

Definition kill_owner (victim : nat) : KM unit :=
  p ← getp victim;
  printf "deadlock recovery: killing pid %d (energy_consumed=%d) to break deadlock
" [PInt (p_pid p); PInt (to_int (p_energy_consumed p))];;
  updp victim (set_p_killed true);;
  p ← getp victim;
  when (bool_decide (p_state p = SLEEPING)) (updp victim (set_p_state RUNNABLE)).

Definition clear_cycle (c : nat) (l : slid) (start_pid : Z) : KM unit :=
  updp c (set_p_in_deadlock false);;
  k ← getslk l;
  walk_owners NPROC start_pid (slk_pid k) clear_owner tt.

(** The victim starts as the current process, so it is never null. *)
Definition energy_aware_deadlock_recovery (c : nat) (l : slid) : KM Z :=
  p ← getp c;
  let start_pid := p_pid p in
  victim ← mark_cycle c l start_pid;
  kill_owner victim;;
  clear_cycle c l start_pid;;
  p ← getp victim;
  mret (p_pid p).

Definition initsleeplock (l : slid) (name : string) : KM unit :=
  initlock (LSleep l) "sleep lock";;
  modify (fun s => set_k_slocks (<[l := mksleep false name 0]> (k_slocks s)) s).

Section sleeplock.
Context {W : World}.

(** The [while (lk->locked)] loop; [fuel] bounds how often it sleeps. *)
Fixpoint acquiresleep_loop (fuel : nat) (p : nat) (l : slid) : KM unit :=
  k ← getslk l;
  if negb (slk_locked k) then mret tt else
  match fuel with
  | O => hang
  | S fuel =>
      updp p (set_p_waiting_for_lock (Some l));;
      d ← would_create_deadlock (Some p) (Some l);
      when d
        (updp p (fun q => set_p_deadlock_reports (wrap64 (p_deadlock_reports q + 1)) q);;
         q ← getp p;
         k ← getslk l;
         printf "deadlock warning: pid %d waits for %s held by pid %d
" [PInt (p_pid q); PStr (Some (bytes_of (slk_name k))); PInt (slk_pid k)];;
         _ ← energy_aware_deadlock_recovery p l;
         mret tt);;
      sleep (Some (ChSleep l)) (Some (LSleep l));;
      acquiresleep_loop fuel p l
  end.

Definition acquiresleep (fuel : nat) (l : slid) : KM unit :=
  me ← myproc;
  acquire (LSleep l);;
  p ← deref me;
  acquiresleep_loop fuel p l;;
  updp p (set_p_waiting_for_lock None);;
  updslk l (set_slk_locked true);;
  q ← getp p;
  updslk l (set_slk_pid (p_pid q));;
  release (LSleep l).

End sleeplock.

Definition releasesleep (l : slid) : KM unit :=
  acquire (LSleep l);;
  updslk l (set_slk_locked false);;
  updslk l (set_slk_pid 0);;
  wakeup (Some (ChSleep l));;
  release (LSleep l).

Definition holdingsleep (l : slid) : KM bool :=
  acquire (LSleep l);;
  k ← getslk l;
  r ← (if slk_locked k then me ← myproc; p ← deref me; q ← getp p; mret (slk_pid k =? p_pid q)
       else mret false);
  release (LSleep l);;
  mret r.

(** ** The wait-for chain *)

Definition is_owner (pid : Z) (p : proc) : Prop := p_pid p = pid /\ p_state p <> UNUSED.

#[global] Instance is_owner_dec pid p : Decision (is_owner pid p).
Proof. unfold is_owner. apply _. Defined.

(** The live process with a given pid. *)
Definition find_owner (tbl : list proc) (pid : Z) : option nat :=
  if pid <=? 0 then None else fst <$> list_find (is_owner pid) tbl.

Abbreviation locks := (gmap slid sleeplock).

(** The pid that owns the sleep-lock process [i] waits for. *)
Definition wait_edge (tbl : list proc) (ls : locks) (i : nat) : option Z :=
  p ← tbl !! i;
  l ← p_waiting_for_lock p;
  k ← ls !! l;
  if slk_locked k then Some (slk_pid k) else None.

(** The chain of owners from [pid] reaches [cpid] for the first time after
    [n] hops: whoever waits for [pid] waits, in the end, for [cpid]. *)
Inductive owes (tbl : list proc) (ls : locks) (cpid : Z) : nat -> Z -> Prop :=
| owes_here i : find_owner tbl cpid = Some i -> owes tbl ls cpid 0 cpid
| owes_step pid i pid' n :
    pid <> cpid -> find_owner tbl pid = Some i -> wait_edge tbl ls i = Some pid' ->
    owes tbl ls cpid n pid' -> owes tbl ls cpid (S n) pid.

(** Every [waiting_for_lock] points to a sleep-lock. *)
Definition waits_ok (tbl : list proc) (ls : locks) : Prop :=
  forall i p l, tbl !! i = Some p -> p_waiting_for_lock p = Some l -> is_Some (ls !! l).

Section chain.
Implicit Types (tbl : list proc) (ls : locks).

Lemma find_owner_Some tbl pid i :
  find_owner tbl pid = Some i -> 0 < pid /\ exists p, tbl !! i = Some p /\ is_owner pid p.
Proof.
  unfold find_owner. destruct (Z.leb_spec pid 0); [done|].
  destruct (list_find _ tbl) as [[j p]|] eqn:E; [|done]. intros [= <-].
  apply list_find_Some in E as (? & ? & _). split; [lia|]. eauto.
Qed.

Lemma find_owner_lt tbl pid i : find_owner tbl pid = Some i -> (i < length tbl)%nat.
Proof. intros (_ & p & Hp & _)%find_owner_Some. by eapply lookup_lt_Some. Qed.

Lemma wp_pid2proc pid Q s :
  table_ok s -> Q (find_owner (k_procs s) pid) s -> wp (pid2proc pid) Q s.
Proof.
  intros Hlen HQ. unfold pid2proc, find_owner in *. destruct (pid <=? 0); [by apply wp_ret|].
  apply (wp_for_find (fun pre t => t = s /\
    forall j q, (j < length pre)%nat -> k_procs s !! j = Some q -> ~ is_owner pid q)).
  - split; [done|]. cbn. lia.
  - intros pre i post t Hsplit [-> Hpre].
    apply seq_split_lt in Hsplit as (-> & Hi & _). rewrite length_seq in Hpre.
    destruct (lookup_lt_is_Some_2 (k_procs s) i) as [p Hp]; [by rewrite Hlen|].
    apply wp_bind. eapply wp_getp; [done|]. apply wp_ret.
    destruct ((p_pid p =? pid) && negb (bool_decide (p_state p = UNUSED))) eqn:E.
    + apply andb_true_iff in E as [E1%Z.eqb_eq E2%negb_true_iff].
      apply bool_decide_eq_false in E2.
      assert (Ef : list_find (is_owner pid) (k_procs s) = Some (i, p)).
      { apply list_find_Some. split_and!; [done|done|]. intros j q Hq Hj. by apply (Hpre j). }
      by rewrite Ef in HQ.
    + split; [done|]. intros j q. rewrite length_app, length_seq. cbn. intros Hj Hq [H1 H2].
      destruct (decide (j = i)) as [->|]; [|apply (Hpre j q); [lia|done|done]]. simplify_eq.
      rewrite Z.eqb_refl in E. cbn in E. by rewrite bool_decide_eq_false_2 in E.
  - intros t [-> Hpre].
    assert (E : list_find (is_owner pid) (k_procs s) = None); [|by rewrite E in HQ].
    apply list_find_None, Forall_lookup. intros j q Hq. apply (Hpre j); [|done].
    rewrite length_seq, <- Hlen. by eapply lookup_lt_Some.
Qed.

Lemma wp_next_owner i Q s :
  (i < length (k_procs s))%nat -> waits_ok (k_procs s) (k_slocks s) ->
  Q (wait_edge (k_procs s) (k_slocks s) i) s -> wp (next_owner i) Q s.
Proof.
  intros [p Hp]%lookup_lt_is_Some_2 Hok HQ. unfold next_owner, wait_edge in *.
  apply wp_bind. eapply wp_getp; [done|]. rewrite Hp in HQ. cbn in HQ.
  destruct (p_waiting_for_lock p) as [l|] eqn:E; [|by apply wp_ret]. cbn in HQ.
  destruct (Hok i p l Hp E) as [k Hk]. rewrite Hk in HQ. apply wp_bind.
  apply (wp_eq _ _ _ k s); [unfold getslk; by rewrite Hk|]. by apply wp_ret.
Qed.

Lemma owes_fun tbl ls cpid n m pid : owes tbl ls cpid n pid -> owes tbl ls cpid m pid -> n = m.
Proof.
  intros H. revert m. induction H as [i Hi|pid i pid' n Hne Hi He H IH]; intros m Hm.
  - inversion Hm; [done|]. congruence.
  - inversion Hm as [|? i2 pid2 m2 ? Hi2 He2 Hm2]; [congruence|]. subst. f_equal. apply IH.
    congruence.
Qed.

(** A chain that reaches its goal visits distinct processes. *)
Lemma owes_distinct tbl ls cpid n pid :
  owes tbl ls cpid n pid ->
  exists l, length l = S n /\ NoDup l /\ Forall (fun i => (i < length tbl)%nat) l /\
    forall i, i ∈ l -> exists m pid', (m <= n)%nat /\ owes tbl ls cpid m pid' /\
      find_owner tbl pid' = Some i.
Proof.
  induction 1 as [i Hi|pid i pid' n Hne Hi He H (l & Hlen & Hnd & Hall & Hl)].
  - exists [i]. split_and!; [done|apply NoDup_singleton| |].
    + constructor; [by eapply find_owner_lt|done].
    + intros j ->%list_elem_of_singleton. exists 0%nat, cpid. split_and!; [done| |done].
      by eapply owes_here.
  - exists (i :: l). split_and!; [cbn; lia| | |].
    + apply NoDup_cons. split; [|done]. intros (m & pid2 & Hm & Ho & Hf)%Hl.
      assert (Hi1 := Hi). apply find_owner_Some in Hi1 as (_ & p & Hp & Hp1 & _).
      assert (Hi' := Hf). apply find_owner_Some in Hi' as (_ & q & Hq & Hq1 & _).
      assert (pid2 = pid) as -> by congruence.
      assert (Hs : owes tbl ls cpid (S n) pid) by (by eapply owes_step).
      pose proof (owes_fun _ _ _ _ _ _ Ho Hs). lia.
    + constructor; [by eapply find_owner_lt|done].
    + intros j [->|(m & pid2 & Hm & Ho & Hf)%Hl]%elem_of_cons.
      * exists (S n), pid. split_and!; [done| |done]. by eapply owes_step.
      * exists m, pid2. split_and!; [lia|done|done].
Qed.

Lemma owes_bound tbl ls cpid n pid : owes tbl ls cpid n pid -> (n < length tbl)%nat.
Proof.
  intros (l & Hlen & Hnd & Hall & _)%owes_distinct.
  pose proof (NoDup_lt_length l (length tbl) Hnd Hall). lia.
Qed.

Lemma wp_wcd_loop n cpid pid Q s :
  table_ok s -> waits_ok (k_procs s) (k_slocks s) ->
  (forall b, (b = true <-> exists m, (m < n)%nat /\ owes (k_procs s) (k_slocks s) cpid m pid) ->
     Q b s) ->
  wp (wcd_loop n cpid pid) Q s.
Proof.
  intros Hlen Hok. revert pid Q. induction n as [|n IH]; intros pid Q HQ; cbn [wcd_loop].
  { apply wp_ret, HQ. split; [done|]. intros (m & ? & _). lia. }
  assert (Hno : find_owner (k_procs s) pid = None -> Q false s).
  { intros E. apply HQ. split; [done|]. intros (m & _ & Ho). inversion Ho; congruence. }
  destruct (pid <=? 0) eqn:E0.
  { apply wp_ret, Hno. unfold find_owner. by rewrite E0. }
  apply wp_bind, wp_pid2proc; [done|].
  destruct (find_owner (k_procs s) pid) as [i|] eqn:Ei; [|by apply wp_ret, Hno].
  assert (Hi := Ei). apply find_owner_Some in Hi as (_ & p & Hp & Hpid & _).
  apply wp_bind. eapply wp_getp; [done|]. rewrite Hpid.
  destruct (Z.eqb_spec pid cpid) as [->|Hne].
  { apply wp_ret, HQ. split; [|done]. intros _. exists 0%nat. split; [lia|]. by eapply owes_here. }
  apply wp_bind, wp_next_owner; [by eapply lookup_lt_Some|done|].
  destruct (wait_edge (k_procs s) (k_slocks s) i) as [pid'|] eqn:Ee.
  - apply IH. intros b Hb. apply HQ. rewrite Hb. split.
    + intros (m & Hm & Ho). exists (S m). split; [lia|]. by eapply owes_step.
    + intros (m & Hm & Ho). inversion Ho as [|? i2 pid2 m2 ? Hi2 He2 Ho2]; [congruence|]. subst.
      exists m2. split; [lia|]. congruence.
  - apply wp_ret, HQ. split; [done|]. intros (m & _ & Ho).
    inversion Ho as [|? i2 pid2 m2 ? Hi2 He2 Ho2]; congruence.
Qed.

End chain.

(** ** The recovery walk *)

(** The owners the recovery visits, in order. *)
Fixpoint owner_walk (n : nat) (start : Z) (tbl : list proc) (ls : locks) (pid : Z) : list nat :=
  match n with
  | O => []
  | S n =>
      if pid =? start then [] else
      match find_owner tbl pid with
      | None => []
      | Some i => i :: match wait_edge tbl ls i with
                       | None => []
                       | Some pid' => owner_walk n start tbl ls pid'
                       end
      end
  end.

(** What the walk reads of a process. *)
Definition wait_view (p : proc) : Z * bool * option slid :=
  (p_pid p, bool_decide (p_state p = UNUSED), p_waiting_for_lock p).

Definition same_waits (l l' : list proc) : Prop := wait_view <$> l = wait_view <$> l'.

Section walk.
Implicit Types (tbl : list proc) (ls : locks).

Lemma same_waits_length tbl tbl' : same_waits tbl tbl' -> length tbl = length tbl'.
Proof. intros H%(f_equal length). by rewrite !length_fmap in H. Qed.

Lemma same_waits_lookup tbl tbl' i p :
  same_waits tbl tbl' -> tbl !! i = Some p ->
  exists q, tbl' !! i = Some q /\ wait_view p = wait_view q.
Proof.
  intros H Hp. apply (f_equal (lookup i)) in H. rewrite !list_lookup_fmap, Hp in H. cbn in H.
  destruct (tbl' !! i) as [q|]; [|done]. exists q. split; [done|]. by apply (inj Some).
Qed.

Lemma same_waits_sym tbl tbl' : same_waits tbl tbl' -> same_waits tbl' tbl.
Proof. unfold same_waits. congruence. Qed.

Lemma find_owner_view tbl tbl' pid : same_waits tbl tbl' -> find_owner tbl pid = find_owner tbl' pid.
Proof.
  intros H. unfold find_owner. destruct (pid <=? 0); [done|]. revert tbl' H.
  induction tbl as [|p tbl IH]; intros [|q tbl'] H; [done..|].
  unfold same_waits in H. rewrite !fmap_cons in H. injection H as H1 H2 _ Ht.
  specialize (IH tbl' Ht). cbn.
  assert (Hiff : is_owner pid p <-> is_owner pid q).
  { unfold is_owner. rewrite H1, <- !(bool_decide_eq_false (_ = UNUSED)), H2. done. }
  destruct (decide (is_owner pid p)), (decide (is_owner pid q)); [done|tauto|tauto|].
  rewrite <- !option_fmap_compose.
  destruct (list_find _ tbl) as [[]|], (list_find _ tbl') as [[]|]; naive_solver.
Qed.

Lemma wait_edge_view tbl tbl' ls i : same_waits tbl tbl' -> wait_edge tbl ls i = wait_edge tbl' ls i.
Proof.
  intros H. unfold wait_edge. destruct (tbl !! i) as [p|] eqn:E.
  - destruct (same_waits_lookup _ _ _ _ H E) as (q & -> & [= _ _ Hw]). cbn. by rewrite Hw.
  - destruct (tbl' !! i) as [q|] eqn:E'; [|done].
    destruct (same_waits_lookup _ _ _ _ (same_waits_sym _ _ H) E') as (p & ? & _). congruence.
Qed.

Lemma waits_ok_view tbl tbl' ls : same_waits tbl tbl' -> waits_ok tbl ls -> waits_ok tbl' ls.
Proof.
  intros H Hok i q l Hq Hl.
  destruct (same_waits_lookup _ _ _ _ (same_waits_sym _ _ H) Hq) as (p & Hp & [= _ _ Hw]).
  eapply Hok; [done|]. congruence.
Qed.

Lemma walk_view n start tbl tbl' ls pid :
  same_waits tbl tbl' -> owner_walk n start tbl ls pid = owner_walk n start tbl' ls pid.
Proof.
  intros H. revert pid. induction n as [|n IH]; intros pid; cbn; [done|].
  case_match; [done|]. rewrite (find_owner_view _ _ _ H).
  destruct (find_owner tbl' pid) as [i|]; [|done]. rewrite (wait_edge_view _ _ _ _ H).
  f_equal. case_match; [apply IH|done].
Qed.

Lemma owes_view tbl tbl' ls cpid n pid :
  same_waits tbl tbl' -> owes tbl ls cpid n pid -> owes tbl' ls cpid n pid.
Proof.
  intros H. induction 1 as [i Hi|pid i pid' n Hne Hi He _ IH].
  - apply (owes_here _ _ _ i). by rewrite <- (find_owner_view _ _ _ H).
  - apply (owes_step _ _ _ _ i pid'); [done| | |done].
    + by rewrite <- (find_owner_view _ _ _ H).
    + by rewrite <- (wait_edge_view _ _ _ _ H).
Qed.

Lemma same_waits_alter (f : proc -> proc) i tbl :
  (forall p, wait_view (f p) = wait_view p) -> same_waits (alter f i tbl) tbl.
Proof.
  intros Hf. unfold same_waits. apply list_eq. intros j. rewrite !list_lookup_fmap.
  destruct (decide (i = j)) as [->|Hne].
  - rewrite list_lookup_alter_eq. destruct (tbl !! j); [|done]. cbn. by rewrite Hf.
  - by rewrite list_lookup_alter_ne.
Qed.

Context {A : Type} (f : proc -> proc) (h : list proc -> nat -> A -> A) (visit : nat -> A -> KM A).
Context (Hf : forall p, wait_view (f p) = wait_view p).
Context (Hh : forall i j a tbl, h (alter f j tbl) i a = h tbl i a).
Context (Hvisit : forall i a t Q, (i < length (k_procs t))%nat ->
  Q (h (k_procs t) i a) (upd_procs (alter f i) t) -> wp (visit i a) Q t).

Lemma wp_walk_owners n start pid a Q s :
  table_ok s -> waits_ok (k_procs s) (k_slocks s) ->
  Q (foldl (fun a i => h (k_procs s) i a) a (owner_walk n start (k_procs s) (k_slocks s) pid))
    (upd_procs (fun tbl => foldl (fun tbl i => alter f i tbl) tbl
                  (owner_walk n start (k_procs s) (k_slocks s) pid)) s) ->
  wp (walk_owners n start pid visit a) Q s.
Proof.
  revert s pid a. induction n as [|n IH]; intros s pid a Hlen Hok HQ; cbn [walk_owners owner_walk] in *.
  { apply wp_ret. same_state HQ. by destruct s. }
  assert (Hid : upd_procs (fun tbl => tbl) s = s) by (by destruct s).
  destruct (Z.eqb_spec pid start) as [->|Hne].
  { rewrite orb_true_r. apply wp_ret. cbn [foldl] in HQ. by rewrite Hid in HQ. }
  rewrite orb_false_r. destruct (pid <=? 0) eqn:E0.
  { unfold find_owner in HQ. rewrite E0 in HQ. apply wp_ret. cbn [foldl] in HQ. by rewrite Hid in HQ. }
  apply wp_bind, wp_pid2proc; [done|].
  destruct (find_owner (k_procs s) pid) as [i|] eqn:Ei.
  2: { apply wp_ret. cbn [foldl] in HQ. by rewrite Hid in HQ. }
  assert (Hi := find_owner_lt _ _ _ Ei). cbn [foldl] in HQ.
  assert (Hv := same_waits_alter f i (k_procs s) Hf).
  apply wp_bind, Hvisit; [done|]. apply wp_bind, wp_next_owner.
  { cbn. by rewrite length_alter. }
  { cbn. eapply waits_ok_view; [by apply same_waits_sym|done]. }
  cbn [upd_procs k_procs k_slocks set_k_procs]. rewrite (wait_edge_view _ _ _ _ Hv).
  destruct (wait_edge (k_procs s) (k_slocks s) i) as [pid'|].
  - apply IH.
    + unfold table_ok. cbn. by rewrite length_alter.
    + cbn. eapply waits_ok_view; [by apply same_waits_sym|done].
    + cbn [upd_procs k_procs k_slocks set_k_procs]. rewrite (walk_view _ _ _ _ _ _ Hv).
      match goal with |- Q ?x ?y => match type of HQ with Q ?x' ?y' =>
        replace x with x'; [replace y with y'; [exact HQ|]|] end end.
      * unfold upd_procs. kst_eq.
      * clear -Hh. generalize (h (k_procs s) i a) as b. generalize (owner_walk n start (k_procs s) (k_slocks s) pid') as w.
        induction w as [|j w IHw]; intros b; cbn; [done|]. by rewrite Hh, IHw.
  - apply wp_ret. exact HQ.
Qed.

End walk.

(** ** The recovery *)

Lemma foldl_alter_idem (f : proc -> proc) (w : list nat) (tbl : list proc) :
  (forall p, f (f p) = f p) ->
  foldl (fun tbl i => alter f i tbl) tbl w =
  imap (fun i p => if decide (i ∈ w) then f p else p) tbl.
Proof.
  intros Hf. apply list_eq. intros j. rewrite list_lookup_imap. revert tbl.
  induction w as [|i w IH]; intros tbl; cbn [foldl].
  { destruct (tbl !! j); [|done]. cbn. by rewrite decide_False by apply not_elem_of_nil. }
  rewrite IH. destruct (decide (i = j)) as [->|Hne].
  - rewrite list_lookup_alter_eq. destruct (tbl !! j) as [p|]; [|done]. cbn. f_equal.
    rewrite (decide_True (P := j ∈ j :: w)) by constructor. case_decide; [by rewrite Hf|done].
  - rewrite list_lookup_alter_ne by done. destruct (tbl !! j) as [p|]; [|done]. cbn. f_equal.
    apply decide_ext. rewrite elem_of_cons. naive_solver.
Qed.

Definition max_step (tbl : list proc) (i : nat) (vm : nat * Z) : nat * Z :=
  match tbl !! i with
  | Some p => if vm.2 <? p_energy_consumed p then (i, p_energy_consumed p) else vm
  | None => vm
  end.

Lemma max_step_top tbl c p w :
  tbl !! c = Some p ->
  let vm := foldl (fun vm i => max_step tbl i vm) (c, p_energy_consumed p) w in
  exists q, tbl !! vm.1 = Some q /\ vm.2 = p_energy_consumed q /\ vm.1 ∈ c :: w /\
    forall j r, j ∈ c :: w -> tbl !! j = Some r -> p_energy_consumed r <= vm.2.
Proof.
  intros Hp. induction w as [|i w IH] using rev_ind; cbn zeta in *.
  - exists p. cbn. split_and!; [done|done|constructor|].
    intros j r ->%list_elem_of_singleton Hr. simplify_eq. lia.
  - rewrite foldl_app. cbn [foldl]. set (vm := foldl _ _ w) in *.
    destruct IH as (q & Hq & Hm & Hin & Hmax). unfold max_step.
    assert (Hsub : forall j, j ∈ c :: w -> j ∈ c :: w ++ [i]).
    { intros j Hj. rewrite app_comm_cons. apply elem_of_app. by left. }
    assert (Hcase : forall j, j ∈ c :: w ++ [i] -> j ∈ c :: w \/ j = i).
    { intros j. rewrite app_comm_cons, elem_of_app, list_elem_of_singleton. done. }
    destruct (tbl !! i) as [pi|] eqn:Hi.
    + destruct (Z.ltb_spec vm.2 (p_energy_consumed pi)).
      * exists pi. cbn. split_and!; [done|done| |].
        { rewrite app_comm_cons. apply elem_of_app. right. by apply list_elem_of_singleton. }
        intros j r [Hj| ->]%Hcase Hr; [|simplify_eq; lia]. specialize (Hmax j r Hj Hr). lia.
      * exists q. split_and!; [done..|by apply Hsub|].
        intros j r [Hj| ->]%Hcase Hr; [by apply (Hmax j)|simplify_eq; lia].
    + exists q. split_and!; [done..|by apply Hsub|].
      intros j r [Hj| ->]%Hcase Hr; [by apply (Hmax j)|congruence].
Qed.

(** The net effect of the recovery on one process. *)
Definition recover1 (c : nat) (w : list nat) (v i : nat) (q : proc) : proc :=
  let q := if decide (i = v) then kill1 q else q in
  if decide (i ∈ c :: w) then set_p_in_deadlock false q else q.

Lemma kill1_view p : wait_view (kill1 p) = wait_view p.
Proof. unfold kill1, wait_view. cbn. case_bool_decide as E; cbn; [by rewrite E|done]. Qed.

Lemma recover1_view c w v i q : wait_view (recover1 c w v i q) = wait_view q.
Proof.
  assert (Hk := kill1_view q).
  unfold recover1. destruct (decide (i = v)), (decide (i ∈ c :: w)); unfold wait_view in *; done.
Qed.

Lemma same_waits_imap (f : nat -> proc -> proc) tbl :
  (forall i p, wait_view (f i p) = wait_view p) -> same_waits (imap f tbl) tbl.
Proof.
  intros Hf. unfold same_waits. apply list_eq. intros j.
  rewrite !list_lookup_fmap, list_lookup_imap. destruct (tbl !! j); [|done]. cbn. by rewrite Hf.
Qed.

(** Marking, killing and clearing compose to [recover1]. *)
Lemma recover_table c w v tbl :
  v ∈ c :: w ->
  let mark := set_p_in_deadlock true in
  let clear := set_p_in_deadlock false in
  foldl (fun tbl i => alter clear i tbl)
    (alter clear c (alter kill1 v (foldl (fun tbl i => alter mark i tbl) (alter mark c tbl) w))) w
  = imap (recover1 c w v) tbl.
Proof.
  intros Hv mark clear. rewrite !foldl_alter_idem by done. apply list_eq. intros i.
  rewrite !list_lookup_imap.
  assert (Hk : forall b q, kill1 (set_p_in_deadlock b q) = set_p_in_deadlock b (kill1 q)).
  { intros b q. unfold kill1. cbn. by destruct (bool_decide _). }
  assert (Hb : forall b b' q, set_p_in_deadlock b (set_p_in_deadlock b' q) = set_p_in_deadlock b q) by done.
  assert (Hc : c ∈ c :: w) by constructor.
  assert (Hw : i ∈ c :: w <-> i = c \/ i ∈ w) by apply elem_of_cons.
  destruct (decide (c = i)) as [->|Hci]; [rewrite list_lookup_alter_eq|rewrite list_lookup_alter_ne by done].
  all: (destruct (decide (v = i)) as [->|Hvi];
         [rewrite list_lookup_alter_eq|rewrite list_lookup_alter_ne by done]).
  all: rewrite list_lookup_imap.
  all: first [rewrite list_lookup_alter_eq|rewrite list_lookup_alter_ne by done].
  all: destruct (tbl !! i) as [p|]; [|done]; cbn; f_equal; unfold recover1, mark, clear.
  all: repeat case_decide; rewrite ?Hk, ?Hb, ?Hk; try done; exfalso; naive_solver.
Qed.

Lemma wp_mark_owner i vm t Q :
  (i < length (k_procs t))%nat ->
  Q (max_step (k_procs t) i vm) (upd_procs (alter (set_p_in_deadlock true) i) t) ->
  wp (mark_owner i vm) Q t.
Proof.
  intros Hi HQ. destruct (lookup_lt_is_Some_2 _ _ Hi) as [p Hp].
  apply wp_bind, wp_updp; [done|]. apply wp_bind.
  eapply wp_getp; [cbn; by rewrite list_lookup_alter_eq, Hp|]. apply wp_ret.
  unfold max_step in HQ. by rewrite Hp in HQ.
Qed.

Lemma max_step_mark b i j vm tbl :
  max_step (alter (set_p_in_deadlock b) j tbl) i vm = max_step tbl i vm.
Proof.
  unfold max_step. destruct (decide (j = i)) as [->|Hne].
  - rewrite list_lookup_alter_eq. by destruct (tbl !! i).
  - by rewrite list_lookup_alter_ne.
Qed.

Lemma wp_getslk l k Q s : k_slocks s !! l = Some k -> Q k s -> wp (getslk l) Q s.
Proof. intros H HQ. unfold wp, getslk. by rewrite H. Qed.

Definition mark_all (b : bool) (c : nat) (w : list nat) (tbl : list proc) : list proc :=
  foldl (fun tbl i => alter (set_p_in_deadlock b) i tbl) (alter (set_p_in_deadlock b) c tbl) w.

Lemma mark_all_view b c w tbl : same_waits (mark_all b c w tbl) tbl.
Proof.
  unfold mark_all. rewrite foldl_alter_idem by done.
  assert (H := same_waits_alter (set_p_in_deadlock b) c tbl (fun _ => eq_refl)).
  unfold same_waits in *. rewrite <- H. apply same_waits_imap. intros i q. by case_decide.
Qed.

Lemma wp_mark_cycle c l p k start Q s :
  table_ok s -> waits_ok (k_procs s) (k_slocks s) ->
  k_procs s !! c = Some p -> k_slocks s !! l = Some k ->
  (forall v, let w := owner_walk NPROC start (k_procs s) (k_slocks s) (slk_pid k) in
     top_energy (k_procs s) (c :: w) v -> Q v (upd_procs (mark_all true c w) s)) ->
  wp (mark_cycle c l start) Q s.
Proof.
  intros Hlen Hok Hp Hk HQ. unfold mark_cycle.
  assert (Hc := lookup_lt_Some _ _ _ Hp).
  assert (Hv := same_waits_alter (set_p_in_deadlock true) c (k_procs s) (fun _ => eq_refl)).
  apply wp_bind, wp_updp; [done|].
  apply wp_bind. eapply wp_getp; [cbn; by rewrite list_lookup_alter_eq, Hp|].
  apply wp_bind. eapply wp_getslk; [done|]. apply wp_bind.
  apply (wp_walk_owners (set_p_in_deadlock true) max_step);
    [done|intros; apply max_step_mark|apply wp_mark_owner| | |].
  { unfold table_ok. cbn. by rewrite length_alter. }
  { cbn. eapply waits_ok_view; [by apply same_waits_sym|done]. }
  cbn [upd_procs k_procs k_slocks set_k_procs]. rewrite (walk_view _ _ _ _ _ _ Hv).
  apply wp_ret. apply HQ.
  set (w := owner_walk _ _ _ _ _).
  destruct (max_step_top (k_procs s) c p w Hp) as (q & Hq & Hm & Hin & Hmax). cbn zeta in *.
  assert (E : forall vm, foldl (fun vm i => max_step (alter (set_p_in_deadlock true) c (k_procs s)) i vm)
                vm w = foldl (fun vm i => max_step (k_procs s) i vm) vm w).
  { clear. induction w as [|i w IH]; intros vm; cbn; [done|]. by rewrite max_step_mark, IH. }
  cbn [p_energy_consumed set_p_in_deadlock]. rewrite E. split; [done|]. exists q. split; [done|].
  intros j r Hj Hr. rewrite <- Hm. by apply (Hmax j).
Qed.

Lemma wp_kill_owner v p Q s :
  can_print s -> k_procs s !! v = Some p ->
  (forall t, printed (upd_procs (alter kill1 v) s) t -> Q tt t) ->
  wp (kill_owner v) Q s.
Proof.
  intros Hcp Hp0 HQ. unfold kill_owner. apply wp_bind. eapply wp_getp; [done|].
  apply wp_bind, wp_printf_printed; [done|vm_compute; by eexists|]. intros s1 [out ->].
  assert (Hp : k_procs (upd_sync touch (set_k_out out s)) !! v = Some p) by done.
  assert (Hv := lookup_lt_Some _ _ _ Hp).
  assert (HQ' : Q tt (upd_procs (alter kill1 v) (upd_sync touch (set_k_out out s)))).
  { apply HQ. exists out. unfold upd_procs, upd_sync. kst_eq. }
  apply wp_bind, wp_updp; [done|].
  apply wp_bind. eapply wp_getp; [cbn; by rewrite list_lookup_alter_eq, Hp0|]. cbn [p_state set_p_killed].
  apply wp_when; intros E.
  - apply wp_updp; [cbn; by rewrite length_alter|]. same_state HQ'.
    unfold upd_procs, set_k_procs. cbn. f_equal. rewrite list_alter_alter_eq.
    apply list_alter_ext; [|done]. intros q Hq. simplify_eq. unfold kill1, compose. cbn. by rewrite E.
  - same_state HQ'. apply (alter_ext_at _ _ _ _ p); [done|]. unfold kill1. cbn. by rewrite E.
Qed.

Lemma wp_clear_cycle c l k start Q s :
  table_ok s -> waits_ok (k_procs s) (k_slocks s) -> (c < NPROC)%nat -> k_slocks s !! l = Some k ->
  Q tt (upd_procs (mark_all false c (owner_walk NPROC start (k_procs s) (k_slocks s) (slk_pid k))) s) ->
  wp (clear_cycle c l start) Q s.
Proof.
  intros Hlen Hok Hc Hk HQ. unfold clear_cycle.
  assert (Hv := same_waits_alter (set_p_in_deadlock false) c (k_procs s) (fun _ => eq_refl)).
  apply wp_bind, wp_updp; [by rewrite Hlen|]. apply wp_bind. eapply wp_getslk; [done|].
  apply (wp_walk_owners (set_p_in_deadlock false) (fun _ _ a => a)); [done|done| | | |].
  { intros i a t Q' Hi HQ'. apply wp_updp; [done|]. by destruct a. }
  { unfold table_ok. cbn. by rewrite length_alter. }
  { cbn. eapply waits_ok_view; [by apply same_waits_sym|done]. }
  cbn [upd_procs k_procs k_slocks set_k_procs]. rewrite (walk_view _ _ _ _ _ _ Hv).
  match goal with |- Q ?a _ => destruct a end. exact HQ.
Qed.

Lemma same_waits_trans t1 t2 t3 : same_waits t1 t2 -> same_waits t2 t3 -> same_waits t1 t3.
Proof. unfold same_waits. congruence. Qed.

Lemma wp_recovery c l p k Q s :
  can_print s -> table_ok s -> waits_ok (k_procs s) (k_slocks s) ->
  k_procs s !! c = Some p -> k_slocks s !! l = Some k ->
  (forall v q t, let w := owner_walk NPROC (p_pid p) (k_procs s) (k_slocks s) (slk_pid k) in
     top_energy (k_procs s) (c :: w) v -> k_procs s !! v = Some q ->
     printed (upd_procs (imap (recover1 c w v)) s) t -> Q (p_pid q) t) ->
  wp (energy_aware_deadlock_recovery c l) Q s.
Proof.
  intros Hcp Hlen Hok Hp Hk HQ. unfold energy_aware_deadlock_recovery.
  assert (Hc := lookup_lt_Some _ _ _ Hp). rewrite Hlen in Hc.
  apply wp_bind. eapply wp_getp; [done|]. apply wp_bind. eapply wp_mark_cycle; [done..|].
  cbn zeta in *. set (w := owner_walk NPROC (p_pid p) _ _ _) in *. intros v Htop.
  destruct (Htop) as (Hin & q & Hq & _).
  assert (H1 := mark_all_view true c w (k_procs s)).
  destruct (same_waits_lookup _ _ _ _ (same_waits_sym _ _ H1) Hq) as (q1 & Hq1 & _).
  apply wp_bind. eapply wp_kill_owner; [done..|]. intros t [out ->].
  set (tbl2 := alter kill1 v (mark_all true c w (k_procs s))).
  assert (H2 : same_waits tbl2 (k_procs s)).
  { eapply same_waits_trans; [apply same_waits_alter, kill1_view|done]. }
  apply wp_bind. eapply (wp_clear_cycle c l k).
  { exact (eq_trans (same_waits_length _ _ H2) Hlen). }
  { exact (waits_ok_view _ _ _ (same_waits_sym _ _ H2) Hok). }
  { done. }
  { done. }
  assert (E : mark_all false c w tbl2 = imap (recover1 c w v) (k_procs s)) by (by apply recover_table).
  assert (Ew : owner_walk NPROC (p_pid p) tbl2 (k_slocks s) (slk_pid k) = w) by (by apply walk_view).
  match goal with |- _ ?u =>
    replace u with (upd_sync touch (set_k_out out (upd_procs (imap (recover1 c w v)) s))) end.
  2: { unfold upd_procs. rewrite <- E, <- Ew at 1. unfold upd_sync. kst_eq. }
  apply wp_bind. eapply (wp_getp _ (recover1 c w v v q)).
  { cbn. by rewrite list_lookup_imap, Hq. }
  assert (Hpid : p_pid (recover1 c w v v q) = p_pid q).
  { assert (Hrv := recover1_view c w v v q). by injection Hrv. }
  apply wp_ret. rewrite Hpid. eapply HQ; [done..|]. by exists out.
Qed.

(** ** Taking and releasing *)

Lemma wp_updslk l f k Q s :
  k_slocks s !! l = Some k -> Q tt (set_k_slocks (alter f l (k_slocks s)) s) ->
  wp (updslk l f) Q s.
Proof. intros Hk HQ. apply wp_bind. eapply wp_getslk; [done|]. by apply wp_modify. Qed.

Definition seize (pid : Z) (k : sleeplock) : sleeplock := mksleep true (slk_name k) pid.
Definition drop_lock (k : sleeplock) : sleeplock := mksleep false (slk_name k) 0.

(** What [acquiresleep] changes when it takes the lock. *)
Definition taken (p : nat) (pid : Z) (l : slid) (s : kst) : kst :=
  set_k_slocks (alter (seize pid) l (k_slocks s))
    (upd_procs (alter (set_p_waiting_for_lock None) p) s).

Section acquiring.
Context {W : World}.

(** The end of [acquiresleep], from a loop test that finds the lock free. *)
Lemma wp_acquiresleep_end fuel p q l k y Q s :
  k_sync s = acq (LSleep l) y -> sync_wf y -> lock_free (LSleep l) y ->
  k_slocks s !! l = Some k -> slk_locked k = false -> k_procs s !! p = Some q ->
  Q tt (set_k_sync (touch y) (taken p (p_pid q) l s)) ->
  wp (acquiresleep_loop fuel p l;;
      updp p (set_p_waiting_for_lock None);;
      updslk l (set_slk_locked true);;
      q ← getp p;
      updslk l (set_slk_pid (p_pid q));;
      release (LSleep l)) Q s.
Proof.
  intros Hy Hwf Hf Hk Hun Hq HQ.
  assert (Hloop : acquiresleep_loop fuel p l s = Ok tt s).
  { destruct fuel; cbn; rewrite (bind_ok _ _ _ k s) by (unfold getslk; by rewrite Hk); by rewrite Hun. }
  apply wp_bind. apply (wp_eq _ _ _ _ _ Hloop).
  apply wp_bind, wp_updp; [by eapply lookup_lt_Some|].
  apply wp_bind. eapply wp_updslk; [done|].
  apply wp_bind. eapply wp_getp; [cbn; by rewrite list_lookup_alter_eq, Hq|].
  apply wp_bind. eapply wp_updslk; [cbn; by rewrite lookup_alter_eq, Hk|].
  eapply wp_release_acq; [exact Hwf|exact Hf|done|].
  same_state HQ. unfold taken, upd_procs. cbn. rewrite alter_alter_eq. kst_eq.
Qed.

Lemma wp_acquiresleep_free fuel p q l k Q s :
  sync_wf (k_sync s) -> running (k_sync s) = Some p -> lock_free (LSleep l) (k_sync s) ->
  k_slocks s !! l = Some k -> slk_locked k = false -> k_procs s !! p = Some q ->
  Q tt (upd_sync touch (taken p (p_pid q) l s)) ->
  wp (acquiresleep fuel l) Q s.
Proof.
  intros Hwf Hrun Hf Hk Hun Hq HQ. unfold acquiresleep.
  apply wp_bind, wp_myproc'; [done|]. rewrite Hrun.
  apply wp_bind, wp_acquire; [by apply sync_wf_touch|done|].
  apply wp_bind. eapply wp_deref; [done|].
  eapply (wp_acquiresleep_end fuel p q l k (touch (k_sync s)));
    [done|by apply sync_wf_touch|done|done|done|done|].
  same_state HQ. rewrite touch_idem. unfold upd_sync, taken, upd_procs. kst_eq.
Qed.

End acquiring.

Lemma wp_holdingsleep l k p q Q s :
  sync_wf (k_sync s) -> running (k_sync s) = Some p -> lock_free (LSleep l) (k_sync s) ->
  k_slocks s !! l = Some k -> k_procs s !! p = Some q ->
  Q (slk_locked k && (slk_pid k =? p_pid q)) (upd_sync touch s) -> wp (holdingsleep l) Q s.
Proof.
  intros Hwf Hrun Hf Hk Hq HQ. unfold holdingsleep.
  apply wp_bind, wp_acquire; [done..|]. apply wp_bind. eapply wp_getslk; [done|].
  assert (Hend : forall b, Q b (upd_sync touch s) ->
    wp (release (LSleep l);; mret b) Q (upd_sync (acq (LSleep l)) s)).
  { intros b Hb. apply wp_bind. eapply (wp_release_acq (LSleep l) (k_sync s)); [done..|]. exact Hb. }
  apply wp_bind. destruct (slk_locked k); [|apply wp_ret; by apply Hend].
  apply wp_bind. eapply (wp_myproc_in (LSleep l) (k_sync s)); [done..|]. rewrite Hrun.
  apply wp_bind. eapply wp_deref; [done|]. apply wp_bind. eapply wp_getp; [done|].
  apply wp_ret. by apply Hend.
Qed.

Lemma wp_releasesleep l k Q s :
  sync_wf (k_sync s) -> table_ok s -> proc_locks_free (k_sync s) -> lock_free (LSleep l) (k_sync s) ->
  k_slocks s !! l = Some k ->
  Q tt (upd_sync touch (upd_procs (imap (wake_others (Some (ChSleep l)) (running (k_sync s))))
          (set_k_slocks (alter drop_lock l (k_slocks s)) s))) ->
  wp (releasesleep l) Q s.
Proof.
  intros Hwf Hlen Hfree Hf Hk HQ. unfold releasesleep.
  apply wp_bind, wp_acquire; [done..|].
  apply wp_bind. eapply wp_updslk; [done|].
  apply wp_bind. eapply wp_updslk; [cbn; by rewrite lookup_alter_eq, Hk|].
  apply wp_bind, wp_wakeup; [by apply sync_wf_acq|done|by apply proc_locks_free_acq|].
  cbn [k_sync set_k_slocks upd_sync set_k_sync]. rewrite running_acq.
  eapply (wp_release_acq (LSleep l) (k_sync s)); [done|done|cbn; by apply touch_acq|].
  same_state HQ. unfold upd_sync, upd_procs. cbn. rewrite alter_alter_eq. kst_eq.
Qed.

Lemma wp_would_create_deadlock c l p k Q s :
  table_ok s -> waits_ok (k_procs s) (k_slocks s) ->
  k_procs s !! c = Some p -> k_slocks s !! l = Some k ->
  (forall b, (b = true <-> exists n, owes (k_procs s) (k_slocks s) (p_pid p) n (slk_pid k)) -> Q b s) ->
  wp (would_create_deadlock (Some c) (Some l)) Q s.
Proof.
  intros Hlen Hok Hp Hk HQ. apply wp_bind. eapply wp_getslk; [done|].
  apply wp_bind. eapply wp_getp; [done|]. apply wp_wcd_loop; [done..|].
  intros b Hb. apply HQ. rewrite Hb. split; intros (n & H); [naive_solver|].
  exists n. split; [|done]. rewrite <- Hlen. by eapply owes_bound.
Qed.

(** ** Properties *)

(** C3: [would_create_deadlock] is exact: it answers yes precisely when the chain
    "owner of the lock, lock that owner waits for, its owner, ..." comes back
    to the current process; the bound of [NPROC] hops loses no deadlock. *)
Theorem would_create_deadlock_exact (c : nat) (l : slid) (p : proc) (k : sleeplock) (s : kst)
    (Hlen : table_ok s) (Hok : waits_ok (k_procs s) (k_slocks s))
    (Hp : k_procs s !! c = Some p) (Hk : k_slocks s !! l = Some k) :
  exists b, would_create_deadlock (Some c) (Some l) s = Ok b s /\
    (b = true <-> exists n, owes (k_procs s) (k_slocks s) (p_pid p) n (slk_pid k)).
Proof.
  assert (H : wp (would_create_deadlock (Some c) (Some l)) (fun b t => t = s /\
    (b = true <-> exists n, owes (k_procs s) (k_slocks s) (p_pid p) n (slk_pid k))) s).
  { by eapply wp_would_create_deadlock. }
  apply wp_inv in H as (b & t & E & -> & Hb). eauto.
Qed.

(** The energy-aware recovery returns the pid of a process that has used most
    energy among the current process and the owners on its chain; that
    process is marked killed and woken if asleep, every [in_deadlock] flag of
    the chain is clear again, and nothing else of the table changes. *)
Theorem recovery_spec (c : nat) (l : slid) (p : proc) (k : sleeplock) (s : kst)
    (Hcp : can_print s) (Hlen : table_ok s) (Hok : waits_ok (k_procs s) (k_slocks s))
    (Hp : k_procs s !! c = Some p) (Hk : k_slocks s !! l = Some k) :
  let w := owner_walk NPROC (p_pid p) (k_procs s) (k_slocks s) (slk_pid k) in
  wp (energy_aware_deadlock_recovery c l) (fun r s' => exists v q,
    top_energy (k_procs s) (c :: w) v /\ k_procs s !! v = Some q /\ r = p_pid q /\
    printed (upd_procs (imap (recover1 c w v)) s) s') s.
Proof. cbn zeta. eapply wp_recovery; [done..|]. intros v q t Hv Hq Ht. by exists v, q. Qed.

(** C29: The recovery does not break the deadlock it is called for: the sleep-locks
    keep their owners and the processes go on waiting for them, so that the
    same check still reports the deadlock afterwards. *)
Theorem recovery_leaves_deadlock (n c : nat) (l : slid) (p : proc) (k : sleeplock) (s : kst)
    (Hcp : can_print s) (Hlen : table_ok s) (Hok : waits_ok (k_procs s) (k_slocks s))
    (Hp : k_procs s !! c = Some p) (Hk : k_slocks s !! l = Some k)
    (Hdead : owes (k_procs s) (k_slocks s) (p_pid p) n (slk_pid k)) :
  wp (_ ← energy_aware_deadlock_recovery c l; would_create_deadlock (Some c) (Some l))
     (fun b s' => b = true /\ k_slocks s' = k_slocks s) s.
Proof.
  apply wp_bind. eapply wp_recovery; [done..|]. cbn zeta.
  set (w := owner_walk _ _ _ _ _). intros v q t Hv Hq [out ->].
  assert (Hw : same_waits (imap (recover1 c w v) (k_procs s)) (k_procs s)).
  { apply same_waits_imap. intros; apply recover1_view. }
  destruct (same_waits_lookup _ _ _ _ (same_waits_sym _ _ Hw) Hp) as (p' & Hp' & [= Hpid _ _]).
  eapply wp_would_create_deadlock;
    [exact (eq_trans (same_waits_length _ _ Hw) Hlen)
    |exact (waits_ok_view _ _ _ (same_waits_sym _ _ Hw) Hok)|exact Hp'|exact Hk|].
  intros b Hb. split; [|done]. apply Hb. exists n.
  rewrite <- Hpid. by eapply owes_view; [apply same_waits_sym|].
Qed.

(** A free sleep-lock is taken at once: the caller becomes its owner, stops
    waiting, and [holdingsleep] then answers yes; no spin-lock stays held. *)
Theorem acquiresleep_takes {W : World} (fuel p : nat) (l : slid) (k : sleeplock) (q : proc) (s : kst)
    (Hwf : sync_wf (k_sync s)) (Hrun : running (k_sync s) = Some p)
    (Hf : lock_free (LSleep l) (k_sync s)) (Hk : k_slocks s !! l = Some k)
    (Hun : slk_locked k = false) (Hq : k_procs s !! p = Some q) :
  acquiresleep fuel l s = Ok tt (upd_sync touch (taken p (p_pid q) l s)) /\
  wp (acquiresleep fuel l;; holdingsleep l) (fun b _ => b = true) s.
Proof.
  split; [apply wp_run; by eapply wp_acquiresleep_free|].
  apply wp_bind. eapply wp_acquiresleep_free; [done..|].
  eapply (wp_holdingsleep l (seize (p_pid q) k) p (set_p_waiting_for_lock None q)).
  - by apply sync_wf_touch.
  - cbn. by rewrite running_touch.
  - done.
  - cbn. by rewrite lookup_alter_eq, Hk.
  - cbn. by rewrite list_lookup_alter_eq, Hq.
  - cbn. apply Z.eqb_refl.
Qed.

(** [releasesleep] frees the lock and makes exactly the processes asleep on
    it runnable. *)
Theorem releasesleep_spec (l : slid) (k : sleeplock) (s : kst)
    (Hwf : sync_wf (k_sync s)) (Hlen : table_ok s) (Hfree : proc_locks_free (k_sync s))
    (Hf : lock_free (LSleep l) (k_sync s)) (Hk : k_slocks s !! l = Some k) :
  releasesleep l s = Ok tt (upd_sync touch
    (upd_procs (imap (wake_others (Some (ChSleep l)) (running (k_sync s))))
      (set_k_slocks (alter drop_lock l (k_slocks s)) s))).
Proof. apply wp_run. by eapply wp_releasesleep. Qed.
