(* ===== verification/Quiet.v ===== *)
(** * One process running undisturbed

    The specifications of the file system speak of one process [p] that runs
    on this CPU with no spin-lock held. [quiet p s] collects what its calls
    rely on; [frame s s'] says what a call leaves alone: everything but the
    sleep-locks and the file system's variables, which each specification
    describes itself, the console output, the clock, and what [wakeup] does to
    sleeping processes. *)

From stdpp Require Import base gmap strings numbers list.
From S2P Require Import Prelude State Spinlock Strings Printf Proc Sleeplock.

(** The spin-locks a file-system call takes. *)
Inductive fs_lock : lockid -> Prop :=
| fl_ftable : fs_lock LFtable
| fl_itable : fs_lock LItable
| fl_bcache : fs_lock LBcache
| fl_log : fs_lock LLog
| fl_vdisk : fs_lock LVdisk
| fl_pr : fs_lock LPr
| fl_kmem : fs_lock LKmem
| fl_wait : fs_lock LWait
| fl_pid : fs_lock LPid
| fl_ticks : fs_lock LTicks
| fl_cons : fs_lock LCons
| fl_uart : fs_lock LUart
| fl_buf i : (i < NBUF)%nat -> fs_lock (LSleep (SLBuf i))
| fl_inode i : (i < NINODE)%nat -> fs_lock (LSleep (SLInode i)).

Create HintDb quiet.
#[export] Hint Constructors fs_lock : quiet.

Record quiet (p : nat) (s : kst) : Prop := {
  q_cpu : on_cpu p (k_sync s);
  q_tab : table_ok s;
  q_me : (p < NPROC)%nat;
  q_procs : proc_locks_free (k_sync s);
  q_locks : forall l, fs_lock l -> lock_free l (k_sync s);
  q_calm : calm s
}.

(** What happens to a process while others run undisturbed: it is woken, and
    it stops waiting for a sleep-lock. *)
Definition stirred (q q' : proc) : Prop :=
  exists st w, q' = set_p_state st (set_p_waiting_for_lock w q) /\
    (st = p_state q \/ p_state q = SLEEPING /\ st = RUNNABLE).

(** The fields a frame fixes: not those of the disk driver, nor the record of the
    stores to device registers. *)
Definition driver_mask (d : devst) : devst :=
  set_d_disk (mkvdisk [] 0 [] 0 [] [] 0 [] [] (0, 0, 0)) (set_d_mmio [] d).

Definition core (s : kst) : kst :=
  set_k_sync (mksync 0 [] ∅) (set_k_procs [] (set_k_slocks ∅
    (set_k_fs (mkfsst [] (mklog 0 0 false 0 0 []) (mksuper 0 0 0 0 0 0 0 0) [] [] (fun _ => []) [])
      (set_k_out [] (set_k_time 0 (set_k_stimecmp 0 (set_k_nsw 0 (upd_dev driver_mask s)))))))).

Record frame (s s' : kst) : Prop := {
  fr_core : core s = core s';
  fr_sync : touch (k_sync s) = touch (k_sync s');
  fr_procs : Forall2 stirred (k_procs s) (k_procs s')
}.

Section quiet.
Implicit Types (s : kst) (p : nat).

#[global] Instance stirred_preorder : PreOrder stirred.
Proof.
  split.
  - intros q. exists (p_state q), (p_waiting_for_lock q). split; [by destruct q|by left].
  - intros q1 q2 q3 (st1 & w1 & -> & H1) (st2 & w2 & -> & H2). exists st2, w2.
    split; [by destruct q1|]. cbn in H2. naive_solver.
Qed.

#[global] Instance frame_preorder : PreOrder frame.
Proof.
  split.
  - intros s. by split.
  - intros s1 s2 s3 [A1 B1 C1] [A2 B2 C2]. split; [congruence..|]. by etrans.
Qed.

Lemma frame_proc s s' i q :
  frame s s' -> k_procs s !! i = Some q -> exists q', k_procs s' !! i = Some q' /\ stirred q q'.
Proof. intros [_ _ H] Hq. by eapply Forall2_lookup_l. Qed.

Lemma on_cpu_touch p y y' : touch y = touch y' -> on_cpu p y -> on_cpu p y'.
Proof.
  intros Ht (c & Hc & Hw & Hn & Hp & Hf). destruct (touch_cur _ _ _ Ht Hc) as (c' & Hc' & E).
  exists c'. split_and!; [done|by eapply touch_cpu_wf|by rewrite <- (touch_cpu_noff _ _ E)|by rewrite <- (touch_cpu_proc _ _ E)|].
  unfold few_locks. by rewrite <- (touch_locks _ _ Ht).
Qed.

Lemma quiet_frame p s s' : quiet p s -> frame s s' -> quiet p s'.
Proof.
  intros [H1 H2 H3 H4 H5 H6] [A B C]. split.
  - by eapply on_cpu_touch.
  - unfold table_ok. rewrite <- H2. symmetry. by eapply Forall2_length.
  - done.
  - by eapply touch_proc_locks_free.
  - intros l Hl. eapply touch_lock_free; [done|]. by apply H5.
  - unfold calm in *. apply (f_equal k_panicking) in A as A1. apply (f_equal k_panicked) in A as A2.
    cbn in A1, A2. by rewrite <- A1, <- A2.
Qed.

Lemma quiet_mem p m s : quiet p s -> quiet p (set_k_mem m s).
Proof. by intros [? ? ? ? ? ?]. Qed.

Lemma quiet_wf p s : quiet p s -> sync_wf (k_sync s).
Proof. intros [H _]. by eapply on_cpu_wf. Qed.

Lemma quiet_running p s : quiet p s -> running (k_sync s) = Some p.
Proof. intros [H _]. by apply on_cpu_running. Qed.

Lemma quiet_print p s : quiet p s -> can_print s.
Proof.
  intros H. exact (conj (quiet_wf _ _ H) (conj (q_calm _ _ H) (q_locks _ _ H _ fl_pr))).
Qed.

Lemma quiet_proc p s : quiet p s -> exists q, k_procs s !! p = Some q.
Proof. intros [_ H1 H2]. apply lookup_lt_is_Some_2. unfold table_ok in H1. rewrite H1. exact H2. Qed.

(** ** Sleep-locks, up to the frame *)

Lemma alter_as_insert `{Countable K} {V} (f : V -> V) (l : K) (m : gmap K V) k :
  m !! l = Some k -> alter f l m = <[l := f k]> m.
Proof.
  intros Hk. apply map_eq. intros j. destruct (decide (l = j)) as [<-|].
  - by rewrite lookup_alter_eq, lookup_insert_eq, Hk.
  - by rewrite lookup_alter_ne, lookup_insert_ne.
Qed.

(** An update that is a frame by computation. *)
Lemma frame_upd s s' :
  core s = core s' -> touch (k_sync s) = touch (k_sync s') -> k_procs s = k_procs s' -> frame s s'.
Proof. intros H1 H2 H3. split; [done..|]. by rewrite H3. Qed.

Lemma stirred_wake c me i q : stirred q (wake_others c me i q).
Proof.
  unfold wake_others, wake. case_bool_decide; [done|].
  destruct (bool_decide (p_state q = SLEEPING) && bool_decide (p_chan q = c)) eqn:E; [|done].
  apply andb_true_iff in E as [E%bool_decide_eq_true _].
  exists RUNNABLE, (p_waiting_for_lock q). split; [by destruct q|by right].
Qed.

Lemma frame_wakeup c me (l : list proc) : Forall2 stirred l (imap (wake_others c me) l).
Proof.
  apply Forall2_lookup. intros i. rewrite list_lookup_imap.
  destruct (l !! i); cbn; constructor. apply stirred_wake.
Qed.

Lemma wp_myproc_q p Q s :
  quiet p s -> (forall s', frame s s' -> k_slocks s' = k_slocks s -> k_fs s' = k_fs s -> Q (Some p) s') ->
  wp myproc Q s.
Proof.
  intros Hq HQ. apply wp_myproc'; [by eapply quiet_wf|]. rewrite (quiet_running p) by done.
  apply HQ; [|done..]. apply frame_upd; [done|cbn; by rewrite touch_idem|done].
Qed.

Lemma wp_acquiresleep_q `{World} fuel p q l k Q s :
  quiet p s -> fs_lock (LSleep l) -> k_slocks s !! l = Some k -> slk_locked k = false ->
  k_procs s !! p = Some q ->
  (forall s', frame s s' -> k_slocks s' = <[l := seize (p_pid q) k]> (k_slocks s) ->
     k_fs s' = k_fs s -> Q tt s') ->
  wp (acquiresleep fuel l) Q s.
Proof.
  intros Hs Hl Hk Hun Hq HQ.
  eapply wp_acquiresleep_free; [by eapply quiet_wf|by apply quiet_running|by apply (q_locks _ _ Hs)|done..|].
  apply HQ; [|cbn; by apply alter_as_insert|done]. split; [done|cbn; by rewrite touch_idem|].
  cbn. apply Forall2_lookup. intros i. destruct (decide (p = i)) as [<-|].
  - rewrite list_lookup_alter_eq. destruct (k_procs s !! p) as [r|]; cbn; constructor.
    exists (p_state r), None. split; [by destruct r|by left].
  - rewrite list_lookup_alter_ne by done. destruct (k_procs s !! i); constructor. done.
Qed.

Lemma wp_releasesleep_q p l k Q s :
  quiet p s -> fs_lock (LSleep l) -> k_slocks s !! l = Some k ->
  (forall s', frame s s' -> k_slocks s' = <[l := drop_lock k]> (k_slocks s) ->
     k_fs s' = k_fs s -> Q tt s') ->
  wp (releasesleep l) Q s.
Proof.
  intros Hs Hl Hk HQ.
  eapply wp_releasesleep; [by eapply quiet_wf|by eapply q_tab|by eapply q_procs|by apply (q_locks _ _ Hs)|done|].
  apply HQ; [|cbn; by apply alter_as_insert|done].
  split; [done|cbn; by rewrite touch_idem|apply frame_wakeup].
Qed.

Lemma wp_holdingsleep_q p q l k Q s :
  quiet p s -> fs_lock (LSleep l) -> k_slocks s !! l = Some k -> k_procs s !! p = Some q ->
  (forall s', frame s s' -> k_slocks s' = k_slocks s -> k_fs s' = k_fs s ->
     Q (slk_locked k && (slk_pid k =? p_pid q)) s') ->
  wp (holdingsleep l) Q s.
Proof.
  intros Hs Hl Hk Hq HQ.
  eapply wp_holdingsleep; [by eapply quiet_wf|by apply quiet_running|by apply (q_locks _ _ Hs)|done..|].
  apply HQ; [|done..]. apply frame_upd; [done|cbn; by rewrite touch_idem|done].
Qed.

(** A critical section of the file system: the body changes only its
    variables. *)
Lemma wp_section {A} p l (m : KM A) (Q : A -> kst -> Prop) s :
  quiet p s -> fs_lock l ->
  (forall t, core s = core t -> k_sync t = acq l (k_sync s) -> k_procs t = k_procs s ->
     k_slocks t = k_slocks s -> k_fs t = k_fs s ->
     wp m (fun a t' => frame s (set_k_sync (touch (k_sync s)) t') /\
                       k_sync t' = acq l (k_sync s) /\
                       Q a (set_k_sync (touch (k_sync s)) t')) t) ->
  wp (acquire l;; a ← m; release l;; mret a) Q s.
Proof.
  intros Hs Hl Hm. assert (Hwf := quiet_wf _ _ Hs). assert (Hf := q_locks _ _ Hs _ Hl).
  apply wp_bind, wp_acquire; [done..|]. apply wp_bind.
  eapply wp_mono; [apply Hm; done|]. cbv beta. intros a t' (Hfr & Hy & HQ).
  apply wp_bind. eapply (wp_release_acq l (k_sync s)); [done..|]. by apply wp_ret.
Qed.

End quiet.
