(* ===== verification/Bio.v ===== *)
(** * The buffer cache ([bio.c])

    Buffers are linked into a ring through [prev] and [next], most recently
    used first. Reading and writing the disk goes through the interface
    [Disk] of the driver. The abstract view of the cache is the list of
    buffers in order of use and, for every block, the contents the rest of the
    kernel sees. *)

From stdpp Require Import base gmap strings numbers list.
From S2P Require Import Prelude State Spinlock Proc Sleeplock Quiet.

(** ** The code *)

(** The driver's [virtio_disk_rw(b, write)]. *)
Class Disk : Type := { virtio_disk_rw : nat -> bool -> KM unit }.

(** How often a loop that waits for another process may go back to sleep
    before the model gives it up as blocked for ever. *)
Class Patience : Type := { patience : nat }.

Definition getb (i : nat) : KM buf := fun s => deref (fs_bufs (k_fs s) !! i) s.
Definition upd_bufs (f : list buf -> list buf) : kst -> kst :=
  upd_fs (fun x => set_fs_bufs (f (fs_bufs x)) x).
Definition updb (i : nat) (f : buf -> buf) : KM unit :=
  _ ← getb i; modify (upd_bufs (alter f i)).

(** The index of [bcache.head]. *)
Definition bhead : nat := NBUF.

(** [b->next = head.next; b->prev = &head; head.next->prev = b; head.next = b] *)
Definition link_front (b : nat) : KM unit :=
  h ← getb bhead;
  updb b (set_b_next (b_next h));;
  updb b (set_b_prev bhead);;
  h ← getb bhead;
  updb (b_next h) (set_b_prev b);;
  updb bhead (set_b_next b).

Definition binit : KM unit :=
  initlock LBcache "bcache";;
  updb bhead (set_b_prev bhead);;
  updb bhead (set_b_next bhead);;
  for_each (seq 0 NBUF) (fun i =>
    h ← getb bhead;
    updb i (set_b_next (b_next h));;
    updb i (set_b_prev bhead);;
    initsleeplock (SLBuf i) "buffer";;
    h ← getb bhead;
    updb (b_next h) (set_b_prev i);;
    updb bhead (set_b_next i)).

(** The two searches of [bget]; the ring has [NBUF] buffers. *)
Fixpoint find_cached (fuel : nat) (b : nat) (dev blockno : Z) : KM (option nat) :=
  if (b =? bhead)%nat then mret None else
  match fuel with
  | O => hang
  | S fuel =>
      x ← getb b;
      if (b_dev x =? dev) && (b_blockno x =? blockno) then mret (Some b)
      else find_cached fuel (b_next x) dev blockno
  end.

Fixpoint find_unused (fuel : nat) (b : nat) : KM (option nat) :=
  if (b =? bhead)%nat then mret None else
  match fuel with
  | O => hang
  | S fuel =>
      x ← getb b;
      if b_refcnt x =? 0 then mret (Some b) else find_unused fuel (b_prev x)
  end.

Section bio.
Context {W : World} {D : Disk} {T : Patience}.

Definition bget (dev blockno : Z) : KM nat :=
  acquire LBcache;;
  h ← getb bhead;
  r ← find_cached NBUF (b_next h) dev blockno;
  match r with
  | Some b =>
      updb b (fun x => set_b_refcnt (wrap32 (b_refcnt x + 1)) x);;
      release LBcache;;
      acquiresleep patience (SLBuf b);;
      mret b
  | None =>
      h ← getb bhead;
      r ← find_unused NBUF (b_prev h);
      match r with
      | Some b =>
          updb b (set_b_dev dev);;
          updb b (set_b_blockno blockno);;
          updb b (set_b_valid false);;
          updb b (set_b_refcnt 1);;
          release LBcache;;
          acquiresleep patience (SLBuf b);;
          mret b
      | None => panic "bget: no buffers"
      end
  end.

Definition bread (dev blockno : Z) : KM nat :=
  b ← bget dev blockno;
  x ← getb b;
  when (negb (b_valid x))
    (virtio_disk_rw b false;;
     updb b (set_b_valid true));;
  mret b.

Definition bwrite (b : nat) : KM unit :=
  h ← holdingsleep (SLBuf b);
  if negb h then panic "bwrite" else
  virtio_disk_rw b true.

Definition brelse (b : nat) : KM unit :=
  h ← holdingsleep (SLBuf b);
  if negb h then panic "brelse" else
  releasesleep (SLBuf b);;
  acquire LBcache;;
  updb b (fun x => set_b_refcnt (wrap32 (b_refcnt x - 1)) x);;
  x ← getb b;
  when (b_refcnt x =? 0)
    (updb (b_next x) (set_b_prev (b_prev x));;
     x ← getb b;
     updb (b_prev x) (set_b_next (b_next x));;
     link_front b);;
  release LBcache.

Definition bpin (b : nat) : KM unit :=
  acquire LBcache;;
  updb b (fun x => set_b_refcnt (wrap32 (b_refcnt x + 1)) x);;
  release LBcache.

Definition bunpin (b : nat) : KM unit :=
  acquire LBcache;;
  updb b (fun x => set_b_refcnt (wrap32 (b_refcnt x - 1)) x);;
  release LBcache.

End bio.

(** ** The ring of buffers *)

Definition nextof (bufs : list buf) (i : nat) : option nat := b_next <$> bufs !! i.
Definition prevof (bufs : list buf) (i : nat) : option nat := b_prev <$> bufs !! i.

(** From [x], the links lead through [l] and back. *)
Fixpoint links (bufs : list buf) (x : nat) (l : list nat) : Prop :=
  match l with
  | [] => True
  | y :: l => nextof bufs x = Some y /\ prevof bufs y = Some x /\ links bufs y l
  end.

(** The buffers of [l], most recently used first, form the ring. *)
Record ring (bufs : list buf) (l : list nat) : Prop := {
  ring_len : length bufs = S NBUF;
  ring_perm : l ≡ₚ seq 0 NBUF;
  ring_links : links bufs bhead (l ++ [bhead])
}.

Section ring.
Implicit Types (bufs : list buf) (l : list nat).

Lemma links_app bufs x l y l' :
  links bufs x (l ++ y :: l') <-> links bufs x (l ++ [y]) /\ links bufs y l'.
Proof.
  revert x; induction l as [|z l IH]; intros x; cbn [app links]; [tauto|].
  rewrite IH. tauto.
Qed.

Lemma nextof_alter f i j bufs :
  (forall x, b_next (f x) = b_next x) -> nextof (alter f i bufs) j = nextof bufs j.
Proof.
  intros Hf. unfold nextof. destruct (decide (i = j)) as [->|].
  - rewrite list_lookup_alter_eq. destruct (bufs !! j); cbn; [by rewrite Hf|done].
  - by rewrite list_lookup_alter_ne.
Qed.

Lemma prevof_alter f i j bufs :
  (forall x, b_prev (f x) = b_prev x) -> prevof (alter f i bufs) j = prevof bufs j.
Proof.
  intros Hf. unfold prevof. destruct (decide (i = j)) as [->|].
  - rewrite list_lookup_alter_eq. destruct (bufs !! j); cbn; [by rewrite Hf|done].
  - by rewrite list_lookup_alter_ne.
Qed.

Lemma alter_some f i j bufs : is_Some (alter f i bufs !! j) <-> is_Some (bufs !! j).
Proof. by rewrite !lookup_lt_is_Some, length_alter. Qed.

Lemma const_some (v : nat) (o : option buf) : is_Some o -> (fun _ => v) <$> o = Some v.
Proof. by intros [? ->]. Qed.

Lemma nextof_set i j v bufs :
  nextof (alter (set_b_next v) i bufs) j =
  if decide (i = j) then (fun _ => v) <$> bufs !! j else nextof bufs j.
Proof.
  unfold nextof. case_decide as E; [subst j|].
  - rewrite list_lookup_alter_eq. by destruct (bufs !! i).
  - by rewrite list_lookup_alter_ne.
Qed.

Lemma prevof_set i j v bufs :
  prevof (alter (set_b_prev v) i bufs) j =
  if decide (i = j) then (fun _ => v) <$> bufs !! j else prevof bufs j.
Proof.
  unfold prevof. case_decide as E; [subst j|].
  - rewrite list_lookup_alter_eq. by destruct (bufs !! i).
  - by rewrite list_lookup_alter_ne.
Qed.

(** The links of a segment are read from the [next] of all but its end and
    the [prev] of all but its start. *)
Lemma links_ext bufs bufs' x l y :
  (forall i, i = x \/ i ∈ l -> nextof bufs' i = nextof bufs i) ->
  (forall i, i ∈ l \/ i = y -> prevof bufs' i = prevof bufs i) ->
  links bufs x (l ++ [y]) -> links bufs' x (l ++ [y]).
Proof.
  revert x; induction l as [|z l IH]; intros x Hn Hp; cbn [app links].
  - rewrite Hn, Hp by set_solver. done.
  - intros (H1 & H2 & H3). rewrite Hn, Hp by set_solver. split_and!; [done..|].
    apply IH; [intros; apply Hn; set_solver|intros; apply Hp; set_solver|done].
Qed.

(** Changes of other fields keep the ring. *)
Lemma ring_alter f i bufs l :
  (forall x, b_next (f x) = b_next x) -> (forall x, b_prev (f x) = b_prev x) ->
  ring bufs l -> ring (alter f i bufs) l.
Proof.
  intros Hn Hp [H1 H2 H3]. split; [by rewrite length_alter|done|].
  eapply links_ext; [| |done]; intros; [by apply nextof_alter|by apply prevof_alter].
Qed.

Lemma links_last bufs x l b :
  links bufs x (l ++ [b]) -> exists p, prevof bufs b = Some p /\ (p = x \/ p ∈ l).
Proof.
  revert x; induction l as [|z l IH]; intros x; cbn [app links].
  - intros (_ & ? & _). eauto.
  - intros (_ & _ & H). destruct (IH _ H) as (p & ? & Hp). exists p. set_solver.
Qed.

(** The neighbours of a buffer on the ring. *)
Lemma links_neighbours bufs x l1 b l2 y :
  links bufs x (l1 ++ b :: l2 ++ [y]) ->
  exists p n, prevof bufs b = Some p /\ nextof bufs b = Some n /\
    (p = x \/ p ∈ l1) /\ (n ∈ l2 \/ n = y).
Proof.
  rewrite links_app. intros [(p & Hp & Hin)%links_last H2].
  destruct l2 as [|n l2]; cbn in H2; destruct H2 as (? & _ & _).
  - exists p, y. auto.
  - exists p, n. set_solver.
Qed.

(** Taking a buffer out of the ring. *)
Lemma links_unlink bufs x l1 b l2 y p n :
  links bufs x (l1 ++ b :: l2 ++ [y]) -> prevof bufs b = Some p -> nextof bufs b = Some n ->
  NoDup (x :: l1 ++ b :: l2) -> y ∉ l1 ++ b :: l2 ->
  is_Some (bufs !! p) -> is_Some (bufs !! n) ->
  links (alter (set_b_next n) p (alter (set_b_prev p) n bufs)) x (l1 ++ l2 ++ [y]).
Proof.
  intros H Hp Hn Hnd Hy Hip Hin.
  assert (HN : forall j, nextof (alter (set_b_next n) p (alter (set_b_prev p) n bufs)) j =
            if decide (p = j) then Some n else nextof bufs j).
  { intros j. rewrite nextof_set. case_decide as E; [subst j|by apply nextof_alter].
    by apply const_some; rewrite alter_some. }
  assert (HP : forall j, prevof (alter (set_b_next n) p (alter (set_b_prev p) n bufs)) j =
            if decide (n = j) then Some p else prevof bufs j).
  { intros j. rewrite prevof_alter by done. rewrite prevof_set. case_decide as E; [subst j|done].
    by apply const_some. }
  revert x H Hnd; induction l1 as [|z l1 IH]; intros x H Hnd; cbn [app] in *.
  - destruct H as (Hx & Hb & H2). rewrite Hp in Hb. injection Hb as ->.
    destruct l2 as [|m l2]; cbn in H2 |- *; destruct H2 as (Hm & Hm' & H2);
      rewrite Hn in Hm; injection Hm as ->; rewrite HN, HP, !decide_True by done;
      split_and!; [done..|].
    eapply links_ext; [| |exact H2]; intros j Hj.
    + rewrite HN, decide_False; [done|]. rewrite !NoDup_cons in Hnd. set_solver.
    + rewrite HP, decide_False; [done|]. rewrite !NoDup_cons in Hnd. set_solver.
  - destruct H as (Hx & Hz & H).
    destruct (links_neighbours _ _ _ _ _ _ H) as (p' & n' & E1 & E2 & Hp' & Hn').
    rewrite Hp in E1. injection E1 as <-. rewrite Hn in E2. injection E2 as <-.
    cbn [links]. rewrite HN, HP, !decide_False; [|rewrite !NoDup_cons in Hnd; set_solver..].
    split_and!; [done..|]. apply IH; [set_solver|done|by inversion Hnd].
Qed.

(** Putting a buffer at the front. *)
Lemma links_push bufs x l b y h :
  links bufs x (l ++ [y]) -> nextof bufs x = Some h ->
  b ∉ x :: l ++ [y] -> x ∉ l -> NoDup (l ++ [y]) ->
  is_Some (bufs !! b) -> is_Some (bufs !! x) -> is_Some (bufs !! h) ->
  links (alter (set_b_next b) x (alter (set_b_prev b) h
          (alter (set_b_prev x) b (alter (set_b_next h) b bufs)))) x (b :: l ++ [y]).
Proof.
  intros H Hh Hb Hx Hnd Hib Hix Hih.
  assert (Hbh : b <> h).
  { intros ->. destruct l; cbn in H; destruct H as (E & _); rewrite Hh in E; injection E as ->; set_solver. }
  set (bufs' := alter (set_b_next b) x _).
  assert (HN : forall j, nextof bufs' j =
            if decide (x = j) then Some b else if decide (b = j) then Some h else nextof bufs j).
  { intros j. unfold bufs'. rewrite nextof_set. case_decide as E; [subst j|].
    - by apply const_some; rewrite !alter_some.
    - rewrite !nextof_alter by done. rewrite nextof_set. case_decide; [subst j|done].
      by apply const_some. }
  assert (HP : forall j, prevof bufs' j =
            if decide (h = j) then Some b else if decide (b = j) then Some x else prevof bufs j).
  { intros j. unfold bufs'. rewrite prevof_alter by done. rewrite prevof_set. case_decide as E; [subst j|].
    - by apply const_some; rewrite !alter_some.
    - rewrite prevof_set. case_decide; [subst j|by apply prevof_alter].
      by apply const_some; rewrite !alter_some. }
  clearbody bufs'. cbn [app links]. rewrite HN, decide_True by done.
  rewrite HP, decide_False, decide_True by done. split_and!; [done..|].
  destruct l as [|z l]; cbn [app links] in *; destruct H as (E & _ & H); rewrite Hh in E; injection E as ->;
    rewrite HN, HP; rewrite (decide_False (P := x = b)), !decide_True by set_solver; split_and!; [done..|].
  eapply links_ext; [| |exact H]; intros j Hj.
  - rewrite HN, !decide_False; set_solver.
  - rewrite HP, !decide_False; [done|set_solver|]. rewrite NoDup_cons in Hnd. set_solver.
Qed.

End ring.

(** ** Searching the ring *)

Section searches.
Implicit Types (bufs : list buf) (l : list nat).

Lemma ring_lt bufs l i : ring bufs l -> i ∈ l <-> (i < NBUF)%nat.
Proof. intros [_ H _]. rewrite H. rewrite elem_of_seq. lia. Qed.

Lemma ring_some bufs l i : ring bufs l -> (i <= NBUF)%nat -> is_Some (bufs !! i).
Proof. intros [H _ _] Hi. apply lookup_lt_is_Some_2. lia. Qed.

Lemma wp_getb i x Q s : fs_bufs (k_fs s) !! i = Some x -> Q x s -> wp (getb i) Q s.
Proof. intros H HQ. unfold wp, getb. by rewrite H. Qed.

Lemma wp_updb i f Q s :
  is_Some (fs_bufs (k_fs s) !! i) -> Q tt (upd_bufs (alter f i) s) -> wp (updb i f) Q s.
Proof. intros [x Hx] HQ. apply wp_bind. eapply wp_getb; [done|]. by apply wp_modify. Qed.

Definition is_block (d blk : Z) (x : buf) : Prop := b_dev x = d /\ b_blockno x = blk.

(** The search of the cache, from the most recently used buffer on. *)
Lemma wp_find_cached fuel x l b d blk Q s :
  links (fs_bufs (k_fs s)) x (l ++ [bhead]) -> nextof (fs_bufs (k_fs s)) x = Some b ->
  Forall (fun i => (i < NBUF)%nat) l -> (length l <= fuel)%nat ->
  (forall i y, i ∈ l -> fs_bufs (k_fs s) !! i = Some y -> is_block d blk y -> Q (Some i) s) ->
  ((forall i y, i ∈ l -> fs_bufs (k_fs s) !! i = Some y -> ~ is_block d blk y) -> Q None s) ->
  wp (find_cached fuel b d blk) Q s.
Proof.
  revert fuel x b; induction l as [|z l IH]; intros fuel x b Hl Hb Hlt Hf Hsome Hnone.
  - destruct Hl as (E & _ & _). rewrite Hb in E. injection E as ->.
    assert (wp (mret None) Q s) by (apply wp_ret, Hnone; set_solver).
    destruct fuel; cbn [find_cached]; by rewrite Nat.eqb_refl.
  - destruct Hl as (E & _ & Hl). rewrite Hb in E. injection E as ->.
    rewrite Forall_cons in Hlt. destruct Hlt as [Hz Hlt]. destruct fuel as [|fuel]; [cbn in Hf; lia|].
    cbn [find_cached]. destruct (Nat.eqb_spec z bhead) as [->|_]; [unfold bhead in Hz; lia|].
    assert (Hn : is_Some (nextof (fs_bufs (k_fs s)) z)) by (destruct l; destruct Hl as (-> & _); eauto).
    destruct Hn as [n Hn]. unfold nextof in Hn. destruct (fs_bufs (k_fs s) !! z) as [y|] eqn:Hy; [|done].
    cbn in Hn. injection Hn as Hn. apply wp_bind. eapply wp_getb; [done|].
    destruct ((b_dev y =? d) && (b_blockno y =? blk)) eqn:E.
    + apply andb_true_iff in E as [E1%Z.eqb_eq E2%Z.eqb_eq]. apply wp_ret.
      eapply Hsome; [set_solver|done|done].
    + apply (IH fuel z (b_next y)); [done|unfold nextof; by rewrite Hy|done|cbn in Hf; lia| |].
      * intros i w Hi. apply Hsome. set_solver.
      * intros Hno. apply Hnone. intros i w [->|Hi]%elem_of_cons Hw; [|by eapply Hno].
        rewrite Hy in Hw. injection Hw as <-. intros [E1 E2].
        rewrite E1, E2, !Z.eqb_refl in E. done.
Qed.

(** The search for a buffer to recycle, from the least recently used one on:
    it finds the last unused buffer of the ring. *)
Lemma wp_find_unused fuel l b Q s y :
  links (fs_bufs (k_fs s)) bhead (l ++ [y]) -> prevof (fs_bufs (k_fs s)) y = Some b ->
  Forall (fun i => (i < NBUF)%nat) l -> (length l <= fuel)%nat ->
  (forall l1 i l2 x, l = l1 ++ i :: l2 -> fs_bufs (k_fs s) !! i = Some x -> b_refcnt x = 0 ->
     (forall j z, j ∈ l2 -> fs_bufs (k_fs s) !! j = Some z -> b_refcnt z <> 0) -> Q (Some i) s) ->
  ((forall j z, j ∈ l -> fs_bufs (k_fs s) !! j = Some z -> b_refcnt z <> 0) -> Q None s) ->
  wp (find_unused fuel b) Q s.
Proof.
  revert fuel b y; induction l as [|z l IH] using rev_ind; intros fuel b y Hl Hb Hlt Hf Hsome Hnone.
  - destruct Hl as (_ & E & _). rewrite Hb in E. injection E as ->.
    assert (wp (mret None) Q s) by (apply wp_ret, Hnone; set_solver).
    destruct fuel; cbn [find_unused]; by rewrite Nat.eqb_refl.
  - rewrite <- app_assoc in Hl. cbn in Hl. rewrite links_app in Hl. destruct Hl as [Hl (_ & E & _)].
    rewrite Hb in E. injection E as ->. rewrite Forall_app, Forall_singleton in Hlt.
    destruct Hlt as [Hlt Hz]. rewrite length_app in Hf. cbn in Hf.
    destruct fuel as [|fuel]; [lia|]. cbn [find_unused].
    destruct (Nat.eqb_spec z bhead) as [->|_]; [unfold bhead in Hz; lia|].
    destruct (links_last _ _ _ _ Hl) as (p & Hp & _). assert (Hp' := Hp). unfold prevof in Hp.
    destruct (fs_bufs (k_fs s) !! z) as [w|] eqn:Hw; [|done]. cbn in Hp. injection Hp as Hp.
    apply wp_bind. eapply wp_getb; [done|]. destruct (Z.eqb_spec (b_refcnt w) 0) as [E|E].
    + apply wp_ret. apply (Hsome l z [] w); [done..|set_solver].
    + apply (IH fuel (b_prev w) z); [done|by rewrite Hp|done|lia| |].
      * intros l1 i l2 x -> Hx Hr Hl2. apply (Hsome l1 i (l2 ++ [z]) x); [by rewrite <- app_assoc|done..|].
        intros j u [Hj| ->%list_elem_of_singleton]%elem_of_app Hu; [by eapply Hl2|congruence].
      * intros Hno. apply Hnone.
        intros j u [Hj| ->%list_elem_of_singleton]%elem_of_app Hu; [by eapply Hno|congruence].
Qed.

End searches.

(** ** Moving a buffer to the front *)

(** Everything of a buffer but its links. *)
Definition body (x : buf) : bool * Z * Z * Z * list Z :=
  (b_valid x, b_dev x, b_blockno x, b_refcnt x, b_data x).

Lemma body_alter (f : buf -> buf) i (bufs : list buf) :
  (forall x, body (f x) = body x) -> body <$> alter f i bufs = body <$> bufs.
Proof.
  intros Hf. apply list_eq. intros j. rewrite !list_lookup_fmap.
  destruct (decide (i = j)) as [->|].
  - rewrite list_lookup_alter_eq. destruct (bufs !! j); cbn; [by rewrite Hf|done].
  - by rewrite list_lookup_alter_ne.
Qed.

Lemma upd_bufs_compose f g s : upd_bufs f (upd_bufs g s) = upd_bufs (f ∘ g) s.
Proof. reflexivity. Qed.

Lemma upd_bufs_const f s : upd_bufs f s = upd_bufs (fun _ => f (fs_bufs (k_fs s))) s.
Proof. reflexivity. Qed.

Lemma nextof_Some bufs i n : nextof bufs i = Some n -> exists x, bufs !! i = Some x /\ b_next x = n.
Proof. unfold nextof. by intros (x & -> & ->)%fmap_Some; eauto. Qed.

Lemma prevof_Some bufs i n : prevof bufs i = Some n -> exists x, bufs !! i = Some x /\ b_prev x = n.
Proof. unfold prevof. by intros (x & -> & ->)%fmap_Some; eauto. Qed.

Lemma wp_link_front b l Q s :
  length (fs_bufs (k_fs s)) = S NBUF -> links (fs_bufs (k_fs s)) bhead (l ++ [bhead]) ->
  b :: l ≡ₚ seq 0 NBUF ->
  (forall bufs', ring bufs' (b :: l) -> body <$> bufs' = body <$> fs_bufs (k_fs s) ->
     Q tt (upd_bufs (fun _ => bufs') s)) ->
  wp (link_front b) Q s.
Proof.
  intros Hlen Hl Hperm HQ. set (bufs := fs_bufs (k_fs s)) in *.
  assert (Hlt : forall i, i ∈ b :: l -> (i < NBUF)%nat).
  { intros i Hi. rewrite Hperm, elem_of_seq in Hi. lia. }
  assert (Hnd : NoDup (b :: l)) by (rewrite Hperm; apply NoDup_seq).
  assert (Hhd : bhead ∉ b :: l) by (intros E%Hlt; unfold bhead in E; lia).
  assert (Hsome : forall i, i ∈ b :: l ++ [bhead] -> is_Some (bufs !! i)).
  { intros i Hi. apply lookup_lt_is_Some_2. rewrite Hlen.
    assert (i ∈ b :: l \/ i = bhead) as [E%Hlt| ->] by set_solver; unfold bhead; lia. }
  assert (Hh : exists h1, nextof bufs bhead = Some h1 /\ h1 ∈ l ++ [bhead]).
  { destruct l as [|z l]; destruct Hl as (-> & _); eexists; split; [done|set_solver|done|set_solver]. }
  destruct Hh as (h1 & Hn & Hin). destruct (nextof_Some _ _ _ Hn) as (h & Hgh & Eh).
  assert (Hne : b <> bhead) by set_solver.
  unfold link_front. apply wp_bind. eapply wp_getb; [exact Hgh|]. rewrite Eh.
  do 2 (apply wp_bind, wp_updb; [cbn; rewrite ?alter_some; apply Hsome; set_solver|]).
  apply wp_bind. eapply wp_getb; [cbn; fold bufs; by rewrite !list_lookup_alter_ne, Hgh|]. rewrite Eh.
  apply wp_bind, wp_updb; [cbn; rewrite ?alter_some; apply Hsome; set_solver|].
  apply wp_updb; [cbn; rewrite ?alter_some; apply Hsome; set_solver|].
  rewrite !upd_bufs_compose, upd_bufs_const. unfold compose.
  apply HQ; fold bufs; [|by rewrite !body_alter].
  split; [by rewrite !length_alter|done|].
  rewrite NoDup_cons in Hnd.
  apply (links_push bufs bhead l b bhead h1); [done|done|set_solver|set_solver| |apply Hsome; set_solver..].
  apply NoDup_app. split_and!; [tauto|set_solver|apply NoDup_singleton].
Qed.

(** The end of [brelse] for a buffer nobody uses any more. *)
Lemma wp_move_front b x l1 l2 Q s :
  ring (fs_bufs (k_fs s)) (l1 ++ b :: l2) -> fs_bufs (k_fs s) !! b = Some x ->
  (forall bufs', ring bufs' (b :: l1 ++ l2) -> body <$> bufs' = body <$> fs_bufs (k_fs s) ->
     Q tt (upd_bufs (fun _ => bufs') s)) ->
  wp (updb (b_next x) (set_b_prev (b_prev x));;
      x ← getb b;
      updb (b_prev x) (set_b_next (b_next x));;
      link_front b) Q s.
Proof.
  intros Hr Hx HQ. set (bufs := fs_bufs (k_fs s)) in *.
  assert (Hlt := fun i => ring_lt _ _ i Hr).
  assert (Hhd : bhead ∉ l1 ++ b :: l2) by (rewrite Hlt; unfold bhead; lia).
  assert (Hnd : NoDup (l1 ++ b :: l2)) by (rewrite (ring_perm _ _ Hr); apply NoDup_seq).
  assert (Hl := ring_links _ _ Hr). rewrite <- app_assoc in Hl. cbn in Hl.
  destruct (links_neighbours _ _ _ _ _ _ Hl) as (p & n & Hp & Hn & Hpi & Hni).
  assert (Hp' := Hp). assert (Hn' := Hn). unfold prevof in Hp. unfold nextof in Hn. rewrite Hx in Hp, Hn.
  cbn in Hp, Hn. injection Hp as Hp. injection Hn as Hn. rewrite Hp, Hn.
  assert (Hsome : forall i, i ∈ l1 ++ b :: l2 \/ i = bhead -> is_Some (bufs !! i)).
  { intros i Hi. apply (ring_some _ _ _ Hr). destruct Hi as [Hi| ->]; [apply Hlt in Hi; lia|done]. }
  assert (Hsp : is_Some (bufs !! p)) by (apply Hsome; set_solver).
  assert (Hsn : is_Some (bufs !! n)) by (apply Hsome; set_solver).
  apply NoDup_app in Hnd as Hnd'. rewrite NoDup_cons in Hnd'.
  assert (Hbn : b <> n) by (intros ->; set_solver). assert (Hbp : b <> p) by (intros ->; set_solver).
  apply wp_bind, wp_updb; [done|].
  apply wp_bind. eapply wp_getb; [cbn; fold bufs; by rewrite list_lookup_alter_ne, Hx|]. rewrite Hp, Hn.
  apply wp_bind, wp_updb; [cbn; by rewrite alter_some|].
  assert (Hu := links_unlink _ _ _ _ _ _ _ _ Hl Hp' Hn').
  apply (wp_link_front b (l1 ++ l2)).
  - cbn. rewrite !length_alter. apply Hr.
  - cbn. rewrite <- app_assoc. apply Hu; [by apply NoDup_cons|done..].
  - rewrite <- (ring_perm _ _ Hr). by rewrite Permutation_middle.
  - cbn. intros bufs' Hr' Hb'. rewrite !body_alter in Hb' by done.
    rewrite !upd_bufs_compose. exact (HQ bufs' Hr' Hb').
Qed.
