(* ===== verification/Cache.v ===== *)
(** * The buffer cache as the kernel sees it

    [cache] is the invariant of the buffer cache: what every block contains as
    the kernel sees it, which blocks the log has pinned and which the running
    process has locked. The operations of [bio.c] are specified against it. *)

From stdpp Require Import base gmap strings numbers list.
From S2P Require Import Prelude State Spinlock Proc Sleeplock Quiet Bio.

(** ** The cache as the kernel sees it *)

(** Buffer [b] holds block [blk] of device [d]. *)
Definition caches (d blk : Z) (bufs : list buf) (b : nat) : Prop :=
  exists x, (b < NBUF)%nat /\ bufs !! b = Some x /\ b_dev x = d /\ b_blockno x = blk.

(** The cache of device [d]: [V] is the contents of every block as the kernel
    sees it, [P] the blocks pinned (once) by the log, [H] the blocks whose
    buffers the process with id [pid] has locked. A block may differ from the
    disk only while it is pinned or locked. *)
Record cache (d : Z) (V : Z -> list Z) (P H : gset Z) (pid : Z) (fs : fsst)
    (sl : gmap slid sleeplock) : Prop := {
  c_ring : exists l, ring (fs_bufs fs) l;
  c_valid i x : (i < NBUF)%nat -> fs_bufs fs !! i = Some x -> b_dev x = d -> b_valid x = true;
  c_other i x : (i < NBUF)%nat -> fs_bufs fs !! i = Some x -> b_dev x <> d -> b_refcnt x = 0;
  c_uniq i j x y : (i < NBUF)%nat -> (j < NBUF)%nat ->
    fs_bufs fs !! i = Some x -> fs_bufs fs !! j = Some y ->
    b_dev x = d -> b_dev y = d -> b_blockno x = b_blockno y -> i = j;
  c_ref i x : (i < NBUF)%nat -> fs_bufs fs !! i = Some x -> b_dev x = d ->
    b_refcnt x = Zb (bool_decide (b_blockno x ∈ P)) + Zb (bool_decide (b_blockno x ∈ H));
  c_view i x : (i < NBUF)%nat -> fs_bufs fs !! i = Some x -> b_dev x = d ->
    b_data x = V (b_blockno x);
  c_disk blk : blk ∉ P -> blk ∉ H -> fs_disk fs blk = V blk;
  c_used blk : blk ∈ P ∪ H -> exists b, caches d blk (fs_bufs fs) b;
  c_held i x : (i < NBUF)%nat -> fs_bufs fs !! i = Some x -> b_dev x = d -> b_blockno x ∈ H ->
    exists k, sl !! SLBuf i = Some k /\ slk_locked k = true /\ slk_pid k = pid;
  c_free i x : (i < NBUF)%nat -> fs_bufs fs !! i = Some x ->
    ~ (b_dev x = d /\ b_blockno x ∈ H) -> exists k, sl !! SLBuf i = Some k /\ slk_locked k = false
}.

Arguments c_ring {d V P H pid fs sl}.
Arguments c_valid {d V P H pid fs sl}.
Arguments c_other {d V P H pid fs sl}.
Arguments c_uniq {d V P H pid fs sl}.
Arguments c_ref {d V P H pid fs sl}.
Arguments c_view {d V P H pid fs sl}.
Arguments c_disk {d V P H pid fs sl}.
Arguments c_used {d V P H pid fs sl}.
Arguments c_held {d V P H pid fs sl}.
Arguments c_free {d V P H pid fs sl}.

Record bst (p : nat) (d : Z) (V : Z -> list Z) (P H : gset Z) (s : kst) : Prop := {
  bs_quiet : quiet p s;
  bs_cache q : k_procs s !! p = Some q -> cache d V P H (p_pid q) (k_fs s) (k_slocks s)
}.

(** ** Steps of the cache *)

Section cache.
Implicit Types (bufs : list buf) (P H : gset Z) (V : Z -> list Z).

Lemma alter_cases (f : buf -> buf) b bufs i x' :
  alter f b bufs !! i = Some x' ->
  i = b /\ (exists x, bufs !! b = Some x /\ x' = f x) \/ i <> b /\ bufs !! i = Some x'.
Proof.
  destruct (decide (b = i)) as [->|Hne].
  - rewrite list_lookup_alter_eq. intros (x & -> & Hx)%fmap_Some. left. eauto.
  - rewrite list_lookup_alter_ne by done. auto.
Qed.

Lemma caches_alter f d blk b b' bufs :
  (forall x, b_dev (f x) = b_dev x) -> (forall x, b_blockno (f x) = b_blockno x) ->
  caches d blk bufs b' -> caches d blk (alter f b bufs) b'.
Proof.
  intros Hd Hb (x & Hlt & Hx & E1 & E2). destruct (decide (b = b')) as [->|].
  - exists (f x). rewrite list_lookup_alter_eq, Hx, Hd, Hb. done.
  - exists x. by rewrite list_lookup_alter_ne.
Qed.

(** [V] with the contents of one block replaced. *)
Definition vset (blk : Z) (v : list Z) (V : Z -> list Z) : Z -> list Z :=
  fun z => if z =? blk then v else V z.

Lemma vset_eq blk v V : vset blk v V blk = v.
Proof. unfold vset. by rewrite Z.eqb_refl. Qed.

Lemma vset_ne blk v V z : z <> blk -> vset blk v V z = V z.
Proof. intros H. unfold vset. by destruct (Z.eqb_spec z blk). Qed.

Ltac buf_cases :=
  repeat match goal with
  | H : alter _ _ _ !! _ = Some _ |- _ =>
      apply alter_cases in H as [(-> & ? & ? & ->)|[? H]]; cbn [b_dev b_valid b_blockno b_refcnt
        b_data set_b_dev set_b_valid set_b_blockno set_b_refcnt set_b_data] in *
  end; simplify_eq.

Lemma cache_ne d V P H pid fs sl i b x y :
  cache d V P H pid fs sl -> (i < NBUF)%nat -> (b < NBUF)%nat ->
  fs_bufs fs !! i = Some y -> fs_bufs fs !! b = Some x -> b_dev y = d -> b_dev x = d ->
  i <> b -> b_blockno y <> b_blockno x.
Proof. intros C ? ? ? ? ? ? Hne E. apply Hne. by eapply (c_uniq C). Qed.

(** A buffer is locked, unlocked, pinned or unpinned: its reference count, the
    sets and its sleep-lock change together. *)
Lemma cache_ref d V P P' H H' pid fs sl sl' b blk x (g : buf -> Z) :
  cache d V P H pid fs sl -> (b < NBUF)%nat -> fs_bufs fs !! b = Some x -> is_block d blk x ->
  (forall z, z <> blk -> z ∈ P' <-> z ∈ P) -> (forall z, z <> blk -> z ∈ H' <-> z ∈ H) ->
  g x = Zb (bool_decide (blk ∈ P')) + Zb (bool_decide (blk ∈ H')) ->
  (blk ∉ P' -> blk ∉ H' -> fs_disk fs blk = V blk) ->
  (forall i, i <> b -> sl' !! SLBuf i = sl !! SLBuf i) ->
  (blk ∈ H' -> exists k, sl' !! SLBuf b = Some k /\ slk_locked k = true /\ slk_pid k = pid) ->
  (blk ∉ H' -> exists k, sl' !! SLBuf b = Some k /\ slk_locked k = false) ->
  cache d V P' H' pid
    (set_fs_bufs (alter (fun x => set_b_refcnt (g x) x) b (fs_bufs fs)) fs) sl'.
Proof.
  intros C Hb Hx [Hd Hblk] HP HH Hg Hdisk Hsl Hheld Hfree.
  assert (Hne := fun i y Hi Hy Hyd => cache_ne _ _ _ _ _ _ _ i b x y C Hi Hb Hy Hx Hyd Hd).
  split; cbn [fs_bufs fs_disk set_fs_bufs].
  - destruct (c_ring C) as [l Hl]. exists l. by apply ring_alter.
  - intros i y Hi Hy ?. buf_cases; by eapply (c_valid C).
  - intros i y Hi Hy ?. buf_cases. by eapply (c_other C).
  - intros i j y z Hi Hj Hy Hz ? ? ?. buf_cases; [done|..]; by eapply (c_uniq C).
  - intros i y Hi Hy Hyd. buf_cases; [done|].
    rewrite (c_ref C i y) by done. assert (Hn := Hne i y Hi Hy Hyd ltac:(done)).
    f_equal; f_equal; apply bool_decide_ext; symmetry; auto.
  - intros i y Hi Hy Hyd. buf_cases; by eapply (c_view C).
  - intros z Hz1 Hz2. destruct (decide (z = blk)) as [->|Hz]; [auto|].
    apply (c_disk C); [by rewrite <- HP|by rewrite <- HH].
  - intros z Hz. destruct (decide (z = blk)) as [->|].
    + exists b. apply caches_alter; [done..|]. by exists x.
    + destruct (c_used C z) as [b' Hb']; [set_solver|]. exists b'. by apply caches_alter.
  - intros i y Hi Hy Hyd Hyh. buf_cases; [by apply Hheld|].
    rewrite Hsl by done. apply (c_held C i y); [done..|]. apply HH; [|done]. by eapply Hne.
  - intros i y Hi Hy Hyh. buf_cases; [apply Hfree; set_solver|].
    rewrite Hsl by done. apply (c_free C i y); [done..|]. intros [E1 E2]. apply Hyh.
    split; [done|]. apply HH; [|done]. by eapply Hne.
Qed.

(** An unused buffer is recycled for a block that is not cached. *)
Lemma cache_miss d V P H pid fs sl b blk k x (g : buf -> buf) :
  cache d V P H pid fs sl -> (b < NBUF)%nat -> fs_bufs fs !! b = Some x -> b_refcnt x = 0 ->
  (forall i y, (i < NBUF)%nat -> fs_bufs fs !! i = Some y -> ~ is_block d blk y) ->
  (forall y, b_next (g y) = b_next y) -> (forall y, b_prev (g y) = b_prev y) ->
  b_dev (g x) = d -> b_blockno (g x) = blk -> b_valid (g x) = true -> b_refcnt (g x) = 1 ->
  b_data (g x) = fs_disk fs blk ->
  cache d V P ({[blk]} ∪ H) pid (set_fs_bufs (alter g b (fs_bufs fs)) fs)
    (<[SLBuf b := seize pid k]> sl).
Proof.
  intros C Hb Hx Hr Hno Hgn Hgp Hgd Hgb Hgv Hgr Hgx.
  assert (Hnot : blk ∉ P ∪ H).
  { intros Hin. destruct (c_used C _ Hin) as (b' & y & ? & ? & ? & ?). by eapply (Hno b' y). }
  assert (Hold : b_dev x = d -> b_blockno x ∉ P ∪ H).
  { intros Hd Hin. assert (E := c_ref C _ _ Hb Hx Hd). rewrite Hr in E. unfold Zb in E.
    do 2 case_bool_decide; try lia. set_solver. }
  assert (Hmiss : forall i y, (i < NBUF)%nat -> fs_bufs fs !! i = Some y -> b_dev y = d ->
            b_blockno y <> blk) by (intros i y Hi Hy E1 E2; by eapply (Hno i y)).
  split; cbn [fs_bufs fs_disk set_fs_bufs].
  - destruct (c_ring C) as [l Hl]. exists l. by apply ring_alter.
  - intros i y Hi Hy ?. buf_cases; [done|]. by eapply (c_valid C).
  - intros i y Hi Hy ?. buf_cases. by eapply (c_other C).
  - intros i j y z Hi Hj Hy Hz ? ? ?. buf_cases;
      first [done|by eapply (c_uniq C)|exfalso; naive_solver].
  - intros i y Hi Hy Hyd. buf_cases.
    + rewrite Hgr, bool_decide_false, bool_decide_true by set_solver. done.
    + rewrite (c_ref C i y) by done. do 2 f_equal. apply bool_decide_ext.
      specialize (Hmiss i y). set_solver.
  - intros i y Hi Hy Hyd. buf_cases; [|by eapply (c_view C)].
    rewrite Hgx. apply (c_disk C); set_solver.
  - intros z Hz1 Hz2. apply (c_disk C); set_solver.
  - intros z Hz. destruct (decide (z = blk)) as [->|].
    + exists b, (g x). by rewrite list_lookup_alter_eq, Hx.
    + destruct (c_used C z) as (b' & y & ? & Hy & Hyd & <-); [set_solver|].
      exists b', y. rewrite list_lookup_alter_ne; [done|]. intros <-.
      rewrite Hx in Hy. injection Hy as ->. apply (Hold Hyd). set_solver.
  - intros i y Hi Hy Hyd Hyh. buf_cases.
    + exists (seize pid k). by rewrite lookup_insert_eq.
    + rewrite lookup_insert_ne by congruence. apply (c_held C i y); [done..|].
      specialize (Hmiss i y). set_solver.
  - intros i y Hi Hy Hyh. buf_cases; [set_solver|].
    rewrite lookup_insert_ne by congruence. apply (c_free C i y); set_solver.
Qed.

(** The holder changes the contents of its buffer. *)
Lemma cache_data d V P H pid fs sl b blk v :
  cache d V P H pid fs sl -> caches d blk (fs_bufs fs) b -> blk ∈ H ->
  cache d (vset blk v V) P H pid (set_fs_bufs (alter (set_b_data v) b (fs_bufs fs)) fs) sl.
Proof.
  intros C (x & Hb & Hx & Hd & Hblk) HH.
  assert (Hne := fun i y Hi Hy Hyd => cache_ne _ _ _ _ _ _ _ i b x y C Hi Hb Hy Hx Hyd Hd).
  split; cbn [fs_bufs fs_disk set_fs_bufs].
  - destruct (c_ring C) as [l Hl]. exists l. by apply ring_alter.
  - intros i y Hi Hy ?. buf_cases; by eapply (c_valid C).
  - intros i y Hi Hy ?. buf_cases; by eapply (c_other C).
  - intros i j y z Hi Hj Hy Hz ? ? ?. buf_cases; [done|..]; by eapply (c_uniq C).
  - intros i y Hi Hy Hyd. buf_cases; by eapply (c_ref C).
  - intros i y Hi Hy Hyd. buf_cases; [by rewrite vset_eq|].
    rewrite vset_ne; [by eapply (c_view C)|]. by eapply Hne.
  - intros z Hz1 Hz2. rewrite vset_ne by congruence. by apply (c_disk C).
  - intros z Hz. destruct (c_used C z Hz) as [b' Hb']. exists b'. by apply caches_alter.
  - intros i y Hi Hy Hyd Hyh. buf_cases; by eapply (c_held C).
  - intros i y Hi Hy Hyh. buf_cases; by eapply (c_free C).
Qed.

(** The disk receives the contents of a block. *)
Definition disk_write (blk : Z) (v : list Z) (fs : fsst) : fsst :=
  set_fs_writes (fs_writes fs ++ [(blk, v)]) (set_fs_disk (vset blk v (fs_disk fs)) fs).

Lemma cache_write d V P H pid fs sl blk :
  cache d V P H pid fs sl -> cache d V P H pid (disk_write blk (V blk) fs) sl.
Proof.
  intros C. split; cbn [fs_bufs fs_disk disk_write set_fs_writes set_fs_disk]; try apply C.
  intros z Hz1 Hz2. destruct (decide (z = blk)) as [->|]; [by rewrite vset_eq|].
  rewrite vset_ne by done. by apply (c_disk C).
Qed.

Lemma cache_links d V P H pid fs sl bufs' :
  cache d V P H pid fs sl -> (body <$> bufs') = (body <$> fs_bufs fs) -> (exists l, ring bufs' l) ->
  cache d V P H pid (set_fs_bufs bufs' fs) sl.
Proof.
  intros C Hb Hr.
  assert (Hl : forall i x, bufs' !! i = Some x -> exists y, fs_bufs fs !! i = Some y /\ body x = body y).
  { intros i x Hx. apply (f_equal (lookup i)) in Hb. rewrite !list_lookup_fmap, Hx in Hb. cbn in Hb.
    destruct (fs_bufs fs !! i) as [y|]; [|done]. injection Hb. intros. exists y.
    split; [done|]. unfold body. congruence. }
  assert (Hl' : forall i y, fs_bufs fs !! i = Some y -> exists x, bufs' !! i = Some x /\ body x = body y).
  { intros i y Hy. apply (f_equal (lookup i)) in Hb. rewrite !list_lookup_fmap, Hy in Hb. cbn in Hb.
    destruct (bufs' !! i) as [x|]; [|done]. injection Hb. intros. exists x.
    split; [done|]. unfold body. congruence. }
  split; cbn [fs_bufs fs_disk set_fs_bufs]; [done| | | | | |by apply (c_disk C)| | |].
  - intros i x Hi Hx. destruct (Hl i x Hx) as (y & Hy & [= -> -> _ _ _]). by eapply (c_valid C).
  - intros i x Hi Hx. destruct (Hl i x Hx) as (y & Hy & [= _ -> _ -> _]). by eapply (c_other C).
  - intros i j x z Hi Hj Hx Hz. destruct (Hl i x Hx) as (y & Hy & [= _ -> -> _ _]).
    destruct (Hl j z Hz) as (w & Hw & [= _ -> -> _ _]). by eapply (c_uniq C).
  - intros i x Hi Hx. destruct (Hl i x Hx) as (y & Hy & [= _ -> -> -> _]). by eapply (c_ref C).
  - intros i x Hi Hx. destruct (Hl i x Hx) as (y & Hy & [= _ -> -> _ ->]). by eapply (c_view C).
  - intros z Hz. destruct (c_used C z Hz) as (b & y & ? & Hy & ? & ?).
    destruct (Hl' b y Hy) as (x & Hx & [= _ E1 E2 _ _]). exists b, x. split_and!; congruence.
  - intros i x Hi Hx. destruct (Hl i x Hx) as (y & Hy & [= _ -> -> _ _]). by eapply (c_held C).
  - intros i x Hi Hx. destruct (Hl i x Hx) as (y & Hy & [= _ -> -> _ _]). by eapply (c_free C).
Qed.

End cache.

(** ** The operations *)

(** What a disk driver promises a process that runs undisturbed: the request is
    carried out when [virtio_disk_rw] returns, and nothing else changes but the
    driver's own state, the device registers and which processes sleep. It is
    an assumption of the theorems on the file system: that the driver in
    Virtio.v keeps it depends on the device, which is hardware, and on its
    descriptors being free. *)
Class DiskSpec {D : Disk} : Prop := {
  disk_read_spec p b x s : quiet p s -> (b < NBUF)%nat -> fs_bufs (k_fs s) !! b = Some x ->
    wp (virtio_disk_rw b false) (fun _ s' => frame s s' /\ k_slocks s' = k_slocks s /\
      k_fs s' = set_fs_bufs (alter (set_b_data (fs_disk (k_fs s) (b_blockno x))) b
                               (fs_bufs (k_fs s))) (k_fs s)) s;
  disk_write_spec p b x s : quiet p s -> (b < NBUF)%nat -> fs_bufs (k_fs s) !! b = Some x ->
    wp (virtio_disk_rw b true) (fun _ s' => frame s s' /\ k_slocks s' = k_slocks s /\
      k_fs s' = disk_write (b_blockno x) (b_data x) (k_fs s)) s
}.

(** Two states differ in nothing but the buffers. *)
Definition same_fs (fs fs' : fsst) : Prop := fs' = set_fs_bufs (fs_bufs fs') fs.

(** The buffers of the blocks of [Z0] stay where they are. *)
Definition keeps (d : Z) (Z0 : gset Z) (fs fs' : fsst) : Prop :=
  forall z b, z ∈ Z0 -> caches d z (fs_bufs fs) b -> caches d z (fs_bufs fs') b.

Section specs.
Context {W : World} {D : Disk} {DS : DiskSpec} {T : Patience}.
Implicit Types (p : nat) (d blk : Z) (V : Z -> list Z) (P H : gset Z) (s : kst).

Lemma same_fs_refl fs : same_fs fs fs.
Proof. by destruct fs. Qed.

Lemma same_fs_trans fs1 fs2 fs3 : same_fs fs1 fs2 -> same_fs fs2 fs3 -> same_fs fs1 fs3.
Proof. unfold same_fs. intros -> ->. by destruct fs1. Qed.

Lemma same_fs_bufs fs bufs : same_fs fs (set_fs_bufs bufs fs).
Proof. by destruct fs. Qed.

(** The state inside the critical section of [bcache.lock]. *)
Lemma frame_in_section s t :
  core s = core t -> k_procs t = k_procs s -> frame s (set_k_sync (touch (k_sync s)) t).
Proof.
  intros Hc Hp. apply frame_upd; [|cbn; by rewrite touch_idem|by cbn].
  rewrite Hc. by destruct t.
Qed.

Lemma pid_frame s s' p q q' :
  frame s s' -> k_procs s !! p = Some q -> k_procs s' !! p = Some q' -> p_pid q' = p_pid q.
Proof.
  intros Hf Hq Hq'. destruct (frame_proc _ _ _ _ Hf Hq) as (r & Hr & (st & w & -> & _)).
  rewrite Hq' in Hr. by injection Hr as ->.
Qed.

(** A new state of the same process with a new cache. *)
Lemma bst_intro p d V P H s s' q :
  quiet p s -> frame s s' -> k_procs s !! p = Some q ->
  cache d V P H (p_pid q) (k_fs s') (k_slocks s') -> bst p d V P H s'.
Proof.
  intros Hs Hf Hq C. split; [by eapply quiet_frame|]. intros q' Hq'.
  by rewrite (pid_frame _ _ _ _ _ Hf Hq Hq').
Qed.

Lemma cache_other_lock d V P H pid fs sl l k :
  cache d V P H pid fs sl -> (forall i, l <> SLBuf i) -> cache d V P H pid fs (<[l := k]> sl).
Proof.
  intros C Hl. split; try apply C; intros; rewrite lookup_insert_ne by done;
    [by eapply (c_held C)|by eapply (c_free C)].
Qed.

(** Each buffer in use holds a different pinned or locked block. *)
Lemma cache_unused d V P H pid fs sl :
  cache d V P H pid fs sl -> (size (P ∪ H) < NBUF)%nat ->
  ~ (forall j z, (j < NBUF)%nat -> fs_bufs fs !! j = Some z -> b_refcnt z <> 0).
Proof.
  intros C Hsz Hall. destruct (c_ring C) as [l Hl].
  assert (Hlen : length (take NBUF (fs_bufs fs)) = NBUF).
  { rewrite length_take, (ring_len _ _ Hl). lia. }
  assert (Hget : forall i x, take NBUF (fs_bufs fs) !! i = Some x ->
            (i < NBUF)%nat /\ fs_bufs fs !! i = Some x /\ b_dev x = d).
  { intros i x Hx. apply lookup_take_Some in Hx as [Hx Hi]. split_and!; [done..|].
    destruct (decide (b_dev x = d)); [done|]. by destruct (Hall i x Hi Hx), (c_other C i x). }
  set (L := b_blockno <$> take NBUF (fs_bufs fs)).
  assert (Hnd : NoDup L).
  { apply NoDup_alt. intros i j z Hi Hj. unfold L in Hi, Hj.
    rewrite list_lookup_fmap in Hi, Hj. apply fmap_Some in Hi as (x & Hx & ->).
    apply fmap_Some in Hj as (y & Hy & E).
    destruct (Hget i x Hx) as (? & ? & ?), (Hget j y Hy) as (? & ? & ?). by eapply (c_uniq C). }
  assert (Hsub : list_to_set L ⊆ P ∪ H).
  { intros z Hz. rewrite elem_of_list_to_set in Hz.
    apply list_elem_of_lookup_1 in Hz as (i & Hi). unfold L in Hi.
    rewrite list_lookup_fmap in Hi. apply fmap_Some in Hi as (x & Hx & ->).
    destruct (Hget i x Hx) as (Hi & Hx' & Hd). assert (E := c_ref C i x Hi Hx' Hd).
    specialize (Hall i x Hi Hx'). unfold Zb in E. do 2 case_bool_decide; set_solver. }
  apply subseteq_size in Hsub. rewrite size_list_to_set in Hsub by done.
  unfold L in Hsub. rewrite length_fmap in Hsub. lia.
Qed.

(** What the operations on buffers leave alone. *)
Record bframe (s s' : kst) : Prop := {
  bf_frame : frame s s';
  bf_locks l : (forall i, l <> SLBuf i) -> k_slocks s' !! l = k_slocks s !! l
}.

#[global] Instance bframe_preorder : PreOrder bframe.
Proof.
  split; [by intros s; split|]. intros s1 s2 s3 [A1 B1] [A2 B2]. split; [by etrans|].
  intros l Hl. by rewrite B2, B1.
Qed.

(** The end of [bget]: out of the critical section and into the buffer's lock. *)
Lemma wp_bget_end p q b k Q s t :
  quiet p s -> k_procs s !! p = Some q -> (b < NBUF)%nat ->
  k_slocks s !! SLBuf b = Some k -> slk_locked k = false ->
  core s = core t -> k_sync t = acq LBcache (k_sync s) -> k_procs t = k_procs s ->
  k_slocks t = k_slocks s ->
  (forall s', bframe s s' -> k_slocks s' = <[SLBuf b := seize (p_pid q) k]> (k_slocks s) ->
     k_fs s' = k_fs t -> Q b s') ->
  wp (release LBcache;; acquiresleep patience (SLBuf b);; mret b) Q t.
Proof.
  intros Hs Hq Hb Hk Hun Hc Hy Hp Hsl HQ. apply wp_bind.
  eapply (wp_release_acq LBcache (k_sync s)); [by eapply quiet_wf|apply (q_locks _ _ Hs); constructor|done|].
  assert (Hf := frame_in_section s t Hc Hp). assert (Hs' := quiet_frame _ _ _ Hs Hf).
  apply wp_bind. eapply (wp_acquiresleep_q _ p q _ k); [done|by constructor|cbn; by rewrite Hsl|done|cbn; by rewrite Hp|].
  cbn. intros s' Hf' Hsl' Hfs. apply wp_ret. apply HQ; [|by rewrite Hsl', Hsl|done].
  split; [by etrans|]. intros l Hl. by rewrite Hsl', Hsl, lookup_insert_ne.
Qed.

Lemma bframe_bufs f s : bframe s (upd_bufs f s).
Proof. split; [by apply frame_upd|done]. Qed.

(** What [bread] leaves: the block is held, in buffer [b]. *)
Definition got p d V (P H : gset Z) blk (s : kst) (b : nat) (s' : kst) : Prop :=
  bst p d V P ({[blk]} ∪ H) s' /\ caches d blk (fs_bufs (k_fs s')) b /\ same_fs (k_fs s) (k_fs s') /\ keeps d (P ∪ H) (k_fs s) (k_fs s').

(** A block found in the cache. *)
Lemma bread_hit p q d V P H blk b x k s s' :
  quiet p s -> k_procs s !! p = Some q -> cache d V P H (p_pid q) (k_fs s) (k_slocks s) -> blk ∉ H ->
  (b < NBUF)%nat -> fs_bufs (k_fs s) !! b = Some x -> is_block d blk x -> bframe s s' ->
  k_slocks s' = <[SLBuf b := seize (p_pid q) k]> (k_slocks s) ->
  k_fs s' = set_fs_bufs (alter (fun x => set_b_refcnt (wrap32 (b_refcnt x + 1)) x) b (fs_bufs (k_fs s))) (k_fs s) ->
  got p d V P H blk s b s'.
Proof.
  intros Hs Hq C HH Hb Hx Hblk Hf Hsl Hfs. assert (Hr := c_ref C _ _ Hb Hx (proj1 Hblk)). destruct Hblk as [Hd Hbl].
  rewrite Hbl, (bool_decide_false (blk ∈ H)) in Hr by done. unfold got. rewrite Hfs. split_and!.
  - apply (bst_intro p d V P _ s _ q Hs (bf_frame _ _ Hf) Hq). rewrite Hfs, Hsl.
    apply (cache_ref _ _ P P H _ _ _ _ _ b blk x _ C Hb Hx); [done|done|set_solver| | | | |].
    + rewrite Hr, (bool_decide_true (blk ∈ {[blk]} ∪ H)) by set_solver.
      rewrite wrap32_small; unfold Zb; case_bool_decide; lia.
    + set_solver.
    + intros i Hi. rewrite lookup_insert_ne; congruence.
    + intros _. exists (seize (p_pid q) k). by rewrite lookup_insert_eq.
    + set_solver.
  - cbn. apply caches_alter; [done..|]. by exists x.
  - apply same_fs_bufs.
  - intros z b' _ Hb'. cbn. by apply caches_alter.
Qed.

(** A block read into a buffer that was free. *)
Lemma bread_miss p q d V P H blk b x k (g : buf -> buf) s s' :
  quiet p s -> k_procs s !! p = Some q -> cache d V P H (p_pid q) (k_fs s) (k_slocks s) ->
  (b < NBUF)%nat -> fs_bufs (k_fs s) !! b = Some x -> b_refcnt x = 0 ->
  (forall i y, (i < NBUF)%nat -> fs_bufs (k_fs s) !! i = Some y -> ~ is_block d blk y) ->
  g = set_b_valid true ∘ set_b_data (fs_disk (k_fs s) blk) ∘ (set_b_refcnt 1 ∘ set_b_valid false ∘ set_b_blockno blk ∘ set_b_dev d) ->
  bframe s s' -> k_slocks s' = <[SLBuf b := seize (p_pid q) k]> (k_slocks s) ->
  k_fs s' = set_fs_bufs (alter g b (fs_bufs (k_fs s))) (k_fs s) -> got p d V P H blk s b s'.
Proof.
  intros Hs Hq C Hb Hx Hr Hno -> Hf Hsl Hfs. unfold got. rewrite Hfs. split_and!.
  - apply (bst_intro p d V P _ s _ q Hs (bf_frame _ _ Hf) Hq). rewrite Hfs, Hsl.
    by apply (cache_miss _ _ _ _ _ _ _ b blk k x _ C Hb Hx Hr).
  - cbn. eexists. rewrite list_lookup_alter_eq, Hx. done.
  - apply same_fs_bufs.
  - intros z b' Hz (y & Hb' & Hy & Hyd & <-). exists y. cbn.
    rewrite list_lookup_alter_ne; [done|]. intros <-. rewrite Hx in Hy. injection Hy as <-.
    assert (E := c_ref C _ _ Hb Hx Hyd). rewrite Hr in E. unfold Zb in E.
    do 2 case_bool_decide; try lia. set_solver.
Qed.

Lemma wp_bread p d V P H blk Q s :
  bst p d V P H s -> blk ∉ H -> blk ∈ P \/ (size (P ∪ H) < NBUF)%nat ->
  (forall b s', bframe s s' -> bst p d V P ({[blk]} ∪ H) s' -> caches d blk (fs_bufs (k_fs s')) b ->
     same_fs (k_fs s) (k_fs s') -> keeps d (P ∪ H) (k_fs s) (k_fs s') -> Q b s') ->
  wp (bread d blk) Q s.
Proof.
  intros [Hs HC] HH Hroom HQ0. destruct (quiet_proc _ _ Hs) as [q Hq]. assert (C := HC q Hq).
  assert (HQ : forall b s', bframe s s' -> got p d V P H blk s b s' -> Q b s') by (intros b s' F (G1 & G2 & G3 & G4); by apply HQ0).
  destruct (c_ring C) as [l Hl]. destruct (ring_some _ _ bhead Hl) as [h Hh]; [done|].
  assert (Hlt : Forall (fun i => (i < NBUF)%nat) l).
  { apply Forall_forall. intros i Hi. by eapply ring_lt. }
  assert (Hlen : length l = NBUF) by (by rewrite (ring_perm _ _ Hl), length_seq).
  unfold bread, bget. apply wp_bind.
  apply wp_bind, wp_acquire; [by eapply quiet_wf|apply (q_locks _ _ Hs); constructor|].
  apply wp_bind. eapply wp_getb; [exact Hh|]. apply wp_bind.
  eapply (wp_find_cached _ bhead l); [exact (ring_links _ _ Hl)|unfold nextof; cbn; by rewrite Hh|done|lia|..].
  - intros b x Hb Hx Hblk. apply (ring_lt _ _ _ Hl) in Hb. cbn in Hx.
    destruct (c_free C b x Hb Hx) as (k & Hk & Hun); [by intros [_ E]; destruct Hblk as [_ <-]|].
    apply wp_bind, wp_updb; [done|].
    eapply (wp_bget_end p q b k); [done..|]. intros s' Hf Hsl Hfs.
    apply wp_bind. eapply wp_getb; [rewrite Hfs; cbn; by rewrite list_lookup_alter_eq, Hx|].
    cbn. rewrite (c_valid C b x) by (done || apply Hblk). cbn. apply wp_bind, wp_ret, wp_ret. apply HQ; [done|].
    by apply (bread_hit p q d V P H blk b x k).
  - intros Hno. apply wp_bind. eapply wp_getb; [exact Hh|]. apply wp_bind.
    eapply (wp_find_unused _ l _ _ _ bhead); [exact (ring_links _ _ Hl)|unfold prevof; cbn; by rewrite Hh|done|lia|..].
    + intros l1 b l2 x -> Hx Hr _. cbn in Hx.
      assert (Hb : (b < NBUF)%nat) by (eapply ring_lt; [done|set_solver]).
      destruct (c_free C b x Hb Hx) as (k & Hk & Hun).
      { intros [Hd Hin]. assert (E := c_ref C _ _ Hb Hx Hd). rewrite Hr in E. unfold Zb in E.
        do 2 case_bool_decide; try lia; done. }
      do 4 (apply wp_bind, wp_updb; [cbn; by rewrite ?alter_some|]).
      eapply (wp_bget_end p q b k); [done..|]. cbn. rewrite !list_alter_alter_eq.
      intros s1 Hf1 Hsl1 Hfs1. assert (Hs1 := quiet_frame _ _ _ Hs (bf_frame _ _ Hf1)).
      set (g := compose _ _) in Hfs1.
      assert (Hx1 : fs_bufs (k_fs s1) !! b = Some (g x)) by (rewrite Hfs1; cbn; by rewrite list_lookup_alter_eq, Hx).
      apply wp_bind. eapply wp_getb; [done|]. cbn [g compose b_valid set_b_valid set_b_refcnt].
      apply wp_bind, wp_when; [intros _|done]. apply wp_bind.
      eapply wp_mono; [by apply (disk_read_spec p b (g x))|]. cbv beta.
      intros _ s2 (Hf2 & Hsl2 & Hfs2). apply wp_updb; [rewrite Hfs2, Hfs1; cbn; by rewrite !alter_some|].
      apply wp_ret. assert (Hf : bframe s (upd_bufs (alter (set_b_valid true) b) s2)).
      { etrans; [exact Hf1|]. etrans; [|apply bframe_bufs]. by split; [|intros; rewrite Hsl2]. }
      apply HQ; [done|]. eapply (bread_miss p q d V P H blk b x k); [done..| |reflexivity|done|by cbn; rewrite Hsl2|].
      * intros i y Hi Hy. eapply Hno; [by apply (ring_lt _ _ _ Hl)|done].
      * cbn. rewrite Hfs2, Hfs1. cbn. by rewrite !list_alter_alter_eq.
    + intros Hall. exfalso. assert (Hmiss : blk ∉ P).
      { intros Hin. destruct (c_used C blk) as (b & x & Hb & Hx & ? & ?); [set_solver|].
        eapply (Hno b x); [by apply (ring_lt _ _ _ Hl)|done|done]. }
      eapply cache_unused; [exact C|tauto|]. intros j z Hj Hz.
      eapply Hall; [by apply (ring_lt _ _ _ Hl)|done].
Qed.

(** The holder of a buffer passes the test of [bwrite] and [brelse]. *)
Lemma wp_holds_buf {A} p d V P H blk b x k (m : KM A) (msg : string) Q s :
  bst p d V P H s -> blk ∈ H -> (b < NBUF)%nat -> fs_bufs (k_fs s) !! b = Some x -> is_block d blk x ->
  k_slocks s !! SLBuf b = Some k ->
  (forall s', bframe s s' -> k_slocks s' = k_slocks s -> k_fs s' = k_fs s -> wp m Q s') ->
  wp (h ← holdingsleep (SLBuf b); if negb h then panic msg else m) Q s.
Proof.
  intros [Hs HC] HH Hb Hx [Hd Hbl] Hk HQ. destruct (quiet_proc _ _ Hs) as [q Hq]. assert (C := HC q Hq).
  destruct (c_held C b x) as (k' & Hk' & Hl & Hp); [done..|by rewrite Hbl|].
  rewrite Hk in Hk'. injection Hk' as <-.
  apply wp_bind. eapply wp_holdingsleep_q; [done|by constructor|done..|].
  intros s' Hf Hsl Hfs. rewrite Hl, Hp, Z.eqb_refl. cbn. apply HQ; [|done..].
  split; [done|]. by rewrite Hsl.
Qed.

Lemma bst_same p d V P H s s' :
  bst p d V P H s -> frame s s' -> k_fs s' = k_fs s -> k_slocks s' = k_slocks s -> bst p d V P H s'.
Proof.
  intros [Hs HC] Hf Hfs Hsl. destruct (quiet_proc _ _ Hs) as [q Hq].
  eapply bst_intro; [done..|]. rewrite Hfs, Hsl. by apply HC.
Qed.

Lemma wp_bwrite p d V P H blk b Q s :
  bst p d V P H s -> blk ∈ H -> caches d blk (fs_bufs (k_fs s)) b ->
  (forall s', bframe s s' -> bst p d V P H s' -> k_fs s' = disk_write blk (V blk) (k_fs s) -> Q tt s') ->
  wp (bwrite b) Q s.
Proof.
  intros HB HH (x & Hb & Hx & Hblk) HQ. assert (HB' := HB). destruct HB as [Hs HC].
  destruct (quiet_proc _ _ Hs) as [q Hq]. assert (C := HC q Hq). destruct Hblk as [Hd Hbl].
  destruct (c_held C b x) as (k & Hk & _); [done..|by rewrite Hbl|].
  eapply wp_holds_buf; [done..|]. intros s1 Hf1 Hsl1 Hfs1.
  assert (Hs1 := quiet_frame _ _ _ Hs (bf_frame _ _ Hf1)).
  eapply wp_mono; [apply (disk_write_spec p b x); [done|done|by rewrite Hfs1]|].
  cbv beta. intros [] s2 (Hf2 & Hsl2 & Hfs2).
  assert (Hf : bframe s s2) by (etrans; [done|]; split; [done|]; intros; by rewrite Hsl2).
  rewrite Hfs1, Hbl, (c_view C b x), Hbl in Hfs2 by done.
  apply HQ; [done| |done]. apply (bst_intro p d V P _ s _ q Hs (bf_frame _ _ Hf) Hq).
  rewrite Hfs2, Hsl2, Hsl1. by apply cache_write.
Qed.

(** A critical section that changes one buffer's reference count. *)
Lemma wp_count p d V P' H' b x q (g : buf -> Z) Q s :
  quiet p s -> k_procs s !! p = Some q -> (b < NBUF)%nat -> fs_bufs (k_fs s) !! b = Some x ->
  cache d V P' H' (p_pid q)
    (set_fs_bufs (alter (fun x => set_b_refcnt (g x) x) b (fs_bufs (k_fs s))) (k_fs s)) (k_slocks s) ->
  (forall s', bframe s s' -> bst p d V P' H' s' -> k_slocks s' = k_slocks s ->
     same_fs (k_fs s) (k_fs s') -> (forall Z0, keeps d Z0 (k_fs s) (k_fs s')) -> Q tt s') ->
  wp (acquire LBcache;; updb b (fun x => set_b_refcnt (g x) x);; release LBcache) Q s.
Proof.
  intros Hs Hq Hb Hx C HQ.
  apply wp_bind, wp_acquire; [by eapply quiet_wf|apply (q_locks _ _ Hs); constructor|].
  apply wp_bind, wp_updb; [done|].
  eapply (wp_release_acq LBcache (k_sync s)); [by eapply quiet_wf|apply (q_locks _ _ Hs); constructor|done|].
  set (t := upd_bufs _ _). assert (Hf : bframe s (set_k_sync (touch (k_sync s)) t)).
  { split; [|done]. by apply frame_in_section. }
  apply HQ; [done|by eapply bst_intro; [| apply Hf|..]|done|apply same_fs_bufs|].
  intros Z0 z b' _ Hb'. by apply caches_alter.
Qed.

Lemma wp_bpin p d V P H blk b Q s :
  bst p d V P H s -> blk ∈ H -> blk ∉ P -> caches d blk (fs_bufs (k_fs s)) b ->
  (forall s', bframe s s' -> bst p d V ({[blk]} ∪ P) H s' -> same_fs (k_fs s) (k_fs s') ->
     (forall Z0, keeps d Z0 (k_fs s) (k_fs s')) -> Q tt s') ->
  wp (bpin b) Q s.
Proof.
  intros [Hs HC] HH HP Hc HQ. destruct (quiet_proc _ _ Hs) as [q Hq]. assert (C := HC q Hq).
  assert (Hc' := Hc). destruct Hc' as (x & Hb & Hx & Hd & Hbl).
  assert (Hr := c_ref C _ _ Hb Hx Hd). rewrite Hbl, bool_decide_false, bool_decide_true in Hr by done.
  eapply (wp_count p d V _ _ b x); [done..| |intros s' ? ? ? ? ?; by apply HQ].
  apply (cache_ref _ _ P _ H _ _ _ _ _ b blk x _ C Hb Hx); [done|set_solver|done| |set_solver|done| |set_solver].
  - rewrite Hr, !bool_decide_true by set_solver. done.
  - intros _. eapply (c_held C); [done..|by rewrite Hbl].
Qed.

Lemma wp_bunpin p d V P H blk b Q s :
  bst p d V P H s -> blk ∈ H -> blk ∈ P -> caches d blk (fs_bufs (k_fs s)) b ->
  (forall s', bframe s s' -> bst p d V (P ∖ {[blk]}) H s' -> same_fs (k_fs s) (k_fs s') ->
     (forall Z0, keeps d Z0 (k_fs s) (k_fs s')) -> Q tt s') ->
  wp (bunpin b) Q s.
Proof.
  intros [Hs HC] HH HP Hc HQ. destruct (quiet_proc _ _ Hs) as [q Hq]. assert (C := HC q Hq).
  assert (Hc' := Hc). destruct Hc' as (x & Hb & Hx & Hd & Hbl).
  assert (Hr := c_ref C _ _ Hb Hx Hd). rewrite Hbl, !bool_decide_true in Hr by done.
  eapply (wp_count p d V _ _ b x); [done..| |intros s' ? ? ? ? ?; by apply HQ].
  apply (cache_ref _ _ P _ H _ _ _ _ _ b blk x _ C Hb Hx); [done|set_solver|done| |set_solver|done| |set_solver].
  - rewrite Hr, bool_decide_false, bool_decide_true by set_solver. done.
  - intros _. eapply (c_held C); [done..|by rewrite Hbl].
Qed.

Lemma wp_brelse p d V P H blk b Q s :
  bst p d V P H s -> blk ∈ H -> caches d blk (fs_bufs (k_fs s)) b ->
  blk ∈ P \/ fs_disk (k_fs s) blk = V blk ->
  (forall s', bframe s s' -> bst p d V P (H ∖ {[blk]}) s' -> same_fs (k_fs s) (k_fs s') ->
     (forall Z0, keeps d Z0 (k_fs s) (k_fs s')) -> Q tt s') ->
  wp (brelse b) Q s.
Proof.
  intros HB HH (x & Hb & Hx & Hd & Hbl) Hclean HQ. assert (HB' := HB). destruct HB as [Hs HC].
  destruct (quiet_proc _ _ Hs) as [q Hq]. assert (C := HC q Hq).
  destruct (c_held C b x) as (k & Hk & _); [done..|by rewrite Hbl|].
  assert (Hr := c_ref C _ _ Hb Hx Hd). rewrite Hbl, (bool_decide_true (blk ∈ H)) in Hr by done.
  eapply wp_holds_buf; [done..|]. intros s1 Hf1 Hsl1 Hfs1.
  assert (Hs1 := quiet_frame _ _ _ Hs (bf_frame _ _ Hf1)).
  apply wp_bind. eapply wp_releasesleep_q; [done|by constructor|by rewrite Hsl1|].
  intros s2 Hf2 Hsl2 Hfs2. assert (Hs2 := quiet_frame _ _ _ Hs1 Hf2).
  rewrite Hsl1 in Hsl2. rewrite Hfs1 in Hfs2.
  assert (Hfb : bframe s s2).
  { etrans; [done|]. split; [done|]. intros l Hl. by rewrite Hsl2, Hsl1, lookup_insert_ne. }
  (* the new cache, before the buffer is moved *)
  set (g := fun y => wrap32 (b_refcnt y - 1)).
  assert (C' : cache d V P (H ∖ {[blk]}) (p_pid q)
    (set_fs_bufs (alter (fun y => set_b_refcnt (g y) y) b (fs_bufs (k_fs s))) (k_fs s)) (k_slocks s2)).
  { apply (cache_ref _ _ P _ H _ _ _ _ _ b blk x _ C Hb Hx); [done|done|set_solver| |tauto| |set_solver|].
    - unfold g. rewrite Hr, (bool_decide_false (blk ∈ H ∖ _)) by set_solver.
      rewrite wrap32_small; unfold Zb; case_bool_decide; lia.
    - intros i Hi. rewrite Hsl2, lookup_insert_ne; congruence.
    - intros _. exists (drop_lock k). by rewrite Hsl2, lookup_insert_eq. }
  assert (Hend : forall t, core s2 = core t -> k_sync t = acq LBcache (k_sync s2) ->
    k_procs t = k_procs s2 -> k_slocks t = k_slocks s2 ->
    same_fs (k_fs s) (k_fs t) -> (exists l, ring (fs_bufs (k_fs t)) l) ->
    body <$> fs_bufs (k_fs t) = body <$> alter (fun y => set_b_refcnt (g y) y) b (fs_bufs (k_fs s)) ->
    wp (release LBcache) Q t).
  { intros t Hc Hy Hp Hsl Hsame Hring Hbody.
    eapply (wp_release_acq LBcache (k_sync s2)); [by eapply quiet_wf|apply (q_locks _ _ Hs2); constructor|done|].
    assert (Hf : bframe s (set_k_sync (touch (k_sync s2)) t)).
    { etrans; [exact Hfb|]. split; [by apply frame_in_section|]. cbn. by rewrite Hsl. }
    apply HQ; [done| |done|].
    - apply (bst_intro p d V P _ s _ q Hs (bf_frame _ _ Hf) Hq). cbn. rewrite Hsl, Hsame.
      apply (cache_links _ _ _ _ _ _ _ (fs_bufs (k_fs t))) in C'; done.
    - intros Z0 z b' _ Hb'.
      apply (caches_alter (fun y => set_b_refcnt (g y) y) d z b) in Hb' as (y & ? & Hy' & ? & ?); [|done..].
      cbn. apply (f_equal (lookup b')) in Hbody. rewrite !list_lookup_fmap, Hy' in Hbody.
      destruct (fs_bufs (k_fs t) !! b') as [y'|] eqn:Ey; [|done]. injection Hbody as _ E1 E2 _ _.
      exists y'. split_and!; congruence. }
  apply wp_bind, wp_acquire; [by eapply quiet_wf|apply (q_locks _ _ Hs2); constructor|].
  apply wp_bind, wp_updb; [cbn; by rewrite Hfs2|].
  apply wp_bind. eapply wp_getb; [cbn; by rewrite Hfs2, list_lookup_alter_eq, Hx|].
  destruct (c_ring C) as [l Hl].
  assert (Hl' : ring (alter (fun y => set_b_refcnt (g y) y) b (fs_bufs (k_fs s))) l) by (by apply ring_alter).
  apply wp_bind, wp_when; intros E.
  - assert (Hin : b ∈ l) by (by apply (ring_lt _ _ _ Hl)).
    apply list_elem_of_split in Hin as (l1 & l2 & ->).
    eapply (wp_move_front b _ l1 l2); [cbn; by rewrite Hfs2|cbn; by rewrite Hfs2, list_lookup_alter_eq, Hx|].
    cbn. intros bufs' Hr' Hb'. rewrite Hfs2 in Hb'.
    apply Hend; [done|done|done|done| |by exists (b :: l1 ++ l2)|done].
    cbn. rewrite Hfs2. by destruct (k_fs s).
  - apply Hend; [done|done|done|done| |exists l|]; cbn; rewrite Hfs2; [by destruct (k_fs s)|done|done].
Qed.

End specs.
