(* ===== verification/Log.v ===== *)
(** * The log ([log.c])

    A redo log on disk: a transaction's blocks are written to the log, the
    header block commits them, then they are installed at home. *)

From stdpp Require Import base gmap strings numbers list.
From S2P Require Import Prelude State Spinlock Strings Printf Bytes Proc Sleeplock Quiet Bio.

Definition BSIZE : nat := 1024.

(** ** The code *)

Definition getlog : KM log := gets (fun s => fs_log (k_fs s)).
Definition updlog (f : log -> log) : KM unit :=
  modify (upd_fs (fun x => set_fs_log (f (fs_log x)) x)).

(** [log.lh.block[i]] and [log.lh.block[i] = v]; the array has [LOGBLOCKS]
    entries. *)
Definition get_block (i : nat) : KM Z := lg ← getlog; deref (lg_block lg !! i).
Definition set_block (i : nat) (v : Z) : KM unit :=
  _ ← get_block i; updlog (fun lg => set_lg_block (<[i := v]> (lg_block lg)) lg).

(** The offsets of [n] and [block[i]] in [struct logheader]. *)
Definition head_n : nat := 0.
Definition head_block (i : nat) : nat := 4 + 4 * i.

Definition upd_data (b : nat) (f : list Z -> list Z) : KM unit :=
  updb b (fun x => set_b_data (f (b_data x)) x).

Section log.
Context {W : World} {D : Disk} {T : Patience}.

Definition install_trans (recovering : bool) : KM unit :=
  lg ← getlog;
  for_each (seq 0 (Z.to_nat (lg_n lg))) (fun tail =>
    when recovering
      (dst ← get_block tail;
       printf "recovering tail %d dst %d
" [PInt (Z.of_nat tail); PInt dst]);;
    lg ← getlog;
    lbuf ← bread (lg_dev lg) (wrap32 (lg_start lg + Z.of_nat tail + 1));
    dst ← get_block tail;
    dbuf ← bread (lg_dev lg) (wrap32 dst);
    l ← getb lbuf;
    upd_data dbuf (fun _ => b_data l);;
    bwrite dbuf;;
    when (negb recovering) (bunpin dbuf);;
    brelse lbuf;;
    brelse dbuf).

Definition read_head : KM unit :=
  lg ← getlog;
  b ← bread (lg_dev lg) (wrap32 (lg_start lg));
  x ← getb b;
  updlog (set_lg_n (to_int (get32 head_n (b_data x))));;
  lg ← getlog;
  for_each (seq 0 (Z.to_nat (lg_n lg))) (fun i =>
    x ← getb b;
    set_block i (to_int (get32 (head_block i) (b_data x))));;
  brelse b.

Definition write_head : KM unit :=
  lg ← getlog;
  b ← bread (lg_dev lg) (wrap32 (lg_start lg));
  upd_data b (put32 head_n (lg_n lg));;
  for_each (seq 0 (Z.to_nat (lg_n lg))) (fun i =>
    v ← get_block i;
    upd_data b (put32 (head_block i) v));;
  bwrite b;;
  brelse b.

Definition recover_from_log : KM unit :=
  read_head;;
  install_trans true;;
  updlog (set_lg_n 0);;
  write_head.

(** [sizeof(struct logheader)] is [4 + 4 * LOGBLOCKS], less than [BSIZE]. *)
Definition initlog (dev : Z) (sb : superblock) : KM unit :=
  if (BSIZE <=? 4 + 4 * LOGBLOCKS)%nat then panic "initlog: too big logheader" else
  initlock LLog "log";;
  updlog (set_lg_start (to_int (sb_logstart sb)));;
  updlog (set_lg_dev dev);;
  recover_from_log.

Fixpoint begin_op_loop (fuel : nat) : KM unit :=
  lg ← getlog;
  let wait := match fuel with
              | O => hang
              | S fuel => sleep (Some ChLog) (Some LLog);; begin_op_loop fuel
              end in
  if lg_committing lg then wait else
  if Z.of_nat LOGBLOCKS <? lg_n lg + (lg_outstanding lg + 1) * MAXOPBLOCKS then wait else
  updlog (fun lg => set_lg_outstanding (lg_outstanding lg + 1) lg);;
  release LLog.

Definition begin_op : KM unit := acquire LLog;; begin_op_loop patience.

Definition write_log : KM unit :=
  lg ← getlog;
  for_each (seq 0 (Z.to_nat (lg_n lg))) (fun tail =>
    lg ← getlog;
    to ← bread (lg_dev lg) (wrap32 (lg_start lg + Z.of_nat tail + 1));
    src ← get_block tail;
    from ← bread (lg_dev lg) (wrap32 src);
    x ← getb from;
    upd_data to (fun _ => b_data x);;
    bwrite to;;
    brelse from;;
    brelse to).

Definition commit : KM unit :=
  lg ← getlog;
  when (0 <? lg_n lg)
    (write_log;;
     write_head;;
     install_trans false;;
     updlog (set_lg_n 0);;
     write_head).

(** The critical section in which a call leaves, and whether it has to commit. *)
Definition end_op_leave : KM bool :=
  acquire LLog;;
  updlog (fun lg => set_lg_outstanding (lg_outstanding lg - 1) lg);;
  lg ← getlog;
  if lg_committing lg then panic "log.committing" else
  do_commit ← (if lg_outstanding lg =? 0 then updlog (set_lg_committing true);; mret true
               else wakeup (Some ChLog);; mret false);
  release LLog;;
  mret do_commit.

(** The commit, without the lock, and the critical section after it. *)
Definition end_op_commit : KM unit :=
  commit;;
  acquire LLog;;
  updlog (set_lg_committing false);;
  wakeup (Some ChLog);;
  release LLog.

Definition end_op : KM unit :=
  do_commit ← end_op_leave;
  when do_commit end_op_commit.

(** The search of [log_write]: the index of the block in the header, or [n]. *)
Fixpoint find_logged (k i : nat) (blockno : Z) : KM nat :=
  match k with
  | O => mret i
  | S k =>
      v ← get_block i;
      if wrap32 v =? blockno then mret i else find_logged k (S i) blockno
  end.

Definition log_write (b : nat) : KM unit :=
  acquire LLog;;
  lg ← getlog;
  if Z.of_nat LOGBLOCKS <=? lg_n lg then panic "too big a transaction" else
  if lg_outstanding lg <? 1 then panic "log_write outside of trans" else
  x ← getb b;
  i ← find_logged (Z.to_nat (lg_n lg)) 0 (b_blockno x);
  set_block i (to_int (b_blockno x));;
  when (Z.of_nat i =? lg_n lg)
    (bpin b;;
     updlog (fun lg => set_lg_n (lg_n lg + 1) lg));;
  release LLog.

End log.
