(* ===== verification/LogSpec.v ===== *)
(** * Commit and recovery

    [commit] and [recover_from_log] as sequences of block writes, and what a
    crash between any two of them leaves behind. *)

From stdpp Require Import base gmap strings numbers list.
From S2P Require Import Prelude State Spinlock Strings Printf Bytes Proc Sleeplock Quiet Bio Cache Log.

(** ** Sequences of block writes *)

Abbreviation disk := (Z -> list Z).
Abbreviation writes := (list (Z * list Z)).

Definition apply_writes (W : writes) (D : disk) : disk :=
  foldl (fun D w => vset w.1 w.2 D) D W.

(** From [fs] to [fs'] the disk performed the writes [W]; only buffers changed
    besides. *)
Definition wrote (fs fs' : fsst) (W : writes) : Prop :=
  fs' = set_fs_bufs (fs_bufs fs')
          (set_fs_writes (fs_writes fs ++ W) (set_fs_disk (apply_writes W (fs_disk fs)) fs)).

Section writes.
Implicit Types (W : writes) (D V : disk).

Lemma take_incl {A} n (l : list A) x : x ∈ take n l -> x ∈ l.
Proof. intros (i & Hi & _)%elem_of_take. by eapply list_elem_of_lookup_2. Qed.

Lemma apply_app W W' D : apply_writes (W ++ W') D = apply_writes W' (apply_writes W D).
Proof. apply foldl_app. Qed.

Lemma apply_cons b v W D : apply_writes ((b, v) :: W) D = apply_writes W (vset b v D).
Proof. done. Qed.

Lemma apply_out W D z : (forall w, w ∈ W -> w.1 <> z) -> apply_writes W D z = D z.
Proof.
  revert D; induction W as [|[b v] W IH]; intros D HW; [done|]. rewrite apply_cons.
  rewrite IH by set_solver. rewrite vset_ne; [done|]. specialize (HW (b, v)). set_solver.
Qed.

(** Writes to different blocks: each block ends with the value written to it. *)
Lemma apply_in W D z v : NoDup W.*1 -> (z, v) ∈ W -> apply_writes W D z = v.
Proof.
  revert D; induction W as [|[b w] W IH]; intros D Hnd Hin; [set_solver|].
  cbn in Hnd. apply NoDup_cons in Hnd as [Hb Hnd]. rewrite apply_cons.
  apply elem_of_cons in Hin as [[= -> ->]|Hin]; [|by apply IH].
  rewrite apply_out; [apply vset_eq|]. intros w' Hw' <-. apply Hb. set_solver.
Qed.

Lemma wrote_nil fs fs' : same_fs fs fs' -> wrote fs fs' [].
Proof. unfold same_fs, wrote. intros ->. cbn. rewrite app_nil_r. by destruct fs. Qed.

Lemma wrote_trans fs1 fs2 fs3 W W' :
  wrote fs1 fs2 W -> wrote fs2 fs3 W' -> wrote fs1 fs3 (W ++ W').
Proof.
  unfold wrote. intros -> ->. cbn. rewrite app_assoc, apply_app. by destruct fs1.
Qed.

Lemma wrote_same fs1 fs2 fs3 W : wrote fs1 fs2 W -> same_fs fs2 fs3 -> wrote fs1 fs3 W.
Proof. intros H1 H2%wrote_nil. rewrite <- (app_nil_r W). by eapply wrote_trans. Qed.

Lemma same_wrote fs1 fs2 fs3 W : same_fs fs1 fs2 -> wrote fs2 fs3 W -> wrote fs1 fs3 W.
Proof. intros H1%wrote_nil H2. exact (wrote_trans _ _ _ [] _ H1 H2). Qed.

Lemma wrote_write fs blk v : wrote fs (disk_write blk v fs) [(blk, v)].
Proof. unfold wrote. by destruct fs. Qed.

Lemma wrote_log fs fs' W : wrote fs fs' W -> fs_log fs' = fs_log fs.
Proof. by intros ->. Qed.

Lemma wrote_disk fs fs' W : wrote fs fs' W -> fs_disk fs' = apply_writes W (fs_disk fs).
Proof. by intros ->. Qed.

Lemma wrote_writes fs fs' W : wrote fs fs' W -> fs_writes fs' = fs_writes fs ++ W.
Proof. by intros ->. Qed.

End writes.

(** ** Steps on locked buffers *)

Section steps.
Context {W : World} {D : Disk} {DS : DiskSpec} {T : Patience}.
Implicit Types (p : nat) (d blk : Z) (V : disk) (P H : gset Z) (s : kst).

Lemma bst_data p d V P H blk b s :
  bst p d V P H s -> caches d blk (fs_bufs (k_fs s)) b ->
  exists x, fs_bufs (k_fs s) !! b = Some x /\ b_data x = V blk /\ b_blockno x = blk.
Proof.
  intros [Hs HC] (x & Hb & Hx & Hd & Hbl). destruct (quiet_proc _ _ Hs) as [q Hq].
  exists x. rewrite <- Hbl. split_and!; [done| |done]. by eapply (c_view (HC q Hq)).
Qed.

Lemma wp_upd_data p d V P H blk b f Q s :
  bst p d V P H s -> blk ∈ H -> caches d blk (fs_bufs (k_fs s)) b ->
  (forall s', bframe s s' -> bst p d (vset blk (f (V blk)) V) P H s' -> same_fs (k_fs s) (k_fs s') ->
     (forall Z0, keeps d Z0 (k_fs s) (k_fs s')) -> Q tt s') ->
  wp (upd_data b f) Q s.
Proof.
  intros HB HH Hc HQ. destruct (bst_data _ _ _ _ _ _ _ _ HB Hc) as (x & Hx & Hdx & _).
  apply wp_updb; [done|].
  assert (E : alter (fun y => set_b_data (f (b_data y)) y) b (fs_bufs (k_fs s)) =
              alter (set_b_data (f (V blk))) b (fs_bufs (k_fs s))).
  { apply list_alter_ext; [|done]. intros y Hy. rewrite Hx in Hy. injection Hy as <-. by rewrite Hdx. }
  assert (Hf := bframe_bufs (alter (fun y => set_b_data (f (b_data y)) y) b) s).
  destruct HB as [Hs HC]. destruct (quiet_proc _ _ Hs) as [q Hq].
  apply HQ; [done| |apply same_fs_bufs|].
  - apply (bst_intro p d _ P _ s _ q Hs (bf_frame _ _ Hf) Hq). cbn. rewrite E.
    apply cache_data; [by apply HC|done|done].
  - intros Z0 z b' _ Hb'. cbn. by apply caches_alter.
Qed.

(** One turn of the loops of [write_log] and [install_trans]: block [src] is
    copied to block [dst] and written. *)
Lemma wp_write_log_turn p d V P i src dst lg Q s :
  bst p d V P ∅ s -> fs_log (k_fs s) = lg -> lg_dev lg = d ->
  wrap32 (lg_start lg + Z.of_nat i + 1) = dst -> lg_block lg !! i = Some src -> wrap32 src = src ->
  src ∈ P -> dst ∉ P -> (size P < NBUF)%nat ->
  (forall s', bframe s s' -> bst p d (vset dst (V src) V) P ∅ s' ->
     wrote (k_fs s) (k_fs s') [(dst, V src)] -> Q tt s') ->
  wp (lg ← getlog;
      to ← bread (lg_dev lg) (wrap32 (lg_start lg + Z.of_nat i + 1));
      src ← get_block i;
      from ← bread (lg_dev lg) (wrap32 src);
      x ← getb from;
      upd_data to (fun _ => b_data x);;
      bwrite to;;
      brelse from;;
      brelse to) Q s.
Proof.
  intros HB Hlg Hd Hdst Hblk Hw HsP HdP Hsz HQ. assert (Hne : dst <> src) by (intros ->; done).
  apply wp_bind, wp_gets. rewrite Hlg, Hd, Hdst. apply wp_bind.
  eapply wp_bread; [done|set_solver|right; by rewrite union_empty_r_L|].
  intros to s1 F1 B1 C1 S1 K1. apply wp_bind.
  apply wp_bind, wp_gets. rewrite S1. cbn. rewrite Hlg. eapply wp_deref; [done|]. rewrite Hw.
  apply wp_bind. eapply wp_bread; [exact B1|set_solver|by left|].
  intros from s2 F2 B2 C2 S2 K2. apply K2 in C1; [|set_solver].
  destruct (bst_data _ _ _ _ _ _ _ _ B2 C2) as (x & Hx & Ex & _).
  apply wp_bind. eapply wp_getb; [done|]. rewrite Ex. apply wp_bind.
  eapply (wp_upd_data _ _ _ _ _ dst); [exact B2|set_solver|done|].
  intros s3 F3 B3 S3 K3. apply (K3 (list_to_set [dst])) in C1; [|set_solver].
  apply (K3 (list_to_set [src])) in C2; [|set_solver].
  apply wp_bind. eapply (wp_bwrite _ _ _ _ _ dst); [exact B3|set_solver|done|].
  rewrite vset_eq. intros s4 F4 B4 E4. apply wp_bind.
  eapply (wp_brelse _ _ _ _ _ src); [exact B4|set_solver|by rewrite E4|by left|].
  intros s5 F5 B5 S5 K5.
  assert (C1' : caches d dst (fs_bufs (k_fs s5)) to) by (eapply (K5 (list_to_set [dst])); [set_solver|by rewrite E4]).
  eapply (wp_brelse _ _ _ _ _ dst); [exact B5|set_solver|done| |].
  { right. rewrite S5. cbn. rewrite E4. cbn. by rewrite !vset_eq. }
  intros s6 F6 B6 S6 _. apply HQ.
  - do 5 (etrans; [eassumption|]). done.
  - by replace ∅ with (({[src]} ∪ ({[dst]} ∪ ∅)) ∖ {[src]} ∖ {[dst]} : gset Z) by set_solver.
  - eapply same_wrote; [exact S1|]. eapply same_wrote; [exact S2|]. eapply same_wrote; [exact S3|].
    apply (wrote_same _ (k_fs s4)); [rewrite E4; apply wrote_write|by eapply same_fs_trans].
Qed.

Lemma bst_disk p d V P H s z : bst p d V P H s -> z ∉ P -> z ∉ H -> fs_disk (k_fs s) z = V z.
Proof.
  intros [Hs HC] HP HH. destruct (quiet_proc _ _ Hs) as [q Hq]. by apply (c_disk (HC q Hq)).
Qed.

(** The end of a turn of [install_trans]: both blocks are on disk. *)
Lemma wp_install_end (rec : bool) p d V P src dst lbuf dbuf Q s :
  bst p d V P ({[dst]} ∪ ({[src]} ∪ ∅)) s -> src <> dst -> (rec = false -> dst ∈ P) ->
  caches d src (fs_bufs (k_fs s)) lbuf -> caches d dst (fs_bufs (k_fs s)) dbuf ->
  fs_disk (k_fs s) src = V src -> fs_disk (k_fs s) dst = V dst ->
  (forall s', bframe s s' -> bst p d V (if rec then P else P ∖ {[dst]}) ∅ s' ->
     same_fs (k_fs s) (k_fs s') -> Q tt s') ->
  wp (when (negb rec) (bunpin dbuf);; brelse lbuf;; brelse dbuf) Q s.
Proof.
  intros HB Hne HdP C1 C2 E1 E2 HQ.
  assert (Hgo : forall s0, bframe s s0 -> same_fs (k_fs s) (k_fs s0) ->
    (forall Z0, keeps d Z0 (k_fs s) (k_fs s0)) ->
    bst p d V (if rec then P else P ∖ {[dst]}) ({[dst]} ∪ ({[src]} ∪ ∅)) s0 ->
    wp (brelse lbuf;; brelse dbuf) Q s0).
  - intros s0 F0 S0 K0 B0. apply wp_bind.
    eapply (wp_brelse _ _ _ _ _ src); [exact B0|set_solver|by apply (K0 {[src]}); [set_solver|]| |].
    { right. by rewrite S0. }
    intros s1 F1 B1 S1 K1.
    eapply (wp_brelse _ _ _ _ _ dst); [exact B1|set_solver| | |].
    { apply (K1 {[dst]}); [set_solver|]. by apply (K0 {[dst]}); [set_solver|]. }
    { right. by rewrite S1, S0. }
    intros s2 F2 B2 S2 _. apply HQ.
    + etrans; [exact F0|]. by etrans.
    + by replace ∅ with (({[dst]} ∪ ({[src]} ∪ ∅)) ∖ {[src]} ∖ {[dst]} : gset Z) by set_solver.
    + eapply same_fs_trans; [exact S0|]. by eapply same_fs_trans.
  - apply wp_bind. destruct rec; cbn [negb when].
    + apply wp_ret. apply Hgo; [done|apply same_fs_refl|by intros ? ?|done].
    + eapply (wp_bunpin _ _ _ _ _ dst); [exact HB|set_solver|by apply HdP|done|].
      intros s0 F0 B0 S0 K0. by apply Hgo.
Qed.

(** One turn of [install_trans]; with [recovering] the block is not pinned. *)
Lemma wp_install_turn (rec : bool) p d V P i src dst lg Q s :
  bst p d V P ∅ s -> fs_log (k_fs s) = lg -> lg_dev lg = d ->
  wrap32 (lg_start lg + Z.of_nat i + 1) = src -> lg_block lg !! i = Some dst -> wrap32 dst = dst ->
  src <> dst -> src ∉ P -> (rec = false -> dst ∈ P) -> (size P < if rec then NBUF - 1 else NBUF)%nat ->
  (forall s', bframe s s' -> bst p d (vset dst (V src) V) (if rec then P else P ∖ {[dst]}) ∅ s' ->
     wrote (k_fs s) (k_fs s') [(dst, V src)] -> Q tt s') ->
  wp (lg ← getlog;
      lbuf ← bread (lg_dev lg) (wrap32 (lg_start lg + Z.of_nat i + 1));
      dst ← get_block i;
      dbuf ← bread (lg_dev lg) (wrap32 dst);
      l ← getb lbuf;
      upd_data dbuf (fun _ => b_data l);;
      bwrite dbuf;;
      when (negb rec) (bunpin dbuf);;
      brelse lbuf;;
      brelse dbuf) Q s.
Proof.
  intros HB Hlg Hd Hsrc Hblk Hw Hne HsP HdP Hsz HQ. assert (Hdk := bst_disk _ _ _ _ _ _ src HB HsP).
  apply wp_bind, wp_gets. rewrite Hlg, Hd, Hsrc. apply wp_bind.
  eapply wp_bread; [exact HB|set_solver|right; rewrite union_empty_r_L; destruct rec; lia|].
  intros lbuf s1 F1 B1 C1 S1 K1. apply wp_bind.
  apply wp_bind, wp_gets. rewrite S1. cbn. rewrite Hlg. eapply wp_deref; [done|]. rewrite Hw.
  apply wp_bind. eapply wp_bread; [exact B1|set_solver| |].
  { destruct rec; [right|left; by apply HdP].
    rewrite union_empty_r_L, size_union, size_singleton by set_solver. lia. }
  intros dbuf s2 F2 B2 C2 S2 K2. apply K2 in C1; [|set_solver].
  destruct (bst_data _ _ _ _ _ _ _ _ B2 C1) as (x & Hx & Ex & _).
  apply wp_bind. eapply wp_getb; [done|]. rewrite Ex. apply wp_bind.
  eapply (wp_upd_data _ _ _ _ _ dst); [exact B2|set_solver|done|].
  intros s3 F3 B3 S3 K3. apply (K3 {[src]}) in C1; [|set_solver].
  apply (K3 {[dst]}) in C2; [|set_solver].
  apply wp_bind. eapply (wp_bwrite _ _ _ _ _ dst); [exact B3|set_solver|done|].
  rewrite vset_eq. intros s4 F4 B4 E4.
  eapply (wp_install_end rec _ _ _ _ src dst); [exact B4|done|done|by rewrite E4|by rewrite E4| | |].
  - rewrite E4. cbn. rewrite !vset_ne by done. rewrite S3, S2, S1. cbn. apply Hdk. set_solver.
  - rewrite E4. cbn. by rewrite !vset_eq.
  - intros s5 F5 B5 S5. apply HQ.
    + do 4 (etrans; [eassumption|]). done.
    + done.
    + eapply same_wrote; [exact S1|]. eapply same_wrote; [exact S2|]. eapply same_wrote; [exact S3|].
      apply (wrote_same _ (k_fs s4)); [rewrite E4; apply wrote_write|done].
Qed.

End steps.

(** ** The log's header and its place on disk *)

(** The block of the log that holds the [i]th logged block. *)
Definition lblk (start : Z) (i : nat) : Z := start + Z.of_nat i + 1.

Definition in_log (start z : Z) : Prop := start <= z <= start + Z.of_nat LOGBLOCKS.

(** [bs] are the home addresses of the logged blocks. *)
Record log_geo (start : Z) (bs : list Z) : Prop := {
  geo_start : 0 <= start /\ start + Z.of_nat LOGBLOCKS < 2 ^ 31;
  geo_nodup : NoDup bs;
  geo_home b : b ∈ bs -> 0 <= b < 2 ^ 31 /\ ~ in_log start b;
  geo_len : (length bs <= LOGBLOCKS)%nat
}.

Record log_has (d start : Z) (bs : list Z) (lg : log) : Prop := {
  lh_dev : lg_dev lg = d;
  lh_start : lg_start lg = start;
  lh_n : lg_n lg = Z.of_nat (length bs);
  lh_blocks : take (length bs) (lg_block lg) = bs;
  lh_len : length (lg_block lg) = LOGBLOCKS
}.

Definition put_block (l : list Z) (ib : nat * Z) : list Z := put32 (head_block ib.1) ib.2 l.

(** The header block as [write_head] leaves it. *)
Definition enc_head (bs : list Z) (l : list Z) : list Z :=
  foldl put_block (put32 head_n (Z.of_nat (length bs)) l) (imap pair bs).

Definition dec_n (l : list Z) : Z := to_int (get32 head_n l).
Definition dec_block (l : list Z) (i : nat) : Z := to_int (get32 (head_block i) l).
Definition dec_blocks (l : list Z) : list Z := dec_block l <$> seq 0 (Z.to_nat (dec_n l)).

Section header.
Implicit Types (l bs : list Z).

Lemma to_int_wrap x : 0 <= x < 2 ^ 31 -> to_int (x mod 256 ^ Z.of_nat 4) = x.
Proof. intros H. rewrite Z.mod_small by (cbn; lia). apply to_int_small. lia. Qed.

Lemma put_blocks_length ibs l :
  (forall ib, ib ∈ ibs -> head_block ib.1 + 4 <= length l)%nat ->
  length (foldl put_block l ibs) = length l.
Proof.
  revert l; induction ibs as [|ib ibs IH]; intros l H; [done|]. cbn [foldl].
  assert (Hl : length (put_block l ib) = length l) by (apply put_le_length, H; set_solver).
  rewrite IH; [done|]. intros ib' Hin. rewrite Hl. apply H. set_solver.
Qed.

(** Reading a word the entries written do not touch. *)
Lemma put_blocks_other ibs l off :
  (forall ib, ib ∈ ibs -> head_block ib.1 + 4 <= length l)%nat -> (off + 4 <= length l)%nat ->
  (forall ib, ib ∈ ibs -> off + 4 <= head_block ib.1 \/ head_block ib.1 + 4 <= off)%nat ->
  get32 off (foldl put_block l ibs) = get32 off l.
Proof.
  revert l; induction ibs as [|ib ibs IH]; intros l H Hoff Hd; [done|]. cbn [foldl].
  assert (Hl : length (put_block l ib) = length l) by (apply put_le_length, H; set_solver).
  rewrite IH; rewrite ?Hl; [|intros; apply H; set_solver|done|intros; apply Hd; set_solver].
  apply get_put_other; [apply H; set_solver|done|apply Hd; set_solver].
Qed.

Lemma imap_pair_elem bs ib : ib ∈ imap pair bs <-> bs !! ib.1 = Some ib.2.
Proof.
  rewrite list_elem_of_lookup. destruct ib as [i b]. cbn. split.
  - intros [j Hj]. rewrite list_lookup_imap in Hj.
    destruct (bs !! j) eqn:E; [|done]. cbn in Hj. by simplify_eq.
  - intros H. exists i. by rewrite list_lookup_imap, H.
Qed.

Lemma put_blocks_get bs l k b :
  (head_block (length bs) <= length l)%nat -> bs !! k = Some b -> 0 <= b < 2 ^ 31 ->
  dec_block (foldl put_block l (imap pair bs)) k = b.
Proof.
  intros Hl Hk Hb. revert k b Hk Hb Hl. induction bs as [|c bs IH] using rev_ind; intros k b Hk Hb Hl; [done|].
  rewrite length_app in Hl. cbn in Hl. unfold head_block in *.
  assert (Hin : forall ib, ib ∈ imap pair bs -> (head_block ib.1 + 4 <= length l)%nat /\ (ib.1 < length bs)%nat).
  { intros ib H%imap_pair_elem%lookup_lt_Some. unfold head_block. lia. }
  rewrite imap_app, foldl_app. cbn [foldl imap]. rewrite Nat.add_0_r.
  assert (Hlen : length (foldl put_block l (imap pair bs)) = length l)
    by (apply put_blocks_length; intros; by apply Hin).
  unfold dec_block, put_block at 1. cbn [fst snd]. destruct (decide (k = length bs)) as [->|Hne].
  - rewrite lookup_app_r, Nat.sub_diag in Hk by lia. injection Hk as ->.
    rewrite get_put_same by (unfold head_block; lia). by apply to_int_wrap.
  - assert (Hlt := lookup_lt_Some _ _ _ Hk). rewrite length_app in Hlt. cbn in Hlt.
    rewrite get_put_other; [|unfold head_block; lia..].
    apply IH; [by rewrite lookup_app_l in Hk by lia|done|lia].
Qed.

Lemma dec_enc_n bs l :
  (head_block (length bs) <= length l)%nat -> (length bs <= LOGBLOCKS)%nat ->
  dec_n (enc_head bs l) = Z.of_nat (length bs).
Proof.
  intros Hl Hlen. unfold dec_n, enc_head. unfold head_block in Hl.
  rewrite put_blocks_other; unfold head_n; rewrite ?put_le_length by lia.
  - rewrite get_put_same by lia. apply to_int_wrap. unfold LOGBLOCKS in *. lia.
  - intros ib H%imap_pair_elem%lookup_lt_Some. unfold head_block. lia.
  - lia.
  - intros ib _. unfold head_block. lia.
Qed.

Lemma dec_enc_blocks bs l :
  (head_block (length bs) <= length l)%nat -> (length bs <= LOGBLOCKS)%nat ->
  (forall b, b ∈ bs -> 0 <= b < 2 ^ 31) -> dec_blocks (enc_head bs l) = bs.
Proof.
  intros Hl Hlen Hb. unfold dec_blocks. rewrite dec_enc_n, Nat2Z.id by done.
  apply list_eq. intros i. rewrite list_lookup_fmap. destruct (decide (i < length bs)%nat) as [Hi|Hi].
  - rewrite lookup_seq_lt by done. cbn. destruct (lookup_lt_is_Some_2 bs i Hi) as [b Hbi]. rewrite Hbi.
    f_equal. unfold enc_head. apply put_blocks_get; [|done|apply Hb; by eapply list_elem_of_lookup_2].
    rewrite put_le_length; [done|]. unfold head_block, head_n in *. lia.
  - rewrite lookup_seq_ge, lookup_ge_None_2 by lia. done.
Qed.

Lemma dec_enc_nil l : (4 <= length l)%nat -> dec_blocks (enc_head [] l) = [].
Proof. intros H. apply dec_enc_blocks; [done|cbn; lia|set_solver]. Qed.

End header.

(** ** The phases of a commit *)

(** Copying the blocks to the log, and from the log to their homes. *)
Definition log_writes (start : Z) (V : disk) (bs : list Z) : writes :=
  imap (fun i b => (lblk start i, V b)) bs.

Definition home_writes (start : Z) (V : disk) (bs : list Z) : writes :=
  imap (fun i b => (b, V (lblk start i))) bs.

Section phases.
Context {W : World} {D : Disk} {DS : DiskSpec} {T : Patience}.
Implicit Types (p : nat) (d start : Z) (V : disk) (P : gset Z) (bs : list Z) (s : kst).

Lemma geo_lblk start bs i : log_geo start bs -> (i < LOGBLOCKS)%nat ->
  in_log start (lblk start i) /\ wrap32 (start + Z.of_nat i + 1) = lblk start i.
Proof.
  intros G Hi. destruct (geo_start _ _ G). unfold in_log, lblk. split; [lia|].
  apply wrap32_small. lia.
Qed.

Lemma geo_block start bs i b : log_geo start bs -> bs !! i = Some b ->
  (i < LOGBLOCKS)%nat /\ wrap32 b = b /\ ~ in_log start b /\ lblk start i <> b.
Proof.
  intros G Hb. assert (Hi := lookup_lt_Some _ _ _ Hb). assert (Hlen := geo_len _ _ G).
  destruct (geo_home _ _ G b) as [Hr Hn]; [by eapply list_elem_of_lookup_2|].
  destruct (geo_lblk _ _ i G) as [Hl _]; [lia|]. split_and!; [lia|apply wrap32_small; lia|done|].
  by intros <-.
Qed.

Lemma lh_lookup d start bs lg i : log_has d start bs lg -> (i < length bs)%nat ->
  lg_block lg !! i = bs !! i.
Proof using.
  intros L Hi. trans (take (length bs) (lg_block lg) !! i); [by rewrite lookup_take_lt|].
  by rewrite (lh_blocks _ _ _ _ L).
Qed.

Lemma log_writes_lookup start V bs i :
  log_writes start V bs !! i = (fun b => (lblk start i, V b)) <$> bs !! i.
Proof. apply list_lookup_imap. Qed.

Lemma home_writes_lookup start V bs i :
  home_writes start V bs !! i = (fun b => (b, V (lblk start i))) <$> bs !! i.
Proof. apply list_lookup_imap. Qed.

Lemma log_writes_in start V bs w : log_geo start bs -> w ∈ log_writes start V bs -> in_log start w.1.
Proof.
  intros G [i Hi]%list_elem_of_lookup. rewrite log_writes_lookup in Hi.
  destruct (bs !! i) as [b|] eqn:E; [|done]. cbn in Hi. injection Hi as <-.
  apply (geo_lblk _ bs); [done|]. by eapply geo_block.
Qed.

Lemma home_writes_in start V bs w : w ∈ home_writes start V bs -> w.1 ∈ bs.
Proof.
  intros [i Hi]%list_elem_of_lookup. rewrite home_writes_lookup in Hi.
  destruct (bs !! i) as [b|] eqn:E; [|done]. cbn in Hi. injection Hi as <-.
  by eapply list_elem_of_lookup_2.
Qed.

Lemma wp_write_log p d start V P bs Q s :
  bst p d V P ∅ s -> log_has d start bs (fs_log (k_fs s)) -> log_geo start bs ->
  (forall b, b ∈ bs -> b ∈ P) -> (forall z, in_log start z -> z ∉ P) -> (size P < NBUF)%nat ->
  (forall s', bframe s s' -> bst p d (apply_writes (log_writes start V bs) V) P ∅ s' ->
     wrote (k_fs s) (k_fs s') (log_writes start V bs) -> Q tt s') ->
  wp write_log Q s.
Proof.
  intros HB L G HP Hlog Hsz HQ. set (W1 := log_writes start V bs) in *.
  apply wp_bind, wp_gets. rewrite (lh_n _ _ _ _ L), Nat2Z.id.
  apply (wp_for_each (fun pre t => bframe s t /\
    bst p d (apply_writes (take (length pre) W1) V) P ∅ t /\
    wrote (k_fs s) (k_fs t) (take (length pre) W1))).
  - split_and!; [done|done|apply wrote_nil, same_fs_refl].
  - intros pre i post t Hsplit (Ft & Bt & Wt). apply seq_split_lt in Hsplit as (-> & Hi & _).
    rewrite length_seq in *. destruct (lookup_lt_is_Some_2 bs i Hi) as [b Hb].
    destruct (geo_block _ _ _ _ G Hb) as (Hi' & Hwb & Hnb & Hne).
    destruct (geo_lblk _ _ i G Hi') as [Hin Hwi].
    assert (HV : apply_writes (take i W1) V b = V b).
    { apply apply_out. intros w Hw. assert (Hw' : w ∈ W1) by (by eapply take_incl).
      apply (log_writes_in _ _ _ _ G) in Hw'. by intros <-. }
    assert (Htake : take (S i) W1 = take i W1 ++ [(lblk start i, V b)]).
    { apply take_S_r. unfold W1. by rewrite log_writes_lookup, Hb. }
    eapply (wp_write_log_turn p d _ P i b (lblk start i)); [exact Bt|reflexivity|..].
    + rewrite (wrote_log _ _ _ Wt). apply L.
    + by rewrite (wrote_log _ _ _ Wt), (lh_start _ _ _ _ L).
    + by rewrite (wrote_log _ _ _ Wt), (lh_lookup _ _ _ _ _ L Hi).
    + done.
    + apply HP. by eapply list_elem_of_lookup_2.
    + by apply Hlog.
    + done.
    + rewrite HV. intros t' Ft' Bt' Wt'. rewrite length_app, length_seq, Nat.add_1_r, Htake, apply_app.
      split_and!; [by etrans|done|by eapply wrote_trans].
  - intros t (Ft & Bt & Wt). rewrite length_seq in *.
    rewrite take_ge in * by (unfold W1, log_writes; by rewrite length_imap). by apply HQ.
Qed.

Lemma bst_ext p d V V' P H s : (forall z, V z = V' z) -> bst p d V P H s -> bst p d V' P H s.
Proof.
  intros E [Hs HC]. split; [done|]. intros q Hq. destruct (HC q Hq). split; try done.
  - intros. rewrite <- E. eauto.
  - intros. rewrite <- E. eauto.
Qed.

Definition set_log (f : log -> log) : kst -> kst := upd_fs (fun x => set_fs_log (f (fs_log x)) x).

Lemma bst_log p d V P H f s : bst p d V P H s -> bst p d V P H (set_log f s).
Proof.
  intros [Hs HC]. split; [by eapply quiet_frame; [|apply frame_upd]|].
  intros q Hq. by destruct (HC q Hq).
Qed.

Lemma set_log_id f s : f (fs_log (k_fs s)) = fs_log (k_fs s) -> set_log f s = s.
Proof. intros H. unfold set_log, upd_fs. rewrite H. destruct s as []; cbn. by destruct k_fs. Qed.

Lemma bframe_log f s : bframe s (set_log f s).
Proof. split; [by apply frame_upd|done]. Qed.

Lemma vset_twice z v w V x : vset z v (vset z w V) x = vset z v V x.
Proof. unfold vset. by case_match. Qed.

Lemma wp_write_head p d start V P bs Q s :
  bst p d V P ∅ s -> log_has d start bs (fs_log (k_fs s)) -> log_geo start bs ->
  start ∉ P -> (size P < NBUF)%nat ->
  (forall s', bframe s s' -> bst p d (vset start (enc_head bs (V start)) V) P ∅ s' ->
     wrote (k_fs s) (k_fs s') [(start, enc_head bs (V start))] -> Q tt s') ->
  wp write_head Q s.
Proof.
  intros HB L G Hstart Hsz HQ. set (hd0 := put32 head_n (Z.of_nat (length bs)) (V start)).
  assert (Hws : wrap32 start = start) by (apply wrap32_small; destruct (geo_start _ _ G); lia).
  apply wp_bind, wp_gets. rewrite (lh_dev _ _ _ _ L), (lh_start _ _ _ _ L), (lh_n _ _ _ _ L), Hws, Nat2Z.id.
  apply wp_bind. eapply wp_bread; [exact HB|set_solver|right; by rewrite union_empty_r_L|].
  intros b s1 F1 B1 C1 S1 _. apply wp_bind.
  eapply (wp_upd_data _ _ _ _ _ start); [exact B1|set_solver|done|].
  intros s2 F2 B2 S2 K2. apply (K2 {[start]}) in C1; [|set_solver]. fold hd0 in B2.
  assert (Hloop : wp (for_each (seq 0 (length bs)) (fun i =>
      v ← get_block i; upd_data b (put32 (head_block i) v)))
    (fun _ t => bframe s2 t /\ bst p d (vset start (enc_head bs (V start)) V) P ({[start]} ∪ ∅) t /\
       same_fs (k_fs s2) (k_fs t) /\ caches d start (fs_bufs (k_fs t)) b) s2).
  { apply (wp_for_each (fun pre t => bframe s2 t /\
      bst p d (vset start (foldl put_block hd0 (take (length pre) (imap pair bs))) V) P ({[start]} ∪ ∅) t /\
      same_fs (k_fs s2) (k_fs t) /\ caches d start (fs_bufs (k_fs t)) b)).
    - split_and!; [done|done|apply same_fs_refl|done].
    - intros pre i post t Hsplit (Ft & Bt & St & Ct). apply seq_split_lt in Hsplit as (-> & Hi & _).
      rewrite length_seq in *. destruct (lookup_lt_is_Some_2 bs i Hi) as [v Hv].
      apply wp_bind, wp_bind, wp_gets. eapply wp_deref.
      { rewrite St, S2, S1. cbn. by rewrite (lh_lookup _ _ _ _ _ L Hi). }
      eapply (wp_upd_data _ _ _ _ _ start); [exact Bt|set_solver|done|].
      intros t' Ft' Bt' St' Kt'. rewrite vset_eq in Bt'.
      rewrite length_app, length_seq, Nat.add_1_r.
      rewrite (take_S_r _ _ (i, v)) by (by rewrite list_lookup_imap, Hv). rewrite foldl_app.
      split_and!; [by etrans| |by eapply same_fs_trans|by apply (Kt' {[start]}); [set_solver|]].
      eapply bst_ext; [|exact Bt']. intros z. apply vset_twice.
    - intros t (Ft & Bt & St & Ct). rewrite length_seq in *.
      rewrite take_ge in Bt by (by rewrite length_imap). done. }
  apply wp_bind. eapply wp_mono; [exact Hloop|]. cbv beta. intros [] t (Ft & Bt & St & Ct).
  apply wp_bind. eapply (wp_bwrite _ _ _ _ _ start); [exact Bt|set_solver|done|].
  rewrite vset_eq. intros s3 F3 B3 E3.
  eapply (wp_brelse _ _ _ _ _ start); [exact B3|set_solver|by rewrite E3| |].
  { right. rewrite E3. cbn. by rewrite !vset_eq. }
  intros s4 F4 B4 S4 _. apply HQ.
  - do 4 (etrans; [eassumption|]). done.
  - by replace ∅ with (({[start]} ∪ ∅) ∖ {[start]} : gset Z) by set_solver.
  - eapply same_wrote; [exact S1|]. eapply same_wrote; [exact S2|]. eapply same_wrote; [exact St|].
    apply (wrote_same _ (k_fs s3)); [rewrite E3; apply wrote_write|done].
Qed.

(** The state after [i] turns of [install_trans]. *)
Definition installed (rec : bool) p d start V (P : gset Z) (bs : list Z) (s : kst) (i : nat) (t : kst) : Prop :=
  bframe s t /\
  bst p d (apply_writes (take i (home_writes start V bs)) V) (if rec then P else P ∖ list_to_set (take i bs)) ∅ t /\
  wrote (k_fs s) (k_fs t) (take i (home_writes start V bs)).

(** One turn, after the message that recovery prints. *)
Lemma wp_install_step (rec : bool) p d start V P bs i b s t t' :
  log_has d start bs (fs_log (k_fs s)) -> log_geo start bs ->
  (rec = false -> forall b, b ∈ bs -> b ∈ P) -> (forall z, in_log start z -> z ∉ P) ->
  (size P < if rec then NBUF - 1 else NBUF)%nat ->
  installed rec p d start V P bs s i t -> (i < length bs)%nat -> bs !! i = Some b ->
  frame t t' -> k_fs t' = k_fs t -> k_slocks t' = k_slocks t ->
  wp (lg ← getlog;
      lbuf ← bread (lg_dev lg) (wrap32 (lg_start lg + Z.of_nat i + 1));
      dst ← get_block i;
      dbuf ← bread (lg_dev lg) (wrap32 dst);
      l ← getb lbuf;
      upd_data dbuf (fun _ => b_data l);;
      bwrite dbuf;;
      when (negb rec) (bunpin dbuf);;
      brelse lbuf;;
      brelse dbuf) (fun _ => installed rec p d start V P bs s (S i)) t'.
Proof.
  intros L G HP Hlog Hsz (Ft & Bt & Wt) Hi Hb Ft' Efs Esl. set (W3 := home_writes start V bs) in *.
  destruct (geo_block _ _ _ _ G Hb) as (Hi' & Hwb & Hnb & Hne). destruct (geo_lblk _ _ i G Hi') as [Hin Hwi].
  assert (HV : apply_writes (take i W3) V (lblk start i) = V (lblk start i)).
  { apply apply_out. intros w Hw E. apply take_incl, home_writes_in in Hw. rewrite E in Hw.
    by apply (geo_home _ _ G) in Hw as [_ ?]. }
  assert (Htake : take (S i) W3 = take i W3 ++ [(b, V (lblk start i))]).
  { apply take_S_r. unfold W3. by rewrite home_writes_lookup, Hb. }
  assert (Hlg : fs_log (k_fs t') = fs_log (k_fs s)) by (rewrite Efs; exact (wrote_log _ _ _ Wt)).
  assert (Hnin : b ∉ take i bs).
  { intros (j & Hj & Hlt)%elem_of_take. assert (j = i); [|lia]. by eapply NoDup_lookup; [apply (geo_nodup _ _ G)|..]. }
  assert (Bt' := bst_same _ _ _ _ _ _ _ Bt Ft' Efs Esl).
  assert (Ft2 : bframe s t') by (etrans; [exact Ft|]; split; [done|]; intros; by rewrite Esl).
  eapply (wp_install_turn rec p d _ _ i (lblk start i) b); [exact Bt'|reflexivity|..].
  - rewrite Hlg. apply L.
  - by rewrite Hlg, (lh_start _ _ _ _ L).
  - by rewrite Hlg, (lh_lookup _ _ _ _ _ L Hi).
  - done.
  - done.
  - specialize (Hlog _ Hin). destruct rec; set_solver.
  - intros ->. assert (b ∈ P) by (apply HP; [done|]; by eapply list_elem_of_lookup_2). set_solver.
  - destruct rec; [done|]. eapply Nat.le_lt_trans; [|exact Hsz]. apply subseteq_size. set_solver.
  - rewrite HV. intros t2 F2 B2 W2. unfold installed. fold W3. rewrite Htake, apply_app.
    rewrite Efs in W2. split_and!; [by etrans| |by eapply wrote_trans].
    destruct rec; [done|]. rewrite (take_S_r _ _ b), list_to_set_app_L by done.
    by replace (P ∖ (list_to_set (take i bs) ∪ list_to_set [b])) with (P ∖ list_to_set (take i bs) ∖ {[b]}) by set_solver.
Qed.

Lemma wp_install_trans (rec : bool) p d start V P bs Q s :
  bst p d V P ∅ s -> log_has d start bs (fs_log (k_fs s)) -> log_geo start bs ->
  (rec = false -> forall b, b ∈ bs -> b ∈ P) -> (forall z, in_log start z -> z ∉ P) ->
  (size P < if rec then NBUF - 1 else NBUF)%nat ->
  (forall s', bframe s s' ->
     bst p d (apply_writes (home_writes start V bs) V) (if rec then P else P ∖ list_to_set bs) ∅ s' ->
     wrote (k_fs s) (k_fs s') (home_writes start V bs) -> Q tt s') ->
  wp (install_trans rec) Q s.
Proof.
  intros HB L G HP Hlog Hsz HQ. apply wp_bind, wp_gets. rewrite (lh_n _ _ _ _ L), Nat2Z.id.
  apply (wp_for_each (fun pre => installed rec p d start V P bs s (length pre))).
  - split_and!; [done| |apply wrote_nil, same_fs_refl]. destruct rec; [done|].
    by replace (P ∖ list_to_set (take (length []) bs)) with P by set_solver.
  - intros pre i post t Hsplit It. apply seq_split_lt in Hsplit as (-> & Hi & _).
    rewrite length_app, length_seq, Nat.add_1_r in *. destruct (lookup_lt_is_Some_2 bs i Hi) as [b Hb].
    assert (Hstep := wp_install_step rec p d start V P bs i b s t). destruct (It) as (Ft & Bt & Wt).
    apply wp_bind. destruct rec; cbn [when].
    + apply wp_bind, wp_bind, wp_gets. eapply wp_deref.
      { rewrite (wrote_log _ _ _ Wt), (lh_lookup _ _ _ _ _ L Hi). exact Hb. }
      apply wp_printf_printed; [by eapply quiet_print, bs_quiet|vm_compute; by eexists|].
      intros t' [out ->]. apply Hstep; try done. apply frame_upd; [done|cbn; by rewrite touch_idem|done].
    + apply wp_ret. by apply Hstep.
  - intros t (Ft & Bt & Wt). rewrite length_seq in *.
    rewrite take_ge in * by (unfold home_writes; by rewrite ?length_imap).
    rewrite (take_ge bs) in Bt by done. by apply HQ.
Qed.

Lemma wp_set_block i v Q s lg :
  fs_log (k_fs s) = lg -> (i < length (lg_block lg))%nat ->
  Q tt (set_log (fun lg => set_lg_block (<[i := v]> (lg_block lg)) lg) s) -> wp (set_block i v) Q s.
Proof.
  intros Hlg [b Hb]%lookup_lt_is_Some_2 HQ. apply wp_bind, wp_bind, wp_gets. rewrite Hlg.
  eapply wp_deref; [done|]. by apply wp_modify.
Qed.

(** [read_head] of a header with at most [LOGBLOCKS] entries. *)
Lemma wp_read_head p d start V P Q s :
  bst p d V P ∅ s -> lg_dev (fs_log (k_fs s)) = d -> lg_start (fs_log (k_fs s)) = start ->
  length (lg_block (fs_log (k_fs s))) = LOGBLOCKS -> wrap32 start = start ->
  0 <= dec_n (V start) <= Z.of_nat LOGBLOCKS -> start ∉ P -> (size P < NBUF)%nat ->
  (forall s', bframe s s' -> bst p d V P ∅ s' -> log_has d start (dec_blocks (V start)) (fs_log (k_fs s')) ->
     fs_disk (k_fs s') = fs_disk (k_fs s) -> fs_writes (k_fs s') = fs_writes (k_fs s) -> Q tt s') ->
  wp read_head Q s.
Proof.
  intros HB Hd Hst Hlen Hws Hn HsP Hsz HQ. assert (Hdk := bst_disk _ _ _ _ _ _ start HB HsP).
  apply wp_bind, wp_gets. rewrite Hd, Hst, Hws. apply wp_bind.
  eapply wp_bread; [exact HB|set_solver|right; by rewrite union_empty_r_L|].
  intros b s1 F1 B1 C1 S1 _. destruct (bst_data _ _ _ _ _ _ _ _ B1 C1) as (x & Hx & Ex & _).
  apply wp_bind. eapply wp_getb; [done|]. rewrite Ex. apply wp_bind, wp_modify.
  apply wp_bind, wp_gets. cbn [fs_log k_fs upd_fs set_k_fs set_fs_log lg_n set_lg_n].
  fold (dec_n (V start)). set (n := Z.to_nat (dec_n (V start))).
  set (s2 := upd_fs _ s1).
  assert (Hlg2 : fs_log (k_fs s2) = set_lg_n (dec_n (V start)) (fs_log (k_fs s))).
  { unfold s2. cbn. by rewrite S1. }
  assert (B2 : bst p d V P ({[start]} ∪ ∅) s2) by (exact (bst_log _ _ _ _ _ (set_lg_n (dec_n (V start))) _ B1)).
  assert (F2 : bframe s s2) by (etrans; [exact F1|]; exact (bframe_log (set_lg_n (dec_n (V start))) s1)).
  apply wp_bind. apply (wp_for_each (fun pre t => exists bl, length bl = LOGBLOCKS /\
    take (length pre) bl = dec_block (V start) <$> pre /\
    t = set_log (set_lg_block bl) s2)).
  - exists (lg_block (fs_log (k_fs s))). split_and!; [done|done|].
    symmetry. apply set_log_id. rewrite Hlg2. by destruct (fs_log (k_fs s)).
  - intros pre i post t Hsplit (bl & Hbl & Htk & ->). apply seq_split_lt in Hsplit as (-> & Hi & _).
    rewrite length_seq in *. apply wp_bind. eapply wp_getb; [exact Hx|]. rewrite Ex.
    eapply wp_set_block; [reflexivity|cbn; unfold n, LOGBLOCKS in *; lia|].
    exists (<[i := dec_block (V start) i]> bl). rewrite length_insert, length_app, length_seq.
    split_and!; [done| |done]. rewrite Nat.add_1_r.
    rewrite (take_S_r _ _ (dec_block (V start) i)) by (apply list_lookup_insert_eq; unfold n, LOGBLOCKS in *; lia).
    by rewrite take_insert_ge, Htk, fmap_app by done.
  - intros t (bl & Hbl & Htk & ->). rewrite length_seq in Htk.
    assert (B3 := bst_log _ _ _ _ _ (set_lg_block bl) _ B2).
    eapply (wp_brelse _ _ _ _ _ start); [exact B3|set_solver|exact C1| |].
    { right. cbn. rewrite S1. cbn. apply Hdk. set_solver. }
    intros s3 F3 B3' S3 _. apply HQ.
    + etrans; [exact F2|]. etrans; [apply (bframe_log (set_lg_block bl))|done].
    + by replace ∅ with (({[start]} ∪ ∅) ∖ {[start]} : gset Z) by set_solver.
    + rewrite S3. cbn. unfold dec_blocks. rewrite S1. cbn. split; cbn; [done|done| | |done].
      * rewrite length_fmap, length_seq. fold n. unfold n. lia.
      * by rewrite length_fmap, length_seq.
    + rewrite S3. cbn. by rewrite S1.
    + rewrite S3. cbn. by rewrite S1.
Qed.

End phases.
