(* ===== verification/Crash.v ===== *)
(** * Crash safety of the log

    Every commit is a sequence of block writes. Whatever prefix of it reaches
    the disk before a crash, recovery at the next boot leaves either all the
    old contents or all the new ones; and recovery itself may be interrupted
    and run again. *)

From stdpp Require Import base gmap strings numbers list.
From S2P Require Import Prelude State Spinlock Strings Printf Bytes Proc Sleeplock Quiet Bio Cache Log LogSpec.

(** ** Commit and recovery as writes *)

(** The blocks logged in a header block. *)
Abbreviation logged V start := (dec_blocks (V start)).

Definition commit_writes (start : Z) (V : disk) (bs : list Z) : writes :=
  let h := enc_head bs (V start) in
  log_writes start V bs ++ (start, h) :: (((fun b => (b, V b)) <$> bs) ++ [(start, enc_head [] h)]).

Definition recover_writes (start : Z) (D : disk) : writes :=
  home_writes start D (logged D start) ++ [(start, enc_head [] (D start))].

(** A header block recovery can read. *)
Definition head_ok (start : Z) (D : disk) : Prop :=
  0 <= dec_n (D start) <= Z.of_nat LOGBLOCKS /\ log_geo start (logged D start).

(** The disk after a recovery that runs to its end. *)
Definition recovered_disk (start : Z) (D : disk) : disk := apply_writes (recover_writes start D) D.

Section pure.
Implicit Types (start : Z) (V D : disk) (bs : list Z).

Lemma prefix_app_cases {A} (l a b : list A) :
  l `prefix_of` a ++ b -> l `prefix_of` a \/ exists l', l = a ++ l' /\ l' `prefix_of` b.
Proof.
  revert l; induction a as [|x a IH]; intros l Hl; [right; by exists l|].
  destruct l as [|y l]; [left; apply prefix_nil|]. cbn in Hl.
  pose proof (prefix_cons_inv_1 _ _ _ _ Hl) as ->. apply prefix_cons_inv_2 in Hl.
  destruct (IH l Hl) as [H|(l' & -> & H)]; [left; by apply prefix_cons|right; by exists l'].
Qed.

Lemma prefix_take {A} (l a : list A) : l `prefix_of` a -> l = take (length l) a.
Proof. intros [k ->]. by rewrite take_app_length. Qed.

Lemma log_writes_keys start V bs : (log_writes start V bs).*1 = lblk start <$> seq 0 (length bs).
Proof.
  apply list_eq. intros i. rewrite !list_lookup_fmap, log_writes_lookup.
  destruct (decide (i < length bs)%nat) as [Hi|Hi].
  - rewrite lookup_seq_lt by done. destruct (lookup_lt_is_Some_2 bs i Hi) as [b ->]. done.
  - rewrite lookup_seq_ge, lookup_ge_None_2 by lia. done.
Qed.

Lemma log_writes_nodup start V bs : NoDup (log_writes start V bs).*1.
Proof.
  rewrite log_writes_keys. apply NoDup_fmap_2; [|apply NoDup_seq].
  intros i j. unfold lblk. lia.
Qed.

(** The log blocks after the first phase. *)
Lemma log_written start V bs D i b :
  log_geo start bs -> bs !! i = Some b ->
  apply_writes (log_writes start V bs) D (lblk start i) = V b.
Proof.
  intros G Hb. apply apply_in; [apply log_writes_nodup|].
  apply (list_elem_of_lookup_2 _ i). by rewrite log_writes_lookup, Hb.
Qed.

Lemma log_writes_out start V bs D z :
  log_geo start bs -> (z = start \/ ~ in_log start z) ->
  apply_writes (log_writes start V bs) D z = D z.
Proof.
  intros G Hz. apply apply_out. intros w Hw E.
  assert (Hk : w.1 ∈ (log_writes start V bs).*1) by set_solver.
  rewrite log_writes_keys in Hk. apply list_elem_of_fmap in Hk as (i & Ei & Hi).
  rewrite Ei in E. apply elem_of_seq in Hi. destruct (geo_lblk _ _ i G) as [Hin _]; [pose proof (geo_len _ _ G); lia|].
  rewrite E in Hin. destruct Hz as [->|Hz]; [unfold lblk in E; lia|done].
Qed.

Lemma home_writes_eq start V D bs :
  (forall i b, bs !! i = Some b -> D (lblk start i) = V b) ->
  home_writes start D bs = (fun b => (b, V b)) <$> bs.
Proof.
  intros H. apply list_eq. intros i. rewrite home_writes_lookup, list_lookup_fmap.
  destruct (bs !! i) as [b|] eqn:E; cbn; [|done]. by rewrite (H i b E).
Qed.

Lemma home_in V bs D z : NoDup bs -> z ∈ bs -> apply_writes ((fun b => (b, V b)) <$> bs) D z = V z.
Proof.
  intros Hnd Hz. apply apply_in.
  - by rewrite <- list_fmap_compose, list_fmap_id.
  - apply list_elem_of_fmap. by exists z.
Qed.

Lemma home_out V bs D z n : z ∉ bs -> apply_writes (take n ((fun b => (b, V b)) <$> bs)) D z = D z.
Proof.
  intros Hz. apply apply_out. intros w Hw <-. apply Hz. apply take_incl in Hw.
  apply list_elem_of_fmap in Hw as (b & -> & Hb). done.
Qed.

Lemma log_geo_nil start bs : log_geo start bs -> log_geo start [].
Proof. intros []. split; [done|constructor|set_solver|cbn; lia]. Qed.

Lemma head_ok_empty start bs D : log_geo start bs -> dec_n (D start) = 0 -> head_ok start D.
Proof.
  intros G E. split; [rewrite E; lia|]. unfold dec_blocks. rewrite E. by eapply log_geo_nil.
Qed.

(** What recovery makes of a disk, outside the log. *)
Lemma recovered_out start D z :
  start <> z -> (forall b, b ∈ logged D start -> b <> z) -> recovered_disk start D z = D z.
Proof.
  intros Hs Hz. unfold recovered_disk, recover_writes. rewrite apply_app. cbn.
  rewrite vset_ne by congruence. apply apply_out. intros w Hw%home_writes_in. by apply Hz.
Qed.

Lemma start_not_home start bs : log_geo start bs -> start ∉ bs.
Proof. intros G H. destruct (geo_home _ _ G _ H) as [_ Hn]. apply Hn. unfold in_log. lia. Qed.

(** The disk of a crash: [D0] before the transaction, [V] the contents it
    writes, [bs] the blocks it changes. *)
Section crash.
Context (start : Z) (V D0 : disk) (bs : list Z).
Context (G : log_geo start bs).
Context (Hdisk : forall z, z ∉ bs -> D0 z = V z).
Context (Hempty : dec_n (D0 start) = 0).
Context (Hlen : length (V start) = BSIZE).

Lemma head_fits : (head_block (length bs) <= length (V start))%nat.
Proof. rewrite Hlen. pose proof (geo_len _ _ G). unfold head_block, LOGBLOCKS, BSIZE in *. lia. Qed.

Lemma logged_head : dec_blocks (enc_head bs (V start)) = bs.
Proof.
  apply dec_enc_blocks; [apply head_fits|apply G|]. intros b Hb. by apply (geo_home _ _ G).
Qed.

Lemma enc_head_length (cs : list Z) l :
  (length cs <= LOGBLOCKS)%nat -> length l = BSIZE -> length (enc_head cs l) = BSIZE.
Proof.
  intros Hc Hl. unfold enc_head. unfold BSIZE, LOGBLOCKS in *.
  rewrite put_blocks_length; rewrite put_le_length by (unfold head_n; lia); [done|].
  intros ib H%imap_pair_elem%lookup_lt_Some. unfold head_block. lia.
Qed.

(** A crash before the header is written loses the transaction. *)
Lemma crash_before (k : nat) z : ~ in_log start z ->
  recovered_disk start (apply_writes (take k (log_writes start V bs)) D0) z = D0 z.
Proof.
  intros Hz. set (D := apply_writes _ D0).
  assert (HD : forall x, x = start \/ ~ in_log start x -> D x = D0 x).
  { intros x Hx. apply apply_out. intros w Hw E.
    assert (Hw' : w.1 ∈ (log_writes start V bs).*1).
    { apply list_elem_of_fmap_2. by eapply take_incl. }
    rewrite log_writes_keys in Hw'. apply list_elem_of_fmap in Hw' as (i & Ei & Hi).
    rewrite E in Ei. apply elem_of_seq in Hi.
    destruct (geo_lblk _ _ i G) as [Hin _]; [pose proof (geo_len _ _ G); lia|].
    destruct Hx as [->|Hx]; [unfold lblk in Ei; lia|]. by rewrite <- Ei in Hin. }
  rewrite recovered_out, HD; [done|by right|intros ->; apply Hz; unfold in_log; lia|].
  rewrite HD by (by left). unfold dec_blocks. rewrite Hempty. set_solver.
Qed.

(** A crash after it completes the transaction. *)
Lemma crash_after (k : nat) z : ~ in_log start z ->
  recovered_disk start (apply_writes (take k ((fun b => (b, V b)) <$> bs))
    (vset start (enc_head bs (V start)) (apply_writes (log_writes start V bs) D0))) z = V z.
Proof.
  intros Hz. assert (Hs := start_not_home start bs G). set (D1 := vset _ _ _). set (D := apply_writes _ D1).
  assert (Hzs : z <> start) by (intros ->; apply Hz; unfold in_log; lia).
  assert (HDs : D start = enc_head bs (V start)).
  { unfold D. rewrite home_out by done. apply vset_eq. }
  assert (Hb : logged D start = bs) by (rewrite HDs; exact logged_head).
  assert (HDl : forall i b, bs !! i = Some b -> D (lblk start i) = V b).
  { intros i b Hi. destruct (geo_block _ _ _ _ G Hi) as (Hi' & _). destruct (geo_lblk _ _ i G Hi') as [Hin _].
    unfold D. rewrite home_out by (intros Hx; by destruct (geo_home _ _ G _ Hx)).
    unfold D1. rewrite vset_ne by (unfold lblk; lia). by apply log_written. }
  unfold recovered_disk, recover_writes. rewrite apply_app. cbn. rewrite vset_ne by done.
  rewrite Hb, (home_writes_eq start V D bs HDl).
  destruct (decide (z ∈ bs)) as [Hzb|Hzb]; [by apply home_in; [apply G|]|].
  rewrite <- (take_ge (_ <$> bs) (length bs)) by (by rewrite length_fmap).
  rewrite home_out by done. unfold D. rewrite home_out by done. unfold D1. rewrite vset_ne by done.
  rewrite log_writes_out; [by apply Hdisk|done|by right].
Qed.

Lemma commit_written z : ~ in_log start z -> apply_writes (commit_writes start V bs) D0 z = V z.
Proof.
  intros Hz. assert (Hzs : z <> start) by (intros ->; apply Hz; unfold in_log; lia).
  unfold commit_writes. rewrite apply_app, apply_cons, apply_app. cbn. rewrite vset_ne by done.
  destruct (decide (z ∈ bs)) as [Hzb|Hzb]; [by apply home_in; [apply G|]|].
  rewrite <- (take_ge (_ <$> bs) (length bs)) by (by rewrite length_fmap).
  rewrite home_out, vset_ne by done. rewrite log_writes_out; [by apply Hdisk|done|by right].
Qed.

(** Once the header is cleared recovery does nothing more. *)
Lemma crash_done z : ~ in_log start z ->
  let D := apply_writes ((fun b => (b, V b)) <$> bs)
             (vset start (enc_head bs (V start)) (apply_writes (log_writes start V bs) D0)) in
  recovered_disk start (vset start (enc_head [] (enc_head bs (V start))) D) z = V z.
Proof.
  intros Hz D. assert (Hs := start_not_home start bs G).
  assert (Hzs : z <> start) by (intros ->; apply Hz; unfold in_log; lia).
  rewrite recovered_out; [|done|].
  - rewrite vset_ne by done. unfold D. destruct (decide (z ∈ bs)) as [Hzb|Hzb]; [by apply home_in; [apply G|]|].
    rewrite <- (take_ge (_ <$> bs) (length bs)) by (by rewrite length_fmap).
    rewrite home_out, vset_ne by done. rewrite log_writes_out; [by apply Hdisk|done|by right].
  - rewrite vset_eq, dec_enc_nil; [set_solver|].
    rewrite enc_head_length; [unfold BSIZE; lia|apply G|done].
Qed.

(** Every crash leaves a header recovery can read. *)
Lemma crash_head_ok (Ws : writes) :
  Ws `prefix_of` commit_writes start V bs -> head_ok start (apply_writes Ws D0).
Proof.
  assert (Hs := start_not_home start bs G). unfold commit_writes.
  assert (Hlog : forall k, apply_writes (take k (log_writes start V bs)) D0 start = D0 start).
  { intros k. apply apply_out. intros w Hw%take_incl E.
    assert (Hk : w.1 ∈ (log_writes start V bs).*1) by (by apply list_elem_of_fmap_2).
    rewrite log_writes_keys in Hk. apply list_elem_of_fmap in Hk as (i & Ei & _). unfold lblk in Ei. lia. }
  intros [Hp|(W1 & -> & Hp)]%prefix_app_cases.
  { apply (head_ok_empty _ bs); [done|]. by rewrite (prefix_take _ _ Hp), Hlog. }
  destruct W1 as [|w W1].
  { apply (head_ok_empty _ bs); [done|]. rewrite app_nil_r, <- (take_ge (log_writes start V bs) (length bs)).
    - by rewrite Hlog.
    - unfold log_writes. by rewrite length_imap. }
  pose proof (prefix_cons_inv_1 _ _ _ _ Hp) as ->. apply prefix_cons_inv_2 in Hp.
  rewrite apply_app, apply_cons. set (D1 := vset start _ _).
  assert (HD1 : forall k, head_ok start (apply_writes (take k ((fun b => (b, V b)) <$> bs)) D1)).
  { intros k. unfold head_ok. rewrite home_out by done. unfold D1. rewrite vset_eq.
    rewrite dec_enc_n, logged_head by (apply head_fits || apply G). split; [pose proof (geo_len _ _ G); lia|done]. }
  apply prefix_app_cases in Hp as [Hp|(W2 & -> & Hp)]; [rewrite (prefix_take _ _ Hp); apply HD1|].
  destruct W2 as [|w W2].
  { rewrite app_nil_r, <- (take_ge (_ <$> bs) (length bs)) by (by rewrite length_fmap). apply HD1. }
  pose proof (prefix_cons_inv_1 _ _ _ _ Hp) as ->. apply prefix_cons_inv_2, prefix_nil_inv in Hp as ->.
  apply (head_ok_empty _ bs); [done|]. rewrite apply_app. cbn [apply_writes foldl fst snd].
  rewrite vset_eq. apply dec_enc_n; [|cbn; lia].
  rewrite enc_head_length; [unfold head_block, BSIZE; cbn; lia|apply G|done].
Qed.

(** Whatever prefix of the commit reaches the disk, recovery leaves the old
    contents everywhere or the new contents everywhere. *)
Lemma crash_atomic_disk (Ws : writes) :
  Ws `prefix_of` commit_writes start V bs ->
  (forall z, ~ in_log start z -> recovered_disk start (apply_writes Ws D0) z = D0 z) \/
  (forall z, ~ in_log start z -> recovered_disk start (apply_writes Ws D0) z = V z).
Proof.
  unfold commit_writes. intros [Hp|(W1 & -> & Hp)]%prefix_app_cases.
  { left. intros z Hz. rewrite (prefix_take _ _ Hp). by apply crash_before. }
  destruct W1 as [|w W1].
  { left. intros z Hz. rewrite app_nil_r, <- (take_ge (log_writes start V bs) (length bs)).
    - by apply crash_before.
    - unfold log_writes. by rewrite length_imap. }
  right. intros z Hz. pose proof (prefix_cons_inv_1 _ _ _ _ Hp) as ->. apply prefix_cons_inv_2 in Hp.
  rewrite apply_app, apply_cons. apply prefix_app_cases in Hp as [Hp|(W2 & -> & Hp)].
  { rewrite (prefix_take _ _ Hp). by apply crash_after. }
  assert (Hall := crash_after (length bs) z Hz). rewrite take_ge in Hall by (by rewrite length_fmap).
  destruct W2 as [|w W2]; [by rewrite app_nil_r|].
  pose proof (prefix_cons_inv_1 _ _ _ _ Hp) as ->. apply prefix_cons_inv_2, prefix_nil_inv in Hp as ->.
  rewrite apply_app. cbn [apply_writes foldl fst snd]. by apply crash_done.
Qed.

End crash.

Lemma home_writes_keys start D bs : (home_writes start D bs).*1 = bs.
Proof.
  apply list_eq. intros i. rewrite list_lookup_fmap, home_writes_lookup. by destruct (bs !! i).
Qed.

(** A crash during recovery, and recovery again. *)
Lemma recover_again_disk start D (Ws : writes) :
  log_geo start (logged D start) -> length (D start) = BSIZE ->
  Ws `prefix_of` recover_writes start D ->
  forall z, ~ in_log start z -> recovered_disk start (apply_writes Ws D) z = recovered_disk start D z.
Proof.
  intros G Hlen Hp z Hz. set (bs := logged D start) in *.
  assert (Hzs : z <> start) by (intros ->; apply Hz; unfold in_log; lia).
  assert (Hout : forall k x, x ∉ bs -> apply_writes (take k (home_writes start D bs)) D x = D x).
  { intros k x Hx. apply apply_out. intros w Hw%take_incl%home_writes_in <-. done. }
  assert (Hhome : forall x, in_log start x -> x ∉ bs) by (intros x Hx Hb; by destruct (geo_home _ _ G _ Hb)).
  assert (Hs : start ∉ bs) by (apply Hhome; unfold in_log; lia).
  assert (Hend : recovered_disk start D z = apply_writes (home_writes start D bs) D z).
  { unfold recovered_disk, recover_writes. rewrite apply_app. cbn. by rewrite vset_ne. }
  assert (Hmain : Ws `prefix_of` home_writes start D bs ->
    recovered_disk start (apply_writes Ws D) z = apply_writes (home_writes start D bs) D z).
  { clear Hp. intros Hp. rewrite (prefix_take _ _ Hp). set (D' := apply_writes _ D).
    assert (HDs : D' start = D start) by (by apply Hout).
    assert (Hh : home_writes start D' bs = home_writes start D bs).
    { apply list_eq. intros i. rewrite !home_writes_lookup. destruct (bs !! i) as [b|] eqn:E; [|done].
      cbn. do 2 f_equal. apply Hout, Hhome. eapply geo_lblk; [exact G|]. by eapply geo_block. }
    unfold recovered_disk, recover_writes. rewrite apply_app. cbn. rewrite vset_ne by done.
    rewrite HDs. fold bs. rewrite Hh. destruct (decide (z ∈ bs)) as [Hzb|Hzb].
    - apply list_elem_of_lookup in Hzb as [i Hi].
      assert (Hin : (z, D (lblk start i)) ∈ home_writes start D bs).
      { apply (list_elem_of_lookup_2 _ i). by rewrite home_writes_lookup, Hi. }
      assert (Hnd : NoDup (home_writes start D bs).*1) by (rewrite home_writes_keys; apply G).
      by rewrite !(apply_in _ _ _ _ Hnd Hin).
    - rewrite !apply_out; [|intros w Hw%home_writes_in <-; done..]. by apply Hout. }
  rewrite Hend. apply prefix_app_cases in Hp as [Hp|(W1 & -> & Hp)]; [by apply Hmain|].
  destruct W1 as [|w W1]; [rewrite app_nil_r in *; by apply Hmain|].
  pose proof (prefix_cons_inv_1 _ _ _ _ Hp) as ->. apply prefix_cons_inv_2, prefix_nil_inv in Hp as ->.
  rewrite apply_app. cbn [apply_writes foldl fst snd]. rewrite recovered_out; [by rewrite vset_ne|done|].
  rewrite vset_eq, dec_enc_nil; [set_solver|]. rewrite Hlen. unfold BSIZE. lia.
Qed.

Lemma recover_head_ok start D (Ws : writes) :
  head_ok start D -> length (D start) = BSIZE -> Ws `prefix_of` recover_writes start D ->
  head_ok start (apply_writes Ws D).
Proof.
  intros [Hn G] Hlen Hp. assert (Hs := start_not_home _ _ G).
  assert (Hsame : forall Ws', Ws' `prefix_of` home_writes start D (logged D start) ->
    head_ok start (apply_writes Ws' D)).
  { intros Ws' Hp'. unfold head_ok. rewrite (prefix_take _ _ Hp'), apply_out; [done|].
    intros w Hw%take_incl%home_writes_in E. by rewrite E in Hw. }
  apply prefix_app_cases in Hp as [Hp|(W1 & -> & Hp)]; [by apply Hsame|].
  destruct W1 as [|w W1]; [rewrite app_nil_r; by apply Hsame|].
  pose proof (prefix_cons_inv_1 _ _ _ _ Hp) as ->. apply prefix_cons_inv_2, prefix_nil_inv in Hp as ->.
  eapply head_ok_empty; [exact G|]. rewrite apply_app. cbn [apply_writes foldl fst snd].
  rewrite vset_eq. apply dec_enc_n; [rewrite Hlen; unfold head_block, BSIZE; cbn; lia|cbn; lia].
Qed.

End pure.

(** ** The code *)

(** From [fs] to [fs'] the disk performed the writes [W]. *)
Definition performed (fs fs' : fsst) (W : writes) : Prop :=
  fs_disk fs' = apply_writes W (fs_disk fs) /\ fs_writes fs' = fs_writes fs ++ W.

Section code.
Context {W : World} {D : Disk} {DS : DiskSpec} {T : Patience}.
Implicit Types (p : nat) (d start : Z) (V : disk) (bs : list Z) (s : kst).

Lemma wrote_performed fs fs' Ws : wrote fs fs' Ws -> performed fs fs' Ws.
Proof. intros ->. done. Qed.

Lemma performed_trans fs1 fs2 fs3 W1 W2 :
  performed fs1 fs2 W1 -> performed fs2 fs3 W2 -> performed fs1 fs3 (W1 ++ W2).
Proof.
  intros [E1 E2] [E3 E4]. split; [by rewrite E3, E1, apply_app|by rewrite E4, E2, app_assoc].
Qed.

Lemma log_has_empty d start bs lg : log_has d start bs lg -> log_has d start [] (set_lg_n 0 lg).
Proof. intros []. by split. Qed.

Lemma wp_commit p d start V bs Q s :
  bst p d V (list_to_set bs) ∅ s -> log_has d start bs (fs_log (k_fs s)) -> log_geo start bs ->
  (0 < length bs < NBUF)%nat ->
  (forall s' V', bframe s s' -> bst p d V' ∅ ∅ s' -> fs_log (k_fs s') = set_lg_n 0 (fs_log (k_fs s)) ->
     performed (k_fs s) (k_fs s') (commit_writes start V bs) -> Q tt s') ->
  wp commit Q s.
Proof.
  intros HB L G Hn HQ. assert (Hsz : (size (list_to_set bs : gset Z) < NBUF)%nat).
  { rewrite size_list_to_set by apply G. lia. }
  assert (Hlog : forall z, in_log start z -> z ∉ (list_to_set bs : gset Z)).
  { intros z Hz Hin. rewrite elem_of_list_to_set in Hin. by destruct (geo_home _ _ G _ Hin). }
  assert (Hst : in_log start start) by (unfold in_log; lia).
  assert (Hs := start_not_home start bs G).
  apply wp_bind, wp_gets. rewrite (lh_n _ _ _ _ L).
  destruct (Z.ltb_spec 0 (Z.of_nat (length bs))); [|lia]. cbn [when].
  apply wp_bind. eapply wp_write_log; [exact HB|exact L|exact G|set_solver|done|done|].
  intros s1 F1 B1 W1. rewrite <- (wrote_log _ _ _ W1) in L. apply wp_bind.
  eapply wp_write_head; [exact B1|exact L|exact G|by apply Hlog|done|].
  intros s2 F2 B2 W2. rewrite <- (wrote_log _ _ _ W2) in L.
  set (V1 := apply_writes (log_writes start V bs) V) in *.
  assert (HV1 : V1 start = V start) by (apply log_writes_out; [done|by left]). rewrite HV1 in *.
  set (V2 := vset start _ V1) in *. apply wp_bind.
  eapply (wp_install_trans false); [exact B2|exact L|exact G|intros _; set_solver|done|done|].
  assert (Hh : home_writes start V2 bs = (fun b => (b, V b)) <$> bs).
  { apply home_writes_eq. intros i b Hb. unfold V2. rewrite vset_ne by (unfold lblk; lia).
    by apply log_written. }
  rewrite Hh. intros s3 F3 B3 W3. rewrite <- (wrote_log _ _ _ W3) in L.
  apply wp_bind, wp_modify.
  assert (B3' := bst_log _ _ _ _ _ (set_lg_n 0) _ B3).
  eapply (wp_write_head _ _ start _ _ []); [exact B3'|by eapply log_has_empty|by eapply log_geo_nil|set_solver| |].
  { eapply Nat.le_lt_trans; [|exact Hsz]. apply subseteq_size. set_solver. }
  intros s4 F4 B4 W4. eapply HQ.
  - etrans; [exact F1|]. etrans; [exact F2|]. etrans; [exact F3|]. etrans; [|exact F4]. apply bframe_log.
  - rewrite difference_diag_L in B4. exact B4.
  - rewrite (wrote_log _ _ _ W4). cbn. by rewrite (wrote_log _ _ _ W3), (wrote_log _ _ _ W2), (wrote_log _ _ _ W1).
  - unfold commit_writes. eapply performed_trans; [by apply wrote_performed|].
    apply (performed_trans _ _ _ [_] _ (wrote_performed _ _ _ W2)).
    eapply performed_trans; [by apply wrote_performed|].
    replace (enc_head [] (enc_head bs (V start)))
      with (enc_head [] (apply_writes ((fun b => (b, V b)) <$> bs) V2 start)); [by destruct (wrote_performed _ _ _ W4)|].
    f_equal. rewrite <- (take_ge (_ <$> bs) (length bs)) by (by rewrite length_fmap).
    rewrite home_out by done. apply vset_eq.
Qed.

(** The machine after a reboot: an empty cache and log, over the disk. *)
Record booted (p : nat) (d start : Z) (s : kst) : Prop := {
  bt_cache : bst p d (fs_disk (k_fs s)) ∅ ∅ s;
  bt_dev : lg_dev (fs_log (k_fs s)) = d;
  bt_start : lg_start (fs_log (k_fs s)) = start;
  bt_len : length (lg_block (fs_log (k_fs s))) = LOGBLOCKS
}.

Lemma wp_recover p d start Q s :
  booted p d start s -> head_ok start (fs_disk (k_fs s)) ->
  (forall s' V', bframe s s' -> bst p d V' ∅ ∅ s' -> log_has d start [] (fs_log (k_fs s')) ->
     performed (k_fs s) (k_fs s') (recover_writes start (fs_disk (k_fs s))) -> Q tt s') ->
  wp recover_from_log Q s.
Proof.
  intros [HB Hd Hst Hlen] [Hn G] HQ. set (V := fs_disk (k_fs s)) in *.
  assert (Hws : wrap32 start = start) by (apply wrap32_small; destruct (geo_start _ _ G); lia).
  assert (Hsz : (size (∅ : gset Z) < NBUF - 1)%nat) by (rewrite size_empty; unfold NBUF; lia).
  apply wp_bind. eapply wp_read_head; [exact HB|done..|set_solver|lia|].
  intros s1 F1 B1 L1 E1 E2. apply wp_bind.
  eapply (wp_install_trans true); [exact B1|exact L1|exact G|done|set_solver|done|].
  intros s2 F2 B2 W2. rewrite <- (wrote_log _ _ _ W2) in L1. apply wp_bind, wp_modify.
  assert (B2' := bst_log _ _ _ _ _ (set_lg_n 0) _ B2).
  eapply (wp_write_head _ _ start _ _ []); [exact B2'|by eapply log_has_empty|by eapply log_geo_nil|set_solver|lia|].
  intros s3 F3 B3 W3. eapply HQ.
  - etrans; [exact F1|]. etrans; [exact F2|]. etrans; [|exact F3]. apply bframe_log.
  - exact B3.
  - rewrite (wrote_log _ _ _ W3). by eapply log_has_empty.
  - unfold recover_writes. apply wrote_performed in W2 as [D2 D2']. apply wrote_performed in W3 as [D3 D3'].
    assert (Ehd : apply_writes (home_writes start V (logged V start)) V start = V start).
    { apply apply_out. intros w Hw%home_writes_in E. rewrite E in Hw. by apply (start_not_home _ _ G). }
    cbn [k_fs upd_fs set_k_fs fs_disk fs_writes set_fs_log] in D3, D3'. rewrite Ehd in D3, D3'.
    split; [by rewrite D3, D2, E1, apply_app|by rewrite D3', D2', E2, app_assoc].
Qed.

End code.

(** ** Properties *)

(** C8: A commit is atomic with respect to crashes: the commit returns; for every
    prefix of the block writes it made, if the machine stops after that prefix
    and boots again, [recover_from_log] returns, and the blocks outside the
    log then hold either all their old contents or all the contents of the
    transaction. *)
Theorem commit_crash_atomic {W : World} {D : Disk} {DS : DiskSpec} {T : Patience}
    (p : nat) (d start : Z) (V : disk) (bs : list Z) (s : kst)
    (HB : bst p d V (list_to_set bs) ∅ s) (HL : log_has d start bs (fs_log (k_fs s)))
    (HG : log_geo start bs) (Hn : (0 < length bs < NBUF)%nat)
    (Hempty : dec_n (fs_disk (k_fs s) start) = 0) (Hlen : length (V start) = BSIZE) :
  wp commit (fun _ s' => exists Ws, fs_writes (k_fs s') = fs_writes (k_fs s) ++ Ws /\
    (forall z, ~ in_log start z -> fs_disk (k_fs s') z = V z) /\
    forall Wc, Wc `prefix_of` Ws ->
    forall t, booted p d start t -> fs_disk (k_fs t) = apply_writes Wc (fs_disk (k_fs s)) ->
    wp recover_from_log (fun _ t' =>
      (forall z, ~ in_log start z -> fs_disk (k_fs t') z = fs_disk (k_fs s) z) \/
      (forall z, ~ in_log start z -> fs_disk (k_fs t') z = V z)) t) s.
Proof.
  assert (Hdisk : forall z, z ∉ bs -> fs_disk (k_fs s) z = V z).
  { intros z Hz. eapply bst_disk; [exact HB|by rewrite elem_of_list_to_set|set_solver]. }
  eapply wp_commit; [exact HB|exact HL|exact HG|exact Hn|].
  intros s' V' _ _ _ [E1 E2]. exists (commit_writes start V bs). split_and!; [done| |].
  - intros z Hz. rewrite E1. by apply commit_written.
  - intros Wc Hp t Ht Et. eapply wp_recover; [exact Ht| |].
    + rewrite Et. by apply (crash_head_ok start V _ bs).
    + intros t' V'' _ _ _ [E3 _]. rewrite E3, Et. fold (recovered_disk start (apply_writes Wc (fs_disk (k_fs s)))).
      by apply (crash_atomic_disk start V _ bs).
Qed.

(** C9: Recovery may itself be interrupted: if the machine stops after any prefix
    of the writes of a recovery and boots again, the second recovery returns
    and leaves outside the log exactly what the first one would have left. *)
Theorem recovery_idempotent {W : World} {D : Disk} {DS : DiskSpec} {T : Patience}
    (p : nat) (d start : Z) (s : kst)
    (HB : booted p d start s) (Hh : head_ok start (fs_disk (k_fs s)))
    (Hlen : length (fs_disk (k_fs s) start) = BSIZE) :
  wp recover_from_log (fun _ s' => exists Ws, fs_writes (k_fs s') = fs_writes (k_fs s) ++ Ws /\
    forall Wc, Wc `prefix_of` Ws ->
    forall t, booted p d start t -> fs_disk (k_fs t) = apply_writes Wc (fs_disk (k_fs s)) ->
    wp recover_from_log (fun _ t' =>
      forall z, ~ in_log start z -> fs_disk (k_fs t') z = fs_disk (k_fs s') z) t) s.
Proof.
  eapply wp_recover; [exact HB|exact Hh|]. intros s' V' _ _ _ [E1 E2].
  eexists. split; [exact E2|]. intros Wc Hp t Ht Et. eapply wp_recover; [exact Ht| |].
  - rewrite Et. by apply recover_head_ok.
  - intros t' V'' _ _ _ [E3 _] z Hz. rewrite E3, Et, E1.
    by apply (recover_again_disk start (fs_disk (k_fs s))); [apply Hh|..].
Qed.
