(* ===== verification/Txn.v ===== *)
(** * Operations inside a transaction

    [txn] is the state of a process inside a file-system transaction: the
    buffer cache shows the blocks [V], the log has recorded the blocks [bs],
    which are pinned, and the process has locked the buffers of [H]. The steps
    every operation of [fs.c] is made of are specified on it: lock a block,
    read it, change it, log the change, release it. *)

From stdpp Require Import base gmap strings numbers list.
From S2P Require Import Prelude State Spinlock Strings Printf Bytes Proc Sleeplock Quiet Bio Cache Log LogSpec.

Record txn (p : nat) (d start : Z) (V : disk) (bs : list Z) (H : gset Z) (s : kst) : Prop := {
  tx_bst : bst p d V (list_to_set bs) H s;
  tx_log : log_has d start bs (fs_log (k_fs s));
  tx_nodup : NoDup bs;
  tx_range : Forall (fun b => 0 <= b < 2 ^ 31) bs;
  tx_open : 1 <= lg_outstanding (fs_log (k_fs s))
}.

(** The block is recorded once. *)
Definition record (blk : Z) (bs : list Z) : list Z := if decide (blk ∈ bs) then bs else bs ++ [blk].

(** What the steps change of the file system's variables. *)
Definition fs_step (fs fs' : fsst) : Prop := fs' = set_fs_bufs (fs_bufs fs') (set_fs_log (fs_log fs') fs).

Record tframe (s s' : kst) : Prop := {
  tf_frame : bframe s s';
  tf_fs : fs_step (k_fs s) (k_fs s')
}.

(** The buffers of the blocks of [H] stay where they are. *)
Definition tkeeps (d : Z) (H : gset Z) (s s' : kst) : Prop := keeps d H (k_fs s) (k_fs s').

Section record.
Implicit Types (bs : list Z) (blk : Z).

Lemma record_set blk bs : list_to_set (record blk bs) = ({[blk]} ∪ list_to_set bs : gset Z).
Proof. unfold record. case_decide; [set_solver|]. rewrite list_to_set_app_L. set_solver. Qed.

Lemma record_nodup blk bs : NoDup bs -> NoDup (record blk bs).
Proof.
  unfold record. case_decide; [done|]. intros Hn. apply NoDup_app. split_and!; [done|set_solver|apply NoDup_singleton].
Qed.

Lemma record_range blk bs :
  0 <= blk < 2 ^ 31 -> Forall (fun b => 0 <= b < 2 ^ 31) bs -> Forall (fun b => 0 <= b < 2 ^ 31) (record blk bs).
Proof.
  intros Hb Hbs. unfold record. case_decide; [done|]. apply Forall_app. by split; [|apply Forall_singleton].
Qed.

Lemma record_length blk bs : (length bs <= length (record blk bs) <= S (length bs))%nat.
Proof. unfold record. case_decide; [lia|]. rewrite length_app. cbn. lia. Qed.

Lemma elem_of_record b blk bs : b ∈ record blk bs <-> b = blk \/ b ∈ bs.
Proof. unfold record. case_decide; [naive_solver|]. rewrite elem_of_app, list_elem_of_singleton. naive_solver. Qed.

End record.

Section frames.
Implicit Types (s : kst) (H : gset Z).

Lemma fs_step_same fs fs' : same_fs fs fs' -> fs_step fs fs'.
Proof. unfold same_fs, fs_step. intros ->. by destruct fs. Qed.

#[global] Instance fs_step_preorder : PreOrder fs_step.
Proof.
  split.
  - intros fs. unfold fs_step. by destruct fs.
  - intros fs1 fs2 fs3. unfold fs_step. intros -> ->. by destruct fs1.
Qed.

#[global] Instance tframe_preorder : PreOrder tframe.
Proof. split; [by intros s; split|]. intros s1 s2 s3 [A1 B1] [A2 B2]. split; by etrans. Qed.

Lemma tframe_same s s' : bframe s s' -> same_fs (k_fs s) (k_fs s') -> tframe s s'.
Proof. intros Hf Hs. split; [done|]. by apply fs_step_same. Qed.

Lemma tkeeps_refl d H s : tkeeps d H s s.
Proof. by intros ? ?. Qed.

Lemma tkeeps_trans d H s1 s2 s3 : tkeeps d H s1 s2 -> tkeeps d H s2 s3 -> tkeeps d H s1 s3.
Proof. intros A B z b Hz Hc. by apply B, A. Qed.

Lemma tkeeps_sub d H H' s s' : H ⊆ H' -> tkeeps d H' s s' -> tkeeps d H s s'.
Proof. intros Hs A z b Hz. apply A. set_solver. Qed.

End frames.

(** ** Steps *)

Section steps.
Context {W : World} {D : Disk} {DS : DiskSpec} {T : Patience}.
Implicit Types (p : nat) (d start blk : Z) (V : disk) (bs : list Z) (H : gset Z) (s : kst).

Lemma txn_same p d start V V' bs H H' s s' :
  txn p d start V bs H s -> same_fs (k_fs s) (k_fs s') -> bst p d V' (list_to_set bs) H' s' ->
  txn p d start V' bs H' s'.
Proof. intros [? L ? ? O] Hs Hb. unfold same_fs in Hs. split; [done|by rewrite Hs|done|done|by rewrite Hs]. Qed.

Lemma tx_bread p d start V bs H blk Q s :
  txn p d start V bs H s -> blk ∉ H -> blk ∈ bs \/ (length bs + size H < NBUF)%nat ->
  (forall b s', tframe s s' -> txn p d start V bs ({[blk]} ∪ H) s' -> caches d blk (fs_bufs (k_fs s')) b ->
     tkeeps d H s s' -> (blk ∈ bs \/ fs_disk (k_fs s') blk = V blk) -> Q b s') ->
  wp (bread d blk) Q s.
Proof.
  intros X HH Hroom HQ. eapply wp_bread; [apply X|done| |].
  - destruct Hroom as [?|Hr]; [left; set_solver|right].
    assert (size (list_to_set bs ∪ H : gset Z) <= length bs + size H)%nat; [|lia].
    rewrite size_union_alt, size_list_to_set by apply X. apply Nat.add_le_mono_l, subseteq_size. set_solver.
  - intros b s' F B C S K. apply HQ; [by apply tframe_same|by eapply txn_same|done| |].
    + eapply tkeeps_sub; [|exact K]. set_solver.
    + destruct (decide (blk ∈ bs)); [by left|right]. rewrite S. cbn.
      eapply bst_disk; [apply X|set_solver|done].
Qed.

Lemma tx_getb p d start V bs H blk b Q s :
  txn p d start V bs H s -> caches d blk (fs_bufs (k_fs s)) b ->
  (forall x, b_data x = V blk -> b_blockno x = blk -> Q x s) -> wp (getb b) Q s.
Proof.
  intros X C HQ. destruct (bst_data _ _ _ _ _ _ _ _ (tx_bst _ _ _ _ _ _ _ X) C) as (x & Hx & E1 & E2).
  eapply wp_getb; [done|]. by apply HQ.
Qed.

Lemma tx_upd p d start V bs H blk b f Q s :
  txn p d start V bs H s -> blk ∈ H -> caches d blk (fs_bufs (k_fs s)) b ->
  (forall s', tframe s s' -> txn p d start (vset blk (f (V blk)) V) bs H s' ->
     (forall H0, tkeeps d H0 s s') -> fs_disk (k_fs s') = fs_disk (k_fs s) -> Q tt s') ->
  wp (upd_data b f) Q s.
Proof.
  intros X HH C HQ. eapply wp_upd_data; [apply X|done|done|]. intros s' F B S K.
  apply HQ; [by apply tframe_same|by eapply txn_same|intros H0; apply K|by rewrite S].
Qed.

Lemma tx_brelse p d start V bs H blk b Q s :
  txn p d start V bs H s -> blk ∈ H -> caches d blk (fs_bufs (k_fs s)) b ->
  blk ∈ bs \/ fs_disk (k_fs s) blk = V blk ->
  (forall s', tframe s s' -> txn p d start V bs (H ∖ {[blk]}) s' -> (forall H0, tkeeps d H0 s s') -> Q tt s') ->
  wp (brelse b) Q s.
Proof.
  intros X HH C Hd HQ. eapply wp_brelse; [apply X|done|done|by destruct Hd; [left; set_solver|right]|].
  intros s' F B S K. apply HQ; [by apply tframe_same|by eapply txn_same|intros H0; apply K].
Qed.

End steps.

(** ** Logging a block *)

Section logging.
Implicit Types (p : nat) (d start blk : Z) (V : disk) (bs : list Z) (H : gset Z) (s : kst).

(** The position of a block in the header, or the end. *)
Definition index_of (blk : Z) (bs : list Z) : nat :=
  default (length bs) (fst <$> list_find (fun b => b = blk) bs).

Lemma find_logged_spec d start bs blk k i Q s :
  log_has d start bs (fs_log (k_fs s)) -> Forall (fun b => 0 <= b < 2 ^ 31) bs -> (i + k = length bs)%nat ->
  blk ∉ take i bs -> Q (index_of blk bs) s -> wp (find_logged k i blk) Q s.
Proof.
  intros L Hr. revert i. induction k as [|k IH]; intros i Hi Hn HQ; cbn [find_logged].
  - apply wp_ret. rewrite take_ge in Hn by lia. unfold index_of in HQ.
    assert (E : list_find (fun b => b = blk) bs = None).
    { apply list_find_None, Forall_forall. intros b Hb ->. done. }
    rewrite E in HQ. cbn in HQ. by replace i with (length bs) by lia.
  - destruct (lookup_lt_is_Some_2 bs i) as [b Hb]; [lia|].
    apply wp_bind, wp_bind, wp_gets. eapply wp_deref; [rewrite (lh_lookup _ _ _ _ _ L) by lia; exact Hb|].
    assert (Hb' : 0 <= b < 2 ^ 31) by (rewrite Forall_lookup in Hr; by eapply Hr).
    rewrite wrap32_small by lia. destruct (Z.eqb_spec b blk) as [->|Hne].
    + apply wp_ret. unfold index_of in HQ.
      assert (E : list_find (fun b => b = blk) bs = Some (i, blk)).
      { apply list_find_Some. split_and!; [done|done|]. intros j y Hj Hlt ->. apply Hn.
        apply elem_of_take. by exists j. }
      by rewrite E in HQ.
    + apply IH; [lia| |done]. rewrite (take_S_r _ _ b) by done. set_solver.
Qed.

Lemma index_of_in blk bs : blk ∈ bs -> bs !! index_of blk bs = Some blk.
Proof.
  intros H. unfold index_of. destruct (list_find (fun b => b = blk) bs) as [[i y]|] eqn:E; cbn.
  - apply list_find_Some in E as (? & -> & _). done.
  - apply list_find_None in E. rewrite Forall_forall in E. by destruct (E blk H).
Qed.

Lemma index_of_out blk bs : blk ∉ bs -> index_of blk bs = length bs.
Proof.
  intros H. unfold index_of. destruct (list_find (fun b => b = blk) bs) as [[i y]|] eqn:E; [|done].
  apply list_find_Some in E as (Hi & -> & _). apply list_elem_of_lookup_2 in Hi. done.
Qed.

Lemma cache_log d V P H pid fs sl l : cache d V P H pid fs sl -> cache d V P H pid (set_fs_log l fs) sl.
Proof. by intros []. Qed.

(** [bpin] while another spin-lock [l] is held. *)
Lemma wp_bpin_in l y b x Q s :
  sync_wf y -> lock_free l y -> lock_free LBcache y -> l <> LBcache -> k_sync s = acq l y ->
  fs_bufs (k_fs s) !! b = Some x ->
  Q tt (upd_bufs (alter (fun x => set_b_refcnt (wrap32 (b_refcnt x + 1)) x) b) s) -> wp (bpin b) Q s.
Proof.
  intros Hwf Hl Hc Hne Hs Hx HQ.
  assert (Hw : sync_wf (acq l y)) by by apply sync_wf_acq.
  assert (Hf : lock_free LBcache (acq l y)) by by apply lock_free_acq_ne.
  apply wp_bind, wp_acquire; [by rewrite Hs..|]. apply wp_bind, wp_updb; [done|].
  eapply (wp_release_acq LBcache (acq l y)); [done|done|by cbn; rewrite Hs|].
  same_state HQ. rewrite touch_acq by done. rewrite <- Hs. by destruct s.
Qed.

(** [log_write] records the block; a block that is new is pinned. *)
Definition pin (x : buf) : buf := set_b_refcnt (wrap32 (b_refcnt x + 1)) x.

Definition log_add (blk : Z) (b : nat) (fs : fsst) : fsst :=
  let lg := fs_log fs in
  set_fs_log (set_lg_n (lg_n lg + 1) (set_lg_block (<[Z.to_nat (lg_n lg) := blk]> (lg_block lg)) lg))
    (set_fs_bufs (alter pin b (fs_bufs fs)) fs).

Lemma wp_log_write p d start bs b x Q s :
  quiet p s -> log_has d start bs (fs_log (k_fs s)) -> Forall (fun b => 0 <= b < 2 ^ 31) bs ->
  1 <= lg_outstanding (fs_log (k_fs s)) -> (length bs < LOGBLOCKS)%nat -> fs_bufs (k_fs s) !! b = Some x ->
  0 <= b_blockno x < 2 ^ 31 ->
  (forall s', frame s s' -> k_slocks s' = k_slocks s ->
     k_fs s' = (if decide (b_blockno x ∈ bs) then k_fs s else log_add (b_blockno x) b (k_fs s)) -> Q tt s') ->
  wp (log_write b) Q s.
Proof.
  intros Hs L Hr Ho Hroom Hx Hblk HQ. set (blk := b_blockno x) in *.
  assert (Hwf := quiet_wf _ _ Hs). assert (Hf := q_locks _ _ Hs LLog fl_log).
  unfold log_write. apply wp_bind, wp_acquire; [done..|].
  set (t := upd_sync (acq LLog) s). assert (Lt : log_has d start bs (fs_log (k_fs t))) by done.
  apply wp_bind, wp_gets. rewrite (lh_n _ _ _ _ Lt).
  destruct (Z.leb_spec (Z.of_nat LOGBLOCKS) (Z.of_nat (length bs))); [lia|].
  destruct (Z.ltb_spec (lg_outstanding (fs_log (k_fs t))) 1); [cbn in *; lia|].
  apply wp_bind. eapply wp_getb; [exact Hx|]. rewrite Nat2Z.id. fold blk.
  apply wp_bind. eapply (find_logged_spec d start bs); [done|done|lia|set_solver|].
  set (i := index_of blk bs). rewrite to_int_small by lia.
  assert (Hi : (i <= length bs)%nat).
  { unfold i. destruct (decide (blk ∈ bs)) as [Hin|Hin]; [|rewrite index_of_out by done; lia].
    apply index_of_in, lookup_lt_Some in Hin. lia. }
  destruct (lookup_lt_is_Some_2 (lg_block (fs_log (k_fs s))) i) as [v Hv]; [rewrite (lh_len _ _ _ _ L); lia|].
  apply wp_bind. unfold set_block, get_block. apply wp_bind, wp_bind, wp_gets. eapply wp_deref; [exact Hv|].
  apply wp_modify. set (lg' := set_lg_block (<[i := blk]> (lg_block (fs_log (k_fs s)))) (fs_log (k_fs s))).
  assert (Hsec : forall fs' : fsst, frame s (set_k_sync (touch (k_sync s)) (set_k_fs fs' t))).
  { intros fs'. by apply frame_in_section. }
  destruct (decide (blk ∈ bs)) as [Hin|Hin].
  - assert (Hlt : (i < length bs)%nat) by (unfold i; by apply index_of_in, lookup_lt_Some in Hin).
    destruct (Z.eqb_spec (Z.of_nat i) (Z.of_nat (length bs))); [lia|]. cbn [when]. apply wp_bind, wp_ret.
    eapply (wp_release_acq LLog (k_sync s)); [done..|].
    assert (Elg : lg' = fs_log (k_fs s)).
    { unfold lg'. rewrite list_insert_id; [by destruct (fs_log (k_fs s))|].
      rewrite (lh_lookup _ _ _ _ _ L) by done. by apply index_of_in. }
    apply HQ; [apply Hsec|done|]. cbn. fold lg'. rewrite Elg. by destruct (k_fs s).
  - assert (Ei : i = length bs) by by apply index_of_out.
    rewrite Ei, Z.eqb_refl. cbn [when]. apply wp_bind, wp_bind.
    eapply (wp_bpin_in LLog (k_sync s) b x); [done|done|apply (q_locks _ _ Hs); constructor|done|done|exact Hx|].
    apply wp_modify. eapply (wp_release_acq LLog (k_sync s)); [done..|].
    apply HQ; [|done|].
    + match goal with |- frame _ ?u => change u with (set_k_sync (touch (k_sync s)) (set_k_fs (k_fs u) t)) end. apply Hsec.
    + cbn. unfold log_add. rewrite (lh_n _ _ _ _ L), Nat2Z.id. done.
Qed.

Lemma log_has_add d start bs blk b fs :
  log_has d start bs (fs_log fs) -> (length bs < LOGBLOCKS)%nat -> log_has d start (bs ++ [blk]) (fs_log (log_add blk b fs)).
Proof.
  intros L Hroom. split; cbn; [apply L|apply L| | |].
  - rewrite (lh_n _ _ _ _ L), length_app. cbn. lia.
  - rewrite length_app, Nat.add_1_r, (lh_n _ _ _ _ L), Nat2Z.id, (take_S_r _ _ blk).
    + f_equal. rewrite take_insert_ge by lia. apply L.
    + apply list_lookup_insert_eq. rewrite (lh_len _ _ _ _ L). lia.
  - rewrite length_insert. apply L.
Qed.

End logging.

Section shapes.
Context {W : World} {D : Disk} {DS : DiskSpec} {T : Patience}.
Implicit Types (p : nat) (d start blk : Z) (V : disk) (bs : list Z) (H : gset Z) (s : kst).

Lemma tx_log_write p d start V bs H blk b Q s :
  txn p d start V bs H s -> blk ∈ H -> caches d blk (fs_bufs (k_fs s)) b -> 0 <= blk < 2 ^ 31 ->
  (length bs < LOGBLOCKS)%nat ->
  (forall s', tframe s s' -> txn p d start V (record blk bs) H s' -> (forall H0, tkeeps d H0 s s') ->
     fs_disk (k_fs s') = fs_disk (k_fs s) -> Q tt s') ->
  wp (log_write b) Q s.
Proof.
  intros X HH C Hblk Hroom HQ. destruct X as [B L Hnd Hr Ho]. assert (Hs := bs_quiet _ _ _ _ _ _ B).
  destruct (quiet_proc _ _ Hs) as [q Hq]. assert (HC := bs_cache _ _ _ _ _ _ B q Hq).
  destruct (C) as (x & Hb & Hx & Hd & Hbl). subst blk.
  eapply (wp_log_write p d start bs b x); [done..|]. intros s' F Hsl E.
  assert (F' : bframe s s') by (split; [done|]; by rewrite Hsl). unfold record in HQ.
  destruct (decide (b_blockno x ∈ bs)) as [Hin|Hin].
  - apply HQ; [split; [done|by rewrite E]| | |by rewrite E].
    + split; [by eapply bst_same|by rewrite E|done|done|by rewrite E].
    + intros ? ? ? ?. by rewrite E.
  - assert (Erec : record (b_blockno x) bs = bs ++ [b_blockno x]) by (unfold record; by rewrite decide_False).
    apply HQ; [by split; [|rewrite E]| | |by rewrite E].
    + rewrite <- Erec. split; rewrite ?E, ?Hsl; [| |by apply record_nodup|by apply record_range|done].
      * apply (bst_intro p d V _ _ s _ q Hs F Hq). rewrite E, Hsl, record_set. apply cache_log.
        apply (cache_ref _ _ (list_to_set bs) _ H H _ _ _ _ b (b_blockno x) x (fun y => wrap32 (b_refcnt y + 1)) HC Hb Hx); [done|set_solver|done| |set_solver|done| |set_solver].
        -- assert (Hrc := c_ref HC _ _ Hb Hx Hd). rewrite bool_decide_false, bool_decide_true in Hrc by set_solver.
           rewrite Hrc, !bool_decide_true by set_solver. done.
        -- intros _. by eapply (c_held HC).
      * rewrite Erec. by apply log_has_add.
    + intros ? z b' _ Hb'. rewrite E. by apply caches_alter.
Qed.

(** ** Shapes that recur *)

(** Blocks are fetched, changed, logged and released. *)
Lemma tx_change p d start V bs H blk f Q s :
  txn p d start V bs H s -> blk ∉ H -> (length bs + size H < NBUF)%nat -> (length bs < LOGBLOCKS)%nat ->
  0 <= blk < 2 ^ 31 ->
  (forall s', tframe s s' -> txn p d start (vset blk (f (V blk)) V) (record blk bs) H s' -> tkeeps d H s s' -> Q tt s') ->
  wp (bp ← bread d blk; upd_data bp f;; log_write bp;; brelse bp) Q s.
Proof.
  intros X HH Hroom Hlog Hblk HQ. apply wp_bind. eapply tx_bread; [exact X|done|by right|].
  intros b s1 F1 X1 C1 K1 _. apply wp_bind. eapply (tx_upd _ _ _ _ _ _ blk); [exact X1|set_solver|done|].
  intros s2 F2 X2 K2 _. assert (C2 := K2 {[blk]} blk b ltac:(set_solver) C1). apply wp_bind.
  eapply (tx_log_write _ _ _ _ _ _ blk); [exact X2|set_solver|done|done|done|]. intros s3 F3 X3 K3 _.
  assert (C3 := K3 {[blk]} blk b ltac:(set_solver) C2).
  eapply (tx_brelse _ _ _ _ _ _ blk); [exact X3|set_solver|done|left; rewrite elem_of_record; by left|]. intros s4 F4 X4 K4. apply HQ.
  - do 3 (etrans; [eassumption|]). done.
  - by replace (({[blk]} ∪ H) ∖ {[blk]}) with H in X4 by set_solver.
  - do 3 (eapply tkeeps_trans; [eauto|]). done.
Qed.

Lemma tx_printed p d start V bs H s t :
  txn p d start V bs H s -> printed s t -> tframe s t /\ txn p d start V bs H t /\ forall H0, tkeeps d H0 s t.
Proof.
  intros X [out ->]. destruct X as [B L ? ? O]. assert (Hs := bs_quiet _ _ _ _ _ _ B).
  destruct (quiet_proc _ _ Hs) as [q Hq].
  assert (F : frame s (upd_sync touch (set_k_out out s))) by (apply frame_upd; [done|cbn; by rewrite touch_idem|done]).
  split_and!; [by split; [split|]| |by intros ? ? ?].
  split; [|done..]. apply (bst_intro p d V _ _ s _ q Hs F Hq). apply (bs_cache _ _ _ _ _ _ B q Hq).
Qed.

End shapes.
