(* ===== verification/Reserve.v ===== *)
(** * Reservation of log space ([begin_op], [end_op] and [log_write] of [log.c])

    Several system calls run inside one transaction. [begin_op] admits a call
    only if the log has room for [MAXOPBLOCKS] more blocks, [end_op] commits
    when the last one leaves. The steps of the machine below are runs of the
    code of the critical sections of the three functions, on any kernel state
    that has the log; the calls interleave freely. As long as every call
    changes fewer than [MAXOPBLOCKS] blocks no interleaving overflows the log;
    a call may not use its reservation in full. *)

From stdpp Require Import base gmap sets strings numbers list.
From S2P Require Import Prelude State Spinlock Strings Printf Bytes Proc Sleeplock Quiet Bio Cache Log LogSpec Crash Txn.

(** ** The machine *)

(** The blocks in the log's header. *)
Definition logged (lg : log) : list Z := take (Z.to_nat (lg_n lg)) (lg_block lg).

(** The room [begin_op] asks for, and the effects of the critical sections on the
    log. *)
Definition fits (lg : log) : bool := lg_n lg + (lg_outstanding lg + 1) * MAXOPBLOCKS <=? Z.of_nat LOGBLOCKS.
Definition enter (lg : log) : log := set_lg_outstanding (lg_outstanding lg + 1) lg.
Definition absorb (blk : Z) (lg : log) : log :=
  if decide (blk ∈ logged lg) then lg
  else set_lg_n (lg_n lg + 1) (set_lg_block (<[Z.to_nat (lg_n lg) := blk]> (lg_block lg)) lg).
Definition leave (lg : log) : log := set_lg_outstanding (lg_outstanding lg - 1) lg.

(** The calls in progress, each with the blocks it has logged. *)
Abbreviation calls := (gmap nat (gset Z)).

(** The log after [initlog]. *)
Definition fresh_log (d start : Z) (blocks : list Z) : log := mklog start 0 false d 0 blocks.

Section machine.
Context {W : World} {D : Disk} {T : Patience}.

(** One turn of the loop of [begin_op]: the call is admitted, or would sleep. *)
Definition begin_op_try : KM unit := acquire LLog;; begin_op_loop 0.

(** The cache as the process finds it that commits: the blocks of the log are
    the ones that are pinned, and none of them is part of the log itself. *)
Definition commit_ready (p : nat) (V : disk) (s : kst) : Prop :=
  let lg := fs_log (k_fs s) in
  bst p (lg_dev lg) V (list_to_set (logged lg)) ∅ s /\ log_geo (lg_start lg) (logged lg).

(** One critical section, run by some process, when no call changes more than
    [m] blocks. What the rest of the kernel does between two of them may
    change anything but the log. *)
Inductive lstep (m : nat) : log * calls -> log * calls -> Prop :=
| l_begin p s s' ops i : quiet p s -> ops !! i = None -> begin_op_try s = Ok tt s' ->
    lstep m (fs_log (k_fs s), ops) (fs_log (k_fs s'), <[i := ∅]> ops)
| l_write p s s' ops i B b x : quiet p s -> ops !! i = Some B -> fs_bufs (k_fs s) !! b = Some x ->
    0 <= b_blockno x < 2 ^ 31 -> (size ({[b_blockno x]} ∪ B) <= m)%nat -> log_write b s = Ok tt s' ->
    lstep m (fs_log (k_fs s), ops) (fs_log (k_fs s'), <[i := {[b_blockno x]} ∪ B]> ops)
| l_end p s s' ops i B do_commit : quiet p s -> ops !! i = Some B -> end_op_leave s = Ok do_commit s' ->
    lstep m (fs_log (k_fs s), ops) (fs_log (k_fs s'), delete i ops)
| l_commit p V s s' ops : commit_ready p V s -> lg_committing (fs_log (k_fs s)) = true -> end_op_commit s = Ok tt s' ->
    lstep m (fs_log (k_fs s), ops) (fs_log (k_fs s'), ops).

Inductive reach (m : nat) (c0 : log * calls) : log * calls -> Prop :=
| r_here : reach m c0 c0
| r_step c c' : reach m c0 c -> lstep m c c' -> reach m c0 c'.

End machine.

(** ** The invariant *)

(** The blocks the calls in progress have reserved and not used. *)
Definition reserved (ops : calls) : Z := map_fold (fun _ B n => n + (MAXOPBLOCKS - Z.of_nat (size B))) 0 ops.

Record linv (m : nat) (lg : log) (ops : calls) : Prop := {
  li_len : length (lg_block lg) = LOGBLOCKS;
  li_n : 0 <= lg_n lg;
  li_room : lg_n lg + reserved ops <= Z.of_nat LOGBLOCKS;
  li_strict : lg_n lg < Z.of_nat LOGBLOCKS;
  li_count : lg_outstanding lg = Z.of_nat (size ops);
  li_calls : map_Forall (fun _ B => (size B <= m)%nat) ops;
  li_idle : ops = ∅ -> lg_committing lg = false -> lg_n lg = 0;
  li_commit : lg_committing lg = true -> ops = ∅;
  li_range : Forall (fun b => 0 <= b < 2 ^ 31) (logged lg);
  li_nodup : NoDup (logged lg);
  li_calls_in : map_Forall (fun _ B => forall b, b ∈ B -> b ∈ logged lg) ops
}.

Section reserved.
Implicit Types (ops : calls) (B : gset Z).

Lemma reserved_empty : reserved ∅ = 0.
Proof. apply map_fold_empty. Qed.

Lemma reserved_insert ops i B : ops !! i = None -> reserved (<[i := B]> ops) = reserved ops + (MAXOPBLOCKS - Z.of_nat (size B)).
Proof. intros Hi. unfold reserved. rewrite map_fold_insert_L; [done| |done]. intros. lia. Qed.

Lemma reserved_delete ops i B : ops !! i = Some B -> reserved ops = reserved (delete i ops) + (MAXOPBLOCKS - Z.of_nat (size B)).
Proof. intros Hi. rewrite <- (reserved_insert _ i) by apply lookup_delete_eq. by rewrite insert_delete_id. Qed.

(** Each call keeps at least [MAXOPBLOCKS - m] blocks in reserve. *)
Lemma reserved_ge m ops : map_Forall (fun _ B => (size B <= m)%nat) ops ->
  Z.of_nat (size ops) * (MAXOPBLOCKS - Z.of_nat m) <= reserved ops.
Proof.
  induction ops as [|i B ops Hi IH] using map_ind; intros H; [by rewrite reserved_empty|].
  rewrite map_Forall_insert in H by done. destruct H as [HB H]. specialize (IH H).
  rewrite reserved_insert, map_size_insert_None by done. lia.
Qed.

Lemma reserved_le ops : reserved ops <= Z.of_nat (size ops) * MAXOPBLOCKS.
Proof.
  induction ops as [|i B ops Hi IH] using map_ind; [by rewrite reserved_empty|].
  rewrite reserved_insert, map_size_insert_None by done. lia.
Qed.

End reserved.

Lemma logged_length (lg : log) : 0 <= lg_n lg <= Z.of_nat (length (lg_block lg)) -> Z.of_nat (length (logged lg)) = lg_n lg.
Proof. intros H. unfold logged. rewrite length_take. lia. Qed.

Lemma logged_absorb (lg : log) blk : 0 <= lg_n lg < Z.of_nat (length (lg_block lg)) -> logged (absorb blk lg) = record blk (logged lg).
Proof.
  intros Hn. unfold absorb, record. case_decide as Hin; [done|]. unfold logged. cbn.
  replace (Z.to_nat (lg_n lg + 1)) with (S (Z.to_nat (lg_n lg))) by lia.
  rewrite (take_S_r _ _ blk) by (apply list_lookup_insert_eq; lia). by rewrite take_insert_ge by lia.
Qed.

Section invariant.
Context (m : nat) (Hm : Z.of_nat m < MAXOPBLOCKS).
Implicit Types (lg : log) (ops : calls) (B : gset Z).

Lemma linv_fresh d start blocks : length blocks = LOGBLOCKS -> linv m (fresh_log d start blocks) ∅.
Proof.
  intros Hb. split; try done; by rewrite reserved_empty || constructor.
Qed.

(** The log has room for a block that is new to a call. *)
Lemma linv_room lg ops i B blk :
  linv m lg ops -> ops !! i = Some B -> (size ({[blk]} ∪ B) <= m)%nat -> blk ∉ B -> lg_n lg < Z.of_nat LOGBLOCKS.
Proof using Hm.
  intros L Hi Hs Hn. assert (H := reserved_ge m (delete i ops) (map_Forall_delete _ _ _ (li_calls _ _ _ L))).
  assert (Hr := li_room _ _ _ L). rewrite (reserved_delete _ _ _ Hi) in Hr. rewrite size_union in Hs by set_solver.
  rewrite size_singleton in Hs. nia.
Qed.

Lemma linv_le lg ops : linv m lg ops -> 0 <= lg_n lg <= Z.of_nat (length (lg_block lg)).
Proof using Hm.
  intros L. assert (H := reserved_ge m ops (li_calls _ _ _ L)). assert (Hr := li_room _ _ _ L).
  rewrite (li_len _ _ _ L). split; [apply L|nia].
Qed.

Lemma linv_write lg ops i B blk :
  linv m lg ops -> ops !! i = Some B -> 0 <= blk < 2 ^ 31 -> (size ({[blk]} ∪ B) <= m)%nat ->
  linv m (absorb blk lg) (<[i := {[blk]} ∪ B]> ops).
Proof using Hm.
  intros L Hi Hb Hs. assert (Hc := li_calls_in _ _ _ L i B Hi). cbn in Hc.
  assert (Hne : <[i := {[blk]} ∪ B]> ops <> ∅) by apply insert_non_empty.
  assert (Hsz : size (<[i := {[blk]} ∪ B]> ops) = size ops) by (apply map_size_insert_Some; by eexists).
  assert (Hres : reserved (<[i := {[blk]} ∪ B]> ops) = reserved (delete i ops) + (MAXOPBLOCKS - Z.of_nat (size ({[blk]} ∪ B)))).
  { rewrite <- insert_delete_eq. apply reserved_insert, lookup_delete_eq. }
  assert (Hr := li_room _ _ _ L). rewrite (reserved_delete _ _ _ Hi) in Hr.
  assert (Hf : map_Forall (fun _ B => (size B <= m)%nat) (<[i := {[blk]} ∪ B]> ops)) by (apply map_Forall_insert_2; [done|apply L]).
  assert (Hle := linv_le _ _ L). rewrite (li_len _ _ _ L) in Hle.
  assert (Hpos : (0 < size ops)%nat) by (apply Nat.neq_0_lt_0; intros E%map_size_empty_inv; by rewrite E, lookup_empty in Hi).
  destruct (decide (blk ∈ logged lg)) as [Hin|Hin].
  - unfold absorb. rewrite decide_True by done. split; try apply L; try done.
    + rewrite Hres. assert (size B <= size ({[blk]} ∪ B))%nat by (apply subseteq_size; set_solver). lia.
    + by rewrite Hsz, (li_count _ _ _ L).
    + intros Hcm. assert (E := li_commit _ _ _ L Hcm). subst ops. by rewrite lookup_empty in Hi.
    + apply map_Forall_insert_2; [set_solver|apply L].
  - assert (HB : blk ∉ B) by (intros H; by apply Hin, Hc). assert (Hlt := linv_room _ _ _ _ _ L Hi Hs HB).
    assert (El : logged (absorb blk lg) = record blk (logged lg)) by (apply logged_absorb; rewrite (li_len _ _ _ L); lia).
    assert (Ea : absorb blk lg = set_lg_n (lg_n lg + 1) (set_lg_block (<[Z.to_nat (lg_n lg) := blk]> (lg_block lg)) lg))
      by (unfold absorb; by rewrite decide_False).
    split; rewrite ?El; try done; rewrite ?Ea; cbn.
    + rewrite length_insert. apply L.
    + lia.
    + rewrite Hres, size_union, size_singleton by set_solver. lia.
    + assert (Hge := reserved_ge m _ Hf). rewrite Hsz, Hres, size_union, size_singleton in Hge by set_solver. nia.
    + by rewrite Hsz, (li_count _ _ _ L).
    + intros Hcm. assert (E := li_commit _ _ _ L Hcm). subst ops. by rewrite lookup_empty in Hi.
    + apply record_range; [done|apply L].
    + apply record_nodup, L.
    + apply map_Forall_insert_2.
      * intros b Hb'. rewrite elem_of_record. set_solver.
      * intros j B' Hj b Hb'. rewrite elem_of_record. right. by apply (li_calls_in _ _ _ L j B' Hj).
Qed.

Lemma linv_end lg ops i B :
  linv m lg ops -> ops !! i = Some B ->
  linv m (if lg_outstanding lg =? 1 then set_lg_committing true (leave lg) else leave lg) (delete i ops).
Proof using Hm.
  intros L Hi. assert (Hsz : size ops = S (size (delete i ops))).
  { rewrite <- map_size_insert_None with (i := i) (x := B) by apply lookup_delete_eq. by rewrite insert_delete_id. }
  assert (Hr := li_room _ _ _ L). rewrite (reserved_delete _ _ _ Hi) in Hr.
  assert (HB := li_calls _ _ _ L i B Hi). cbn in HB. assert (Hc := li_count _ _ _ L).
  assert (Hcm : lg_committing lg = false).
  { destruct (lg_committing lg) eqn:E; [|done]. apply (li_commit _ _ _ L) in E. subst ops. by rewrite lookup_empty in Hi. }
  assert (Hcalls := map_Forall_delete _ _ i (li_calls _ _ _ L)). assert (Hin := map_Forall_delete _ _ i (li_calls_in _ _ _ L)).
  destruct (Z.eqb_spec (lg_outstanding lg) 1); split; cbn; try apply L; try done; try lia.
  - intros _. apply map_size_empty_inv. lia.
  - intros E. rewrite E, map_size_empty in Hsz. lia.
  - by rewrite Hcm.
Qed.

Lemma linv_begin lg ops i :
  linv m lg ops -> ops !! i = None -> lg_committing lg = false -> fits lg = true -> linv m (enter lg) (<[i := ∅]> ops).
Proof using Hm.
  intros L Hi Hc Hf. unfold fits in Hf. apply Z.leb_le in Hf. rewrite (li_count _ _ _ L) in Hf. pose proof (reserved_le ops).
  split; cbn; try apply L.
  - rewrite reserved_insert, size_empty by done. lia.
  - rewrite map_size_insert_None, (li_count _ _ _ L) by done. lia.
  - apply map_Forall_insert_2; [rewrite size_empty; lia|apply L].
  - by intros ?%insert_non_empty.
  - by rewrite Hc.
  - apply map_Forall_insert_2; [set_solver|apply L].
Qed.

Lemma linv_commit lg ops :
  linv m lg ops -> lg_committing lg = true -> linv m (set_lg_committing false (set_lg_n 0 lg)) ops.
Proof using Hm.
  intros L Hc. assert (E := li_commit _ _ _ L Hc). subst ops.
  split; try apply L; try done; first [by rewrite reserved_empty | apply map_Forall_empty | constructor].
Qed.

(** A call in progress is counted, and no commit is going on. *)
Lemma linv_inside lg ops i B : linv m lg ops -> ops !! i = Some B -> 1 <= lg_outstanding lg /\ lg_committing lg = false.
Proof using.
  intros L Hi. assert (Hne : ops <> ∅) by (intros ->; by rewrite lookup_empty in Hi). split.
  - rewrite (li_count _ _ _ L). assert (0 < size ops)%nat; [|lia]. apply Nat.neq_0_lt_0. by intros ?%map_size_empty_inv.
  - destruct (lg_committing lg) eqn:E; [|done]. by apply (li_commit _ _ _ L) in E.
Qed.

Lemma linv_log_has lg ops : linv m lg ops -> log_has (lg_dev lg) (lg_start lg) (logged lg) lg.
Proof using Hm.
  intros L. assert (Hle := linv_le _ _ L). assert (El := logged_length lg Hle). split; try done.
  - by replace (length (logged lg)) with (Z.to_nat (lg_n lg)) by lia.
  - apply L.
Qed.

End invariant.

(** ** What the critical sections do *)

Section code.
Context {W : World} {D : Disk} {T : Patience}.
Implicit Types (p : nat) (lg : log) (s : kst).

Lemma run_log_write p lg b x s :
  quiet p s -> fs_log (k_fs s) = lg -> log_has (lg_dev lg) (lg_start lg) (logged lg) lg ->
  Forall (fun b => 0 <= b < 2 ^ 31) (logged lg) -> 1 <= lg_outstanding lg -> lg_n lg < Z.of_nat LOGBLOCKS ->
  fs_bufs (k_fs s) !! b = Some x -> 0 <= b_blockno x < 2 ^ 31 ->
  wp (log_write b) (fun _ s' => fs_log (k_fs s') = absorb (b_blockno x) lg) s.
Proof.
  intros Hs E Hl Hr Ho Hn Hx Hb. subst lg. eapply (wp_log_write p _ _ _ b x); [done|exact Hl|done|done| |done|done|].
  - apply Nat2Z.inj_lt. by rewrite <- (lh_n _ _ _ _ Hl).
  - intros s' _ _ E'. rewrite E'. unfold absorb. by case_decide.
Qed.

Lemma run_begin_loop p lg s fuel :
  quiet p s -> fs_log (k_fs s) = lg -> lg_committing lg = false -> fits lg = true ->
  wp (acquire LLog;; begin_op_loop fuel) (fun _ s' => fs_log (k_fs s') = enter lg) s.
Proof.
  intros Hs E Hc Hf. assert (Hwf := quiet_wf _ _ Hs). assert (Hl := q_locks _ _ Hs LLog fl_log).
  apply wp_bind, wp_acquire; [done..|]. unfold fits in Hf. apply Z.leb_le in Hf.
  destruct fuel; cbn [begin_op_loop]; apply wp_bind, wp_gets; cbn [k_fs upd_sync set_k_sync]; rewrite E, Hc;
    (destruct (Z.ltb_spec (Z.of_nat LOGBLOCKS) (lg_n lg + (lg_outstanding lg + 1) * MAXOPBLOCKS)); [lia|]);
    apply wp_bind, wp_modify; (eapply (wp_release_acq LLog (k_sync s)); [done..|]); cbn; by rewrite E.
Qed.

(** A call is admitted only when no commit is going on and the log has room. *)
Lemma begin_op_admits p s s' :
  quiet p s -> begin_op_try s = Ok tt s' -> let lg := fs_log (k_fs s) in
  lg_committing lg = false /\ fits lg = true /\ fs_log (k_fs s') = enter lg.
Proof.
  intros Hs E lg. assert (Hg : lg_committing lg = false /\ fits lg = true).
  { unfold begin_op_try in E. assert (Hwf := quiet_wf _ _ Hs). assert (Hl := q_locks _ _ Hs LLog fl_log).
    assert (Ha : wp (acquire LLog) (fun _ t => t = upd_sync (acq LLog) s) s) by by apply wp_acquire.
    apply wp_inv in Ha as ([] & t & Ea & ->). rewrite (bind_ok _ _ _ _ _ Ea) in E. cbn [begin_op_loop] in E.
    rewrite (bind_ok _ _ _ (fs_log (k_fs s)) (upd_sync (acq LLog) s)) in E by done. fold lg in E.
    destruct (lg_committing lg); [done|]. unfold fits.
    destruct (Z.ltb_spec (Z.of_nat LOGBLOCKS) (lg_n lg + (lg_outstanding lg + 1) * MAXOPBLOCKS)); [done|].
    split; [done|]. apply Z.leb_le. lia. }
  destruct Hg as [Hc Hf]. split_and!; [done..|]. assert (H := run_begin_loop p lg s 0 Hs eq_refl Hc Hf).
  fold begin_op_try in H. unfold wp in H. by rewrite E in H.
Qed.

(** The critical section in which a call leaves. *)
Definition left_log lg : log := if lg_outstanding lg =? 1 then set_lg_committing true (leave lg) else leave lg.

Lemma run_end_leave p lg s Q :
  quiet p s -> fs_log (k_fs s) = lg -> lg_committing lg = false ->
  (forall s', frame s s' -> k_slocks s' = k_slocks s -> k_fs s' = set_fs_log (left_log lg) (k_fs s) ->
     Q (lg_outstanding lg =? 1) s') ->
  wp end_op_leave Q s.
Proof.
  intros Hs E Hc HQ. assert (Hwf := quiet_wf _ _ Hs). assert (Hl := q_locks _ _ Hs LLog fl_log). unfold left_log in HQ.
  unfold end_op_leave. apply wp_bind, wp_acquire; [done..|]. apply wp_bind, wp_modify. apply wp_bind, wp_gets.
  cbn [k_fs upd_sync set_k_sync upd_fs set_k_fs fs_log set_fs_log]. rewrite E. cbn [lg_committing set_lg_outstanding lg_outstanding].
  rewrite Hc. destruct (Z.eqb_spec (lg_outstanding lg) 1) as [E1|E1].
  - rewrite E1. cbn [Z.sub Z.eqb]. apply wp_bind, wp_bind, wp_modify, wp_ret, wp_bind.
    eapply (wp_release_acq LLog (k_sync s)); [done|done|done|]. apply wp_ret, HQ; [|done|].
    + apply frame_upd; [done|cbn; by rewrite touch_idem|done].
    + cbn. by rewrite E.
  - destruct (Z.eqb_spec (lg_outstanding lg - 1) 0); [lia|].
    apply wp_bind, wp_bind, wp_wakeup; [by apply sync_wf_acq|apply Hs|by apply proc_locks_free_acq, Hs|].
    apply wp_ret. apply wp_bind. eapply (wp_release_acq LLog (k_sync s)); [done|done|cbn; by apply touch_acq|].
    apply wp_ret, HQ; [|done|].
    + split; [done|cbn; by rewrite touch_idem|apply frame_wakeup].
    + cbn. by rewrite E.
Qed.

Context {DS : DiskSpec}.

Lemma run_end_commit p V s :
  commit_ready p V s -> (length (logged (fs_log (k_fs s))) < NBUF)%nat ->
  log_has (lg_dev (fs_log (k_fs s))) (lg_start (fs_log (k_fs s))) (logged (fs_log (k_fs s))) (fs_log (k_fs s)) ->
  wp end_op_commit (fun _ s' => fs_log (k_fs s') = set_lg_committing false (set_lg_n 0 (fs_log (k_fs s)))) s.
Proof using DS.
  intros [HB HG] Hlen HL. set (lg := fs_log (k_fs s)) in *. unfold end_op_commit. apply wp_bind.
  assert (Hrest : forall s1, quiet p s1 -> fs_log (k_fs s1) = set_lg_n 0 lg ->
    wp (acquire LLog;; updlog (set_lg_committing false);; wakeup (Some ChLog);; release LLog)
      (fun _ s' => fs_log (k_fs s') = set_lg_committing false (set_lg_n 0 lg)) s1).
  { intros s1 Hs1 E1. assert (Hwf := quiet_wf _ _ Hs1). assert (Hl := q_locks _ _ Hs1 LLog fl_log).
    apply wp_bind, wp_acquire; [done..|]. apply wp_bind, wp_modify.
    apply wp_bind, wp_wakeup; [by apply sync_wf_acq|apply Hs1|by apply proc_locks_free_acq, Hs1|].
    eapply (wp_release_acq LLog (k_sync s1)); [done|done|cbn; by apply touch_acq|]. cbn. by rewrite E1. }
  destruct (decide (length (logged lg) = 0%nat)) as [E0|E0].
  - assert (En : lg_n lg = 0) by (rewrite (lh_n _ _ _ _ HL); lia). unfold commit. apply wp_bind, wp_gets. fold lg.
    rewrite En. cbn [Z.ltb Z.compare when]. apply wp_ret. apply Hrest; [apply HB|]. fold lg. destruct lg; cbn in *. by subst.
  - eapply wp_commit; [exact HB|exact HL|exact HG|lia|]. intros s1 V1 _ B1 E1 _. apply Hrest; [apply B1|exact E1].
Qed.

(** The last call leaves and commits, with no other call in between. *)
Lemma run_end_op_last p V s :
  commit_ready p V s -> lg_committing (fs_log (k_fs s)) = false -> lg_outstanding (fs_log (k_fs s)) = 1 ->
  (length (logged (fs_log (k_fs s))) < NBUF)%nat ->
  log_has (lg_dev (fs_log (k_fs s))) (lg_start (fs_log (k_fs s))) (logged (fs_log (k_fs s))) (fs_log (k_fs s)) ->
  wp end_op (fun _ s' => fs_log (k_fs s') = set_lg_n 0 (leave (fs_log (k_fs s)))) s.
Proof using DS.
  intros [HB HG] Hc Ho Hlen HL. set (lg := fs_log (k_fs s)) in *. unfold end_op. apply wp_bind.
  eapply (run_end_leave p lg); [apply HB|done|done|]. intros s1 F1 S1 E1. rewrite Ho. cbn [Z.eqb Pos.eqb when].
  unfold left_log in E1. rewrite Ho in E1. cbn [Z.eqb Pos.eqb] in E1.
  assert (El : fs_log (k_fs s1) = set_lg_committing true (leave lg)) by by rewrite E1.
  assert (B1 : bst p (lg_dev lg) V (list_to_set (logged lg)) ∅ s1).
  { assert (B0 := bst_log _ _ _ _ _ (fun _ => set_lg_committing true (leave lg)) _ HB).
    eapply bst_same; [exact B0| |done|done]. destruct F1 as [A1 A2 A3]. by split. }
  eapply wp_mono; [apply (run_end_commit p V s1)|].
  - unfold commit_ready. rewrite El. split; [exact B1|exact HG].
  - by rewrite El.
  - rewrite El. destruct HL. by split.
  - intros [] s' ->. rewrite El. by destruct lg; cbn in *; subst.
Qed.

(** ** Every step keeps the invariant *)

Lemma linv_step m c c' : Z.of_nat m < MAXOPBLOCKS -> lstep m c c' -> linv m c.1 c.2 -> linv m c'.1 c'.2.
Proof using DS.
  intros Hm. destruct 1 as [p s s' ops i Hs Hi Er|p s s' ops i B b x Hs Hi Hx Hb Hsz Er|p s s' ops i B dc Hs Hi Er|p V s s' ops HC Hc Er];
    cbn [fst snd]; intros L.
  - destruct (begin_op_admits p s s' Hs Er) as (Hc & Hf & ->). by apply linv_begin.
  - destruct (linv_inside _ _ _ _ _ L Hi) as [Ho _].
    assert (H := run_log_write p _ b x s Hs eq_refl (linv_log_has m Hm _ _ L) (li_range _ _ _ L) Ho (li_strict _ _ _ L) Hx Hb).
    unfold wp in H. rewrite Er in H. rewrite H. by apply linv_write.
  - destruct (linv_inside _ _ _ _ _ L Hi) as [_ Hc].
    assert (H : wp end_op_leave (fun _ t => fs_log (k_fs t) = left_log (fs_log (k_fs s))) s).
    { eapply (run_end_leave p); [done|done|done|]. intros t _ _ Et. by rewrite Et. }
    unfold wp in H. rewrite Er in H. rewrite H. by eapply linv_end.
  - assert (Hlen := logged_length _ (linv_le m Hm _ _ L)). assert (Hst := li_strict _ _ _ L).
    assert (H := run_end_commit p V s HC ltac:(change NBUF with LOGBLOCKS; lia) (linv_log_has m Hm _ _ L)).
    unfold wp in H. rewrite Er in H. rewrite H. by apply linv_commit.
Qed.

Lemma linv_reach m c0 c : Z.of_nat m < MAXOPBLOCKS -> reach m c0 c -> linv m c0.1 c0.2 -> linv m c.1 c.2.
Proof using DS. intros Hm. induction 1 as [|c c' _ IH H]; [done|]. intros L. by eapply linv_step, IH. Qed.

End code.

(** ** A full log *)

(** When every buffer is pinned, reading another block panics. *)
Section full.
Context {W : World} {D : Disk} {T : Patience}.
Implicit Types (p : nat) (d : Z) (V : disk) (P : gset Z) (s : kst).

Lemma size_list_le (l : list Z) : (size (list_to_set l : gset Z) <= length l)%nat.
Proof.
  induction l as [|x l IH]; [by rewrite list_to_set_nil, size_empty|]. rewrite list_to_set_cons, size_union_alt, size_singleton. cbn.
  assert (size ((list_to_set l : gset Z) ∖ {[x]}) <= size (list_to_set l : gset Z))%nat by (apply subseteq_size; set_solver). lia.
Qed.

(** As many pinned blocks as buffers: each buffer holds one of them. *)
Lemma all_pinned d V P pid fs sl j x :
  cache d V P ∅ pid fs sl -> size P = NBUF -> (j < NBUF)%nat -> fs_bufs fs !! j = Some x -> b_dev x = d /\ b_blockno x ∈ P.
Proof.
  intros C Hsz Hj Hx. destruct (decide (b_dev x = d /\ b_blockno x ∈ P)) as [|Hno]; [done|]. exfalso.
  set (L := (fun i => from_option b_blockno 0 (fs_bufs fs !! i)) <$> filter (fun i => i <> j) (seq 0 NBUF)).
  assert (Hsub : P ⊆ list_to_set L).
  { intros z Hz. destruct (c_used C z) as (b & y & Hb & Hy & Hd & Hbl); [set_solver|].
    rewrite elem_of_list_to_set. unfold L. apply list_elem_of_fmap. exists b. rewrite list_elem_of_filter, elem_of_seq, Hy. cbn.
    split_and!; [done| |lia|lia]. intros ->. rewrite Hx in Hy. injection Hy as <-. apply Hno. by rewrite Hbl. }
  apply subseteq_size in Hsub. rewrite Hsz in Hsub.
  assert (Hf : (length (filter (fun i => i <> j) (seq 0 NBUF)) < length (seq 0 NBUF))%nat).
  { apply (length_filter_lt (fun i => i <> j) _ j); [apply elem_of_seq; lia|tauto]. }
  rewrite length_seq in Hf. pose proof (size_list_le L). unfold L in *. rewrite length_fmap in *. lia.
Qed.

Lemma bread_no_buffers p d V P blk s :
  bst p d V P ∅ s -> size P = NBUF -> blk ∉ P -> panics "bget: no buffers" (bread d blk) s.
Proof.
  intros [Hs HC] Hsz Hblk. destruct (quiet_proc _ _ Hs) as [q Hq]. assert (C := HC q Hq).
  destruct (c_ring C) as [l Hl]. destruct (ring_some _ _ bhead Hl) as [h Hh]; [done|].
  assert (Hlt : Forall (fun i => (i < NBUF)%nat) l).
  { apply Forall_forall. intros i Hi. by eapply ring_lt. }
  assert (Hlen : length l = NBUF) by (by rewrite (ring_perm _ _ Hl), length_seq).
  apply panics_first. unfold bget. apply panics_bind, wp_acquire; [by eapply quiet_wf|apply (q_locks _ _ Hs); constructor|].
  apply panics_bind. eapply wp_getb; [exact Hh|]. apply panics_bind.
  eapply (wp_find_cached _ bhead l); [exact (ring_links _ _ Hl)|unfold nextof; cbn; by rewrite Hh|done|lia|..].
  { intros i x Hi Hx [_ E]. exfalso. apply (ring_lt _ _ _ Hl) in Hi.
    destruct (all_pinned _ _ _ _ _ _ i x C Hsz Hi Hx) as [_ Hin]. by rewrite E in Hin. }
  intros _. apply panics_bind. eapply wp_getb; [exact Hh|]. apply panics_bind.
  eapply (wp_find_unused _ l _ _ _ bhead); [exact (ring_links _ _ Hl)|unfold prevof; cbn; by rewrite Hh|done|lia|..].
  - intros l1 b l2 x -> Hx Hr _. exfalso.
    assert (Hb : (b < NBUF)%nat) by (eapply ring_lt; [done|set_solver]).
    destruct (all_pinned _ _ _ _ _ _ b x C Hsz Hb Hx) as [Hd Hin]. assert (E := c_ref C _ _ Hb Hx Hd).
    rewrite Hr, bool_decide_true, bool_decide_false in E by set_solver. done.
  - intros _. by eexists.
Qed.

Lemma commit_no_buffers p V bs s :
  bst p (lg_dev (fs_log (k_fs s))) V (list_to_set bs) ∅ s -> size (list_to_set bs : gset Z) = NBUF ->
  0 < lg_n (fs_log (k_fs s)) -> wrap32 (lg_start (fs_log (k_fs s)) + 1) ∉ bs -> panics "bget: no buffers" commit s.
Proof.
  intros B Hsz Hn Hout. unfold commit. apply panics_bind, wp_gets. destruct (Z.ltb_spec 0 (lg_n (fs_log (k_fs s)))); [|lia].
  cbn [when]. apply panics_first. unfold write_log. apply panics_bind, wp_gets.
  destruct (Z.to_nat (lg_n (fs_log (k_fs s)))) eqn:E; [lia|]. cbn [seq for_each]. apply panics_first, panics_bind, wp_gets, panics_first.
  eapply bread_no_buffers; [exact B|done|]. rewrite Z.add_0_r. by rewrite elem_of_list_to_set.
Qed.

End full.

(** ** Filling the log *)

Section fill.
Context {W : World} {D : Disk} {T : Patience} (p : nat) (s : kst) (Hs : quiet p s).
Context (m : nat) (c0 : log * calls).
Implicit Types (lg : log) (ops : calls) (l : list Z).

(** The state with another log, and a buffer that holds the block. *)
Definition with_log (lg : log) : kst := upd_fs (set_fs_log lg) s.
Definition with_block (lg : log) (blk : Z) : kst :=
  upd_fs (fun fs => set_fs_bufs [mkbuf true false 1 blk 1 0 0 []] (set_fs_log lg fs)) s.

Lemma quiet_fs f : quiet p (upd_fs f s).
Proof using Hs. eapply quiet_frame; [exact Hs|by apply frame_upd]. Qed.

Lemma reach_begin lg ops i :
  reach m c0 (lg, ops) -> ops !! i = None -> lg_committing lg = false -> fits lg = true ->
  reach m c0 (enter lg, <[i := ∅]> ops).
Proof using Hs.
  intros R Hi Hc Hf. assert (H := run_begin_loop p lg (with_log lg) 0 (quiet_fs _) eq_refl Hc Hf).
  apply wp_inv in H as ([] & s' & Er & El). eapply r_step; [exact R|].
  rewrite <- El. change lg with (fs_log (k_fs (with_log lg))) at 1. eapply (l_begin m p); [apply quiet_fs|done|done].
Qed.

(** A new block is appended to the header. *)
Lemma absorb_new start o c d pre r rest b : b ∉ pre ->
  absorb b (mklog start o c d (Z.of_nat (length pre)) (pre ++ r :: rest)) =
  mklog start o c d (Z.of_nat (length (pre ++ [b]))) ((pre ++ [b]) ++ rest).
Proof using.
  intros Hb. unfold absorb, logged. cbn [lg_n lg_block]. rewrite Nat2Z.id, take_app_length, decide_False by done.
  unfold set_lg_n, set_lg_block. cbn. rewrite length_app, <- app_assoc. f_equal; [cbn; lia|].
  rewrite insert_app_r_alt by lia. by rewrite Nat.sub_diag.
Qed.

(** A call may log any new blocks within its bound. *)
Lemma reach_writes start o d pre l rest ops i B :
  reach m c0 (mklog start o false d (Z.of_nat (length pre)) (pre ++ rest), ops) -> 1 <= o -> ops !! i = Some B ->
  NoDup (pre ++ l) -> Forall (fun b => 0 <= b < 2 ^ 31) (pre ++ l) -> (size B + length l <= m)%nat ->
  (length l <= length rest)%nat -> length (pre ++ rest) = LOGBLOCKS ->
  exists ops', reach m c0 (mklog start o false d (Z.of_nat (length (pre ++ l))) ((pre ++ l) ++ drop (length l) rest), ops') /\
    forall j, j <> i -> ops' !! j = ops !! j.
Proof using Hs.
  revert pre rest ops B. induction l as [|b l IH]; intros pre rest ops B R Ho Hi Hnd Hr Hm Hlen Hall.
  { exists ops. rewrite app_nil_r. by rewrite drop_0. }
  destruct rest as [|r rest]; [cbn in Hlen; lia|]. cbn [length] in *.
  assert (Hb : b ∉ pre) by (apply NoDup_app in Hnd as (_ & H & _); intros Hin; apply (H b Hin); by left).
  assert (Ea := absorb_new start o false d pre r rest b Hb). set (lg := mklog start o false d (Z.of_nat (length pre)) (pre ++ r :: rest)) in *.
  assert (El : logged lg = pre) by (unfold logged, lg; cbn; by rewrite Nat2Z.id, take_app_length).
  apply Forall_app in Hr as [Hr1 Hr2]. apply Forall_cons in Hr2 as [Hbr Hr2].
  assert (Hle : (size ({[b]} ∪ B) <= S (size B))%nat).
  { rewrite size_union_alt, size_singleton. assert (size (B ∖ {[b]}) <= size B)%nat by (apply subseteq_size; set_solver). lia. }
  assert (H : wp (log_write 0) (fun _ s' => fs_log (k_fs s') = absorb b lg) (with_block lg b)).
  { eapply (run_log_write p lg 0 (mkbuf true false 1 b 1 0 0 [])); [apply quiet_fs|done| |by rewrite El|done| |done|done].
    - rewrite El. split; try done. unfold lg. cbn. by rewrite take_app_length.
    - unfold lg. cbn. rewrite length_app in Hall. cbn in Hall. lia. }
  apply wp_inv in H as ([] & s' & Er & Es).
  destruct (IH (pre ++ [b]) rest (<[i := {[b]} ∪ B]> ops) ({[b]} ∪ B)) as (ops' & R' & Hj).
  - rewrite <- Ea, <- Es. eapply r_step; [exact R|]. change lg with (fs_log (k_fs (with_block lg b))) at 1.
    apply (l_write m p (with_block lg b) s' ops i B 0 (mkbuf true false 1 b 1 0 0 [])); [apply quiet_fs|done|done|done|cbn; lia|done].
  - done.
  - apply lookup_insert_eq.
  - by rewrite <- app_assoc.
  - rewrite <- app_assoc. apply Forall_app; split; [done|by constructor].
  - lia.
  - lia.
  - rewrite length_app in *. cbn in *. rewrite length_app. cbn. lia.
  - exists ops'. rewrite <- app_assoc in R'. split; [exact R'|]. intros j Hne. rewrite Hj by done. by apply lookup_insert_ne.
Qed.

End fill.

(** Three calls that use their reservations in full. *)
Lemma reach_full {W : World} {D : Disk} {T : Patience} p s d start bs :
  quiet p s -> NoDup bs -> length bs = LOGBLOCKS -> Forall (fun b => 0 <= b < 2 ^ 31) bs ->
  exists ops, reach (Z.to_nat MAXOPBLOCKS) (fresh_log d start (replicate LOGBLOCKS 0), ∅) (mklog start 3 false d 30 bs, ops).
Proof.
  intros Hs Hnd Hlen Hr. set (m := Z.to_nat MAXOPBLOCKS). set (c0 := (fresh_log d start (replicate LOGBLOCKS 0), ∅)).
  set (l0 := take 10 bs). set (l1 := take 10 (drop 10 bs)). set (l2 := drop 10 (drop 10 bs)).
  assert (Hl0 : length l0 = 10%nat) by (unfold l0; rewrite length_take; unfold LOGBLOCKS in *; lia).
  assert (Hl1 : length l1 = 10%nat) by (unfold l1; rewrite length_take, length_drop; unfold LOGBLOCKS in *; lia).
  assert (Hl2 : length l2 = 10%nat) by (unfold l2; rewrite !length_drop; unfold LOGBLOCKS in *; lia).
  assert (Ebs : bs = (l0 ++ l1) ++ l2) by (unfold l0, l1, l2; by rewrite <- app_assoc, !take_drop).
  rewrite Ebs in Hr, Hnd. assert (Hnd1 := proj1 (NoDup_app _ _) Hnd). assert (Hr1 := proj1 (Forall_app _ _ _) Hr).
  destruct Hnd1 as (Hnd1 & _ & _), Hr1 as [Hr1 _].
  assert (R3 : reach m c0 (mklog start 3 false d (Z.of_nat (length (@nil Z))) ([] ++ replicate LOGBLOCKS 0),
    <[2%nat := ∅]> (<[1%nat := ∅]> (<[0%nat := ∅]> ∅)))).
  { change (mklog start 3 false d _ _) with (enter (enter (enter (fresh_log d start (replicate LOGBLOCKS 0))))).
    do 3 (apply (reach_begin p s Hs); [|done|done|done]). apply r_here. }
  destruct (reach_writes p s Hs m c0 _ _ _ _ l0 _ _ 0 ∅ R3) as (ops1 & R4 & H1);
    [lia|done|by apply (NoDup_app l0 l1)|by apply (Forall_app _ l0 l1)|by rewrite size_empty, Hl0|by rewrite Hl0, length_replicate; unfold LOGBLOCKS; lia|done|].
  destruct (reach_writes p s Hs m c0 _ _ _ _ l1 _ _ 1 ∅ R4) as (ops2 & R5 & H2);
    [lia|by rewrite H1|done|done|by rewrite size_empty, Hl1|rewrite Hl0, Hl1, length_drop, length_replicate; unfold LOGBLOCKS; lia| |].
  { rewrite !length_app, length_drop, length_replicate, Hl0. cbn. unfold LOGBLOCKS. lia. }
  destruct (reach_writes p s Hs m c0 _ _ _ _ l2 _ _ 2 ∅ R5) as (ops3 & R6 & _);
    [lia|by rewrite H2, H1|done|done|by rewrite size_empty, Hl2|rewrite Hl0, Hl1, Hl2, !length_drop, length_replicate; unfold LOGBLOCKS; lia| |].
  { rewrite !length_app, !length_drop, length_replicate, Hl0, Hl1. cbn. unfold LOGBLOCKS. lia. }
  exists ops3. cbn [app] in R6. rewrite <- Ebs, Hlen, Hl0, Hl1, Hl2 in R6.
  replace (drop 10 (drop 10 (drop 10 (replicate LOGBLOCKS 0)))) with (@nil Z) in R6 by done. rewrite app_nil_r in R6. exact R6.
Qed.

(** ** Properties *)

(** C15: Calls that each change fewer than [MAXOPBLOCKS] blocks may interleave in
    any order. In every state of the log they can reach, [log_write] by one of
    them returns, and records the block; [end_op] by one that is not the last
    returns; [end_op] by the last one commits and returns with an empty log, as
    does the commit when others have tried to begin meanwhile; [begin_op]
    admits a call only if no commit is going on and there is room for
    [MAXOPBLOCKS] blocks of it besides those of the others, and then without
    waiting, in particular when the file system is idle; and the log holds
    fewer blocks than there are buffers. *)
Theorem log_reservation_safe {W : World} {D : Disk} {DS : DiskSpec} {T : Patience}
    (m : nat) (d start : Z) (blocks : list Z) (ops : calls) (p : nat) (s : kst)
    (Hm : Z.of_nat m < MAXOPBLOCKS) (Hb : length blocks = LOGBLOCKS) (Hs : quiet p s)
    (HR : reach m (fresh_log d start blocks, ∅) (fs_log (k_fs s), ops)) :
  let lg := fs_log (k_fs s) in
  (forall i B b x, ops !! i = Some B -> fs_bufs (k_fs s) !! b = Some x -> 0 <= b_blockno x < 2 ^ 31 ->
     wp (log_write b) (fun _ s' => fs_log (k_fs s') = absorb (b_blockno x) lg) s) /\
  (forall i B, ops !! i = Some B -> lg_outstanding lg <> 1 -> wp end_op (fun _ s' => fs_log (k_fs s') = leave lg) s) /\
  (forall i B V, ops !! i = Some B -> lg_outstanding lg = 1 -> commit_ready p V s ->
     wp end_op (fun _ s' => fs_log (k_fs s') = set_lg_n 0 (leave lg)) s) /\
  (forall V, lg_committing lg = true -> commit_ready p V s ->
     wp end_op_commit (fun _ s' => fs_log (k_fs s') = set_lg_committing false (set_lg_n 0 lg)) s) /\
  (forall s', begin_op_try s = Ok tt s' ->
     lg_committing lg = false /\ lg_n lg + (lg_outstanding lg + 1) * MAXOPBLOCKS <= Z.of_nat LOGBLOCKS) /\
  (lg_committing lg = false -> lg_n lg + (lg_outstanding lg + 1) * MAXOPBLOCKS <= Z.of_nat LOGBLOCKS \/ ops = ∅ ->
     wp begin_op (fun _ s' => fs_log (k_fs s') = enter lg) s) /\
  (length (logged lg) < NBUF)%nat /\ NoDup (logged lg) /\ lg_outstanding lg = Z.of_nat (size ops).
Proof.
  intros lg. assert (L := linv_reach m _ _ Hm HR (linv_fresh m d start blocks Hb)). cbn in L. fold lg in L.
  assert (Hlen := logged_length lg (linv_le m Hm _ _ L)). assert (Hst := li_strict _ _ _ L).
  assert (HL := linv_log_has m Hm _ _ L). assert (Hin := linv_inside m lg ops).
  assert (Hbuf : (length (logged lg) < NBUF)%nat) by (change NBUF with LOGBLOCKS; lia).
  split_and!.
  - intros i B b x Hi Hx Hblk. destruct (Hin i B L Hi) as [Ho _]. apply (run_log_write p); [done..|apply L|done|done|done|done].
  - intros i B Hi Ho. destruct (Hin i B L Hi) as [_ Hc]. unfold end_op. apply wp_bind. eapply (run_end_leave p lg); [done..|].
    intros s' _ _ E. apply Z.eqb_neq in Ho. unfold left_log in E. rewrite Ho in *. cbn [when]. apply wp_ret. by rewrite E.
  - intros i B V Hi Ho HC. destruct (Hin i B L Hi) as [_ Hc]. by apply (run_end_op_last p V).
  - intros V Hc HC. by apply (run_end_commit p V).
  - intros s' E. destruct (begin_op_admits p s s' Hs E) as (Hc & Hf & _). split; [done|]. by apply Z.leb_le.
  - intros Hc Hf. apply (run_begin_loop p lg); [done..|]. destruct Hf as [Hf|E]; [by apply Z.leb_le|].
    unfold fits. rewrite (li_idle _ _ _ L E Hc), (li_count _ _ _ L), E. done.
  - done.
  - apply L.
  - apply L.
Qed.

(** C16: A call may not use its reservation in full: [MAXOPBLOCKS] blocks each by
    three calls fill the log, all buffers are then pinned, every further
    [log_write] panics, even of a block that is in the log already, and so
    does [commit], for which no buffer is left. *)
Theorem full_log_panics {W : World} {D : Disk} {T : Patience} (d start : Z) (bs : list Z) (p : nat) (V : disk) (s : kst)
    (Hnd : NoDup bs) (Hlen : length bs = LOGBLOCKS) (Hr : Forall (fun b => 0 <= b < 2 ^ 31) bs) (Hout : wrap32 (start + 1) ∉ bs)
    (HB : bst p d V (list_to_set bs) ∅ s) (Hlg : fs_log (k_fs s) = mklog start 3 false d 30 bs) :
  (exists ops, reach (Z.to_nat MAXOPBLOCKS) (fresh_log d start (replicate LOGBLOCKS 0), ∅) (fs_log (k_fs s), ops)) /\
  (forall b, panics "too big a transaction" (log_write b) s) /\
  panics "bget: no buffers" commit s.
Proof.
  split_and!.
  - rewrite Hlg. eapply reach_full; [apply HB|done..].
  - intros b. assert (Hs := bs_quiet _ _ _ _ _ _ HB). apply panics_bind, wp_acquire; [by eapply quiet_wf|by apply (q_locks _ _ Hs), fl_log|].
    apply panics_bind, wp_gets. cbn [k_fs upd_sync set_k_sync]. rewrite Hlg. by eexists.
  - apply (commit_no_buffers p V bs); rewrite ?Hlg; [done| |done|done]. by rewrite size_list_to_set.
Qed.
