(* ===== verification/Uio.v ===== *)
(** * Copying to and from either address space ([either_copyout] and
    [either_copyin] of [proc.c])

    The kernel side of a copy is a byte array: the data of a disk block, a
    character, a directory entry. The other side is an address of the current
    process, a physical address, or a local variable of the caller; what is
    stored into a local variable is returned by the function that stores it. *)

From stdpp Require Import base gmap strings numbers list.
From S2P Require Import Prelude State Spinlock Strings Memory Bytes Kalloc Vm Proc.

(** Where [dst] points: [user_dst] is [true] for [ToUser]. *)
Inductive dest : Type :=
| ToUser (va : Z)
| ToPhys (pa : Z)
| ToLocal.

(** Where [src] points: [user_src] is [true] for [FromUser]. *)
Inductive source : Type :=
| FromUser (va : Z)
| FromLocal (l : list Z).

(** [dst += m], [src += m]. *)
Definition dest_add (d : dest) (m : nat) : dest :=
  match d with
  | ToUser va => ToUser (wrap64 (va + Z.of_nat m))
  | ToPhys pa => ToPhys (wrap64 (pa + Z.of_nat m))
  | ToLocal => ToLocal
  end.

Definition source_add (d : source) (m : nat) : source :=
  match d with
  | FromUser va => FromUser (wrap64 (va + Z.of_nat m))
  | FromLocal l => FromLocal (drop m l)
  end.

(** ** The code *)

(** The page table of the current process. *)
Definition my_pagetable : KM Z :=
  me ← myproc; i ← deref me; p ← getp i; mret (p_pagetable p).

Definition either_copyout (dst : dest) (src : list Z) : KM Z :=
  match dst with
  | ToUser va => pt ← my_pagetable; copyout pt va src
  | ToPhys pa => write_mem pa src;; mret 0
  | ToLocal => mret 0
  end.

(** The result and the bytes stored at the kernel side. *)
Definition either_copyin (src : source) (len : nat) : KM (Z * list Z) :=
  match src with
  | FromUser va => pt ← my_pagetable; copyin pt va len
  | FromLocal l => mret (0, take len l)
  end.
