(* ===== verification/Fs.v ===== *)
(** * The file system ([fs.c])

    Blocks, inodes, file contents, directories and path names, on top of the
    log. An inode pointer is an index into [itable]; structures on disk
    ([struct dinode], [struct dirent], the superblock, the bitmap and the
    indirect blocks) are read and written byte by byte in the buffers. *)

From stdpp Require Import base gmap strings numbers list.
From S2P Require Import Prelude State Spinlock Strings Printf Bytes Memory Kalloc Vm Proc Sleeplock Quiet Bio.
From S2P Require Import Log Uio.

(** ** Layout of the disk ([fs.h], [stat.h]) *)

Definition ROOTINO : Z := 1.
Definition FSMAGIC : Z := 0x10203040.
Definition NDIRECT : nat := 12.
Definition NINDIRECT : nat := BSIZE / 4.
Definition MAXFILE : nat := NDIRECT + NINDIRECT.
Definition DIRSIZ : nat := 14.
Definition T_DIR : Z := 1.
Definition T_FILE : Z := 2.
Definition T_DEVICE : Z := 3.

(** [struct dinode]: four shorts, the size and thirteen block addresses. *)
Definition dinode_size : nat := 64.
Definition di_type : nat := 0.
Definition di_major : nat := 2.
Definition di_minor : nat := 4.
Definition di_nlink : nat := 6.
Definition di_size : nat := 8.
Definition di_addrs (i : nat) : nat := 12 + 4 * i.

Definition IPB : nat := BSIZE / dinode_size.
Definition IBLOCK (i : Z) (sb : superblock) : Z := wrap32 (i / Z.of_nat IPB + sb_inodestart sb).
Definition BPB : nat := BSIZE * 8.
Definition BBLOCK (b : Z) (sb : superblock) : Z := wrap32 (b / Z.of_nat BPB + sb_bmapstart sb).

(** Offset of inode [inum] in its block. *)
Definition dinode_off (inum : Z) : nat := Z.to_nat (inum mod Z.of_nat IPB) * dinode_size.

(** [struct dirent]: the inode number and the name. *)
Definition dirent_size : nat := 16.
Definition de_inum (de : list Z) : Z := get16 0 de.
Definition de_name (de : list Z) : list Z := slice 2 DIRSIZ de.

(** A 16-bit value as a [short]. *)
Definition to_short (x : Z) : Z :=
  let y := x mod 2 ^ 16 in if y <? 2 ^ 15 then y else y - 2 ^ 16.

Definition getsb : KM superblock := gets (fun s => fs_sb (k_fs s)).
Definition geti (i : nat) : KM inode := fun s => deref (fs_inodes (k_fs s) !! i) s.
Definition updi (i : nat) (f : inode -> inode) : KM unit :=
  _ ← geti i; modify (upd_fs (fun x => set_fs_inodes (alter f i (fs_inodes x)) x)).

(** [ip->addrs[k]] and [ip->addrs[k] = v]. *)
Definition get_addr (ip k : nat) : KM Z := x ← geti ip; deref (i_addrs x !! k).
Definition set_addr (ip k : nat) (v : Z) : KM unit :=
  _ ← get_addr ip k; updi ip (fun x => set_i_addrs (<[k := v]> (i_addrs x)) x).

(** [1, ..., n - 1] as the values of a loop variable, and the number of
    blocks of [k] that cover [n]. *)
Definition from_one (n : Z) : list Z := Z.of_nat <$> seq 1 (Z.to_nat n - 1).
Definition ceil_div (n k : Z) : nat := Z.to_nat ((n + k - 1) / k).

Section fs.
Context {W : World} {D : Disk} {T : Patience}.

(** ** The superblock *)

Definition readsb (dev : Z) : KM unit :=
  bp ← bread (wrap32 dev) 1;
  x ← getb bp;
  let g k := get32 (4 * k) (b_data x) in
  modify (upd_fs (set_fs_sb
    (mksuper (g 0%nat) (g 1%nat) (g 2%nat) (g 3%nat) (g 4%nat) (g 5%nat) (g 6%nat) (g 7%nat))));;
  brelse bp.

(** ** Blocks *)

Definition bzero (dev bno : Z) : KM unit :=
  bp ← bread (wrap32 dev) (wrap32 bno);
  upd_data bp (fun _ => replicate BSIZE 0);;
  log_write bp;;
  brelse bp.

Definition balloc (dev : Z) : KM Z :=
  sb ← getsb;
  r ← for_find (seq 0 (ceil_div (sb_size sb) (Z.of_nat BPB))) (fun k =>
    let b := Z.of_nat (k * BPB) in
    bp ← bread dev (BBLOCK b sb);
    r ← for_find (seq 0 (Nat.min BPB (Z.to_nat (sb_size sb - b)))) (fun bi =>
      let m := Z.shiftl 1 (Z.of_nat (bi mod 8)) in
      x ← getb bp;
      d ← deref (b_data x !! (bi / 8)%nat);
      if Z.land d m =? 0 then
        upd_data bp (<[(bi / 8)%nat := wrap8 (Z.lor d m)]>);;
        log_write bp;;
        brelse bp;;
        bzero dev (b + Z.of_nat bi);;
        mret (Some (b + Z.of_nat bi))
      else mret None);
    match r with
    | Some v => mret (Some v)
    | None => brelse bp;; mret None
    end);
  match r with
  | Some v => mret v
  | None =>
      printf "balloc: out of blocks
" [];;
      mret 0
  end.

Definition bfree (dev b : Z) : KM unit :=
  sb ← getsb;
  bp ← bread (wrap32 dev) (BBLOCK b sb);
  let bi := Z.to_nat (b mod Z.of_nat BPB) in
  let m := Z.shiftl 1 (Z.of_nat (bi mod 8)) in
  x ← getb bp;
  d ← deref (b_data x !! (bi / 8)%nat);
  if Z.land d m =? 0 then panic "freeing free block" else
  upd_data bp (<[(bi / 8)%nat := wrap8 (Z.land d (Z.lnot m))]>);;
  log_write bp;;
  brelse bp.

(** ** Inodes *)

Definition iinit : KM unit :=
  initlock LItable "itable";;
  for_each (seq 0 NINODE) (fun i => initsleeplock (SLInode i) "inode").

(** The search of [iget]: the entry of the inode, or the first empty slot. *)
Fixpoint iget_scan (l : list nat) (empty : option nat) (dev inum : Z) : KM (nat + option nat) :=
  match l with
  | [] => mret (inr empty)
  | i :: l =>
      x ← geti i;
      if (0 <? i_ref x) && (i_dev x =? dev) && (i_inum x =? inum) then mret (inl i)
      else iget_scan l (if bool_decide (empty = None) && (i_ref x =? 0) then Some i else empty) dev inum
  end.

Definition iget (dev inum : Z) : KM nat :=
  acquire LItable;;
  r ← iget_scan (seq 0 NINODE) None dev inum;
  match r with
  | inl ip =>
      updi ip (fun x => set_i_ref (i_ref x + 1) x);;
      release LItable;;
      mret ip
  | inr None => panic "iget: no inodes"
  | inr (Some ip) =>
      updi ip (set_i_dev dev);;
      updi ip (set_i_inum inum);;
      updi ip (set_i_ref 1);;
      updi ip (set_i_valid false);;
      release LItable;;
      mret ip
  end.

Definition ialloc (dev type : Z) : KM (option nat) :=
  sb ← getsb;
  r ← for_find (from_one (sb_ninodes sb)) (fun inum =>
    bp ← bread dev (IBLOCK inum sb);
    x ← getb bp;
    let dip := dinode_off inum in
    if get16 (dip + di_type) (b_data x) =? 0 then
      upd_data bp (splice dip (replicate dinode_size 0));;
      upd_data bp (put16 (dip + di_type) type);;
      log_write bp;;
      brelse bp;;
      ip ← iget dev inum;
      mret (Some ip)
    else brelse bp;; mret None);
  match r with
  | Some ip => mret (Some ip)
  | None =>
      printf "ialloc: no inodes
" [];;
      mret None
  end.

(** What [iupdate] stores in the block: the fields of the inode at [dip]. *)
Definition enc_dinode (ip : inode) (dip : nat) (l : list Z) : list Z :=
  let l := put16 (dip + di_type) (i_type ip) l in
  let l := put16 (dip + di_major) (i_major ip) l in
  let l := put16 (dip + di_minor) (i_minor ip) l in
  let l := put16 (dip + di_nlink) (i_nlink ip) l in
  let l := put32 (dip + di_size) (i_size ip) l in
  splice (dip + di_addrs 0) (mjoin (le_bytes 4 <$> i_addrs ip)) l.

Definition iupdate (ip : nat) : KM unit :=
  sb ← getsb;
  x ← geti ip;
  bp ← bread (i_dev x) (IBLOCK (i_inum x) sb);
  x ← geti ip;
  upd_data bp (enc_dinode x (dinode_off (i_inum x)));;
  log_write bp;;
  brelse bp.

Definition idup (ip : nat) : KM nat :=
  acquire LItable;;
  updi ip (fun x => set_i_ref (i_ref x + 1) x);;
  release LItable;;
  mret ip.

(** What [ilock] reads from the block: the fields of the inode at [dip]. *)
Definition dec_dinode (dip : nat) (l : list Z) (ip : inode) : inode :=
  mkinode (i_dev ip) (i_inum ip) (i_ref ip) (i_valid ip)
    (to_short (get16 (dip + di_type) l)) (to_short (get16 (dip + di_major) l))
    (to_short (get16 (dip + di_minor) l)) (to_short (get16 (dip + di_nlink) l))
    (get32 (dip + di_size) l) ((fun i => get32 (dip + di_addrs i) l) <$> seq 0 (NDIRECT + 1)).

Definition ilock (ip : option nat) : KM unit :=
  match ip with
  | None => panic "ilock"
  | Some ip =>
      x ← geti ip;
      if i_ref x <? 1 then panic "ilock" else
      acquiresleep patience (SLInode ip);;
      x ← geti ip;
      when (negb (i_valid x))
        (sb ← getsb;
         bp ← bread (i_dev x) (IBLOCK (i_inum x) sb);
         b ← getb bp;
         updi ip (dec_dinode (dinode_off (i_inum x)) (b_data b));;
         brelse bp;;
         updi ip (set_i_valid true);;
         x ← geti ip;
         if i_type x =? 0 then panic "ilock: no type" else mret tt)
  end.

Definition iunlock (ip : option nat) : KM unit :=
  match ip with
  | None => panic "iunlock"
  | Some ip =>
      h ← holdingsleep (SLInode ip);
      if negb h then panic "iunlock" else
      x ← geti ip;
      if i_ref x <? 1 then panic "iunlock" else
      releasesleep (SLInode ip)
  end.

(** [a[j]] of an indirect block. *)
Definition ind (j : nat) (l : list Z) : Z := get32 (4 * j) l.

Definition itrunc (ip : nat) : KM unit :=
  for_each (seq 0 NDIRECT) (fun i =>
    x ← geti ip;
    a ← get_addr ip i;
    when (negb (a =? 0)) (bfree (i_dev x) a;; set_addr ip i 0));;
  x ← geti ip;
  a ← get_addr ip NDIRECT;
  when (negb (a =? 0))
    (bp ← bread (i_dev x) a;
     for_each (seq 0 NINDIRECT) (fun j =>
       b ← getb bp;
       when (negb (ind j (b_data b) =? 0)) (bfree (i_dev x) (ind j (b_data b))));;
     brelse bp;;
     bfree (i_dev x) a;;
     set_addr ip NDIRECT 0);;
  updi ip (set_i_size 0);;
  iupdate ip.

Definition iput (ip : nat) : KM unit :=
  acquire LItable;;
  x ← geti ip;
  when ((i_ref x =? 1) && i_valid x && (i_nlink x =? 0))
    (acquiresleep patience (SLInode ip);;
     release LItable;;
     itrunc ip;;
     updi ip (set_i_type 0);;
     iupdate ip;;
     updi ip (set_i_valid false);;
     releasesleep (SLInode ip);;
     acquire LItable);;
  updi ip (fun x => set_i_ref (i_ref x - 1) x);;
  release LItable.

Definition iunlockput (ip : nat) : KM unit := iunlock (Some ip);; iput ip.

Definition ireclaim (dev : Z) : KM unit :=
  sb ← getsb;
  for_each (from_one (sb_ninodes sb)) (fun inum =>
    bp ← bread (wrap32 dev) (IBLOCK inum sb);
    x ← getb bp;
    let dip := dinode_off inum in
    ip ← (if negb (get16 (dip + di_type) (b_data x) =? 0) && (get16 (dip + di_nlink) (b_data x) =? 0) then
            printf "ireclaim: orphaned inode %d
" [PInt inum];;
            ip ← iget (wrap32 dev) inum;
            mret (Some ip)
          else mret None);
    brelse bp;;
    match ip with
    | Some ip => begin_op;; ilock (Some ip);; iunlock (Some ip);; iput ip;; end_op
    | None => mret tt
    end).

Definition fsinit (dev : Z) : KM unit :=
  readsb dev;;
  sb ← getsb;
  if negb (sb_magic sb =? FSMAGIC) then panic "invalid file system" else
  initlog dev sb;;
  ireclaim dev.

(** ** Contents of files *)

Definition bmap (ip : nat) (bn : Z) : KM Z :=
  x ← geti ip;
  if bn <? Z.of_nat NDIRECT then
    addr ← get_addr ip (Z.to_nat bn);
    if addr =? 0 then
      addr ← balloc (i_dev x);
      if addr =? 0 then mret 0 else
      set_addr ip (Z.to_nat bn) addr;;
      mret addr
    else mret addr
  else
  let bn := bn - Z.of_nat NDIRECT in
  if bn <? Z.of_nat NINDIRECT then
    addr ← get_addr ip NDIRECT;
    addr ← (if addr =? 0 then
              addr ← balloc (i_dev x);
              if addr =? 0 then mret 0 else
              set_addr ip NDIRECT addr;;
              mret addr
            else mret addr);
    if addr =? 0 then mret 0 else
    bp ← bread (i_dev x) addr;
    b ← getb bp;
    let addr := ind (Z.to_nat bn) (b_data b) in
    addr ← (if addr =? 0 then
              addr ← balloc (i_dev x);
              when (negb (addr =? 0))
                (upd_data bp (put32 (4 * Z.to_nat bn) addr);;
                 log_write bp);;
              mret addr
            else mret addr);
    brelse bp;;
    mret addr
  else panic "bmap: out of range".

(** [struct stat], 24 bytes (with the padding before [size] left out). *)
Record stat : Type := mkstat { st_dev : Z; st_ino : Z; st_type : Z; st_nlink : Z; st_size : Z }.

Definition stati (ip : nat) : KM stat :=
  x ← geti ip;
  mret (mkstat (to_int (i_dev x)) (i_inum x) (i_type x) (i_nlink x) (i_size x)).

(** The number of bytes of a block moved at offset [off], [rest] bytes left. *)
Definition portion (off rest : Z) : Z := Z.min rest (Z.of_nat BSIZE - off mod Z.of_nat BSIZE).

(** The result, and the bytes copied to [dst] from its beginning on. Every
    turn copies at least one byte. *)
Fixpoint readi_loop (fuel : nat) (ip : nat) (dst : dest) (off n tot : Z) (acc : list Z) : KM (Z * list Z) :=
  if negb (tot <? n) then mret (to_int tot, acc) else
  match fuel with
  | O => hang
  | S fuel =>
      addr ← bmap ip (off / Z.of_nat BSIZE);
      if addr =? 0 then mret (to_int tot, acc) else
      x ← geti ip;
      bp ← bread (i_dev x) addr;
      let m := portion off (n - tot) in
      b ← getb bp;
      let bs := slice (Z.to_nat (off mod Z.of_nat BSIZE)) (Z.to_nat m) (b_data b) in
      r ← either_copyout dst bs;
      brelse bp;;
      if r =? -1 then mret (-1, acc) else
      readi_loop fuel ip (dest_add dst (Z.to_nat m)) (wrap32 (off + m)) n (tot + m) (acc ++ bs)
  end.

Definition readi (ip : nat) (dst : dest) (off n : Z) : KM (Z * list Z) :=
  x ← geti ip;
  if (i_size x <? off) || (wrap32 (off + n) <? off) then mret (0, []) else
  let n := if i_size x <? wrap32 (off + n) then wrap32 (i_size x - off) else n in
  readi_loop (Z.to_nat n) ip dst off n 0 [].

(** [tot] and [off] when the loop is left. *)
Fixpoint writei_loop (fuel : nat) (ip : nat) (src : source) (off n tot : Z) : KM (Z * Z) :=
  if negb (tot <? n) then mret (tot, off) else
  match fuel with
  | O => hang
  | S fuel =>
      addr ← bmap ip (off / Z.of_nat BSIZE);
      if addr =? 0 then mret (tot, off) else
      x ← geti ip;
      bp ← bread (i_dev x) addr;
      let m := portion off (n - tot) in
      r ← either_copyin src (Z.to_nat m);
      upd_data bp (splice (Z.to_nat (off mod Z.of_nat BSIZE)) r.2);;
      if r.1 =? -1 then brelse bp;; mret (tot, off) else
      log_write bp;;
      brelse bp;;
      writei_loop fuel ip (source_add src (Z.to_nat m)) (wrap32 (off + m)) n (tot + m)
  end.

Definition writei (ip : nat) (src : source) (off n : Z) : KM Z :=
  x ← geti ip;
  if (i_size x <? off) || (wrap32 (off + n) <? off) then mret (-1) else
  if Z.of_nat (MAXFILE * BSIZE) <? wrap32 (off + n) then mret (-1) else
  r ← writei_loop (Z.to_nat n) ip src off n 0;
  let '(tot, off) := r in
  x ← geti ip;
  when (i_size x <? off) (updi ip (set_i_size off));;
  iupdate ip;;
  mret (to_int tot).

(** ** Directories *)

Definition namecmp (s t : list Z) : Z := strncmp (arr s) (arr t) DIRSIZ.

(** The entry's inode, and its offset for [*poff]. *)
Fixpoint dirlookup_loop (fuel : nat) (dp : nat) (name : list Z) (off : Z) : KM (option (nat * Z)) :=
  x ← geti dp;
  if negb (off <? i_size x) then mret None else
  match fuel with
  | O => hang
  | S fuel =>
      r ← readi dp ToLocal off (Z.of_nat dirent_size);
      if negb (r.1 =? Z.of_nat dirent_size) then panic "dirlookup read" else
      if de_inum r.2 =? 0 then dirlookup_loop fuel dp name (wrap32 (off + Z.of_nat dirent_size)) else
      if namecmp name (de_name r.2) =? 0 then
        ip ← iget (i_dev x) (de_inum r.2);
        mret (Some (ip, off))
      else dirlookup_loop fuel dp name (wrap32 (off + Z.of_nat dirent_size))
  end.

Definition dirlookup (dp : nat) (name : list Z) : KM (option (nat * Z)) :=
  x ← geti dp;
  if negb (i_type x =? T_DIR) then panic "dirlookup not DIR" else
  dirlookup_loop (ceil_div (i_size x) (Z.of_nat dirent_size)) dp name 0.

(** The offset of the first empty entry, or the end of the directory. *)
Fixpoint dirlink_loop (fuel : nat) (dp : nat) (off : Z) : KM Z :=
  x ← geti dp;
  if negb (wrap32 off <? i_size x) then mret off else
  match fuel with
  | O => hang
  | S fuel =>
      r ← readi dp ToLocal (wrap32 off) (Z.of_nat dirent_size);
      if negb (r.1 =? Z.of_nat dirent_size) then panic "dirlink read" else
      if de_inum r.2 =? 0 then mret off else
      dirlink_loop fuel dp (to_int (off + Z.of_nat dirent_size))
  end.

(** [strncpy] into an array of [n] characters. *)
Definition strncpy_arr (t : list Z) (n : nat) : list Z :=
  let s := cstr n (arr t) in s ++ replicate (n - length s) 0.

Definition mk_dirent (inum : Z) (name : list Z) : list Z := le_bytes 2 inum ++ strncpy_arr name DIRSIZ.

Definition dirlink (dp : nat) (name : list Z) (inum : Z) : KM Z :=
  r ← dirlookup dp name;
  match r with
  | Some (ip, _) => iput ip;; mret (-1)
  | None =>
      x ← geti dp;
      off ← dirlink_loop (ceil_div (i_size x) (Z.of_nat dirent_size)) dp 0;
      r ← writei dp (FromLocal (mk_dirent inum name)) (wrap32 off) (Z.of_nat dirent_size);
      if negb (r =? Z.of_nat dirent_size) then mret (-1) else mret 0
  end.

(** ** Path names *)

Definition slash : Z := 47.

Fixpoint skip_slashes (path : list Z) : list Z :=
  match path with
  | c :: path' => if c =? slash then skip_slashes path' else path
  | [] => []
  end.

(** The characters up to the next slash, and the rest. *)
Fixpoint elem (path : list Z) : list Z * list Z :=
  match path with
  | [] => ([], [])
  | c :: path' => if c =? slash then ([], path) else let '(s, r) := elem path' in (c :: s, r)
  end.

(** The element copied to [name] (at most [DIRSIZ] characters) and the path
    after it; [None] where the code returns 0. *)
Definition skipelem (path : list Z) : option (list Z * list Z) :=
  let path := skip_slashes path in
  match path with
  | [] => None
  | _ =>
      let '(s, path) := elem path in
      let name := if (DIRSIZ <=? length s)%nat then take DIRSIZ s else s in
      Some (name, skip_slashes path)
  end.

(** The inode and, for [nameiparent], the final element left in [name]. *)
Fixpoint namex_loop (fuel : nat) (ip : nat) (path : list Z) (nameiparent : bool) (name : list Z) :
    KM (option (nat * list Z)) :=
  match skipelem path with
  | None => if nameiparent then iput ip;; mret None else mret (Some (ip, name))
  | Some (name, path) =>
  match fuel with
  | O => hang
  | S fuel =>
      ilock (Some ip);;
      x ← geti ip;
      if negb (i_type x =? T_DIR) then iunlockput ip;; mret None else
      if nameiparent && bool_decide (path = []) then iunlock (Some ip);; mret (Some (ip, name)) else
      r ← dirlookup ip name;
      match r with
      | None => iunlockput ip;; mret None
      | Some (next, _) => iunlockput ip;; namex_loop fuel next path nameiparent name
      end
  end end.

Definition namex (path : list Z) (nameiparent : bool) : KM (option (nat * list Z)) :=
  ip ← (if bool_decide (head path = Some slash) then iget ROOTDEV ROOTINO
        else me ← myproc; i ← deref me; p ← getp i; ip ← deref (p_cwd p); idup ip);
  namex_loop (length path) ip path nameiparent [].

Definition namei (path : list Z) : KM (option nat) :=
  r ← namex path false; mret (fst <$> r).

Definition nameiparent (path : list Z) : KM (option (nat * list Z)) := namex path true.

End fs.
