(* ===== verification/Bitmap.v ===== *)
(** * The block allocator ([balloc] and [bfree] of [fs.c])

    The free map, one bit for each block of the disk: [balloc] takes the
    first free block, marks it and clears it; [bfree] returns a block. *)

From stdpp Require Import base gmap strings numbers list.
From S2P Require Import Prelude State Spinlock Strings Printf Bytes Proc Sleeplock Quiet Bio Cache Log LogSpec Txn Fs.

(** ** The free map *)

(** The byte and the bit of block [b] in its block of the map. *)
Definition bit_byte (b : Z) : nat := Z.to_nat (b mod Z.of_nat BPB) / 8.
Definition bit_pos (b : Z) : Z := Z.of_nat (Z.to_nat (b mod Z.of_nat BPB) mod 8).

Definition in_use (sb : superblock) (V : disk) (b : Z) : bool :=
  Z.testbit (nth (bit_byte b) (V (BBLOCK b sb)) 0) (bit_pos b).

(** A block of the map with the bit of [b] changed. *)
Definition mark (v : bool) (b : Z) (l : list Z) : list Z :=
  let m := Z.shiftl 1 (bit_pos b) in
  let d := nth (bit_byte b) l 0 in
  <[bit_byte b := wrap8 (if v then Z.lor d m else Z.land d (Z.lnot m))]> l.

(** The geometry of the disk. *)
Record sb_ok (sb : superblock) : Prop := {
  sbo_size : 0 <= sb_size sb < 2 ^ 31;
  sbo_bmap : 0 <= sb_bmapstart sb /\ sb_bmapstart sb + sb_size sb / Z.of_nat BPB < 2 ^ 31
}.

(** The blocks of the map are blocks. *)
Definition map_ok (sb : superblock) (V : disk) : Prop :=
  forall b, 0 <= b < sb_size sb ->
    length (V (BBLOCK b sb)) = BSIZE /\ Forall (fun x => 0 <= x < 256) (V (BBLOCK b sb)).

Section bits.
Implicit Types (sb : superblock) (V : disk) (b : Z).

Lemma BPB_pos : 0 < Z.of_nat BPB.
Proof. done. Qed.

(** Block [k * BPB + bi] of the disk is bit [bi] of the map's block [k]. *)
Lemma split_block (k bi : nat) :
  (bi < BPB)%nat ->
  Z.of_nat (k * BPB + bi) mod Z.of_nat BPB = Z.of_nat bi /\ Z.of_nat (k * BPB + bi) / Z.of_nat BPB = Z.of_nat k.
Proof.
  intros H. rewrite Nat2Z.inj_add, Nat2Z.inj_mul. pose proof BPB_pos. split.
  - rewrite Z.add_comm, Z.mod_add, Z.mod_small by lia. done.
  - rewrite Z.add_comm, Z.div_add, Z.div_small by lia. lia.
Qed.

Lemma BBLOCK_split sb (k bi : nat) :
  (bi < BPB)%nat -> BBLOCK (Z.of_nat (k * BPB + bi)) sb = BBLOCK (Z.of_nat (k * BPB)) sb.
Proof.
  intros H. unfold BBLOCK. destruct (split_block k bi H) as [_ ->].
  rewrite <- (Nat.add_0_r (k * BPB)). destruct (split_block k 0) as [_ ->]; [unfold BPB, BSIZE; lia|done].
Qed.

Lemma bit_split (k bi : nat) :
  (bi < BPB)%nat ->
  bit_byte (Z.of_nat (k * BPB + bi)) = (bi / 8)%nat /\ bit_pos (Z.of_nat (k * BPB + bi)) = Z.of_nat (bi mod 8).
Proof. intros H. unfold bit_byte, bit_pos. destruct (split_block k bi H) as [-> _]. by rewrite Nat2Z.id. Qed.

Lemma land_bit d (k : nat) : (Z.land d (Z.shiftl 1 (Z.of_nat k)) =? 0) = negb (Z.testbit d (Z.of_nat k)).
Proof.
  rewrite Z.shiftl_1_l. destruct (Z.testbit d (Z.of_nat k)) eqn:E; cbn.
  - apply Z.eqb_neq. intros H. apply (f_equal (fun z => Z.testbit z (Z.of_nat k))) in H.
    rewrite Z.land_spec, Z.pow2_bits_true, Z.bits_0, E in H by lia. done.
  - apply Z.eqb_eq. apply Z.bits_inj'. intros n Hn. rewrite Z.land_spec, Z.bits_0.
    destruct (decide (n = Z.of_nat k)) as [->|Hne]; [by rewrite E|].
    by rewrite Z.pow2_bits_false, andb_false_r by lia.
Qed.

Lemma BBLOCK_range sb b : sb_ok sb -> 0 <= b < sb_size sb -> 0 <= BBLOCK b sb < 2 ^ 31.
Proof.
  intros [Hs [H1 H2]] Hb. unfold BBLOCK. pose proof BPB_pos.
  assert (0 <= b / Z.of_nat BPB <= sb_size sb / Z.of_nat BPB).
  { split; [apply Z.div_pos; lia|apply Z.div_le_mono; lia]. }
  rewrite wrap32_small; lia.
Qed.

(** The bits [balloc] looks at in the map's block [k]. *)
Definition bits_at sb (k : nat) : nat := Nat.min BPB (Z.to_nat (sb_size sb - Z.of_nat (k * BPB))).

Lemma bits_at_lt sb (k bi : nat) :
  sb_ok sb -> (bi < bits_at sb k)%nat -> (bi < BPB)%nat /\ 0 <= Z.of_nat (k * BPB + bi) < sb_size sb.
Proof. intros [Hs _] H. unfold bits_at in H. split; lia. Qed.

(** Every block of the disk is looked at. *)
Lemma bits_cover sb b :
  sb_ok sb -> 0 <= b < sb_size sb -> exists k bi, b = Z.of_nat (k * BPB + bi) /\
    (k < ceil_div (sb_size sb) (Z.of_nat BPB))%nat /\ (bi < bits_at sb k)%nat.
Proof.
  intros [Hs _] Hb. pose proof BPB_pos. exists (Z.to_nat (b / Z.of_nat BPB)), (Z.to_nat (b mod Z.of_nat BPB)).
  pose proof (Z.mod_pos_bound b (Z.of_nat BPB)). pose proof (Z.div_mod b (Z.of_nat BPB)).
  assert (0 <= b / Z.of_nat BPB) by (apply Z.div_pos; lia). split_and!.
  - rewrite Nat2Z.inj_add, Nat2Z.inj_mul, !Z2Nat.id by lia. lia.
  - unfold ceil_div. apply Z2Nat.inj_lt; [lia|apply Z.div_pos; lia|].
    apply Z.div_lt_upper_bound; [lia|]. pose proof (Z.div_mod (sb_size sb + Z.of_nat BPB - 1) (Z.of_nat BPB)).
    pose proof (Z.mod_pos_bound (sb_size sb + Z.of_nat BPB - 1) (Z.of_nat BPB)). lia.
  - unfold bits_at. rewrite Nat2Z.inj_mul, Z2Nat.id by lia. lia.
Qed.

(** Each block of the map that is looked at has a bit in use. *)
Lemma ceil_lt sb (k : nat) :
  sb_ok sb -> (k < ceil_div (sb_size sb) (Z.of_nat BPB))%nat -> 0 <= Z.of_nat (k * BPB) < sb_size sb.
Proof.
  intros [Hs _] H. unfold ceil_div in H. pose proof BPB_pos.
  pose proof (Z.div_mod (sb_size sb + Z.of_nat BPB - 1) (Z.of_nat BPB)).
  pose proof (Z.mod_pos_bound (sb_size sb + Z.of_nat BPB - 1) (Z.of_nat BPB)).
  assert (Z.of_nat k < (sb_size sb + Z.of_nat BPB - 1) / Z.of_nat BPB) by lia.
  rewrite Nat2Z.inj_mul. nia.
Qed.

End bits.

(** ** The operations *)

(** What [balloc] makes of the disk: the bit is set and the block cleared. *)
Definition alloc_view (sb : superblock) (b : Z) (V : disk) : disk :=
  vset b (replicate BSIZE 0) (vset (BBLOCK b sb) (mark true b (V (BBLOCK b sb))) V).

(** The locked blocks are neither blocks of the map nor free. *)
Definition clear_of_map (sb : superblock) (V : disk) (H : gset Z) : Prop :=
  forall b, 0 <= b < sb_size sb -> BBLOCK b sb ∉ H /\ (in_use sb V b = false -> b ∉ H).

Section ops.
Context {W : World} {D : Disk} {DS : DiskSpec} {T : Patience}.
Implicit Types (p : nat) (d start : Z) (V : disk) (bs : list Z) (H : gset Z) (s : kst) (sb : superblock).

Lemma tframe_sb s s' : tframe s s' -> fs_sb (k_fs s') = fs_sb (k_fs s).
Proof. intros [_ E]. unfold fs_step in E. by rewrite E. Qed.

Lemma tx_bzero p d start V bs H b Q s :
  txn p d start V bs H s -> 0 <= d < 2 ^ 32 -> 0 <= b < 2 ^ 31 -> b ∉ H ->
  (length bs + size H < NBUF)%nat -> (length bs < LOGBLOCKS)%nat ->
  (forall s', tframe s s' -> txn p d start (vset b (replicate BSIZE 0) V) (record b bs) H s' ->
    tkeeps d H s s' -> Q tt s') ->
  wp (bzero d b) Q s.
Proof.
  intros X Hd Hb HH Hroom Hlog HQ. unfold bzero. rewrite !wrap32_small by lia.
  by eapply (tx_change _ _ _ _ _ _ b (fun _ => replicate BSIZE 0)).
Qed.

(** The search in one block of the map, which is locked; it takes the first
    free block or leaves everything as it is. *)
Lemma wp_balloc_block p d start V bs H sb k bp Q s :
  let mb := BBLOCK (Z.of_nat (k * BPB)) sb in
  txn p d start V bs ({[mb]} ∪ H) s -> fs_sb (k_fs s) = sb -> sb_ok sb -> map_ok sb V -> 0 <= d < 2 ^ 32 ->
  clear_of_map sb V H -> mb ∉ H -> 0 <= mb < 2 ^ 31 ->
  caches d mb (fs_bufs (k_fs s)) bp ->
  (length bs + size H + 1 < NBUF)%nat -> (length bs + 1 < LOGBLOCKS)%nat ->
  (forall bi s', let b := Z.of_nat (k * BPB + bi) in (bi < bits_at sb k)%nat ->
    in_use sb V b = false -> (forall bj, (bj < bi)%nat -> in_use sb V (Z.of_nat (k * BPB + bj)) = true) ->
    tframe s s' -> txn p d start (alloc_view sb b V) (record b (record (BBLOCK b sb) bs)) H s' ->
    tkeeps d H s s' -> Q (Some b) s') ->
  ((forall bj, (bj < bits_at sb k)%nat -> in_use sb V (Z.of_nat (k * BPB + bj)) = true) -> Q None s) ->
  wp (for_find (seq 0 (bits_at sb k)) (fun bi =>
      let m := Z.shiftl 1 (Z.of_nat (bi mod 8)) in
      x ← getb bp;
      d0 ← deref (b_data x !! (bi / 8)%nat);
      if Z.land d0 m =? 0 then
        upd_data bp (<[(bi / 8)%nat := wrap8 (Z.lor d0 m)]>);;
        log_write bp;;
        brelse bp;;
        bzero d (Z.of_nat (k * BPB) + Z.of_nat bi);;
        mret (Some (Z.of_nat (k * BPB) + Z.of_nat bi))
      else mret None)) Q s.
Proof.
  intros mb X Hsb Hok Hmap Hd Hclear HmH Hmr C Hroom Hlog HQ1 HQ2.
  apply (wp_for_find (fun pre t => t = s /\
    forall bj, bj ∈ pre -> in_use sb V (Z.of_nat (k * BPB + bj)) = true)).
  - split; [done|set_solver].
  - intros pre bi post t Hseq [-> Hpre]. apply seq_split_lt in Hseq as (-> & Hbi & _).
    destruct (bits_at_lt sb k bi Hok Hbi) as [Hlt Hb]. set (b := Z.of_nat (k * BPB + bi)) in *.
    assert (Eb : Z.of_nat (k * BPB) + Z.of_nat bi = b) by (unfold b; lia). rewrite Eb.
    assert (Emb : BBLOCK b sb = mb) by by apply BBLOCK_split.
    destruct (bit_split k bi Hlt) as [Ey Ep]. fold b in Ey, Ep.
    destruct (Hmap b Hb) as [Hlen _]. rewrite Emb in Hlen.
    apply wp_bind. eapply tx_getb; [exact X|exact C|]. intros x Ex _.
    destruct (lookup_lt_is_Some_2 (V mb) (bi / 8)) as [v Hv].
    { rewrite Hlen. apply Nat.div_lt_upper_bound; [lia|]. unfold BPB in Hlt. lia. }
    apply wp_bind. eapply wp_deref; [by rewrite Ex|].
    assert (Euse : in_use sb V b = Z.testbit v (Z.of_nat (bi mod 8))).
    { unfold in_use. rewrite Emb, Ey, Ep, nth_lookup, Hv. done. }
    rewrite land_bit, <- Euse. destruct (in_use sb V b) eqn:Eu; cbn [negb].
    + apply wp_ret. split; [done|]. intros bj [Hj|Hj%list_elem_of_singleton]%elem_of_app; [by apply Hpre|].
      by subst bj.
    + assert (Emark : <[(bi / 8)%nat := wrap8 (Z.lor v (Z.shiftl 1 (Z.of_nat (bi mod 8))))]> (V mb) = mark true b (V mb)).
      { unfold mark. by rewrite Ey, Ep, nth_lookup, Hv. }
      apply wp_bind. eapply (tx_upd _ _ _ _ _ _ mb); [exact X|set_solver|done|]. rewrite Emark.
      intros s1 F1 X1 K1 _. assert (C1 := K1 {[mb]} mb bp ltac:(set_solver) C).
      apply wp_bind. eapply (tx_log_write _ _ _ _ _ _ mb); [exact X1|set_solver|done|done|lia|].
      intros s2 F2 X2 K2 _. assert (C2 := K2 {[mb]} mb bp ltac:(set_solver) C1).
      apply wp_bind. eapply (tx_brelse _ _ _ _ _ _ mb); [exact X2|set_solver|done|left; rewrite elem_of_record; by left|].
      intros s3 F3 X3 K3. replace (({[mb]} ∪ H) ∖ {[mb]}) with H in X3 by set_solver.
      pose proof (record_length mb bs). destruct (Hclear b Hb) as [_ Hbh].
      apply wp_bind. eapply tx_bzero; [exact X3|done|destruct (sbo_size sb Hok); lia|by apply Hbh|lia|lia|].
      intros s4 F4 X4 K4. apply wp_ret. apply HQ1; [done|done| | | |].
      * intros bj Hj. apply Hpre. rewrite elem_of_seq. lia.
      * do 3 (etrans; [eassumption|]). done.
      * fold b. unfold alloc_view. by rewrite !Emb.
      * do 3 (eapply tkeeps_trans; [eauto|]). done.
  - intros t [-> Ht]. apply HQ2. intros bj Hj. apply Ht. rewrite elem_of_seq. lia.
Qed.

Lemma wp_balloc p d start V bs H sb Q s :
  txn p d start V bs H s -> fs_sb (k_fs s) = sb -> sb_ok sb -> map_ok sb V -> 0 <= d < 2 ^ 32 ->
  clear_of_map sb V H -> (length bs + size H + 1 < NBUF)%nat -> (length bs + 1 < LOGBLOCKS)%nat ->
  (forall b s', 0 <= b < sb_size sb -> in_use sb V b = false -> (forall b', 0 <= b' < b -> in_use sb V b' = true) ->
    tframe s s' -> txn p d start (alloc_view sb b V) (record b (record (BBLOCK b sb) bs)) H s' ->
    tkeeps d H s s' -> Q b s') ->
  (forall s', (forall b, 0 <= b < sb_size sb -> in_use sb V b = true) ->
    tframe s s' -> txn p d start V bs H s' -> tkeeps d H s s' -> Q 0 s') ->
  wp (balloc d) Q s.
Proof.
  intros X Hsb Hok Hmap Hd Hclear Hroom Hlog HQ1 HQ2. unfold balloc. apply wp_bind, wp_gets. rewrite Hsb.
  apply wp_bind. set (nb := ceil_div (sb_size sb) (Z.of_nat BPB)).
  apply (wp_for_find (fun pre t => tframe s t /\ txn p d start V bs H t /\ tkeeps d H s t /\
    forall k bi, k ∈ pre -> (bi < bits_at sb k)%nat -> in_use sb V (Z.of_nat (k * BPB + bi)) = true)).
  - split_and!; [done|done|apply tkeeps_refl|set_solver].
  - intros pre k post t Hseq (F & Xt & Kt & Hpre). apply seq_split_lt in Hseq as (-> & Hk & _).
    assert (Hk0 := ceil_lt sb k Hok Hk). set (mb := BBLOCK (Z.of_nat (k * BPB)) sb).
    assert (HmH : mb ∉ H) by apply (Hclear _ Hk0).
    assert (Et : fs_sb (k_fs t) = sb) by by rewrite (tframe_sb _ _ F).
    apply wp_bind. eapply tx_bread; [exact Xt|done|right; lia|]. intros bp t1 F1 X1 C1 K1 Hclean.
    apply wp_bind. eapply (wp_balloc_block p d start V bs H sb k bp); [exact X1|by rewrite (tframe_sb _ _ F1)|done|done|done|done|done|
      by apply BBLOCK_range|exact C1|lia|done| |].
    + intros bi t2 b Hbi Hu Hfirst F2 X2 K2. apply wp_ret. apply wp_ret.
      destruct (bits_at_lt sb k bi Hok Hbi) as [Hlt Hb]. apply HQ1; [done|done| | |done|].
      * intros b' Hb'. destruct (bits_cover sb b' Hok) as (k' & bi' & -> & Hk' & Hbi'); [lia|].
        destruct (bits_at_lt sb k' bi' Hok Hbi') as [Hlt' _].
        destruct (decide (k' < k)%nat); [apply Hpre; [rewrite elem_of_seq; lia|done]|].
        assert (k' = k) as -> by (unfold b in Hb'; nia). apply Hfirst. unfold b in Hb'. lia.
      * do 2 (etrans; [eassumption|]). done.
      * do 2 (eapply tkeeps_trans; [eassumption|]). done.
    + intros Hall. apply wp_bind. eapply (tx_brelse _ _ _ _ _ _ mb); [exact X1|set_solver|done|done|].
      intros t2 F2 X2 K2. replace (({[mb]} ∪ H) ∖ {[mb]}) with H in X2 by set_solver. apply wp_ret. split_and!; [| done| |].
      * do 2 (etrans; [eassumption|]). done.
      * do 2 (eapply tkeeps_trans; [eauto|]). done.
      * intros k' bi [Hk'|Hk'%list_elem_of_singleton]%elem_of_app Hbi; [by apply Hpre|]. subst k'. by apply Hall.
  - intros t (F & Xt & Kt & Hall). apply wp_bind.
    apply wp_printf_printed; [eapply quiet_print, bs_quiet, tx_bst; exact Xt|vm_compute; by eexists|].
    intros t' Ht'. destruct (tx_printed _ _ _ _ _ _ _ _ Xt Ht') as (F' & X' & K'). apply wp_ret. apply HQ2; [|by etrans|done|].
    + intros b Hb. destruct (bits_cover sb b Hok Hb) as (k & bi & -> & Hk & Hbi). apply Hall; [|done].
      rewrite elem_of_seq. lia.
    + eapply tkeeps_trans; [exact Kt|]. apply K'.
Qed.

Lemma wp_bfree p d start V bs H sb b Q s :
  txn p d start V bs H s -> fs_sb (k_fs s) = sb -> sb_ok sb -> map_ok sb V -> 0 <= d < 2 ^ 32 ->
  0 <= b < sb_size sb -> BBLOCK b sb ∉ H -> in_use sb V b = true ->
  (length bs + size H < NBUF)%nat -> (length bs < LOGBLOCKS)%nat ->
  (forall s', tframe s s' -> txn p d start (vset (BBLOCK b sb) (mark false b (V (BBLOCK b sb))) V)
      (record (BBLOCK b sb) bs) H s' -> tkeeps d H s s' -> Q tt s') ->
  wp (bfree d b) Q s.
Proof.
  intros X Hsb Hok Hmap Hd Hb HH Hu Hroom Hlog HQ. unfold bfree. apply wp_bind, wp_gets. rewrite Hsb.
  rewrite wrap32_small by lia. set (mb := BBLOCK b sb) in *.
  assert (Hmr : 0 <= mb < 2 ^ 31) by by apply BBLOCK_range.
  apply wp_bind. eapply tx_bread; [exact X|done|by right|]. intros bp s1 F1 X1 C1 K1 _.
  apply wp_bind. eapply tx_getb; [exact X1|exact C1|]. intros x Ex _.
  destruct (Hmap b Hb) as [Hlen _]. fold mb in Hlen.
  destruct (lookup_lt_is_Some_2 (V mb) (bit_byte b)) as [v Hv].
  { rewrite Hlen. unfold bit_byte. apply Nat.div_lt_upper_bound; [lia|].
    pose proof (Z.mod_pos_bound b (Z.of_nat BPB) BPB_pos). unfold BPB in *. lia. }
  apply wp_bind. eapply wp_deref; [rewrite Ex; exact Hv|]. fold (bit_pos b).
  assert (Euse : in_use sb V b = Z.testbit v (bit_pos b)).
  { unfold in_use. fold mb. by rewrite nth_lookup, Hv. }
  unfold bit_pos. rewrite land_bit. fold (bit_pos b). rewrite <- Euse, Hu. cbn [negb].
  assert (Emark : <[bit_byte b := wrap8 (Z.land v (Z.lnot (Z.shiftl 1 (bit_pos b))))]> (V mb) = mark false b (V mb)).
  { unfold mark. by rewrite nth_lookup, Hv. }
  apply wp_bind. eapply (tx_upd _ _ _ _ _ _ mb); [exact X1|set_solver|done|]. fold (bit_byte b). rewrite Emark.
  intros s2 F2 X2 K2 _. assert (C2 := K2 {[mb]} mb bp ltac:(set_solver) C1).
  apply wp_bind. eapply (tx_log_write _ _ _ _ _ _ mb); [exact X2|set_solver|done|done|done|].
  intros s3 F3 X3 K3 _. assert (C3 := K3 {[mb]} mb bp ltac:(set_solver) C2).
  eapply (tx_brelse _ _ _ _ _ _ mb); [exact X3|set_solver|done|left; rewrite elem_of_record; by left|].
  intros s4 F4 X4 K4. replace (({[mb]} ∪ H) ∖ {[mb]}) with H in X4 by set_solver. apply HQ; [|done|].
  - do 3 (etrans; [eassumption|]). done.
  - do 3 (eapply tkeeps_trans; [eauto|]). done.
Qed.

End ops.

(** ** Bits after an operation *)

Section marked.
Implicit Types (sb : superblock) (V : disk) (b : Z).

Lemma wrap8_bit x k : 0 <= k < 8 -> Z.testbit (wrap8 x) k = Z.testbit x k.
Proof. intros H. unfold wrap8. change (2 ^ 8) with (2 ^ 8). by rewrite Z.mod_pow2_bits_low by lia. Qed.

Lemma bit_pos_range b : 0 <= bit_pos b < 8.
Proof. unfold bit_pos. pose proof (Nat.mod_upper_bound (Z.to_nat (b mod Z.of_nat BPB)) 8). lia. Qed.

Lemma mark_length v b l : length (mark v b l) = length l.
Proof. apply length_insert. Qed.

Lemma mark_range v b l : Forall (fun x => 0 <= x < 256) l -> Forall (fun x => 0 <= x < 256) (mark v b l).
Proof. intros H. apply Forall_insert; [done|]. apply Z.mod_pos_bound. lia. Qed.

Lemma bit_byte_lt b : (bit_byte b < BSIZE)%nat.
Proof.
  unfold bit_byte. apply Nat.div_lt_upper_bound; [lia|].
  pose proof (Z.mod_pos_bound b (Z.of_nat BPB) BPB_pos). unfold BPB in *. lia.
Qed.

(** Blocks with the same bit of the same block of the map are the same. *)
Lemma bit_inj sb b b' :
  sb_ok sb -> 0 <= b < sb_size sb -> 0 <= b' < sb_size sb ->
  BBLOCK b sb = BBLOCK b' sb -> bit_byte b = bit_byte b' -> bit_pos b = bit_pos b' -> b = b'.
Proof.
  intros Hok Hb Hb' E1 E2 E3. unfold BBLOCK in E1. destruct Hok as [Hs [H1 H2]]. pose proof BPB_pos.
  assert (Hq : forall z, 0 <= z < sb_size sb -> 0 <= z / Z.of_nat BPB <= sb_size sb / Z.of_nat BPB).
  { intros z Hz. split; [apply Z.div_pos; lia|apply Z.div_le_mono; lia]. }
  pose proof (Hq b Hb). pose proof (Hq b' Hb'). rewrite !wrap32_small in E1 by lia.
  pose proof (Z.mod_pos_bound b (Z.of_nat BPB)). pose proof (Z.mod_pos_bound b' (Z.of_nat BPB)).
  unfold bit_byte, bit_pos in E2, E3.
  pose proof (Nat.div_mod_eq (Z.to_nat (b mod Z.of_nat BPB)) 8).
  pose proof (Nat.div_mod_eq (Z.to_nat (b' mod Z.of_nat BPB)) 8).
  pose proof (Z.div_mod b (Z.of_nat BPB)). pose proof (Z.div_mod b' (Z.of_nat BPB)). nia.
Qed.

Lemma in_use_mark sb V v b b' :
  sb_ok sb -> map_ok sb V -> 0 <= b < sb_size sb -> 0 <= b' < sb_size sb ->
  in_use sb (vset (BBLOCK b sb) (mark v b (V (BBLOCK b sb))) V) b' = if decide (b' = b) then v else in_use sb V b'.
Proof.
  intros Hok Hmap Hb Hb'. unfold in_use. destruct (Hmap b Hb) as [Hlen _]. pose proof (bit_byte_lt b).
  pose proof (bit_pos_range b) as Hp. pose proof (bit_pos_range b') as Hp'. case_decide as Hd.
  - subst b'. rewrite vset_eq. unfold mark. rewrite nth_lookup, list_lookup_insert_eq by lia. cbn.
    rewrite wrap8_bit, Z.shiftl_1_l by done. destruct v.
    + by rewrite Z.lor_spec, Z.pow2_bits_true, orb_true_r by lia.
    + by rewrite Z.land_spec, Z.lnot_spec, Z.pow2_bits_true, andb_false_r by lia.
  - destruct (decide (BBLOCK b' sb = BBLOCK b sb)) as [E|E]; [|by rewrite vset_ne].
    rewrite E, vset_eq. unfold mark. rewrite nth_lookup. destruct (decide (bit_byte b = bit_byte b')) as [Ey|Ey].
    + rewrite Ey, list_lookup_insert_eq by lia. cbn.
      assert (bit_pos b' <> bit_pos b) by (intros Ep; apply Hd; by eapply bit_inj).
      rewrite wrap8_bit, Z.shiftl_1_l by done. destruct v.
      * by rewrite Z.lor_spec, Z.pow2_bits_false, orb_false_r by lia.
      * by rewrite Z.land_spec, Z.lnot_spec, Z.pow2_bits_false, andb_true_r by lia.
    + rewrite list_lookup_insert_ne by done. by rewrite <- nth_lookup.
Qed.

Lemma map_ok_mark sb V v b :
  map_ok sb V -> 0 <= b < sb_size sb -> map_ok sb (vset (BBLOCK b sb) (mark v b (V (BBLOCK b sb))) V).
Proof.
  intros Hmap Hb b' Hb'. destruct (Hmap b Hb). destruct (decide (BBLOCK b' sb = BBLOCK b sb)) as [->|E].
  - rewrite vset_eq, mark_length. split; [done|]. by apply mark_range.
  - rewrite vset_ne by done. by apply Hmap.
Qed.

(** A block that is not of the map does not concern it. *)
Lemma in_use_other sb V z v b :
  (forall b, 0 <= b < sb_size sb -> BBLOCK b sb <> z) -> 0 <= b < sb_size sb -> in_use sb (vset z v V) b = in_use sb V b.
Proof. intros Hz Hb. unfold in_use. by rewrite vset_ne by by apply Hz. Qed.

Lemma map_ok_other sb V z v :
  (forall b, 0 <= b < sb_size sb -> BBLOCK b sb <> z) -> map_ok sb V -> map_ok sb (vset z v V).
Proof. intros Hz Hmap b Hb. rewrite vset_ne by by apply Hz. by apply Hmap. Qed.

(** The blocks of the map are themselves in use. *)
Definition map_used (sb : superblock) (V : disk) : Prop :=
  forall b, 0 <= b < sb_size sb -> 0 <= BBLOCK b sb < sb_size sb /\ in_use sb V (BBLOCK b sb) = true.

Lemma free_not_map sb V z :
  map_used sb V -> in_use sb V z = false -> forall b, 0 <= b < sb_size sb -> BBLOCK b sb <> z.
Proof. intros Hu Hz b Hb <-. destruct (Hu b Hb). congruence. Qed.

Lemma alloc_view_spec sb V b :
  sb_ok sb -> map_ok sb V -> map_used sb V -> 0 <= b < sb_size sb -> in_use sb V b = false ->
  map_ok sb (alloc_view sb b V) /\ map_used sb (alloc_view sb b V) /\ alloc_view sb b V b = replicate BSIZE 0 /\
  (forall b', 0 <= b' < sb_size sb -> in_use sb (alloc_view sb b V) b' = if decide (b' = b) then true else in_use sb V b') /\
  (forall z, z <> b -> z <> BBLOCK b sb -> alloc_view sb b V z = V z).
Proof.
  intros Hok Hmap Hused Hb Hfree. unfold alloc_view. assert (Hz := free_not_map sb V b Hused Hfree).
  assert (Hin : forall b', 0 <= b' < sb_size sb ->
    in_use sb (vset b (replicate BSIZE 0) (vset (BBLOCK b sb) (mark true b (V (BBLOCK b sb))) V)) b' =
    if decide (b' = b) then true else in_use sb V b').
  { intros b' Hb'. rewrite in_use_other by done. by apply in_use_mark. }
  split_and!; [apply map_ok_other; [done|by apply map_ok_mark]| |apply vset_eq|exact Hin|].
  - intros b' Hb'. destruct (Hused b' Hb') as [Hr Hu]. split; [done|]. rewrite Hin by done. by case_decide.
  - intros z H1 H2. by rewrite !vset_ne.
Qed.

End marked.

(** ** Properties *)

(** C13: [balloc] inside a transaction takes the first free block: afterwards
    exactly that block is in use besides those that were, it reads as zeros,
    every other block except its block of the free map is unchanged, and both
    changes are recorded in the log; with no free block the result is 0 and
    nothing changes. *)
Theorem balloc_spec {W : World} {D : Disk} {DS : DiskSpec} {T : Patience} (p : nat) (d start : Z) (V : disk)
    (bs : list Z) (sb : superblock) (s : kst)
    (X : txn p d start V bs ∅ s) (Hsb : fs_sb (k_fs s) = sb) (Hok : sb_ok sb) (Hmap : map_ok sb V)
    (Hused : map_used sb V) (Hd : 0 <= d < 2 ^ 32) (Hroom : (length bs + 2 <= LOGBLOCKS - 1)%nat) :
  wp (balloc d) (fun r s' => tframe s s' /\
    ((exists V', txn p d start V' (record r (record (BBLOCK r sb) bs)) ∅ s' /\
       0 <= r < sb_size sb /\ in_use sb V r = false /\ (forall b, 0 <= b < r -> in_use sb V b = true) /\
       (forall b, 0 <= b < sb_size sb -> in_use sb V' b = if decide (b = r) then true else in_use sb V b) /\
       V' r = replicate BSIZE 0 /\ (forall z, z <> r -> z <> BBLOCK r sb -> V' z = V z)) \/
     (r = 0 /\ (forall b, 0 <= b < sb_size sb -> in_use sb V b = true) /\ txn p d start V bs ∅ s'))) s.
Proof.
  assert (Hn : NBUF = LOGBLOCKS) by done.
  eapply (wp_balloc p d start V bs ∅ sb); [done..|intros b _; set_solver|rewrite size_empty; lia|lia| |].
  - intros b s' Hb Hfree Hfirst F X' _. split; [done|left]. exists (alloc_view sb b V).
    destruct (alloc_view_spec sb V b) as (_ & _ & H1 & H2 & H3); [done..|].
    split_and!; done || lia.
  - intros s' Hall F X' _. split; [done|right]. by split_and!.
Qed.

(** [bfree] of a block in use clears its bit and no other, so that it can be
    allocated again, leaves every other block of the disk alone and records
    the change in the log. *)
Theorem bfree_spec {W : World} {D : Disk} {DS : DiskSpec} {T : Patience} (p : nat) (d start b : Z) (V : disk)
    (bs : list Z) (sb : superblock) (s : kst)
    (X : txn p d start V bs ∅ s) (Hsb : fs_sb (k_fs s) = sb) (Hok : sb_ok sb) (Hmap : map_ok sb V)
    (Hd : 0 <= d < 2 ^ 32) (Hb : 0 <= b < sb_size sb) (Hroom : (length bs + 1 <= LOGBLOCKS - 1)%nat)
    (Hu : in_use sb V b = true) :
  wp (bfree d b) (fun _ s' => tframe s s' /\ exists V', txn p d start V' (record (BBLOCK b sb) bs) ∅ s' /\
    (forall b', 0 <= b' < sb_size sb -> in_use sb V' b' = if decide (b' = b) then false else in_use sb V b') /\
    (forall z, z <> BBLOCK b sb -> V' z = V z)) s.
Proof.
  assert (Hn : NBUF = LOGBLOCKS) by done.
  eapply (wp_bfree p d start V bs ∅ sb b); [done..|set_solver|done|rewrite size_empty; lia|lia|].
  intros s' F X' _. split; [done|]. eexists. split_and!; [exact X'| |].
  - intros b' Hb'. by apply in_use_mark.
  - intros z Hz. by apply vset_ne.
Qed.
