(* ===== verification/FileData.v ===== *)
(** * The contents of files ([bmap], [readi] and [writei] of [fs.c])

    The blocks of a file are reached through the addresses in its inode and
    its indirect block. A file is the array of bytes in these blocks, a block
    that is not there reading as zeros; [readi] delivers a part of it and
    [writei] overwrites one. *)

From stdpp Require Import base gmap strings numbers list.
From S2P Require Import Prelude State Spinlock Strings Printf Bytes Memory Kalloc Vm PageTable UserMem Proc.
From S2P Require Import Sleeplock Quiet Bio Cache Log LogSpec Txn Uio Fs Bitmap.

(** ** Files *)

(** The address of block [bn] of a file, 0 if there is none. *)
Definition ind_addr (x : inode) : Z := nth NDIRECT (i_addrs x) 0.

Definition addr_of (x : inode) (V : disk) (bn : nat) : Z :=
  if (bn <? NDIRECT)%nat then nth bn (i_addrs x) 0
  else if ind_addr x =? 0 then 0 else ind (bn - NDIRECT) (V (ind_addr x)).

Definition fblock (x : inode) (V : disk) (bn : nat) : list Z :=
  if addr_of x V bn =? 0 then replicate BSIZE 0 else V (addr_of x V bn).

(** The bytes of a file. *)
Definition fbyte (x : inode) (V : disk) (off : nat) : Z := nth (off mod BSIZE) (fblock x V (off / BSIZE)) 0.

Definition fbytes (x : inode) (V : disk) (off n : nat) : list Z := fbyte x V <$> seq off n.

(** Every block of the file that is there is a block. *)
Definition blocks_ok (x : inode) (V : disk) : Prop :=
  length (i_addrs x) = S NDIRECT /\
  forall bn, (bn < MAXFILE)%nat -> addr_of x V bn <> 0 -> length (V (addr_of x V bn)) = BSIZE.

Section bytes.
Implicit Types (x : inode) (V : disk).

Lemma BSIZE_pos : (0 < BSIZE)%nat.
Proof. unfold BSIZE. lia. Qed.

Lemma fblock_length x V bn : blocks_ok x V -> (bn < MAXFILE)%nat -> length (fblock x V bn) = BSIZE.
Proof.
  intros [_ H] Hbn. unfold fblock. destruct (Z.eqb_spec (addr_of x V bn) 0); [apply length_replicate|by apply H].
Qed.

Lemma fbytes_length x V off n : length (fbytes x V off n) = n.
Proof. unfold fbytes. by rewrite length_fmap, length_seq. Qed.

Lemma fbytes_app x V off n m : fbytes x V off (n + m) = fbytes x V off n ++ fbytes x V (off + n) m.
Proof. unfold fbytes. by rewrite seq_app, fmap_app. Qed.

Lemma fbytes_lookup x V off n i : (i < n)%nat -> fbytes x V off n !! i = Some (fbyte x V (off + i)).
Proof. intros H. unfold fbytes. by rewrite list_lookup_fmap, lookup_seq_lt. Qed.

Lemma off_in_block off i : (i < BSIZE - off mod BSIZE)%nat ->
  ((off + i) / BSIZE = off / BSIZE /\ (off + i) mod BSIZE = off mod BSIZE + i)%nat.
Proof.
  intros H. pose proof BSIZE_pos. pose proof (Nat.div_mod_eq off BSIZE). pose proof (Nat.mod_upper_bound off BSIZE).
  assert (off + i = BSIZE * (off / BSIZE) + (off mod BSIZE + i))%nat as E by lia. split.
  - symmetry. apply (Nat.div_unique (off + i) BSIZE (off / BSIZE) (off mod BSIZE + i)); lia.
  - symmetry. apply (Nat.mod_unique (off + i) BSIZE (off / BSIZE) (off mod BSIZE + i)); lia.
Qed.

(** The part of a block a turn of the loops moves. *)
Lemma slice_fbytes x V off m :
  blocks_ok x V -> (off / BSIZE < MAXFILE)%nat -> (m <= BSIZE - off mod BSIZE)%nat ->
  slice (off mod BSIZE) m (fblock x V (off / BSIZE)) = fbytes x V off m.
Proof.
  intros Hx Hbn Hm. assert (Hl := fblock_length x V _ Hx Hbn). pose proof (Nat.mod_upper_bound off BSIZE).
  apply list_eq. intros i. destruct (decide (i < m)%nat) as [Hi|Hi].
  - rewrite fbytes_lookup by done. unfold slice, fbyte. rewrite lookup_take_lt, lookup_drop by done.
    destruct (off_in_block off i) as [-> ->]; [lia|].
    destruct (lookup_lt_is_Some_2 (fblock x V (off / BSIZE)) (off mod BSIZE + i)) as [c Hc]; [rewrite Hl; lia|].
    by rewrite nth_lookup, Hc.
  - rewrite !lookup_ge_None_2; [done|rewrite fbytes_length; lia|]. unfold slice. rewrite length_take. lia.
Qed.

End bytes.

(** ** Finding a block that is there *)

Section read.
Context {W : World} {D : Disk} {DS : DiskSpec} {T : Patience}.
Implicit Types (p : nat) (d : Z) (V : disk) (P H : gset Z) (s : kst) (x : inode).

Lemma wp_geti ip x Q s : fs_inodes (k_fs s) !! ip = Some x -> Q x s -> wp (geti ip) Q s.
Proof. intros Hx HQ. unfold geti, wp. by rewrite Hx. Qed.

Lemma wp_get_addr ip x k Q s :
  fs_inodes (k_fs s) !! ip = Some x -> (k < length (i_addrs x))%nat -> Q (nth k (i_addrs x) 0) s -> wp (get_addr ip k) Q s.
Proof.
  intros Hx Hk HQ. apply wp_bind. eapply wp_geti; [done|]. destruct (lookup_lt_is_Some_2 _ _ Hk) as [a Ha].
  eapply wp_deref; [done|]. by rewrite nth_lookup, Ha in HQ.
Qed.

(** A block is fetched; it has not been changed. *)
Lemma wp_bread_clean p d V P blk Q s :
  bst p d V P ∅ s -> (size P < NBUF)%nat ->
  (forall b s', bframe s s' -> bst p d V P {[blk]} s' -> caches d blk (fs_bufs (k_fs s')) b ->
     same_fs (k_fs s) (k_fs s') -> blk ∈ P \/ fs_disk (k_fs s') blk = V blk -> Q b s') ->
  wp (bread d blk) Q s.
Proof.
  intros B Hsz HQ. eapply wp_bread; [exact B|set_solver|right; by rewrite union_empty_r_L|].
  intros b s' F B' C S _. rewrite union_empty_r_L in B'. apply HQ; [done..|].
  destruct (decide (blk ∈ P)); [by left|right]. rewrite S. cbn. eapply bst_disk; [exact B|done|set_solver].
Qed.

Lemma wp_brelse_clean p d V P blk b Q s :
  bst p d V P {[blk]} s -> caches d blk (fs_bufs (k_fs s)) b -> blk ∈ P \/ fs_disk (k_fs s) blk = V blk ->
  (forall s', bframe s s' -> bst p d V P ∅ s' -> same_fs (k_fs s) (k_fs s') -> Q tt s') ->
  wp (brelse b) Q s.
Proof.
  intros B C Hc HQ. eapply (wp_brelse _ _ _ _ _ blk); [exact B|set_solver|done|done|].
  intros s' F B' S _. apply HQ; [done| |done]. by replace ({[blk]} ∖ {[blk]} : gset Z) with (∅ : gset Z) in B' by set_solver.
Qed.

Lemma wp_bmap_read p d V P ip x bn Q s :
  bst p d V P ∅ s -> (size P < NBUF)%nat -> fs_inodes (k_fs s) !! ip = Some x -> i_dev x = d ->
  length (i_addrs x) = S NDIRECT -> (bn < MAXFILE)%nat -> addr_of x V bn <> 0 ->
  (forall s', bframe s s' -> bst p d V P ∅ s' -> same_fs (k_fs s) (k_fs s') -> Q (addr_of x V bn) s') ->
  wp (bmap ip (Z.of_nat bn)) Q s.
Proof.
  intros B Hsz Hx Hd Hlen Hbn Ha HQ. unfold bmap. apply wp_bind. eapply wp_geti; [done|].
  unfold addr_of in *. destruct (Nat.ltb_spec bn NDIRECT) as [Hlt|Hge].
  - destruct (Z.ltb_spec (Z.of_nat bn) (Z.of_nat NDIRECT)); [|lia]. rewrite Nat2Z.id.
    apply wp_bind. eapply wp_get_addr; [done|rewrite Hlen; lia|]. destruct (Z.eqb_spec (nth bn (i_addrs x) 0) 0); [done|].
    apply wp_ret. apply HQ; [done|done|apply same_fs_refl].
  - destruct (Z.ltb_spec (Z.of_nat bn) (Z.of_nat NDIRECT)); [lia|].
    destruct (Z.ltb_spec (Z.of_nat bn - Z.of_nat NDIRECT) (Z.of_nat NINDIRECT)); [|unfold MAXFILE in Hbn; lia].
    apply wp_bind. eapply wp_get_addr; [done|rewrite Hlen; lia|]. fold (ind_addr x).
    destruct (Z.eqb_spec (ind_addr x) 0) as [|Hi]; [done|]. apply wp_bind, wp_ret.
    destruct (Z.eqb_spec (ind_addr x) 0) as [|_]; [done|]. rewrite Hd. apply wp_bind.
    eapply wp_bread_clean; [exact B|done|]. intros b s1 F1 B1 C1 S1 Hc1.
    destruct (bst_data _ _ _ _ _ _ _ _ B1 C1) as (y & Hy & Ey & _). apply wp_bind. eapply wp_getb; [done|].
    rewrite Ey. replace (Z.to_nat (Z.of_nat bn - Z.of_nat NDIRECT)) with (bn - NDIRECT)%nat by lia.
    destruct (Z.eqb_spec (ind (bn - NDIRECT) (V (ind_addr x))) 0) as [|_]; [done|]. apply wp_bind, wp_ret.
    apply wp_bind. eapply wp_brelse_clean; [exact B1|done|done|]. intros s2 F2 B2 S2. apply wp_ret.
    apply HQ; [by etrans|done|by eapply same_fs_trans].
Qed.

End read.

(** ** Where the bytes go and come from *)

(** A process may have [n] bytes stored at [dst]. *)
Definition dst_ok (p : nat) (dst : dest) (n : nat) (s : kst) : Prop :=
  match dst with
  | ToLocal => True
  | ToPhys _ => False
  | ToUser va => exists pr, k_procs s !! p = Some pr /\ addrspace (p_pagetable pr) s /\
      ubuf (p_pagetable pr) (k_mem s) va n
  end.

(** It got them. *)
Definition received (p : nat) (dst : dest) (bs : list Z) (s s' : kst) : Prop :=
  match dst with
  | ToUser va => exists pr, k_procs s !! p = Some pr /\ uwrite (p_pagetable pr) va bs (k_mem s) (k_mem s')
  | _ => k_mem s' = k_mem s
  end.

(** Everything but memory is as after operations on buffers. *)
Definition mframe (s s' : kst) : Prop := bframe s (set_k_mem (k_mem s) s').

Section memory.
Implicit Types (p : nat) (s : kst).

Lemma set_k_mem_id s : set_k_mem (k_mem s) s = s.
Proof. by destruct s. Qed.

Lemma frame_mem m s s' : frame s s' -> frame (set_k_mem m s) (set_k_mem m s').
Proof.
  intros [C Y P]. split; [|done|done]. apply (f_equal (set_k_mem m)) in C. by destruct s, s'.
Qed.

Lemma bframe_mem m s s' : bframe s s' -> bframe (set_k_mem m s) (set_k_mem m s').
Proof. intros [F L]. split; [by apply frame_mem|done]. Qed.

Lemma bframe_mframe s s' : bframe s s' -> mframe s s'.
Proof.
  intros F. unfold mframe. replace (k_mem s) with (k_mem s'); [by rewrite set_k_mem_id|].
  symmetry. exact (f_equal k_mem (fr_core _ _ (bf_frame _ _ F))).
Qed.

#[global] Instance mframe_preorder : PreOrder mframe.
Proof.
  split.
  - intros s. by apply bframe_mframe.
  - intros s1 s2 s3 A B. unfold mframe in *. etrans; [exact A|].
    apply (bframe_mem (k_mem s1)) in B. by destruct s2, s3.
Qed.

Lemma mframe_proc p s s' q :
  mframe s s' -> k_procs s !! p = Some q -> exists q', k_procs s' !! p = Some q' /\ stirred q q'.
Proof. intros [F _] Hq. by apply (frame_proc _ _ _ _ F). Qed.

Lemma quiet_mframe p s s' : quiet p s -> mframe s s' -> quiet p s'.
Proof.
  intros Hs [F _]. apply (quiet_frame _ _ _ Hs), (quiet_mem _ (k_mem s')) in F. by destruct s'.
Qed.

Lemma bst_mframe p d V P H s s' :
  bst p d V P H s -> mframe s s' -> k_fs s' = k_fs s -> k_slocks s' = k_slocks s -> bst p d V P H s'.
Proof.
  intros B M Ef El. split; [by eapply quiet_mframe; [apply B|]|]. intros q' Hq'.
  destruct (quiet_proc _ _ (bs_quiet _ _ _ _ _ _ B)) as [q Hq].
  destruct (mframe_proc _ _ _ _ M Hq) as (q'' & Hq'' & (st & w & E & _)). rewrite Hq' in Hq''. injection Hq'' as ->.
  rewrite E, Ef, El. apply (bs_cache _ _ _ _ _ _ B q Hq).
Qed.

Lemma received_nil p dst s : dst_ok p dst 0 s -> received p dst [] s s.
Proof. destruct dst; cbn; [|done|done]. intros (pr & Hp & _). exists pr. split; [done|apply uwrite_nil]. Qed.

(** The address space does not depend on what operations on buffers change. *)
Lemma dst_ok_bframe p dst n s s' : bframe s s' -> dst_ok p dst n s -> dst_ok p dst n s'.
Proof.
  intros F. destruct dst; cbn; [|done|done]. intros (pr & Hp & Ha & Hu).
  destruct (frame_proc _ _ _ _ (bf_frame _ _ F) Hp) as (pr' & Hp' & (st & w & E & _)).
  assert (Em := f_equal k_mem (fr_core _ _ (bf_frame _ _ F))). assert (Ee := f_equal k_end (fr_core _ _ (bf_frame _ _ F))).
  cbn in Em, Ee. subst pr'. eexists. split; [exact Hp'|]. cbn. split; [|by rewrite <- Em]. by eapply addrspace_ext, Ha.
Qed.

Lemma received_bframe p dst bs s s' s'' : bframe s s' -> received p dst bs s' s'' -> received p dst bs s s''.
Proof.
  intros F. assert (Em := f_equal k_mem (fr_core _ _ (bf_frame _ _ F))). cbn in Em.
  destruct dst; cbn; rewrite ?Em; [|done|done]. intros (pr' & Hp' & U).
  assert (exists pr, k_procs s !! p = Some pr) as [pr Hp].
  { apply lookup_lt_is_Some_2. rewrite (Forall2_length _ _ _ (fr_procs _ _ (bf_frame _ _ F))). by eapply lookup_lt_Some. }
  destruct (frame_proc _ _ _ _ (bf_frame _ _ F) Hp) as (pr'' & Hp'' & (st & w & E & _)).
  rewrite Hp' in Hp''. injection Hp'' as <-. exists pr. split; [done|]. rewrite E in U. exact U.
Qed.

Lemma received_bframe_r p dst bs s s' s'' : bframe s' s'' -> received p dst bs s s' -> received p dst bs s s''.
Proof.
  intros F. assert (Em := f_equal k_mem (fr_core _ _ (bf_frame _ _ F))). cbn in Em.
  destruct dst; cbn; by rewrite Em.
Qed.

End memory.

Section copy.
Implicit Types (p : nat) (s : kst).

Lemma mapped_limit root m va n k : mapped root m va n -> (k <= n)%nat -> wrap64 (va + Z.of_nat k) = va + Z.of_nat k.
Proof.
  intros (H0 & H1 & _) Hk. apply wrap64_small. unfold MAXVA in H1. change (Z.shiftl 1 _) with (2 ^ 38) in H1. lia.
Qed.

Lemma wp_copyout_dst p dst bs rest Q s :
  quiet p s -> dst_ok p dst (length bs + rest) s ->
  (forall s', mframe s s' -> k_fs s' = k_fs s -> k_slocks s' = k_slocks s -> received p dst bs s s' ->
     dst_ok p (dest_add dst (length bs)) rest s' -> Q 0 s') ->
  wp (either_copyout dst bs) Q s.
Proof.
  intros Hs Hok HQ. destruct dst as [va|pa|]; cbn in Hok; [|done|apply wp_ret; by apply HQ].
  destruct Hok as (pr & Hp & Ha & Hu). cbn [either_copyout]. unfold my_pagetable.
  apply wp_bind, wp_bind, wp_myproc'; [by eapply quiet_wf|]. rewrite (quiet_running p) by done.
  apply wp_bind. eapply wp_deref; [done|]. apply wp_bind. eapply wp_getp; [exact Hp|]. apply wp_ret.
  apply wp_copyout_user; [by apply (addrspace_ext _ s)| |].
  - rewrite <- (Z.add_0_r va). eapply (ubuf_sub _ _ _ (length bs + rest) 0); [exact Hu|lia].
  - intros m' U A. apply HQ; [|done|done|by exists pr|].
    + split; [|done]. apply frame_upd; [by destruct s|cbn; by rewrite touch_idem|done].
    + cbn [dest_add]. rewrite (mapped_limit (p_pagetable pr) (k_mem s) va (length bs + rest)) by (apply Hu || lia).
      exists pr. split_and!; [done|exact A|]. eapply ubuf_uwrite; [exact U|]. by eapply ubuf_sub.
Qed.

Lemma received_app p dst bs bs' n s s1 s2 :
  dst_ok p dst n s -> (length bs <= n)%nat -> mframe s s1 ->
  received p dst bs s s1 -> received p (dest_add dst (length bs)) bs' s1 s2 -> received p dst (bs ++ bs') s s2.
Proof.
  intros Hok Hn M. destruct dst as [va|pa|]; cbn in *; [|congruence..].
  destruct Hok as (pr0 & Hp0 & _ & [Hm _]). intros (pr & Hp & U) (pr' & Hp' & U'). rewrite Hp0 in Hp. injection Hp as <-.
  destruct (mframe_proc _ _ _ _ M Hp0) as (pr'' & Hp'' & (st & w & E & _)). rewrite Hp' in Hp''. injection Hp'' as <-.
  rewrite E in U'. cbn in U'. rewrite (mapped_limit _ _ _ _ _ Hm Hn) in U'.
  exists pr0. split; [done|]. by eapply uwrite_app.
Qed.

End copy.

(** The blocks of a part of the file are there. *)
Definition covers (x : inode) (V : disk) (off n : nat) : Prop :=
  forall i, (i < n)%nat -> ((off + i) / BSIZE < MAXFILE)%nat /\ addr_of x V ((off + i) / BSIZE) <> 0.

Lemma portion_nat off rest :
  portion (Z.of_nat off) (Z.of_nat rest) = Z.of_nat (Nat.min rest (BSIZE - off mod BSIZE)).
Proof.
  unfold portion. rewrite <- Nat2Z.inj_mod. pose proof (Nat.mod_upper_bound off BSIZE). pose proof BSIZE_pos. lia.
Qed.

Section readi.
Context {W : World} {D : Disk} {DS : DiskSpec} {T : Patience}.
Context (p : nat) (d : Z) (V : disk) (P : gset Z) (ip : nat) (x : inode).
Context (Hsz : (size P < NBUF)%nat) (Hd : i_dev x = d) (Hx : blocks_ok x V).
Implicit Types (s : kst).

Lemma wp_readi_loop fuel dst (off n tot : nat) acc Q s :
  bst p d V P ∅ s -> fs_inodes (k_fs s) !! ip = Some x -> (tot <= n)%nat -> (n - tot <= fuel)%nat ->
  Z.of_nat (off + (n - tot)) < 2 ^ 31 -> Z.of_nat n < 2 ^ 31 -> covers x V off (n - tot) -> dst_ok p dst (n - tot) s ->
  (forall s', mframe s s' -> bst p d V P ∅ s' -> same_fs (k_fs s) (k_fs s') ->
     received p dst (fbytes x V off (n - tot)) s s' -> Q (Z.of_nat n, acc ++ fbytes x V off (n - tot)) s') ->
  wp (readi_loop fuel ip dst (Z.of_nat off) (Z.of_nat n) (Z.of_nat tot) acc) Q s.
Proof using Hsz Hd Hx DS.
  revert dst off tot acc s. induction fuel as [|fuel IH]; intros dst off tot acc s B Hip Htot Hf Hoff Hn Hcov Hok HQ;
    cbn [readi_loop]; destruct (Z.ltb_spec (Z.of_nat tot) (Z.of_nat n)) as [Hlt|Hge]; cbn [negb].
  1: lia.
  1, 3: assert (n = tot) as -> by lia; rewrite Nat.sub_diag in *; rewrite to_int_small by lia; apply wp_ret;
    rewrite app_nil_r in HQ; apply HQ; [done|done|apply same_fs_refl|by apply received_nil].
  rewrite <- Nat2Z.inj_div. destruct (Hcov 0%nat) as [Hbn Ha]; [lia|]. rewrite Nat.add_0_r in Hbn, Ha.
  apply wp_bind. eapply (wp_bmap_read p d V P ip x); [exact B|done|done|done|apply Hx|done|done|].
  intros s1 F1 B1 S1. assert (Hip1 : fs_inodes (k_fs s1) !! ip = Some x) by by rewrite S1.
  destruct (Z.eqb_spec (addr_of x V (off / BSIZE)) 0) as [|_]; [done|].
  apply wp_bind. eapply wp_geti; [done|]. rewrite Hd. apply wp_bind.
  eapply wp_bread_clean; [exact B1|done|]. intros b s2 F2 B2 C2 S2 Hc2.
  destruct (bst_data _ _ _ _ _ _ _ _ B2 C2) as (y & Hy & Ey & _). apply wp_bind. eapply wp_getb; [done|]. rewrite Ey.
  rewrite <- Nat2Z.inj_sub, portion_nat by lia. set (m := Nat.min (n - tot) (BSIZE - off mod BSIZE)).
  rewrite <- Nat2Z.inj_mod, !Nat2Z.id.
  assert (Hm : (0 < m <= n - tot)%nat).
  { pose proof (Nat.mod_upper_bound off BSIZE). pose proof BSIZE_pos. unfold m. lia. }
  assert (Efb : slice (off mod BSIZE) m (V (addr_of x V (off / BSIZE))) = fbytes x V off m).
  { rewrite <- (slice_fbytes x V off m Hx Hbn) by (unfold m; lia). unfold fblock.
    by destruct (Z.eqb_spec (addr_of x V (off / BSIZE)) 0). }
  rewrite Efb. assert (F02 : bframe s s2) by by etrans.
  apply wp_bind. eapply (wp_copyout_dst p dst _ (n - tot - m)); [apply B2| |].
  { rewrite fbytes_length. replace (m + (n - tot - m))%nat with (n - tot)%nat by lia. by eapply dst_ok_bframe. }
  rewrite fbytes_length. intros s3 M3 E3 L3 R3 D3.
  assert (B3 : bst p d V P {[addr_of x V (off / BSIZE)]} s3) by by eapply bst_mframe.
  apply wp_bind. eapply wp_brelse_clean; [exact B3|by rewrite E3|by rewrite E3|]. intros s4 F4 B4 S4.
  change (0 =? -1) with false. cbv iota. rewrite wrap32_small, <- !Nat2Z.inj_add by lia.
  assert (M04 : mframe s s4).
  { etrans; [apply bframe_mframe, F02|]. etrans; [exact M3|]. by apply bframe_mframe. }
  assert (R04 : received p dst (fbytes x V off m) s s4).
  { eapply received_bframe_r; [exact F4|]. eapply received_bframe; [exact F02|exact R3]. }
  assert (Efs : same_fs (k_fs s) (k_fs s4)).
  { eapply same_fs_trans; [exact S1|]. eapply same_fs_trans; [exact S2|]. by rewrite <- E3. }
  apply (IH (dest_add dst m) (off + m)%nat (tot + m)%nat (acc ++ fbytes x V off m) s4); [exact B4|by rewrite Efs|lia|lia|lia|done| | |].
  - intros i Hi. replace (off + m + i)%nat with (off + (m + i))%nat by lia. apply Hcov. lia.
  - replace (n - (tot + m))%nat with (n - tot - m)%nat by lia. by eapply dst_ok_bframe.
  - replace (n - (tot + m))%nat with (n - tot - m)%nat by lia. intros s5 M5 B5 S5 R5.
    rewrite <- app_assoc, <- fbytes_app. replace (m + (n - tot - m))%nat with (n - tot)%nat by lia.
    apply HQ; [by etrans|done|by eapply same_fs_trans|].
    replace (n - tot)%nat with (m + (n - tot - m))%nat by lia. rewrite fbytes_app.
    eapply received_app; [exact Hok|rewrite fbytes_length; lia|exact M04|exact R04|by rewrite fbytes_length].
Qed.

Lemma wp_readi dst (off n : nat) Q s :
  bst p d V P ∅ s -> fs_inodes (k_fs s) !! ip = Some x -> 0 <= i_size x < 2 ^ 31 -> Z.of_nat (off + n) < 2 ^ 31 ->
  let len := Nat.min n (Z.to_nat (i_size x) - off) in
  covers x V off len -> dst_ok p dst len s ->
  (forall s', mframe s s' -> bst p d V P ∅ s' -> same_fs (k_fs s) (k_fs s') ->
     received p dst (fbytes x V off len) s s' -> Q (Z.of_nat len, fbytes x V off len) s') ->
  wp (readi ip dst (Z.of_nat off) (Z.of_nat n)) Q s.
Proof using Hsz Hd Hx DS.
  intros B Hip Hs Hoff len Hcov Hok HQ. unfold readi. apply wp_bind. eapply wp_geti; [done|].
  rewrite wrap32_small by lia. destruct (Z.ltb_spec (Z.of_nat off + Z.of_nat n) (Z.of_nat off)); [lia|].
  destruct (Z.ltb_spec (i_size x) (Z.of_nat off)) as [Hgt|Hle]; cbn [orb].
  { assert (Elen : len = 0%nat) by (unfold len; lia). rewrite Elen in *. apply wp_ret.
    apply HQ; [done|done|apply same_fs_refl|by apply received_nil]. }
  assert (En : (if i_size x <? Z.of_nat off + Z.of_nat n then wrap32 (i_size x - Z.of_nat off) else Z.of_nat n) = Z.of_nat len).
  { unfold len. destruct (Z.ltb_spec (i_size x) (Z.of_nat off + Z.of_nat n)); rewrite ?wrap32_small by lia; lia. }
  rewrite En, Nat2Z.id. apply (wp_readi_loop len dst off len 0 []); rewrite ?Nat.sub_0_r; [done|done|lia|lia|lia|lia|done|done|].
  intros s' M B' S R. by apply HQ.
Qed.

End readi.
