(* ===== verification/FileWrite.v ===== *)
(** * Files grow ([bmap] and [writei] of [fs.c])

    [bmap] allocates the block of a file that is missing, [writei] overwrites
    part of a file. The bytes the file does not get written keep their value,
    and so do the blocks of the disk that are in use for something else. *)

From stdpp Require Import base gmap strings numbers list.
From S2P Require Import Prelude State Spinlock Strings Printf Bytes Memory Kalloc Vm PageTable UserMem Proc.
From S2P Require Import Sleeplock Quiet Bio Cache Log LogSpec Txn Uio Fs Bitmap FileData.

(** ** Well-formed files *)

(** A block in use that is not of the free map. *)
Record data_block (sb : superblock) (V : disk) (a : Z) : Prop := {
  db_range : 0 < a < sb_size sb;
  db_used : in_use sb V a = true;
  db_map b : 0 <= b < sb_size sb -> BBLOCK b sb <> a;
  db_len : length (V a) = BSIZE
}.

(** The addresses of a file are those of distinct data blocks. *)
Record ino_wf (sb : superblock) (x : inode) (V : disk) : Prop := {
  iw_len : length (i_addrs x) = S NDIRECT;
  iw_data bn : (bn < MAXFILE)%nat -> addr_of x V bn <> 0 -> data_block sb V (addr_of x V bn);
  iw_ind : ind_addr x <> 0 -> data_block sb V (ind_addr x);
  iw_inj bn bn' : (bn < MAXFILE)%nat -> (bn' < MAXFILE)%nat -> addr_of x V bn <> 0 ->
    addr_of x V bn = addr_of x V bn' -> bn = bn';
  iw_noind bn : (bn < MAXFILE)%nat -> addr_of x V bn <> 0 -> addr_of x V bn <> ind_addr x
}.

(** The free map of a disk: its blocks and block 0 are in use. *)
Record map_wf (sb : superblock) (V : disk) : Prop := {
  mw_ok : map_ok sb V;
  mw_used : map_used sb V;
  mw_boot : in_use sb V 0 = true;
  mw_size : 0 < sb_size sb
}.

Section fresh.
Context (sb : superblock) (Hsb : sb_ok sb).
Implicit Types (x : inode) (V : disk) (a b z : Z).

Lemma data_block_ne V a b : data_block sb V a -> in_use sb V b = false -> a <> b.
Proof. intros [_ H _ _] Hb ->. congruence. Qed.

Lemma map_wf_alloc V b :
  map_wf sb V -> 0 <= b < sb_size sb -> in_use sb V b = false ->
  0 < b /\ map_wf sb (alloc_view sb b V) /\ data_block sb (alloc_view sb b V) b.
Proof using Hsb.
  intros [Hok Hu H0 Hs] Hb Hf. assert (b <> 0) by (intros ->; congruence).
  destruct (alloc_view_spec sb V b) as (A1 & A2 & A3 & A4 & A5); [done..|]. split_and!; [lia| |].
  - split; [done|done| |done]. rewrite A4 by lia. by case_decide.
  - split; [lia| |by apply (free_not_map sb V)|by rewrite A3, length_replicate]. rewrite A4 by done. by rewrite decide_True.
Qed.

(** An allocation leaves the other data blocks alone. *)
Lemma alloc_other V b z :
  map_wf sb V -> 0 <= b < sb_size sb -> in_use sb V b = false -> 0 <= z < sb_size sb -> in_use sb V z = true ->
  (forall b, 0 <= b < sb_size sb -> BBLOCK b sb <> z) ->
  alloc_view sb b V z = V z /\ in_use sb (alloc_view sb b V) z = true.
Proof using Hsb.
  intros [Hok Hu H0 Hs] Hb Hf Hz Huz Hm. destruct (alloc_view_spec sb V b) as (_ & _ & _ & A4 & A5); [done..|].
  split; [apply A5; [congruence|]|].
  - intros E. by apply (Hm b Hb).
  - rewrite A4 by done. by case_decide.
Qed.

Lemma data_block_alloc V b a :
  map_wf sb V -> 0 <= b < sb_size sb -> in_use sb V b = false -> data_block sb V a ->
  alloc_view sb b V a = V a /\ data_block sb (alloc_view sb b V) a.
Proof using Hsb.
  intros Hm Hb Hf [Hr Hu Hn Hl]. destruct (alloc_other V b a) as [E U]; [done|done|done|lia|done|done|].
  split; [done|]. split; [done|done|done|by rewrite E].
Qed.

End fresh.

(** ** Growing a file *)

(** From [x] and [V] to [x'] and [V'] blocks have been added to the file, and
    nothing has been changed. *)
Record fgrown (sb : superblock) (x : inode) (V : disk) (x' : inode) (V' : disk) : Prop := {
  gr_wf : ino_wf sb x' V';
  gr_map : map_wf sb V';
  gr_x : x' = set_i_addrs (i_addrs x') x;
  gr_content bn : (bn < MAXFILE)%nat -> fblock x' V' bn = fblock x V bn;
  gr_keep bn : (bn < MAXFILE)%nat -> addr_of x V bn <> 0 -> addr_of x' V' bn = addr_of x V bn;
  gr_ind : ind_addr x <> 0 -> ind_addr x' = ind_addr x;
  gr_fresh bn : (bn < MAXFILE)%nat -> addr_of x V bn = 0 -> addr_of x' V' bn <> 0 ->
    in_use sb V (addr_of x' V' bn) = false;
  gr_fresh_ind : ind_addr x = 0 -> ind_addr x' <> 0 -> in_use sb V (ind_addr x') = false;
  gr_other z : 0 <= z < sb_size sb -> in_use sb V z = true ->
    (forall b, 0 <= b < sb_size sb -> BBLOCK b sb <> z) -> z <> ind_addr x \/ z = 0 -> V' z = V z;
  gr_used z : 0 <= z < sb_size sb -> in_use sb V z = true -> in_use sb V' z = true
}.

Section fgrown.
Context (sb : superblock) (Hsb : sb_ok sb).
Implicit Types (x : inode) (V : disk) (a b z : Z).

Lemma fgrown_refl x V : ino_wf sb x V -> map_wf sb V -> fgrown sb x V x V.
Proof. intros Hx Hm. split; try done. by destruct x. Qed.

Lemma fgrown_trans x V x1 V1 x2 V2 :
  ino_wf sb x V -> fgrown sb x V x1 V1 -> fgrown sb x1 V1 x2 V2 -> fgrown sb x V x2 V2.
Proof.
  intros Wx G1 G2. split.
  - apply G2.
  - apply G2.
  - rewrite (gr_x _ _ _ _ _ G2), (gr_x _ _ _ _ _ G1). by destruct x.
  - intros bn Hbn. rewrite (gr_content _ _ _ _ _ G2) by done. by apply (gr_content _ _ _ _ _ G1).
  - intros bn Hbn Ha. assert (E := gr_keep _ _ _ _ _ G1 bn Hbn Ha). rewrite <- E.
    apply (gr_keep _ _ _ _ _ G2); [done|]. by rewrite E.
  - intros Ha. assert (E := gr_ind _ _ _ _ _ G1 Ha). rewrite <- E. apply (gr_ind _ _ _ _ _ G2). by rewrite E.
  - intros bn Hbn Ha Ha2. destruct (decide (addr_of x1 V1 bn = 0)) as [E|E].
    + assert (F := gr_fresh _ _ _ _ _ G2 bn Hbn E Ha2).
      destruct (in_use sb V (addr_of x2 V2 bn)) eqn:U; [|done].
      rewrite (gr_used _ _ _ _ _ G1) in F; [done| |done].
      destruct (iw_data _ _ _ (gr_wf _ _ _ _ _ G2) bn Hbn Ha2) as [Hr _ _ _]. lia.
    + rewrite (gr_keep _ _ _ _ _ G2) by done. by apply (gr_fresh _ _ _ _ _ G1).
  - intros Ha Ha2. destruct (decide (ind_addr x1 = 0)) as [E|E].
    + assert (F := gr_fresh_ind _ _ _ _ _ G2 E Ha2).
      destruct (in_use sb V (ind_addr x2)) eqn:U; [|done].
      rewrite (gr_used _ _ _ _ _ G1) in F; [done| |done].
      destruct (iw_ind _ _ _ (gr_wf _ _ _ _ _ G2) Ha2) as [Hr _ _ _]. lia.
    + rewrite (gr_ind _ _ _ _ _ G2) by done. by apply (gr_fresh_ind _ _ _ _ _ G1).
  - intros z Hz Hu Hm Hi. rewrite (gr_other _ _ _ _ _ G2 z); [by apply (gr_other _ _ _ _ _ G1)|done|by apply (gr_used _ _ _ _ _ G1)|done|].
    destruct (decide (z = 0)) as [|Hz0]; [by right|left]. destruct Hi as [Hi|]; [|done].
    intros ->. destruct (decide (ind_addr x = 0)) as [E|E].
    + by rewrite (gr_fresh_ind _ _ _ _ _ G1) in Hu.
    + by rewrite (gr_ind _ _ _ _ _ G1) in Hi.
  - intros z Hz Hu. apply (gr_used _ _ _ _ _ G2); [done|]. by apply (gr_used _ _ _ _ _ G1).
Qed.

(** One fresh block [b], for a block of the file or as the indirect block. *)
Record fresh_step (b : Z) (x : inode) (V : disk) (x' : inode) (V' : disk) : Prop := {
  fs_x : x' = set_i_addrs (i_addrs x') x;
  fs_len : length (i_addrs x') = S NDIRECT;
  fs_map : map_wf sb V';
  fs_range : 0 <= b < sb_size sb;
  fs_free : in_use sb V b = false;
  fs_block : data_block sb V' b;
  fs_zero : V' b = replicate BSIZE 0;
  fs_addr bn : (bn < MAXFILE)%nat -> addr_of x' V' bn = addr_of x V bn \/ addr_of x V bn = 0 /\ addr_of x' V' bn = b;
  fs_one bn bn' : (bn < MAXFILE)%nat -> (bn' < MAXFILE)%nat ->
    addr_of x' V' bn = b -> addr_of x' V' bn' = b -> bn = bn';
  fs_ind : ind_addr x' = ind_addr x \/
    ind_addr x = 0 /\ ind_addr x' = b /\ forall bn, (bn < MAXFILE)%nat -> addr_of x' V' bn <> b;
  fs_data a : data_block sb V a -> data_block sb V' a;
  fs_other z : 0 <= z < sb_size sb -> in_use sb V z = true ->
    (forall b, 0 <= b < sb_size sb -> BBLOCK b sb <> z) -> z <> ind_addr x \/ z = 0 -> V' z = V z;
  fs_used z : 0 <= z < sb_size sb -> in_use sb V z = true -> in_use sb V' z = true
}.

Lemma fresh_grown b x V x' V' : ino_wf sb x V -> fresh_step b x V x' V' -> fgrown sb x V x' V'.
Proof.
  intros Wx F. assert (Hb0 : b <> 0) by (destruct (fs_block _ _ _ _ _ F) as [? _ _ _]; lia).
  assert (Hold : forall bn, (bn < MAXFILE)%nat -> addr_of x V bn <> 0 -> addr_of x V bn <> b).
  { intros bn Hbn Ha. eapply data_block_ne; [by apply (iw_data _ _ _ Wx)|apply F]. }
  assert (Hkeep : forall bn, (bn < MAXFILE)%nat -> addr_of x V bn <> 0 -> addr_of x' V' bn = addr_of x V bn).
  { intros bn Hbn Ha. by destruct (fs_addr _ _ _ _ _ F bn Hbn) as [?|[? _]]. }
  assert (Hcase : forall bn, (bn < MAXFILE)%nat -> addr_of x' V' bn <> 0 ->
    addr_of x' V' bn = b \/ addr_of x V bn <> 0 /\ addr_of x' V' bn = addr_of x V bn).
  { intros bn Hbn Ha. destruct (fs_addr _ _ _ _ _ F bn Hbn) as [E|[_ E]]; [right|by left]. by rewrite E in Ha. }
  split; try apply F.
  - split; [apply F|..].
    + intros bn Hbn Ha. destruct (Hcase bn Hbn Ha) as [->|[H0 ->]]; [apply F|]. by apply F, (iw_data _ _ _ Wx).
    + intros Ha. destruct (fs_ind _ _ _ _ _ F) as [E|(_ & E & _)]; rewrite E in *; [|apply F].
      by apply F, (iw_ind _ _ _ Wx).
    + intros bn bn' Hbn Hbn' Ha E. assert (Ha' := Ha). rewrite E in Ha'.
      destruct (Hcase bn Hbn Ha) as [Eb|[H0 E0]], (Hcase bn' Hbn' Ha') as [Eb'|[H0' E0']].
      * by apply (fs_one _ _ _ _ _ F).
      * exfalso. apply (Hold bn' Hbn' H0'). congruence.
      * exfalso. apply (Hold bn Hbn H0). congruence.
      * apply (iw_inj _ _ _ Wx); [done..|congruence].
    + intros bn Hbn Ha. destruct (Hcase bn Hbn Ha) as [Eb|[H0 E0]].
      * destruct (fs_ind _ _ _ _ _ F) as [E|(_ & E & Hno)]; [|by destruct (Hno bn Hbn)]. rewrite E, Eb.
        destruct (decide (ind_addr x = 0)); [congruence|]. intros E'. symmetry in E'.
        apply (data_block_ne sb V (ind_addr x) b); [by apply (iw_ind _ _ _ Wx)|apply F|done].
      * rewrite E0. destruct (fs_ind _ _ _ _ _ F) as [E|(_ & E & Hno)]; rewrite E; [by apply (iw_noind _ _ _ Wx)|by apply Hold].
  - intros bn Hbn. unfold fblock. destruct (fs_addr _ _ _ _ _ F bn Hbn) as [E|[E0 E]].
    + rewrite E. destruct (Z.eqb_spec (addr_of x V bn) 0) as [|Ha]; [done|].
      destruct (iw_data _ _ _ Wx bn Hbn Ha). apply F; [lia|done|done|]. left. by apply (iw_noind _ _ _ Wx).
    + rewrite E0, E. cbn. destruct (Z.eqb_spec b 0); [done|]. apply F.
  - done.
  - intros Ha. by destruct (fs_ind _ _ _ _ _ F) as [?|(? & _)].
  - intros bn Hbn Ha Ha'. destruct (Hcase bn Hbn Ha') as [->|[? _]]; [apply F|done].
  - intros Ha Ha'. destruct (fs_ind _ _ _ _ _ F) as [E|(_ & -> & _)]; [congruence|apply F].
Qed.

(** *** The three ways *)

Lemma ind_zero (j : nat) : (j < NINDIRECT)%nat -> ind j (replicate BSIZE 0) = 0.
Proof.
  intros Hj. assert (E : (4 * j + (4 + (BSIZE - 4 - 4 * j)) = BSIZE)%nat) by (change NINDIRECT with 256%nat in *; change BSIZE with 1024%nat in *; lia).
  unfold ind, get_le, slice. rewrite <- E, replicate_add, drop_app_length' by by rewrite length_replicate.
  rewrite replicate_add, take_app_length' by by rewrite length_replicate. done.
Qed.

Lemma ind_put (j j' : nat) b (l : list Z) :
  length l = BSIZE -> (j < NINDIRECT)%nat -> (j' < NINDIRECT)%nat -> 0 <= b < 2 ^ 32 ->
  ind j' (put32 (4 * j) b l) = if decide (j' = j) then b else ind j' l.
Proof.
  intros Hl Hj Hj' Hb. change NINDIRECT with 256%nat in *. change BSIZE with 1024%nat in *. unfold ind. case_decide as E.
  - subst j'. rewrite get_put_same by lia. apply Z.mod_small. done.
  - apply get_put_other; lia.
Qed.

(** The addresses do not depend on what an allocation changes. *)
Lemma addr_alloc x V b bn :
  ino_wf sb x V -> map_wf sb V -> 0 <= b < sb_size sb -> in_use sb V b = false ->
  addr_of x (alloc_view sb b V) bn = addr_of x V bn.
Proof using Hsb.
  intros Wx Hm Hb Hf. unfold addr_of. destruct (Nat.ltb_spec bn NDIRECT); [done|].
  destruct (Z.eqb_spec (ind_addr x) 0); [done|].
  destruct (data_block_alloc sb Hsb V b (ind_addr x)) as [-> _]; [done..|by apply (iw_ind _ _ _ Wx)|done].
Qed.

Section one.
Context (x : inode) (V : disk) (b : Z).
Context (Wx : ino_wf sb x V) (Hm : map_wf sb V) (Hb : 0 <= b < sb_size sb) (Hf : in_use sb V b = false).

Lemma fresh_ne (bn : nat) : (bn < MAXFILE)%nat -> addr_of x V bn <> b.
Proof using Wx Hm Hb Hf Hsb.
  intros Hbn E. destruct (map_wf_alloc sb Hsb V b Hm Hb Hf) as (H0 & _).
  apply (data_block_ne sb V (addr_of x V bn) b); [|done|done]. apply (iw_data _ _ _ Wx); [done|lia].
Qed.

Lemma fresh_point (x' : inode) (V' : disk) (bn0 : nat) :
  (bn0 < MAXFILE)%nat -> addr_of x V bn0 = 0 ->
  (forall bn, (bn < MAXFILE)%nat -> addr_of x' V' bn = if decide (bn = bn0) then b else addr_of x V bn) ->
  (forall bn, (bn < MAXFILE)%nat -> addr_of x' V' bn = addr_of x V bn \/ addr_of x V bn = 0 /\ addr_of x' V' bn = b) /\
  (forall bn bn', (bn < MAXFILE)%nat -> (bn' < MAXFILE)%nat -> addr_of x' V' bn = b -> addr_of x' V' bn' = b -> bn = bn').
Proof using Wx Hm Hb Hf Hsb.
  intros Hbn0 H0 HA. split.
  - intros bn Hbn. rewrite HA by done. case_decide as E; [right|by left]. by subst bn.
  - intros bn bn' Hbn Hbn' E E'. rewrite HA in E, E' by done. pose proof (fresh_ne bn Hbn). pose proof (fresh_ne bn' Hbn').
    repeat case_decide; congruence.
Qed.

Lemma fresh_direct (bn : nat) :
  (bn < NDIRECT)%nat -> addr_of x V bn = 0 ->
  let x' := set_i_addrs (<[bn := b]> (i_addrs x)) x in
  fresh_step b x V x' (alloc_view sb b V) /\ addr_of x' (alloc_view sb b V) bn = b.
Proof using Wx Hm Hb Hf Hsb.
  intros Hbn H0 x'. set (V' := alloc_view sb b V).
  destruct (map_wf_alloc sb Hsb V b Hm Hb Hf) as (Hb0 & Hm' & Hd'). assert (Hlen := iw_len _ _ _ Wx).
  destruct (alloc_view_spec sb V b) as (_ & _ & A3 & A4 & _); [done|apply Hm..|done|done|].
  assert (Ei : ind_addr x' = ind_addr x).
  { unfold ind_addr, x'. cbn. rewrite !nth_lookup, list_lookup_insert_ne; [done|]. unfold NDIRECT in *. lia. }
  assert (HA : forall bn', (bn' < MAXFILE)%nat -> addr_of x' V' bn' = if decide (bn' = bn) then b else addr_of x V bn').
  { intros bn' _. case_decide as E.
    - subst bn'. unfold addr_of. destruct (Nat.ltb_spec bn NDIRECT); [|lia]. unfold x'. cbn.
      by rewrite nth_lookup, list_lookup_insert_eq by lia.
    - rewrite <- (addr_alloc x V b bn') by done. unfold addr_of. rewrite Ei.
      destruct (Nat.ltb_spec bn' NDIRECT); [|done]. unfold x'. cbn. by rewrite !nth_lookup, list_lookup_insert_ne. }
  assert (HbnM : (bn < MAXFILE)%nat) by (unfold MAXFILE; lia).
  destruct (fresh_point x' V' bn) as [P1 P2]; [done..|]. split; [|by rewrite HA, decide_True].
  split; [done|unfold x'; cbn; by rewrite length_insert|done..|by left| | |].
  - intros a Ha. by apply data_block_alloc.
  - intros z Hz Hu Hn _. by apply alloc_other.
  - intros z Hz Hu. unfold V'. rewrite A4 by done. by case_decide.
Qed.

Lemma fresh_indirect :
  ind_addr x = 0 ->
  let x' := set_i_addrs (<[NDIRECT := b]> (i_addrs x)) x in
  fresh_step b x V x' (alloc_view sb b V) /\ ind_addr x' = b.
Proof using Wx Hm Hb Hf Hsb.
  intros H0 x'. set (V' := alloc_view sb b V).
  destruct (map_wf_alloc sb Hsb V b Hm Hb Hf) as (Hb0 & Hm' & Hd'). assert (Hlen := iw_len _ _ _ Wx).
  destruct (alloc_view_spec sb V b) as (_ & _ & A3 & A4 & _); [done|apply Hm..|done|done|]. fold V' in A3.
  assert (Ei : ind_addr x' = b).
  { unfold ind_addr, x'. cbn. rewrite nth_lookup, list_lookup_insert_eq; [done|]. lia. }
  assert (HA : forall bn', (bn' < MAXFILE)%nat -> addr_of x' V' bn' = addr_of x V bn').
  { intros bn' Hbn'. unfold addr_of. destruct (Nat.ltb_spec bn' NDIRECT).
    - unfold x'. cbn. rewrite !nth_lookup, list_lookup_insert_ne; [done|lia].
    - rewrite Ei, H0, A3. cbn. destruct (Z.eqb_spec b 0); [done|]. apply ind_zero. unfold MAXFILE in Hbn'. lia. }
  split; [|done]. split; [done|unfold x'; cbn; by rewrite length_insert|done..| | | | | |].
  - intros bn Hbn. left. by apply HA.
  - intros bn bn' Hbn Hbn' E. rewrite HA in E by done. by destruct (fresh_ne bn).
  - right. split_and!; [done|done|]. intros bn Hbn. rewrite HA by done. by apply fresh_ne.
  - intros a Ha. by apply data_block_alloc.
  - intros z Hz Hu Hn _. by apply alloc_other.
  - intros z Hz Hu. rewrite A4 by done. by case_decide.
Qed.

(** The blocks of the disk when an entry of the indirect block is set. *)
Definition entry_view (j : nat) : disk :=
  vset (ind_addr x) (put32 (4 * j) b (V (ind_addr x))) (alloc_view sb b V).

Lemma fresh_entry (bn : nat) :
  (NDIRECT <= bn < MAXFILE)%nat -> ind_addr x <> 0 -> addr_of x V bn = 0 ->
  fresh_step b x V x (entry_view (bn - NDIRECT)) /\ addr_of x (entry_view (bn - NDIRECT)) bn = b.
Proof using Wx Hm Hb Hf Hsb.
  intros Hbn Hi H0. set (j := (bn - NDIRECT)%nat). set (V' := entry_view j).
  destruct (map_wf_alloc sb Hsb V b Hm Hb Hf) as (Hb0 & Hm' & Hd').
  assert (Di := iw_ind _ _ _ Wx Hi). destruct (Di) as [Hir Hiu Hin Hil].
  destruct (alloc_view_spec sb V b) as (_ & _ & A3 & A4 & A5); [done|apply Hm..|done|done|].
  assert (Hne : ind_addr x <> b) by by eapply data_block_ne.
  assert (Hj : (j < NINDIRECT)%nat) by (unfold MAXFILE in Hbn; unfold j; lia).
  assert (Hbr : 0 <= b < 2 ^ 32) by (destruct (sbo_size _ Hsb); lia).
  assert (HA : forall bn', (bn' < MAXFILE)%nat -> addr_of x V' bn' = if decide (bn' = bn) then b else addr_of x V bn').
  { intros bn' Hbn'. unfold addr_of. destruct (Nat.ltb_spec bn' NDIRECT); [rewrite decide_False by lia; done|].
    destruct (Z.eqb_spec (ind_addr x) 0); [done|]. unfold V', entry_view. rewrite vset_eq, ind_put; [|done..| |done].
    - unfold j. repeat case_decide; done || lia.
    - unfold MAXFILE in Hbn'. lia. }
  assert (HU : forall z, 0 <= z < sb_size sb -> in_use sb V' z = in_use sb (alloc_view sb b V) z).
  { intros z Hz. by apply in_use_other. }
  assert (HV : forall z, z <> ind_addr x -> V' z = alloc_view sb b V z) by (intros z Hz; by apply vset_ne).
  assert (HD : forall a, data_block sb (alloc_view sb b V) a -> data_block sb V' a).
  { intros a [R U N L]. split; [done|by rewrite HU by lia|done|]. destruct (decide (a = ind_addr x)) as [->|E]; [|by rewrite HV].
    unfold V', entry_view. rewrite vset_eq. rewrite put_le_length; [done|]. change NINDIRECT with 256%nat in *. change BSIZE with 1024%nat in *. lia. }
  destruct (fresh_point x V' bn) as [P1 P2]; [lia|done|done|]. split; [|rewrite HA by lia; by rewrite decide_True].
  split; [by destruct x|apply Wx| |done|done|by apply HD|by rewrite HV|done|done|by left| | |].
  - destruct Hm' as [M1 M2 M3 M4]. split; [by apply map_ok_other| | |done].
    + intros z Hz. rewrite HU; by apply M2.
    + by rewrite HU by lia.
  - intros a Ha. apply HD. by apply data_block_alloc.
  - intros z Hz Hu Hn Hzi. rewrite HV by (destruct Hzi; congruence). by apply alloc_other.
  - intros z Hz Hu. rewrite HU, A4 by done. by case_decide.
Qed.

End one.
End fgrown.

(** ** [bmap] *)

(** What the operations on a file change: the buffers, the log and the inode
    [ip] in memory. *)
Record istep (ip : nat) (fs fs' : fsst) : Prop := {
  is_fs : fs' = set_fs_bufs (fs_bufs fs') (set_fs_log (fs_log fs') (set_fs_inodes (fs_inodes fs') fs));
  is_inodes j : j <> ip -> fs_inodes fs' !! j = fs_inodes fs !! j
}.

Record iframe (ip : nat) (s s' : kst) : Prop := {
  if_frame : bframe s s';
  if_fs : istep ip (k_fs s) (k_fs s')
}.

(** The state of a transaction that works on inode [ip]. *)
Record itxn (p ip : nat) (d start : Z) (sb : superblock) (x : inode) (V : disk) (bs : list Z) (H : gset Z) (s : kst) : Prop := {
  it_txn : txn p d start V bs H s;
  it_sb : fs_sb (k_fs s) = sb;
  it_ino : fs_inodes (k_fs s) !! ip = Some x;
  it_dev : i_dev x = d
}.

Section frames.
Implicit Types (s : kst).

#[global] Instance istep_preorder ip : PreOrder (istep ip).
Proof.
  split.
  - intros fs. split; [by destruct fs|done].
  - intros fs1 fs2 fs3 [E1 H1] [E2 H2]. split.
    + rewrite E1 in E2. rewrite E2. by destruct fs1.
    + intros j Hj. by rewrite H2, H1.
Qed.

#[global] Instance iframe_preorder ip : PreOrder (iframe ip).
Proof. split; [by intros s; split|]. intros s1 s2 s3 [A1 B1] [A2 B2]. split; by etrans. Qed.

Lemma iframe_tframe ip s s' : tframe s s' -> iframe ip s s'.
Proof. intros [F E]. split; [done|]. unfold fs_step in E. split; [by rewrite E|by rewrite E]. Qed.

Lemma iframe_sb ip s s' : iframe ip s s' -> fs_sb (k_fs s') = fs_sb (k_fs s).
Proof. intros [_ [E _]]. by rewrite E. Qed.

Lemma itxn_step p ip d start sb x V V' bs bs' H H' s s' :
  itxn p ip d start sb x V bs H s -> tframe s s' -> txn p d start V' bs' H' s' ->
  itxn p ip d start sb x V' bs' H' s'.
Proof.
  intros [X Hsb Hx Hd] F X'. assert (E := tf_fs _ _ F). unfold fs_step in E.
  split; [done|by rewrite E|by rewrite E|done].
Qed.

End frames.

Section bmap.
Context {W : World} {D : Disk} {DS : DiskSpec} {T : Patience}.
Context (p ip : nat) (d start : Z) (sb : superblock) (Hsb : sb_ok sb) (Hdr : 0 <= d < 2 ^ 32).
Implicit Types (V : disk) (x : inode) (bs : list Z) (H : gset Z) (s : kst).

Lemma wp_updi x V bs H f Q s :
  itxn p ip d start sb x V bs H s -> i_dev (f x) = i_dev x ->
  (forall s', iframe ip s s' -> itxn p ip d start sb (f x) V bs H s' -> (forall H0, tkeeps d H0 s s') ->
     fs_disk (k_fs s') = fs_disk (k_fs s) -> Q tt s') ->
  wp (updi ip f) Q s.
Proof.
  intros [[B L N R O] Es Hx Hd] Hf HQ. unfold updi. apply wp_bind. eapply wp_geti; [exact Hx|]. apply wp_modify.
  assert (Hs := bs_quiet _ _ _ _ _ _ B). destruct (quiet_proc _ _ Hs) as [q Hq].
  set (s' := upd_fs _ s). assert (F : bframe s s').
  { split; [by apply frame_upd|done]. }
  apply HQ; [|split; [split; [|done..]|done| |congruence]|by intros ? ? ?|done].
  - split; [done|]. split; [by cbn; destruct (k_fs s)|]. intros j Hj. cbn. by rewrite list_lookup_alter_ne.
  - apply (bst_intro p d V _ _ s _ q Hs (bf_frame _ _ F) Hq). by destruct (bs_cache _ _ _ _ _ _ B q Hq).
  - cbn. by rewrite list_lookup_alter_eq, Hx.
Qed.

Lemma clear_data V a : data_block sb V a -> clear_of_map sb V {[a]}.
Proof. intros [Hr Hu Hn _] b Hb. specialize (Hn b Hb). split; [set_solver|]. intros Hf ->%elem_of_singleton. congruence. Qed.

(** A fresh block is put into [ip->addrs[k]]. *)
Lemma wp_alloc_addr k x V bs Q s :
  itxn p ip d start sb x V bs ∅ s -> (k < length (i_addrs x))%nat -> map_ok sb V -> in_use sb V 0 = true ->
  0 < sb_size sb -> (length bs + 2 < LOGBLOCKS)%nat ->
  (forall b s', 0 <= b < sb_size sb -> in_use sb V b = false -> iframe ip s s' ->
    itxn p ip d start sb (set_i_addrs (<[k := b]> (i_addrs x)) x) (alloc_view sb b V)
      (record b (record (BBLOCK b sb) bs)) ∅ s' -> Q b s') ->
  (forall s', (forall b, 0 <= b < sb_size sb -> in_use sb V b = true) -> iframe ip s s' ->
    itxn p ip d start sb x V bs ∅ s' -> Q 0 s') ->
  wp (addr ← balloc d; if addr =? 0 then mret 0 else set_addr ip k addr;; mret addr) Q s.
Proof using Hsb Hdr DS.
  intros I Hk Hm H0 Hs Hroom HQ1 HQ2. assert (Hn : NBUF = LOGBLOCKS) by done. destruct (I) as [X Es Hx Hd].
  apply wp_bind. eapply (wp_balloc p d start V bs ∅ sb); [done..|intros b _; set_solver|rewrite size_empty; lia|lia| |].
  - intros b s1 Hb Hf _ F X1 _. assert (b <> 0) by (intros ->; congruence). destruct (Z.eqb_spec b 0); [done|].
    assert (I1 := itxn_step _ _ _ _ _ _ _ _ _ _ _ _ _ _ I F X1).
    apply wp_bind. unfold set_addr. apply wp_bind. eapply wp_get_addr; [apply I1|done|].
    eapply wp_updi; [exact I1|done|]. intros s2 F2 I2 _ _. apply wp_ret. apply HQ1; [done|done| |done].
    etrans; [by apply iframe_tframe|done].
  - intros s1 Hall F X1 _. cbn. apply wp_ret. apply HQ2; [done|by apply iframe_tframe|by eapply itxn_step].
Qed.

(** After [bmap] the file may have grown, with at most [k] more blocks in the
    log; a block is only missing when the disk is full. *)
Record mapped_to (x : inode) (V : disk) (bs : list Z) (k bn : nat) (s : kst)
    (x' : inode) (V' : disk) (bs' : list Z) (s' : kst) : Prop := {
  mt_frame : iframe ip s s';
  mt_txn : itxn p ip d start sb x' V' bs' ∅ s';
  mt_grown : fgrown sb x V x' V';
  mt_log : bs ⊆ bs' /\ (length bs' <= length bs + k)%nat;
  mt_full : addr_of x' V' bn = 0 -> forall b, 0 <= b < sb_size sb -> in_use sb V' b = true
}.

Lemma record_two b z bs : bs ⊆ record b (record z bs) /\ (length (record b (record z bs)) <= length bs + 2)%nat.
Proof.
  split; [intros y Hy; rewrite !elem_of_record; tauto|].
  pose proof (record_length z bs). pose proof (record_length b (record z bs)). lia.
Qed.

Lemma wp_bmap_entry bn x V bs Q s :
  itxn p ip d start sb x V bs ∅ s -> ino_wf sb x V -> map_wf sb V -> (NDIRECT <= bn < MAXFILE)%nat -> ind_addr x <> 0 ->
  (length bs + 3 <= LOGBLOCKS)%nat ->
  (forall V' bs' s', mapped_to x V bs 3 bn s x V' bs' s' -> Q (addr_of x V' bn) s') ->
  wp (bp ← bread d (ind_addr x);
      b ← getb bp;
      let addr := ind (bn - NDIRECT) (b_data b) in
      addr ← (if addr =? 0 then
                addr ← balloc d;
                when (negb (addr =? 0)) (upd_data bp (put32 (4 * (bn - NDIRECT)) addr);; log_write bp);;
                mret addr
              else mret addr);
      brelse bp;; mret addr) Q s.
Proof using Hsb Hdr DS.
  intros I Wx Hm Hbn Hi Hroom HQ. assert (Hn : NBUF = LOGBLOCKS) by done. set (ia := ind_addr x) in *.
  destruct (iw_ind _ _ _ Wx Hi) as [Hir Hiu Hin Hil]. fold ia in Hir, Hiu, Hin, Hil.
  assert (Eaddr : addr_of x V bn = ind (bn - NDIRECT) (V ia)).
  { unfold addr_of. destruct (Nat.ltb_spec bn NDIRECT); [lia|]. fold ia. by destruct (Z.eqb_spec ia 0). }
  assert (Hir' : 0 <= ia < 2 ^ 31) by (destruct (sbo_size _ Hsb); lia).
  apply wp_bind. eapply (tx_bread p d start V bs ∅ ia); [apply I|set_solver|rewrite size_empty; right; lia|].
  intros bp s1 F1 X1 C1 _ Hc1. assert (I1 := itxn_step _ _ _ _ _ _ _ _ _ _ _ _ _ _ I F1 X1).
  apply wp_bind. eapply tx_getb; [exact X1|exact C1|]. intros b Eb _. rewrite Eb, <- Eaddr. cbn zeta.
  rewrite union_empty_r_L in *.
  destruct (Z.eqb_spec (addr_of x V bn) 0) as [E0|E0].
  - apply wp_bind, wp_bind. eapply (wp_balloc p d start V bs {[ia]} sb); [exact X1|apply I1|done|apply Hm|done|
      by apply clear_data, (iw_ind _ _ _ Wx)|rewrite size_singleton; lia|lia| |].
    + intros a s2 Ha Hf _ F2 X2 K2. assert (C2 := K2 ia bp ltac:(set_solver) C1).
      assert (a <> 0) by (intros ->; rewrite (mw_boot _ _ Hm) in Hf; done).
      destruct (Z.eqb_spec a 0); [done|]. cbn [negb when].
      destruct (fresh_entry sb Hsb x V a Wx Hm Ha Hf bn Hbn Hi E0) as [S Ea].
      set (bs2 := record a (record (BBLOCK a sb) bs)) in *. destruct (record_two a (BBLOCK a sb) bs) as [Hsub Hl2].
      apply wp_bind, wp_bind. eapply (tx_upd _ _ _ _ _ _ ia); [exact X2|set_solver|done|]. intros s3 F3 X3 K3 _.
      assert (C3 := K3 {[ia]} ia bp ltac:(set_solver) C2).
      assert (EV : alloc_view sb a V ia = V ia).
      { apply data_block_alloc; [done..|]. by apply (iw_ind _ _ _ Wx). }
      rewrite EV in X3. fold (entry_view sb x V a (bn - NDIRECT)) in X3.
      eapply (tx_log_write _ _ _ _ _ _ ia); [exact X3|set_solver|done|done|fold bs2 in Hl2; lia|].
      intros s4 F4 X4 K4 _. assert (C4 := K4 {[ia]} ia bp ltac:(set_solver) C3). apply wp_ret.
      apply wp_bind. eapply (tx_brelse _ _ _ _ _ _ ia); [exact X4|set_solver|done|left; rewrite elem_of_record; by left|].
      intros s5 F5 X5 K5. apply wp_ret. rewrite difference_diag_L in X5. rewrite <- Ea.
      assert (F : tframe s s5) by (do 4 (etrans; [eassumption|]); done).
      eapply HQ. split; [by apply iframe_tframe|by eapply (itxn_step _ _ _ _ _ _ _ _ _ _ _ _ s)|by eapply fresh_grown| |by rewrite Ea].
      pose proof (record_length ia bs2). split; [|fold bs2 in Hl2; lia].
      intros y Hy. rewrite elem_of_record. right. by apply Hsub.
    + intros s2 Hall F2 X2 K2. assert (C2 := K2 ia bp ltac:(set_solver) C1). cbn. apply wp_bind, wp_ret, wp_ret.
      apply wp_bind. eapply (tx_brelse _ _ _ _ _ _ ia); [exact X2|set_solver|done| |].
      { destruct Hc1 as [?|Hc1]; [by left|right]. rewrite <- Hc1. rewrite (tf_fs _ _ F2). done. }
      intros s3 F3 X3 K3. apply wp_ret. rewrite difference_diag_L in X3. rewrite <- E0.
      assert (F : tframe s s3) by (do 2 (etrans; [eassumption|]); done).
      eapply HQ. split; [by apply iframe_tframe|by eapply (itxn_step _ _ _ _ _ _ _ _ _ _ _ _ s)|by apply fgrown_refl|split; [done|lia]|done].
  - apply wp_bind, wp_ret. apply wp_bind. eapply (tx_brelse _ _ _ _ _ _ ia); [exact X1|set_solver|done|done|].
    intros s2 F2 X2 K2. apply wp_ret. rewrite difference_diag_L in X2.
    assert (F : tframe s s2) by (etrans; eassumption).
    eapply HQ. split; [by apply iframe_tframe|by eapply (itxn_step _ _ _ _ _ _ _ _ _ _ _ _ s)|by apply fgrown_refl|split; [done|lia]|done].
Qed.

Lemma wp_bmap bn x V bs Q s :
  itxn p ip d start sb x V bs ∅ s -> ino_wf sb x V -> map_wf sb V -> (bn < MAXFILE)%nat ->
  (length bs + 5 <= LOGBLOCKS)%nat ->
  (forall x' V' bs' s', mapped_to x V bs 5 bn s x' V' bs' s' -> Q (addr_of x' V' bn) s') ->
  wp (bmap ip (Z.of_nat bn)) Q s.
Proof using Hsb Hdr DS.
  intros I Wx Hm Hbn Hroom HQ. unfold bmap. apply wp_bind. eapply wp_geti; [apply I|]. rewrite (it_dev _ _ _ _ _ _ _ _ _ _ I).
  assert (Hlen := iw_len _ _ _ Wx). assert (Hsame : addr_of x V bn <> 0 -> mapped_to x V bs 5 bn s x V bs s).
  { intros Ha. split; [done|done|by apply fgrown_refl|split; [done|lia]|done]. }
  destruct (Z.ltb_spec (Z.of_nat bn) (Z.of_nat NDIRECT)) as [Hlt|Hge].
  - rewrite Nat2Z.id. assert (Ea : addr_of x V bn = nth bn (i_addrs x) 0).
    { unfold addr_of. destruct (Nat.ltb_spec bn NDIRECT); [done|lia]. }
    apply wp_bind. eapply wp_get_addr; [apply I|rewrite Hlen; lia|]. rewrite <- Ea.
    destruct (Z.eqb_spec (addr_of x V bn) 0) as [E0|E0]; [|apply wp_ret; eapply HQ, Hsame, E0].
    apply (wp_alloc_addr bn x V bs); [done|rewrite Hlen; lia|apply Hm|apply Hm|apply Hm|lia| |].
    + intros b s' Hb Hf F I'. destruct (fresh_direct sb Hsb x V b Wx Hm Hb Hf bn) as [S Eb]; [lia|done|]. cbn zeta in S, Eb.
      rewrite <- Eb at 1. destruct (record_two b (BBLOCK b sb) bs). eapply HQ.
      split; [done|done|by eapply fresh_grown|split; [done|lia]|].
      rewrite Eb. intros ->. rewrite (mw_boot _ _ Hm) in Hf. done.
    + intros s' Hall F I'. rewrite <- E0. eapply HQ. split; [done|done|by apply fgrown_refl|split; [done|lia]|done].
  - destruct (Z.ltb_spec (Z.of_nat bn - Z.of_nat NDIRECT) (Z.of_nat NINDIRECT)); [|unfold MAXFILE in Hbn; lia].
    replace (Z.to_nat (Z.of_nat bn - Z.of_nat NDIRECT)) with (bn - NDIRECT)%nat by lia.
    apply wp_bind. eapply wp_get_addr; [apply I|rewrite Hlen; lia|]. fold (ind_addr x).
    destruct (Z.eqb_spec (ind_addr x) 0) as [E0|E0].
    + apply wp_bind, (wp_alloc_addr NDIRECT x V bs); [done|rewrite Hlen; lia|apply Hm|apply Hm|apply Hm|lia| |].
      * intros b s1 Hb Hf F I1. destruct (fresh_indirect sb Hsb x V b Wx Hm Hb Hf E0) as [S Eb]. cbn zeta in S, Eb.
        set (x1 := set_i_addrs _ x) in *. set (V1 := alloc_view sb b V) in *. rewrite <- Eb.
        assert (G := fresh_grown sb b x V x1 V1 Wx S). destruct (record_two b (BBLOCK b sb) bs) as [Hsub Hl].
        assert (Hi1 : ind_addr x1 <> 0) by (rewrite Eb; intros ->; rewrite (mw_boot _ _ Hm) in Hf; done).
        destruct (Z.eqb_spec (ind_addr x1) 0); [done|].
        eapply wp_bmap_entry; [exact I1|apply G|apply G|lia|done|lia|]. intros V2 bs2 s2 M. eapply HQ.
        destruct M as [F2 I2 G2 [Hsub2 Hl2] Hfull]. split; [by etrans|done|by eapply fgrown_trans| |done].
        split; [by etrans|lia].
      * intros s1 Hall F I1. cbn. apply wp_ret. assert (Ea : addr_of x V bn = 0).
        { unfold addr_of. destruct (Nat.ltb_spec bn NDIRECT); [done||lia|]. by rewrite E0. }
        rewrite <- Ea. eapply HQ. split; [done|done|by apply fgrown_refl|split; [done|lia]|done].
    + apply wp_bind, wp_ret. destruct (Z.eqb_spec (ind_addr x) 0); [done|].
      eapply wp_bmap_entry; [exact I|done|done|lia|done|lia|]. intros V2 bs2 s2 [F2 I2 G2 [Hsub2 Hl2] Hfull]. eapply HQ.
      split; [done|done|done|split; [done|lia]|done].
Qed.

End bmap.
