(* ===== verification/Writei.v ===== *)
(** * Writing a file ([writei] and [iupdate] of [fs.c])

    [wrote] is what writing bytes at an offset does to a file and its disk:
    the bytes of the file in that range are the ones written, all others are
    as before, the file owns the blocks it had and blocks that were free, and
    no other block that is in use has changed. [writei] does this, stores the
    inode, and what [readi] then delivers is what was written. *)

From stdpp Require Import base gmap strings numbers list.
From S2P Require Import Prelude State Spinlock Strings Printf Bytes Memory Kalloc Vm PageTable UserMem Proc.
From S2P Require Import Sleeplock Quiet Bio Cache Log LogSpec Txn Uio Fs Bitmap FileData FileWrite.

(** ** The contents of a file that is written *)

(** The blocks of a file. *)
Definition owns (x : inode) (V : disk) (a : Z) : Prop :=
  a <> 0 /\ (a = ind_addr x \/ exists bn, (bn < MAXFILE)%nat /\ a = addr_of x V bn).

Record wrote (sb : superblock) (x : inode) (V : disk) (off : nat) (data : list Z) (x' : inode) (V' : disk) : Prop := {
  wr_wf : ino_wf sb x' V';
  wr_map : map_wf sb V';
  wr_x : x' = set_i_addrs (i_addrs x') x;
  wr_bytes i : (i < MAXFILE * BSIZE)%nat -> fbyte x' V' i =
    if decide (off <= i < off + length data)%nat then nth (i - off) data 0 else fbyte x V i;
  wr_there i : (i < length data)%nat -> addr_of x' V' ((off + i) / BSIZE) <> 0;
  wr_keep bn : (bn < MAXFILE)%nat -> addr_of x V bn <> 0 -> addr_of x' V' bn <> 0;
  wr_owns a : owns x' V' a -> owns x V a \/ in_use sb V a = false;
  wr_other z : 0 <= z < sb_size sb -> in_use sb V z = true ->
    (forall b, 0 <= b < sb_size sb -> BBLOCK b sb <> z) -> ~ owns x V z -> V' z = V z;
  wr_used z : 0 <= z < sb_size sb -> in_use sb V z = true -> in_use sb V' z = true
}.

Section wrote.
Context (sb : superblock) (Hsb : sb_ok sb).
Implicit Types (x : inode) (V : disk) (data : list Z).

Lemma block_lt i : (i < MAXFILE * BSIZE)%nat -> (i / BSIZE < MAXFILE)%nat.
Proof. intros H. apply Nat.div_lt_upper_bound; [pose proof BSIZE_pos; lia|lia]. Qed.

Lemma ino_blocks_ok x V : ino_wf sb x V -> blocks_ok x V.
Proof. intros Wx. split; [apply Wx|]. intros bn Hbn Ha. by destruct (iw_data _ _ _ Wx bn Hbn Ha). Qed.

Lemma owns_data x V a : ino_wf sb x V -> owns x V a -> data_block sb V a.
Proof. intros Wx [H0 [->|(bn & Hbn & ->)]]; [by apply (iw_ind _ _ _ Wx)|by apply (iw_data _ _ _ Wx)]. Qed.

(** A file that only grows. *)
Lemma wrote_grown x V off x' V' : fgrown sb x V x' V' -> wrote sb x V off [] x' V'.
Proof.
  intros G. split; try apply G.
  - intros i Hi. rewrite decide_False by (cbn; lia). unfold fbyte. by rewrite (gr_content _ _ _ _ _ G) by by apply block_lt.
  - cbn. lia.
  - intros bn Hbn Ha. by rewrite (gr_keep _ _ _ _ _ G).
  - intros a [H0 [->|(bn & Hbn & ->)]].
    + destruct (decide (ind_addr x = 0)) as [E|E]; [right; by apply G|left].
      rewrite (gr_ind _ _ _ _ _ G) by done. split; [done|by left].
    + destruct (decide (addr_of x V bn = 0)) as [E|E]; [right; by apply G|left].
      rewrite (gr_keep _ _ _ _ _ G) by done. split; [done|right; by exists bn].
  - intros z Hz Hu Hn Ho. apply G; [done..|]. destruct (decide (z = 0)); [by right|left].
    intros ->. apply Ho. split; [done|by left].
Qed.

(** A part of a block of the file is overwritten. *)
Lemma wrote_block x V off data a :
  ino_wf sb x V -> map_wf sb V -> (off / BSIZE < MAXFILE)%nat -> a = addr_of x V (off / BSIZE) -> a <> 0 ->
  (off mod BSIZE + length data <= BSIZE)%nat ->
  wrote sb x V off data x (vset a (splice (off mod BSIZE) data (V a)) V).
Proof.
  intros Wx Hm Hbn Ea Ha Hlen. set (bn := (off / BSIZE)%nat) in *. set (V' := vset _ _ _).
  assert (Da : data_block sb V a) by (rewrite Ea in *; by apply (iw_data _ _ _ Wx)).
  destruct (Da) as [Hr Hu Hn Hl].
  assert (Hni : ind_addr x <> a) by (rewrite Ea in *; intros E; by apply (iw_noind _ _ _ Wx bn)).
  assert (HV : forall z, z <> a -> V' z = V z) by (intros z Hz; by apply vset_ne).
  assert (HA : forall bn', addr_of x V' bn' = addr_of x V bn') by (intros bn'; unfold addr_of; by rewrite HV).
  assert (HU : forall z, 0 <= z < sb_size sb -> in_use sb V' z = in_use sb V z) by (intros z Hz; by apply in_use_other).
  assert (Hl' : length (V' a) = BSIZE) by (unfold V'; rewrite vset_eq, splice_length; lia).
  assert (HD : forall z, data_block sb V z -> data_block sb V' z).
  { intros z [R U N L]. split; [done|by rewrite HU by lia|done|]. destruct (decide (z = a)) as [->|E]; [done|by rewrite HV]. }
  split.
  - split; [apply Wx|..].
    + intros bn' Hbn'. rewrite HA. intros H0. by apply HD, (iw_data _ _ _ Wx).
    + intros H0. by apply HD, (iw_ind _ _ _ Wx).
    + intros b1 b2 H1 H2. rewrite !HA. by apply (iw_inj _ _ _ Wx).
    + intros bn' Hbn'. rewrite HA. by apply (iw_noind _ _ _ Wx).
  - destruct Hm as [M1 M2 M3 M4]. split; [by apply map_ok_other| |by rewrite HU by lia|done].
    intros z Hz. rewrite HU; by apply M2.
  - by destruct x.
  - intros i Hi. unfold fbyte, fblock. rewrite HA. destruct (decide (i / BSIZE = bn)%nat) as [Ei|Ei].
    + rewrite Ei, <- Ea. destruct (Z.eqb_spec a 0); [done|]. unfold V'. rewrite vset_eq, nth_lookup.
      pose proof (Nat.div_mod_eq i BSIZE). pose proof (Nat.div_mod_eq off BSIZE). fold bn in H0. rewrite Ei in H. case_decide as Hc.
      * replace (i mod BSIZE)%nat with (off mod BSIZE + (i - off))%nat by lia.
        rewrite splice_lookup_in by lia. by rewrite nth_lookup.
      * rewrite splice_lookup_out by lia. by rewrite nth_lookup.
    + rewrite decide_False.
      * destruct (Z.eqb_spec (addr_of x V (i / BSIZE)) 0) as [|Hi0]; [done|]. rewrite HV; [done|].
        rewrite Ea. intros E. apply Ei. apply (iw_inj _ _ _ Wx); [by apply block_lt|done..].
      * intros Hc. apply Ei. destruct (off_in_block off (i - off)) as [E _]; [lia|].
        by replace (off + (i - off))%nat with i in E by lia.
  - intros i Hi. destruct (off_in_block off i) as [-> _]; [lia|]. fold bn. rewrite HA. congruence.
  - intros bn' _. by rewrite HA.
  - intros z [H0 Hz]. left. split; [done|]. setoid_rewrite HA in Hz. done.
  - intros z _ _ _ Ho. apply HV. intros ->. apply Ho. split; [done|right]. by exists bn.
  - intros z Hz Hz'. by rewrite HU.
Qed.

Lemma wrote_app x V off d1 x1 V1 d2 x2 V2 :
  ino_wf sb x V -> wrote sb x V off d1 x1 V1 -> wrote sb x1 V1 (off + length d1) d2 x2 V2 ->
  (off + length d1 + length d2 <= MAXFILE * BSIZE)%nat -> wrote sb x V off (d1 ++ d2) x2 V2.
Proof.
  intros Wx A B Hlen. split.
  - apply B.
  - apply B.
  - rewrite (wr_x _ _ _ _ _ _ _ B), (wr_x _ _ _ _ _ _ _ A). by destruct x.
  - intros i Hi. rewrite (wr_bytes _ _ _ _ _ _ _ B), (wr_bytes _ _ _ _ _ _ _ A), length_app by done.
    repeat case_decide; try lia.
    + rewrite app_nth2 by lia. f_equal. lia.
    + by rewrite app_nth1 by lia.
  - intros i Hi. rewrite length_app in Hi. destruct (decide (i < length d1)%nat).
    + apply (wr_keep _ _ _ _ _ _ _ B); [apply block_lt; lia|]. by apply (wr_there _ _ _ _ _ _ _ A).
    + replace (off + i)%nat with (off + length d1 + (i - length d1))%nat by lia. apply (wr_there _ _ _ _ _ _ _ B). lia.
  - intros bn Hbn Ha. apply (wr_keep _ _ _ _ _ _ _ B); [done|]. by apply (wr_keep _ _ _ _ _ _ _ A).
  - intros a Ha. destruct (wr_owns _ _ _ _ _ _ _ B a Ha) as [H|H]; [by apply (wr_owns _ _ _ _ _ _ _ A)|right].
    destruct (in_use sb V a) eqn:E; [|done]. destruct (owns_data x2 V2 a) as [Hr _ _ _]; [apply B|done|].
    rewrite (wr_used _ _ _ _ _ _ _ A) in H; [done|lia|done].
  - intros z Hz Hu Hn Ho. rewrite (wr_other _ _ _ _ _ _ _ B); [by apply (wr_other _ _ _ _ _ _ _ A)|done| |done|].
    + by apply (wr_used _ _ _ _ _ _ _ A).
    + intros Ho'. destruct (wr_owns _ _ _ _ _ _ _ A z Ho') as [|E]; [done|congruence].
  - intros z Hz Hu. apply (wr_used _ _ _ _ _ _ _ B); [done|]. by apply (wr_used _ _ _ _ _ _ _ A).
Qed.

End wrote.

(** ** Where the bytes come from *)

Definition src_has (p : nat) (src : source) (data : list Z) (s : kst) : Prop :=
  match src with
  | FromLocal l => data `prefix_of` l
  | FromUser va => exists pr, k_procs s !! p = Some pr /\ addrspace (p_pagetable pr) s /\
      mapped (p_pagetable pr) (k_mem s) va (length data) /\ ubytes (p_pagetable pr) (k_mem s) va (length data) = data
  end.

Section source.
Implicit Types (p : nat) (s : kst) (data : list Z).

Lemma src_has_bframe p src data s s' : bframe s s' -> src_has p src data s -> src_has p src data s'.
Proof.
  intros F. destruct src; cbn; [|done]. intros (pr & Hp & Ha & Hm & Hd).
  destruct (frame_proc _ _ _ _ (bf_frame _ _ F) Hp) as (pr' & Hp' & (st & w & E & _)).
  assert (Em := f_equal k_mem (fr_core _ _ (bf_frame _ _ F))). assert (Ee := f_equal k_end (fr_core _ _ (bf_frame _ _ F))).
  cbn in Em, Ee. subst pr'. eexists. split; [exact Hp'|]. cbn. rewrite <- Em. split_and!; [|done..]. by eapply addrspace_ext, Ha.
Qed.

Lemma src_has_drop p src data m s : (m <= length data)%nat -> src_has p src data s -> src_has p (source_add src m) (drop m data) s.
Proof.
  intros Hm. destruct src as [va|l]; cbn.
  - intros (pr & Hp & Ha & Hmp & Hd). exists pr. rewrite (mapped_limit _ _ _ _ _ Hmp Hm), length_drop.
    split_and!; [done..| |].
    + eapply mapped_sub; [exact Hmp|lia].
    + replace (length data) with (m + (length data - m))%nat in Hd at 1 by lia.
      rewrite <- (f_equal (drop m) Hd), ubytes_add, drop_app_length'; [done|]. unfold ubytes. by rewrite length_fmap, length_seq.
  - intros [r ->]. exists r. rewrite drop_app_le by done. done.
Qed.

Lemma src_has_take p src data m s : (m <= length data)%nat -> src_has p src data s -> src_has p src (take m data) s.
Proof.
  intros Hm. destruct src as [va|l]; cbn.
  - intros (pr & Hp & Ha & Hmp & Hd). exists pr. rewrite length_take, Nat.min_l by done. split_and!; [done..| |].
    + rewrite <- (Z.add_0_r va). eapply (mapped_sub _ _ _ (length data) 0); [exact Hmp|lia].
    + replace (length data) with (m + (length data - m))%nat in Hd at 1 by lia.
      rewrite <- (f_equal (take m) Hd), ubytes_add, take_app_length'; [done|]. unfold ubytes. by rewrite length_fmap, length_seq.
  - intros Hp. etrans; [|exact Hp]. apply prefix_take.
Qed.

Lemma tx_touch p d start V bs H s :
  txn p d start V bs H s -> tframe s (upd_sync touch s) /\ txn p d start V bs H (upd_sync touch s).
Proof.
  intros X. destruct X as [B L ? ? O]. assert (Hs := bs_quiet _ _ _ _ _ _ B). destruct (quiet_proc _ _ Hs) as [q Hq].
  assert (F : frame s (upd_sync touch s)) by (apply frame_upd; [done|cbn; by rewrite touch_idem|done]).
  split; [by split; [split|]|]. split; [|done..]. apply (bst_intro p d V _ _ s _ q Hs F Hq). apply (bs_cache _ _ _ _ _ _ B q Hq).
Qed.

Lemma tx_copyin p d start V bs H src data Q s :
  txn p d start V bs H s -> src_has p src data s ->
  (forall s', tframe s s' -> txn p d start V bs H s' -> k_fs s' = k_fs s -> Q (0, data) s') ->
  wp (either_copyin src (length data)) Q s.
Proof.
  intros X Hs HQ. assert (Hq := bs_quiet _ _ _ _ _ _ (tx_bst _ _ _ _ _ _ _ X)). destruct src as [va|l]; cbn in Hs |- *.
  - destruct Hs as (pr & Hp & Ha & Hm & Hd). unfold my_pagetable.
    apply wp_bind, wp_bind, wp_myproc'; [by eapply quiet_wf|]. rewrite (quiet_running p) by done.
    apply wp_bind. eapply wp_deref; [done|]. apply wp_bind. eapply wp_getp; [exact Hp|]. apply wp_ret.
    destruct (tx_touch _ _ _ _ _ _ _ X). apply wp_copyin_user; [by apply (addrspace_ext _ s)|done|].
    cbn. rewrite Hd. by apply HQ.
  - destruct Hs as [r ->]. apply wp_ret. rewrite take_app_length. by apply HQ.
Qed.

End source.

(** ** The loop *)

Section writei.
Context {W : World} {D : Disk} {DS : DiskSpec} {T : Patience}.
Context (p ip : nat) (d start : Z) (sb : superblock) (Hsb : sb_ok sb) (Hdr : 0 <= d < 2 ^ 32).
Implicit Types (V : disk) (x : inode) (bs data : list Z) (s : kst).

(** One block is overwritten, then the rest runs. *)
Lemma wp_store {A} src off data rest x V bs (e : A) (K : KM A) Q s :
  let a := addr_of x V (off / BSIZE) in
  itxn p ip d start sb x V bs ∅ s -> ino_wf sb x V -> map_wf sb V -> (off / BSIZE < MAXFILE)%nat -> a <> 0 ->
  (off mod BSIZE + length data <= BSIZE)%nat -> src_has p src (data ++ rest) s -> (length bs < LOGBLOCKS)%nat ->
  (forall V' s', iframe ip s s' -> itxn p ip d start sb x V' (record a bs) ∅ s' -> wrote sb x V off data x V' ->
     src_has p (source_add src (length data)) rest s' -> wp K Q s') ->
  wp (bp ← bread d a; r ← either_copyin src (length data); upd_data bp (splice (off mod BSIZE) r.2);;
      if r.1 =? -1 then brelse bp;; mret e else log_write bp;; brelse bp;; K) Q s.
Proof using Hsb Hdr DS.
  intros a I Wx Hm Hbn Ha Hlen Hs Hroom HQ. assert (Hn : NBUF = LOGBLOCKS) by done.
  assert (Da : data_block sb V a) by by apply (iw_data _ _ _ Wx).
  assert (Har : 0 <= a < 2 ^ 31) by (destruct (db_range _ _ _ Da), (sbo_size _ Hsb); lia).
  apply wp_bind. eapply (tx_bread p d start V bs ∅ a); [apply I|apply not_elem_of_empty|rewrite size_empty; right; lia|].
  intros bp s1 F1 X1 C1 _ _. rewrite union_empty_r_L in X1.
  assert (Hs1 : src_has p src (data ++ rest) s1) by (eapply src_has_bframe; [apply F1|done]).
  apply (src_has_take p src _ (length data)) in Hs1; [|rewrite length_app; lia]. rewrite take_app_length in Hs1.
  apply wp_bind. eapply tx_copyin; [exact X1|exact Hs1|]. intros s2 F2 X2 E2. cbn [fst snd].
  assert (C2 : caches d a (fs_bufs (k_fs s2)) bp) by by rewrite E2.
  apply wp_bind. eapply (tx_upd _ _ _ _ _ _ a); [exact X2|by apply elem_of_singleton|done|]. intros s3 F3 X3 K3 _.
  assert (C3 := K3 {[a]} a bp ltac:(by apply elem_of_singleton) C2). change (0 =? -1) with false. cbv iota.
  apply wp_bind. eapply (tx_log_write _ _ _ _ _ _ a); [exact X3|by apply elem_of_singleton|done|done|done|]. intros s4 F4 X4 K4 _.
  assert (C4 := K4 {[a]} a bp ltac:(by apply elem_of_singleton) C3).
  apply wp_bind. eapply (tx_brelse _ _ _ _ _ _ a); [exact X4|by apply elem_of_singleton|done|left; rewrite elem_of_record; by left|].
  intros s5 F5 X5 _. rewrite difference_diag_L in X5.
  assert (F : tframe s s5) by (do 4 (etrans; [eassumption|]); done).
  eapply HQ; [by apply iframe_tframe|by eapply (itxn_step _ _ _ _ _ _ _ _ _ _ _ _ s)|by apply wrote_block|].
  eapply src_has_bframe; [apply F|]. apply (src_has_drop p src _ (length data)) in Hs; [|rewrite length_app; lia].
  by rewrite drop_app_length in Hs.
Qed.

(** No block is free. *)
Definition disk_full V : Prop := forall b, 0 <= b < sb_size sb -> in_use sb V b = true.

Lemma wp_writei_loop fuel k src (off n tot : nat) data x V bs Q s :
  itxn p ip d start sb x V bs ∅ s -> ino_wf sb x V -> map_wf sb V ->
  n = (tot + length data)%nat -> (length data <= fuel)%nat -> (off + length data <= MAXFILE * BSIZE)%nat ->
  Z.of_nat n < 2 ^ 31 -> src_has p src data s ->
  (data = [] \/ off mod BSIZE + length data <= k * BSIZE)%nat -> (length bs + 6 * k <= LOGBLOCKS)%nat ->
  (forall w x' V' bs' s', (w <= length data)%nat -> wrote sb x V off (take w data) x' V' ->
     iframe ip s s' -> itxn p ip d start sb x' V' bs' ∅ s' -> bs ⊆ bs' -> (length bs' <= length bs + 6 * k)%nat ->
     w = length data \/ disk_full V' -> Q (Z.of_nat (tot + w), Z.of_nat (off + w)) s') ->
  wp (writei_loop fuel ip src (Z.of_nat off) (Z.of_nat n) (Z.of_nat tot)) Q s.
Proof using Hsb Hdr DS.
  revert k src off tot data x V bs s. induction fuel as [|fuel IH];
    intros k src off tot data x V bs s I Wx Hm En Hf Hoff Hn Hs Hk Hroom HQ; cbn [writei_loop];
    destruct (Z.ltb_spec (Z.of_nat tot) (Z.of_nat n)) as [Hlt|Hge]; cbn [negb]; [lia|..].
  1, 3: apply wp_ret; assert (length data = 0)%nat as E0 by lia; specialize (HQ 0%nat x V bs s);
    rewrite !Nat.add_0_r, take_0 in HQ; apply HQ; [lia|by apply wrote_grown, fgrown_refl|done|done|done|lia|by left].
  assert (Hmx : Z.of_nat (MAXFILE * BSIZE) < 2 ^ 31) by by rewrite Nat2Z.inj_mul.
  pose proof BSIZE_pos as HB. pose proof (Nat.mod_upper_bound off BSIZE ltac:(lia)) as Hmod.
  destruct k as [|k]; [destruct Hk as [->|Hk]; cbn [length] in *; lia|].
  rewrite <- Nat2Z.inj_div. assert (Hbn : (off / BSIZE < MAXFILE)%nat) by (apply block_lt; lia).
  apply wp_bind. eapply (wp_bmap p ip d start sb); [done|done|exact I|done|done|done|lia|].
  intros x1 V1 bs1 s1 [F1 I1 G1 [Hsub1 Hl1] Hfull].
  destruct (Z.eqb_spec (addr_of x1 V1 (off / BSIZE)) 0) as [Ea|Ea].
  { apply wp_ret. specialize (HQ 0%nat x1 V1 bs1 s1). rewrite !Nat.add_0_r, take_0 in HQ.
    apply HQ; [lia|by apply wrote_grown|done|done|done|lia|]. right. intros b Hb. by apply Hfull. }
  apply wp_bind. eapply wp_geti; [apply I1|]. rewrite (it_dev _ _ _ _ _ _ _ _ _ _ I1).
  rewrite <- Nat2Z.inj_sub, portion_nat by lia. set (m := Nat.min (n - tot) (BSIZE - off mod BSIZE)).
  rewrite <- Nat2Z.inj_mod, !Nat2Z.id. cbv zeta.
  assert (Hml : (0 < m <= length data)%nat) by (unfold m; lia).
  assert (Hlm : length (take m data) = m) by (rewrite length_take; lia). rewrite <- Hlm.
  eapply (wp_store src off (take m data) (drop m data) x1 V1 bs1); [exact I1|apply G1|apply G1|done|done|rewrite Hlm; unfold m; lia| |lia|].
  { rewrite take_drop. eapply src_has_bframe; [apply F1|done]. }
  intros V2 s2 F2 I2 W2 Hs2. rewrite Hlm in *. rewrite wrap32_small, <- !Nat2Z.inj_add by lia.
  assert (W02 : wrote sb x V off (take m data) x1 V2).
  { apply (wrote_app sb x V off [] x1 V1 (take m data) x1 V2 Wx); [by apply wrote_grown|by rewrite Nat.add_0_r|cbn [length]; lia]. }
  pose proof (record_length (addr_of x1 V1 (off / BSIZE)) bs1).
  eapply (IH k _ (off + m)%nat (tot + m)%nat (drop m data)); [exact I2|apply W2|apply W2|rewrite length_drop; lia|rewrite length_drop; lia|rewrite length_drop; lia|done|done| |lia|].
  { rewrite length_drop. destruct (decide (m = length data)) as [Em|Em]; [left; rewrite Em; apply drop_all|right].
    destruct Hk as [->|Hk]; [cbn [length] in *; lia|]. assert (Em2 : m = (BSIZE - off mod BSIZE)%nat) by (unfold m in *; lia).
    assert (Eo : ((off + m) mod BSIZE = 0)%nat); [|rewrite Eo; lia].
    pose proof (Nat.div_mod_eq off BSIZE). symmetry. apply (Nat.mod_unique _ _ (S (off / BSIZE))); lia. }
  intros w x3 V3 bs3 s3 Hw W3 F3 I3 Hsub3 Hl3 Hend. rewrite length_drop in Hw, Hend.
  rewrite <- !Nat.add_assoc. eapply (HQ (m + w)%nat); [lia| | |exact I3| |lia|].
  - rewrite <- take_take_drop.
    eapply wrote_app; [done|exact W02|by rewrite Hlm|]. rewrite !length_take, length_drop. lia.
  - do 2 (etrans; [eassumption|]). done.
  - etrans; [exact Hsub1|]. etrans; [|exact Hsub3]. intros y Hy. rewrite elem_of_record. by right.
  - destruct Hend as [->|?]; [left; lia|by right].
Qed.

End writei.

(** ** Inodes on the disk *)

(** The fields of an inode fit their types. *)
Record ino_range (x : inode) : Prop := {
  ir_len : length (i_addrs x) = S NDIRECT;
  ir_type : - 2 ^ 15 <= i_type x < 2 ^ 15;
  ir_major : - 2 ^ 15 <= i_major x < 2 ^ 15;
  ir_minor : - 2 ^ 15 <= i_minor x < 2 ^ 15;
  ir_nlink : - 2 ^ 15 <= i_nlink x < 2 ^ 15;
  ir_size : 0 <= i_size x < 2 ^ 32;
  ir_addrs : Forall (fun a => 0 <= a < 2 ^ 32) (i_addrs x)
}.

Section dinode.
Implicit Types (l : list Z) (x : inode).

Lemma to_short_mod v : - 2 ^ 15 <= v < 2 ^ 15 -> to_short (v mod 2 ^ 16) = v.
Proof.
  intros H. unfold to_short. rewrite Z.mod_mod by lia. destruct (decide (0 <= v)).
  - rewrite Z.mod_small by lia. destruct (Z.ltb_spec v (2 ^ 15)); lia.
  - rewrite <- (Z.mod_unique v (2 ^ 16) (-1) (v + 2 ^ 16)) by lia. destruct (Z.ltb_spec (v + 2 ^ 16) (2 ^ 15)); lia.
Qed.

Lemma join_cons v (vs : list Z) : mjoin (le_bytes 4 <$> v :: vs) = le_bytes 4 v ++ mjoin (le_bytes 4 <$> vs).
Proof. done. Qed.

Lemma join_length (vs : list Z) : length (mjoin (le_bytes 4 <$> vs)) = (4 * length vs)%nat.
Proof. induction vs as [|v vs IH]; [done|]. rewrite join_cons, length_app, IH, le_bytes_length. cbn. lia. Qed.

Lemma join_slice (vs : list Z) (i : nat) v :
  vs !! i = Some v -> slice (4 * i) 4 (mjoin (le_bytes 4 <$> vs)) = le_bytes 4 v.
Proof.
  revert i. induction vs as [|u vs IH]; intros [|i] Hi; [done..| |]; unfold slice in *; rewrite join_cons.
  - injection Hi as ->. by rewrite drop_0, take_app_length' by by rewrite le_bytes_length.
  - rewrite drop_app_ge by (rewrite le_bytes_length; lia). rewrite le_bytes_length.
    replace (4 * S i - 4)%nat with (4 * i)%nat by lia. by apply IH.
Qed.

(** An integer of an array of them. *)
Lemma get_join (off i : nat) (vs l : list Z) v :
  (off + 4 * length vs <= length l)%nat -> vs !! i = Some v -> 0 <= v < 2 ^ 32 ->
  get32 (off + 4 * i) (splice off (mjoin (le_bytes 4 <$> vs)) l) = v.
Proof.
  intros Hl Hi Hv. assert (Hil := lookup_lt_Some _ _ _ Hi). unfold get_le.
  replace (slice (off + 4 * i) 4 (splice off (mjoin (le_bytes 4 <$> vs)) l)) with (le_bytes 4 v).
  - rewrite le_val_bytes. by apply Z.mod_small.
  - rewrite <- (join_slice vs i v Hi). apply list_eq. intros j. destruct (decide (j < 4)%nat).
    + rewrite !slice_lookup by done. rewrite <- Nat.add_assoc, splice_lookup_in; [done|rewrite join_length; lia..].
    + rewrite !lookup_ge_None_2; [done|..]; rewrite slice_length; rewrite ?splice_length; rewrite ?join_length; lia.
Qed.

Lemma get_splice_other n (off off' : nat) vs l :
  (off + length vs <= length l)%nat -> (off' + n <= off)%nat -> get_le n off' (splice off vs l) = get_le n off' l.
Proof. intros H H'. unfold get_le. f_equal. apply slice_splice_out; lia. Qed.

(** What [iupdate] stores, [ilock] reads back. *)
Lemma dec_enc_dinode x (dip : nat) l :
  ino_range x -> (dip + dinode_size <= length l)%nat -> dec_dinode dip (enc_dinode x dip l) x = x.
Proof.
  intros [Hlen H1 H2 H3 H4 H5 H6] Hl. unfold dinode_size in Hl. unfold dec_dinode, enc_dinode.
  set (l1 := put16 (dip + di_type) (i_type x) l). assert (E1 : length l1 = length l) by (apply put_le_length; unfold di_type; lia).
  set (l2 := put16 (dip + di_major) (i_major x) l1). assert (E2 : length l2 = length l) by (rewrite <- E1; apply put_le_length; unfold di_major; lia).
  set (l3 := put16 (dip + di_minor) (i_minor x) l2). assert (E3 : length l3 = length l) by (rewrite <- E2; apply put_le_length; unfold di_minor; lia).
  set (l4 := put16 (dip + di_nlink) (i_nlink x) l3). assert (E4 : length l4 = length l) by (rewrite <- E3; apply put_le_length; unfold di_nlink; lia).
  set (l5 := put32 (dip + di_size) (i_size x) l4). assert (E5 : length l5 = length l) by (rewrite <- E4; apply put_le_length; unfold di_size; lia).
  assert (Hj := join_length (i_addrs x)). rewrite Hlen in Hj. change (S NDIRECT) with 13%nat in *.
  unfold di_type, di_major, di_minor, di_nlink, di_size, di_addrs in *.
  rewrite !get_splice_other by (rewrite ?Hj; lia).
  assert (G5 : get32 (dip + 8) l5 = i_size x mod 2 ^ 32) by (apply get_put_same; lia).
  assert (G4 : get16 (dip + 6) l5 = i_nlink x mod 2 ^ 16).
  { unfold l5. rewrite get_put_other by lia. apply get_put_same. lia. }
  assert (G3 : get16 (dip + 4) l5 = i_minor x mod 2 ^ 16).
  { unfold l5. rewrite get_put_other by lia. unfold l4. rewrite get_put_other by lia. apply get_put_same. lia. }
  assert (G2 : get16 (dip + 2) l5 = i_major x mod 2 ^ 16).
  { unfold l5. rewrite get_put_other by lia. unfold l4. rewrite get_put_other by lia. unfold l3. rewrite get_put_other by lia.
    apply get_put_same. lia. }
  assert (G1 : get16 (dip + 0) l5 = i_type x mod 2 ^ 16).
  { unfold l5. rewrite get_put_other by lia. unfold l4. rewrite get_put_other by lia. unfold l3. rewrite get_put_other by lia.
    unfold l2. rewrite get_put_other by lia. apply get_put_same. lia. }
  rewrite G1, G2, G3, G4, G5, !to_short_mod, Z.mod_small by done.
  assert (EA : (fun i : nat => get32 (dip + (12 + 4 * i)) (splice (dip + (12 + 4 * 0)) (mjoin (le_bytes 4 <$> i_addrs x)) l5)) <$>
    seq 0 (NDIRECT + 1) = i_addrs x); [|rewrite EA; by destruct x].
  apply list_eq. intros i. rewrite list_lookup_fmap. destruct (decide (i < 13)%nat) as [Hi|Hi].
  - rewrite lookup_seq_lt by done. cbn [fmap option_fmap option_map]. destruct (lookup_lt_is_Some_2 (i_addrs x) i) as [v Hv]; [lia|].
    rewrite Hv. f_equal. rewrite Nat.mul_0_r, Nat.add_0_r, Nat.add_0_l, Nat.add_assoc.
    apply get_join; [lia|done|]. by eapply (Forall_lookup_1 _ _ _ _ H6).
  - rewrite !lookup_ge_None_2; [done|lia|]. rewrite length_seq. unfold NDIRECT in *. lia.
Qed.

Lemma dinode_off_lt inum l : length l = BSIZE -> (dinode_off inum + dinode_size <= length l)%nat.
Proof.
  intros ->. unfold dinode_off. change IPB with 16%nat. pose proof (Z.mod_pos_bound inum 16).
  change (Z.of_nat 16) with 16. unfold dinode_size, BSIZE. lia.
Qed.

Lemma enc_dinode_length x (dip : nat) l :
  length (i_addrs x) = S NDIRECT -> (dip + dinode_size <= length l)%nat -> length (enc_dinode x dip l) = length l.
Proof.
  intros Hx Hl. unfold enc_dinode, dinode_size in *. pose proof (join_length (i_addrs x)) as Hj. rewrite Hx in Hj.
  change (S NDIRECT) with 13%nat in Hj. unfold di_type, di_major, di_minor, di_nlink, di_size, di_addrs.
  set (l1 := put16 (dip + 0) (i_type x) l). assert (E1 : length l1 = length l) by (apply put_le_length; lia).
  set (l2 := put16 (dip + 2) (i_major x) l1). assert (E2 : length l2 = length l) by (rewrite <- E1; apply put_le_length; lia).
  set (l3 := put16 (dip + 4) (i_minor x) l2). assert (E3 : length l3 = length l) by (rewrite <- E2; apply put_le_length; lia).
  set (l4 := put16 (dip + 6) (i_nlink x) l3). assert (E4 : length l4 = length l) by (rewrite <- E3; apply put_le_length; lia).
  set (l5 := put32 (dip + 8) (i_size x) l4). assert (E5 : length l5 = length l) by (rewrite <- E4; apply put_le_length; lia).
  rewrite splice_length; lia.
Qed.

End dinode.

(** ** [iupdate] and [writei] *)

(** The block the inode is stored in is none of the file's. *)
Record ino_home (sb : superblock) (x : inode) (V : disk) : Prop := {
  ih_block : data_block sb V (IBLOCK (i_inum x) sb);
  ih_owns : ~ owns x V (IBLOCK (i_inum x) sb)
}.

(** The blocks with the inode stored in its home. *)
Definition inode_view (sb : superblock) (x : inode) (V : disk) : disk :=
  let z := IBLOCK (i_inum x) sb in vset z (enc_dinode x (dinode_off (i_inum x)) (V z)) V.

Section store.
Context (sb : superblock) (Hsb : sb_ok sb).
Implicit Types (V : disk) (x : inode).

Lemma addrs_range x V : ino_wf sb x V -> Forall (fun a => 0 <= a < 2 ^ 32) (i_addrs x).
Proof using Hsb.
  intros Wx. apply Forall_lookup. intros i a Hi. assert (Hl := lookup_lt_Some _ _ _ Hi). rewrite (iw_len _ _ _ Wx) in Hl.
  destruct (decide (a = 0)) as [->|Ha]; [lia|]. assert (Hs := sbo_size _ Hsb).
  assert (En : nth i (i_addrs x) 0 = a) by by rewrite nth_lookup, Hi. destruct (decide (i = NDIRECT)) as [->|Hne].
  - assert (En' : ind_addr x = a) by done. destruct (iw_ind _ _ _ Wx) as [Hr _ _ _]; [congruence|]. lia.
  - assert (Ea : addr_of x V i = a) by (unfold addr_of; destruct (Nat.ltb_spec i NDIRECT); [done|lia]).
    destruct (iw_data _ _ _ Wx i) as [Hr _ _ _]; [unfold MAXFILE; lia|congruence|]. lia.
Qed.

(** Changing a block in use that is not the file's does not change the file. *)
Lemma file_elsewhere x V z v :
  ino_wf sb x V -> map_wf sb V -> data_block sb V z -> ~ owns x V z -> length v = BSIZE ->
  ino_wf sb x (vset z v V) /\ map_wf sb (vset z v V) /\ data_block sb (vset z v V) z /\
  (forall bn, addr_of x (vset z v V) bn = addr_of x V bn) /\
  (forall bn, (bn < MAXFILE)%nat -> fblock x (vset z v V) bn = fblock x V bn).
Proof.
  intros Wx Hm [Hr Hu Hn Hl] Ho Hv. set (V' := vset z v V).
  assert (HV : forall a, a <> z -> V' a = V a) by (intros a Ha; by apply vset_ne).
  assert (HA : forall bn, addr_of x V' bn = addr_of x V bn).
  { intros bn. unfold addr_of. destruct (Z.eqb_spec (ind_addr x) 0); [done|]. rewrite HV; [done|].
    intros E. apply Ho. split; [lia|by left]. }
  assert (HU : forall a, 0 <= a < sb_size sb -> in_use sb V' a = in_use sb V a) by (intros a Ha; by apply in_use_other).
  assert (HD : forall a, data_block sb V a -> data_block sb V' a).
  { intros a [R U N L]. split; [done|by rewrite HU by lia|done|]. unfold V'. destruct (decide (a = z)) as [->|E];
      [by rewrite vset_eq|by rewrite vset_ne]. }
  split_and!; [| |by apply HD|done|].
  - split; [apply Wx|..].
    + intros bn' Hbn'. rewrite HA. intros H0. by apply HD, (iw_data _ _ _ Wx).
    + intros H0. by apply HD, (iw_ind _ _ _ Wx).
    + intros b1 b2 H1 H2. rewrite !HA. by apply (iw_inj _ _ _ Wx).
    + intros bn' Hbn'. rewrite HA. by apply (iw_noind _ _ _ Wx).
  - destruct Hm as [M1 M2 M3 M4]. split; [by apply map_ok_other| |by rewrite HU by lia|done].
    intros a Ha. rewrite HU; by apply M2.
  - intros bn Hbn. unfold fblock. rewrite HA. destruct (Z.eqb_spec (addr_of x V bn) 0); [done|]. apply HV.
    intros E. apply Ho. split; [lia|right]. by exists bn.
Qed.

(** The home survives a write. *)
Lemma home_wrote x V off data x' V' : wrote sb x V off data x' V' -> ino_home sb x V -> ino_home sb x' V'.
Proof.
  intros Wr [[Hr Hu Hn Hl] Ho]. assert (E : i_inum x' = i_inum x) by by rewrite (wr_x _ _ _ _ _ _ _ Wr).
  split; rewrite E.
  - split; [done|apply (wr_used _ _ _ _ _ _ _ Wr); [lia|done]|done|]. rewrite (wr_other _ _ _ _ _ _ _ Wr); [done|lia|done..].
  - intros Ho'. destruct (wr_owns _ _ _ _ _ _ _ Wr _ Ho'); [done|congruence].
Qed.

End store.

Section update.
Context {W : World} {D : Disk} {DS : DiskSpec} {T : Patience}.
Context (p ip : nat) (d start : Z) (sb : superblock) (Hsb : sb_ok sb) (Hdr : 0 <= d < 2 ^ 32).
Implicit Types (V : disk) (x : inode) (bs data : list Z) (s : kst).

Lemma wp_iupdate x V bs Q s :
  itxn p ip d start sb x V bs ∅ s -> ino_home sb x V -> (length bs < LOGBLOCKS)%nat ->
  (forall s', iframe ip s s' -> itxn p ip d start sb x (inode_view sb x V) (record (IBLOCK (i_inum x) sb) bs) ∅ s' -> Q tt s') ->
  wp (iupdate ip) Q s.
Proof using Hsb DS.
  intros I [[Hr _ _ _] _] Hroom HQ. assert (Hn : NBUF = LOGBLOCKS) by done. set (z := IBLOCK (i_inum x) sb) in *.
  assert (Hz : 0 <= z < 2 ^ 31) by (destruct (sbo_size _ Hsb); lia).
  unfold iupdate, getsb. apply wp_bind, wp_gets. rewrite (it_sb _ _ _ _ _ _ _ _ _ _ I).
  apply wp_bind. eapply wp_geti; [apply I|]. rewrite (it_dev _ _ _ _ _ _ _ _ _ _ I). fold z.
  apply wp_bind. eapply (tx_bread p d start V bs ∅ z); [apply I|apply not_elem_of_empty|rewrite size_empty; right; lia|].
  intros bp s1 F1 X1 C1 _ _. rewrite union_empty_r_L in X1. assert (I1 := itxn_step _ _ _ _ _ _ _ _ _ _ _ _ _ _ I F1 X1).
  apply wp_bind. eapply wp_geti; [apply I1|].
  apply wp_bind. eapply (tx_upd _ _ _ _ _ _ z); [exact X1|by apply elem_of_singleton|done|]. intros s2 F2 X2 K2 _.
  assert (C2 := K2 {[z]} z bp ltac:(by apply elem_of_singleton) C1).
  apply wp_bind. eapply (tx_log_write _ _ _ _ _ _ z); [exact X2|by apply elem_of_singleton|done|done|done|]. intros s3 F3 X3 K3 _.
  assert (C3 := K3 {[z]} z bp ltac:(by apply elem_of_singleton) C2).
  eapply (tx_brelse _ _ _ _ _ _ z); [exact X3|by apply elem_of_singleton|done|left; rewrite elem_of_record; by left|].
  intros s4 F4 X4 _. rewrite difference_diag_L in X4. assert (F : tframe s s4) by (do 3 (etrans; [eassumption|]); done).
  apply HQ; [by apply iframe_tframe|]. by eapply (itxn_step _ _ _ _ _ _ _ _ _ _ _ _ s).
Qed.

(** What [writei] leaves: the first [w] bytes are written, the inode is
    stored, and [w] is short of the whole only on a full disk. *)
Record file_written x V (off : nat) data (w : nat) x' V' : Prop := {
  fw_len : (w <= length data)%nat;
  fw_short : w = length data \/ disk_full sb V';
  fw_file : exists x1 V1, wrote sb x V off (take w data) x1 V1 /\
    x' = set_i_size (Z.max (i_size x) (Z.of_nat (off + w))) x1 /\ V' = inode_view sb x' V1;
  fw_wf : ino_wf sb x' V';
  fw_map : map_wf sb V';
  fw_home : ino_home sb x' V';
  fw_bytes : fbytes x' V' off w = take w data;
  fw_there : covers x' V' off w;
  fw_inode : dec_dinode (dinode_off (i_inum x')) (V' (IBLOCK (i_inum x') sb)) x' = x'
}.

Lemma file_written_intro x V off data w x1 V1 :
  ino_wf sb x V -> ino_home sb x V -> ino_range x -> (w <= length data)%nat -> (off + w <= MAXFILE * BSIZE)%nat ->
  w = length data \/ disk_full sb V1 -> wrote sb x V off (take w data) x1 V1 ->
  let x' := set_i_size (Z.max (i_size x) (Z.of_nat (off + w))) x1 in
  file_written x V off data w x' (inode_view sb x' V1).
Proof using Hsb.
  intros Wx Hh Hr Hw Hoff Hshort Wr x'. assert (Hh1 := home_wrote sb _ _ _ _ _ _ Wr Hh).
  assert (Hlw : length (take w data) = w) by (rewrite length_take; lia).
  assert (Hmx : Z.of_nat (MAXFILE * BSIZE) < 2 ^ 31) by by rewrite Nat2Z.inj_mul.
  assert (W1 : ino_wf sb x' V1) by (destruct (wr_wf _ _ _ _ _ _ _ Wr); split; assumption).
  assert (Hh' : ino_home sb x' V1) by (destruct Hh1; split; assumption). destruct Hh' as [Hb Ho].
  assert (Hrx : ino_range x').
  { destruct Hr. assert (Ex := wr_x _ _ _ _ _ _ _ Wr). split; [apply W1|..|by eapply addrs_range]; unfold x'; cbn [set_i_size i_type i_major i_minor i_nlink i_size];
      [by rewrite Ex..|lia]. }
  set (z := IBLOCK (i_inum x') sb) in *. assert (Hdl := dinode_off_lt (i_inum x') (V1 z) (db_len _ _ _ Hb)).
  assert (Hel : length (enc_dinode x' (dinode_off (i_inum x')) (V1 z)) = BSIZE).
  { rewrite enc_dinode_length; [apply Hb|apply W1|done]. }
  destruct (file_elsewhere sb x' V1 z _ W1 (wr_map _ _ _ _ _ _ _ Wr) Hb Ho Hel) as (W' & M' & B' & A' & C').
  change (vset z _ V1) with (inode_view sb x' V1) in *. set (V' := inode_view sb x' V1) in *.
  split; [exact Hw| |exists x1, V1; exact (conj Wr (conj eq_refl eq_refl))|exact W'|exact M'| | | |].
  - destruct Hshort as [?|Hfull]; [by left|right]. intros b Hb'. unfold V', inode_view.
    rewrite in_use_other; [by apply Hfull|apply Hb|done].
  - split; [done|]. intros [H0 Ho']. apply Ho. split; [done|]. by setoid_rewrite A' in Ho'.
  - apply list_eq. intros i. destruct (decide (i < w)%nat) as [Hi|Hi].
    + rewrite fbytes_lookup by done. unfold fbyte. assert (Hbn : ((off + i) / BSIZE < MAXFILE)%nat) by (apply block_lt; lia).
      rewrite C' by done. change (nth _ _ 0) with (fbyte x1 V1 (off + i)).
      rewrite (wr_bytes _ _ _ _ _ _ _ Wr) by lia. rewrite decide_True by lia.
      destruct (lookup_lt_is_Some_2 (take w data) i) as [v Hv]; [lia|].
      by rewrite nth_lookup, Nat.add_comm, Nat.add_sub, Hv.
    + rewrite !lookup_ge_None_2; [done|lia|]. rewrite fbytes_length. lia.
  - intros i Hi. split; [apply block_lt; lia|]. rewrite A'. change (addr_of x1 V1 ((off + i) / BSIZE) <> 0).
    apply (wr_there _ _ _ _ _ _ _ Wr). lia.
  - unfold V', inode_view. fold z. rewrite vset_eq. by apply dec_enc_dinode.
Qed.

Lemma wp_writei k src (off : nat) data x V bs Q s :
  itxn p ip d start sb x V bs ∅ s -> ino_wf sb x V -> map_wf sb V -> ino_home sb x V -> ino_range x ->
  Z.of_nat off <= i_size x -> (off + length data <= MAXFILE * BSIZE)%nat -> src_has p src data s ->
  (off mod BSIZE + length data <= k * BSIZE)%nat -> (length bs + 6 * k < LOGBLOCKS)%nat ->
  (forall w x' V' bs' s', file_written x V off data w x' V' -> iframe ip s s' -> itxn p ip d start sb x' V' bs' ∅ s' ->
     bs ⊆ bs' -> (length bs' <= length bs + 6 * k + 1)%nat -> Q (Z.of_nat w) s') ->
  wp (writei ip src (Z.of_nat off) (Z.of_nat (length data))) Q s.
Proof using Hsb Hdr DS.
  intros I Wx Hm Hh Hr Hoff Hmax Hs Hk Hroom HQ. assert (Hsz := ir_size _ Hr).
  assert (Hmx : Z.of_nat (MAXFILE * BSIZE) < 2 ^ 31) by by rewrite Nat2Z.inj_mul.
  unfold writei. apply wp_bind. eapply wp_geti; [apply I|]. rewrite wrap32_small by lia.
  destruct (Z.ltb_spec (i_size x) (Z.of_nat off)); [lia|].
  destruct (Z.ltb_spec (Z.of_nat off + Z.of_nat (length data)) (Z.of_nat off)); [lia|]. cbn [orb].
  destruct (Z.ltb_spec (Z.of_nat (MAXFILE * BSIZE)) (Z.of_nat off + Z.of_nat (length data))); [lia|].
  rewrite Nat2Z.id. apply wp_bind.
  eapply (wp_writei_loop p ip d start sb Hsb Hdr _ k src off (length data) 0 data); [exact I|done|done|done|lia|done|lia|exact Hs|by right|lia|].
  intros w x1 V1 bs1 s1 Hw Wr F1 I1 Hsub Hl Hshort. rewrite Nat.add_0_l.
  assert (Wf := file_written_intro x V off data w x1 V1 Wx Hh Hr Hw ltac:(lia) Hshort Wr). cbn zeta in Wf.
  set (x' := set_i_size (Z.max (i_size x) (Z.of_nat (off + w))) x1) in *.
  apply wp_bind. eapply wp_geti; [apply I1|].
  assert (Ex : i_size x1 = i_size x) by by rewrite (wr_x _ _ _ _ _ _ _ Wr). rewrite Ex.
  assert (Hupd : forall t, itxn p ip d start sb x' V1 bs1 ∅ t -> iframe ip s t ->
    wp (iupdate ip;; mret (to_int (Z.of_nat w))) Q t).
  { intros t It Ft. apply wp_bind. eapply wp_iupdate; [exact It| |lia|].
    - destruct (home_wrote sb _ _ _ _ _ _ Wr Hh). split; assumption.
    - intros s3 F3 I3. apply wp_ret. rewrite to_int_small by lia. pose proof (record_length (IBLOCK (i_inum x') sb) bs1).
      eapply (HQ w x' _ _ s3); [exact Wf|by etrans|exact I3| |lia]. etrans; [exact Hsub|]. intros y Hy. rewrite elem_of_record. by right. }
  destruct (Z.ltb_spec (i_size x) (Z.of_nat (off + w))) as [Hlt|Hge]; cbn [when].
  - apply wp_bind. eapply wp_updi; [exact I1|done|]. intros s2 F2 I2 _ _.
    assert (E' : set_i_size (Z.of_nat (off + w)) x1 = x') by (unfold x'; by rewrite Z.max_r by lia).
    rewrite E' in I2. apply Hupd; [done|by etrans].
  - apply wp_bind, wp_ret. assert (E' : x1 = x') by (unfold x'; rewrite Z.max_l, <- Ex by lia; by destruct x1).
    apply Hupd; [by rewrite <- E'|done].
Qed.

End update.

(** ** Properties *)

(** The number of bytes of a file there are to read. *)
Definition avail (x : inode) (off n : nat) : nat := Nat.min n (Z.to_nat (i_size x) - off).

(** [readi] delivers the bytes of the file from [off] on, at most [n] of them
    and none beyond the size of the file, into the destination, and returns
    their number; no block and no inode changes. *)
Theorem readi_spec {W : World} {D : Disk} {DS : DiskSpec} {T : Patience} (p ip : nat) (d : Z) (V : disk) (P : gset Z)
    (x : inode) (dst : dest) (off n : nat) (s : kst)
    (B : bst p d V P ∅ s) (Hroom : (size P < NBUF)%nat) (Hip : fs_inodes (k_fs s) !! ip = Some x) (Hd : i_dev x = d)
    (Hx : blocks_ok x V) (Hsize : 0 <= i_size x < 2 ^ 31) (Hrange : Z.of_nat (off + n) < 2 ^ 31)
    (Hcov : covers x V off (avail x off n)) (Hdst : dst_ok p dst (avail x off n) s) :
  wp (readi ip dst (Z.of_nat off) (Z.of_nat n)) (fun r s' =>
    r = (Z.of_nat (avail x off n), fbytes x V off (avail x off n)) /\ received p dst (fbytes x V off (avail x off n)) s s' /\
    mframe s s' /\ bst p d V P ∅ s' /\ same_fs (k_fs s) (k_fs s')) s.
Proof. eapply wp_readi; [done..|]. intros s' M B' S R. done. Qed.

(** C17: [writei] inside a transaction writes the bytes of the source at [off] and
    returns their number, which is short of the whole only if the disk is full.
    Afterwards the file holds them there and what it held everywhere else, its
    size covers them, its blocks are the ones it had and blocks that were free,
    no block in use for anything else has changed, the inode on the disk is the
    one in memory, and the blocks that changed are recorded in the log. *)
Theorem writei_spec {W : World} {D : Disk} {DS : DiskSpec} {T : Patience} (p ip : nat) (d start : Z) (sb : superblock)
    (k off : nat) (src : source) (data : list Z) (x : inode) (V : disk) (bs : list Z) (s : kst)
    (Hsb : sb_ok sb) (Hd : 0 <= d < 2 ^ 32) (I : itxn p ip d start sb x V bs ∅ s)
    (Wx : ino_wf sb x V) (Hm : map_wf sb V) (Hh : ino_home sb x V) (Hr : ino_range x)
    (Hoff : Z.of_nat off <= i_size x) (Hmax : (off + length data <= MAXFILE * BSIZE)%nat) (Hs : src_has p src data s)
    (Hk : (off mod BSIZE + length data <= k * BSIZE)%nat) (Hroom : (length bs + 6 * k < LOGBLOCKS)%nat) :
  wp (writei ip src (Z.of_nat off) (Z.of_nat (length data))) (fun r s' =>
    exists w x' V' bs', r = Z.of_nat w /\ file_written sb x V off data w x' V' /\ iframe ip s s' /\
      itxn p ip d start sb x' V' bs' ∅ s' /\ bs ⊆ bs') s.
Proof.
  eapply (wp_writei p ip d start sb Hsb Hd k); [done..|]. intros w x' V' bs' s' Hw F I' Hsub _. by exists w, x', V', bs'.
Qed.

(** C18: What was written is what is read: [readi] after [writei], at the same
    offset and for the number of bytes [writei] returned, yields these bytes. *)
Theorem writei_readi {W : World} {D : Disk} {DS : DiskSpec} {T : Patience} (p ip : nat) (d start : Z) (sb : superblock)
    (k off : nat) (src : source) (data : list Z) (x : inode) (V : disk) (bs : list Z) (s : kst)
    (Hsb : sb_ok sb) (Hd : 0 <= d < 2 ^ 32) (I : itxn p ip d start sb x V bs ∅ s)
    (Wx : ino_wf sb x V) (Hm : map_wf sb V) (Hh : ino_home sb x V) (Hr : ino_range x) (Hsize : i_size x < 2 ^ 31)
    (Hoff : Z.of_nat off <= i_size x) (Hmax : (off + length data <= MAXFILE * BSIZE)%nat) (Hs : src_has p src data s)
    (Hk : (off mod BSIZE + length data <= k * BSIZE)%nat) (Hroom : (length bs + 6 * k + 1 < LOGBLOCKS)%nat) :
  wp (w ← writei ip src (Z.of_nat off) (Z.of_nat (length data)); r ← readi ip ToLocal (Z.of_nat off) w; mret (w, r))
    (fun wr s' => wr.2 = (wr.1, take (Z.to_nat wr.1) data) /\
      (wr.1 = Z.of_nat (length data) \/ exists V', disk_full sb V' /\ exists P, bst p d V' P ∅ s')) s.
Proof.
  assert (Hmx : Z.of_nat (MAXFILE * BSIZE) < 2 ^ 31) by by rewrite Nat2Z.inj_mul.
  assert (Hs0 := ir_size _ Hr). assert (Hn : NBUF = LOGBLOCKS) by done. apply wp_bind.
  eapply (wp_writei p ip d start sb Hsb Hd k); [done..|lia|]. intros w x' V' bs' s1 Hw F I' _ Hl.
  assert (Hwl := fw_len _ _ _ _ _ _ _ _ Hw). destruct (fw_file _ _ _ _ _ _ _ _ Hw) as (x1 & V1 & _ & Ex' & _).
  assert (Esz : i_size x' = Z.max (i_size x) (Z.of_nat (off + w))) by by rewrite Ex'.
  assert (Elen : Nat.min w (Z.to_nat (i_size x') - off) = w) by lia.
  apply wp_bind. eapply (wp_readi p d V' (list_to_set bs') ip x').
  - rewrite size_list_to_set by apply I'. lia.
  - apply I'.
  - eapply ino_blocks_ok, Hw.
  - apply I'.
  - apply I'.
  - lia.
  - lia.
  - rewrite Elen. apply Hw.
  - done.
  - rewrite Elen. intros s2 M B2 S R. apply wp_ret. cbn [fst snd]. rewrite Nat2Z.id, (fw_bytes _ _ _ _ _ _ _ _ Hw).
    split; [done|]. destruct (fw_short _ _ _ _ _ _ _ _ Hw) as [->|Hfull]; [by left|right]. eauto.
Qed.
