(* ===== verification/Icache.v ===== *)
(** * The inode table ([iget], [ilock], [iunlock], [iput] of [fs.c])

    The table in memory, seen as reference counts: [R] gives the number of
    references to each inode in use. An entry that has been loaded agrees with
    the inode on the disk, and at most one entry is locked by the process. *)

From stdpp Require Import base gmap strings numbers list.
From S2P Require Import Prelude State Spinlock Strings Printf Bytes Memory Kalloc Vm PageTable UserMem Proc.
From S2P Require Import Sleeplock Quiet Bio Cache Log LogSpec Txn Uio Fs FileData.

(** The entry's fields are those of the inode on the disk. *)
Definition coherent (sb : superblock) (V : disk) (x : inode) : Prop :=
  dec_dinode (dinode_off (i_inum x)) (V (IBLOCK (i_inum x) sb)) x = x.

Record itab (sb : superblock) (d : Z) (V : disk) (R : gmap Z Z) (tab : list inode) : Prop := {
  it_len : length tab = NINODE;
  it_nonneg i x : tab !! i = Some x -> 0 <= i_ref x;
  it_ref i x : tab !! i = Some x -> 0 < i_ref x -> i_dev x = d /\ R !! i_inum x = Some (i_ref x);
  it_all inum r : R !! inum = Some r -> 0 < r /\ exists i x, tab !! i = Some x /\ i_inum x = inum /\ i_ref x = r;
  it_uniq i j x y : tab !! i = Some x -> tab !! j = Some y -> 0 < i_ref x -> 0 < i_ref y -> i_inum x = i_inum y -> i = j;
  it_valid i x : tab !! i = Some x -> 0 < i_ref x -> i_valid x = true -> coherent sb V x
}.

(** The process holds the sleep-lock of the entry [held], and nobody holds
    that of another. *)
Definition ilocks (p : nat) (held : option nat) (s : kst) : Prop :=
  forall i, (i < NINODE)%nat -> exists k, k_slocks s !! SLInode i = Some k /\
    if decide (held = Some i) then slk_locked k = true /\ (forall q, k_procs s !! p = Some q -> slk_pid k = p_pid q)
    else slk_locked k = false.

Record ist (p : nat) (d : Z) (sb : superblock) (V : disk) (P : gset Z) (R : gmap Z Z) (held : option nat) (s : kst) : Prop := {
  is_bst : bst p d V P ∅ s;
  is_sb : fs_sb (k_fs s) = sb;
  is_tab : itab sb d V R (fs_inodes (k_fs s));
  is_lock : ilocks p held s
}.

(** What the operations leave alone. *)
Record nframe (s s' : kst) : Prop := {
  nf_frame : frame s s';
  nf_fs : k_fs s' = set_fs_bufs (fs_bufs (k_fs s')) (set_fs_inodes (fs_inodes (k_fs s')) (k_fs s))
}.

(** Entries in use stay in use for the same inodes. *)
Definition still (tab tab' : list inode) : Prop := forall j z, tab !! j = Some z -> 0 < i_ref z ->
  exists z', tab' !! j = Some z' /\ i_inum z' = i_inum z /\ 0 < i_ref z'.

(** One more and one less reference. *)
Definition incr (i : Z) (R : gmap Z Z) : gmap Z Z := <[i := default 0 (R !! i) + 1]> R.
Definition decr (i : Z) (R : gmap Z Z) : gmap Z Z :=
  match R !! i with
  | Some r => if r =? 1 then delete i R else <[i := r - 1]> R
  | None => R
  end.

Section counts.
Implicit Types (R : gmap Z Z).

Lemma decr_incr i R : (forall r, R !! i = Some r -> 0 < r) -> decr i (incr i R) = R.
Proof.
  intros H. unfold decr, incr. rewrite lookup_insert_eq. destruct (R !! i) as [r|] eqn:E; cbn.
  - specialize (H r eq_refl). destruct (Z.eqb_spec (r + 1) 1); [lia|]. rewrite insert_insert_eq. replace (r + 1 - 1) with r by lia.
    by apply insert_id.
  - by rewrite delete_insert_id.
Qed.

Lemma incr_comm i j R : incr i (incr j R) = incr j (incr i R).
Proof.
  unfold incr. destruct (decide (i = j)) as [->|Hne]; [done|]. rewrite !lookup_insert_ne by done. by apply insert_insert_ne.
Qed.

(** A reference to [i] is exchanged for one to [j]. *)
Lemma decr_incr_incr i j R : (forall r, R !! i = Some r -> 0 < r) -> decr i (incr j (incr i R)) = incr j R.
Proof.
  intros H. rewrite incr_comm. apply decr_incr. intros r. unfold incr. destruct (decide (i = j)) as [->|Hne].
  - rewrite lookup_insert_eq. destruct (R !! j) as [r'|] eqn:E; cbn; intros [= <-]; [specialize (H r' eq_refl)|]; lia.
  - rewrite lookup_insert_ne by done. apply H.
Qed.

Lemma incr_size i R : (size (incr i R) <= S (size R))%nat.
Proof.
  unfold incr. destruct (R !! i) as [r|] eqn:E.
  - rewrite map_size_insert_Some; [lia|by eexists].
  - rewrite map_size_insert_None by done. lia.
Qed.

End counts.

#[global] Instance nframe_preorder : PreOrder nframe.
Proof.
  split.
  - intros s. split; [done|by destruct (k_fs s)].
  - intros s1 s2 s3 [F1 E1] [F2 E2]. split; [by etrans|]. rewrite E2, E1. by destruct (k_fs s1).
Qed.

Lemma coherent_ref sb V x r : coherent sb V x -> coherent sb V (set_i_ref r x).
Proof.
  intros H. unfold coherent. change (i_inum (set_i_ref r x)) with (i_inum x).
  transitivity (set_i_ref r (dec_dinode (dinode_off (i_inum x)) (V (IBLOCK (i_inum x) sb)) x)); [done|by rewrite H].
Qed.

(** ** Changing an entry *)

Section table.
Context (sb : superblock) (d : Z) (V : disk).
Implicit Types (R : gmap Z Z) (tab : list inode) (x : inode).

(** Some entry is unused, unless every slot has an inode of its own. *)
Lemma free_slot R tab :
  itab sb d V R tab -> (size R < NINODE)%nat -> ~ forall i x, tab !! i = Some x -> i_ref x <> 0.
Proof.
  intros T Hsz Hall. assert (Hpos : forall i x, tab !! i = Some x -> 0 < i_ref x).
  { intros i x Hx. pose proof (it_nonneg _ _ _ _ _ T i x Hx). specialize (Hall i x Hx). lia. }
  assert (Hnd : NoDup (i_inum <$> tab)).
  { apply NoDup_alt. intros i j z Hi Hj. rewrite list_lookup_fmap in Hi, Hj.
    apply fmap_Some in Hi as (x & Hx & ->). apply fmap_Some in Hj as (y & Hy & E).
    by eapply (it_uniq _ _ _ _ _ T); eauto. }
  assert (Hsub : list_to_set (i_inum <$> tab) ⊆ dom R).
  { intros z Hz. rewrite elem_of_list_to_set in Hz. apply list_elem_of_fmap in Hz as (x & -> & Hx).
    apply list_elem_of_lookup_1 in Hx as (i & Hi). apply elem_of_dom. destruct (it_ref _ _ _ _ _ T i x Hi) as [_ ->]; [by eauto|by eexists]. }
  apply subseteq_size in Hsub. rewrite size_list_to_set, size_dom, length_fmap, (it_len _ _ _ _ _ T) in Hsub by done. lia.
Qed.

Lemma tab_cases tab i x y j z :
  tab !! i = Some x -> <[i := y]> tab !! j = Some z -> j = i /\ z = y \/ j <> i /\ tab !! j = Some z.
Proof.
  intros Hx Hz. assert (Hlt := lookup_lt_Some _ _ _ Hx). destruct (decide (j = i)) as [->|Hne].
  - left. rewrite list_lookup_insert_eq in Hz by done. by injection Hz.
  - right. by rewrite list_lookup_insert_ne in Hz by done.
Qed.

(** A new value for a referenced entry, which stays referenced. *)
Lemma itab_alter R tab i x y :
  itab sb d V R tab -> tab !! i = Some x -> 0 < i_ref x -> i_dev y = i_dev x -> i_inum y = i_inum x ->
  0 < i_ref y -> (i_valid y = true -> coherent sb V y) ->
  itab sb d V (<[i_inum x := i_ref y]> R) (<[i := y]> tab).
Proof.
  intros T Hx Hr Ed En Hr' Hv. destruct (it_ref _ _ _ _ _ T i x Hx Hr) as [Hd HR]. assert (Hlt := lookup_lt_Some _ _ _ Hx).
  assert (Hother : forall j z, j <> i -> tab !! j = Some z -> 0 < i_ref z -> i_inum z <> i_inum x).
  { intros j z Hj Hz Hzr E. apply Hj. by eapply (it_uniq _ _ _ _ _ T). }
  split.
  - by rewrite length_insert, (it_len _ _ _ _ _ T).
  - intros j z Hz. destruct (tab_cases _ _ _ _ _ _ Hx Hz) as [[-> ->]|[_ Hz']]; [lia|by eapply (it_nonneg _ _ _ _ _ T)].
  - intros j z Hz Hzr. destruct (tab_cases _ _ _ _ _ _ Hx Hz) as [[-> ->]|[Hj Hz']].
    + rewrite En, lookup_insert_eq. split; [congruence|done].
    + rewrite lookup_insert_ne by (intros E; by eapply Hother). by apply (it_ref _ _ _ _ _ T j).
  - intros inum r. destruct (decide (inum = i_inum x)) as [->|Hne].
    + rewrite lookup_insert_eq. intros [= <-]. split; [done|]. exists i, y. by rewrite list_lookup_insert_eq.
    + rewrite lookup_insert_ne by done. intros (Hpos & j & z & Hz & E & Er)%(it_all _ _ _ _ _ T). split; [done|]. exists j, z.
      rewrite list_lookup_insert_ne; [done|]. intros ->. rewrite Hx in Hz. injection Hz as ->. done.
  - intros j k z w Hz Hw Hzr Hwr E. destruct (tab_cases _ _ _ _ _ _ Hx Hz) as [[-> ->]|[Hj Hz']], (tab_cases _ _ _ _ _ _ Hx Hw) as [[-> ->]|[Hk Hw']].
    + done.
    + exfalso. apply (Hother k w Hk Hw' Hwr). congruence.
    + exfalso. apply (Hother j z Hj Hz' Hzr). congruence.
    + by eapply (it_uniq _ _ _ _ _ T).
  - intros j z Hz Hzr Hzv. destruct (tab_cases _ _ _ _ _ _ Hx Hz) as [[-> ->]|[_ Hz']]; [by apply Hv|by eapply (it_valid _ _ _ _ _ T)].
Qed.

Lemma itab_incr R tab i x :
  itab sb d V R tab -> tab !! i = Some x -> 0 < i_ref x ->
  itab sb d V (incr (i_inum x) R) (<[i := set_i_ref (i_ref x + 1) x]> tab).
Proof.
  intros T Hx Hr. destruct (it_ref _ _ _ _ _ T i x Hx Hr) as [_ HR]. unfold incr. rewrite HR.
  apply (itab_alter R tab i x (set_i_ref (i_ref x + 1) x)); [done..|cbn; lia|].
  intros Hv. by apply coherent_ref, (it_valid _ _ _ _ _ T i x Hx Hr).
Qed.

(** An unused entry for an inode that has none. *)
Lemma itab_new R tab i x y :
  itab sb d V R tab -> tab !! i = Some x -> i_ref x = 0 -> R !! i_inum y = None -> i_dev y = d -> i_ref y = 1 ->
  i_valid y = false -> itab sb d V (<[i_inum y := 1]> R) (<[i := y]> tab).
Proof.
  intros T Hx Hr HR Ed Er Hv. assert (Hlt := lookup_lt_Some _ _ _ Hx).
  assert (Hother : forall j z, tab !! j = Some z -> 0 < i_ref z -> i_inum z <> i_inum y).
  { intros j z Hz Hzr E. destruct (it_ref _ _ _ _ _ T j z Hz Hzr) as [_ E']. congruence. }
  split.
  - by rewrite length_insert, (it_len _ _ _ _ _ T).
  - intros j z Hz. destruct (tab_cases _ _ _ _ _ _ Hx Hz) as [[-> ->]|[_ Hz']]; [lia|by eapply (it_nonneg _ _ _ _ _ T)].
  - intros j z Hz Hzr. destruct (tab_cases _ _ _ _ _ _ Hx Hz) as [[-> ->]|[Hj Hz']].
    + by rewrite lookup_insert_eq, Er.
    + rewrite lookup_insert_ne by (intros E; by eapply Hother). by apply (it_ref _ _ _ _ _ T j).
  - intros inum r. destruct (decide (inum = i_inum y)) as [->|Hne].
    + rewrite lookup_insert_eq. intros [= <-]. split; [done|]. exists i, y. by rewrite list_lookup_insert_eq.
    + rewrite lookup_insert_ne by done. intros (Hpos & j & z & Hz & E & Er')%(it_all _ _ _ _ _ T). split; [done|]. exists j, z.
      rewrite list_lookup_insert_ne; [done|]. intros ->. rewrite Hx in Hz. injection Hz as ->. lia.
  - intros j k z w Hz Hw Hzr Hwr E. destruct (tab_cases _ _ _ _ _ _ Hx Hz) as [[-> ->]|[Hj Hz']], (tab_cases _ _ _ _ _ _ Hx Hw) as [[-> ->]|[Hk Hw']].
    + done.
    + exfalso. by apply (Hother k w Hw' Hwr).
    + exfalso. by apply (Hother j z Hz' Hzr).
    + by eapply (it_uniq _ _ _ _ _ T).
  - intros j z Hz Hzr Hzv. destruct (tab_cases _ _ _ _ _ _ Hx Hz) as [[-> ->]|[_ Hz']]; [congruence|by eapply (it_valid _ _ _ _ _ T)].
Qed.

(** The last reference to an entry goes. *)
Lemma itab_drop R tab i x y :
  itab sb d V R tab -> tab !! i = Some x -> 0 < i_ref x -> i_ref y = 0 ->
  itab sb d V (delete (i_inum x) R) (<[i := y]> tab).
Proof.
  intros T Hx Hr Hr'. assert (Hlt := lookup_lt_Some _ _ _ Hx).
  assert (Hold : forall j z, <[i := y]> tab !! j = Some z -> 0 < i_ref z -> tab !! j = Some z /\ i_inum z <> i_inum x).
  { intros j z Hz Hzr. destruct (tab_cases _ _ _ _ _ _ Hx Hz) as [[-> ->]|[Hj Hz']]; [lia|]. split; [done|].
    intros E. apply Hj. by eapply (it_uniq _ _ _ _ _ T). }
  split.
  - by rewrite length_insert, (it_len _ _ _ _ _ T).
  - intros j z Hz. destruct (tab_cases _ _ _ _ _ _ Hx Hz) as [[-> ->]|[_ Hz']]; [lia|by eapply (it_nonneg _ _ _ _ _ T)].
  - intros j z Hz Hzr. destruct (Hold j z Hz Hzr) as [Hz' Hne]. rewrite lookup_delete_ne by done. by apply (it_ref _ _ _ _ _ T j).
  - intros inum r Hi. apply lookup_delete_Some in Hi as [Hne Hi]. destruct (it_all _ _ _ _ _ T inum r Hi) as (Hpos & j & z & Hz & E & Er).
    split; [done|]. exists j, z. rewrite list_lookup_insert_ne; [done|]. intros ->. rewrite Hx in Hz. injection Hz as ->. done.
  - intros j k z w Hz Hw Hzr Hwr E. destruct (Hold j z Hz Hzr), (Hold k w Hw Hwr). by eapply (it_uniq _ _ _ _ _ T).
  - intros j z Hz Hzr Hzv. destruct (Hold j z Hz Hzr). by eapply (it_valid _ _ _ _ _ T).
Qed.

End table.

(** ** Running the code *)

Definition set_inodes (tab : list inode) (s : kst) : kst := set_k_fs (set_fs_inodes tab (k_fs s)) s.

Section run.
Context {W : World} {D : Disk} {DS : DiskSpec} {T : Patience}.
Context (p : nat) (d : Z) (sb : superblock) (V : disk) (P : gset Z).
Implicit Types (R : gmap Z Z) (s : kst) (x : inode) (ip : nat).

Lemma wp_updi_set ip f x Q s :
  fs_inodes (k_fs s) !! ip = Some x -> Q tt (set_inodes (<[ip := f x]> (fs_inodes (k_fs s))) s) -> wp (updi ip f) Q s.
Proof.
  intros Hx HQ. unfold updi. apply wp_bind. eapply wp_geti; [done|]. apply wp_modify. same_state HQ.
  unfold set_inodes, upd_fs. cbn. f_equal. f_equal. apply list_eq. intros j. destruct (decide (j = ip)) as [->|Hne].
  - by rewrite list_lookup_alter_eq, Hx, list_lookup_insert_eq by by eapply lookup_lt_Some.
  - by rewrite list_lookup_alter_ne, list_lookup_insert_ne.
Qed.

Lemma ilocks_frame held s s' q :
  ilocks p held s -> k_procs s !! p = Some q -> frame s s' ->
  (forall i, k_slocks s' !! SLInode i = k_slocks s !! SLInode i) -> ilocks p held s'.
Proof.
  intros L Hq F E i Hi. destruct (L i Hi) as (k & Hk & Hl). exists k. rewrite E. split; [done|]. case_decide; [|done].
  destruct Hl as [Hl Hp]. split; [done|]. intros q' Hq'. rewrite (pid_frame _ _ _ _ _ F Hq Hq'). by apply Hp.
Qed.

(** A step that changes the table only. *)
Lemma ist_set R R' held s s' tab :
  ist p d sb V P R held s -> frame s s' -> k_slocks s' = k_slocks s -> k_fs s' = set_fs_inodes tab (k_fs s) ->
  itab sb d V R' tab -> ist p d sb V P R' held s' /\ nframe s s'.
Proof.
  intros [B Es Tb L] F Hs Hfs Tb'. split.
  - destruct (quiet_proc _ _ (bs_quiet _ _ _ _ _ _ B)) as [q Hq]. split.
    + eapply bst_intro; [apply B|done|done|]. rewrite Hfs, Hs. by destruct (bs_cache _ _ _ _ _ _ B q Hq).
    + by rewrite Hfs.
    + by rewrite Hfs.
    + eapply ilocks_frame; [done..|]. intros i. by rewrite Hs.
  - split; [done|]. rewrite Hfs. by destruct (k_fs s).
Qed.

(** ... in a critical section of the table's lock. *)
Lemma ist_section R R' held s tab :
  ist p d sb V P R held s -> itab sb d V R' tab ->
  let s' := set_k_sync (touch (k_sync s)) (set_inodes tab (upd_sync (acq LItable) s)) in
  ist p d sb V P R' held s' /\ nframe s s'.
Proof.
  intros I Tb s'. eapply ist_set; [done| |done|done|done]. by apply frame_in_section.
Qed.

Lemma wp_iget_scan l empty dev inum Q s :
  (forall i, i ∈ l -> (i < length (fs_inodes (k_fs s)))%nat) ->
  (forall i x, i ∈ l -> fs_inodes (k_fs s) !! i = Some x -> 0 < i_ref x -> i_dev x = dev -> i_inum x = inum -> Q (inl i) s) ->
  (forall e, (forall i x, i ∈ l -> fs_inodes (k_fs s) !! i = Some x -> 0 < i_ref x -> i_dev x = dev -> i_inum x <> inum) ->
     (e = None -> empty = None /\ forall i x, i ∈ l -> fs_inodes (k_fs s) !! i = Some x -> i_ref x <> 0) ->
     (forall j, e = Some j -> empty = Some j \/ exists x, fs_inodes (k_fs s) !! j = Some x /\ i_ref x = 0) -> Q (inr e) s) ->
  wp (iget_scan l empty dev inum) Q s.
Proof.
  revert empty. induction l as [|i l IH]; intros empty Hlt HQ1 HQ2; cbn [iget_scan].
  - apply wp_ret, HQ2; [by intros ? ? ?%not_elem_of_nil|intros ->; split; [done|by intros ? ? ?%not_elem_of_nil]|by left].
  - destruct (lookup_lt_is_Some_2 (fs_inodes (k_fs s)) i) as [x Hx]; [apply Hlt; set_solver|].
    apply wp_bind. eapply wp_geti; [done|].
    destruct (Z.ltb_spec 0 (i_ref x)) as [Hr|Hr], (Z.eqb_spec (i_dev x) dev) as [Hd|Hd], (Z.eqb_spec (i_inum x) inum) as [Hn|Hn];
      cbn [andb]; try (apply wp_ret; eapply HQ1; [set_solver|done..]).
    all: apply IH; [intros j Hj; apply Hlt; set_solver|intros j y Hj; apply HQ1; set_solver|intros e He1 He2 He3; apply HQ2].
    all: try (intros j y [->|Hj]%elem_of_cons Hy; [rewrite Hx in Hy; injection Hy as <-; intros; done || lia|by eapply He1]).
    all: try (intros ->; destruct (He2 eq_refl) as [Hem Hall]; case_bool_decide as Hb; cbn [andb] in Hem;
      [destruct (Z.eqb_spec (i_ref x) 0); [done|]; split; [done|]; intros j y [->|Hj]%elem_of_cons Hy;
        [rewrite Hx in Hy; injection Hy as <-; done|by eapply Hall]|done]).
    all: intros j Hj; destruct (He3 j Hj) as [Hem|?]; [|by right]; case_bool_decide; cbn [andb] in Hem; [|by left].
    all: destruct (Z.eqb_spec (i_ref x) 0); [|by left]; injection Hem as <-; right; by exists x.
Qed.

Lemma ist_lock_free R held s : ist p d sb V P R held s -> sync_wf (k_sync s) /\ lock_free LItable (k_sync s).
Proof.
  intros I. assert (Hq := bs_quiet _ _ _ _ _ _ (is_bst _ _ _ _ _ _ _ _ I)).
  split; [by eapply quiet_wf|by apply (q_locks _ _ Hq), fl_itable].
Qed.

Lemma wp_iget inum R held Q s :
  ist p d sb V P R held s -> is_Some (R !! inum) \/ (size R < NINODE)%nat ->
  (forall ip x s', nframe s s' -> ist p d sb V P (incr inum R) held s' -> fs_inodes (k_fs s') !! ip = Some x ->
     i_inum x = inum -> 0 < i_ref x -> still (fs_inodes (k_fs s)) (fs_inodes (k_fs s')) -> Q ip s') ->
  wp (iget d inum) Q s.
Proof.
  intros I Hroom HQ. destruct (ist_lock_free _ _ _ I) as [Hwf Hf]. assert (Tb := is_tab _ _ _ _ _ _ _ _ I).
  unfold iget. apply wp_bind, wp_acquire; [done..|]. set (t := upd_sync (acq LItable) s).
  assert (Hend : forall ip x y, fs_inodes (k_fs s) !! ip = Some x -> itab sb d V (incr inum R) (<[ip := y]> (fs_inodes (k_fs s))) ->
    i_inum y = inum -> 0 < i_ref y -> (0 < i_ref x -> i_inum x = inum) ->
    wp (release LItable;; mret ip) Q (set_inodes (<[ip := y]> (fs_inodes (k_fs s))) t)).
  { intros ip x y Hx Tb' En Er Hsame. apply wp_bind. eapply (wp_release_acq LItable (k_sync s)); [done..|]. apply wp_ret.
    destruct (ist_section R (incr inum R) held s _ I Tb') as [I' F']. assert (Hlt := lookup_lt_Some _ _ _ Hx).
    apply (HQ ip y); [exact F'|exact I'|cbn; by rewrite list_lookup_insert_eq|done|done|].
    intros j z Hz Hr. cbn. destruct (decide (j = ip)) as [->|Hne].
    - exists y. rewrite list_lookup_insert_eq by done. rewrite Hx in Hz. injection Hz as <-. rewrite En, Hsame; done.
    - exists z. by rewrite list_lookup_insert_ne. }
  apply wp_bind. apply wp_iget_scan; cbn [fs_inodes k_fs].
  - intros i Hi. change (k_fs t) with (k_fs s). rewrite (it_len _ _ _ _ _ Tb). rewrite elem_of_seq in Hi. lia.
  - intros ip x _ Hx Hr Hd Hn. change (k_fs t) with (k_fs s) in Hx. apply wp_bind. eapply wp_updi_set; [done|].
    eapply Hend; [done| |done|cbn; lia|done]. rewrite <- Hn. by apply itab_incr.
  - intros e Hnot Hnone Hsome. change (k_fs t) with (k_fs s) in *.
    assert (HR : R !! inum = None).
    { destruct (R !! inum) as [r|] eqn:E; [|done]. destruct (it_all _ _ _ _ _ Tb inum r E) as (Hpos & i & x & Hx & En & Er).
      exfalso. eapply (Hnot i x); [|done|lia| |done].
      - apply elem_of_seq. apply lookup_lt_Some in Hx. rewrite (it_len _ _ _ _ _ Tb) in Hx. lia.
      - by apply (it_ref _ _ _ _ _ Tb i); [|lia]. }
    destruct e as [ip|].
    + destruct (Hsome ip eq_refl) as [|(x & Hx & Hr)]; [done|]. assert (Hlt := lookup_lt_Some _ _ _ Hx).
      apply wp_bind. eapply wp_updi_set; [done|]. apply wp_bind. eapply wp_updi_set; [cbn; by apply list_lookup_insert_eq|].
      apply wp_bind. eapply wp_updi_set; [cbn; by rewrite list_insert_insert_eq, list_lookup_insert_eq|].
      apply wp_bind. eapply wp_updi_set; [cbn; by rewrite !list_insert_insert_eq, list_lookup_insert_eq|].
      cbn. rewrite !list_insert_insert_eq.
      match goal with |- wp _ _ ?u => change u with (set_inodes (<[ip := set_i_valid false (set_i_ref 1 (set_i_inum inum (set_i_dev d x)))]>
        (fs_inodes (k_fs s))) t) end.
      eapply Hend; [done| |done|cbn; lia|lia]. unfold incr. rewrite HR. cbn.
      match goal with |- itab _ _ _ _ (<[_ := ?y]> _) => change inum with (i_inum y) end. by apply (itab_new _ _ _ _ _ _ x).
    + destruct (Hnone eq_refl) as [_ Hall]. destruct Hroom as [[r E]|Hroom]; [congruence|]. exfalso.
      apply (free_slot sb d V R _ Tb Hroom). intros i x Hx. eapply Hall; [|done]. apply elem_of_seq.
      apply lookup_lt_Some in Hx. rewrite (it_len _ _ _ _ _ Tb) in Hx. lia.
Qed.

Lemma bst_inodes H tab s : bst p d V P H s -> bst p d V P H (set_inodes tab s).
Proof.
  intros B. destruct (quiet_proc _ _ (bs_quiet _ _ _ _ _ _ B)) as [q Hq].
  eapply bst_intro; [apply B|by apply frame_upd|done|]. by destruct (bs_cache _ _ _ _ _ _ B q Hq).
Qed.

Lemma bframe_inodes tab s : bframe s (set_inodes tab s).
Proof. split; [by apply frame_upd|done]. Qed.

(** Steps on the buffers. *)
Lemma ist_buffers R held s s' :
  ist p d sb V P R held s -> bframe s s' -> bst p d V P ∅ s' -> same_fs (k_fs s) (k_fs s') ->
  ist p d sb V P R held s' /\ nframe s s'.
Proof.
  intros [B Es Tb L] [F Hl] B' S. destruct (quiet_proc _ _ (bs_quiet _ _ _ _ _ _ B)) as [q Hq]. split.
  - split; [done|by rewrite S|by rewrite S|]. eapply ilocks_frame; [done..|]. intros i. by apply Hl.
  - split; [done|]. rewrite S. by destruct (k_fs s).
Qed.

(** The lock of an entry is taken or given back. *)
Lemma ist_lock R held held' s s' i k :
  ist p d sb V P R held s -> frame s s' -> k_slocks s' = <[SLInode i := k]> (k_slocks s) -> k_fs s' = k_fs s ->
  (forall j, (j < NINODE)%nat -> j <> i -> held = Some j <-> held' = Some j) ->
  (if decide (held' = Some i) then slk_locked k = true /\ (forall q, k_procs s !! p = Some q -> slk_pid k = p_pid q)
   else slk_locked k = false) ->
  ist p d sb V P R held' s' /\ nframe s s'.
Proof.
  intros [B Es Tb L] F Hs Hfs Hh Hk. destruct (quiet_proc _ _ (bs_quiet _ _ _ _ _ _ B)) as [q Hq]. split.
  - split.
    + eapply bst_intro; [apply B|done|done|]. rewrite Hfs, Hs. apply cache_other_lock; [|done].
      by apply (bs_cache _ _ _ _ _ _ B).
    + by rewrite Hfs.
    + by rewrite Hfs.
    + intros j Hj. destruct (decide (j = i)) as [->|Hne].
      * exists k. rewrite Hs, lookup_insert_eq. split; [done|]. case_decide; [|done].
        destruct Hk as [Hl Hp]. split; [done|]. intros q' Hq'. rewrite (pid_frame _ _ _ _ _ F Hq Hq'). by apply Hp.
      * destruct (L j Hj) as (k' & Hk' & Hl'). exists k'. rewrite Hs, lookup_insert_ne by congruence. split; [done|].
        destruct (Hh j Hj Hne) as [Hh1 Hh2]. destruct (decide (held = Some j)) as [E1|E1], (decide (held' = Some j)) as [E2|E2];
          [|by destruct (E2 (Hh1 E1))|by destruct (E1 (Hh2 E2))|done].
        destruct Hl' as [Hl Hp]. split; [done|]. intros q' Hq'. rewrite (pid_frame _ _ _ _ _ F Hq Hq'). by apply Hp.
  - split; [done|]. rewrite Hfs. by destruct (k_fs s).
Qed.

(** ** The operations *)

(** [ilock] locks the entry and loads it from the disk. *)
Lemma wp_ilock ip x R Q s :
  ist p d sb V P R None s -> (size P < NBUF)%nat -> fs_inodes (k_fs s) !! ip = Some x -> 0 < i_ref x ->
  i_type (dec_dinode (dinode_off (i_inum x)) (V (IBLOCK (i_inum x) sb)) x) <> 0 ->
  (forall y s', nframe s s' -> ist p d sb V P R (Some ip) s' -> fs_inodes (k_fs s') !! ip = Some y ->
     i_inum y = i_inum x -> i_ref y = i_ref x -> i_valid y = true -> Q tt s') ->
  wp (ilock (Some ip)) Q s.
Proof.
  intros I HP Hx Hr Ht HQ. assert (Tb := is_tab _ _ _ _ _ _ _ _ I). assert (B := is_bst _ _ _ _ _ _ _ _ I).
  assert (Hlt : (ip < NINODE)%nat) by (apply lookup_lt_Some in Hx; by rewrite (it_len _ _ _ _ _ Tb) in Hx).
  destruct (quiet_proc _ _ (bs_quiet _ _ _ _ _ _ B)) as [q Hq]. destruct (is_lock _ _ _ _ _ _ _ _ I ip Hlt) as (k & Hk & Hun).
  unfold ilock. apply wp_bind. eapply wp_geti; [done|]. destruct (Z.ltb_spec (i_ref x) 1); [lia|].
  apply wp_bind. eapply wp_acquiresleep_q; [apply B|by constructor|done|done|done|]. intros s1 F1 L1 E1.
  destruct (ist_lock R None (Some ip) s s1 ip (seize (p_pid q) k) I F1 L1 E1) as [I1 N1].
  { intros j _ Hj. split; congruence. }
  { rewrite decide_True by done. split; [done|]. intros q'. rewrite Hq. by intros [= <-]. }
  assert (Hx1 : fs_inodes (k_fs s1) !! ip = Some x) by by rewrite E1.
  apply wp_bind. eapply wp_geti; [done|]. destruct (i_valid x) eqn:Ev; cbn [negb when].
  { apply wp_ret. by eapply HQ. }
  destruct (it_ref _ _ _ _ _ Tb ip x Hx Hr) as [Hd HR]. rewrite Hd.
  apply wp_bind, wp_gets. rewrite (is_sb _ _ _ _ _ _ _ _ I1). apply wp_bind.
  eapply wp_bread_clean; [apply I1|done|]. intros b s2 F2 B2 C2 S2 Hc2.
  destruct (bst_data _ _ _ _ _ _ _ _ B2 C2) as (bx & Hbx & Ebx & _). apply wp_bind. eapply wp_getb; [done|]. rewrite Ebx.
  set (y := dec_dinode _ _ x) in *. assert (Hx2 : fs_inodes (k_fs s2) !! ip = Some x) by by rewrite S2.
  apply wp_bind. eapply wp_updi_set; [done|]. fold y. set (s3 := set_inodes _ s2).
  assert (B3 : bst p d V P {[IBLOCK (i_inum x) sb]} s3) by by apply bst_inodes.
  apply wp_bind. eapply wp_brelse_clean; [exact B3|done|done|]. intros s4 F4 B4 S4.
  assert (Hx4 : fs_inodes (k_fs s4) !! ip = Some y).
  { rewrite S4. cbn. rewrite S2. cbn. rewrite E1. by rewrite list_lookup_insert_eq by by eapply lookup_lt_Some. }
  apply wp_bind. eapply wp_updi_set; [done|]. set (z := set_i_valid true y). set (s5 := set_inodes _ s4).
  assert (Hx5 : fs_inodes (k_fs s5) !! ip = Some z) by (cbn; by rewrite list_lookup_insert_eq by by eapply lookup_lt_Some).
  apply wp_bind. eapply wp_geti; [done|]. destruct (Z.eqb_spec (i_type z) 0); [done|]. apply wp_ret.
  assert (F15 : bframe s1 s5).
  { etrans; [exact F2|]. etrans; [|etrans; [exact F4|]]; apply bframe_inodes. }
  assert (E5 : k_fs s5 = set_fs_bufs (fs_bufs (k_fs s4)) (set_fs_inodes (<[ip := z]> (fs_inodes (k_fs s1))) (k_fs s1))).
  { cbn. rewrite S4. cbn. rewrite S2. cbn. by rewrite list_insert_insert_eq. }
  assert (N5 : nframe s s5).
  { split; [etrans; [exact F1|apply F15]|]. rewrite E5, E1. by destruct (k_fs s). }
  assert (I5 : ist p d sb V P R (Some ip) s5); [|by eapply HQ].
  split.
  - by apply bst_inodes.
  - rewrite E5. cbn. apply I1.
  - rewrite E5. cbn. rewrite E1. replace R with (<[i_inum x := i_ref z]> R) by by apply insert_id.
    by apply itab_alter.
  - destruct (quiet_proc _ _ (bs_quiet _ _ _ _ _ _ (is_bst _ _ _ _ _ _ _ _ I1))) as [q1 Hq1].
    eapply ilocks_frame; [apply I1|done|apply F15|]. intros i. by apply F15.
Qed.

(** [iunlock] gives the lock back. *)
Lemma wp_iunlock ip x R Q s :
  ist p d sb V P R (Some ip) s -> fs_inodes (k_fs s) !! ip = Some x -> 0 < i_ref x ->
  (forall s', nframe s s' -> ist p d sb V P R None s' -> fs_inodes (k_fs s') = fs_inodes (k_fs s) -> Q tt s') ->
  wp (iunlock (Some ip)) Q s.
Proof.
  intros I Hx Hr HQ. assert (Tb := is_tab _ _ _ _ _ _ _ _ I). assert (B := is_bst _ _ _ _ _ _ _ _ I).
  assert (Hlt : (ip < NINODE)%nat) by (apply lookup_lt_Some in Hx; by rewrite (it_len _ _ _ _ _ Tb) in Hx).
  destruct (quiet_proc _ _ (bs_quiet _ _ _ _ _ _ B)) as [q Hq]. destruct (is_lock _ _ _ _ _ _ _ _ I ip Hlt) as (k & Hk & Hl).
  rewrite decide_True in Hl by done. destruct Hl as [Hl Hp].
  unfold iunlock. apply wp_bind. eapply wp_holdingsleep_q; [apply B|by constructor|done|done|]. intros s1 F1 L1 E1.
  rewrite Hl, (Hp q Hq), Z.eqb_refl. cbn [andb negb]. apply wp_bind. eapply wp_geti; [by rewrite E1|].
  destruct (Z.ltb_spec (i_ref x) 1); [lia|].
  eapply wp_releasesleep_q; [by eapply quiet_frame; [apply B|]|by constructor|by rewrite L1|]. intros s2 F2 L2 E2.
  destruct (ist_lock R (Some ip) None s s2 ip (drop_lock k) I) as [I2 N2].
  - by etrans.
  - by rewrite L2, L1.
  - by rewrite E2, E1.
  - intros j _ Hj. split; congruence.
  - done.
  - apply HQ; [done|done|by rewrite E2, E1].
Qed.

(** [idup] takes one more reference. *)
Lemma wp_idup ip x R held Q s :
  ist p d sb V P R held s -> fs_inodes (k_fs s) !! ip = Some x -> 0 < i_ref x ->
  (forall y s', nframe s s' -> ist p d sb V P (incr (i_inum x) R) held s' -> fs_inodes (k_fs s') !! ip = Some y ->
     i_inum y = i_inum x -> 0 < i_ref y -> Q ip s') ->
  wp (idup ip) Q s.
Proof.
  intros I Hx Hr HQ. destruct (ist_lock_free _ _ _ I) as [Hwf Hf]. assert (Tb := is_tab _ _ _ _ _ _ _ _ I).
  destruct (it_ref _ _ _ _ _ Tb ip x Hx Hr) as [_ HR].
  assert (Tb' : itab sb d V (incr (i_inum x) R) (<[ip := set_i_ref (i_ref x + 1) x]> (fs_inodes (k_fs s)))).
  { by apply itab_incr. }
  destruct (ist_section R _ held s _ I Tb') as [I' F'].
  unfold idup. apply wp_bind, wp_acquire; [done..|]. apply wp_bind. eapply wp_updi_set; [done|]. apply wp_bind.
  eapply (wp_release_acq LItable (k_sync s)); [done..|]. apply wp_ret. apply (HQ (set_i_ref (i_ref x + 1) x)); [exact F'|exact I'| |done|cbn; lia].
  cbn. by rewrite list_lookup_insert_eq by by eapply lookup_lt_Some.
Qed.

(** [iput] gives back a reference to an inode that has links. *)
Lemma wp_iput ip x R held Q s :
  ist p d sb V P R held s -> fs_inodes (k_fs s) !! ip = Some x -> 0 < i_ref x -> (i_valid x = true -> i_nlink x <> 0) ->
  (forall s', nframe s s' -> ist p d sb V P (decr (i_inum x) R) held s' ->
     fs_inodes (k_fs s') = <[ip := set_i_ref (i_ref x - 1) x]> (fs_inodes (k_fs s)) -> Q tt s') ->
  wp (iput ip) Q s.
Proof.
  intros I Hx Hr Hn HQ. destruct (ist_lock_free _ _ _ I) as [Hwf Hf]. assert (Tb := is_tab _ _ _ _ _ _ _ _ I).
  destruct (it_ref _ _ _ _ _ Tb ip x Hx Hr) as [_ HR].
  assert (Tb' : itab sb d V (decr (i_inum x) R) (<[ip := set_i_ref (i_ref x - 1) x]> (fs_inodes (k_fs s)))).
  { unfold decr. rewrite HR. destruct (Z.eqb_spec (i_ref x) 1) as [E|E].
    - apply itab_drop; [done..|cbn; lia].
    - apply (itab_alter sb d V R _ ip x (set_i_ref (i_ref x - 1) x)); [done..|cbn; lia|].
      intros Hv. by apply coherent_ref, (it_valid _ _ _ _ _ Tb ip x Hx Hr). }
  destruct (ist_section R _ held s _ I Tb') as [I' F'].
  unfold iput. apply wp_bind, wp_acquire; [done..|]. apply wp_bind. eapply wp_geti; [done|].
  assert (Hc : (i_ref x =? 1) && i_valid x && (i_nlink x =? 0) = false).
  { destruct (i_valid x); [|by rewrite andb_false_r]. destruct (Z.eqb_spec (i_nlink x) 0); [by destruct (Hn eq_refl)|apply andb_false_r]. }
  rewrite Hc. apply wp_bind, wp_ret. apply wp_bind. eapply wp_updi_set; [done|].
  eapply (wp_release_acq LItable (k_sync s)); [done..|]. by apply HQ.
Qed.

End run.
