(* ===== verification/Namei.v ===== *)
(** * Path names ([dirlookup], [namex], [namei] and [nameiparent] of [fs.c])

    A path is a list of names, a directory a list of entries, and resolving a
    path follows the entries from inode to inode on the disk. The code does
    this with locks and reference counts on the inode table; it finds the same
    inode, and on every branch it gives back all locks and all references but
    the one to its result. *)

From stdpp Require Import base gmap strings numbers list.
From S2P Require Import Prelude State Spinlock Strings Printf Bytes Memory Kalloc Vm PageTable UserMem Proc.
From S2P Require Import Sleeplock Quiet Bio Cache Log LogSpec Txn Uio Fs FileData Icache.

(** ** Names of a path *)

(** The parts between slashes. *)
Fixpoint split (path : list Z) : list (list Z) :=
  match path with
  | [] => [[]]
  | c :: r =>
      if c =? slash then [] :: split r
      else match split r with s :: l => (c :: s) :: l | [] => [[c]] end
  end.

(** The names of a path are its non-empty parts, cut to [DIRSIZ] characters. *)
Definition path_names (path : list Z) : list (list Z) :=
  take DIRSIZ <$> filter (fun s => s <> []) (split path).

Lemma split_skip path : filter (fun s => s <> []) (split (skip_slashes path)) = filter (fun s => s <> []) (split path).
Proof.
  induction path as [|c r IH]; [done|]. cbn [split skip_slashes]. destruct (c =? slash) eqn:E; [|by cbn [split]; rewrite E].
  rewrite IH. by rewrite filter_cons_False by tauto.
Qed.

Lemma split_elem path : path <> [] -> exists l, split path = (elem path).1 :: l /\
  filter (fun s => s <> []) l = filter (fun s => s <> []) (split (skip_slashes (elem path).2)).
Proof.
  induction path as [|c r IH]; [done|]. intros _. cbn [split elem]. destruct (c =? slash) eqn:E.
  - exists (split r). split; [done|]. rewrite split_skip. cbn [fst snd split]. rewrite E.
    by rewrite filter_cons_False by tauto.
  - destruct r as [|c' r']; [by exists []|]. destruct IH as (l & Es & Hl); [done|].
    destruct (elem (c' :: r')) as [t u]. cbn [fst snd] in *. rewrite Es. by exists l.
Qed.

Lemma names_skip path : path_names (skip_slashes path) = path_names path.
Proof. unfold path_names. by rewrite split_skip. Qed.

Lemma skip_head path : match skip_slashes path with [] => True | c :: _ => c <> slash end.
Proof. induction path as [|c r IH]; [done|]. cbn. by destruct (Z.eqb_spec c slash). Qed.

Lemma elem_length path : length path = (length (elem path).1 + length (elem path).2)%nat.
Proof.
  induction path as [|c r IH]; [done|]. cbn. destruct (c =? slash); [done|]. destruct (elem r). cbn in *. lia.
Qed.

Lemma skip_length path : (length (skip_slashes path) <= length path)%nat.
Proof. induction path as [|c r IH]; [done|]. cbn. destruct (c =? slash); cbn; lia. Qed.

(** [skipelem] takes the first name off a path. *)
Lemma skipelem_names path :
  match skipelem path with
  | None => path_names path = []
  | Some (name, rest) => path_names path = name :: path_names rest /\ (length rest < length path)%nat /\
      (rest = [] <-> path_names rest = [])
  end.
Proof.
  unfold skipelem. assert (Hh := skip_head path). assert (Hn := names_skip path). assert (Hl := skip_length path).
  destruct (skip_slashes path) as [|c r] eqn:E; [by rewrite <- Hn|].
  destruct (elem (c :: r)) as [s u] eqn:Ee. destruct (split_elem (c :: r)) as (l & Es & El); [done|].
  assert (He := elem_length (c :: r)). rewrite Ee in Es, El, He. cbn [fst snd] in *.
  assert (Hs : s <> []).
  { cbn in Ee. destruct (Z.eqb_spec c slash); [done|]. destruct (elem r). by injection Ee as <- <-. }
  split_and!.
  - rewrite <- Hn. unfold path_names. rewrite Es, filter_cons_True, El by done. cbn [fmap list_fmap]. f_equal.
    destruct (Nat.leb_spec DIRSIZ (length s)); [done|]. rewrite take_ge by lia. done.
  - assert (length s <> 0%nat) by by destruct s. pose proof (skip_length u). lia.
  - split; [by intros ->|]. intros Hu. assert (Hhu := skip_head u). destruct (skip_slashes u) as [|c' u'] eqn:Eu; [done|].
    destruct (split_elem (c' :: u')) as (l' & Es' & _); [done|]. unfold path_names in Hu. rewrite Es', filter_cons_True in Hu; [done|].
    cbn. destruct (Z.eqb_spec c' slash); [done|]. by destruct (elem u').
Qed.

(** ** The tree on the disk *)

(** The inode with number [inum], as it is on the disk. *)
Definition node (sb : superblock) (V : disk) (inum : Z) : inode :=
  dec_dinode (dinode_off inum) (V (IBLOCK inum sb)) (mkinode 0 inum 0 false 0 0 0 0 0 []).

(** The entries of a directory. *)
Definition nents (x : inode) : nat := Z.to_nat (i_size x) / dirent_size.
Definition dirent_at (x : inode) (V : disk) (k : nat) : list Z := fbytes x V (dirent_size * k) dirent_size.
Definition entries (x : inode) (V : disk) : list (list Z) := dirent_at x V <$> seq 0 (nents x).

(** The entry is in use and has this name, as far as [DIRSIZ] characters go. *)
Definition is_entry (name de : list Z) : Prop :=
  de_inum de <> 0 /\ cstr DIRSIZ (arr name) = cstr DIRSIZ (arr (de_name de)).

#[global] Instance is_entry_dec name de : Decision (is_entry name de).
Proof. unfold is_entry. apply _. Defined.

(** The inode a name stands for in a directory. *)
Definition dir_find (x : inode) (V : disk) (name : list Z) : option Z :=
  (fun r => de_inum r.2) <$> list_find (is_entry name) (entries x V).

(** The inode a list of names leads to. *)
Fixpoint resolve (sb : superblock) (V : disk) (inum : Z) (names : list (list Z)) : option Z :=
  match names with
  | [] => Some inum
  | name :: names =>
      let x := node sb V inum in
      if i_type x =? T_DIR then
        match dir_find x V name with
        | Some inum => resolve sb V inum names
        | None => None
        end
      else None
  end.

(** The directory the last name is to be looked up in, and this name. *)
Definition resolve_parent (sb : superblock) (V : disk) (inum : Z) (names : list (list Z)) : option (Z * list Z) :=
  match last names with
  | Some name =>
      match resolve sb V inum (removelast names) with
      | Some inum => if i_type (node sb V inum) =? T_DIR then Some (inum, name) else None
      | None => None
      end
  | None => None
  end.

(** The contents of a directory are there, in whole entries. *)
Record dir_ok (x : inode) (V : disk) : Prop := {
  do_size : i_size x = Z.of_nat (dirent_size * nents x);
  do_max : i_size x < 2 ^ 31;
  do_blocks : blocks_ok x V;
  do_covers : covers x V 0 (dirent_size * nents x)
}.

(** [S] is a set of inodes in use, with links, closed under the entries of its
    directories. *)
Definition tree (sb : superblock) (V : disk) (S : Z -> Prop) : Prop := forall inum, S inum ->
  let x := node sb V inum in
  i_type x <> 0 /\ i_nlink x <> 0 /\
  (i_type x = T_DIR -> dir_ok x V /\ forall de, de ∈ entries x V -> de_inum de <> 0 -> S (de_inum de)).

Lemma fbytes_addrs x y V off n : i_addrs x = i_addrs y -> fbytes x V off n = fbytes y V off n.
Proof. intros E. unfold fbytes, fbyte, fblock, addr_of, ind_addr. by rewrite E. Qed.

(** A loaded entry of the table is the inode on the disk. *)
Lemma coherent_node sb V x : coherent sb V x ->
  let y := node sb V (i_inum x) in
  i_type x = i_type y /\ i_nlink x = i_nlink y /\ i_size x = i_size y /\ i_addrs x = i_addrs y.
Proof.
  intros H y. unfold coherent in H.
  split_and!; [transitivity (i_type (dec_dinode (dinode_off (i_inum x)) (V (IBLOCK (i_inum x) sb)) x))
    |transitivity (i_nlink (dec_dinode (dinode_off (i_inum x)) (V (IBLOCK (i_inum x) sb)) x))
    |transitivity (i_size (dec_dinode (dinode_off (i_inum x)) (V (IBLOCK (i_inum x) sb)) x))
    |transitivity (i_addrs (dec_dinode (dinode_off (i_inum x)) (V (IBLOCK (i_inum x) sb)) x))]; done || by rewrite H.
Qed.

Section same.
Context (x y : inode) (V : disk) (Es : i_size x = i_size y) (Ea : i_addrs x = i_addrs y).

Lemma entries_same : entries x V = entries y V.
Proof using Es Ea.
  unfold entries, nents. rewrite Es. apply list_fmap_ext. intros i k _. by apply fbytes_addrs.
Qed.

Lemma dir_ok_same : dir_ok y V -> dir_ok x V.
Proof using Es Ea.
  intros [H1 H2 H3 H4]. unfold nents, blocks_ok, covers, addr_of, ind_addr in *.
  split; unfold nents, blocks_ok, covers, addr_of, ind_addr; by rewrite ?Es, ?Ea.
Qed.

End same.

(** ** Running the code *)

Section run.
Context {W : World} {D : Disk} {DS : DiskSpec} {T : Patience}.
Context (p : nat) (d : Z) (sb : superblock) (V : disk) (P : gset Z) (HP : (size P < NBUF)%nat).
Implicit Types (R : gmap Z Z) (s : kst) (x y : inode) (ip dp : nat) (name : list Z).

(** Reading an entry of a directory. *)
Lemma wp_read_entry dp x k R held Q s :
  ist p d sb V P R held s -> fs_inodes (k_fs s) !! dp = Some x -> i_dev x = d -> dir_ok x V -> (k < nents x)%nat ->
  (forall s', nframe s s' -> ist p d sb V P R held s' -> fs_inodes (k_fs s') = fs_inodes (k_fs s) ->
     Q (Z.of_nat dirent_size, dirent_at x V k) s') ->
  wp (readi dp ToLocal (Z.of_nat (dirent_size * k)) (Z.of_nat dirent_size)) Q s.
Proof using HP DS.
  intros I Hx Hd [O1 O2 O3 O4] Hk HQ.
  assert (Hle : (dirent_size * k + dirent_size <= dirent_size * nents x)%nat) by nia.
  assert (Elen : Nat.min dirent_size (Z.to_nat (i_size x) - dirent_size * k) = dirent_size) by lia.
  apply (wp_readi p d V P dp x HP Hd O3); rewrite ?Elen; [apply I|done|lia|lia| |done|].
  - intros i Hi. apply (O4 (dirent_size * k + i)%nat). lia.
  - intros s' M B' S Em. assert (F : bframe s s').
    { unfold mframe in M. cbn in Em. rewrite <- Em in M. by rewrite set_k_mem_id in M. }
    destruct (ist_buffers p d sb V P _ _ _ _ I F B' S) as [I' N']. apply HQ; [done|done|by rewrite S].
Qed.

(** The search of a directory from entry [k] on. *)
Lemma wp_dirlookup_loop fuel dp x name (k : nat) R Q s :
  ist p d sb V P R (Some dp) s -> (size R < NINODE)%nat -> fs_inodes (k_fs s) !! dp = Some x -> i_dev x = d -> dir_ok x V ->
  (k <= nents x)%nat -> (nents x - k <= fuel)%nat ->
  (forall s', nframe s s' -> ist p d sb V P R (Some dp) s' -> still (fs_inodes (k_fs s)) (fs_inodes (k_fs s')) ->
     list_find (is_entry name) (dirent_at x V <$> seq k (nents x - k)) = None -> Q None s') ->
  (forall j de ip y s', list_find (is_entry name) (dirent_at x V <$> seq k (nents x - k)) = Some (j, de) ->
     nframe s s' -> ist p d sb V P (incr (de_inum de) R) (Some dp) s' ->
     still (fs_inodes (k_fs s)) (fs_inodes (k_fs s')) -> fs_inodes (k_fs s') !! ip = Some y -> i_inum y = de_inum de ->
     0 < i_ref y -> Q (Some (ip, Z.of_nat (dirent_size * (k + j)))) s') ->
  wp (dirlookup_loop fuel dp name (Z.of_nat (dirent_size * k))) Q s.
Proof using HP DS.
  revert k s Q. induction fuel as [|fuel IH]; intros k s Q I Hroom Hx Hd O Hk Hf HQ1 HQ2; cbn [dirlookup_loop];
    apply wp_bind; (eapply wp_geti; [done|]); rewrite (do_size _ _ O);
    destruct (Z.ltb_spec (Z.of_nat (dirent_size * k)) (Z.of_nat (dirent_size * nents x))) as [Hlt|Hge]; cbn [negb].
  1: nia.
  1, 3: assert (k = nents x) as -> by (unfold dirent_size in *; lia); rewrite Nat.sub_diag in *; apply wp_ret, HQ1; [done|done| |done];
    intros j z Hz Hr; by exists z.
  assert (Hk' : (k < nents x)%nat) by nia.
  replace (nents x - k)%nat with (S (nents x - S k)) in HQ1, HQ2 by lia. cbn [seq fmap list_fmap list_find] in HQ1, HQ2.
  apply wp_bind. eapply wp_read_entry; [done..|]. intros s1 N1 I1 E1. set (de := dirent_at x V k) in *. cbn [fst snd].
  rewrite Z.eqb_refl. cbn [negb]. assert (Hmax := do_max _ _ O). rewrite (do_size _ _ O) in Hmax.
  assert (Hnext : ~ is_entry name de ->
    wp (dirlookup_loop fuel dp name (wrap32 (Z.of_nat (dirent_size * k) + Z.of_nat dirent_size))) Q s1).
  { intros Hne. rewrite decide_False in HQ1, HQ2 by done.
    replace (wrap32 (Z.of_nat (dirent_size * k) + Z.of_nat dirent_size)) with (Z.of_nat (dirent_size * S k)).
    2: { rewrite wrap32_small; unfold dirent_size in *; lia. }
    apply IH; [done|done|by rewrite E1|done|done|lia|lia| |].
    - intros s2 N2 I2 St2 E2. apply HQ1; [by etrans|done|by rewrite <- E1|by rewrite E2].
    - intros j de' ip y s2 E2 N2 I2 St2 Hy Hi Hr. replace (S k + j)%nat with (k + S j)%nat by lia.
      apply (HQ2 (S j) de' ip y s2); [by rewrite E2|by etrans|done|by rewrite <- E1|done..]. }
  destruct (Z.eqb_spec (de_inum de) 0) as [E0|E0].
  { apply Hnext. by intros [? _]. }
  unfold namecmp. destruct (Z.eqb_spec (strncmp (arr name) (arr (de_name de)) DIRSIZ) 0) as [En|En].
  - apply strncmp_zero in En. rewrite decide_True in HQ2 by done. apply wp_bind. rewrite Hd.
    eapply wp_iget; [done|by right|]. intros ip y s2 N2 I2 Hy Hi Hr St2. apply wp_ret.
    replace k with (k + 0)%nat by lia. apply (HQ2 0%nat de ip y); [done|by etrans|done|by rewrite <- E1|done..].
  - apply Hnext. intros [_ En']. by apply En, strncmp_zero.
Qed.

Lemma wp_dirlookup dp x name R Q s :
  ist p d sb V P R (Some dp) s -> (size R < NINODE)%nat -> fs_inodes (k_fs s) !! dp = Some x -> i_dev x = d ->
  i_type x = T_DIR -> dir_ok x V ->
  (forall s', nframe s s' -> ist p d sb V P R (Some dp) s' -> still (fs_inodes (k_fs s)) (fs_inodes (k_fs s')) ->
     dir_find x V name = None -> Q None s') ->
  (forall inum off ip y s', dir_find x V name = Some inum -> (exists de, de ∈ entries x V /\ de_inum de = inum) -> inum <> 0 ->
     nframe s s' -> ist p d sb V P (incr inum R) (Some dp) s' ->
     still (fs_inodes (k_fs s)) (fs_inodes (k_fs s')) -> fs_inodes (k_fs s') !! ip = Some y -> i_inum y = inum ->
     0 < i_ref y -> Q (Some (ip, off)) s') ->
  wp (dirlookup dp name) Q s.
Proof using HP DS.
  intros I Hroom Hx Hd Ht O HQ1 HQ2. unfold dirlookup. apply wp_bind. eapply wp_geti; [done|]. rewrite Ht, Z.eqb_refl. cbn [negb].
  unfold dir_find, entries in *. rewrite <- (Nat.sub_0_r (nents x)) in HQ1, HQ2.
  apply (wp_dirlookup_loop _ dp x name 0 R); [done..|lia| | |].
  - rewrite (do_size _ _ O). unfold ceil_div.
    assert (Z.of_nat (nents x) <= (Z.of_nat (dirent_size * nents x) + Z.of_nat dirent_size - 1) / Z.of_nat dirent_size); [|lia].
    apply Z.div_le_lower_bound; unfold dirent_size; lia.
  - intros s' N' I' St E. apply HQ1; [done..|]. by rewrite E.
  - intros j de ip y s' E N' I' St Hy Hi Hr. eapply (HQ2 (de_inum de)); [by rewrite E| | |done..].
    + apply list_find_Some in E as (E & _ & _). exists de. split; [by eapply list_elem_of_lookup_2|done].
    + by apply list_find_Some in E as (_ & [? _] & _).
Qed.

(** ** Path resolution *)

Context (S : Z -> Prop) (HT : tree sb V S).

Lemma ist_pos R held s i r : ist p d sb V P R held s -> R !! i = Some r -> 0 < r.
Proof. intros I Hr. by destruct (it_all _ _ _ _ _ (is_tab _ _ _ _ _ _ _ _ I) i r Hr). Qed.

(** [iput] of an inode of the tree never truncates it. *)
Lemma wp_iput_tree ip x R held Q s :
  ist p d sb V P R held s -> fs_inodes (k_fs s) !! ip = Some x -> 0 < i_ref x -> S (i_inum x) ->
  (forall s', nframe s s' -> ist p d sb V P (decr (i_inum x) R) held s' ->
     fs_inodes (k_fs s') = <[ip := set_i_ref (i_ref x - 1) x]> (fs_inodes (k_fs s)) -> Q tt s') ->
  wp (iput ip) Q s.
Proof using HT.
  intros I Hx Hr HS HQ. eapply wp_iput; [done..| |done]. intros Hv.
  assert (C := it_valid _ _ _ _ _ (is_tab _ _ _ _ _ _ _ _ I) ip x Hx Hr Hv).
  destruct (coherent_node _ _ _ C) as (_ & -> & _). by destruct (HT _ HS) as (_ & ? & _).
Qed.

Lemma wp_iunlockput ip x R Q s :
  ist p d sb V P R (Some ip) s -> fs_inodes (k_fs s) !! ip = Some x -> 0 < i_ref x -> S (i_inum x) ->
  (forall s', nframe s s' -> ist p d sb V P (decr (i_inum x) R) None s' ->
     fs_inodes (k_fs s') = <[ip := set_i_ref (i_ref x - 1) x]> (fs_inodes (k_fs s)) -> Q tt s') ->
  wp (iunlockput ip) Q s.
Proof using HT.
  intros I Hx Hr HS HQ. unfold iunlockput. apply wp_bind. eapply wp_iunlock; [done..|]. intros s1 N1 I1 E1.
  eapply wp_iput_tree; [done|by rewrite E1|done|done|]. intros s2 N2 I2 E2. apply HQ; [by etrans|done|by rewrite E2, E1].
Qed.

(** What [namex] looks for: the last directory and name, or the inode. *)
Fixpoint lookup_path (par : bool) (inum : Z) (names : list (list Z)) : option (Z * list Z) :=
  match names with
  | [] => if par then None else Some (inum, [])
  | name :: names =>
      let x := node sb V inum in
      if negb (i_type x =? T_DIR) then None else
      if par && bool_decide (names = []) then Some (inum, name) else
      match dir_find x V name with
      | Some inum => lookup_path par inum names
      | None => None
      end
  end.

Lemma lookup_path_resolve inum names : fst <$> lookup_path false inum names = resolve sb V inum names.
Proof.
  revert inum. induction names as [|n names IH]; intros inum; [done|]. cbn [lookup_path resolve andb].
  destruct (i_type (node sb V inum) =? T_DIR); [|done]. cbn [negb]. destruct (dir_find _ _ _); [apply IH|done].
Qed.

Lemma lookup_path_parent inum names : lookup_path true inum names = resolve_parent sb V inum names.
Proof.
  unfold resolve_parent. revert inum. induction names as [|n names IH]; intros inum; [done|].
  cbn [lookup_path andb]. destruct names as [|n' names]; [cbn [last removelast resolve]; rewrite bool_decide_true by done; by destruct (i_type (node sb V inum) =? T_DIR)|].
  rewrite bool_decide_false by done. cbn [last removelast resolve]. change (match names with [] => Some n' | _ => last names end) with (last (n' :: names)).
  destruct (i_type (node sb V inum) =? T_DIR); cbn [negb]; [|by destruct (last (n' :: names))].
  destruct (dir_find _ _ _) as [i|]; [apply IH|by destruct (last (n' :: names))].
Qed.

(** The directory is left and the inode found in it kept. *)
Lemma wp_step ip x next y R Q s :
  ist p d sb V P (incr (i_inum y) (incr (i_inum x) R)) (Some ip) s -> map_Forall (fun _ r => 0 < r) R ->
  fs_inodes (k_fs s) !! ip = Some x -> 0 < i_ref x -> S (i_inum x) -> fs_inodes (k_fs s) !! next = Some y -> 0 < i_ref y ->
  (forall z s', nframe s s' -> ist p d sb V P (incr (i_inum y) R) None s' -> fs_inodes (k_fs s') !! next = Some z ->
     i_inum z = i_inum y -> 0 < i_ref z -> Q tt s') ->
  wp (iunlockput ip) Q s.
Proof using HT.
  clear HP. intros I HR Hx Hr HS Hy Hry HQ. eapply wp_iunlockput; [done..|]. intros s' N' I' E'. rewrite decr_incr_incr in I' by apply HR.
  destruct (decide (next = ip)) as [->|Hne].
  - rewrite Hx in Hy. injection Hy as <-. destruct (it_ref _ _ _ _ _ (is_tab _ _ _ _ _ _ _ _ I) ip x Hx Hr) as [_ Hc].
    unfold incr in Hc. rewrite !lookup_insert_eq in Hc. injection Hc as Hc.
    assert (0 <= default 0 (R !! i_inum x)).
    { destruct (R !! i_inum x) as [r|] eqn:Er; cbn; [|lia]. specialize (HR _ _ Er). cbn in HR. lia. }
    eapply (HQ (set_i_ref (i_ref x - 1) x)); [done|done| |done|cbn in *; lia].
    rewrite E'. by rewrite list_lookup_insert_eq by by eapply lookup_lt_Some.
  - apply (HQ y); [done|done|by rewrite E', list_lookup_insert_ne|done|done].
Qed.

Lemma wp_namex_loop fuel ip x path par name R Q s :
  ist p d sb V P (incr (i_inum x) R) None s -> map_Forall (fun _ r => 0 < r) R -> (size R + 2 <= NINODE)%nat ->
  fs_inodes (k_fs s) !! ip = Some x -> 0 < i_ref x -> S (i_inum x) -> (length path <= fuel)%nat ->
  (forall s', nframe s s' -> ist p d sb V P R None s' -> lookup_path par (i_inum x) (path_names path) = None -> Q None s') ->
  (forall t nm nm' ip' y s', nframe s s' -> lookup_path par (i_inum x) (path_names path) = Some (t, nm) ->
     (par = true -> nm' = nm) -> ist p d sb V P (incr t R) None s' -> fs_inodes (k_fs s') !! ip' = Some y -> i_inum y = t ->
     0 < i_ref y -> Q (Some (ip', nm')) s') ->
  wp (namex_loop fuel ip path par name) Q s.
Proof using HT HP DS.
  revert ip x path name s Q. induction fuel as [|fuel IH]; intros ip x path name s Q I HR Hsz Hx Hr HS Hf HQ1 HQ2; cbn [namex_loop];
    assert (Hsk := skipelem_names path); destruct (skipelem path) as [[n rest]|].
  1: lia.
  1, 3: rewrite Hsk in HQ1, HQ2; destruct par;
    [apply wp_bind; eapply wp_iput_tree; [done..|]; intros s' N' I' _; rewrite decr_incr in I' by apply HR; apply wp_ret; by apply HQ1
    |apply wp_ret; eapply HQ2; [done|done|done|exact I|done|done|done]].
  destruct Hsk as (En & Hlen & Hemp). rewrite En in HQ1, HQ2. cbn [lookup_path] in HQ1, HQ2.
  destruct (HT _ HS) as (Ht & _ & Hdir). apply wp_bind. eapply wp_ilock; [done..|exact Ht|].
  intros y s1 N1 I1 Hy Ei Er Ev. assert (C := it_valid _ _ _ _ _ (is_tab _ _ _ _ _ _ _ _ I1) ip y Hy ltac:(lia) Ev).
  destruct (coherent_node _ _ _ C) as (Et & _ & Es & Ea). rewrite Ei in Et, Es, Ea.
  destruct (it_ref _ _ _ _ _ (is_tab _ _ _ _ _ _ _ _ I1) ip y Hy ltac:(lia)) as [Hd _]. rewrite <- Ei in *.
  apply wp_bind. eapply wp_geti; [done|]. rewrite <- Et in *. destruct (Z.eqb_spec (i_type y) T_DIR) as [Htd|Htd]; cbn [negb] in *.
  2: { apply wp_bind. eapply wp_iunlockput; [done|done|lia|done|]. intros s2 N2 I2 _. rewrite decr_incr in I2 by apply HR.
       apply wp_ret, HQ1; [by etrans|done|done]. }
  destruct (Hdir Htd) as [Hok Hsub]. apply (dir_ok_same y) in Hok; [|done..].
  rewrite <- (entries_same y _ V Es Ea) in Hsub.
  assert (Edf : dir_find (node sb V (i_inum y)) V n = dir_find y V n).
  { unfold dir_find. by rewrite (entries_same y _ V Es Ea). }
  rewrite Edf in HQ1, HQ2. rewrite <- (bool_decide_ext _ _ Hemp) in HQ1, HQ2.
  destruct (par && bool_decide (rest = [])) eqn:Ep.
  { apply wp_bind. eapply wp_iunlock; [done|done|lia|]. intros s2 N2 I2 E2. apply wp_ret.
    eapply HQ2; [by etrans|done|done|done|by rewrite E2|done|lia]. }
  assert (Hroom : (size (incr (i_inum y) R) < NINODE)%nat) by (pose proof (incr_size (i_inum y) R); lia).
  apply wp_bind. eapply wp_dirlookup; [done..| |].
  - intros s2 N2 I2 St E. destruct (St ip y Hy ltac:(lia)) as (y2 & Hy2 & Ei2 & Hr2). rewrite <- Ei2 in *.
    apply wp_bind. eapply wp_iunlockput; [done..|]. intros s3 N3 I3 _. rewrite decr_incr in I3 by apply HR.
    apply wp_ret. rewrite E in HQ1. apply HQ1; [|done|done]. etrans; [exact N1|]. by etrans.
  - intros inum off next z s2 E (de & Hde & Ede) Hnz N2 I2 St Hz Ez Hrz. rewrite E in HQ1, HQ2.
    destruct (St ip y Hy ltac:(lia)) as (y2 & Hy2 & Ei2 & Hr2). rewrite <- Ei2 in *. rewrite <- Ez in *.
    apply wp_bind. eapply (wp_step ip y2 next z); [done..|]. intros z3 s3 N3 I3 Hz3 Ez3 Hr3.
    assert (N03 : nframe s s3) by (etrans; [exact N1|]; by etrans). rewrite <- Ez3 in *.
    eapply (IH next z3); [done|done|done|done|done|rewrite <- Ede; apply Hsub; [done|congruence]|lia| |].
    + intros s4 N4 I4 E4. apply HQ1; [by etrans|done|done].
    + intros t nm nm' ip' w s4 N4 E4 Hnm I4 Hw Ew Hrw. eapply HQ2; [by etrans|done..].
Qed.

End run.

(** The inode a path starts at: the root, or the current directory. *)
Definition starts (p : nat) (s : kst) (path : list Z) (inum : Z) : Prop :=
  if bool_decide (head path = Some slash) then inum = ROOTINO
  else exists q ip x, k_procs s !! p = Some q /\ p_cwd q = Some ip /\ fs_inodes (k_fs s) !! ip = Some x /\ 0 < i_ref x /\
    i_inum x = inum.

Section namex.
Context {W : World} {D : Disk} {DS : DiskSpec} {T : Patience}.
Context (p : nat) (sb : superblock) (V : disk) (P : gset Z) (HP : (size P < NBUF)%nat).
Context (S : Z -> Prop) (HT : tree sb V S).

Lemma wp_namex path par R cur Q s :
  ist p ROOTDEV sb V P R None s -> (size R + 2 <= NINODE)%nat -> starts p s path cur -> S cur ->
  (forall s', nframe s s' -> ist p ROOTDEV sb V P R None s' -> lookup_path sb V par cur (path_names path) = None -> Q None s') ->
  (forall t nm nm' ip y s', nframe s s' -> lookup_path sb V par cur (path_names path) = Some (t, nm) ->
     (par = true -> nm' = nm) -> ist p ROOTDEV sb V P (incr t R) None s' -> fs_inodes (k_fs s') !! ip = Some y -> i_inum y = t ->
     0 < i_ref y -> Q (Some (ip, nm')) s') ->
  wp (namex path par) Q s.
Proof using HT HP DS.
  intros I Hsz Hst HS HQ1 HQ2. unfold namex, starts in *.
  assert (HR : map_Forall (fun _ r => 0 < r) R) by (intros i r Hr; by eapply (ist_pos p _ sb V P)).
  assert (Hgo : forall ip x s1, nframe s s1 -> ist p ROOTDEV sb V P (incr (i_inum x) R) None s1 ->
    fs_inodes (k_fs s1) !! ip = Some x -> i_inum x = cur -> 0 < i_ref x -> wp (namex_loop (length path) ip path par []) Q s1).
  { intros ip x s1 N1 I1 Hx <- Hr. eapply (wp_namex_loop p ROOTDEV sb V P HP S HT _ ip x); [done..| |].
    - intros s2 N2 I2 E. apply HQ1; [by etrans|done|done].
    - intros t nm nm' ip' y s2 N2 E Hnm I2 Hy Ey Hry. eapply HQ2; [by etrans|done..]. }
  apply wp_bind. case_bool_decide as Hh.
  - subst cur. eapply wp_iget; [done|right; lia|]. intros ip x s1 N1 I1 Hx Ex Hr _. apply (Hgo ip x s1); [done| |done..]. by rewrite Ex.
  - destruct Hst as (q & ip & x & Hq & Hcwd & Hx & Hr & Ex). apply wp_bind. eapply (wp_myproc_q p); [apply I|].
    intros s1 F1 L1 E1. apply wp_bind. eapply wp_deref; [done|].
    destruct (ist_set p ROOTDEV sb V P R R None s s1 (fs_inodes (k_fs s)) I F1 L1) as [I1 N1].
    { rewrite E1. by destruct (k_fs s). }
    { apply I. }
    destruct (frame_proc _ _ _ _ F1 Hq) as (q1 & Hq1 & (st & w & Eq & _)). apply wp_bind. eapply wp_getp; [done|].
    apply wp_bind. eapply wp_deref; [by rewrite Eq|]. subst cur. eapply wp_idup; [done|by rewrite E1|done|].
    intros y s2 N2 I2 Hy Ey Hry. apply (Hgo ip y s2); [by etrans|by rewrite Ey|done..].
Qed.

End namex.

(** ** Properties *)

(** C14: [namei] finds the inode the names of the path lead to and returns a
    reference to it, or fails when a name is missing or something that is not
    a directory is on the way; it follows paths from the root and from the
    current directory. It returns on every path, changes nothing but the inode
    table and the buffers, and gives back every lock and every other reference
    it took. *)
Theorem namei_spec {W : World} {D : Disk} {DS : DiskSpec} {T : Patience}
    (p : nat) (sb : superblock) (V : disk) (P : gset Z) (S : Z -> Prop) (R : gmap Z Z) (path : list Z) (cur : Z) (s : kst)
    (Hs : ist p ROOTDEV sb V P R None s) (HP : (size P < NBUF)%nat) (Hroom : (size R + 2 <= NINODE)%nat)
    (HT : tree sb V S) (Hcur : starts p s path cur) (HS : S cur) :
  wp (namei path) (fun r s' => nframe s s' /\
    match resolve sb V cur (path_names path) with
    | Some t => exists ip x, r = Some ip /\ fs_inodes (k_fs s') !! ip = Some x /\ i_dev x = ROOTDEV /\ i_inum x = t /\
        ist p ROOTDEV sb V P (incr t R) None s'
    | None => r = None /\ ist p ROOTDEV sb V P R None s'
    end) s.
Proof.
  unfold namei. apply wp_bind. eapply (wp_namex p sb V P HP S HT path false R cur); [done..| |].
  - intros s' N I E. apply wp_ret. split; [done|]. by rewrite <- lookup_path_resolve, E.
  - intros t nm nm' ip y s' N E _ I Hy Ey Hr. apply wp_ret. split; [done|]. rewrite <- lookup_path_resolve, E.
    exists ip, y. split_and!; try done. by apply (it_ref _ _ _ _ _ (is_tab _ _ _ _ _ _ _ _ I) ip).
Qed.

(** [nameiparent] finds the directory the last name of the path is to be
    looked up in, whether the name is there or not, together with this name
    cut to [DIRSIZ] characters; it fails on a path without names. It gives
    back every lock and every other reference it took. *)
Theorem nameiparent_spec {W : World} {D : Disk} {DS : DiskSpec} {T : Patience}
    (p : nat) (sb : superblock) (V : disk) (P : gset Z) (S : Z -> Prop) (R : gmap Z Z) (path : list Z) (cur : Z) (s : kst)
    (Hs : ist p ROOTDEV sb V P R None s) (HP : (size P < NBUF)%nat) (Hroom : (size R + 2 <= NINODE)%nat)
    (HT : tree sb V S) (Hcur : starts p s path cur) (HS : S cur) :
  wp (nameiparent path) (fun r s' => nframe s s' /\
    match resolve_parent sb V cur (path_names path) with
    | Some (t, name) => exists ip x, r = Some (ip, name) /\ fs_inodes (k_fs s') !! ip = Some x /\ i_dev x = ROOTDEV /\ i_inum x = t /\
        ist p ROOTDEV sb V P (incr t R) None s'
    | None => r = None /\ ist p ROOTDEV sb V P R None s'
    end) s.
Proof.
  unfold nameiparent. eapply (wp_namex p sb V P HP S HT path true R cur); [done..| |].
  - intros s' N I E. split; [done|]. by rewrite <- lookup_path_parent, E.
  - intros t nm nm' ip y s' N E Hnm I Hy Ey Hr. split; [done|]. rewrite <- lookup_path_parent, E, <- Hnm by done.
    exists ip, y. split_and!; try done. by apply (it_ref _ _ _ _ _ (is_tab _ _ _ _ _ _ _ _ I) ip).
Qed.
