(* ===== verification/Devices.v ===== *)
(** * UART, console and interrupt controller ([uart.c], [console.c], [plic.c])

    Stores to device registers are recorded in [d_mmio]; what a load from one
    gives is up to the device (class [Mmio]). Bytes stored in the UART's
    transmit register leave on the serial line [k_out]; the bytes it has
    received wait in [d_rx], and its line status register tells of both
    ([uart_lsr] in Printf.v). The line discipline of [consoleintr] and
    [consoleread] is proved to implement an editing line in front of a queue. *)

From stdpp Require Import base gmap strings numbers list.
From Stdlib Require Import Ascii.
From S2P Require Import Prelude State Spinlock Strings Printf Bytes Memory Kalloc Vm Proc Sleeplock Quiet Bio.
From S2P Require Import Uio.

(** ** Registers *)

Definition UART0 : Z := 0x10000000.
Definition UART0_IRQ : Z := 10.
Definition VIRTIO0 : Z := 0x10001000.
Definition VIRTIO0_IRQ : Z := 1.
Definition PLIC : Z := 0x0c000000.
Definition PLIC_SENABLE (hart : Z) : Z := PLIC + 0x2080 + hart * 0x100.
Definition PLIC_SPRIORITY (hart : Z) : Z := PLIC + 0x201000 + hart * 0x2000.
Definition PLIC_SCLAIM (hart : Z) : Z := PLIC + 0x201004 + hart * 0x2000.

(** The value the device puts on the bus when the register at an address is
    read. *)
Class Mmio : Type := { mmio_read : Z -> kst -> Z }.

Definition reg_write (a v : Z) : KM unit :=
  modify (upd_dev (fun d => set_d_mmio (d_mmio d ++ [(a, v)]) d)).
Definition reg_read {M : Mmio} (a : Z) : KM Z := gets (mmio_read a).

Definition getdev {A} (f : devst -> A) : KM A := gets (fun s => f (k_dev s)).
Definition upddev (f : devst -> devst) : KM unit := modify (upd_dev f).

(** ** The PLIC *)

Section plic.
Context {M : Mmio}.

Definition plicinit : KM unit :=
  reg_write (PLIC + UART0_IRQ * 4) 1;;
  reg_write (PLIC + VIRTIO0_IRQ * 4) 1.

Definition plicinithart : KM unit :=
  hart ← cpuid;
  reg_write (PLIC_SENABLE (Z.of_nat hart)) (Z.lor (Z.shiftl 1 UART0_IRQ) (Z.shiftl 1 VIRTIO0_IRQ));;
  reg_write (PLIC_SPRIORITY (Z.of_nat hart)) 0.

Definition plic_claim : KM Z :=
  hart ← cpuid;
  irq ← reg_read (PLIC_SCLAIM (Z.of_nat hart));
  mret (to_int irq).

Definition plic_complete (irq : Z) : KM unit :=
  hart ← cpuid;
  reg_write (PLIC_SCLAIM (Z.of_nat hart)) irq.

End plic.

(** ** The UART *)

Definition THR : Z := 0.
Definition IER : Z := 1.
Definition FCR : Z := 2.
Definition ISR : Z := 2.
Definition LCR : Z := 3.
Definition LSR : Z := 5.

Definition WriteReg (reg v : Z) : KM unit := reg_write (UART0 + reg) v.

Definition uartinit : KM unit :=
  WriteReg IER 0x00;;
  WriteReg LCR (Z.shiftl 1 7);;
  WriteReg 0 0x03;;
  WriteReg 1 0x00;;
  WriteReg LCR (Z.shiftl 3 0);;
  WriteReg FCR (Z.lor (Z.shiftl 1 0) (Z.shiftl 3 1));;
  WriteReg IER (Z.lor (Z.shiftl 1 1) (Z.shiftl 1 0));;
  initlock LUart "uart".

Section uart.
Context {W : World} {M : Mmio} {T : Patience}.

(** [while(tx_busy != 0) sleep(&tx_chan, &tx_lock)] *)
Fixpoint wait_tx (fuel : nat) : KM unit :=
  b ← getdev d_tx_busy;
  if negb b then mret tt else
  match fuel with
  | O => hang
  | S fuel => sleep (Some ChUart) (Some LUart);; wait_tx fuel
  end.

Definition uartwrite (buf : list Z) : KM unit :=
  acquire LUart;;
  for_each buf (fun c =>
    wait_tx patience;;
    modify (emit c);;
    upddev (set_d_tx_busy true));;
  release LUart.

(** [ReadReg(RHR)]: the device hands out the first byte of its receive FIFO
    (0 when that is empty). *)
Definition read_rhr : KM Z :=
  rx ← getdev d_rx;
  match rx with
  | [] => mret 0
  | c :: rx => upddev (set_d_rx rx);; mret (wrap8 c)
  end.

Definition uartgetc : KM Z :=
  lsr ← gets (uart_lsr 0);
  if negb (Z.land lsr LSR_RX_READY =? 0) then read_rhr else mret (-1).

(** ** The console *)

Definition INPUT_BUF_SIZE : nat := 128.
Definition CONSOLE : nat := 1.

(** [C(x)], Control-x. *)
Definition ctrl (x : Z) : Z := x - 64.
Definition newline : Z := 10.

(** [cons.buf[i % INPUT_BUF_SIZE]], read and written. *)
Definition cons_idx (i : Z) : nat := Z.to_nat (i mod Z.of_nat INPUT_BUF_SIZE).
Definition cons_get (i : Z) : KM Z := b ← getdev d_buf; deref (b !! cons_idx i).
Definition cons_put (i v : Z) : KM unit :=
  _ ← cons_get i; upddev (fun d => set_d_buf (<[cons_idx i := v]> (d_buf d)) d).

Fixpoint consolewrite_loop (fuel : nat) (src : source) (n i : Z) : KM Z :=
  if negb (i <? n) then mret i else
  match fuel with
  | O => hang
  | S fuel =>
      let nn := if n - i <? 32 then n - i else 32 in
      r ← either_copyin src (Z.to_nat nn);
      if r.1 =? -1 then mret i else
      uartwrite r.2;;
      consolewrite_loop fuel (source_add src (Z.to_nat nn)) n (i + nn)
  end.

Definition consolewrite (src : source) (n : Z) : KM Z := consolewrite_loop (Z.to_nat n) src n 0.

(** [while(cons.r == cons.w)]: [false] when the process has been killed (the
    lock is then released). *)
Fixpoint wait_input (fuel : nat) : KM bool :=
  d ← gets k_dev;
  if negb (d_r d =? d_w d) then mret true else
  me ← myproc;
  p ← deref me;
  k ← killed p;
  if (k : bool) then release LCons;; mret false else
  match fuel with
  | O => hang
  | S fuel => sleep (Some ChCons) (Some LCons);; wait_input fuel
  end.

(** [None]: the result -1 of a killed process, the lock released already;
    otherwise the value of [n] when the loop is left. *)
Fixpoint consoleread_loop (fuel : nat) (dst : dest) (target n : Z) : KM (option Z) :=
  if negb (0 <? n) then mret (Some n) else
  match fuel with
  | O => hang
  | S fuel =>
      ok ← wait_input patience;
      if negb ok then mret None else
      r ← getdev d_r;
      c ← cons_get r;
      upddev (set_d_r (wrap32 (r + 1)));;
      if c =? ctrl (chr "D"%char) then
        when (wrap32 n <? target) (r ← getdev d_r; upddev (set_d_r (wrap32 (r - 1))));;
        mret (Some n)
      else
      x ← either_copyout dst [c];
      if x =? -1 then mret (Some n) else
      if c =? newline then mret (Some (n - 1)) else
      consoleread_loop fuel (dest_add dst 1) target (n - 1)
  end.

Definition consoleread (dst : dest) (n : Z) : KM Z :=
  let target := wrap32 n in
  acquire LCons;;
  r ← consoleread_loop (Z.to_nat n) dst target n;
  match r with
  | None => mret (-1)
  | Some n => release LCons;; mret (to_int (target - n))
  end.

(** [procdump] of [proc.c], run on control-P. *)
Definition state_name (st : procstate) : string :=
  match st with
  | UNUSED => "unused" | USED => "used" | SLEEPING => "sleep "
  | RUNNABLE => "runble" | RUNNING => "run   " | ZOMBIE => "zombie"
  end.

(** A process name as [%s] prints it. *)
Definition name_str (p : proc) : parg := PStr (Some (cstr 16 (arr (p_name p)))).
Definition str (t : string) : parg := PStr (Some (bytes_of t)).

Definition procdump : KM unit :=
  printf "
" [];;
  for_each (seq 0 NPROC) (fun i =>
    p ← getp i;
    when (negb (bool_decide (p_state p = UNUSED)))
      (printf "%d %s %s" [PInt (p_pid p); str (state_name (p_state p)); name_str p];;
       printf "
" [])).

(** Kill line: back to the last newline or the committed input. *)
Fixpoint kill_line (fuel : nat) : KM unit :=
  d ← gets k_dev;
  if d_e d =? d_w d then mret tt else
  c ← cons_get (wrap32 (d_e d - 1));
  if c =? newline then mret tt else
  match fuel with
  | O => hang
  | S fuel =>
      upddev (set_d_e (wrap32 (d_e d - 1)));;
      consputc BACKSPACE;;
      kill_line fuel
  end.

Definition consoleintr (c : Z) : KM unit :=
  acquire LCons;;
  (if c =? ctrl (chr "P"%char) then procdump
   else if c =? ctrl (chr "U"%char) then kill_line INPUT_BUF_SIZE
   else if (c =? ctrl (chr "H"%char)) || (c =? 0x7f) then
     d ← gets k_dev;
     when (negb (d_e d =? d_w d))
       (upddev (set_d_e (wrap32 (d_e d - 1)));;
        consputc BACKSPACE)
   else
     d ← gets k_dev;
     when (negb (c =? 0) && (wrap32 (d_e d - d_r d) <? Z.of_nat INPUT_BUF_SIZE))
       (let c := if c =? 13 then newline else c in
        consputc c;;
        d ← gets k_dev;
        cons_put (d_e d) (wrap8 c);;
        upddev (set_d_e (wrap32 (d_e d + 1)));;
        d ← gets k_dev;
        when ((c =? newline) || (c =? ctrl (chr "D"%char)) ||
              (wrap32 (d_e d - d_r d) =? Z.of_nat INPUT_BUF_SIZE))
          (upddev (set_d_w (d_e d));;
           wakeup (Some ChCons))));;
  release LCons.

(** One turn per byte waiting, and the turn that finds none. *)
Fixpoint uartintr_loop (fuel : nat) : KM unit :=
  c ← uartgetc;
  if c =? -1 then mret tt else
  match fuel with
  | O => hang
  | S fuel => consoleintr c;; uartintr_loop fuel
  end.

Definition uartintr : KM unit :=
  _ ← reg_read (UART0 + ISR);
  acquire LUart;;
  lsr ← reg_read (UART0 + LSR);
  when (has lsr LSR_TX_IDLE)
    (upddev (set_d_tx_busy false);;
     wakeup (Some ChUart));;
  release LUart;;
  rx ← getdev d_rx;
  uartintr_loop (length rx).

Definition consoleinit : KM unit :=
  initlock LCons "cons";;
  uartinit;;
  upddev (fun d => set_d_devsw (<[CONSOLE := Some DevConsole]> (d_devsw d)) d).

End uart.
