(* ===== verification/Tty.v ===== *)
(** * The console's line discipline

    [consoleintr] and [consoleread] on the ring [cons.buf] implement a
    terminal: a queue of committed bytes behind which a line is being edited.
    [tty_input] and [tty_read] say what a key and a read do to it. *)

From stdpp Require Import base gmap strings numbers list.
From Stdlib Require Import Ascii.
From S2P Require Import Prelude State Spinlock Strings Printf Bytes Ring Memory Kalloc Vm PageTable UserMem.
From S2P Require Import Proc Sleeplock Quiet Bio Uio Devices.

(** ** The specification *)

(** What readers may take, and the line being edited. *)
Record tty := mktty { t_com : list Z; t_ed : list Z }.

Definition eot : Z := ctrl (chr "D"%char).
Definition rubout : list Z := [8; 32; 8].

(** A key: what it means, given the terminal's state. *)
Inductive key : Type :=
| KDump
| KKill
| KErase
| KIgnored
| KChar (c : Z).

Definition room (t : tty) : bool := (length (t_com t ++ t_ed t) <? INPUT_BUF_SIZE)%nat.

Definition key_of (c : Z) (t : tty) : key :=
  if c =? ctrl (chr "P"%char) then KDump
  else if c =? ctrl (chr "U"%char) then KKill
  else if (c =? ctrl (chr "H"%char)) || (c =? 0x7f) then KErase
  else if negb (c =? 0) && room t then KChar (if c =? 13 then newline else c) else KIgnored.

(** A character ends the line, or fills the buffer. *)
Definition commits (c : Z) (t : tty) : bool :=
  (c =? newline) || (c =? eot) || (S (length (t_com t ++ t_ed t)) =? INPUT_BUF_SIZE)%nat.

Definition tty_key (k : key) (t : tty) : tty :=
  match k with
  | KDump | KIgnored => t
  | KKill => mktty (t_com t) []
  | KErase => mktty (t_com t) (removelast (t_ed t))
  | KChar c => if commits c t then mktty (t_com t ++ t_ed t ++ [c]) [] else mktty (t_com t) (t_ed t ++ [c])
  end.

Definition tty_input (c : Z) (t : tty) : tty := tty_key (key_of c t) t.

(** What is echoed; control-P lists the processes instead. *)
Definition echo (k : key) (t : tty) : list Z :=
  match k with
  | KDump | KIgnored => []
  | KKill => concat (replicate (length (t_ed t)) rubout)
  | KErase => match t_ed t with [] => [] | _ => rubout end
  | KChar c => [c]
  end.

Definition wakes (k : key) (t : tty) : bool :=
  match k with KChar c => commits c t | _ => false end.

(** A read of at most [n] bytes: what it delivers and what stays; [None] if it
    has to wait. A line ends a read; an end of file ends it too, and stays for
    the next one if this one delivered something. *)
Fixpoint tty_read (n : nat) (got : bool) (com : list Z) : option (list Z * list Z) :=
  match n, com with
  | O, _ => Some ([], com)
  | S _, [] => None
  | S n, c :: rest =>
      if c =? eot then Some ([], if got then com else rest)
      else if c =? newline then Some ([c], rest)
      else r ← tty_read n true rest; Some (c :: r.1, r.2)
  end.

(** ** The ring *)

Record tty_rep (d : devst) (t : tty) : Prop := {
  tr_buf : length (d_buf d) = INPUT_BUF_SIZE;
  tr_r : 0 <= d_r d < 2 ^ 32;
  tr_w : d_w d = wrap32 (d_r d + Z.of_nat (length (t_com t)));
  tr_e : d_e d = wrap32 (d_r d + Z.of_nat (length (t_com t ++ t_ed t)));
  tr_fits : (length (t_com t ++ t_ed t) <= INPUT_BUF_SIZE)%nat;
  tr_bytes : holds INPUT_BUF_SIZE (d_buf d) (d_r d) (t_com t ++ t_ed t);
  tr_line : Forall (fun c => c <> newline) (t_ed t)
}.

Section ring.
Implicit Types (d : devst) (t : tty).

Lemma INPUT_pos : (0 < INPUT_BUF_SIZE)%nat.
Proof. unfold INPUT_BUF_SIZE. lia. Qed.

Lemma INPUT_div : (Z.of_nat INPUT_BUF_SIZE | 2 ^ 32).
Proof. by exists 33554432. Qed.

Lemma tty_nothing_edited d t : tty_rep d t -> (d_e d =? d_w d) = bool_decide (t_ed t = []).
Proof.
  intros [_ _ -> -> H _ _]. unfold INPUT_BUF_SIZE in H. rewrite length_app in *.
  rewrite wrap32_offset by lia. destruct (t_ed t) as [|c l]; cbn.
  - rewrite Nat.add_0_r. apply Nat.eqb_refl.
  - apply Nat.eqb_neq. lia.
Qed.

Lemma counter_dist r (n : nat) :
  0 <= r < 2 ^ 32 -> (n <= INPUT_BUF_SIZE)%nat -> wrap32 (wrap32 (r + Z.of_nat n) - r) = Z.of_nat n.
Proof.
  unfold INPUT_BUF_SIZE. intros Hr Hn. rewrite <- (wrap32_small r) at 2 by done.
  rewrite <- (Z.add_0_r r) at 2. rewrite (wrap32_dist _ _ 0) by lia. f_equal. lia.
Qed.

Lemma tty_used d t : tty_rep d t -> wrap32 (d_e d - d_r d) = Z.of_nat (length (t_com t ++ t_ed t)).
Proof. intros [_ Hr _ -> H _ _]. by apply counter_dist. Qed.

Lemma tty_room d t :
  tty_rep d t -> (wrap32 (d_e d - d_r d) <? Z.of_nat INPUT_BUF_SIZE) = room t.
Proof.
  intros H. rewrite (tty_used _ _ H). unfold room.
  destruct (Nat.ltb_spec (length (t_com t ++ t_ed t)) INPUT_BUF_SIZE); zcases; lia.
Qed.

(** [cons.e--] *)
Lemma tty_erase d com ed c :
  tty_rep d (mktty com (ed ++ [c])) -> tty_rep (set_d_e (wrap32 (d_e d - 1)) d) (mktty com ed).
Proof.
  intros [Hb Hr Hw He Hf Hh Hl]; cbn in *. rewrite app_assoc in *. split; cbn; [done..| | | |].
  - rewrite He, wrap32_sub, !length_app. f_equal. rewrite length_app in *. cbn. lia.
  - rewrite length_app in Hf. lia.
  - by eapply holds_app_l.
  - by apply Forall_app in Hl as [? _].
Qed.

Lemma tty_last d com ed c :
  tty_rep d (mktty com (ed ++ [c])) -> d_buf d !! cons_idx (wrap32 (d_e d - 1)) = Some c.
Proof.
  intros [Hb Hr Hw He Hf Hh Hl]; cbn in *. rewrite <- (Hh (length (com ++ ed)) c).
  - f_equal. rewrite He, wrap32_sub. change cons_idx with (ring_idx INPUT_BUF_SIZE).
    rewrite ring_idx_wrap by (apply INPUT_pos || apply INPUT_div). f_equal. rewrite !length_app. cbn. lia.
  - by rewrite app_assoc, list_lookup_middle.
Qed.

(** [cons.buf[cons.e++ % INPUT_BUF_SIZE] = c] *)
Definition type_char (c : Z) (d : devst) : devst :=
  set_d_e (wrap32 (d_e d + 1)) (set_d_buf (<[cons_idx (d_e d) := c]> (d_buf d)) d).

Lemma tty_type d com ed c :
  tty_rep d (mktty com ed) -> room (mktty com ed) = true ->
  length (d_buf (type_char c d)) = INPUT_BUF_SIZE /\
  d_e (type_char c d) = wrap32 (d_r d + Z.of_nat (length (com ++ ed ++ [c]))) /\
  (length (com ++ ed ++ [c]) <= INPUT_BUF_SIZE)%nat /\
  holds INPUT_BUF_SIZE (d_buf (type_char c d)) (d_r d) (com ++ ed ++ [c]).
Proof.
  intros [Hb Hr Hw He Hf Hh Hl] Hroom%Nat.ltb_lt; cbn in *. rewrite app_assoc. split_and!.
  - by rewrite length_insert.
  - rewrite He, wrap32_add. f_equal. rewrite (length_app _ [c]). cbn. lia.
  - rewrite (length_app _ [c]). cbn. lia.
  - rewrite He. change cons_idx with (ring_idx INPUT_BUF_SIZE).
    rewrite ring_idx_wrap by (apply INPUT_pos || apply INPUT_div).
    by apply holds_snoc; [apply INPUT_pos|..].
Qed.

(** [c = cons.buf[cons.r++ % INPUT_BUF_SIZE]] *)
Lemma tty_take d c com ed :
  tty_rep d (mktty (c :: com) ed) ->
  d_buf d !! cons_idx (d_r d) = Some c /\ tty_rep (set_d_r (wrap32 (d_r d + 1)) d) (mktty com ed).
Proof.
  intros [Hb Hr Hw He Hf Hh Hl]; cbn in *. split; [exact (holds_front _ _ _ _ _ Hh)|]. split; cbn; [done| | | | | |done].
  - unfold wrap32. apply Z.mod_pos_bound. lia.
  - rewrite Hw, wrap32_add. f_equal. lia.
  - rewrite He, wrap32_add. f_equal. lia.
  - lia.
  - by eapply holds_tail; [apply INPUT_pos|apply INPUT_div|].
Qed.

Lemma tty_nothing_committed d t : tty_rep d t -> (d_r d =? d_w d) = bool_decide (t_com t = []).
Proof.
  intros [_ Hr -> _ H _ _]. unfold INPUT_BUF_SIZE in H. rewrite length_app in H.
  rewrite <- (wrap32_small (d_r d)) at 1 by done. rewrite <- (Z.add_0_r (d_r d)) at 1.
  change 0 with (Z.of_nat 0). rewrite wrap32_offset by lia. by destruct (t_com t).
Qed.

End ring.

(** ** The interrupt handler *)

(** The state [s] with the console [d], the output [out] and the
    synchronisation state [y]. *)
Definition at_cons (d : devst) (out : list Z) (y : sync) (s : kst) : kst :=
  set_k_sync y (set_k_out out (set_k_dev d s)).

(** What the handler relies on, whether or not a process was interrupted. *)
Record console_ok (s : kst) : Prop := {
  co_wf : sync_wf (k_sync s);
  co_calm : calm s;
  co_tab : table_ok s;
  co_procs : proc_locks_free (k_sync s);
  co_cons : lock_free LCons (k_sync s);
  co_pr : lock_free LPr (k_sync s)
}.

Section intr.
Context {Io : Mmio} {W : World} {T : Patience} (s : kst) (Hs : console_ok s).
Implicit Types (d : devst) (t : tty) (out : list Z).

(** The lock held. *)
Let y : sync := acq LCons (k_sync s).

Lemma held_wf : sync_wf y.
Proof using Hs. apply sync_wf_acq; [apply (co_wf _ Hs)|apply (co_cons _ Hs)]. Qed.

Lemma held_touch : touch y = y.
Proof using Hs. apply touch_acq, (co_wf _ Hs). Qed.

Lemma wp_consputc_at c d out Q :
  Q tt (at_cons d (out ++ (wrap8 <$> expand c)) y s) -> wp (consputc c) Q (at_cons d out y s).
Proof using Hs.
  intros HQ. apply wp_consputc; cbn; [apply held_wf|apply (co_calm _ Hs)|apply held_touch|exact HQ].
Qed.

Lemma wp_kill_line fuel d out com ed Q :
  tty_rep d (mktty com ed) -> (length ed <= fuel)%nat ->
  (forall d', tty_rep d' (mktty com []) -> d' = set_d_e (d_e d') d ->
    Q tt (at_cons d' (out ++ concat (replicate (length ed) rubout)) y s)) ->
  wp (kill_line fuel) Q (at_cons d out y s).
Proof using Hs.
  revert fuel d out. induction ed as [|c ed IH] using rev_ind; intros fuel d out Hr Hf HQ.
  - assert (E := tty_nothing_edited _ _ Hr). rewrite bool_decide_true in E by done.
    destruct fuel; cbn [kill_line]; apply wp_bind, wp_gets; cbn; rewrite E; apply wp_ret;
      specialize (HQ d Hr); cbn in HQ; rewrite app_nil_r in HQ; apply HQ; by destruct d.
  - rewrite length_app in Hf. cbn in Hf. destruct fuel as [|fuel]; [lia|]. cbn [kill_line].
    assert (E := tty_nothing_edited _ _ Hr). rewrite bool_decide_false in E by (intros F; by destruct ed).
    apply wp_bind, wp_gets. cbn [k_dev at_cons set_k_sync set_k_out set_k_dev]. rewrite E.
    apply wp_bind. unfold cons_get. apply wp_bind, wp_gets. eapply wp_deref; [exact (tty_last _ _ _ _ Hr)|].
    assert (Hc := tr_line _ _ Hr). apply Forall_app in Hc as [_ Hc]. inversion Hc as [|? ? Hn _]; subst.
    destruct (Z.eqb_spec c newline) as [|_]; [done|].
    apply wp_bind, wp_modify. change (upd_dev _ _) with (at_cons (set_d_e (wrap32 (d_e d - 1)) d) out y s).
    apply wp_bind, wp_consputc_at. apply IH; [by eapply tty_erase|lia|].
    intros d' Hr' Hd'. specialize (HQ d' Hr'). rewrite length_app, Nat.add_comm in HQ. cbn in HQ.
    rewrite <- app_assoc. apply HQ. rewrite Hd'. by destruct d.
Qed.

Lemma wp_procdump d out Q :
  (forall out', Q tt (at_cons d out' y s)) -> wp procdump Q (at_cons d out y s).
Proof using Hs.
  intros HQ. assert (Hp : forall o, can_print (at_cons d o y s)).
  { intros o. split_and!; cbn; [apply held_wf|apply (co_calm _ Hs)|].
    apply lock_free_acq_ne; [done|]. apply (co_pr _ Hs). }
  assert (Ht : forall o u, printed (at_cons d o y s) u -> exists o', u = at_cons d o' y s).
  { intros o u [o' ->]. exists o'. unfold upd_sync. cbn. rewrite held_touch. done. }
  unfold procdump. apply wp_bind, wp_printf_printed; [done|by eexists|]. intros u [o1 ->]%Ht.
  apply (wp_for_each (fun _ u => exists o, u = at_cons d o y s)); [by eexists| |by intros u [o ->]].
  intros pre i post u Hseq [o ->].
  assert (Hi : (i < NPROC)%nat) by (apply (elem_of_seq 0 NPROC i); rewrite Hseq; set_solver).
  destruct (lookup_lt_is_Some_2 (k_procs s) i) as [q Hq]; [by rewrite (co_tab _ Hs)|].
  apply wp_bind. eapply wp_getp; [exact Hq|]. case_bool_decide; cbn [negb when].
  - apply wp_ret. by eexists.
  - apply wp_bind, wp_printf_printed; [done|by eexists|]. intros u [o2 ->]%Ht.
    apply wp_printf_printed; [done|by eexists|]. intros u [o3 ->]%Ht. by eexists.
Qed.

(** What a key does to the rest of the kernel. *)
Definition after_key (k : key) (t : tty) (u : kst) : kst :=
  if wakes k t then upd_procs (imap (wake_others (Some ChCons) (running (k_sync s)))) u else u.

Lemma wp_type c d out t Q :
  0 <= c < 256 -> tty_rep d t -> key_of c t = KChar (if c =? 13 then newline else c) ->
  (forall d', tty_rep d' (tty_input c t) -> d' = set_d_buf (d_buf d') (set_d_w (d_w d') (set_d_e (d_e d') d)) ->
    Q tt (after_key (key_of c t) t (at_cons d' (out ++ echo (key_of c t) t) y s))) ->
  let c := if c =? 13 then newline else c in
  wp (consputc c;;
      d ← gets k_dev; cons_put (d_e d) (wrap8 c);; upddev (set_d_e (wrap32 (d_e d + 1)));;
      d ← gets k_dev;
      when ((c =? newline) || (c =? ctrl (chr "D"%char)) || (wrap32 (d_e d - d_r d) =? Z.of_nat INPUT_BUF_SIZE))
        (upddev (set_d_w (d_e d));; wakeup (Some ChCons))) Q (at_cons d out y s).
Proof using Hs.
  intros Hc Hr Hk HQ c'. assert (Hc' : 0 <= c' < 256) by (unfold c'; zcases; unfold newline; lia).
  unfold tty_input in HQ. rewrite Hk in HQ. fold c' in Hk, HQ. cbn [tty_key echo] in HQ.
  assert (Hroom : room t = true).
  { unfold key_of in Hk. do 3 (destruct (_ : bool) in Hk; [done|]).
    destruct (negb (c =? 0) && room t) eqn:E; [|done]. by apply andb_true_iff in E as [_ ?]. }
  destruct t as [com ed]. destruct (tty_type d com ed c' Hr Hroom) as (T1 & T2 & T3 & T4).
  apply wp_bind, wp_consputc_at.
  replace (wrap8 <$> expand c') with [c'].
  2: { unfold expand, BACKSPACE. destruct (Z.eqb_spec c' 256); [lia|]. cbn. f_equal. unfold wrap8.
       symmetry. by apply Z.mod_small. }
  apply wp_bind, wp_gets. unfold cons_put, cons_get. apply wp_bind, wp_bind, wp_bind, wp_gets.
  cbn [k_dev at_cons set_k_sync set_k_out set_k_dev].
  destruct (lookup_lt_is_Some_2 (d_buf d) (cons_idx (d_e d))) as [b Hb].
  { rewrite (tr_buf _ _ Hr). apply ring_idx_lt, INPUT_pos. }
  eapply wp_deref; [exact Hb|]. apply wp_modify.
  assert (E8 : wrap8 c' = c') by by apply Z.mod_small. rewrite E8.
  apply wp_bind, wp_modify.
  change (upd_dev _ (upd_dev _ _)) with (at_cons (type_char c' d) (out ++ [c']) y s).
  apply wp_bind, wp_gets. cbn [k_dev at_cons set_k_sync set_k_out set_k_dev].
  assert (Efull : (wrap32 (d_e (type_char c' d) - d_r (type_char c' d)) =? Z.of_nat INPUT_BUF_SIZE) =
    (S (length (com ++ ed)) =? INPUT_BUF_SIZE)%nat).
  { rewrite T2. cbn [d_r type_char set_d_e set_d_buf]. rewrite counter_dist by (apply (tr_r _ _ Hr) || done).
    rewrite app_assoc, (length_app _ [c']), Nat.add_1_r. cbn [length].
    destruct (Nat.eqb_spec (S (length (com ++ ed))) INPUT_BUF_SIZE); zcases; lia. }
  rewrite Efull. fold eot. change ((c' =? newline) || (c' =? eot) || _) with (commits c' (mktty com ed)).
  unfold after_key in HQ. cbn [wakes t_com t_ed] in HQ.
  destruct (commits c' (mktty com ed)) eqn:Ec; cbn [when].
  - apply wp_bind, wp_modify.
    change (upd_dev _ _) with (at_cons (set_d_w (d_e (type_char c' d)) (type_char c' d)) (out ++ [c']) y s).
    apply wp_wakeup; cbn; [apply held_wf|apply (co_tab _ Hs)|apply proc_locks_free_acq; [done|apply (co_procs _ Hs)]|].
    unfold upd_sync. cbn. rewrite held_touch. replace (running y) with (running (k_sync s)) by (symmetry; apply running_acq).
    apply HQ; [|by destruct d]. split; cbn; rewrite ?app_nil_r; [done|apply (tr_r _ _ Hr)|exact T2..|exact T3|exact T4|done].
  - apply wp_ret. apply HQ; [|by destruct d]. split; cbn; [done|apply (tr_r _ _ Hr)|apply (tr_w _ _ Hr)|exact T2|exact T3|exact T4|].
    apply Forall_app. split; [apply (tr_line _ _ Hr)|]. constructor; [|done].
    intros ->. done.
Qed.

Lemma wp_consoleintr c t Q :
  0 <= c < 256 -> tty_rep (k_dev s) t ->
  (forall d' out', tty_rep d' (tty_input c t) ->
    d' = set_d_buf (d_buf d') (set_d_w (d_w d') (set_d_e (d_e d') (k_dev s))) ->
    (key_of c t <> KDump -> out' = k_out s ++ echo (key_of c t) t) ->
    Q tt (after_key (key_of c t) t (at_cons d' out' (touch (k_sync s)) s))) ->
  wp (consoleintr c) Q s.
Proof using Hs.
  intros Hc Hr HQ. unfold consoleintr. apply wp_bind, wp_acquire; [apply (co_wf _ Hs)|apply (co_cons _ Hs)|].
  replace (upd_sync (acq LCons) s) with (at_cons (k_dev s) (k_out s) y s) by by destruct s.
  apply wp_bind. set (d := k_dev s) in *.
  apply (wp_mono _ (fun _ u => exists d' out', tty_rep d' (tty_input c t) /\
    d' = set_d_buf (d_buf d') (set_d_w (d_w d') (set_d_e (d_e d') d)) /\
    (key_of c t <> KDump -> out' = k_out s ++ echo (key_of c t) t) /\
    u = after_key (key_of c t) t (at_cons d' out' y s))); cycle 1.
  { intros [] u (d' & out' & H1 & H2 & H3 & ->).
    eapply (wp_release_acq LCons (k_sync s)); [apply (co_wf _ Hs)|apply (co_cons _ Hs)| |].
    - unfold after_key. by destruct (wakes _ _).
    - specialize (HQ d' out' H1 H2 H3). unfold after_key in *. by destruct (wakes _ _). }
  assert (Ek := eq_refl (key_of c t)). unfold key_of at 2 in Ek. unfold tty_input.
  destruct (c =? ctrl (chr "P"%char)).
  { rewrite Ek. apply wp_procdump. intros out'. exists d, out'. split_and!; [done|by destruct d|done|done]. }
  destruct (c =? ctrl (chr "U"%char)).
  { rewrite Ek. destruct t as [com ed]. apply (wp_kill_line _ _ _ com ed); [done| |].
    - assert (Hf := tr_fits _ _ Hr). cbn in Hf. rewrite length_app in Hf. lia.
    - intros d' Hr' Hd'. eexists d', _. split_and!; [done| |done|done]. rewrite Hd'. by destruct d. }
  destruct ((c =? ctrl (chr "H"%char)) || (c =? 0x7f)).
  { rewrite Ek. destruct t as [com ed]. apply wp_bind, wp_gets. cbn [k_dev at_cons set_k_sync set_k_out set_k_dev].
    rewrite (tty_nothing_edited _ _ Hr). cbn [t_ed]. destruct ed as [|c' ed _] using rev_ind.
    - rewrite bool_decide_true by done. cbn [negb when]. apply wp_ret. exists d, (k_out s).
      split_and!; [done|by destruct d|by rewrite app_nil_r|done].
    - rewrite bool_decide_false by (intros F; by destruct ed). cbn [negb when].
      apply wp_bind, wp_modify. change (upd_dev _ _) with (at_cons (set_d_e (wrap32 (d_e d - 1)) d) (k_out s) y s).
      apply wp_consputc_at. eexists (set_d_e (wrap32 (d_e d - 1)) d), _.
      split_and!; [|by destruct d|intros _|done].
      + cbn. rewrite removelast_last. by eapply tty_erase.
      + cbn. by destruct ed. }
  apply wp_bind, wp_gets. cbn [k_dev at_cons set_k_sync set_k_out set_k_dev]. rewrite (tty_room _ _ Hr).
  destruct (negb (c =? 0) && room t); cbn [when].
  - apply (wp_type c d (k_out s) t); [done..|]. intros d' Hr' Hd'. eexists d', _. split_and!; [done..| |done]. done.
  - apply wp_ret. rewrite Ek. exists d, (k_out s). split_and!; [done|by destruct d|by rewrite app_nil_r|done].
Qed.

End intr.

(** ** Reading *)

Section read.
Context {Io : Mmio} {W : World} {T : Patience} (p : nat) (pr : proc).
Implicit Types (d : devst) (s : kst) (y : sync).

Abbreviation root := (p_pagetable pr).

(** One byte to the user, the console lock held. *)
Lemma copyout_at d out y va c s :
  sync_wf y -> running y = Some p -> touch y = y -> k_procs s !! p = Some pr ->
  addrspace root s -> ubuf root (k_mem s) va 1 ->
  exists m', uwrite root va [c] (k_mem s) m' /\ addrspace root (set_k_mem m' s) /\
    either_copyout (ToUser va) [c] (at_cons d out y s) = Ok 0 (at_cons d out y (set_k_mem m' s)).
Proof.
  intros Hwf Hrun Ht Hp Has Hu.
  destruct (wp_inv (either_copyout (ToUser va) [c]) (fun r u => r = 0 /\ exists m',
    uwrite root va [c] (k_mem s) m' /\ addrspace root (set_k_mem m' s) /\
    u = at_cons d out y (set_k_mem m' s)) (at_cons d out y s)) as (r & u & E & -> & m' & U & A & ->); [|eauto].
  unfold either_copyout, my_pagetable. apply wp_bind, wp_bind, wp_myproc'; [done|]. cbn [k_sync at_cons set_k_sync].
  rewrite Hrun. replace (upd_sync touch (at_cons d out y s)) with (at_cons d out y s) by (unfold upd_sync; cbn; by rewrite Ht).
  apply wp_bind. eapply wp_deref; [done|].
  apply wp_bind. eapply wp_getp; [exact Hp|]. apply wp_ret.
  apply wp_copyout_user; [by apply (addrspace_ext root s)|done|].
  intros m' U A. split; [done|]. exists m'. split_and!; [done| |done]. by eapply addrspace_ext, A.
Qed.

Lemma wait_input_ready d out y s com ed c :
  tty_rep d (mktty (c :: com) ed) -> wait_input patience (at_cons d out y s) = Ok true (at_cons d out y s).
Proof.
  intros Hr. assert (E := tty_nothing_committed _ _ Hr). rewrite bool_decide_false in E by done.
  destruct patience; cbn; unfold mbind, M_bind; cbn; by rewrite E.
Qed.

Lemma consoleread_loop_run n d out y com ed va target bs rest s :
  sync_wf y -> running y = Some p -> touch y = y -> k_procs s !! p = Some pr ->
  addrspace root s -> tty_rep d (mktty com ed) -> ubuf root (k_mem s) va n ->
  Z.of_nat n <= target < 2 ^ 31 -> tty_read n (Z.of_nat n <? target) com = Some (bs, rest) ->
  exists d' m', tty_rep d' (mktty rest ed) /\ d' = set_d_r (d_r d') d /\
    uwrite root va bs (k_mem s) m' /\ addrspace root (set_k_mem m' s) /\ (length bs <= n)%nat /\
    consoleread_loop n (ToUser va) target (Z.of_nat n) (at_cons d out y s) =
      Ok (Some (Z.of_nat n - Z.of_nat (length bs))) (at_cons d' out y (set_k_mem m' s)).
Proof.
  intros Hwf Hrun Ht. revert d com va bs rest s.
  induction n as [|n IH]; intros d com va bs rest s Hp Has Hr Hu Hn Hread.
  { injection Hread as <- <-. exists d, (k_mem s).
    split_and!; [done|by destruct d|by apply uwrite_nil|by destruct s|done|by destruct s]. }
  destruct com as [|c com]; [done|]. cbn [tty_read] in Hread.
  destruct (tty_take _ _ _ _ Hr) as [Hc Hr'].
  cbn [consoleread_loop]. destruct (Z.ltb_spec 0 (Z.of_nat (S n))) as [_|]; [|lia]. cbn [negb].
  rewrite (bind_ok _ _ _ _ _ (wait_input_ready _ _ _ _ _ _ _ Hr)). cbn [negb].
  rewrite (bind_ok _ _ _ (d_r d) (at_cons d out y s)) by done.
  rewrite (bind_ok _ _ _ c (at_cons d out y s)) by (unfold cons_get, mbind, M_bind; cbn; by rewrite Hc).
  rewrite (bind_ok _ _ _ tt (at_cons (set_d_r (wrap32 (d_r d + 1)) d) out y s)) by done.
  fold eot. destruct (c =? eot).
  - injection Hread as <- <-. rewrite wrap32_small by lia.
    destruct (Z.of_nat (S n) <? target); cbn [when].
    + exists d, (k_mem s). split_and!; [done|by destruct d|by apply uwrite_nil|by destruct s|cbn; lia|].
      rewrite (bind_ok _ _ _ tt (at_cons d out y s)).
      2: { unfold mbind, M_bind. cbn. do 2 f_equal. unfold upd_dev, set_k_dev, at_cons. cbn.
           unfold set_d_r. cbn. rewrite wrap32_sub. destruct (tr_r _ _ Hr).
           replace (d_r d + 1 - 1) with (d_r d) by lia. rewrite wrap32_small by lia. by destruct d. }
      cbn [length]. rewrite Z.sub_0_r. by destruct s.
    + eexists _, (k_mem s). split_and!; [exact Hr'|done|by apply uwrite_nil|by destruct s|cbn; lia|].
      cbn [length]. rewrite Z.sub_0_r. by destruct s.
  - destruct (copyout_at (set_d_r (wrap32 (d_r d + 1)) d) out y va c s) as (m1 & U1 & A1 & E1); [done..| |].
    { rewrite <- (Z.add_0_r va). eapply (ubuf_sub _ _ _ (S n) 0 1); [done|lia]. }
    rewrite (bind_ok _ _ _ _ _ E1). change (0 =? -1) with false. cbv iota.
    destruct (c =? newline).
    + injection Hread as <- <-. eexists _, m1. split_and!; [exact Hr'|done|done|done|cbn; lia|].
      cbn [length]. done.
    + replace (Z.of_nat (S n) - 1) with (Z.of_nat n) by lia.
      assert (Hva : wrap64 (va + Z.of_nat 1) = va + Z.of_nat 1).
      { destruct Hu as [(H0 & H1 & _) _]. apply wrap64_small. unfold MAXVA in H1.
        change (Z.shiftl 1 _) with (2 ^ 38) in H1. lia. }
      cbn [dest_add]. rewrite Hva.
      destruct (tty_read n true com) as [[bs' rest']|] eqn:Er; [|done]. injection Hread as <- <-.
      destruct (IH (set_d_r (wrap32 (d_r d + 1)) d) com (va + Z.of_nat 1) bs' rest' (set_k_mem m1 s))
        as (d' & m' & R & D & U & A & L & E).
      { done. } { done. } { done. }
      { eapply ubuf_uwrite; [done|]. eapply ubuf_sub; [done|lia]. }
      { lia. }
      { destruct (Z.ltb_spec (Z.of_nat n) target); [done|lia]. }
      exists d', m'. split_and!; [done| | |done|cbn; lia|].
      * rewrite D. by destruct d.
      * by apply (uwrite_app _ _ [c] _ _ m1).
      * cbn [length]. etrans; [exact E|]. f_equal. f_equal. lia.
Qed.

End read.

(** ** Properties *)

(** C24: [consoleintr] implements the terminal: from a ring that represents the
    state [t], the byte [c] leads to a ring that represents [tty_input c t],
    echoes exactly [echo] (control-P prints a process list instead), wakes the
    readers exactly when the line is committed, and changes nothing else. *)
Theorem consoleintr_spec {Io : Mmio} {W : World} {T : Patience} (c : Z) (t : tty) (s : kst)
    (Hs : console_ok s) (Hc : 0 <= c < 256) (Hr : tty_rep (k_dev s) t) :
  exists d' out', tty_rep d' (tty_input c t) /\
    d' = set_d_buf (d_buf d') (set_d_w (d_w d') (set_d_e (d_e d') (k_dev s))) /\
    (key_of c t <> KDump -> out' = k_out s ++ echo (key_of c t) t) /\
    consoleintr c s = Ok tt (after_key s (key_of c t) t (at_cons d' out' (touch (k_sync s)) s)).
Proof.
  destruct (wp_inv (consoleintr c) (fun _ u => exists d' out', tty_rep d' (tty_input c t) /\
    d' = set_d_buf (d_buf d') (set_d_w (d_w d') (set_d_e (d_e d') (k_dev s))) /\
    (key_of c t <> KDump -> out' = k_out s ++ echo (key_of c t) t) /\
    u = after_key s (key_of c t) t (at_cons d' out' (touch (k_sync s)) s)) s)
    as ([] & u & E & d' & out' & ? & ? & ? & ->); [|by eauto 8].
  apply (wp_consoleintr s Hs c t); [done..|]. eauto 8.
Qed.

(** C25: [consoleread] implements the terminal's read: whenever [tty_read] can be
    answered from what is committed, the process gets exactly those bytes in
    its buffer and their number as the result, what stays is the rest of the
    queue, the line being edited is untouched, and nothing else changes. *)
Theorem consoleread_spec {Io : Mmio} {W : World} {T : Patience} (p : nat) (pr : proc) (va : Z) (n : nat)
    (com ed bs rest : list Z) (s : kst)
    (Hq : quiet p s) (Hp : k_procs s !! p = Some pr) (Has : addrspace (p_pagetable pr) s)
    (Hu : ubuf (p_pagetable pr) (k_mem s) va n) (Hn : Z.of_nat n < 2 ^ 31)
    (Hr : tty_rep (k_dev s) (mktty com ed)) (Hread : tty_read n false com = Some (bs, rest)) :
  exists r' m', let d' := set_d_r r' (k_dev s) in
    tty_rep d' (mktty rest ed) /\ uwrite (p_pagetable pr) va bs (k_mem s) m' /\
    consoleread (ToUser va) (Z.of_nat n) s =
      Ok (Z.of_nat (length bs)) (set_k_sync (touch (k_sync s)) (set_k_mem m' (set_k_dev d' s))).
Proof.
  assert (Hwf := quiet_wf _ _ Hq). assert (Hf := q_locks _ _ Hq LCons fl_cons).
  destruct (consoleread_loop_run p pr n (k_dev s) (k_out s) (acq LCons (k_sync s)) com ed va (Z.of_nat n) bs rest s)
    as (d' & m' & R & D & U & A & L & E); [by apply sync_wf_acq| |by apply touch_acq|done..|lia| |].
  { rewrite running_acq. by apply quiet_running. }
  { by rewrite Z.ltb_irrefl. }
  exists (d_r d'), m'. cbn zeta. rewrite <- D. split_and!; [done..|].
  unfold consoleread. rewrite wrap32_small, Nat2Z.id by lia.
  rewrite (bind_ok _ _ _ tt (at_cons (k_dev s) (k_out s) (acq LCons (k_sync s)) s)).
  2: { apply wp_run, wp_acquire; [done..|]. by destruct s. }
  rewrite (bind_ok _ _ _ _ _ E).
  rewrite (bind_ok _ _ _ tt (set_k_sync (touch (k_sync s)) (set_k_mem m' (set_k_dev d' s)))).
  2: { apply wp_run. eapply (wp_release_acq LCons (k_sync s)); [done..|]. by split. }
  f_equal. rewrite to_int_small by lia. lia.
Qed.
