(* ===== verification/Virtio.v ===== *)
(** * The disk driver ([virtio_disk.c])

    The driver hands the device chains of three descriptors through the
    available ring and is told about finished ones through the used ring. *)

From stdpp Require Import base gmap strings numbers list.
From S2P Require Import Prelude State Spinlock Strings Printf Bytes Memory Kalloc Vm Proc Sleeplock Quiet Bio.
From S2P Require Import Log Uio Devices.

(** ** Constants ([virtio.h]) *)

Definition NUM : nat := 8.
Definition VRING_DESC_F_NEXT : Z := 1.
Definition VRING_DESC_F_WRITE : Z := 2.
Definition VIRTIO_BLK_T_IN : Z := 0.
Definition VIRTIO_BLK_T_OUT : Z := 1.
Definition VIRTIO_MMIO_QUEUE_NOTIFY : Z := 0x050.
Definition VIRTIO_MMIO_INTERRUPT_STATUS : Z := 0x060.
Definition VIRTIO_MMIO_INTERRUPT_ACK : Z := 0x064.
Definition VIRTIO_MMIO_STATUS : Z := 0x070.

Definition getv {A} (f : vdisk -> A) : KM A := getdev (fun d => f (d_disk d)).
Definition updv (f : vdisk -> vdisk) : KM unit := upddev (fun d => set_d_disk (f (d_disk d)) d).

(** An array element; an index out of range is an access outside the array. *)
Definition at_idx {A} (l : list A) (i : Z) : option A := if i <? 0 then None else l !! Z.to_nat i.

(** [disk.desc[i]], [disk.info[i]], [disk.ops[i]]: access and update. *)
Definition get_desc (i : Z) : KM vdesc := l ← getv v_desc; deref (at_idx l i).
Definition upd_desc (i : Z) (f : vdesc -> vdesc) : KM unit :=
  _ ← get_desc i; updv (fun v => set_v_desc (alter f (Z.to_nat i) (v_desc v)) v).
Definition get_info (i : Z) : KM vinfo := l ← getv v_info; deref (at_idx l i).
Definition upd_info (i : Z) (f : vinfo -> vinfo) : KM unit :=
  _ ← get_info i; updv (fun v => set_v_info (alter f (Z.to_nat i) (v_info v)) v).
Definition set_op (i : Z) (r : vreq) : KM unit :=
  l ← getv v_ops; _ ← deref (at_idx l i);
  updv (fun v => set_v_ops (<[Z.to_nat i := r]> (v_ops v)) v).

(** [*R(r) = v] and [*R(r)] *)
Definition vreg_write (r v : Z) : KM unit := reg_write (VIRTIO0 + r) v.

(** ** Descriptors *)

Definition alloc_desc : KM Z :=
  r ← for_find (seq 0 NUM) (fun i =>
    fr ← getv v_free;
    f ← deref (fr !! i);
    if (f : bool) then
      updv (fun v => set_v_free (<[i := false]> (v_free v)) v);;
      mret (Some (Z.of_nat i))
    else mret None);
  mret (default (-1) r).

Definition free_desc (i : Z) : KM unit :=
  if Z.of_nat NUM <=? i then panic "free_desc 1" else
  fr ← getv v_free;
  f ← deref (at_idx fr i);
  if (f : bool) then panic "free_desc 2" else
  upd_desc i (fun _ => mkvdesc DANull 0 0 0);;
  updv (fun v => set_v_free (<[Z.to_nat i := true]> (v_free v)) v);;
  wakeup (Some ChVdisk).

(** A chain has at most [NUM] descriptors. *)
Fixpoint free_chain (fuel : nat) (i : Z) : KM unit :=
  match fuel with
  | O => hang
  | S fuel =>
      d ← get_desc i;
      free_desc i;;
      if has (vd_flags d) VRING_DESC_F_NEXT then free_chain fuel (vd_next d) else mret tt
  end.

(** The three indices, or [None] for the result -1. *)
Definition alloc3_desc : KM (option (Z * Z * Z)) :=
  i0 ← alloc_desc;
  if i0 <? 0 then mret None else
  i1 ← alloc_desc;
  if i1 <? 0 then free_desc i0;; mret None else
  i2 ← alloc_desc;
  if i2 <? 0 then free_desc i0;; free_desc i1;; mret None else
  mret (Some (i0, i1, i2)).

Section virtio.
Context {W : World} {M : Mmio} {T : Patience}.

Fixpoint wait_desc (fuel : nat) : KM (Z * Z * Z) :=
  r ← alloc3_desc;
  match r with
  | Some idx => mret idx
  | None =>
      match fuel with
      | O => hang
      | S fuel => sleep (Some ChVdisk) (Some LVdisk);; wait_desc fuel
      end
  end.

(** [while(b->disk == 1) sleep(b, &disk.vdisk_lock)] *)
Fixpoint wait_disk (fuel : nat) (b : nat) : KM unit :=
  x ← getb b;
  if negb (b_disk x) then mret tt else
  match fuel with
  | O => hang
  | S fuel => sleep (Some (ChBuf b)) (Some LVdisk);; wait_disk fuel b
  end.

(** Filling in the descriptors of a request. *)
Definition format_request (b : nat) (write : bool) (sector i0 i1 i2 : Z) : KM unit :=
  set_op i0 (mkvreq (if write then VIRTIO_BLK_T_OUT else VIRTIO_BLK_T_IN) 0 sector);;
  upd_desc i0 (fun _ => mkvdesc (DAOps (Z.to_nat i0)) 16 VRING_DESC_F_NEXT i1);;
  upd_desc i1 (fun _ => mkvdesc (DAData b) (Z.of_nat BSIZE)
    (Z.lor (if write then 0 else VRING_DESC_F_WRITE) VRING_DESC_F_NEXT) i2);;
  upd_info i0 (set_vi_status 0xff);;
  upd_desc i2 (fun _ => mkvdesc (DAStatus (Z.to_nat i0)) 1 VRING_DESC_F_WRITE 0).

(** The new head in the available ring, and the notification. *)
Definition submit_request (b : nat) (i0 : Z) : KM unit :=
  updb b (set_b_disk true);;
  upd_info i0 (set_vi_b (Some b));;
  updv (fun v => set_v_avail_ring
    (<[Z.to_nat (v_avail_idx v mod Z.of_nat NUM) := i0]> (v_avail_ring v)) v);;
  updv (fun v => set_v_avail_idx ((v_avail_idx v + 1) mod 2 ^ 16) v);;
  vreg_write VIRTIO_MMIO_QUEUE_NOTIFY 0.

Definition disk_rw (b : nat) (write : bool) : KM unit :=
  x ← getb b;
  let sector := wrap32 (b_blockno x * 2) in
  acquire LVdisk;;
  idx ← wait_desc patience;
  let '(i0, i1, i2) := idx in
  format_request b write sector i0 i1 i2;;
  submit_request b i0;;
  wait_disk patience b;;
  upd_info i0 (set_vi_b None);;
  free_chain NUM i0;;
  release LVdisk.

(** One turn of the loop of [virtio_disk_intr] per entry of the used ring. *)
Fixpoint intr_loop (fuel : nat) : KM unit :=
  used ← getv v_used_idx;
  idx ← getv v_dev_idx;
  if used =? idx then mret tt else
  match fuel with
  | O => hang
  | S fuel =>
      ring ← getv v_dev_ring;
      id ← deref (ring !! Z.to_nat (used mod Z.of_nat NUM));
      inf ← get_info id;
      if negb (vi_status inf =? 0) then panic "virtio_disk_intr status" else
      b ← deref (vi_b inf);
      updb b (set_b_disk false);;
      wakeup (Some (ChBuf b));;
      updv (fun v => set_v_used_idx ((v_used_idx v + 1) mod 2 ^ 16) v);;
      intr_loop fuel
  end.

Definition virtio_disk_intr : KM unit :=
  acquire LVdisk;;
  st ← reg_read (VIRTIO0 + VIRTIO_MMIO_INTERRUPT_STATUS);
  vreg_write VIRTIO_MMIO_INTERRUPT_ACK (Z.land st 0x3);;
  v ← getv id;
  intr_loop (Z.to_nat ((v_dev_idx v - v_used_idx v) mod 2 ^ 16));;
  release LVdisk.

(** The status register at each step of the initialisation. *)
Definition ACKNOWLEDGE : Z := 1.
Definition DRIVER : Z := 2.
Definition DRIVER_OK : Z := 4.
Definition FEATURES_OK : Z := 8.

(** The features the driver turns off: RO, SCSI, CONFIG_WCE, MQ, ANY_LAYOUT,
    EVENT_IDX and INDIRECT_DESC. *)
Definition negotiate (features : Z) : Z :=
  foldl (fun f b => Z.land f (Z.lnot (Z.shiftl 1 b))) features [5; 7; 11; 12; 27; 29; 28].

Definition virtio_disk_init : KM unit :=
  initlock LVdisk "virtio_disk";;
  magic ← reg_read (VIRTIO0 + 0x000);
  version ← reg_read (VIRTIO0 + 0x004);
  device ← reg_read (VIRTIO0 + 0x008);
  vendor ← reg_read (VIRTIO0 + 0x00c);
  if negb (magic =? 0x74726976) || negb (version =? 2) || negb (device =? 2) || negb (vendor =? 0x554d4551)
  then panic "could not find virtio disk" else
  vreg_write VIRTIO_MMIO_STATUS 0;;
  vreg_write VIRTIO_MMIO_STATUS ACKNOWLEDGE;;
  vreg_write VIRTIO_MMIO_STATUS (Z.lor ACKNOWLEDGE DRIVER);;
  features ← reg_read (VIRTIO0 + 0x010);
  vreg_write 0x020 (wrap32 (negotiate features));;
  vreg_write VIRTIO_MMIO_STATUS (Z.lor (Z.lor ACKNOWLEDGE DRIVER) FEATURES_OK);;
  status ← reg_read (VIRTIO0 + VIRTIO_MMIO_STATUS);
  if negb (has status FEATURES_OK) then panic "virtio disk FEATURES_OK unset" else
  vreg_write 0x030 0;;
  ready ← reg_read (VIRTIO0 + 0x044);
  if negb (ready =? 0) then panic "virtio disk should not be ready" else
  max ← reg_read (VIRTIO0 + 0x034);
  if max =? 0 then panic "virtio disk has no queue 0" else
  if max <? Z.of_nat NUM then panic "virtio disk max queue too short" else
  desc ← kalloc;
  avail ← kalloc;
  used ← kalloc;
  if (desc =? 0) || (avail =? 0) || (used =? 0) then panic "virtio disk kalloc" else
  fill_page desc 0;;
  fill_page avail 0;;
  fill_page used 0;;
  updv (set_v_pages (desc, avail, used));;
  updv (set_v_desc (replicate NUM (mkvdesc DANull 0 0 0)));;
  updv (set_v_avail_ring (replicate NUM 0));;
  updv (set_v_avail_idx 0);;
  updv (set_v_dev_ring (replicate NUM 0));;
  updv (set_v_dev_idx 0);;
  vreg_write 0x038 (Z.of_nat NUM);;
  vreg_write 0x080 (wrap32 desc);;
  vreg_write 0x084 (wrap32 (Z.shiftr desc 32));;
  vreg_write 0x090 (wrap32 avail);;
  vreg_write 0x094 (wrap32 (Z.shiftr avail 32));;
  vreg_write 0x0a0 (wrap32 used);;
  vreg_write 0x0a4 (wrap32 (Z.shiftr used 32));;
  vreg_write 0x044 0x1;;
  for_each (seq 0 NUM) (fun i => updv (fun v => set_v_free (<[i := true]> (v_free v)) v));;
  vreg_write VIRTIO_MMIO_STATUS (Z.lor status DRIVER_OK).

(** The driver behind the interface of the buffer cache. *)
Definition virtio_disk : Disk := {| virtio_disk_rw := disk_rw |}.

End virtio.
