(* ===== verification/Pipe.v ===== *)
(** * Pipes ([pipe.c])

    A pipe is a ring of [PIPESIZE] bytes between a writer and a reader, kept
    consistent by Peterson's algorithm. This file holds the operations on an
    allocated pipe, as one hart runs them; [Peterson.v] runs the lock with its
    two parties interleaved. *)

From stdpp Require Import base gmap strings numbers list.
From S2P Require Import Prelude State Spinlock Strings Bytes Memory Kalloc Vm Proc Sleeplock Quiet Bio Uio.

Definition PIPESIZE : nat := 512.

(** Offset of [data] in [struct pipe]. *)
Definition pipe_data_off : Z := 12.

Definition getpi (pi : Z) : KM pipe := fun s => deref (k_pipes s !! pi) s.
Definition updpi (pi : Z) (f : pipe -> pipe) : KM unit :=
  _ ← getpi pi; modify (fun s => set_k_pipes (alter f pi (k_pipes s)) s).

(** [pi->flag[id]] *)
Definition pi_flag (id : Z) (x : pipe) : Z := if id =? 0 then pi_flag0 x else pi_flag1 x.
Definition set_pi_flag (id v : Z) (x : pipe) : pipe :=
  if id =? 0 then set_pi_flag0 v x else set_pi_flag1 v x.

(** ** The code *)

(** The busy-wait ends at once or, on a machine where nothing else runs,
    never. *)
Definition peterson_acquire (pi id : Z) : KM unit :=
  let other := 1 - id in
  updpi pi (set_pi_flag id 1);;
  updpi pi (set_pi_turn other);;
  x ← getpi pi;
  if (pi_flag other x =? 1) && (pi_turn x =? other) then hang else mret tt.

Definition peterson_release (pi id : Z) : KM unit := updpi pi (set_pi_flag id 0).

Definition pipeclose (pi : Z) (writable : bool) : KM unit :=
  let id := if writable then 0 else 1 in
  peterson_acquire pi id;;
  (if writable
   then updpi pi (set_pi_writeopen false);; wakeup (Some (ChPipeRead pi))
   else updpi pi (set_pi_readopen false);; wakeup (Some (ChPipeWrite pi)));;
  x ← getpi pi;
  if negb (pi_readopen x) && negb (pi_writeopen x) then
    peterson_release pi id;;
    modify (fun s => set_k_pipes (delete pi (k_pipes s)) s);;
    kfree pi
  else peterson_release pi id.

(** [pi->data[i % PIPESIZE]] *)
Definition pipe_idx (i : Z) : nat := Z.to_nat (i mod Z.of_nat PIPESIZE).

Section pipe.
Context {W : World} {T : Patience}.

(** The value of [i] when the loop is left; [None]: -1, with the lock
    released. A turn stores a byte or sleeps. *)
Fixpoint pipewrite_loop (fuel : nat) (pi : Z) (pr : nat) (addr n i : Z) : KM (option Z) :=
  if negb (i <? n) then mret (Some i) else
  match fuel with
  | O => hang
  | S fuel =>
      x ← getpi pi;
      dead ← (if negb (pi_readopen x) then mret true else killed pr);
      if (dead : bool) then peterson_release pi 0;; mret None else
      x ← getpi pi;
      if pi_nwrite x =? wrap32 (pi_nread x + Z.of_nat PIPESIZE) then
        wakeup (Some (ChPipeRead pi));;
        peterson_release pi 0;;
        sleep (Some (ChPipeWrite pi)) None;;
        peterson_acquire pi 0;;
        pipewrite_loop fuel pi pr addr n i
      else
        p ← getp pr;
        r ← copyin (p_pagetable p) (wrap64 (addr + i)) 1;
        if r.1 =? -1 then mret (Some i) else
        x ← getpi pi;
        updpi pi (set_pi_nwrite (wrap32 (pi_nwrite x + 1)));;
        updpi pi (fun y => set_pi_data (<[pipe_idx (pi_nwrite x) := nth 0 r.2 0]> (pi_data y)) y);;
        pipewrite_loop fuel pi pr addr n (i + 1)
  end.

Definition pipewrite (pi addr n : Z) : KM Z :=
  me ← myproc;
  pr ← deref me;
  peterson_acquire pi 0;;
  r ← pipewrite_loop (Z.to_nat n + patience) pi pr addr n 0;
  match r with
  | None => mret (-1)
  | Some i =>
      wakeup (Some (ChPipeRead pi));;
      peterson_release pi 0;;
      mret i
  end.

(** [false]: the process has been killed, and the lock released. *)
Fixpoint wait_nonempty (fuel : nat) (pi : Z) (pr : nat) : KM bool :=
  x ← getpi pi;
  if negb ((pi_nread x =? pi_nwrite x) && pi_writeopen x) then mret true else
  k ← killed pr;
  if (k : bool) then peterson_release pi 1;; mret false else
  match fuel with
  | O => hang
  | S fuel =>
      peterson_release pi 1;;
      sleep (Some (ChPipeRead pi)) None;;
      peterson_acquire pi 1;;
      wait_nonempty fuel pi pr
  end.

Fixpoint piperead_loop (fuel : nat) (pi : Z) (pr : nat) (addr n i : Z) : KM Z :=
  if negb (i <? n) then mret i else
  match fuel with
  | O => hang
  | S fuel =>
      x ← getpi pi;
      if pi_nread x =? pi_nwrite x then mret i else
      ch ← deref (pi_data x !! pipe_idx (pi_nread x));
      p ← getp pr;
      r ← copyout (p_pagetable p) (wrap64 (addr + i)) [ch];
      if r =? -1 then mret (if i =? 0 then -1 else i) else
      updpi pi (fun x => set_pi_nread (wrap32 (pi_nread x + 1)) x);;
      piperead_loop fuel pi pr addr n (i + 1)
  end.

Definition piperead (pi addr n : Z) : KM Z :=
  me ← myproc;
  pr ← deref me;
  peterson_acquire pi 1;;
  ok ← wait_nonempty patience pi pr;
  if negb ok then mret (-1) else
  i ← piperead_loop (Z.to_nat n) pi pr addr n 0;
  wakeup (Some (ChPipeWrite pi));;
  peterson_release pi 1;;
  mret i.

End pipe.
