(* ===== verification/Peterson.v ===== *)
(** * Peterson's lock with its parties interleaved ([pipe.c])

    [peterson_acquire] and [peterson_release] as sequences of single memory
    accesses, and a step relation that interleaves any number of parties, each
    using one of the two identities. With one party per identity the lock
    excludes and never gets stuck; with two parties on one side, or with the
    two stores of [peterson_acquire] reaching memory in the other order, it
    does not exclude. *)

From stdpp Require Import base gmap strings numbers relations list.
From S2P Require Import Prelude State Spinlock Strings Bytes Memory Kalloc Vm Proc Sleeplock Quiet Bio Uio Pipe.

(** ** The code, one memory access at a time *)

(** Where a party is: the access it makes next. *)
Inductive pc : Type :=
| PIdle   (** outside; [pi->flag[id] = 1] *)
| PTurn   (** [pi->turn = other], then the fence *)
| PFlag   (** the loop reads [pi->flag[other]] *)
| PCheck  (** the loop reads [pi->turn] *)
| PCrit.  (** inside; [pi->flag[id] = 0] *)

#[global] Instance pc_eq_dec : EqDecision pc.
Proof. solve_decision. Defined.

(** The shared variables are those of [struct pipe]. *)
Definition pstep (id : Z) (p : pc) (x : pipe) : pc * pipe :=
  let other := 1 - id in
  match p with
  | PIdle => (PTurn, set_pi_flag id 1 x)
  | PTurn => (PFlag, set_pi_turn other x)
  | PFlag => (if pi_flag other x =? 1 then PCheck else PCrit, x)
  | PCheck => (if pi_turn x =? other then PFlag else PCrit, x)
  | PCrit => (PIdle, set_pi_flag id 0 x)
  end.

(** The pipe and the parties, each with its identity. *)
Record conf : Type := mkconf { cf_pipe : pipe; cf_parties : list (Z * pc) }.

Inductive step : conf -> conf -> Prop :=
| step_party i id p x l :
    l !! i = Some (id, p) ->
    step (mkconf x l) (mkconf (pstep id p x).2 (<[i := (id, (pstep id p x).1)]> l)).

Definition idle_pipe : pipe := mkpipe 0 0 0 [] 0 0 true true.
Definition start (ids : list Z) : conf := mkconf idle_pipe ((fun id => (id, PIdle)) <$> ids).

Definition crit (c : conf) (i : nat) : Prop := exists id, cf_parties c !! i = Some (id, PCrit).

(** ** The sequential code is a run of one party *)

Fixpoint solo (n : nat) (id : Z) (p : pc) (x : pipe) : pc * pipe :=
  match n with O => (p, x) | S n => let '(p, x) := pstep id p x in solo n id p x end.

Lemma flag_set_same id v x : pi_flag id (set_pi_flag id v x) = v.
Proof. unfold pi_flag, set_pi_flag. by destruct (id =? 0). Qed.

Lemma flag_set_other id v x : id = 0 \/ id = 1 -> pi_flag (1 - id) (set_pi_flag id v x) = pi_flag (1 - id) x.
Proof. intros [-> | ->]; done. Qed.

Lemma updpi_ok pi f x s :
  k_pipes s !! pi = Some x ->
  updpi pi f s = Ok tt (set_k_pipes (<[pi := f x]> (k_pipes s)) s).
Proof.
  intros Hx. unfold updpi, getpi, mbind, M_bind. rewrite Hx. cbn. unfold modify.
  do 2 f_equal. by apply alter_as_insert.
Qed.

(** What the whole of [peterson_acquire] leaves in the pipe. *)
Definition acquired (id : Z) (x : pipe) : pipe := set_pi_turn (1 - id) (set_pi_flag id 1 x).

Lemma peterson_acquire_run pi id x s :
  k_pipes s !! pi = Some x ->
  peterson_acquire pi id s =
    let s' := set_k_pipes (<[pi := acquired id x]> (k_pipes s)) s in
    if pi_flag (1 - id) (acquired id x) =? 1 then Hang s' else Ok tt s'.
Proof.
  intros Hx. unfold peterson_acquire.
  rewrite (bind_ok _ _ _ _ _ (updpi_ok _ _ _ _ Hx)).
  rewrite (bind_ok _ _ _ _ _ (updpi_ok _ _ (set_pi_flag id 1 x) _ (lookup_insert_eq _ _ _))).
  cbn [k_pipes set_k_pipes]. rewrite insert_insert_eq.
  change (set_k_pipes ?a (set_k_pipes ?b ?s)) with (set_k_pipes a s).
  set (s' := set_k_pipes _ s). rewrite (bind_ok _ _ _ (acquired id x) s').
  2: { unfold getpi, s'. cbn. by rewrite lookup_insert_eq. }
  unfold acquired at 2. cbn [pi_turn set_pi_turn]. rewrite Z.eqb_refl, andb_true_r.
  unfold s'. by destruct (_ =? 1).
Qed.

Lemma solo_spins id x n :
  pi_flag (1 - id) x = 1 -> pi_turn x = 1 - id ->
  (solo n id PFlag x).1 <> PCrit /\ (solo n id PCheck x).1 <> PCrit.
Proof.
  intros Hf Ht. induction n as [|n [IH1 IH2]]; [done|].
  cbn. by rewrite Hf, Ht, !Z.eqb_refl.
Qed.

(** What the sequential model does is what one party does on its own: it gets
    in after three accesses, or never. *)
Lemma peterson_acquire_solo pi id x s :
  id = 0 \/ id = 1 -> k_pipes s !! pi = Some x ->
  match peterson_acquire pi id s with
  | Ok _ s' => solo 3 id PIdle x = (PCrit, acquired id x) /\ k_pipes s' !! pi = Some (acquired id x)
  | Hang _ => forall n, (solo n id PIdle x).1 <> PCrit
  | _ => False
  end.
Proof.
  intros Hid Hx. rewrite (peterson_acquire_run _ _ _ _ Hx). cbn zeta.
  destruct (Z.eqb_spec (pi_flag (1 - id) (acquired id x)) 1) as [E|E].
  - intros [|[|n]]; [done..|]. cbn. apply solo_spins; [done|]. unfold acquired. by destruct (id =? 0).
  - cbn. rewrite lookup_insert_eq. split; [|done]. fold (acquired id x).
    by destruct (Z.eqb_spec (pi_flag (1 - id) (acquired id x)) 1).
Qed.

(** ** Mutual exclusion and progress *)

(** Past the store to [turn]. *)
Definition waiting (p : pc) : bool := match p with PFlag | PCheck => true | _ => false end.
Definition wants (p : pc) : Z := match p with PIdle => 0 | _ => 1 end.

(** The invariant: the flags tell who is not idle, and when one party is
    inside and the other waits, it is the first one's turn. *)
Record lock_inv (p0 p1 : pc) (x : pipe) : Prop := {
  li_flag0 : pi_flag0 x = wants p0;
  li_flag1 : pi_flag1 x = wants p1;
  li_turn : p0 <> PIdle -> p1 <> PIdle -> p0 <> PTurn -> p1 <> PTurn -> pi_turn x = 0 \/ pi_turn x = 1;
  li_first : p0 = PCrit -> waiting p1 = true -> pi_turn x = 0;
  li_second : p1 = PCrit -> waiting p0 = true -> pi_turn x = 1;
  li_excl : ~ (p0 = PCrit /\ p1 = PCrit)
}.

Lemma lock_inv_start : lock_inv PIdle PIdle idle_pipe.
Proof. split; try done. by intros [? _]. Qed.

Lemma lock_inv_step0 p0 p1 x :
  lock_inv p0 p1 x -> lock_inv (pstep 0 p0 x).1 p1 (pstep 0 p0 x).2.
Proof.
  intros [F0 F1 Ht H0 H1 He]. destruct p0; cbn in *; split; cbn; rewrite ?F1; try done;
    destruct p1; cbn in *; try done; zcases; try done; try tauto; try naive_solver lia.
Qed.

Lemma lock_inv_step1 p0 p1 x :
  lock_inv p0 p1 x -> lock_inv p0 (pstep 1 p1 x).1 (pstep 1 p1 x).2.
Proof.
  intros [F0 F1 Ht H0 H1 He]. destruct p1; cbn in *; split; cbn; rewrite ?F0; try done;
    destruct p0; cbn in *; try done; zcases; try done; try tauto; try naive_solver lia.
Qed.

Definition pair_inv (c : conf) : Prop :=
  exists p0 p1, cf_parties c = [(0, p0); (1, p1)] /\ lock_inv p0 p1 (cf_pipe c).

Lemma pair_inv_step c c' : pair_inv c -> step c c' -> pair_inv c'.
Proof.
  intros HI Hs. revert HI. destruct Hs as [i id p x l Hi]. intros (p0 & p1 & E & I). cbn in E, I. subst l.
  destruct i as [|[|i]]; [| |done]; injection Hi as <- <-; cbn [list_insert insert].
  - exists (pstep 0 p0 x).1, p1. split; [done|]. by apply lock_inv_step0.
  - exists p0, (pstep 1 p1 x).1. split; [done|]. by apply lock_inv_step1.
Qed.

Lemma pair_inv_reachable c : rtc step (start [0; 1]) c -> pair_inv c.
Proof.
  apply rtc_ind_r; [|intros; by eapply pair_inv_step].
  exists PIdle, PIdle. split; [done|apply lock_inv_start].
Qed.

Lemma nth_pair (p0 p1 : pc) i q : [(0, p0); (1, p1)] !! i = Some q ->
  (i = 0%nat /\ q = (0, p0)) \/ (i = 1%nat /\ q = (1, p1)).
Proof. destruct i as [|[|i]]; cbn; intros H; naive_solver. Qed.

(** [c] leads to a state in which party [i] is inside, by steps of that party
    only. *)
Inductive enters (i : nat) : conf -> Prop :=
| enters_now c : crit c i -> enters i c
| enters_step id p x l :
    l !! i = Some (id, p) -> p <> PCrit ->
    enters i (mkconf (pstep id p x).2 (<[i := (id, (pstep id p x).1)]> l)) -> enters i (mkconf x l).

(** A party that has the turn, or finds the other one idle, walks in. *)
Lemma enters_other_idle (i : nat) id p x l :
  l !! i = Some (id, p) -> id = 0 \/ id = 1 -> waiting p = true ->
  pi_flag (1 - id) x <> 1 \/ pi_turn x <> 1 - id -> enters i (mkconf x l).
Proof.
  intros Hi Hid Hp Hc. assert (Hlt := lookup_lt_Some _ _ _ Hi).
  assert (Hcrit : forall l', (i < length l')%nat -> enters i (mkconf x (<[i := (id, PCrit)]> l'))).
  { intros l' Hl. apply enters_now. exists id. cbn. by apply list_lookup_insert_eq. }
  destruct p; try done; clear Hp.
  - eapply enters_step; [done..|]. cbn. destruct (Z.eqb_spec (pi_flag (1 - id) x) 1) as [E|E]; [|by apply Hcrit].
    destruct Hc as [Hc|Hc]; [done|]. eapply enters_step; [by apply list_lookup_insert_eq|done|].
    cbn. destruct (Z.eqb_spec (pi_turn x) (1 - id)); [done|]. apply Hcrit. by rewrite length_insert.
  - eapply enters_step; [done..|]. cbn. destruct (Z.eqb_spec (pi_turn x) (1 - id)) as [E|E]; [|by apply Hcrit].
    destruct Hc as [Hc|Hc]; [|done]. eapply enters_step; [by apply list_lookup_insert_eq|done|].
    cbn. destruct (Z.eqb_spec (pi_flag (1 - id) x) 1); [done|]. apply Hcrit. by rewrite length_insert.
Qed.

(** Run the parties in the order of a schedule. *)
Fixpoint run (sched : list nat) (c : conf) : conf :=
  match sched with
  | [] => c
  | i :: sched =>
      match cf_parties c !! i with
      | Some (id, p) =>
          run sched (mkconf (pstep id p (cf_pipe c)).2
                       (<[i := (id, (pstep id p (cf_pipe c)).1)]> (cf_parties c)))
      | None => run sched c
      end
  end.

Lemma run_reachable sched c : rtc step c (run sched c).
Proof.
  revert c. induction sched as [|i sched IH]; intros [x l]; cbn; [done|].
  destruct (l !! i) as [[id p]|] eqn:E; [|apply IH].
  eapply rtc_l; [by constructor|apply IH].
Qed.

Lemma both_wait_enters x p0 p1 : lock_inv p0 p1 x -> waiting p0 = true -> waiting p1 = true ->
  enters 0 (mkconf x [(0, p0); (1, p1)]) \/ enters 1 (mkconf x [(0, p0); (1, p1)]).
Proof.
  intros I W0 W1. destruct (li_turn _ _ _ I) as [T|T]; [by intros ->..| |].
  - left. eapply (enters_other_idle 0 0); [done|by left|done|]. right. by rewrite T.
  - right. eapply (enters_other_idle 1 1); [done|by right|done|]. right. by rewrite T.
Qed.

Lemma enters_rtc i c : enters i c -> exists c', rtc step c c' /\ crit c' i.
Proof.
  induction 1 as [c Hc|id p x l Hi Hp _ (c' & Hr & Hc)]; [by exists c|]. exists c'. split; [|done].
  eapply rtc_l; [by constructor|done].
Qed.

(** The accesses that bring a party to its loop. *)
Definition to_loop (i : nat) (p : pc) : list nat := match p with PIdle => [i; i] | PTurn => [i] | _ => [] end.

Lemma someone_enters c : pair_inv c -> exists i c', rtc step c c' /\ crit c' i.
Proof.
  intros (p0 & p1 & E & I). destruct c as [x l]. cbn in E, I. subst l.
  set (c1 := run (to_loop 0 p0 ++ to_loop 1 p1) (mkconf x [(0, p0); (1, p1)])).
  assert (R1 : rtc step (mkconf x [(0, p0); (1, p1)]) c1) by apply run_reachable.
  assert (I1 : pair_inv c1).
  { revert R1. apply rtc_ind_r; [by exists p0, p1|]. intros a b _ Hb Ha. by eapply pair_inv_step. }
  destruct I1 as (q0 & q1 & E1 & I1).
  assert (Hq : (q0 = PCrit \/ waiting q0 = true) /\ (q1 = PCrit \/ waiting q1 = true)).
  { clear -E1. destruct p0, p1; cbn in E1; injection E1 as <- <-; cbn; auto. }
  destruct Hq as [[->|W0] [->|W1]]; [exists 0%nat, c1|exists 0%nat, c1|exists 1%nat, c1|].
  1, 2, 3: split; [done|]; unfold crit; rewrite E1; by eexists.
  destruct c1 as [x1 l1]. cbn in E1, I1. subst l1.
  destruct (both_wait_enters _ _ _ I1 W0 W1) as [He|He]; apply enters_rtc in He as (c' & R2 & Hc); [exists 0%nat, c'|exists 1%nat, c'].
  all: split; [by etrans|done].
Qed.

(** Both wait and it is the turn of party [i]: the other has given way. *)
Definition given_way (i : nat) (c : conf) : Prop :=
  exists p0 p1, cf_parties c = [(0, p0); (1, p1)] /\ waiting p0 = true /\ waiting p1 = true /\ pi_turn (cf_pipe c) = Z.of_nat i.

Lemma given_way_next i c c' : (i < 2)%nat -> pair_inv c -> given_way i c -> step c c' -> given_way i c' \/ crit c' i.
Proof.
  intros Hi HI (p0 & p1 & E & W0 & W1 & T) Hs. destruct HI as (q0 & q1 & E' & I). rewrite E in E'. injection E' as <- <-.
  destruct I as [F0 F1 _ _ _ _]. destruct Hs as [j id p x l Hj]. cbn in E, F0, F1, T. subst l.
  destruct i as [|[|i]]; [| |lia]; destruct j as [|[|j]]; [| |discriminate| | |discriminate]; injection Hj as <- <-.
  all: destruct p0; try discriminate W0; destruct p1; try discriminate W1; cbn in F0, F1, T; cbn; unfold pi_flag; cbn; rewrite ?F0, ?F1, ?T; cbn.
  all: first [ left; do 2 eexists; split; [reflexivity|]; split; [reflexivity|]; split; [reflexivity|exact T]
             | right; eexists; reflexivity ].
Qed.

(** C19: With one writer and one reader whose memory accesses take effect in the
    order of the program, interleaved in any way: they are never both inside;
    from every reachable state one of them can get inside; when both wait, one
    of them gets in by its own steps alone; and when one has given way to the
    other, that one gets in by its own steps and, until it is inside, the
    first goes on waiting whatever it does. (Where the two stores of
    [peterson_acquire] may take effect in the other order the first claim
    fails, see [peterson_store_order].) *)
Theorem peterson_safe (c : conf) (H : rtc step (start [0; 1]) c) :
  ~ (crit c 0 /\ crit c 1) /\
  (exists i c', rtc step c c' /\ crit c' i) /\
  (forall p0 p1, cf_parties c = [(0, p0); (1, p1)] -> waiting p0 = true -> waiting p1 = true ->
     enters 0 c \/ enters 1 c) /\
  (forall i, (i < 2)%nat -> given_way i c -> enters i c /\ forall c', step c c' -> given_way i c' \/ crit c' i).
Proof.
  assert (HI := pair_inv_reachable c H). destruct (HI) as (p0 & p1 & E & I). split_and!.
  - intros [[id0 H0] [id1 H1]]. rewrite E in H0, H1. injection H0 as _ ->. injection H1 as _ ->.
    by apply (li_excl _ _ _ I).
  - by apply someone_enters.
  - intros q0 q1 E' W0 W1. rewrite E in E'. injection E' as <- <-. destruct c as [x l]. cbn in *. subst l. by apply both_wait_enters.
  - intros i Hi G. split; [|intros c'; by apply given_way_next]. destruct G as (q0 & q1 & E' & W0 & W1 & T). rewrite E in E'. injection E' as <- <-.
    destruct c as [x l]. cbn in *. subst l. destruct i as [|[|i]]; [| |lia].
    + eapply (enters_other_idle 0 0); [done|by left|done|]. right. by rewrite T.
    + eapply (enters_other_idle 1 1); [done|by right|done|]. right. by rewrite T.
Qed.

(** ** When the lock does not exclude *)

(** C31: Two processes that share an end of the pipe, as after a fork, are let in
    together: the lock has one identity per end, not per process. *)
Theorem peterson_shared_end (id : Z) (Hid : id = 0 \/ id = 1) :
  exists c, rtc step (start [id; id]) c /\ crit c 0 /\ crit c 1.
Proof.
  exists (run [0; 0; 0; 1; 1; 1]%nat (start [id; id])). split; [apply run_reachable|].
  destruct Hid as [-> | ->]; split; by eexists.
Qed.

(** The two stores of [peterson_acquire] in the order memory sees them: the
    fence comes after both, so nothing orders them with each other. *)
Inductive weak_step : conf -> conf -> Prop :=
| weak_program c c' : step c c' -> weak_step c c'
| weak_turn_first i id x l :
    l !! i = Some (id, PIdle) ->
    weak_step (mkconf x l) (mkconf (set_pi_turn (1 - id) x) (<[i := (id, PTurn)]> l))
| weak_flag_second i id x l :
    l !! i = Some (id, PTurn) -> pi_flag id x <> 1 ->
    weak_step (mkconf x l) (mkconf (set_pi_flag id 1 x) (<[i := (id, PFlag)]> l)).

(** If the store to [turn] may become visible before the store to [flag], the
    writer and the reader can both be inside. *)
Theorem peterson_store_order :
  exists c, rtc weak_step (start [0; 1]) c /\ crit c 0 /\ crit c 1.
Proof.
  exists (mkconf (set_pi_flag 0 1 (set_pi_turn 0 (set_pi_flag 1 1 (set_pi_turn 1 idle_pipe))))
            [(0, PCrit); (1, PCrit)]). split; [|split; by eexists].
  eapply rtc_l; [by apply (weak_turn_first 0 0)|]. cbn.
  eapply rtc_l; [apply weak_program; by apply (step_party 1 1 PIdle)|]. cbn.
  eapply rtc_l; [apply weak_program; by apply (step_party 1 1 PTurn)|]. cbn.
  eapply rtc_l; [apply weak_program; by apply (step_party 1 1 PFlag)|]. cbn.
  eapply rtc_l; [by apply (weak_flag_second 0 0)|]. cbn.
  eapply rtc_l; [apply weak_program; by apply (step_party 0 0 PFlag)|]. cbn.
  eapply rtc_l; [apply weak_program; by apply (step_party 0 0 PCheck)|]. cbn.
  done.
Qed.

(** ** Instances *)

(** Both parties wait, the writer last to give way. *)
Lemma peterson_safe_witness :
  let c := run [1; 0; 1; 0]%nat (start [0; 1]) in
  ~ (crit c 0 /\ crit c 1) /\ (exists i c', rtc step c c' /\ crit c' i) /\ (enters 0 c \/ enters 1 c) /\ enters 1 c.
Proof.
  destruct (peterson_safe (run [1; 0; 1; 0]%nat (start [0; 1])) (run_reachable _ _)) as (H1 & H2 & H3 & H4).
  split; [exact H1|]. split; [exact H2|]. split; [by eapply H3|]. apply (H4 1%nat); [lia|]. by do 2 eexists.
Defined.

Lemma peterson_shared_end_witness : exists c, rtc step (start [0; 0]) c /\ crit c 0 /\ crit c 1.
Proof. apply (peterson_shared_end 0). by left. Defined.
