(* ===== verification/PipeSpec.v ===== *)
(** * Pipes are bounded queues

    The ring of [struct pipe] represents a queue of at most [PIPESIZE] bytes;
    [pipewrite] appends to it, [piperead] takes from its front, and an
    operation that would have to wait faults, because [sleep] is called
    without a lock. *)

From stdpp Require Import base gmap strings numbers list.
From S2P Require Import Prelude State Spinlock Strings Printf Bytes Ring Memory Kalloc Vm PageTable UserMem.
From S2P Require Import Proc Sleeplock Quiet Bio Uio Pipe Peterson.

(** ** The queue a ring represents *)

(** The counters [nread] and [nwrite] are [uint]s that run on for ever; as
    [PIPESIZE] divides 2^32 the ring survives their wrapping around. *)
Record pipe_rep (x : pipe) (q : list Z) : Prop := {
  pr_data : length (pi_data x) = PIPESIZE;
  pr_read : 0 <= pi_nread x < 2 ^ 32;
  pr_write : pi_nwrite x = wrap32 (pi_nread x + Z.of_nat (length q));
  pr_fits : (length q <= PIPESIZE)%nat;
  pr_bytes : holds PIPESIZE (pi_data x) (pi_nread x) q
}.

Section ring.
Implicit Types (x : pipe) (q : list Z).

Lemma PIPESIZE_pos : (0 < PIPESIZE)%nat.
Proof. unfold PIPESIZE. lia. Qed.

Lemma PIPESIZE_div : (Z.of_nat PIPESIZE | 2 ^ 32).
Proof. by exists 8388608. Qed.

Lemma pipe_full x q :
  pipe_rep x q -> (pi_nwrite x =? wrap32 (pi_nread x + Z.of_nat PIPESIZE)) = (length q =? PIPESIZE)%nat.
Proof. intros [_ _ -> H _]. unfold PIPESIZE in *. apply wrap32_offset; lia. Qed.

Lemma pipe_empty x q : pipe_rep x q -> (pi_nread x =? pi_nwrite x) = (length q =? 0)%nat.
Proof.
  intros [_ Hr -> H _]. rewrite Z.eqb_sym. rewrite <- (wrap32_small (pi_nread x)) at 2 by done.
  rewrite <- (Z.add_0_r (pi_nread x)) at 2. unfold PIPESIZE in *. apply (wrap32_offset _ _ 0); lia.
Qed.

(** [pi->data[pi->nwrite++ % PIPESIZE] = c] *)
Definition push (c : Z) (x : pipe) : pipe :=
  set_pi_data (<[pipe_idx (pi_nwrite x) := c]> (pi_data x)) (set_pi_nwrite (wrap32 (pi_nwrite x + 1)) x).

(** [pi->nread++] *)
Definition pop (x : pipe) : pipe := set_pi_nread (wrap32 (pi_nread x + 1)) x.

Lemma pipe_push x q c : pipe_rep x q -> (length q < PIPESIZE)%nat -> pipe_rep (push c x) (q ++ [c]).
Proof.
  intros [Hd Hr Hw Hf Hb] Hlt. split; cbn.
  - by rewrite length_insert.
  - done.
  - rewrite Hw, length_app, wrap32_add. f_equal. cbn. lia.
  - rewrite length_app. cbn. lia.
  - rewrite Hw. change pipe_idx with (ring_idx PIPESIZE).
    rewrite ring_idx_wrap by (apply PIPESIZE_pos || apply PIPESIZE_div).
    by apply holds_snoc; [apply PIPESIZE_pos|..].
Qed.

Lemma pipe_front x c q : pipe_rep x (c :: q) -> pi_data x !! pipe_idx (pi_nread x) = Some c.
Proof. intros H. exact (holds_front _ _ _ _ _ (pr_bytes _ _ H)). Qed.

Lemma pipe_pop x c q : pipe_rep x (c :: q) -> pipe_rep (pop x) q.
Proof.
  intros [Hd Hr Hw Hf Hb]. cbn in Hf. split; cbn; [done| | |lia|].
  - unfold wrap32. apply Z.mod_pos_bound. lia.
  - rewrite Hw, wrap32_add. f_equal. cbn. lia.
  - by eapply holds_tail; [apply PIPESIZE_pos|apply PIPESIZE_div|].
Qed.

Lemma pipe_rep_fields x y q :
  pi_data y = pi_data x -> pi_nread y = pi_nread x -> pi_nwrite y = pi_nwrite x -> pipe_rep x q -> pipe_rep y q.
Proof. intros E1 E2 E3 [? ? ? ? ?]. split; by rewrite ?E1, ?E2, ?E3. Qed.

End ring.

(** ** One process at its end of the pipe *)

(** The state [s] with the pipe [x] and the synchronisation state [y]. *)
Definition at_pipe (pi : Z) (x : pipe) (y : sync) (s : kst) : kst :=
  set_k_sync y (set_k_pipes (<[pi := x]> (k_pipes s)) s).

Lemma at_pipe_self pi x s : k_pipes s !! pi = Some x -> at_pipe pi x (k_sync s) s = s.
Proof. intros H. unfold at_pipe. rewrite insert_id by done. by destruct s. Qed.

Lemma updpi_at pi f x y s : updpi pi f (at_pipe pi x y s) = Ok tt (at_pipe pi (f x) y s).
Proof.
  rewrite (updpi_ok _ _ x); [|by apply lookup_insert_eq]. unfold at_pipe. cbn.
  by rewrite insert_insert_eq.
Qed.

Lemma getpi_at pi x y s : getpi pi (at_pipe pi x y s) = Ok x (at_pipe pi x y s).
Proof. unfold getpi, at_pipe. cbn. by rewrite lookup_insert_eq. Qed.

Section ends.
Context {W : World} {T : Patience} (p : nat) (pr : proc) (pi : Z) (s : kst).
Context (Hq : quiet p s) (Hp : k_procs s !! p = Some pr) (Halive : p_killed pr = false).
Context (Has : addrspace (p_pagetable pr) s).
Implicit Types (x : pipe) (y : sync) (q : list Z).

Abbreviation root := (p_pagetable pr).
Abbreviation same_sync y := (touch y = touch (k_sync s)).

Lemma sync_wf_at y : same_sync y -> sync_wf y.
Proof. intros H. eapply touch_sync_wf; [symmetry; exact H|]. by eapply quiet_wf. Qed.

Lemma proc_free_at y : same_sync y -> lock_free (LProc p) y.
Proof.
  intros H. eapply touch_lock_free; [symmetry; exact H|]. apply (q_procs _ _ Hq), (q_me _ _ Hq).
Qed.

Lemma procs_free_at y : same_sync y -> proc_locks_free y.
Proof. intros H. eapply touch_proc_locks_free; [symmetry; exact H|]. apply (q_procs _ _ Hq). Qed.

Lemma killed_at x y : same_sync y -> killed p (at_pipe pi x y s) = Ok false (at_pipe pi x (touch y) s).
Proof.
  intros Hy. apply wp_run. eapply wp_killed; cbn; [by apply sync_wf_at|by apply proc_free_at|exact Hp|].
  rewrite Halive. by split.
Qed.

(** [wakeup] inside the pipe code. *)
Definition woken (c : chan) (t : kst) : kst :=
  upd_procs (imap (wake_others (Some c) (Some p))) t.

Lemma running_at y : same_sync y -> running y = Some p.
Proof.
  intros H. symmetry in H. rewrite <- (quiet_running _ _ Hq). unfold running.
  destruct (quiet_wf _ _ Hq) as (c & Hc & _). destruct (touch_cur _ _ _ H Hc) as (c' & Hc' & E).
  rewrite Hc, Hc'. cbn. symmetry. by apply touch_cpu_proc.
Qed.

Lemma wakeup_at c x y :
  same_sync y -> wakeup (Some c) (at_pipe pi x y s) = Ok tt (at_pipe pi x (touch y) (woken c s)).
Proof.
  intros Hy. apply wp_run, wp_wakeup; cbn; [by apply sync_wf_at|apply (q_tab _ _ Hq)|by apply procs_free_at|].
  rewrite running_at by done. by split.
Qed.

(** A turn of the writer's loop that stores a byte. *)
Lemma pipewrite_step fuel x y q addr n (i : nat) :
  same_sync y -> pi_readopen x = true -> pipe_rep x q -> (length q < PIPESIZE)%nat ->
  mapped root (k_mem s) addr n -> (i < n)%nat ->
  pipewrite_loop (S fuel) pi p addr (Z.of_nat n) (Z.of_nat i) (at_pipe pi x y s) =
  pipewrite_loop fuel pi p addr (Z.of_nat n) (Z.of_nat (S i))
    (at_pipe pi (push (default 0 (umem (k_mem s) root (addr + Z.of_nat i))) x) (touch y) s).
Proof.
  intros Hy Ho Hr Hlt Hm Hi. cbn [pipewrite_loop].
  destruct (Z.ltb_spec (Z.of_nat i) (Z.of_nat n)) as [_|]; [|lia]. cbn [negb].
  rewrite (bind_ok _ _ _ _ _ (getpi_at _ _ _ _)), Ho. cbn [negb].
  rewrite (bind_ok _ _ _ _ _ (killed_at _ _ Hy)). cbv iota.
  rewrite (bind_ok _ _ _ _ _ (getpi_at _ _ _ _)), (pipe_full _ _ Hr).
  destruct (Nat.eqb_spec (length q) PIPESIZE) as [|_]; [lia|].
  rewrite (bind_ok _ _ _ pr (at_pipe pi x (touch y) s)) by (unfold getp; cbn; by rewrite Hp).
  rewrite (mapped_range root (k_mem s) addr n) by done.
  rewrite (bind_ok _ _ _ (0, [default 0 (umem (k_mem s) root (addr + Z.of_nat i))]) (at_pipe pi x (touch y) s)).
  2: { apply wp_run, wp_copyin_user; [by apply (addrspace_ext root s)| |].
       - eapply (mapped_sub _ _ _ _ _ 1); [exact Hm|lia].
       - unfold ubytes. cbn. by rewrite Z.add_0_r. }
  cbn [fst snd nth]. change (0 =? -1) with false. cbv iota.
  rewrite (bind_ok _ _ _ _ _ (getpi_at _ _ _ _)), (bind_ok _ _ _ _ _ (updpi_at _ _ _ _ _)),
    (bind_ok _ _ _ _ _ (updpi_at _ _ _ _ _)).
  by replace (Z.of_nat i + 1) with (Z.of_nat (S i)) by lia.
Qed.

(** A turn that finds the ring full. *)
Lemma pipewrite_blocks fuel x y q addr n i :
  same_sync y -> pi_readopen x = true -> pipe_rep x q -> length q = PIPESIZE -> i < n ->
  exists y', pipewrite_loop (S fuel) pi p addr n i (at_pipe pi x y s) =
    Fault (at_pipe pi (set_pi_flag 0 0 x) y' (woken (ChPipeRead pi) s)).
Proof.
  intros Hy Ho Hr Hlt Hi. cbn [pipewrite_loop].
  destruct (Z.ltb_spec i n) as [_|]; [|lia]. cbn [negb].
  rewrite (bind_ok _ _ _ _ _ (getpi_at _ _ _ _)), Ho. cbn [negb].
  rewrite (bind_ok _ _ _ _ _ (killed_at _ _ Hy)). cbv iota.
  rewrite (bind_ok _ _ _ _ _ (getpi_at _ _ _ _)), (pipe_full _ _ Hr), Hlt, Nat.eqb_refl.
  assert (Hy' : same_sync (touch y)) by by rewrite touch_idem.
  rewrite (bind_ok _ _ _ _ _ (wakeup_at _ _ _ Hy')). unfold peterson_release.
  rewrite (bind_ok _ _ _ _ _ (updpi_at _ _ _ _ _)), touch_idem.
  set (t := at_pipe _ _ _ _). exists (acq (LProc p) (touch y)).
  unfold mbind at 1, M_bind at 1. rewrite (sleep_null_lock_faults p); [done|..].
  - by apply sync_wf_at.
  - by apply running_at.
  - by apply proc_free_at.
Qed.

(** The writer's loop over [m] bytes: all of them stored, or the ring filled
    and a fault. *)
Lemma pipewrite_loop_run m fuel x y q addr n (i : nat) :
  same_sync y -> pi_readopen x = true -> pipe_rep x q -> mapped root (k_mem s) addr n ->
  (i + m = n)%nat -> (m <= fuel)%nat ->
  let bs := ubytes root (k_mem s) (addr + Z.of_nat i) m in
  (length q + m <= PIPESIZE)%nat /\ (exists x' y', same_sync y' /\ pipe_rep x' (q ++ bs) /\
     x' = set_pi_data (pi_data x') (set_pi_nwrite (pi_nwrite x') x) /\
     pipewrite_loop fuel pi p addr (Z.of_nat n) (Z.of_nat i) (at_pipe pi x y s) =
       Ok (Some (Z.of_nat n)) (at_pipe pi x' y' s)) \/
  (PIPESIZE < length q + m)%nat /\ (exists x' y', pipe_rep x' (take PIPESIZE (q ++ bs)) /\ pi_flag0 x' = 0 /\
     pipewrite_loop fuel pi p addr (Z.of_nat n) (Z.of_nat i) (at_pipe pi x y s) =
       Fault (at_pipe pi x' y' (woken (ChPipeRead pi) s))).
Proof.
  revert fuel x y q i. induction m as [|m IH]; intros fuel x y q i Hy Ho Hr Hm Hi Hf bs.
  - left. split; [pose proof (pr_fits _ _ Hr); lia|]. exists x, y. split_and!; [done| |by destruct x|].
    + unfold bs, ubytes. cbn. by rewrite app_nil_r.
    + replace n with i by lia. destruct fuel; cbn; by destruct (Z.ltb_spec (Z.of_nat i) (Z.of_nat i)); [lia|].
  - destruct fuel as [|fuel]; [lia|]. assert (Hfits := pr_fits _ _ Hr).
    destruct (decide (length q = PIPESIZE)) as [E|E].
    + right. split; [lia|]. destruct (pipewrite_blocks fuel x y q addr (Z.of_nat n) (Z.of_nat i)) as [y' H];
        [done..|lia|]. exists (set_pi_flag 0 0 x), y'. split_and!; [|done|exact H].
      rewrite take_app_le, take_ge by lia. by apply (pipe_rep_fields x).
    + rewrite (pipewrite_step _ _ _ q) by (done || lia). set (c := default 0 _).
      assert (Ebs : bs = c :: ubytes root (k_mem s) (addr + Z.of_nat (S i)) m).
      { unfold bs. change (S m) with (1 + m)%nat. rewrite ubytes_add. unfold ubytes at 1. cbn [seq fmap list_fmap].
        rewrite Z.add_0_r. f_equal. f_equal. lia. }
      destruct (IH fuel (push c x) (touch y) (q ++ [c]) (S i)) as [(H1 & x' & y' & H2)|(H1 & x' & y' & H2)];
        [by rewrite touch_idem|done|apply pipe_push; [done|lia]|done|lia|lia|left|right].
      all: rewrite length_app in H1; cbn in H1; split; [lia|]; exists x', y'; rewrite Ebs.
      all: rewrite <- app_assoc in H2; cbn in H2.
      * destruct H2 as (? & ? & E' & ?). split_and!; [done..| |done]. rewrite E'. by destruct x.
      * exact H2.
Qed.

End ends.

Section reader.
Context {W : World} {T : Patience} (p : nat) (pr : proc) (pi : Z).
Implicit Types (x : pipe) (y : sync) (q : list Z) (s : kst) (m : mem).

Abbreviation root := (p_pagetable pr).

Lemma at_pipe_mem x y m s : set_k_mem m (at_pipe pi x y s) = at_pipe pi x y (set_k_mem m s).
Proof. done. Qed.

(** The reader's loop copies bytes until the ring is empty or the user's
    buffer full. *)
Lemma piperead_loop_run k fuel x y q addr n (i : nat) s :
  k_procs s !! p = Some pr -> addrspace root s -> pipe_rep x q -> ubuf root (k_mem s) addr n ->
  (i + k = n)%nat -> (k <= fuel)%nat ->
  exists x' m', pipe_rep x' (drop k q) /\ x' = set_pi_nread (pi_nread x') x /\
    uwrite root (addr + Z.of_nat i) (take k q) (k_mem s) m' /\ addrspace root (set_k_mem m' s) /\
    piperead_loop fuel pi p addr (Z.of_nat n) (Z.of_nat i) (at_pipe pi x y s) =
      Ok (Z.of_nat (i + Nat.min k (length q))) (at_pipe pi x' y (set_k_mem m' s)).
Proof.
  revert fuel x q i s. induction k as [|k IH]; intros fuel x q i s Hp Has Hr Hu Hi Hf.
  { exists x, (k_mem s). split_and!; [by rewrite drop_0|by destruct x|by apply uwrite_nil|by destruct s|].
    replace n with i by lia. cbn [Nat.min]. rewrite Nat.add_0_r.
    replace (set_k_mem (k_mem s) s) with s by by destruct s.
    destruct fuel; cbn; by destruct (Z.ltb_spec (Z.of_nat i) (Z.of_nat i)); [lia|]. }
  destruct fuel as [|fuel]; [lia|]. cbn [piperead_loop].
  destruct (Z.ltb_spec (Z.of_nat i) (Z.of_nat n)) as [_|]; [|lia]. cbn [negb].
  rewrite (bind_ok _ _ _ _ _ (getpi_at _ _ _ _)), (pipe_empty _ _ Hr). destruct q as [|c q]; cbn [length Nat.eqb].
  { exists x, (k_mem s). split_and!; [done|by destruct x|by apply uwrite_nil|by destruct s|].
    rewrite Nat.min_0_r, Nat.add_0_r. by destruct s. }
  rewrite (bind_ok _ _ _ c (at_pipe pi x y s)) by (by rewrite (pipe_front _ _ _ Hr)).
  rewrite (bind_ok _ _ _ pr (at_pipe pi x y s)) by (unfold getp; cbn; by rewrite Hp).
  rewrite (mapped_range root (k_mem s) addr n) by (apply Hu || lia).
  assert (exists m1, uwrite root (addr + Z.of_nat i) [c] (k_mem s) m1 /\ addrspace root (set_k_mem m1 s) /\
    copyout root (addr + Z.of_nat i) [c] (at_pipe pi x y s) = Ok 0 (at_pipe pi x y (set_k_mem m1 s)))
    as (m1 & U1 & A1 & E1).
  { destruct (wp_inv (copyout root (addr + Z.of_nat i) [c]) (fun r t => r = 0 /\ exists m1,
      uwrite root (addr + Z.of_nat i) [c] (k_mem s) m1 /\ addrspace root (set_k_mem m1 s) /\
      t = at_pipe pi x y (set_k_mem m1 s)) (at_pipe pi x y s)) as (r & t & E & -> & m1 & U1 & A1 & ->); [|eauto].
    apply wp_copyout_user; [by apply (addrspace_ext root s)|eapply ubuf_sub; [exact Hu|cbn; lia]|].
    intros m1 U1 A1. split; [done|]. exists m1. split_and!; [done| |done]. by eapply addrspace_ext, A1. }
  rewrite (bind_ok _ _ _ _ _ E1). change (0 =? -1) with false. cbv iota.
  rewrite (bind_ok _ _ _ _ _ (updpi_at _ _ _ _ _)).
  replace (Z.of_nat i + 1) with (Z.of_nat (S i)) by lia.
  destruct (IH fuel (pop x) q (S i) (set_k_mem m1 s)) as (x' & m' & R' & X' & U' & A' & E');
    [done|done|by eapply pipe_pop|by eapply ubuf_uwrite|lia|lia|].
  exists x', m'. split_and!; [done| | |done|].
  - rewrite X'. by destruct x.
  - apply (uwrite_app _ _ [c] _ _ m1); [done|]. cbn [length].
    replace (addr + Z.of_nat i + Z.of_nat 1) with (addr + Z.of_nat (S i)) by lia. exact U'.
  - unfold pop in E'. rewrite E'. f_equal; cbn [length]; lia.
Qed.

End reader.

(** ** Properties *)

(** C20: [pipewrite] by a live process of [n] mapped bytes to a pipe whose read
    end is open, no reader being inside: if they fit behind what the pipe
    holds, all are appended in order, the result is [n], sleeping readers are
    woken and nothing else changes; if they do not fit, the ring is filled and
    the kernel faults in [sleep]. With the read end closed the result is -1
    and the contents stay. *)
Theorem pipewrite_spec {W : World} {T : Patience} (p : nat) (pr : proc) (pi addr : Z) (n : nat)
    (x : pipe) (q : list Z) (s : kst)
    (Hq : quiet p s) (Hp : k_procs s !! p = Some pr) (Halive : p_killed pr = false)
    (Has : addrspace (p_pagetable pr) s) (Hm : mapped (p_pagetable pr) (k_mem s) addr n)
    (Hx : k_pipes s !! pi = Some x) (Hr : pipe_rep x q) (Hflag : pi_flag1 x = 0) (Hn : (0 < n)%nat) :
  let bs := ubytes (p_pagetable pr) (k_mem s) addr n in
  (pi_readopen x = true -> (length q + n <= PIPESIZE)%nat ->
     exists x' y', pipe_rep x' (q ++ bs) /\ pi_flag0 x' = 0 /\ pi_flag1 x' = 0 /\ touch y' = touch (k_sync s) /\
       pipewrite pi addr (Z.of_nat n) s = Ok (Z.of_nat n) (at_pipe pi x' y' (woken p (ChPipeRead pi) s))) /\
  (pi_readopen x = true -> (PIPESIZE < length q + n)%nat ->
     exists x' y', pipe_rep x' (take PIPESIZE (q ++ bs)) /\
       pipewrite pi addr (Z.of_nat n) s = Fault (at_pipe pi x' y' (woken p (ChPipeRead pi) s))) /\
  (pi_readopen x = false ->
     exists x' y', pipe_rep x' q /\ touch y' = touch (k_sync s) /\
       pipewrite pi addr (Z.of_nat n) s = Ok (-1) (at_pipe pi x' y' s)).
Proof.
  intros bs. unfold pipewrite.
  assert (E0 : myproc s = Ok (Some p) (at_pipe pi x (touch (k_sync s)) s)).
  { apply wp_run, wp_myproc'; [by eapply quiet_wf|]. rewrite (quiet_running p) by done. split; [done|].
    unfold at_pipe, upd_sync. rewrite insert_id by done. by destruct s. }
  assert (E1 : peterson_acquire pi 0 (at_pipe pi x (touch (k_sync s)) s) =
    Ok tt (at_pipe pi (acquired 0 x) (touch (k_sync s)) s)).
  { rewrite (peterson_acquire_run _ _ x) by by apply lookup_insert_eq. cbn zeta.
    assert (F : pi_flag (1 - 0) (acquired 0 x) = 0) by exact Hflag. rewrite F. cbn [Z.eqb].
    unfold at_pipe. cbn. by rewrite insert_insert_eq. }
  assert (Hr' : pipe_rep (acquired 0 x) q) by by apply (pipe_rep_fields x).
  rewrite (bind_ok _ _ _ _ _ E0). cbn [deref]. rewrite (bind_ok _ _ _ p (at_pipe pi x (touch (k_sync s)) s)) by done.
  rewrite (bind_ok _ _ _ _ _ E1).
  split; [|split]; intros Ho.
  3: { destruct n as [|n]; [lia|]. rewrite Nat2Z.id. cbn [Nat.add pipewrite_loop].
       destruct (Z.ltb_spec 0 (Z.of_nat (S n))) as [_|]; [|lia]. cbn [negb].
       unfold mbind at 1, M_bind at 1. rewrite (bind_ok _ _ _ _ _ (getpi_at _ _ _ _)).
       replace (pi_readopen (acquired 0 x)) with false by done. cbn [negb].
       rewrite (bind_ok _ _ _ true (at_pipe pi (acquired 0 x) (touch (k_sync s)) s)) by done. unfold peterson_release.
       rewrite (bind_ok _ _ _ _ _ (updpi_at _ _ _ _ _)). cbn.
       eexists _, _. split_and!; [|by rewrite touch_idem|reflexivity]. by apply (pipe_rep_fields x). }
  all: intros Hfit; destruct (pipewrite_loop_run p pr pi s Hq Hp Halive Has n (Z.to_nat (Z.of_nat n) + patience)
      (acquired 0 x) (touch (k_sync s)) q addr n 0) as [(H1 & x' & y' & Hy & R & X & E)|(H1 & x' & y' & R & _ & E)];
      rewrite ?touch_idem; [done..|lia|lia| |]; try lia.
  all: change (Z.of_nat 0) with 0 in *; rewrite Z.add_0_r in R; fold bs in R.
  - rewrite (bind_ok _ _ _ _ _ E), (bind_ok _ _ _ _ _ (wakeup_at p pi s Hq (ChPipeRead pi) x' y' Hy)).
    unfold peterson_release. rewrite (bind_ok _ _ _ _ _ (updpi_at _ _ _ _ _)).
    eexists _, _. split_and!; [..|reflexivity].
    + by apply (pipe_rep_fields x').
    + done.
    + cbn. rewrite X. done.
    + by rewrite touch_idem.
  - exists x', y'. split; [done|]. unfold mbind at 1, M_bind at 1. by rewrite E.
Qed.

(** C21: [piperead] by a live process into a writable buffer of [n] bytes, no
    writer being inside: what the pipe holds, at most [n] bytes, goes to the
    buffer in order and leaves the pipe, sleeping writers are woken, and
    nothing else changes; when the pipe is empty the result is 0 if the write
    end is closed, and the kernel faults in [sleep] if it is open. *)
Theorem piperead_spec {W : World} {T : Patience} (p : nat) (pr : proc) (pi addr : Z) (n : nat)
    (x : pipe) (q : list Z) (s : kst)
    (Hq : quiet p s) (Hp : k_procs s !! p = Some pr) (Halive : p_killed pr = false)
    (Has : addrspace (p_pagetable pr) s) (Hu : ubuf (p_pagetable pr) (k_mem s) addr n)
    (Hx : k_pipes s !! pi = Some x) (Hr : pipe_rep x q) (Hflag : pi_flag0 x = 0) :
  ((q <> [] \/ pi_writeopen x = false) ->
     exists x' y' m', pipe_rep x' (drop n q) /\ pi_flag0 x' = 0 /\ pi_flag1 x' = 0 /\
       touch y' = touch (k_sync s) /\ uwrite (p_pagetable pr) addr (take n q) (k_mem s) m' /\
       piperead pi addr (Z.of_nat n) s =
         Ok (Z.of_nat (Nat.min n (length q))) (at_pipe pi x' y' (woken p (ChPipeWrite pi) (set_k_mem m' s)))) /\
  (q = [] -> pi_writeopen x = true -> (0 < patience)%nat ->
     exists s', piperead pi addr (Z.of_nat n) s = Fault s').
Proof.
  unfold piperead.
  assert (E0 : myproc s = Ok (Some p) (at_pipe pi x (touch (k_sync s)) s)).
  { apply wp_run, wp_myproc'; [by eapply quiet_wf|]. rewrite (quiet_running p) by done. split; [done|].
    unfold at_pipe, upd_sync. rewrite insert_id by done. by destruct s. }
  assert (E1 : peterson_acquire pi 1 (at_pipe pi x (touch (k_sync s)) s) =
    Ok tt (at_pipe pi (acquired 1 x) (touch (k_sync s)) s)).
  { rewrite (peterson_acquire_run _ _ x) by by apply lookup_insert_eq. cbn zeta.
    assert (F : pi_flag (1 - 1) (acquired 1 x) = 0) by exact Hflag. rewrite F. cbn [Z.eqb].
    unfold at_pipe. cbn. by rewrite insert_insert_eq. }
  assert (Hr' : pipe_rep (acquired 1 x) q) by by apply (pipe_rep_fields x).
  rewrite (bind_ok _ _ _ _ _ E0). cbn [deref]. rewrite (bind_ok _ _ _ p (at_pipe pi x (touch (k_sync s)) s)) by done.
  rewrite (bind_ok _ _ _ _ _ E1).
  split.
  - intros Hne. rewrite (bind_ok _ _ _ true (at_pipe pi (acquired 1 x) (touch (k_sync s)) s)).
    2: { assert (C : negb ((pi_nread (acquired 1 x) =? pi_nwrite (acquired 1 x)) && pi_writeopen (acquired 1 x)) = true).
         { rewrite (pipe_empty _ _ Hr'). destruct Hne as [Hne|Hne]; [by destruct q|].
           change (pi_writeopen (acquired 1 x)) with (pi_writeopen x). by rewrite Hne, andb_false_r. }
         destruct patience; cbn [wait_nonempty]; rewrite (bind_ok _ _ _ _ _ (getpi_at _ _ _ _)), C; done. }
    cbn [negb]. destruct (piperead_loop_run p pr pi n (Z.to_nat (Z.of_nat n)) (acquired 1 x) (touch (k_sync s)) q
      addr n 0 s) as (x' & m' & R & X & U & A & E); [done..|lia|].
    change (Z.of_nat 0) with 0 in *. rewrite Z.add_0_r in U. cbn [Nat.add] in E.
    rewrite (bind_ok _ _ _ _ _ E).
    rewrite (bind_ok _ _ _ _ _ (wakeup_at p pi (set_k_mem m' s) (quiet_mem _ _ _ Hq) (ChPipeWrite pi) x'
      (touch (k_sync s)) (touch_idem _))).
    unfold peterson_release. rewrite (bind_ok _ _ _ _ _ (updpi_at _ _ _ _ _)).
    eexists _, _, m'. split_and!; [..|reflexivity].
    + by apply (pipe_rep_fields x').
    + cbn. rewrite X. done.
    + done.
    + by rewrite !touch_idem.
    + done.
  - intros -> Ho Hpat. destruct patience as [|fuel]; [lia|]. cbn [wait_nonempty].
    unfold mbind at 1, M_bind at 1. rewrite (bind_ok _ _ _ _ _ (getpi_at _ _ _ _)), (pipe_empty _ _ Hr').
    replace (pi_writeopen (acquired 1 x)) with true by done. cbn [length Nat.eqb andb negb].
    assert (Hy : touch (touch (k_sync s)) = touch (k_sync s)) by apply touch_idem.
    rewrite (bind_ok _ _ _ _ _ (killed_at p pr pi s Hq Hp Halive _ _ Hy)). cbv iota.
    unfold peterson_release. rewrite (bind_ok _ _ _ _ _ (updpi_at _ _ _ _ _)).
    set (t := at_pipe _ _ _ _).
    assert (Hrun : running (k_sync t) = Some p) by (apply (running_at p s Hq); cbn; by rewrite !touch_idem).
    assert (Hwf : sync_wf (k_sync t)) by (apply (sync_wf_at p s Hq); cbn; by rewrite !touch_idem).
    assert (Hf : lock_free (LProc p) (k_sync t)) by (apply (proc_free_at p s Hq); cbn; by rewrite !touch_idem).
    unfold mbind at 1, M_bind at 1. rewrite (sleep_null_lock_faults p) by done. by eexists.
Qed.
