(* ===== verification/File.v ===== *)
(** * Open files ([file.c]) and the allocation of pipes

    A file pointer is an index into [ftable]; a process's descriptors point
    into it. *)

From stdpp Require Import base gmap strings numbers list.
From S2P Require Import Prelude State Spinlock Strings Printf Bytes Memory Kalloc Vm Proc Sleeplock Quiet Bio.
From S2P Require Import Log Uio Fs Devices Pipe.

(** What the padding bytes of a structure on the kernel stack hold. *)
Class Stack : Type := { padding : kst -> nat -> list Z }.

Definition getf (f : nat) : KM file := fun s => deref (fs_files (k_fs s) !! f) s.
Definition updf (f : nat) (g : file -> file) : KM unit :=
  _ ← getf f; modify (upd_fs (fun x => set_fs_files (alter g f (fs_files x)) x)).

(** ** The code *)

Definition fileinit : KM unit := initlock LFtable "ftable".

Definition filealloc : KM (option nat) :=
  acquire LFtable;;
  r ← for_find (seq 0 NFILE) (fun f =>
    x ← getf f;
    if f_ref x =? 0 then
      updf f (set_f_ref 1);;
      release LFtable;;
      mret (Some f)
    else mret None);
  match r with
  | Some f => mret (Some f)
  | None => release LFtable;; mret None
  end.

Definition filedup (f : nat) : KM nat :=
  acquire LFtable;;
  x ← getf f;
  if f_ref x <? 1 then panic "filedup" else
  updf f (set_f_ref (f_ref x + 1));;
  release LFtable;;
  mret f.

Section file.
Context {W : World} {D : Disk} {T : Patience} {M : Mmio} {K : Stack}.

Definition fileclose (f : nat) : KM unit :=
  acquire LFtable;;
  x ← getf f;
  if f_ref x <? 1 then panic "fileclose" else
  updf f (set_f_ref (f_ref x - 1));;
  ff ← getf f;
  if 0 <? f_ref ff then release LFtable else
  updf f (set_f_ref 0);;
  updf f (set_f_type FD_NONE);;
  release LFtable;;
  match f_type ff with
  | FD_PIPE => pipeclose (f_pipe ff) (f_writable ff)
  | FD_INODE | FD_DEVICE =>
      begin_op;;
      ip ← deref (f_ip ff);
      iput ip;;
      end_op
  | FD_NONE => mret tt
  end.

(** The bytes of [struct stat]: four are padding before [size]. *)
Definition stat_bytes (pad : list Z) (st : stat) : list Z :=
  le_bytes 4 (st_dev st) ++ le_bytes 4 (st_ino st) ++ le_bytes 2 (st_type st) ++
  le_bytes 2 (st_nlink st) ++ pad ++ le_bytes 8 (st_size st).

Definition filestat (f : nat) (addr : Z) : KM Z :=
  me ← myproc;
  x ← getf f;
  match f_type x with
  | FD_INODE | FD_DEVICE =>
      ilock (f_ip x);;
      ip ← deref (f_ip x);
      st ← stati ip;
      iunlock (f_ip x);;
      i ← deref me;
      p ← getp i;
      pad ← gets (fun s => padding s 4);
      r ← copyout (p_pagetable p) addr (stat_bytes pad st);
      if r <? 0 then mret (-1) else mret 0
  | _ => mret (-1)
  end.

(** [devsw[major]], for a major number the device switch has. *)
Definition devsw_at (major : Z) : KM (option devfun) :=
  if (major <? 0) || (NDEV <=? major) then mret None else
  l ← getdev d_devsw;
  deref (l !! Z.to_nat major).

Definition fileread (f : nat) (addr n : Z) : KM Z :=
  x ← getf f;
  if negb (f_readable x) then mret (-1) else
  match f_type x with
  | FD_PIPE => piperead (f_pipe x) addr n
  | FD_DEVICE =>
      d ← devsw_at (f_major x);
      match d with
      | None => mret (-1)
      | Some DevConsole => consoleread (ToUser addr) n
      end
  | FD_INODE =>
      ilock (f_ip x);;
      ip ← deref (f_ip x);
      x ← getf f;
      r ← readi ip (ToUser addr) (f_off x) (wrap32 n);
      when (0 <? r.1) (updf f (fun x => set_f_off (wrap32 (f_off x + r.1)) x));;
      iunlock (f_ip x);;
      mret r.1
  | FD_NONE => panic "fileread"
  end.

(** The most bytes [filewrite] writes in one transaction. *)
Definition max_write : Z := (MAXOPBLOCKS - 1 - 1 - 2) / 2 * Z.of_nat BSIZE.

(** [i] when the loop is left; every turn writes at least one byte. *)
Fixpoint filewrite_loop (fuel : nat) (f : nat) (addr n i : Z) : KM Z :=
  if negb (i <? n) then mret i else
  match fuel with
  | O => hang
  | S fuel =>
      let n1 := if max_write <? n - i then max_write else n - i in
      begin_op;;
      x ← getf f;
      ilock (f_ip x);;
      ip ← deref (f_ip x);
      x ← getf f;
      r ← writei ip (FromUser (wrap64 (addr + i))) (f_off x) (wrap32 n1);
      when (0 <? r) (updf f (fun x => set_f_off (wrap32 (f_off x + r)) x));;
      iunlock (f_ip x);;
      end_op;;
      if negb (r =? n1) then mret i else filewrite_loop fuel f addr n (i + r)
  end.

Definition filewrite (f : nat) (addr n : Z) : KM Z :=
  x ← getf f;
  if negb (f_writable x) then mret (-1) else
  match f_type x with
  | FD_PIPE => pipewrite (f_pipe x) addr n
  | FD_DEVICE =>
      d ← devsw_at (f_major x);
      match d with
      | None => mret (-1)
      | Some DevConsole => consolewrite (FromUser addr) n
      end
  | FD_INODE =>
      i ← filewrite_loop (Z.to_nat n) f addr n 0;
      mret (if i =? n then n else -1)
  | FD_NONE => panic "filewrite"
  end.

(** [pipealloc] of [pipe.c]: the two ends, or [None] for -1. *)
Definition pipealloc : KM (option (nat * nat)) :=
  f0 ← filealloc;
  match f0 with
  | None => mret None
  | Some f0 =>
      f1 ← filealloc;
      match f1 with
      | None => fileclose f0;; mret None
      | Some f1 =>
          pi ← kalloc;
          if pi =? 0 then fileclose f0;; fileclose f1;; mret None else
          data ← read_mem (pi + pipe_data_off) PIPESIZE;
          modify (fun s => set_k_pipes (<[pi := mkpipe 0 0 0 data 0 0 true true]> (k_pipes s)) s);;
          updf f0 (set_f_type FD_PIPE);;
          updf f0 (set_f_readable true);;
          updf f0 (set_f_writable false);;
          updf f0 (set_f_pipe pi);;
          updf f1 (set_f_type FD_PIPE);;
          updf f1 (set_f_readable false);;
          updf f1 (set_f_writable true);;
          updf f1 (set_f_pipe pi);;
          mret (Some (f0, f1))
      end
  end.

End file.
