(* ===== verification/Process.v ===== *)
(** * Creation and end of processes ([proc.c])

    [allocproc], [freeproc], [kfork], [kexit], [kwait] and what they call, the
    kernel page table of [vm.c] with the kernel stacks, and the listings
    [procdump] and [kps]. *)

From stdpp Require Import base gmap strings numbers list.
From S2P Require Import Prelude State Spinlock Strings Printf Bytes Memory Kalloc Vm Proc Sleeplock Quiet Bio.
From S2P Require Import Log Uio Fs Devices Pipe File.

(** The addresses the linker gives to symbols of the kernel image. *)
Class Image : Type := {
  sym_trampoline : Z;
  sym_uservec : Z;
  sym_userret : Z;
  sym_kernelvec : Z;
  sym_usertrap : Z;
  sym_forkret : Z;
  sym_etext : Z
}.

Definition MAKE_SATP (pagetable : Z) : Z := Z.lor (Z.shiftl 8 60) (Z.shiftr pagetable 12).

(** Offsets in [struct trapframe] ([proc.h]) and its size. *)
Definition tf_kernel_satp : Z := 0.
Definition tf_kernel_sp : Z := 8.
Definition tf_kernel_trap : Z := 16.
Definition tf_epc : Z := 24.
Definition tf_kernel_hartid : Z := 32.
Definition tf_sp : Z := 48.
Definition tf_a (n : Z) : Z := 112 + 8 * n.
Definition trapframe_size : nat := 288.

(** [p->trapframe->f] and its assignment. *)
Definition tf_get (i : nat) (off : Z) : KM Z :=
  p ← getp i;
  if p_trapframe p =? 0 then fault else rd64 (p_trapframe p + off).
Definition tf_set (i : nat) (off v : Z) : KM unit :=
  p ← getp i;
  if p_trapframe p =? 0 then fault else wr64 (p_trapframe p + off) v.

(** [safestrcpy] into a character array: the NUL copied by the loop, if it is
    reached, is followed by the one stored at the end. *)
Definition safestrcpy_arr (dst src : list Z) (n : nat) : list Z :=
  let s := cstr (n - 1) (arr src) in
  splice 0 (s ++ if (length s <? n - 1)%nat then [0; 0] else [0]) dst.

(** The process that calls. *)
Definition curproc : KM nat := me ← myproc; deref me.

(** ** The kernel page table *)

Section kvm.
Context {I : Image}.

Definition proc_mapstacks (kpgtbl : Z) : KM unit :=
  for_each (seq 0 NPROC) (fun i =>
    pa ← kalloc;
    if pa =? 0 then panic "kalloc" else
    kvmmap kpgtbl (KSTACK i) pa PGSIZE (Z.lor PTE_R PTE_W)).

Definition kvmmake : KM Z :=
  kpgtbl ← kalloc;
  if kpgtbl =? 0 then fault else
  fill_page kpgtbl 0;;
  kvmmap kpgtbl UART0 UART0 PGSIZE (Z.lor PTE_R PTE_W);;
  kvmmap kpgtbl VIRTIO0 VIRTIO0 PGSIZE (Z.lor PTE_R PTE_W);;
  kvmmap kpgtbl PLIC PLIC 0x4000000 (Z.lor PTE_R PTE_W);;
  kvmmap kpgtbl KERNBASE KERNBASE (sym_etext - KERNBASE) (Z.lor PTE_R PTE_X);;
  kvmmap kpgtbl sym_etext sym_etext (PHYSTOP - sym_etext) (Z.lor PTE_R PTE_W);;
  kvmmap kpgtbl TRAMPOLINE sym_trampoline PGSIZE (Z.lor PTE_R PTE_X);;
  proc_mapstacks kpgtbl;;
  mret kpgtbl.

Definition kvminit : KM unit := pt ← kvmmake; modify (set_k_kpt pt).

Definition kvminithart : KM unit :=
  modify (fun s => set_k_csr (set_r_satp (MAKE_SATP (k_kpt s)) (k_csr s)) s).

(** ** Page tables and table entries of processes *)

Definition proc_pagetable (p : nat) : KM Z :=
  pagetable ← uvmcreate;
  if pagetable =? 0 then mret 0 else
  r ← mappages pagetable TRAMPOLINE PGSIZE sym_trampoline (Z.lor PTE_R PTE_X);
  if r <? 0 then uvmfree pagetable 0;; mret 0 else
  x ← getp p;
  r ← mappages pagetable TRAPFRAME PGSIZE (p_trapframe x) (Z.lor PTE_R PTE_W);
  if r <? 0 then
    uvmunmap pagetable TRAMPOLINE 1 false;;
    uvmfree pagetable 0;;
    mret 0
  else mret pagetable.

Definition proc_freepagetable (pagetable sz : Z) : KM unit :=
  uvmunmap pagetable TRAMPOLINE 1 false;;
  uvmunmap pagetable TRAPFRAME 1 false;;
  uvmfree pagetable sz.

(** The fields [freeproc] resets once the memory is freed. *)
Definition reset_proc (p : proc) : proc :=
  mkproc UNUSED None false 0 0 None (p_kstack p) 0 0 0 (p_context p) (p_ofile p) (p_cwd p)
    (<[0%nat := 0]> (p_name p)) (p_waiting_tick p) 0 0 0 None 0 false (replicate NRES false) (-1).

Definition freeproc (p : nat) : KM unit :=
  x ← getp p;
  when (negb (p_trapframe x =? 0)) (kfree (p_trapframe x));;
  updp p (set_p_trapframe 0);;
  x ← getp p;
  when (negb (p_pagetable x =? 0)) (proc_freepagetable (p_pagetable x) (p_sz x));;
  updp p reset_proc.

(** The fields [allocproc] sets for a process with identifier [pid]. *)
Definition init_proc (pid : Z) (p : proc) : proc :=
  mkproc USED (p_chan p) (p_killed p) (p_xstate p) pid (p_parent p) (p_kstack p) (p_sz p) (p_pagetable p)
    (p_trapframe p) (p_context p) (p_ofile p) (p_cwd p) (p_name p) 0 DEFAULT_ENERGY_BUDGET 0 0 None 0 false
    (replicate NRES false) (-1).

(** The search of [allocproc]: an UNUSED entry, its lock held. *)
Definition find_unused_proc : KM (option nat) :=
  for_find (seq 0 NPROC) (fun i =>
    acquire (LProc i);;
    p ← getp i;
    if bool_decide (p_state p = UNUSED) then mret (Some i)
    else release (LProc i);; mret None).

Definition allocproc : KM (option nat) :=
  r ← find_unused_proc;
  match r with
  | None => mret None
  | Some p =>
      pid ← allocpid;
      updp p (init_proc pid);;
      tf ← kalloc;
      updp p (set_p_trapframe tf);;
      if tf =? 0 then freeproc p;; release (LProc p);; mret None else
      pt ← proc_pagetable p;
      updp p (set_p_pagetable pt);;
      if pt =? 0 then freeproc p;; release (LProc p);; mret None else
      updp p (fun q => set_p_context (mkcontext sym_forkret (p_kstack q + PGSIZE) (replicate 12 0)) q);;
      mret (Some p)
  end.

Definition growproc (n : Z) : KM Z :=
  p ← curproc;
  x ← getp p;
  let sz := p_sz x in
  if 0 <? n then
    if TRAPFRAME <? wrap64 (sz + n) then mret (-1) else
    sz' ← uvmalloc (p_pagetable x) sz (wrap64 (sz + n)) PTE_W;
    if sz' =? 0 then mret (-1) else
    updp p (set_p_sz sz');;
    mret 0
  else if n <? 0 then
    sz' ← uvmdealloc (p_pagetable x) sz (wrap64 (sz + n));
    updp p (set_p_sz sz');;
    mret 0
  else updp p (set_p_sz sz);; mret 0.

(** [*(np->trapframe) = *(p->trapframe)] *)
Definition copy_trapframe (np p : nat) : KM unit :=
  x ← getp np;
  y ← getp p;
  if (p_trapframe x =? 0) || (p_trapframe y =? 0) then fault else
  modify (fun s => set_k_mem (memmove (k_mem s) (p_trapframe x) (p_trapframe y) trapframe_size) s).

(** [if(p->ofile[i]) np->ofile[i] = filedup(p->ofile[i])] for every [i]. *)
Definition dup_files (np p : nat) : KM unit :=
  for_each (seq 0 NOFILE) (fun i =>
    x ← getp p;
    o ← deref (p_ofile x !! i);
    match o with
    | None => mret tt
    | Some f =>
        f ← filedup f;
        updp np (fun q => set_p_ofile (<[i := Some f]> (p_ofile q)) q)
    end).

End kvm.

Section process.
Context {W : World} {D : Disk} {T : Patience} {M : Mmio} {K : Stack} {I : Image}.

Definition userinit : KM unit :=
  r ← allocproc;
  modify (set_k_initproc r);;
  p ← deref r;
  cwd ← namei (bytes_of "/");
  updp p (set_p_cwd cwd);;
  updp p (set_p_state RUNNABLE);;
  release (LProc p).

Definition kfork : KM Z :=
  p ← curproc;
  r ← allocproc;
  match r with
  | None => mret (-1)
  | Some np =>
      x ← getp p;
      y ← getp np;
      r ← uvmcopy (p_pagetable x) (p_pagetable y) (p_sz x);
      if r <? 0 then freeproc np;; release (LProc np);; mret (-1) else
      x ← getp p;
      updp np (set_p_sz (p_sz x));;
      copy_trapframe np p;;
      tf_set np (tf_a 0) 0;;
      dup_files np p;;
      x ← getp p;
      ip ← deref (p_cwd x);
      ip ← idup ip;
      updp np (set_p_cwd (Some ip));;
      updp np (fun q => set_p_name (safestrcpy_arr (p_name q) (p_name x) 16) q);;
      y ← getp np;
      let pid := p_pid y in
      release (LProc np);;
      acquire LWait;;
      updp np (set_p_parent (Some p));;
      release LWait;;
      acquire (LProc np);;
      updp np (set_p_state RUNNABLE);;
      release (LProc np);;
      mret pid
  end.

(** [kexit] up to the switch from which it never comes back. *)
Definition kexit_prepare (status : Z) : KM unit :=
  p ← curproc;
  init ← gets k_initproc;
  if bool_decide (Some p = init) then panic "init exiting" else
  for_each (seq 0 NOFILE) (fun fd =>
    x ← getp p;
    o ← deref (p_ofile x !! fd);
    match o with
    | None => mret tt
    | Some f => fileclose f;; updp p (fun q => set_p_ofile (<[fd := None]> (p_ofile q)) q)
    end);;
  begin_op;;
  x ← getp p;
  ip ← deref (p_cwd x);
  iput ip;;
  end_op;;
  updp p (set_p_cwd None);;
  acquire LWait;;
  reparent p;;
  x ← getp p;
  wakeup (ChProc <$> p_parent x);;
  acquire (LProc p);;
  updp p (set_p_xstate status);;
  updp p (set_p_state ZOMBIE);;
  release LWait.

Definition kexit {A} (status : Z) : KM A :=
  kexit_prepare status;;
  sched;;
  panic "zombie exit".

(** What a pass of [kwait] over the table finds: a result to return (the
    locks released), or whether there are children. *)
Definition reap (p : nat) (addr : Z) (pp : nat) (havekids : bool) : KM (Z + bool) :=
  x ← getp pp;
  if negb (bool_decide (p_parent x = Some p)) then mret (inr havekids) else
  acquire (LProc pp);;
  x ← getp pp;
  if bool_decide (p_state x = ZOMBIE) then
    printf "schedstats: pid=%d waiting_tick=%d
" [PInt (p_pid x); PInt (p_waiting_tick x)];;
    r ← (if addr =? 0 then mret 0
         else me ← getp p; copyout (p_pagetable me) addr (le_bytes 4 (p_xstate x)));
    if r <? 0 then
      release (LProc pp);;
      release LWait;;
      mret (inl (-1))
    else
      freeproc pp;;
      release (LProc pp);;
      release LWait;;
      mret (inl (p_pid x))
  else release (LProc pp);; mret (inr true).

Fixpoint wait_scan (l : list nat) (p : nat) (addr : Z) (havekids : bool) : KM (Z + bool) :=
  match l with
  | [] => mret (inr havekids)
  | pp :: l =>
      r ← reap p addr pp havekids;
      match r with
      | inl v => mret (inl v)
      | inr havekids => wait_scan l p addr havekids
      end
  end.

Fixpoint kwait_loop (fuel : nat) (p : nat) (addr : Z) : KM Z :=
  r ← wait_scan (seq 0 NPROC) p addr false;
  match r with
  | inl v => mret v
  | inr havekids =>
      k ← (if (havekids : bool) then killed p else mret true);
      if (k : bool) then release LWait;; mret (-1) else
      match fuel with
      | O => hang
      | S fuel => sleep (Some (ChProc p)) (Some LWait);; kwait_loop fuel p addr
      end
  end.

Definition kwait (addr : Z) : KM Z :=
  p ← curproc;
  acquire LWait;;
  kwait_loop patience p addr.

End process.

(** ** Listings *)

(** [states[p->state]] of [kps]. *)
Definition STATE_name (st : procstate) : string :=
  match st with
  | UNUSED => "UNUSED" | USED => "USED" | SLEEPING => "SLEEPING"
  | RUNNABLE => "RUNNABLE" | RUNNING => "RUNNING" | ZOMBIE => "ZOMBIE"
  end.

Definition kps (arguments : list Z) : KM Z :=
  (if strncmp (arr arguments) (lit "-o") 4 =? 0 then
     for_each (seq 0 NPROC) (fun i =>
       p ← getp i;
       if strncmp (arr (p_name p)) (arr []) 4 =? 0 then mret tt
       else printf "%s   " [name_str p]);;
     printf "
" []
   else if strncmp (arr arguments) (lit "-l") 4 =? 0 then
     printf "%s   %s       %s
" [str "PID"; str "STATE"; str "NAME"];;
     printf "-------------------------
" [];;
     for_each (seq 0 NPROC) (fun i =>
       p ← getp i;
       if bool_decide (p_state p = UNUSED) then mret tt
       else printf "%d     %s    %s
" [PInt (p_pid p); str (STATE_name (p_state p)); name_str p])
   else printf "Usage: ps [-o | -l]
" []);;
  mret 0.
