(* ===== verification/Exec.v ===== *)
(** * Running a program ([exec.c])

    [kexec] builds a new address space from an ELF file and puts the arguments
    on its stack. A [goto bad] is a [None] result of the part it leaves. *)

From stdpp Require Import base gmap strings numbers list.
From S2P Require Import Prelude State Spinlock Strings Printf Bytes Memory Kalloc Vm Proc Sleeplock Quiet Bio.
From S2P Require Import Log Uio Fs Devices Pipe File Process.

(** ** ELF headers ([elf.h]) *)

Definition ELF_MAGIC : Z := 0x464C457F.
Definition ELF_PROG_LOAD : Z := 1.
Definition elfhdr_size : nat := 64.
Definition proghdr_size : nat := 56.

Definition elf_magic (l : list Z) : Z := get32 0 l.
Definition elf_entry (l : list Z) : Z := get_le 8 24 l.
Definition elf_phoff (l : list Z) : Z := get_le 8 32 l.
Definition elf_phnum (l : list Z) : Z := get16 56 l.

Record proghdr : Type := mkproghdr {
  ph_type : Z; ph_flags : Z; ph_off : Z; ph_vaddr : Z; ph_paddr : Z; ph_filesz : Z; ph_memsz : Z; ph_align : Z
}.

Definition dec_proghdr (l : list Z) : proghdr :=
  mkproghdr (get32 0 l) (get32 4 l) (get_le 8 8 l) (get_le 8 16 l) (get_le 8 24 l) (get_le 8 32 l)
    (get_le 8 40 l) (get_le 8 48 l).

Definition flags2perm (flags : Z) : Z :=
  let perm := if has flags 0x1 then PTE_X else 0 in
  if has flags 0x2 then Z.lor perm PTE_W else perm.

(** The checks of a loadable segment. *)
Definition segment_ok (ph : proghdr) : bool :=
  negb (ph_memsz ph <? ph_filesz ph) &&
  negb (wrap64 (ph_vaddr ph + ph_memsz ph) <? ph_vaddr ph) &&
  (ph_vaddr ph mod PGSIZE =? 0).

(** [last] moves behind every slash met. *)
Fixpoint last_elem (path last : list Z) : list Z :=
  match path with
  | [] => last
  | c :: path => last_elem path (if c =? slash then path else last)
  end.

(** The part of the path after its last slash. *)
Definition program_name (path : list Z) : list Z := last_elem path path.

Section exec.
Context {W : World} {D : Disk} {T : Patience} {M : Mmio} {K : Stack} {I : Image}.

Fixpoint loadseg_loop (fuel : nat) (pagetable va : Z) (ip : nat) (offset sz i : Z) : KM Z :=
  if negb (i <? sz) then mret 0 else
  match fuel with
  | O => hang
  | S fuel =>
      pa ← walkaddr pagetable (wrap64 (va + i));
      if pa =? 0 then panic "loadseg: address should exist" else
      let n := if sz - i <? PGSIZE then sz - i else PGSIZE in
      r ← readi ip (ToPhys pa) (wrap32 (offset + i)) n;
      if negb (wrap32 r.1 =? n) then mret (-1) else
      loadseg_loop fuel pagetable va ip offset sz (wrap32 (i + PGSIZE))
  end.

Definition loadseg (pagetable va : Z) (ip : nat) (offset sz : Z) : KM Z :=
  loadseg_loop (Z.to_nat (sz / PGSIZE + 1)) pagetable va ip offset sz 0.

(** The program headers: the size reached, and whether all went well. *)
Fixpoint load_segments (fuel : nat) (pagetable : Z) (ip : nat) (off sz : Z) : KM (Z * bool) :=
  match fuel with
  | O => mret (sz, true)
  | S fuel =>
      r ← readi ip ToLocal (wrap32 off) (Z.of_nat proghdr_size);
      if negb (r.1 =? Z.of_nat proghdr_size) then mret (sz, false) else
      let ph := dec_proghdr r.2 in
      let next := to_int (off + Z.of_nat proghdr_size) in
      if negb (ph_type ph =? ELF_PROG_LOAD) then load_segments fuel pagetable ip next sz else
      if negb (segment_ok ph) then mret (sz, false) else
      sz1 ← uvmalloc pagetable sz (wrap64 (ph_vaddr ph + ph_memsz ph)) (flags2perm (ph_flags ph));
      if sz1 =? 0 then mret (sz, false) else
      r ← loadseg pagetable (ph_vaddr ph) ip (wrap32 (ph_off ph)) (wrap32 (ph_filesz ph));
      if r <? 0 then mret (sz1, false) else
      load_segments fuel pagetable ip next sz1
  end.

(** The argument strings: the stack pointer and [ustack] so far, or [None].
    [argv] lists the strings up to the null pointer. *)
Fixpoint push_args (argv : list (list Z)) (argc : nat) (pagetable sp stackbase : Z) (ustack : list Z) :
    KM (option (Z * list Z)) :=
  match argv with
  | [] => mret (Some (sp, ustack))
  | arg :: argv =>
      if (MAXARG <=? argc)%nat then mret None else
      let sp := wrap64 (sp - (Z.of_nat (length arg) + 1)) in
      let sp := sp - sp mod 16 in
      if sp <? stackbase then mret None else
      r ← copyout pagetable sp (arg ++ [0]);
      if r <? 0 then mret None else
      push_args argv (S argc) pagetable sp stackbase (ustack ++ [sp])
  end.

(** From the stack on: the new size, the stack pointer and [argc], or the
    size to free. *)
Definition build_stack (argv : list (list Z)) (pagetable sz : Z) : KM (Z + Z * Z) :=
  let sz := PGROUNDUP sz in
  sz1 ← uvmalloc pagetable sz (wrap64 (sz + (USERSTACK + 1) * PGSIZE)) PTE_W;
  if sz1 =? 0 then mret (inl sz) else
  let sz := sz1 in
  uvmclear pagetable (wrap64 (sz - (USERSTACK + 1) * PGSIZE));;
  let sp := sz in
  let stackbase := wrap64 (sp - USERSTACK * PGSIZE) in
  r ← push_args argv 0 pagetable sp stackbase [];
  match r with
  | None => mret (inl sz)
  | Some (sp, ustack) =>
      if (MAXARG <=? length ustack)%nat then fault else
      let argc := Z.of_nat (length ustack) in
      let sp := wrap64 (sp - (argc + 1) * 8) in
      let sp := sp - sp mod 16 in
      if sp <? stackbase then mret (inl sz) else
      r ← copyout pagetable sp (mjoin (le_bytes 8 <$> (ustack ++ [0])));
      if r <? 0 then mret (inl sz) else mret (inr (sz, sp))
  end.

(** [bad:] *)
Definition exec_bad (pagetable sz : Z) (ip : option nat) : KM Z :=
  when (negb (pagetable =? 0)) (proc_freepagetable pagetable sz);;
  match ip with
  | Some ip => iunlockput ip;; end_op
  | None => mret tt
  end;;
  mret (-1).

Definition kexec (path : list Z) (argv : list (list Z)) : KM Z :=
  p ← curproc;
  begin_op;;
  ip ← namei path;
  match ip with
  | None => end_op;; mret (-1)
  | Some ip =>
      ilock (Some ip);;
      elf ← readi ip ToLocal 0 (Z.of_nat elfhdr_size);
      if negb (elf.1 =? Z.of_nat elfhdr_size) then exec_bad 0 0 (Some ip) else
      if negb (elf_magic elf.2 =? ELF_MAGIC) then exec_bad 0 0 (Some ip) else
      pagetable ← proc_pagetable p;
      if pagetable =? 0 then exec_bad 0 0 (Some ip) else
      r ← load_segments (Z.to_nat (elf_phnum elf.2)) pagetable ip (to_int (elf_phoff elf.2)) 0;
      if negb r.2 then exec_bad pagetable r.1 (Some ip) else
      iunlockput ip;;
      end_op;;
      p ← curproc;
      x ← getp p;
      let oldsz := p_sz x in
      r ← build_stack argv pagetable r.1;
      match r with
      | inl sz => exec_bad pagetable sz None
      | inr (sz, sp) =>
          tf_set p (tf_a 1) sp;;
          updp p (fun q => set_p_name (safestrcpy_arr (p_name q) (program_name path) 16) q);;
          x ← getp p;
          let oldpagetable := p_pagetable x in
          updp p (set_p_pagetable pagetable);;
          updp p (set_p_sz sz);;
          tf_set p tf_epc (elf_entry elf.2);;
          tf_set p tf_sp sp;;
          proc_freepagetable oldpagetable oldsz;;
          mret (Z.of_nat (length argv))
      end
  end.

End exec.
