(* ===== verification/Sysproc.v ===== *)
(** * System calls on processes ([syscall.c], [sysproc.c])

    Fetching arguments from the trap frame and from user memory, and the
    system calls of [sysproc.c]. A result is the [uint64] put in [a0]. *)

From stdpp Require Import base gmap strings numbers list.
From S2P Require Import Prelude State Spinlock Strings Printf Bytes Memory Kalloc Vm Proc Sched Deadlock.
From S2P Require Import Sleeplock Quiet Bio Log Uio Fs Devices Pipe File Process.

(** ** Arguments *)

(** The [uint64] at a user address, or [None] for -1. *)
Definition fetchaddr (addr : Z) : KM (option Z) :=
  i ← curproc;
  p ← getp i;
  if (p_sz p <=? addr) || (p_sz p <? wrap64 (addr + 8)) then mret None else
  r ← copyin (p_pagetable p) addr 8;
  if negb (r.1 =? 0) then mret None else mret (Some (le_val r.2)).

(** The result, and the characters stored in [buf] before the NUL. *)
Definition fetchstr (addr : Z) (max : nat) : KM (Z * list Z) :=
  i ← curproc;
  p ← getp i;
  r ← copyinstr (p_pagetable p) addr max;
  if r.1 <? 0 then mret (-1, r.2) else mret (Z.of_nat (length r.2), r.2).

Definition argraw (n : nat) : KM Z :=
  i ← curproc;
  if (n <=? 5)%nat then tf_get i (tf_a (Z.of_nat n)) else panic "argraw".

Definition argint (n : nat) : KM Z := v ← argraw n; mret (to_int v).
Definition argaddr (n : nat) : KM Z := argraw n.

Definition argstr (n : nat) (max : nat) : KM (Z * list Z) :=
  addr ← argaddr n;
  fetchstr addr max.

(** -1 as a [uint64]. *)
Definition minus1 : Z := 2 ^ 64 - 1.

(** ** The system calls *)

Definition SBRK_EAGER : Z := 1.

Section sysproc.
Context {W : World} {D : Disk} {T : Patience} {M : Mmio} {K : Stack} {I : Image}.

(** [demo_locks[i]] is the sleep-lock [SLDemo i]. *)
Definition ensure_demo_locks_inited : KM unit :=
  b ← gets k_demo_inited;
  if (b : bool) then mret tt else
  initsleeplock (SLDemo 0) "demo_lock_0";;
  initsleeplock (SLDemo 1) "demo_lock_1";;
  modify (set_k_demo_inited true).

(** The buffer has four bytes; more is a store outside of it. *)
Definition sys_kps : KM Z :=
  r ← argstr 0 128;
  if r.1 <? 0 then (if (4 <? length r.2)%nat then fault else mret minus1) else
  if (4 <? length r.2 + 1)%nat then fault else
  v ← kps r.2;
  mret (wrap64 v).

Definition sys_exit : KM Z := n ← argint 0; kexit n.

Definition sys_getpid : KM Z := i ← curproc; p ← getp i; mret (wrap64 (p_pid p)).

Definition sys_fork : KM Z := r ← kfork; mret (wrap64 r).

Definition sys_wait : KM Z := p ← argaddr 0; r ← kwait p; mret (wrap64 r).

Definition sys_sbrk : KM Z :=
  n ← argint 0;
  t ← argint 1;
  i ← curproc;
  p ← getp i;
  let addr := p_sz p in
  if (t =? SBRK_EAGER) || (n <? 0) then
    r ← growproc n;
    if r <? 0 then mret minus1 else mret addr
  else
  if wrap64 (addr + n) <? addr then mret minus1 else
  if TRAPFRAME <? wrap64 (addr + n) then mret minus1 else
  i ← curproc;
  updp i (fun p => set_p_sz (wrap64 (p_sz p + n)) p);;
  mret addr.

Fixpoint pause_loop (fuel : nat) (ticks0 n : Z) : KM Z :=
  ticks ← gets k_ticks;
  if negb (wrap32 (ticks - ticks0) <? n) then release LTicks;; mret 0 else
  i ← curproc;
  k ← killed i;
  if (k : bool) then release LTicks;; mret minus1 else
  match fuel with
  | O => hang
  | S fuel => sleep (Some ChTicks) (Some LTicks);; pause_loop fuel ticks0 n
  end.

Definition sys_pause : KM Z :=
  n ← argint 0;
  let n := if n <? 0 then 0 else n in
  acquire LTicks;;
  ticks0 ← gets k_ticks;
  pause_loop patience ticks0 n.

Definition sys_kill : KM Z := pid ← argint 0; r ← kkill pid; mret (wrap64 r).

Definition sys_uptime : KM Z :=
  acquire LTicks;;
  xticks ← gets k_ticks;
  release LTicks;;
  mret xticks.

Definition sys_getenergy : KM Z :=
  i ← curproc;
  addr ← argaddr 0;
  if addr =? 0 then mret minus1 else
  acquire (LProc i);;
  p ← getp i;
  release (LProc i);;
  q ← getp i;
  r ← copyout (p_pagetable q) addr
        (le_bytes 8 (p_energy_budget p) ++ le_bytes 8 (p_energy_consumed p) ++ le_bytes 8 (p_pid p));
  if r <? 0 then mret minus1 else mret 0.

Definition sys_dlockacq : KM Z :=
  lockid ← argint 0;
  if (lockid <? 0) || (1 <? lockid) then mret minus1 else
  ensure_demo_locks_inited;;
  acquiresleep patience (SLDemo (Z.to_nat lockid));;
  mret 0.

Definition sys_dlockrel : KM Z :=
  lockid ← argint 0;
  if (lockid <? 0) || (1 <? lockid) then mret minus1 else
  ensure_demo_locks_inited;;
  h ← holdingsleep (SLDemo (Z.to_nat lockid));
  if negb h then mret minus1 else
  releasesleep (SLDemo (Z.to_nat lockid));;
  mret 0.

Definition sys_check_deadlock : KM Z := r ← check_deadlock; mret (wrap64 r).

End sysproc.
