(* ===== verification/UserView.v ===== *)
(** * Memory as a process sees it

    A process may have memory that no page backs yet: [sbrk] can leave the
    allocation to the first access, which faults and has [vmfault] map a zero
    page. [user_load] is such an access, and what it gives is what the process
    sees: the contents of the pages it had and zero in the others, whether
    they were allocated at once or are when they are touched. *)

From stdpp Require Import base gmap strings numbers list.
From S2P Require Import Prelude State Spinlock Strings Memory Kalloc Vm PageTable UserSpace UserAlloc Proc Process Sysproc.

(** A load by the process: the byte the page table leads to; without one the
    page fault reaches [usertrap], which calls [vmfault] and has the load tried
    again, or kills the process (no result) when it fails. *)
Definition user_load (root va : Z) : KM (option Z) :=
  m ← gets k_mem;
  match umem m root va with
  | Some b => mret (Some b)
  | None =>
      r ← vmfault root va true;
      if r =? 0 then mret None else
      m ← gets k_mem; mret (umem m root va)
  end.

(** A page that was mapped still is, with the same byte at [va]; a page that was
    not is still missing, or has come with a zero. *)
Definition kept (m m' : mem) (root va : Z) : Prop :=
  match leaf m root (PGROUNDDOWN va) with
  | Some v => leaf m' root (PGROUNDDOWN va) = Some v /\ umem m' root va = umem m root va
  | None => leaf m' root (PGROUNDDOWN va) = None \/ umem m' root va = Some 0
  end.

Lemma kept_refl m root va : kept m m root va.
Proof. unfold kept. destruct (leaf m root (PGROUNDDOWN va)); [done|by left]. Qed.

(** The address space of a process of size [sz]: its pages are its own, and
    between its end and the trap frame nothing is mapped. *)
Record space (s : kst) (l : list Z) (root : Z) (N : tree) (sz : Z) : Prop := {
  sp_inv : vm_inv s l root N;
  sp_own : owned (k_end s) l (k_mem s) root N 0 TRAPFRAME;
  sp_above : forall va, vpage va -> PGROUNDUP sz <= va < TRAPFRAME -> leaf (k_mem s) root va = None;
  sp_size : 0 <= sz <= TRAPFRAME
}.

Lemma TRAPFRAME_range : TRAPFRAME = 2 ^ 38 - 8192.
Proof. by vm_compute. Qed.

Lemma kept_ext m m' root va :
  leaf m' root (PGROUNDDOWN va) = leaf m root (PGROUNDDOWN va) ->
  (forall v, leaf m root (PGROUNDDOWN va) = Some v -> m' (PTE2PA v + (va - PGROUNDDOWN va)) = m (PTE2PA v + (va - PGROUNDDOWN va))) ->
  kept m m' root va.
Proof.
  intros Hl Hm. unfold kept, umem, user_pa. rewrite Hl. destruct (leaf m root (PGROUNDDOWN va)) as [v|]; [|by left]. split; [done|]. cbn.
  destruct (has v PTE_U); [|done]. cbn. f_equal. by apply Hm.
Qed.

(** Adding pages that were not mapped, as [uvmalloc] and [vmfault] do. *)
Section enlarge.
Context (s0 : kst) (l0 : list Z) (root : Z) (N0 : tree) (base newsz top xperm r : Z) (s' : kst) (l' : list Z) (N' : tree).
Context (I0 : vm_inv s0 l0 root N0) (Hown : owned (k_end s0) l0 (k_mem s0) root N0 0 top).
Context (Hblank : forall va, vpage va -> base <= va < newsz -> leaf (k_mem s0) root va = None).
Context (Hperm : 0 <= xperm < 2 ^ 10) (Htop : 0 <= base /\ newsz <= top /\ top <= MAXVA).
Context (E : enlarged s0 l0 root N0 base newsz xperm r s' l' N').

(** Outside the range, a page is the one it was, and the growth did not use
    it. *)
Lemma enlarge_old va v : vpage va -> 0 <= va < top -> ~ base <= va < newsz -> leaf (k_mem s') root va = Some v ->
  leaf (k_mem s0) root va = Some v /\ page_ok (k_end s0) (PTE2PA v) /\ ~ usable l0 N0 (PTE2PA v).
Proof.
  intros Hv Hr Hn Hl. rewrite (en_rest _ _ _ _ _ _ _ _ _ _ _ E) in Hl by done. split; [done|].
  destruct (own_page Hown va v Hv Hr Hl) as (? & ? & ?). split; [done|]. unfold usable. tauto.
Qed.

Lemma enlarge_owned : owned (k_end s0) l' (k_mem s') root N' 0 top.
Proof.
  destruct (en_own _ _ _ _ _ _ _ _ _ _ _ E) as [Op Oj]. assert (U := en_pages _ _ _ _ _ _ _ _ _ _ _ E).
  assert (Hin : forall va v, vpage va -> base <= va < newsz -> leaf (k_mem s') root va = Some v -> usable l0 N0 (PTE2PA v)).
  { intros va v Hv Hr Hl. apply U. right. right. by exists va, v. }
  split.
  - intros va v Hv Hr Hl. destruct (decide (base <= va < newsz)); [by apply (Op va)|].
    destruct (enlarge_old va v Hv Hr) as (_ & ? & Hu); [done..|]. split; [done|]. rewrite <- U in Hu. tauto.
  - intros va va' v v' Hv Hv' Hr Hr' Hl Hl' Eq.
    destruct (decide (base <= va < newsz)) as [H|H], (decide (base <= va' < newsz)) as [H'|H'].
    + by apply (Oj va va' v v').
    + destruct (enlarge_old va' v' Hv' Hr') as (_ & _ & []); [done..|]. rewrite <- Eq. by apply (Hin va).
    + destruct (enlarge_old va v Hv Hr) as (_ & _ & []); [done..|]. rewrite Eq. by apply (Hin va').
    + destruct (enlarge_old va v Hv Hr) as (Hl0 & _); [done..|]. destruct (enlarge_old va' v' Hv' Hr') as (Hl0' & _); [done..|].
      by apply (own_inj Hown va va' v v').
Qed.

Lemma enlarge_view va : 0 <= va < top -> kept (k_mem s0) (k_mem s') root va.
Proof.
  intros Hva. destruct (PGROUNDDOWN_bounds va) as [Hb _]. assert (Hv : vpage (PGROUNDDOWN va)) by (apply vpage_down; lia).
  assert (Hr : 0 <= PGROUNDDOWN va < top) by (destruct Hv; lia).
  destruct (decide (base <= PGROUNDDOWN va < newsz)) as [Hin|Hout].
  - unfold kept. rewrite (Hblank _ Hv Hin). destruct (en_result _ _ _ _ _ _ _ _ _ _ _ E) as [[-> Hz]|(-> & Hl & _)].
    + destruct (Hz _ Hv Hin) as (p & Hp & Hl & Hk). right.
      eapply (zero_umem (k_end s0)); [lia|apply (kmem_end _ _ (inv_free _ _ _ _ I0))|done..].
    + left. by rewrite Hl, Hblank.
  - apply kept_ext; [by apply (en_rest _ _ _ _ _ _ _ _ _ _ _ E)|]. intros v Hl.
    destruct (own_page Hown _ v Hv Hr Hl) as ([Ha _] & H1 & H2). apply (en_mem _ _ _ _ _ _ _ _ _ _ _ E). intros q Hq Hin.
    assert (PTE2PA v = q) as Eq by (eapply in_page_apart; [done|by apply (usable_aligned _ _ _ _ I0)| |exact Hin]; unfold in_page, PGSIZE; lia).
    rewrite <- Eq in Hq. destruct Hq as [Hq|Hq]; done.
Qed.

End enlarge.

(** ** A page on demand *)

Lemma PTE_W_range : 0 <= PTE_W < 2 ^ 10.
Proof. unfold PTE_W. lia. Qed.

(** What [vmfault] does once it has found that the page [va] is missing. *)
Lemma wp_demand s l root N va Q :
  vm_inv s l root N -> vpage va -> leaf (k_mem s) root va = None ->
  (forall r e s' l' N', enlarged s l root N va (va + PGSIZE) PTE_W e s' l' N' ->
     (r = 0 /\ e = 0 /\ (length l <= 3)%nat) \/ leaf (k_mem s') root va = Some (mk_pte r (Z.lor (alloc_perm PTE_W) PTE_V)) -> Q r s') ->
  wp (mem ← kalloc;
      if mem =? 0 then mret 0 else
      fill_page mem 0;;
      r ← mappages root va PGSIZE mem (Z.lor (Z.lor PTE_W PTE_U) PTE_R);
      if negb (r =? 0) then kfree mem;; mret 0 else mret mem) Q s.
Proof.
  intros I Hv Hn HQ. assert (Hb : forall va', vpage va' -> va <= va' < va + PGSIZE -> leaf (k_mem s) root va' = None).
  { intros va' Hv' Hr. by rewrite (vpage_one va va'). }
  assert (Hlen : (va + PGSIZE - va) / PGSIZE = 1) by (rewrite Z.add_simpl_l; by apply Z.div_same).
  assert (Hva : 0 <= va /\ aligned va) by (destruct Hv; split; [lia|done]).
  eapply (wp_fill_one _ _ _ _ va _ (zero_page_flags PTE_W PTE_W_range) I (va + PGSIZE)) with (i := va) (act := fun q => fill_page q 0)
    (err := mret 0) (cont := mret);
    [split; [apply Hv|by apply vpage_end]|exact Hb|by apply filled_base|done|unfold PGSIZE; lia|reflexivity|done|exact (alloc_perm_range PTE_W PTE_W_range)| | |].
  - intros q s1 R _ _ _. apply wp_zero_page.
  - intros q s' l' N' C _ Hl. apply wp_ret. eapply (HQ q); [|by right].
    eapply enlarged_ok; [exact PTE_W_range|done|exact C|..|right]; unfold PGSIZE; try lia.
    unfold aligned, PGSIZE in *. destruct Hva as [_ Hva]. by rewrite Z.add_mod, Hva.
  - intros s' l' N' C Hl. apply wp_ret. eapply (HQ 0 0); [|by left]. eapply enlarged_fail; [exact PTE_W_range|done|exact Hb|exact C|]. rewrite Hlen. lia.
Qed.

Lemma wp_ismapped kend l root N a s Q :
  0 < kend -> pt_wf kend l (k_mem s) root N -> a < MAXVA ->
  Q (bool_decide (is_Some (leaf (k_mem s) root a))) s -> wp (ismapped root a) Q s.
Proof.
  intros Hk Ht Ha HQ. destruct (walk_leaf kend l root N a s Hk Ht Ha) as (pte & E & Hcase). unfold ismapped.
  apply wp_bind. eapply wp_eq; [exact E|]. destruct Hcase as [[-> Hl]|(p0 & _ & _ & Hz%Z.eqb_neq & Hl)]; rewrite Hl in HQ.
  - apply wp_ret. exact HQ.
  - rewrite Hz. apply wp_bind, wp_gets, wp_ret. unfold valid_pte in HQ. by destruct (has _ PTE_V).
Qed.

(** ** The process that runs *)

(** States that differ in nothing an address space depends on; the size may
    grow. *)
Lemma space_same s s' l root N sz sz' :
  space s l root N sz -> k_mem s' = k_mem s -> k_end s' = k_end s -> k_freelist s' = k_freelist s ->
  touch (k_sync s') = touch (k_sync s) -> sz <= sz' <= TRAPFRAME -> space s' l root N sz'.
Proof.
  intros [[Iy Ik [K1 K2 K3 K4] It] Ho Ha Hs] Hm He Hf Hy Hsz. rewrite TRAPFRAME_range in Hs, Hsz. split.
  - split; [by eapply touch_sync_wf|by eapply touch_lock_free| |by rewrite He, Hm]. split; by rewrite ?He, ?Hm, ?Hf.
  - by rewrite He, Hm.
  - intros va Hv Hr. rewrite Hm. apply Ha; [done|]. split; [|lia]. etransitivity; [|apply Hr].
    rewrite !PGROUNDUP_spec by lia. apply Z.mul_le_mono_nonneg_r; [lia|]. apply Z.div_le_mono; lia.
  - rewrite TRAPFRAME_range. lia.
Qed.

(** Pages are added below the end of the process, which may move up. *)
Lemma space_enlarge s l root N sz sz' base newsz r s' l' N' :
  space s l root N sz -> 0 <= base -> newsz <= TRAPFRAME -> sz <= sz' <= TRAPFRAME ->
  (forall va, vpage va -> base <= va < newsz -> leaf (k_mem s) root va = None) ->
  (forall va, vpage va -> base <= va < newsz -> leaf (k_mem s') root va <> None -> va < PGROUNDUP sz') ->
  enlarged s l root N base newsz PTE_W r s' l' N' ->
  space s' l' root N' sz' /\ forall va, 0 <= va < TRAPFRAME -> kept (k_mem s) (k_mem s') root va.
Proof.
  intros Hsp Hb Hn Hsz Hblank Hin E. destruct (Hsp) as [I Ho _ Hs].
  assert (Hmax : TRAPFRAME <= MAXVA) by by vm_compute. assert (F := en_frame _ _ _ _ _ _ _ _ _ _ _ E). split.
  - split; [apply E| | |lia].
    + rewrite (vm_frame_end _ _ F). by eapply (enlarge_owned _ _ _ _ base newsz TRAPFRAME PTE_W); [exact Ho|exact PTE_W_range|lia|exact E].
    + intros va Hv Hr. destruct (decide (base <= va < newsz)) as [Hd|Hd].
      * destruct (leaf (k_mem s') root va) eqn:El; [|done]. assert (va < PGROUNDUP sz'); [|lia].
        apply Hin; [done..|]. by rewrite El.
      * rewrite (en_rest _ _ _ _ _ _ _ _ _ _ _ E) by done. apply (sp_above s l root N sz'); [|done..]. by eapply space_same.
  - intros va Hva. eapply (enlarge_view _ _ _ _ base newsz TRAPFRAME PTE_W); [exact I|done..|exact PTE_W_range|lia|exact E|done].
Qed.

(** The pages above the new end are given back. *)
Lemma space_shrink s l root N sz sz' s' l' :
  space s l root N sz -> 0 <= sz' <= sz -> unmapped s l root N (PGROUNDUP sz') (PGROUNDUP sz) s' l' ->
  space s' l' root N sz' /\ forall va, 0 <= va < sz' -> kept (k_mem s) (k_mem s') root va.
Proof.
  intros [I Ho Ha Hs] Hsz U. rewrite TRAPFRAME_range in Hs. assert (F := un_frame U).
  destruct (PGROUNDUP_bounds sz') as [Hb _]; [lia..|].
  assert (Hle : PGROUNDUP sz <= TRAPFRAME) by (apply PGROUNDUP_le; [by vm_compute|rewrite TRAPFRAME_range; lia|by vm_compute]).
  split.
  - split; [apply U| | |rewrite TRAPFRAME_range; lia].
    + eapply (unmapped_owned s l root N (PGROUNDUP sz') (PGROUNDUP sz)); done || lia.
    + intros va Hv Hr. rewrite (un_leaf U va Hv). case_decide; [done|]. apply Ha; [done|lia].
  - intros va Hva. destruct (PGROUNDDOWN_bounds va) as [Hd _].
    assert (Hv : vpage (PGROUNDDOWN va)). { apply vpage_down. split; [lia|]. unfold MAXVA. change (Z.shiftl 1 _) with (2 ^ 38). lia. }
    apply kept_ext; [rewrite (un_leaf U _ Hv); by rewrite decide_False by lia|]. intros v Hl.
    assert (Hr : 0 <= PGROUNDDOWN va < TRAPFRAME) by (rewrite TRAPFRAME_range; destruct Hv; lia).
    destruct (own_page Ho _ v Hv Hr Hl) as (Hok & H1 & H2).
    assert (Hin : in_page (PTE2PA v) (PTE2PA v + (va - PGROUNDDOWN va))) by (unfold in_page, PGSIZE; lia).
    apply (un_mem U); intros q Hq Hinq.
    + apply H2. replace (PTE2PA v) with q; [done|]. eapply in_page_apart; [|apply Hok|exact Hinq|exact Hin].
      destruct Hq as [pi Hpi]. apply (pt_page (inv_tree _ _ _ _ I) Hpi).
    + destruct Hq as (va' & v' & Hv' & Hr' & Hl' & <-). assert (Hlt : 0 <= va' < TRAPFRAME) by lia.
      assert (E : PTE2PA v' = PTE2PA v) by (eapply in_page_apart; [apply (own_page Ho va' v' Hv' Hlt Hl')|apply Hok|done..]).
      assert (va' = PGROUNDDOWN va) by by apply (own_inj Ho va' _ v' v). lia.
Qed.

Section running.
Context (p : nat).

(** The process [p], with table entry [pr], runs in the address space. *)
Record active (pr : proc) (s : kst) (l : list Z) (N : tree) : Prop := {
  ac_me : running (k_sync s) = Some p;
  ac_proc : k_procs s !! p = Some pr;
  ac_space : space s l (p_pagetable pr) N (p_sz pr)
}.

Lemma active_wf pr s l N : active pr s l N -> sync_wf (k_sync s).
Proof. intros R. apply R. Qed.

Lemma active_touch pr s l N : active pr s l N -> active pr (upd_sync touch s) l N.
Proof.
  intros [R1 R2 R3]. split; [cbn; by rewrite running_touch|done|].
  eapply space_same; [done..|cbn; by rewrite touch_idem|]. destruct R3 as [_ _ _ H]. lia.
Qed.

Lemma wp_curproc_active pr s l N Q : active pr s l N -> Q p (upd_sync touch s) -> wp curproc Q s.
Proof.
  intros R HQ. apply wp_bind, wp_myproc'; [by eapply active_wf|]. rewrite (ac_me _ _ _ _ R). by eapply wp_deref.
Qed.

(** The size of the process changes. *)
Lemma active_size pr s l N sz' : active pr s l N -> p_sz pr <= sz' <= TRAPFRAME ->
  active (set_p_sz sz' pr) (set_k_procs (<[p := set_p_sz sz' pr]> (k_procs s)) s) l N.
Proof.
  intros [R1 R2 R3] Hsz. split; [done|cbn; apply list_lookup_insert_eq; by eapply lookup_lt_Some|].
  by eapply space_same.
Qed.

(** What an operation on the address space leaves alone. *)
Lemma active_step pr s l N s' l' N' :
  active pr s l N -> vm_frame s s' -> space s' l' (p_pagetable pr) N' (p_sz pr) -> active pr s' l' N'.
Proof.
  intros [R1 R2 R3] [-> Ht] Hs. split; [|done|done]. rewrite <- R1. apply touch_running; [done|apply Hs].
Qed.

(** What the process has below [top] is kept. *)
Definition same_view (top : Z) (pr : proc) (s s' : kst) : Prop :=
  forall va, 0 <= va < top -> kept (k_mem s) (k_mem s') (p_pagetable pr) va.

Lemma same_view_mem top pr s s' : k_mem s' = k_mem s -> same_view top pr s s'.
Proof. intros E va _. rewrite E. apply kept_refl. Qed.

(** The process has size [sz'], and sees below it what it saw. *)
Definition resized (pr : proc) (s : kst) (sz' : Z) (s' : kst) : Prop :=
  k_procs s' = <[p := set_p_sz sz' pr]> (k_procs s) /\ same_view sz' pr s s' /\
  exists l' N', active (set_p_sz sz' pr) s' l' N'.

Lemma resized_same pr s l N s' : active pr s l N -> k_procs s' = k_procs s ->
  same_view (p_sz pr) pr s s' -> (exists l' N', active pr s' l' N') -> resized pr s (p_sz pr) s'.
Proof.
  intros R Hp Hv Ha. assert (E : set_p_sz (p_sz pr) pr = pr) by by destruct pr.
  split; [|by rewrite E]. rewrite Hp, E. symmetry. apply list_insert_id. apply R.
Qed.

Lemma wp_set_size pr s0 s l N sz' (r : Z) Q :
  k_procs s = k_procs s0 -> k_procs s !! p = Some pr -> running (k_sync s) = Some p ->
  space s l (p_pagetable pr) N sz' -> same_view sz' pr s0 s ->
  (forall s', resized pr s0 sz' s' -> k_mem s' = k_mem s -> Q r s') -> wp (updp p (set_p_sz sz');; mret r) Q s.
Proof.
  intros Hps Hp Hr Hs Hv HQ. apply wp_bind, wp_updp; [by eapply lookup_lt_Some|]. apply wp_ret, HQ; [|done].
  unfold upd_procs. rewrite (list_alter_at _ _ _ pr) by exact Hp. split; [by rewrite Hps|]. split; [exact Hv|].
  exists l, N. split; [done|cbn; apply list_lookup_insert_eq; by eapply lookup_lt_Some|].
  eapply space_same; [exact Hs|done..|]. destruct Hs as [_ _ _ ?]. cbn. lia.
Qed.

(** The memory that is new is there, and zero. *)
Definition allocated_now (n : Z) (pr : proc) (s' : kst) : Prop :=
  forall va, PGROUNDUP (p_sz pr) <= va < p_sz pr + n -> umem (k_mem s') (p_pagetable pr) va = Some 0.

(** [growproc] with a positive argument that fits. *)
Lemma wp_growproc_up n pr s l N Q :
  active pr s l N -> 0 < n -> p_sz pr + n <= TRAPFRAME ->
  (forall s', resized pr s (p_sz pr + n) s' -> allocated_now n pr s' -> Q 0 s') ->
  (forall s', resized pr s (p_sz pr) s' -> Z.of_nat (length l) <= 3 * (n / PGSIZE + 2) -> Q (-1) s') ->
  wp (sz' ← uvmalloc (p_pagetable pr) (p_sz pr) (p_sz pr + n) PTE_W;
      if sz' =? 0 then mret (-1) else updp p (set_p_sz sz');; mret 0) Q s.
Proof.
  intros R Hn Htop HQ HE. destruct (ac_space _ _ _ _ R) as [I Ho Ha Hs]. assert (Htr := TRAPFRAME_range).
  assert (Hmax : TRAPFRAME <= MAXVA) by by vm_compute. destruct (PGROUNDUP_bounds (p_sz pr)) as [Hb Hba]; [lia..|].
  assert (Hblank : forall va, vpage va -> PGROUNDUP (p_sz pr) <= va < p_sz pr + n -> leaf (k_mem s) (p_pagetable pr) va = None).
  { intros va Hv Hr. apply Ha; [done|lia]. }
  apply wp_bind. eapply wp_uvmalloc; [exact I|exact PTE_W_range|lia|lia|exact Hblank|]. intros r s' l' N' E.
  assert (F := en_frame _ _ _ _ _ _ _ _ _ _ _ E). assert (Hps : k_procs s' = k_procs s) by (destruct F as [-> _]; done).
  assert (Hrun : running (k_sync s') = Some p).
  { rewrite <- (ac_me _ _ _ _ R). apply touch_running; [apply F|]. apply (inv_sync _ _ _ _ (en_inv _ _ _ _ _ _ _ _ _ _ _ E)). }
  assert (Hp' : k_procs s' !! p = Some pr) by (rewrite Hps; apply R).
  destruct (en_result _ _ _ _ _ _ _ _ _ _ _ E) as [[-> Hz]|(-> & Hl & Hlen)].
  - destruct (Z.eqb_spec (p_sz pr + n) 0); [lia|].
    destruct (space_enlarge s l (p_pagetable pr) N (p_sz pr) (p_sz pr + n) (PGROUNDUP (p_sz pr)) (p_sz pr + n) (p_sz pr + n) s' l' N') as [Hs' Hv'];
      [apply R|lia|lia|lia|exact Hblank| |exact E|].
    { intros va Hv Hr _. pose proof (PGROUNDUP_bounds (p_sz pr + n)). lia. }
    eapply wp_set_size; [done..|exact Hs'| |].
    + intros va Hva. apply Hv'. lia.
    + intros s1 Hr Em. apply HQ; [done|]. intros va Hva. rewrite Em. destruct (PGROUNDDOWN_bounds va) as [Hd _].
      assert (Hv : vpage (PGROUNDDOWN va)) by (apply vpage_down; lia).
      destruct (Hz (PGROUNDDOWN va) Hv) as (q & Hq & Hl & Hk).
      { split; [|lia]. rewrite PGROUNDDOWN_spec. unfold aligned, PGSIZE in Hba.
        pose proof (Z.div_mod (PGROUNDUP (p_sz pr)) 4096). pose proof (Z.div_le_mono (PGROUNDUP (p_sz pr)) va 4096). lia. }
      eapply (zero_umem (k_end s)); [lia|apply (kmem_end _ _ (inv_free _ _ _ _ I))|done|exact PTE_W_range|exact Hl|exact Hk].
  - apply wp_ret, HE.
    + destruct (space_enlarge s l (p_pagetable pr) N (p_sz pr) (p_sz pr) (PGROUNDUP (p_sz pr)) (p_sz pr + n) 0 s' l' N') as [Hs' Hv'];
        [apply R|lia|lia|lia|exact Hblank| |exact E|].
      { intros va Hv Hr []. rewrite Hl by done. by apply Hblank. }
      eapply resized_same; [exact R|done|intros va Hva; apply Hv'; lia|]. exists l', N'. by split.
    + etransitivity; [exact Hlen|]. apply Z.mul_le_mono_nonneg_l; [lia|].
      pose proof (Z.div_le_mono (p_sz pr + n - PGROUNDUP (p_sz pr)) n PGSIZE). unfold PGSIZE in *. lia.
Qed.

Lemma wrap64_neg x : - 2 ^ 64 <= x < 0 -> wrap64 x = x + 2 ^ 64.
Proof. intros H. symmetry. apply (Z.mod_unique _ _ (-1)); lia. Qed.

(** ... and with a negative one. *)
Lemma wp_growproc_down n pr s l N Q :
  active pr s l N -> - 2 ^ 31 <= n < 0 ->
  (forall s', resized pr s (if 0 <=? p_sz pr + n then p_sz pr + n else p_sz pr) s' -> Q 0 s') ->
  wp (sz' ← uvmdealloc (p_pagetable pr) (p_sz pr) (wrap64 (p_sz pr + n)); updp p (set_p_sz sz');; mret 0) Q s.
Proof.
  intros R Hn HQ. destruct (ac_space _ _ _ _ R) as [I Ho Ha Hs]. assert (Htr := TRAPFRAME_range).
  assert (Hmax : TRAPFRAME <= MAXVA) by by vm_compute. apply wp_bind.
  destruct (Z.leb_spec 0 (p_sz pr + n)) as [H0|H0].
  - rewrite wrap64_small by lia. assert (Hle : PGROUNDUP (p_sz pr) <= TRAPFRAME) by (apply PGROUNDUP_le; [by vm_compute|lia|done]).
    eapply wp_uvmdealloc; [exact I|lia|lia| |].
    + destruct (PGROUNDUP_bounds (p_sz pr + n)) as [Hb _]; [lia..|]. eapply (owned_sub _ _ _ _ _ 0 TRAPFRAME); [lia|lia|exact Ho].
    + intros s' l' U. destruct (space_shrink s l _ N (p_sz pr) (p_sz pr + n) s' l' (ac_space _ _ _ _ R) ltac:(lia) U) as [Hs' Hv'].
      assert (F := un_frame U). assert (Hps : k_procs s' = k_procs s) by (destruct F as [-> _]; done).
      eapply wp_set_size; [done|rewrite Hps; apply R| |exact Hs'|exact Hv'|by auto].
      rewrite <- (ac_me _ _ _ _ R). apply touch_running; [apply F|apply (inv_sync _ _ _ _ (un_inv U))].
  - unfold uvmdealloc. rewrite (wrap64_neg (p_sz pr + n)) by lia. destruct (Z.leb_spec (p_sz pr) (p_sz pr + n + 2 ^ 64)); [|lia].
    apply wp_ret. eapply wp_set_size; [done|apply R|apply R|apply R|by apply same_view_mem|by auto].
Qed.

(** [growproc], whatever its argument. *)
Lemma wp_growproc n pr s l N Q :
  active pr s l N -> - 2 ^ 31 <= n < 2 ^ 31 ->
  (forall s', resized pr s (if 0 <=? p_sz pr + n then p_sz pr + n else p_sz pr) s' -> p_sz pr + n <= TRAPFRAME ->
     allocated_now n pr s' -> Q 0 s') ->
  (forall s', resized pr s (p_sz pr) s' -> 0 < n ->
     TRAPFRAME < p_sz pr + n \/ Z.of_nat (length l) <= 3 * (n / PGSIZE + 2) -> Q (-1) s') ->
  wp (growproc n) Q s.
Proof.
  intros R Hn HQ HE. unfold growproc. apply wp_bind. eapply wp_curproc_active; [done|].
  assert (R1 := active_touch _ _ _ _ R). assert (Hs := sp_size _ _ _ _ _ (ac_space _ _ _ _ R)). assert (Htr := TRAPFRAME_range).
  assert (Hres : forall sz' s', resized pr (upd_sync touch s) sz' s' -> resized pr s sz' s') by done.
  apply wp_bind. eapply wp_getp; [apply R1|]. destruct (Z.ltb_spec 0 n) as [H0|H0].
  - rewrite wrap64_small by lia. destruct (Z.ltb_spec TRAPFRAME (p_sz pr + n)).
    + apply wp_ret, HE; [|done|by left]. apply Hres. eapply resized_same; [exact R1|done|by apply same_view_mem|by exists l, N].
    + eapply wp_growproc_up; [exact R1|done|lia| |]; intros s' Hr.
      * intros Hz. apply HQ; [|lia|done]. destruct (Z.leb_spec 0 (p_sz pr + n)); [by apply Hres|lia].
      * intros Hlen. apply HE; [by apply Hres|done|by right].
  - assert (Hz : forall s', allocated_now n pr s').
    { intros s' va Hva. pose proof (PGROUNDUP_bounds (p_sz pr)). lia. }
    destruct (Z.ltb_spec n 0).
    + eapply wp_growproc_down; [exact R1|lia|]. intros s' Hr. apply HQ; [by apply Hres|lia|done].
    + assert (n = 0) as -> by lia. eapply wp_set_size; [done|apply R1|apply R1|apply R1|by apply same_view_mem|]. intros s' Hr _. apply HQ; [|lia|done].
      rewrite Z.add_0_r. destruct (Z.leb_spec 0 (p_sz pr)); by apply Hres.
Qed.

(** A register saved in the trap frame. *)
Lemma wp_argint_active i pr s l N Q :
  active pr s l N -> (i <= 5)%nat -> p_trapframe pr <> 0 ->
  Q (to_int (ld64 (k_mem s) (p_trapframe pr + tf_a (Z.of_nat i)))) (upd_sync touch s) -> wp (argint i) Q s.
Proof.
  intros R Hi Ht HQ. unfold argint, argraw, tf_get. apply wp_bind, wp_bind. eapply wp_curproc_active; [done|].
  destruct (Nat.leb_spec i 5); [|lia]. apply wp_bind. eapply wp_getp; [apply R|].
  destruct (Z.eqb_spec (p_trapframe pr) 0); [done|]. by apply wp_gets, wp_ret.
Qed.

End running.

(** The page of an address below the trap frame ends below it. *)
Lemma page_below a : vpage a -> a < TRAPFRAME -> a + PGSIZE <= TRAPFRAME.
Proof.
  rewrite TRAPFRAME_range. intros [Ha _] Hr. unfold aligned, PGSIZE in *. pose proof (Z.div_mod a 4096). lia.
Qed.

(** ** Properties *)

(** [vmfault], for the process that runs, always returns and never changes what
    the process sees. For an address below the end of the process with no page
    it maps one and returns it, or returns 0 because no more than three pages
    were free; for any other address it returns 0 and changes nothing. *)
Theorem vmfault_spec (p : nat) (pr : proc) (s : kst) (l : list Z) (N : tree) (va : Z) (read : bool)
    (R : active p pr s l N) (Hva : 0 <= va) :
  wp (vmfault (p_pagetable pr) va read) (fun r s' =>
    (exists l' N', active p pr s' l' N') /\ k_procs s' = k_procs s /\ same_view TRAPFRAME pr s s' /\
    if decide (va < p_sz pr /\ leaf (k_mem s) (p_pagetable pr) (PGROUNDDOWN va) = None) then
      (r = 0 /\ (length l <= 3)%nat) \/
      (r <> 0 /\ leaf (k_mem s') (p_pagetable pr) (PGROUNDDOWN va) = Some (mk_pte r (Z.lor (alloc_perm PTE_W) PTE_V)))
    else r = 0 /\ k_mem s' = k_mem s) s.
Proof.
  assert (R1 := active_touch _ _ _ _ _ R). unfold vmfault. apply wp_bind, wp_myproc'; [by eapply active_wf|].
  rewrite (ac_me _ _ _ _ _ R). apply wp_bind. eapply wp_deref; [done|]. apply wp_bind. eapply wp_getp; [apply R|].
  destruct (Z.leb_spec (p_sz pr) va) as [Hge|Hlt].
  { apply wp_ret. rewrite decide_False by lia. split_and!; [by exists l, N|done|by apply same_view_mem|done..]. }
  destruct (ac_space _ _ _ _ _ R1) as [I Ho Ha Hs]. assert (Htr := TRAPFRAME_range).
  assert (Hmax : TRAPFRAME <= MAXVA) by by vm_compute. destruct (PGROUNDDOWN_bounds va) as [Hb _].
  assert (Hv : vpage (PGROUNDDOWN va)) by (apply vpage_down; lia).
  apply wp_bind. eapply wp_ismapped; [apply (kmem_end _ _ (inv_free _ _ _ _ I))|apply I|lia|].
  change (k_mem (upd_sync touch s)) with (k_mem s). case_bool_decide as Hm; destruct (leaf (k_mem s) (p_pagetable pr) (PGROUNDDOWN va)) eqn:El.
  - apply wp_ret. rewrite decide_False by (intros [_ ?]; done). split_and!; [by exists l, N|done|by apply same_view_mem|done..].
  - by destruct Hm.
  - by destruct Hm.
  - eapply wp_demand; [exact I|done|exact El|]. intros r e s' l' N' E Hr. rewrite decide_True by done.
    assert (F := en_frame _ _ _ _ _ _ _ _ _ _ _ E). assert (Hend := vpage_end _ Hv).
    assert (Hone : forall va', vpage va' -> PGROUNDDOWN va <= va' < PGROUNDDOWN va + PGSIZE -> va' = PGROUNDDOWN va) by (intros; by apply vpage_one).
    destruct (space_enlarge (upd_sync touch s) l (p_pagetable pr) N (p_sz pr) (p_sz pr) (PGROUNDDOWN va) (PGROUNDDOWN va + PGSIZE) e s' l' N')
      as [Hs' Hv'].
    + apply R1.
    + destruct Hv. lia.
    + apply page_below; [done|lia].
    + lia.
    + intros va' Hva' Hr'. by rewrite (Hone va').
    + intros va' Hva' Hr' _. rewrite (Hone va') by done. pose proof (PGROUNDUP_bounds (p_sz pr)). lia.
    + done.
    + split_and!; [|by destruct F as [-> _]|exact Hv'|].
      * exists l', N'. by eapply active_step.
      * destruct Hr as [(? & _ & ?)|Hl]; [by left|right]. split; [|done]. intros ->.
        assert (Hrange : 0 <= PGROUNDDOWN va < TRAPFRAME) by (destruct Hv; lia).
        destruct (own_page (sp_own _ _ _ _ _ Hs') (PGROUNDDOWN va) _ Hv Hrange Hl) as ((_ & Hlow & _) & _).
        change (PTE2PA _) with 0 in Hlow. pose proof (kmem_end _ _ (inv_free _ _ _ _ (sp_inv _ _ _ _ _ Hs'))). lia.
Qed.

(** What a load below the end of the process gives, [m] being the memory some
    time before: the byte of a page it had, zero for one it had not, unless
    there are no pages left to give it. *)
Definition reads_as (m : mem) (free : list Z) (root va : Z) (b : option Z) : Prop :=
  match leaf m root (PGROUNDDOWN va) with
  | Some _ => b = umem m root va
  | None => b = Some 0 \/ b = None /\ (length free <= 3)%nat
  end.

Lemma wp_user_load p pr s l N m va :
  active p pr s l N -> 0 <= va < p_sz pr -> kept m (k_mem s) (p_pagetable pr) va ->
  wp (user_load (p_pagetable pr) va) (fun b _ => reads_as m l (p_pagetable pr) va b) s.
Proof.
  intros R Hva K. unfold user_load, reads_as. apply wp_bind, wp_gets.
  assert (HN : leaf (k_mem s) (p_pagetable pr) (PGROUNDDOWN va) = None -> umem (k_mem s) (p_pagetable pr) va = None).
  { intros E. unfold umem, user_pa. by rewrite E. }
  unfold kept in K. destruct (umem (k_mem s) (p_pagetable pr) va) as [b|] eqn:E.
  - apply wp_ret. destruct (leaf m _ _); [by destruct K as [_ <-]|]. destruct K as [K%HN|[= ->]]; [done|by left].
  - apply wp_bind. eapply wp_mono; [apply (vmfault_spec p pr s l N va true); [done|lia]|].
    intros r s' (_ & _ & Hv & Hr). cbn beta in Hr.
    assert (Hs := sp_size _ _ _ _ _ (ac_space _ _ _ _ _ R)). specialize (Hv va ltac:(lia)). unfold kept in Hv.
    destruct (leaf m (p_pagetable pr) (PGROUNDDOWN va)) as [v|].
    + destruct K as [Hl <-]. rewrite decide_False in Hr by (intros [_ ?]; congruence). destruct Hr as [-> _]. by apply wp_ret.
    + destruct K as [Hl|]; [|done]. rewrite decide_True in Hr by (split; [lia|done]). rewrite Hl in Hv.
      destruct Hr as [[-> Hle]|[Hr Hl']]; [apply wp_ret; by right|].
      destruct (Z.eqb_spec r 0); [done|]. apply wp_bind, wp_gets, wp_ret. left. destruct Hv; [congruence|done].
Qed.

(** The process has size [sz'] and, loading any byte below it, gets the byte of a
    page that was mapped in [s] and zero from a page that was not. *)
Definition becomes (p : nat) (pr : proc) (s : kst) (sz' : Z) (s' : kst) : Prop :=
  k_procs s' = <[p := set_p_sz sz' pr]> (k_procs s) /\
  exists l' N', active p (set_p_sz sz' pr) s' l' N' /\
    forall va, 0 <= va < sz' ->
      wp (user_load (p_pagetable pr) va) (fun b _ => reads_as (k_mem s) l' (p_pagetable pr) va b) s'.

Lemma resized_becomes p pr s sz' s' : resized p pr s sz' s' -> becomes p pr s sz' s'.
Proof.
  intros (Hp & Hv & l' & N' & R). split; [done|]. exists l', N'. split; [done|]. intros va Hva.
  apply (wp_user_load p (set_p_sz sz' pr) s' l' N'); [done|done|]. by apply Hv.
Qed.

(** C6: [sbrk] returns the old size and the process has the size asked for (a
    request below zero leaves it as it is), or it returns -1, nothing has
    changed for the process, and the request was for more than fits below the
    trap frame or, allocating at once, more than there was memory for. Either
    way a load of a byte below the size, page fault included, gives what was
    there if its page was mapped, also past the old end of the process, and
    zero if it was not; on demand it can instead find no page left. Allocating
    at once the new pages are there on return; on demand no memory has
    changed. *)
Theorem sbrk_spec (p : nat) (pr : proc) (s : kst) (l : list Z) (N : tree)
    (R : active p pr s l N) (Htf : p_trapframe pr <> 0) :
  let n := to_int (ld64 (k_mem s) (p_trapframe pr + tf_a 0)) in
  let t := to_int (ld64 (k_mem s) (p_trapframe pr + tf_a 1)) in
  wp sys_sbrk (fun r s' =>
    (r = p_sz pr /\ p_sz pr + n <= TRAPFRAME /\ becomes p pr s (if 0 <=? p_sz pr + n then p_sz pr + n else p_sz pr) s' /\
     (t = SBRK_EAGER -> allocated_now n pr s') /\ (t <> SBRK_EAGER -> 0 <= n -> k_mem s' = k_mem s)) \/
    (r = minus1 /\ becomes p pr s (p_sz pr) s' /\ 0 < n /\
     (TRAPFRAME < p_sz pr + n \/ t = SBRK_EAGER /\ Z.of_nat (length l) <= 3 * (n / PGSIZE + 2)))) s.
Proof.
  intros n t. unfold sys_sbrk. assert (R1 := active_touch _ _ _ _ _ R). assert (R2 := active_touch _ _ _ _ _ R1).
  assert (Hs := sp_size _ _ _ _ _ (ac_space _ _ _ _ _ R)). assert (Htr := TRAPFRAME_range).
  assert (Hn : - 2 ^ 31 <= n < 2 ^ 31) by apply to_int_range.
  apply wp_bind. eapply wp_argint_active; [exact R|lia|done|]. apply wp_bind. eapply wp_argint_active; [exact R1|lia|done|].
  change (to_int (ld64 (k_mem s) _)) with n. change (to_int (ld64 (k_mem (upd_sync touch s)) _)) with t.
  apply wp_bind. eapply wp_curproc_active; [exact R2|]. assert (R3 := active_touch _ _ _ _ _ R2).
  apply wp_bind. eapply wp_getp; [apply R3|].
  assert (Hres : forall sz' s', resized p pr (upd_sync touch (upd_sync touch (upd_sync touch s))) sz' s' -> becomes p pr s sz' s')
    by (intros; by apply resized_becomes).
  destruct (decide (t = SBRK_EAGER \/ n < 0)) as [Heager|Hlazy].
  - replace ((t =? SBRK_EAGER) || (n <? 0)) with true by (symmetry; apply orb_true_iff; rewrite Z.eqb_eq, Z.ltb_lt; tauto).
    apply wp_bind. eapply wp_growproc; [exact R3|done| |]; intros s' Hr H1.
    + intros H2. apply wp_ret. left. split_and!; [done..|by apply Hres|done|]. intros Ht Hn0. destruct Heager; [done|lia].
    + intros H2. apply wp_ret. right. split_and!; [done|by apply Hres|done|]. destruct H2 as [?|?]; [by left|right].
      split; [|done]. destruct Heager; [done|lia].
  - replace ((t =? SBRK_EAGER) || (n <? 0)) with false by (symmetry; apply orb_false_iff; rewrite Z.eqb_neq, Z.ltb_ge; lia).
    rewrite wrap64_small by lia. destruct (Z.ltb_spec (p_sz pr + n) (p_sz pr)); [lia|].
    destruct (Z.ltb_spec TRAPFRAME (p_sz pr + n)).
    + apply wp_ret. right. split_and!; [done| |lia|by left]. apply Hres. eapply resized_same; [exact R3|done|by apply same_view_mem|by exists l, N].
    + apply wp_bind. eapply wp_curproc_active; [exact R3|]. assert (R4 := active_touch _ _ _ _ _ R3).
      apply wp_bind, wp_updp; [by eapply lookup_lt_Some, R|]. apply wp_ret. left.
      split_and!; [done|lia| |intros Ht; destruct Hlazy; by left|done]. apply Hres.
      unfold upd_procs. rewrite (list_alter_at _ _ _ pr) by apply R. rewrite wrap64_small by lia.
      destruct (Z.leb_spec 0 (p_sz pr + n)); [|lia]. split; [done|]. split; [by apply same_view_mem|]. exists l, N.
      apply (active_size _ _ _ _ _ _ R4). lia.
Qed.
