(* ===== verification/Sysfile.v ===== *)
(** * System calls on files ([sysfile.c]) *)

From stdpp Require Import base gmap strings numbers list.
From S2P Require Import Prelude State Spinlock Strings Printf Bytes Memory Kalloc Vm Proc Sleeplock Quiet Bio.
From S2P Require Import Log Uio Fs Devices Pipe File Process Exec Sysproc.

Definition O_RDONLY : Z := 0x000.
Definition O_WRONLY : Z := 0x001.
Definition O_RDWR : Z := 0x002.
Definition O_CREATE : Z := 0x200.
Definition O_TRUNC : Z := 0x400.

(** ** Descriptors *)

(** The descriptor and the file, or [None] for -1. *)
Definition argfd (n : nat) : KM (option (nat * nat)) :=
  fd ← argint n;
  if (fd <? 0) || (Z.of_nat NOFILE <=? fd) then mret None else
  i ← curproc;
  p ← getp i;
  f ← deref (p_ofile p !! Z.to_nat fd);
  match f with
  | None => mret None
  | Some f => mret (Some (Z.to_nat fd, f))
  end.

(** [p->ofile[fd] = f] *)
Definition set_ofile (i fd : nat) (f : option nat) : KM unit :=
  updp i (fun p => set_p_ofile (<[fd := f]> (p_ofile p)) p).

Definition fdalloc (f : nat) : KM (option nat) :=
  i ← curproc;
  for_find (seq 0 NOFILE) (fun fd =>
    p ← getp i;
    o ← deref (p_ofile p !! fd);
    match o with
    | None => set_ofile i fd (Some f);; mret (Some fd)
    | Some _ => mret None
    end).

Section sysfile.
Context {W : World} {D : Disk} {T : Patience} {M : Mmio} {K : Stack} {I : Image}.

Definition sys_dup : KM Z :=
  r ← argfd 0;
  match r with
  | None => mret minus1
  | Some (_, f) =>
      fd ← fdalloc f;
      match fd with
      | None => mret minus1
      | Some fd => _ ← filedup f; mret (Z.of_nat fd)
      end
  end.

Definition sys_read : KM Z :=
  p ← argaddr 1;
  n ← argint 2;
  r ← argfd 0;
  match r with
  | None => mret minus1
  | Some (_, f) => r ← fileread f p n; mret (wrap64 r)
  end.

Definition sys_write : KM Z :=
  p ← argaddr 1;
  n ← argint 2;
  r ← argfd 0;
  match r with
  | None => mret minus1
  | Some (_, f) => r ← filewrite f p n; mret (wrap64 r)
  end.

Definition sys_close : KM Z :=
  r ← argfd 0;
  match r with
  | None => mret minus1
  | Some (fd, f) =>
      i ← curproc;
      set_ofile i fd None;;
      fileclose f;;
      mret 0
  end.

Definition sys_fstat : KM Z :=
  st ← argaddr 1;
  r ← argfd 0;
  match r with
  | None => mret minus1
  | Some (_, f) => r ← filestat f st; mret (wrap64 r)
  end.

(** ** Links and directories *)

Definition nlink_add (k : Z) (ip : nat) : KM unit :=
  updi ip (fun x => set_i_nlink (to_short (i_nlink x + k)) x).

(** [bad:] of [sys_link] *)
Definition link_bad (ip : nat) : KM Z :=
  ilock (Some ip);;
  nlink_add (-1) ip;;
  iupdate ip;;
  iunlockput ip;;
  end_op;;
  mret minus1.

Definition sys_link : KM Z :=
  old ← argstr 0 MAXPATH;
  if old.1 <? 0 then mret minus1 else
  new ← argstr 1 MAXPATH;
  if new.1 <? 0 then mret minus1 else
  begin_op;;
  ip ← namei old.2;
  match ip with
  | None => end_op;; mret minus1
  | Some ip =>
      ilock (Some ip);;
      x ← geti ip;
      if i_type x =? T_DIR then iunlockput ip;; end_op;; mret minus1 else
      nlink_add 1 ip;;
      iupdate ip;;
      iunlock (Some ip);;
      r ← nameiparent new.2;
      match r with
      | None => link_bad ip
      | Some (dp, name) =>
          ilock (Some dp);;
          d ← geti dp;
          x ← geti ip;
          r ← (if negb (i_dev d =? i_dev x) then mret (-1) else dirlink dp name (i_inum x));
          if r <? 0 then iunlockput dp;; link_bad ip else
          iunlockput dp;;
          iput ip;;
          end_op;;
          mret 0
      end
  end.

Fixpoint isdirempty_loop (fuel : nat) (dp : nat) (off : Z) : KM bool :=
  x ← geti dp;
  if negb (wrap32 off <? i_size x) then mret true else
  match fuel with
  | O => hang
  | S fuel =>
      r ← readi dp ToLocal (wrap32 off) (Z.of_nat dirent_size);
      if negb (r.1 =? Z.of_nat dirent_size) then panic "isdirempty: readi" else
      if negb (de_inum r.2 =? 0) then mret false else
      isdirempty_loop fuel dp (to_int (off + Z.of_nat dirent_size))
  end.

Definition isdirempty (dp : nat) : KM bool :=
  x ← geti dp;
  isdirempty_loop (ceil_div (i_size x) (Z.of_nat dirent_size)) dp (2 * Z.of_nat dirent_size).

(** [bad:] of [sys_unlink] *)
Definition unlink_bad (dp : nat) : KM Z := iunlockput dp;; end_op;; mret minus1.

Definition sys_unlink : KM Z :=
  path ← argstr 0 MAXPATH;
  if path.1 <? 0 then mret minus1 else
  begin_op;;
  r ← nameiparent path.2;
  match r with
  | None => end_op;; mret minus1
  | Some (dp, name) =>
      ilock (Some dp);;
      if (namecmp name (bytes_of ".") =? 0) || (namecmp name (bytes_of "..") =? 0) then unlink_bad dp else
      r ← dirlookup dp name;
      match r with
      | None => unlink_bad dp
      | Some (ip, off) =>
          ilock (Some ip);;
          x ← geti ip;
          if i_nlink x <? 1 then panic "unlink: nlink < 1" else
          e ← (if i_type x =? T_DIR then isdirempty ip else mret true);
          if negb e then iunlockput ip;; unlink_bad dp else
          r ← writei dp (FromLocal (replicate dirent_size 0)) off (Z.of_nat dirent_size);
          if negb (r =? Z.of_nat dirent_size) then panic "unlink: writei" else
          x ← geti ip;
          when (i_type x =? T_DIR) (nlink_add (-1) dp;; iupdate dp);;
          iunlockput dp;;
          nlink_add (-1) ip;;
          iupdate ip;;
          iunlockput ip;;
          end_op;;
          mret 0
      end
  end.

(** [fail:] of [create] *)
Definition create_fail (ip dp : nat) : KM (option nat) :=
  updi ip (set_i_nlink 0);;
  iupdate ip;;
  iunlockput ip;;
  iunlockput dp;;
  mret None.

(** The inode, locked, or [None] for 0. *)
Definition create (path : list Z) (type major minor : Z) : KM (option nat) :=
  r ← nameiparent path;
  match r with
  | None => mret None
  | Some (dp, name) =>
      ilock (Some dp);;
      r ← dirlookup dp name;
      match r with
      | Some (ip, _) =>
          iunlockput dp;;
          ilock (Some ip);;
          x ← geti ip;
          if (type =? T_FILE) && ((i_type x =? T_FILE) || (i_type x =? T_DEVICE)) then mret (Some ip)
          else iunlockput ip;; mret None
      | None =>
          d ← geti dp;
          r ← ialloc (i_dev d) type;
          match r with
          | None => iunlockput dp;; mret None
          | Some ip =>
              ilock (Some ip);;
              updi ip (set_i_major major);;
              updi ip (set_i_minor minor);;
              updi ip (set_i_nlink 1);;
              iupdate ip;;
              x ← geti ip;
              d ← geti dp;
              bad ← (if type =? T_DIR then
                       r ← dirlink ip (bytes_of ".") (i_inum x);
                       if r <? 0 then mret true else
                       r ← dirlink ip (bytes_of "..") (i_inum d);
                       mret (r <? 0)
                     else mret false);
              if (bad : bool) then create_fail ip dp else
              r ← dirlink dp name (i_inum x);
              if r <? 0 then create_fail ip dp else
              when (type =? T_DIR) (nlink_add 1 dp;; iupdate dp);;
              iunlockput dp;;
              mret (Some ip)
          end
      end
  end.

(** Give up on opening [ip], locked. *)
Definition open_fail (ip : nat) : KM Z := iunlockput ip;; end_op;; mret minus1.

(** The locked inode [sys_open] opens, or [None] when it has failed. *)
Definition open_inode (path : list Z) (omode : Z) : KM (option nat) :=
  if has omode O_CREATE then
    ip ← create path T_FILE 0 0;
    match ip with
    | None => end_op;; mret None
    | Some ip => mret (Some ip)
    end
  else
    ip ← namei path;
    match ip with
    | None => end_op;; mret None
    | Some ip =>
        ilock (Some ip);;
        x ← geti ip;
        if (i_type x =? T_DIR) && negb (omode =? O_RDONLY) then iunlockput ip;; end_op;; mret None
        else mret (Some ip)
    end.

Definition sys_open : KM Z :=
  omode ← argint 1;
  path ← argstr 0 MAXPATH;
  if path.1 <? 0 then mret minus1 else
  begin_op;;
  ip ← open_inode path.2 omode;
  match ip with
  | None => mret minus1
  | Some ip =>
      x ← geti ip;
      if (i_type x =? T_DEVICE) && ((i_major x <? 0) || (NDEV <=? i_major x)) then open_fail ip else
      f ← filealloc;
      match f with
      | None => open_fail ip
      | Some f =>
          fd ← fdalloc f;
          match fd with
          | None => fileclose f;; open_fail ip
          | Some fd =>
              x ← geti ip;
              (if i_type x =? T_DEVICE
               then updf f (set_f_type FD_DEVICE);; updf f (set_f_major (i_major x))
               else updf f (set_f_type FD_INODE);; updf f (set_f_off 0));;
              updf f (set_f_ip (Some ip));;
              updf f (set_f_readable (negb (has omode O_WRONLY)));;
              updf f (set_f_writable (has omode O_WRONLY || has omode O_RDWR));;
              when (has omode O_TRUNC && (i_type x =? T_FILE)) (itrunc ip);;
              iunlock (Some ip);;
              end_op;;
              mret (Z.of_nat fd)
          end
      end
  end.

(** [sys_mkdir] and [sys_mknod] once the arguments are fetched. *)
Definition make_node (path : Z * list Z) (type major minor : Z) : KM Z :=
  ip ← (if path.1 <? 0 then mret None else create path.2 type major minor);
  match ip with
  | None => end_op;; mret minus1
  | Some ip => iunlockput ip;; end_op;; mret 0
  end.

Definition sys_mkdir : KM Z :=
  begin_op;;
  path ← argstr 0 MAXPATH;
  make_node path T_DIR 0 0.

Definition sys_mknod : KM Z :=
  begin_op;;
  major ← argint 1;
  minor ← argint 2;
  path ← argstr 0 MAXPATH;
  make_node path T_DEVICE (to_short major) (to_short minor).

Definition sys_chdir : KM Z :=
  i ← curproc;
  begin_op;;
  path ← argstr 0 MAXPATH;
  ip ← (if path.1 <? 0 then mret None else namei path.2);
  match ip with
  | None => end_op;; mret minus1
  | Some ip =>
      ilock (Some ip);;
      x ← geti ip;
      if negb (i_type x =? T_DIR) then iunlockput ip;; end_op;; mret minus1 else
      iunlock (Some ip);;
      p ← getp i;
      cwd ← deref (p_cwd p);
      iput cwd;;
      end_op;;
      updp i (set_p_cwd (Some ip));;
      mret 0
  end.

(** ** [exec] and [pipe] *)

(** The argument strings with the pages they are copied to; [false] after a
    [goto bad]. *)
Fixpoint fetch_args (fuel : nat) (i uargv : Z) : KM (list (Z * list Z) * bool) :=
  match fuel with
  | O => mret ([], false)
  | S fuel =>
      u ← fetchaddr (wrap64 (uargv + 8 * i));
      match u with
      | None => mret ([], false)
      | Some uarg =>
          if uarg =? 0 then mret ([], true) else
          page ← kalloc;
          if page =? 0 then mret ([], false) else
          s ← fetchstr uarg (Z.to_nat PGSIZE);
          write_mem page (s.2 ++ if s.1 <? 0 then [] else [0]);;
          if s.1 <? 0 then mret ([(page, [])], false) else
          r ← fetch_args fuel (i + 1) uargv;
          mret ((page, s.2) :: r.1, r.2)
      end
  end.

Definition sys_exec : KM Z :=
  uargv ← argaddr 1;
  path ← argstr 0 MAXPATH;
  if path.1 <? 0 then mret minus1 else
  r ← fetch_args MAXARG 0 uargv;
  let '(args, ok) := r in
  ret ← (if (ok : bool) then kexec path.2 (snd <$> args) else mret (-1));
  for_each args (fun a => kfree a.1);;
  mret (wrap64 ret).

Definition sys_pipe : KM Z :=
  i ← curproc;
  fdarray ← argaddr 0;
  r ← pipealloc;
  match r with
  | None => mret minus1
  | Some (rf, wf) =>
      fd0 ← fdalloc rf;
      match fd0 with
      | None => fileclose rf;; fileclose wf;; mret minus1
      | Some fd0 =>
          fd1 ← fdalloc wf;
          match fd1 with
          | None =>
              set_ofile i fd0 None;;
              fileclose rf;;
              fileclose wf;;
              mret minus1
          | Some fd1 =>
              p ← getp i;
              r ← copyout (p_pagetable p) fdarray (le_bytes 4 (Z.of_nat fd0));
              r ← (if r <? 0 then mret r
                   else copyout (p_pagetable p) (wrap64 (fdarray + 4)) (le_bytes 4 (Z.of_nat fd1)));
              if r <? 0 then
                set_ofile i fd0 None;;
                set_ofile i fd1 None;;
                fileclose rf;;
                fileclose wf;;
                mret minus1
              else mret 0
          end
      end
  end.

End sysfile.
