(* ===== verification/Trap.v ===== *)
(** * Traps ([syscall.c], [trap.c], [forkret] of [proc.c])

    The system-call table, the handlers for traps from user and from kernel
    code, the clock, and the first return of a process to user space. *)

From stdpp Require Import base gmap strings numbers list.
From S2P Require Import Prelude State Spinlock Strings Printf Bytes Memory Kalloc Vm Proc Sched Deadlock.
From S2P Require Import Sleeplock Quiet Bio Log Uio Fs Devices Virtio Pipe File Process Exec Sysproc Sysfile.

(** ** Control registers *)

Definition SSTATUS_SPP : Z := Z.shiftl 1 8.
Definition SSTATUS_SPIE : Z := Z.shiftl 1 5.

Definition getcsr {A} (f : csrs -> A) : KM A := gets (fun s => f (k_csr s)).
Definition updcsr (f : csrs -> csrs) : KM unit := modify (fun s => set_k_csr (f (k_csr s)) s).

Definition trapinit : KM unit := initlock LTicks "time".

Definition clockintr : KM unit :=
  c ← cpuid;
  when (c =? 0)%nat
    (acquire LTicks;;
     modify (fun s => set_k_ticks (wrap32 (k_ticks s + 1)) s);;
     wakeup (Some ChTicks);;
     release LTicks);;
  me ← myproc;
  match me with
  | None => mret tt
  | Some p =>
      acquire (LProc p);;
      updp p (fun q => set_p_energy_consumed (wrap64 (p_energy_consumed q + ENERGY_PER_TICK)) q);;
      q ← getp p;
      (if ENERGY_PER_TICK <=? p_energy_budget q
       then updp p (set_p_energy_budget (p_energy_budget q - ENERGY_PER_TICK))
       else updp p (set_p_energy_budget 0));;
      updp p (fun q => set_p_last_scheduled_tick (wrap64 (p_last_scheduled_tick q + 1)) q);;
      release (LProc p)
  end;;
  t ← r_time;
  i ← gets k_timer_interval;
  w_stimecmp (wrap64 (t + i)).

Section trap.
Context {W : World} {D : Disk} {T : Patience} {M : Mmio} {K : Stack} {I : Image}.

Definition trapinithart : KM unit := updcsr (set_r_stvec sym_kernelvec).

(** ** System calls *)

(** The table of system calls, by number. *)
Definition syscalls (num : Z) : option (KM Z) :=
  match num with
  | 1 => Some sys_fork | 2 => Some sys_exit | 3 => Some sys_wait | 4 => Some sys_pipe
  | 5 => Some sys_read | 6 => Some sys_kill | 7 => Some sys_exec | 8 => Some sys_fstat
  | 9 => Some sys_chdir | 10 => Some sys_dup | 11 => Some sys_getpid | 12 => Some sys_sbrk
  | 13 => Some sys_pause | 14 => Some sys_uptime | 15 => Some sys_open | 16 => Some sys_write
  | 17 => Some sys_mknod | 18 => Some sys_unlink | 19 => Some sys_link | 20 => Some sys_mkdir
  | 21 => Some sys_close | 22 => Some sys_kps | 23 => Some sys_getenergy
  | 24 => Some sys_dlockacq | 25 => Some sys_dlockrel | 26 => Some sys_check_deadlock
  | _ => None
  end.

Definition syscall : KM unit :=
  p ← curproc;
  a7 ← tf_get p (tf_a 7);
  let num := to_int a7 in
  match syscalls num with
  | Some f => r ← f; tf_set p (tf_a 0) r
  | None =>
      q ← getp p;
      printf "%d %s: unknown sys call %d
" [PInt (p_pid q); name_str q; PInt num];;
      tf_set p (tf_a 0) minus1
  end.

(** ** Interrupts *)

Definition devintr : KM Z :=
  scause ← getcsr r_scause;
  if scause =? 0x8000000000000009 then
    irq ← plic_claim;
    (if irq =? UART0_IRQ then uartintr
     else if irq =? VIRTIO0_IRQ then virtio_disk_intr
     else if negb (irq =? 0) then printf "unexpected interrupt irq=%d
" [PInt irq]
     else mret tt);;
    when (negb (irq =? 0)) (plic_complete irq);;
    mret 1
  else if scause =? 0x8000000000000005 then clockintr;; mret 2
  else mret 0.

(** [kerneltrap] panics on traps it does not know; otherwise the interrupted
    code goes on. The [sstatus] restored at the end has the interrupt-enable
    bit clear, as it was found. *)
Definition kerneltrap : KM unit :=
  sepc ← getcsr r_sepc;
  sstatus ← getcsr r_sstatus;
  scause ← getcsr r_scause;
  if negb (has sstatus SSTATUS_SPP) then panic "kerneltrap: not from supervisor mode" else
  i ← intr_get;
  if (i : bool) then panic "kerneltrap: interrupts enabled" else
  which_dev ← devintr;
  if which_dev =? 0 then
    sepc' ← getcsr r_sepc;
    stval ← getcsr r_stval;
    printf "scause=0x%lx sepc=0x%lx stval=0x%lx
" [PInt scause; PInt sepc'; PInt stval];;
    panic "kerneltrap"
  else
  (if which_dev =? 2 then
     me ← myproc;
     when (bool_decide (me <> None)) yield
   else mret tt);;
  updcsr (set_r_sepc sepc);;
  updcsr (set_r_sstatus sstatus);;
  intr_off.

(** ** Returning to user space *)

Definition prepare_return : KM unit :=
  p ← curproc;
  intr_off;;
  updcsr (set_r_stvec (TRAMPOLINE + (sym_uservec - sym_trampoline)));;
  satp ← getcsr r_satp;
  tf_set p tf_kernel_satp satp;;
  q ← getp p;
  tf_set p tf_kernel_sp (wrap64 (p_kstack q + PGSIZE));;
  tf_set p tf_kernel_trap sym_usertrap;;
  hart ← cpuid;
  tf_set p tf_kernel_hartid (Z.of_nat hart);;
  x ← getcsr r_sstatus;
  updcsr (set_r_sstatus (Z.lor (Z.land x (Z.lnot SSTATUS_SPP)) SSTATUS_SPIE));;
  epc ← tf_get p tf_epc;
  updcsr (set_r_sepc epc).

(** The causes of a trap from user space other than a system call: the
    device, 0 after a page fault that was repaired or a trap that kills. *)
Definition other_trap (p : nat) : KM Z :=
  which_dev ← devintr;
  if negb (which_dev =? 0) then mret which_dev else
  scause ← getcsr r_scause;
  stval ← getcsr r_stval;
  q ← getp p;
  ok ← (if (scause =? 15) || (scause =? 13)
        then pa ← vmfault (p_pagetable q) stval (scause =? 13); mret (negb (pa =? 0)) else mret false);
  if (ok : bool) then mret 0 else
  q ← getp p;
  printf "usertrap(): unexpected scause 0x%lx pid=%d
" [PInt scause; PInt (p_pid q)];;
  sepc ← getcsr r_sepc;
  printf "            sepc=0x%lx stval=0x%lx
" [PInt sepc; PInt stval];;
  setkilled p;;
  mret 0.

(** The accounting of [usertrap] on a timer interrupt, and all it does then. *)
Definition charge_tick (p : nat) : KM unit :=
  updp p (fun q => set_p_energy_consumed (wrap64 (p_energy_consumed q + ENERGY_PER_TICK)) q);;
  q ← getp p;
  when (0 <? p_energy_budget q) (updp p (set_p_energy_budget (p_energy_budget q - ENERGY_PER_TICK)));;
  updp p (fun q => set_p_last_scheduled_tick (wrap64 (p_last_scheduled_tick q + 1)) q).

Definition timer_tick (p : nat) : KM unit :=
  charge_tick p;;
  acquire LTicks;;
  current_ticks ← gets k_ticks;
  release LTicks;;
  when (current_ticks mod DEADLOCK_CHECK_INTERVAL =? 0) deadlock_recover;;
  yield.

Definition usertrap : KM Z :=
  sstatus ← getcsr r_sstatus;
  if has sstatus SSTATUS_SPP then panic "usertrap: not from user mode" else
  updcsr (set_r_stvec sym_kernelvec);;
  p ← curproc;
  sepc ← getcsr r_sepc;
  tf_set p tf_epc sepc;;
  scause ← getcsr r_scause;
  which_dev ← (if scause =? 8 then
    k ← killed p;
    (if (k : bool) then kexit (-1) else mret tt);;
    epc ← tf_get p tf_epc;
    tf_set p tf_epc (wrap64 (epc + 4));;
    intr_on;;
    syscall;;
    mret 0
  else other_trap p);
  k ← killed p;
  (if (k : bool) then kexit (-1) else mret tt);;
  when (which_dev =? 2) (timer_tick p);;
  prepare_return;;
  q ← getp p;
  mret (MAKE_SATP (p_pagetable q)).

(** [forkret]: the value of [satp] it enters user space with. *)
Definition forkret : KM Z :=
  p ← curproc;
  release (LProc p);;
  first ← gets k_first;
  when first
    (fsinit ROOTDEV;;
     modify (set_k_first false);;
     r ← kexec (bytes_of "/init") [bytes_of "/init"];
     tf_set p (tf_a 0) r;;
     a0 ← tf_get p (tf_a 0);
     if a0 =? minus1 then panic "exec" else mret tt);;
  prepare_return;;
  q ← getp p;
  mret (MAKE_SATP (p_pagetable q)).

End trap.
