(* ===== verification/TrapSpec.v ===== *)
(** * The clock and the accounting of energy

    What a timer interrupt does, in full, and what [usertrap] and [kerneltrap]
    have charged to the process when they give up the CPU. *)

From stdpp Require Import base gmap strings numbers list.
From S2P Require Import Prelude State Spinlock Strings Printf Bytes Memory Kalloc Vm Proc Sched Deadlock.
From S2P Require Import Sleeplock Quiet Bio Log Uio Fs Devices Virtio Pipe File Process Exec Sysproc Sysfile.
From S2P Require Import Trap.

(** One tick of energy: the budget runs down to 0 and stays there. *)
Definition charge (q : proc) : proc :=
  set_p_last_scheduled_tick (wrap64 (p_last_scheduled_tick q + 1))
    (set_p_energy_budget (Z.max 0 (p_energy_budget q - ENERGY_PER_TICK))
       (set_p_energy_consumed (wrap64 (p_energy_consumed q + ENERGY_PER_TICK)) q)).

(** The clock of hart 0: the tick is counted and sleepers on [ticks] woken. *)
Definition ticked (s : kst) : kst :=
  if (y_hart (k_sync s) =? 0)%nat then
    upd_procs (imap (wake_others (Some ChTicks) (running (k_sync s)))) (set_k_ticks (wrap32 (k_ticks s + 1)) s)
  else s.

(** The process running on this CPU is charged. *)
Definition charged (s : kst) : kst :=
  match running (k_sync s) with Some p => upd_procs (alter charge p) s | None => s end.

Definition rearmed (s : kst) : kst := set_k_stimecmp (wrap64 (k_time s + k_timer_interval s)) s.

Lemma list_alter_insert {A} (f : A -> A) i (l : list A) x : l !! i = Some x -> alter f i l = <[i := f x]> l.
Proof.
  intros Hx. apply list_eq. intros j. destruct (decide (i = j)) as [<-|].
  - rewrite list_lookup_alter_eq, list_lookup_insert_eq by by eapply lookup_lt_Some. by rewrite Hx.
  - by rewrite list_lookup_alter_ne, list_lookup_insert_ne.
Qed.

(** The state [s] with process [p] replaced. *)
Definition at_proc (p : nat) (q : proc) (s : kst) : kst := set_k_procs (<[p := q]> (k_procs s)) s.

Lemma wp_updp_at p f q Q s :
  (p < length (k_procs s))%nat -> Q tt (at_proc p (f q) s) -> wp (updp p f) Q (at_proc p q s).
Proof.
  intros Hlt HQ. apply wp_updp; [cbn; by rewrite length_insert|]. same_state HQ.
  unfold at_proc, upd_procs, set_k_procs. cbn. f_equal.
  rewrite (list_alter_insert _ _ _ q) by by apply list_lookup_insert_eq. by rewrite list_insert_insert_eq.
Qed.

Lemma wp_getp_at p q Q s :
  (p < length (k_procs s))%nat -> Q q (at_proc p q s) -> wp (getp p) Q (at_proc p q s).
Proof. intros Hlt HQ. eapply wp_getp; [by apply list_lookup_insert_eq|done]. Qed.

Lemma at_proc_self p q s : k_procs s !! p = Some q -> at_proc p q s = s.
Proof. intros H. unfold at_proc. rewrite list_insert_id by done. by destruct s. Qed.

Lemma at_proc_alter p f q s : k_procs s !! p = Some q -> at_proc p (f q) s = upd_procs (alter f p) s.
Proof. intros H. unfold at_proc, upd_procs. by rewrite (list_alter_insert _ _ _ q). Qed.

Lemma wp_charge_tick p q Q s :
  k_procs s !! p = Some q -> 0 <= p_energy_budget q -> Q tt (upd_procs (alter charge p) s) -> wp (charge_tick p) Q s.
Proof.
  intros Hq Hb HQ. assert (Hlt := lookup_lt_Some _ _ _ Hq).
  rewrite <- (at_proc_alter _ _ q) in HQ by done. rewrite <- (at_proc_self p q s) by done.
  unfold charge_tick. apply wp_bind, wp_updp_at; [done|]. apply wp_bind, wp_getp_at; [done|].
  apply wp_bind, wp_when; cbn [p_energy_budget set_p_energy_consumed]; intros E.
  - apply Z.ltb_lt in E. apply wp_updp_at; [done|]. apply wp_updp_at; [done|]. same_state HQ. unfold charge, at_proc. cbn.
    cbn in E; rewrite Z.max_r by (unfold ENERGY_PER_TICK; lia). by destruct q.
  - apply Z.ltb_ge in E. apply wp_updp_at; [done|]. same_state HQ. unfold charge, at_proc.
    cbn in E. replace (Z.max 0 (p_energy_budget q - ENERGY_PER_TICK)) with (p_energy_budget q)
      by (unfold ENERGY_PER_TICK; lia). by destruct q.
Qed.

Lemma hart_acq l y : y_hart (acq l y) = y_hart y.
Proof. done. Qed.

(** The part of [clockintr] that counts the tick. *)
Lemma wp_tick Q s :
  sync_wf (k_sync s) -> table_ok s -> proc_locks_free (k_sync s) -> lock_free LTicks (k_sync s) ->
  Q tt (if (y_hart (k_sync s) =? 0)%nat then upd_sync touch (ticked s) else s) ->
  wp (when (y_hart (k_sync s) =? 0)%nat
    (acquire LTicks;;
     modify (fun s => set_k_ticks (wrap32 (k_ticks s + 1)) s);;
     wakeup (Some ChTicks);;
     release LTicks)) Q s.
Proof.
  intros Hwf Ht Hp Hl HQ. apply wp_when; intros E; rewrite E in HQ; [|done].
  apply wp_bind, wp_acquire; [done..|]. apply wp_bind, wp_modify. apply wp_bind.
  apply wp_wakeup; [by apply sync_wf_acq|done|by apply proc_locks_free_acq|].
  cbn [k_sync set_k_ticks upd_sync set_k_sync]. rewrite running_acq.
  eapply (wp_release_acq LTicks (k_sync s)); [done|done|cbn; by apply touch_acq|].
  same_state HQ. unfold ticked. rewrite E. unfold upd_sync, upd_procs. cbn. kst_eq.
Qed.

Lemma ticked_sync s : k_sync (ticked s) = k_sync s.
Proof. unfold ticked. by case_match. Qed.

Lemma ticked_procs_length s : length (k_procs (ticked s)) = length (k_procs s).
Proof. unfold ticked. case_match; [|done]. cbn. by rewrite length_imap. Qed.

(** [if(p->energy_budget >= ENERGY_PER_TICK) ... else ...] of [clockintr] *)
Lemma wp_spend p q Q s :
  (p < length (k_procs s))%nat ->
  Q tt (at_proc p (set_p_energy_budget (Z.max 0 (p_energy_budget q - ENERGY_PER_TICK)) q) s) ->
  wp (if ENERGY_PER_TICK <=? p_energy_budget q
      then updp p (set_p_energy_budget (p_energy_budget q - ENERGY_PER_TICK))
      else updp p (set_p_energy_budget 0)) Q (at_proc p q s).
Proof.
  intros Hlt HQ. unfold ENERGY_PER_TICK in *.
  destruct (Z.leb_spec 1 (p_energy_budget q)); apply wp_updp_at; try done; same_state HQ; do 2 f_equal; lia.
Qed.

(** The whole of [clockintr]. *)
Lemma wp_clockintr Q s :
  sync_wf (k_sync s) -> table_ok s -> proc_locks_free (k_sync s) -> lock_free LTicks (k_sync s) ->
  (forall p, running (k_sync s) = Some p -> exists q, k_procs s !! p = Some q /\ 0 <= p_energy_budget q) ->
  Q tt (rearmed (upd_sync touch (charged (ticked s)))) -> wp clockintr Q s.
Proof.
  intros Hwf Ht Hp Hl Hme HQ. unfold clockintr, cpuid. apply wp_bind, wp_gets.
  apply wp_bind, wp_tick; [done..|]. apply wp_bind.
  set (s1 := if (_ =? 0)%nat then _ else _).
  assert (H1 : upd_sync touch s1 = upd_sync touch (ticked s)).
  { unfold s1, ticked. case_match; [|done]. unfold upd_sync. cbn. by rewrite touch_idem. }
  assert (Hy1 : touch (k_sync s) = touch (k_sync s1)).
  { apply (f_equal k_sync) in H1. cbn in H1. by rewrite ticked_sync in H1. }
  assert (Hr : running (k_sync s1) = running (k_sync s)) by by rewrite <- running_touch, <- Hy1, running_touch.
  apply wp_myproc'; [by eapply touch_sync_wf|]. rewrite Hr, H1.
  assert (Hend : forall t, t = upd_sync touch (charged (ticked s)) ->
    wp (t ← r_time; i ← gets k_timer_interval; w_stimecmp (wrap64 (t + i))) Q t).
  { intros t ->. apply wp_bind, wp_gets, wp_bind, wp_gets, wp_modify. exact HQ. }
  destruct (running (k_sync s)) as [p|] eqn:Er.
  2: { apply wp_bind, wp_ret, Hend. unfold charged. by rewrite ticked_sync, Er. }
  destruct (Hme p eq_refl) as (q & Hq & Hb).
  assert (Hq' : exists q', k_procs (ticked s) !! p = Some q' /\ 0 <= p_energy_budget q').
  { unfold ticked. case_match; [|by eauto]. cbn. rewrite list_lookup_imap, Hq. eexists. split; [done|].
    unfold wake_others. rewrite Er, bool_decide_true by done. done. }
  destruct Hq' as (q' & Hq' & Hb'). set (t := upd_sync touch (ticked s)).
  assert (Hlt : (p < length (k_procs t))%nat) by by eapply lookup_lt_Some.
  apply wp_bind, wp_bind, wp_acquire; cbn; rewrite ?ticked_sync.
  { by apply sync_wf_touch. }
  { apply (touch_lock_free _ (k_sync s)); [by rewrite touch_idem|]. apply Hp.
    unfold table_ok in Ht. rewrite <- Ht. by eapply lookup_lt_Some. }
  set (t' := upd_sync (acq (LProc p)) t).
  rewrite <- (at_proc_self p q' t') by done. apply wp_bind, wp_updp_at; [done|].
  apply wp_bind, wp_getp_at; [done|]. apply wp_bind, wp_spend; [done|].
  apply wp_bind, wp_updp_at; [done|].
  eapply (wp_release_acq (LProc p) (touch (k_sync s))).
  { by apply sync_wf_touch. }
  { apply (touch_lock_free _ (k_sync s)); [by rewrite touch_idem|]. apply Hp.
    unfold table_ok in Ht. rewrite <- Ht. by eapply lookup_lt_Some. }
  { cbn. by rewrite ticked_sync. }
  apply Hend. unfold charged. rewrite ticked_sync, Er. rewrite <- (at_proc_alter _ _ q') by done.
  unfold at_proc, t', t, upd_sync, charge. cbn. rewrite ticked_sync, touch_idem. kst_eq.
Qed.

(** ** Properties *)

(** A clock interrupt on a hart at rest: hart 0 counts the tick (modulo
    2^32) and wakes exactly the processes asleep on [ticks]; the process
    running on the hart, if any, is charged one unit (its budget does not go
    below 0); the timer is set to go off [timer_interval] cycles from now; and
    nothing else changes. *)
Theorem clockintr_spec (s : kst) (Hwf : sync_wf (k_sync s)) (Ht : table_ok s)
    (Hp : proc_locks_free (k_sync s)) (Hl : lock_free LTicks (k_sync s))
    (Hme : forall p, running (k_sync s) = Some p -> exists q, k_procs s !! p = Some q /\ 0 <= p_energy_budget q) :
  clockintr s = Ok tt (rearmed (upd_sync touch (charged (ticked s)))).
Proof. by apply wp_run, wp_clockintr. Qed.

(** ** What a tick is charged *)

(** The account of a process, and what [n] ticks make of it. *)
Definition account (q : proc) : Z * Z * Z := (p_energy_consumed q, p_energy_budget q, p_last_scheduled_tick q).

Definition billed (n : Z) (q : proc) : Z * Z * Z :=
  (wrap64 (p_energy_consumed q + n * ENERGY_PER_TICK), Z.max 0 (p_energy_budget q - n * ENERGY_PER_TICK),
   wrap64 (p_last_scheduled_tick q + n)).

(** Process [p] pays for [n] ticks, every other for none. *)
Definition pays (n : Z) (p : nat) (l l' : list proc) : Prop :=
  forall j r, l !! j = Some r -> exists r', l' !! j = Some r' /\ account r' = if decide (j = p) then billed n r else account r.

Lemma charge_once q : account (charge q) = billed 1 q.
Proof. unfold account, billed, charge. cbn. do 2 f_equal. Qed.

Lemma charge_twice q : account (charge (charge q)) = billed 2 q.
Proof.
  unfold account, billed, charge. cbv beta iota delta [p_energy_consumed p_energy_budget p_last_scheduled_tick
    set_p_energy_consumed set_p_energy_budget set_p_last_scheduled_tick ENERGY_PER_TICK wrap64].
  rewrite !Zplus_mod_idemp_l. f_equal; [f_equal; [f_equal; lia|lia]|f_equal; lia].
Qed.

(** An update that leaves the accounts alone. *)
Lemma pays_alter n p i f l l' : (forall q, account (f q) = account q) -> pays n p l l' -> pays n p l (alter f i l').
Proof.
  intros Hf H j r Hr. destruct (H j r Hr) as (r' & Hr' & E). destruct (decide (i = j)) as [<-|Hne].
  - rewrite list_lookup_alter_eq, Hr'. eexists. split; [done|]. by rewrite Hf.
  - rewrite list_lookup_alter_ne by done. by exists r'.
Qed.

Lemma account_wake c me j q : account (wake_others c me j q) = account q.
Proof. unfold wake_others, wake. by repeat case_match. Qed.

Lemma account_recovered q : account (recovered q) = account q.
Proof. unfold recovered. by case_match. Qed.

(** The resources are not concerned. *)
Lemma res_ok_alter f i l :
  (forall q, p_holding_res (f q) = p_holding_res q /\ p_waiting_res (f q) = p_waiting_res q) -> res_ok l -> res_ok (alter f i l).
Proof.
  unfold res_ok. rewrite !Forall_lookup. intros Hf H j q Hq. destruct (decide (i = j)) as [<-|Hne].
  - rewrite list_lookup_alter_eq in Hq. destruct (l !! i) as [r|] eqn:Er; [|done]. cbn in Hq. injection Hq as <-.
    destruct (Hf r) as [-> ->]. by eapply H.
  - rewrite list_lookup_alter_ne in Hq by done. by eapply H.
Qed.

Lemma res_ok_ticked s : res_ok (k_procs s) -> res_ok (k_procs (ticked s)).
Proof.
  intros H. unfold ticked. case_match; [|done]. unfold res_ok in *. rewrite Forall_lookup in *. cbn. intros j q Hq.
  rewrite list_lookup_imap in Hq. destruct (k_procs s !! j) as [r|] eqn:Er; [|done]. cbn in Hq. injection Hq as <-.
  specialize (H j r Er). unfold wake_others, wake. by repeat case_match.
Qed.

Lemma quiet_same p s s' :
  quiet p s -> touch (k_sync s) = touch (k_sync s') -> length (k_procs s') = length (k_procs s) ->
  k_panicking s' = k_panicking s -> k_panicked s' = k_panicked s -> quiet p s'.
Proof.
  intros [H1 H2 H3 H4 H5 H6] Ht Hl Hp Hd. split; [by eapply on_cpu_touch|by unfold table_ok; rewrite Hl|done| | |].
  - by eapply touch_proc_locks_free.
  - intros l Hfl. eapply touch_lock_free; [done|]. by apply H5.
  - unfold calm. by rewrite Hp, Hd.
Qed.

Lemma quiet_touch p s : quiet p s -> quiet p (upd_sync touch s).
Proof. intros H. apply (quiet_same p s); [done|by unfold upd_sync; cbn [k_sync set_k_sync]; rewrite touch_idem|done..]. Qed.

(** The state after [clockintr], for a process that runs. *)
Definition clocked (s : kst) : kst := rearmed (upd_sync touch (charged (ticked s))).

Lemma clocked_procs p s : running (k_sync s) = Some p -> k_procs (clocked s) = alter charge p (k_procs (ticked s)).
Proof. intros Hr. unfold clocked, charged. by rewrite ticked_sync, Hr. Qed.

Lemma clocked_misc s :
  k_sync (clocked s) = touch (k_sync s) /\ k_panicking (clocked s) = k_panicking s /\ k_panicked (clocked s) = k_panicked s /\
  k_csr (clocked s) = k_csr s.
Proof. unfold clocked, charged, ticked. by repeat case_match. Qed.

Lemma clocked_quiet p s : quiet p s -> quiet p (clocked s).
Proof.
  intros Hs. destruct (clocked_misc s) as (E1 & E2 & E3 & _). eapply quiet_same; [exact Hs|by rewrite E1, touch_idem| |done|done].
  by rewrite (clocked_procs p), length_alter, ticked_procs_length by by apply quiet_running.
Qed.

Lemma clocked_me p q s : quiet p s -> k_procs s !! p = Some q -> k_procs (clocked s) !! p = Some (charge q).
Proof.
  intros Hs Hq. assert (Hrun := quiet_running _ _ Hs). rewrite (clocked_procs p), list_lookup_alter_eq by done. unfold ticked.
  case_match; cbn; [|by rewrite Hq]. rewrite list_lookup_imap, Hq. cbn. do 2 f_equal.
  unfold wake_others. by rewrite Hrun, bool_decide_true.
Qed.

Lemma clocked_pays p s : quiet p s -> pays 1 p (k_procs s) (k_procs (clocked s)).
Proof.
  intros Hs j r Hr. destruct (decide (j = p)) as [->|Hne].
  { exists (charge r). split; [by apply clocked_me|]. apply charge_once. }
  rewrite (clocked_procs p), list_lookup_alter_ne by (done || by apply quiet_running). unfold ticked.
  case_match; [|by exists r]. cbn. rewrite list_lookup_imap, Hr. eexists. split; [done|]. apply account_wake.
Qed.

Lemma wp_clockintr_q p q Q s :
  quiet p s -> k_procs s !! p = Some q -> 0 <= p_energy_budget q -> Q tt (clocked s) -> wp clockintr Q s.
Proof.
  intros Hs Hq Hb HQ. apply wp_clockintr; [by eapply quiet_wf|by eapply q_tab|by eapply q_procs|
    by apply (q_locks _ _ Hs), fl_ticks| |done].
  rewrite (quiet_running p) by done. intros p' [= <-]. eauto.
Qed.

Section ticks.
Context {W : World} {D : Disk} {T : Patience} {M : Mmio} {K : Stack} {I : Image}.

Lemma wp_timer_devintr p q Q s :
  quiet p s -> k_procs s !! p = Some q -> 0 <= p_energy_budget q -> r_scause (k_csr s) = 0x8000000000000005 ->
  Q 2 (clocked s) -> wp devintr Q s.
Proof.
  intros Hs Hq Hb Hc HQ. unfold devintr. apply wp_bind, wp_gets. rewrite Hc. cbn [Z.eqb Pos.eqb].
  apply wp_bind. eapply wp_clockintr_q; [done..|]. by apply wp_ret.
Qed.

(** The accounting of [usertrap] and the check for deadlocks, up to the
    [yield]. *)
Lemma timer_tick_reaches {A} p q (k : KM A) (Q : kst -> Prop) s :
  quiet p s -> k_procs s !! p = Some q -> 0 <= p_energy_budget q -> res_ok (k_procs s) ->
  (forall t f v, quiet p t -> (forall r, account (f r) = account r) ->
     k_procs t = alter f v (alter charge p (k_procs s)) -> Q t) ->
  reaches (timer_tick p;; k) (yield;; k) Q s.
Proof.
  intros Hs Hq Hb Hres HQ. unfold timer_tick. apply reaches_assoc, reaches_bind.
  eapply wp_charge_tick; [done..|]. set (s1 := upd_procs (alter charge p) s).
  assert (Hs1 : quiet p s1) by (eapply quiet_same; [exact Hs|done|by cbn; rewrite length_alter|done|done]).
  apply reaches_assoc, reaches_bind, wp_acquire; [by eapply quiet_wf|apply (q_locks _ _ Hs1), fl_ticks|].
  apply reaches_assoc, reaches_bind, wp_gets. apply reaches_assoc, reaches_bind.
  eapply (wp_release_acq LTicks (k_sync s1)); [by eapply quiet_wf|apply (q_locks _ _ Hs1), fl_ticks|done|].
  set (s2 := set_k_sync _ _).
  assert (Hs2 : quiet p s2) by (eapply quiet_same; [exact Hs1|cbn; by rewrite touch_idem|done|done|done]).
  assert (Hres2 : res_ok (k_procs s2)) by (apply (res_ok_alter charge p); done).
  assert (Hid : Q s2).
  { apply (HQ s2 id 0%nat); [done|done|]. by rewrite list_alter_id. }
  apply reaches_assoc, reaches_bind, wp_when; intros _; [|by apply reaches_here].
  apply wp_bind, wp_check_deadlock; [by eapply quiet_print|by eapply q_tab|by eapply q_procs|done| |].
  - intros _. by apply wp_ret, reaches_here.
  - intros l v pv t _ _ _ [out ->]. apply wp_ret, reaches_here. apply (HQ _ recovered v); [|apply account_recovered|done].
    eapply quiet_same; [exact Hs2|cbn; by rewrite !touch_idem|by cbn; rewrite !length_alter|done|done].
Qed.

End ticks.

(** C30: A timer interrupt that arrives while a process runs user code is charged
    to it twice: [usertrap], from a state in which the process was running
    user code undisturbed and is not killed, comes to its [yield] with two
    ticks on the account of the process (energy used, budget, tick counter),
    one from [clockintr] and one of its own, and with the accounts of all
    other processes as they were. The same interrupt in kernel code is charged
    once: [kerneltrap] comes to its [yield] with one tick on the account. *)
Theorem user_tick_charges_twice {W : World} {D : Disk} {T : Patience} {M : Mmio} {K : Stack} {I : Image}
    (p : nat) (q : proc) (s : kst) (Hs : quiet p s) (Hq : k_procs s !! p = Some q) (Hb : 0 <= p_energy_budget q)
    (Hc : r_scause (k_csr s) = 0x8000000000000005) (Hres : res_ok (k_procs s))
    (Htf : p_trapframe q <> 0) (Hk : p_killed q = false) :
  (has (r_sstatus (k_csr s)) SSTATUS_SPP = false ->
   reaches usertrap (yield;; prepare_return;; r ← getp p; mret (MAKE_SATP (p_pagetable r)))
     (fun s' => quiet p s' /\ pays 2 p (k_procs s) (k_procs s')) s) /\
  (has (r_sstatus (k_csr s)) SSTATUS_SPP = true -> (forall c, cur_cpu (k_sync s) = Some c -> c_sie c = false) ->
   reaches kerneltrap
     (yield;; updcsr (set_r_sepc (r_sepc (k_csr s)));; updcsr (set_r_sstatus (r_sstatus (k_csr s)));; intr_off)
     (fun s' => quiet p s' /\ pays 1 p (k_procs s) (k_procs s')) s).
Proof.
  assert (Hrun := quiet_running _ _ Hs). split.
  - intros Hspp. unfold usertrap. apply reaches_bind, wp_gets. rewrite Hspp. apply reaches_bind, wp_modify.
    set (s1 := set_k_csr _ s). assert (Hs1 : quiet p s1) by by (eapply (quiet_same p s); done).
    apply reaches_bind. apply wp_bind, wp_myproc'; [by eapply quiet_wf|]. rewrite (quiet_running p s1) by done.
    apply wp_deref with (a := p); [done|]. apply reaches_bind, wp_gets. apply reaches_bind.
    apply wp_bind. eapply wp_getp; [exact Hq|]. rewrite (proj2 (Z.eqb_neq _ _) Htf). apply wp_modify.
    set (s2 := set_k_mem _ _).
    assert (Hs2 : quiet p s2) by (eapply (quiet_same p s); [done|cbn; by rewrite touch_idem|done|done|done]).
    assert (Hc2 : r_scause (k_csr s2) = 0x8000000000000005) by exact Hc.
    apply reaches_bind, wp_gets. rewrite Hc2. cbn [Z.eqb Pos.eqb].
    apply reaches_bind. unfold other_trap. apply wp_bind.
    eapply wp_timer_devintr; [exact Hs2|exact Hq|done|done|]. cbn [Z.eqb Pos.eqb negb]. apply wp_ret.
    assert (Hs3 := clocked_quiet _ _ Hs2). assert (Hq3 := clocked_me _ _ _ Hs2 Hq).
    apply reaches_bind. eapply wp_killed; [by eapply quiet_wf|by apply (q_procs _ _ Hs3), (q_me _ _ Hs3)|exact Hq3|].
    change (p_killed (charge q)) with (p_killed q). rewrite Hk. apply reaches_bind, wp_ret. cbn [Z.eqb Pos.eqb when].
    apply (timer_tick_reaches p (charge q)).
    + by apply quiet_touch.
    + exact Hq3.
    + cbn. lia.
    + cbn [k_procs upd_sync set_k_sync]. rewrite (clocked_procs p) by by apply quiet_running.
      apply res_ok_alter; [done|]. by apply res_ok_ticked.
    + intros t f v Ht Hf E. split; [done|]. rewrite E. apply pays_alter; [done|]. cbn [k_procs upd_sync set_k_sync].
      intros j r Hr. destruct (clocked_pays p s2 Hs2 j r Hr) as (r' & Hr' & Er). destruct (decide (j = p)) as [->|Hne].
      * rewrite list_lookup_alter_eq. rewrite (clocked_me p r) by done. eexists. split; [done|]. apply charge_twice.
      * rewrite list_lookup_alter_ne by done. by exists r'.
  - intros Hspp Hoff. unfold kerneltrap. do 3 apply reaches_bind, wp_gets. rewrite Hspp. cbn [negb].
    destruct (quiet_wf _ _ Hs) as (c & Hcpu & _). apply reaches_bind. eapply wp_intr_get; [done|]. rewrite (Hoff c) by done.
    apply reaches_bind. eapply wp_timer_devintr; [done..|]. cbn [Z.eqb Pos.eqb]. assert (Hs3 := clocked_quiet _ _ Hs).
    apply reaches_assoc, reaches_bind, wp_myproc'; [by eapply quiet_wf|]. rewrite (quiet_running p) by done.
    rewrite bool_decide_true by done. cbn [when]. apply reaches_here. split; [by apply quiet_touch|by apply clocked_pays].
Qed.
