(* ===== verification/Asm.v ===== *)
(** * The assembly routines ([trampoline.S], [swtch.S], [kernelvec.S], [entry.S])

    A hart with the registers and instructions these routines use, and the
    routines as lists of those instructions, line by line. Loads, stores and
    instruction fetches go through the page table that [satp] names, since the
    trampoline switches page tables while it runs. *)

From stdpp Require Import base gmap strings numbers list.
From S2P Require Import Prelude State Strings Memory Kalloc Vm PageTable Process.

(** ** The hart *)

Inductive reg : Type :=
  RA | SP | GP | TP | T0 | T1 | T2 | S0 | S1 | A0 | A1 | A2 | A3 | A4 | A5 | A6 | A7
| S2 | S3 | S4 | S5 | S6 | S7 | S8 | S9 | S10 | S11 | T3 | T4 | T5 | T6.

#[global] Instance reg_eq_dec : EqDecision reg.
Proof. solve_decision. Defined.

Inductive csr : Type := SSCRATCH | SATP | SSTATUS | SEPC | MHARTID.

#[global] Instance csr_eq_dec : EqDecision csr.
Proof. solve_decision. Defined.

Record hart : Type := mkhart {
  h_reg : reg -> Z;
  h_csr : csr -> Z;
  h_pc : Z;
  h_user : bool;
  h_mem : mem
}.

Definition set_reg (r : reg) (v : Z) (h : hart) : hart :=
  mkhart (fun x => if decide (x = r) then v else h_reg h x) (h_csr h) (h_pc h) (h_user h) (h_mem h).
Definition set_csr (c : csr) (v : Z) (h : hart) : hart :=
  mkhart (h_reg h) (fun x => if decide (x = c) then v else h_csr h x) (h_pc h) (h_user h) (h_mem h).
Definition set_pc (v : Z) (h : hart) : hart := mkhart (h_reg h) (h_csr h) v (h_user h) (h_mem h).
Definition set_user (b : bool) (h : hart) : hart := mkhart (h_reg h) (h_csr h) (h_pc h) b (h_mem h).
Definition set_mem (m : mem) (h : hart) : hart := mkhart (h_reg h) (h_csr h) (h_pc h) (h_user h) m.

(** The physical address supervisor code reaches at [va], for an access that
    needs the permission [need]: [satp] 0 is no translation, otherwise it
    holds the number of the root page in its lower 44 bits. *)
Definition satp_root (satp : Z) : Z := Z.shiftl (Z.land satp (Z.ones 44)) 12.

Definition translate (m : mem) (satp need va : Z) : option Z :=
  if Z.shiftr satp 60 =? 0 then Some va else
  if negb ((0 <=? va) && (va <? MAXVA)) then None else
  pte ← leaf m (satp_root satp) va;
  if has pte need && negb (has pte PTE_U) then Some (PTE2PA pte + va mod PGSIZE) else None.

(** Aligned doublewords. *)
Definition load (h : hart) (va : Z) : option Z :=
  if negb (va mod 8 =? 0) then None else
  pa ← translate (h_mem h) (h_csr h SATP) PTE_R va; Some (ld64 (h_mem h) pa).
Definition store (h : hart) (va v : Z) : option hart :=
  if negb (va mod 8 =? 0) then None else
  pa ← translate (h_mem h) (h_csr h SATP) PTE_W va; Some (set_mem (st64 (h_mem h) pa v) h).

(** The bits of [sstatus] that a trap and [sret] move. *)
Definition STATUS_SIE : nat := 1.
Definition STATUS_SPIE : nat := 5.
Definition STATUS_SPP : nat := 8.

Definition set_bit (x : Z) (n : nat) (b : bool) : Z := if b then Z.setbit x (Z.of_nat n) else Z.clearbit x (Z.of_nat n).

(** ** Instructions *)

Inductive instr : Type :=
| Sd (src : reg) (off : Z) (base : reg)
| Ld (dst : reg) (off : Z) (base : reg)
| Li (dst : reg) (v : Z)
| Addi (dst src : reg) (v : Z)
| Add (dst x y : reg)
| Mul (dst x y : reg)
| Csrr (dst : reg) (c : csr)
| Csrw (c : csr) (src : reg)
| Sfence
| Jalr (r : reg)
| Call (f : Z)
| Ret
| Sret.

(** [next] is the address of the code after the routine's last instruction,
    the return address of a call. *)
Definition exec (next : Z) (i : instr) (h : hart) : option hart :=
  match i with
  | Sd src off base => store h (wrap64 (h_reg h base + off)) (h_reg h src)
  | Ld dst off base => v ← load h (wrap64 (h_reg h base + off)); Some (set_reg dst v h)
  | Li dst v => Some (set_reg dst v h)
  | Addi dst src v => Some (set_reg dst (wrap64 (h_reg h src + v)) h)
  | Add dst x y => Some (set_reg dst (wrap64 (h_reg h x + h_reg h y)) h)
  | Mul dst x y => Some (set_reg dst (wrap64 (h_reg h x * h_reg h y)) h)
  | Csrr dst c => Some (set_reg dst (h_csr h c) h)
  | Csrw c src => Some (set_csr c (h_reg h src) h)
  | Sfence => Some h
  | Jalr r => Some (set_reg RA next (set_pc (h_reg h r) h))
  | Call f => Some (set_reg RA next (set_pc f h))
  | Ret => Some (set_pc (h_reg h RA) h)
  | Sret =>
      let x := h_csr h SSTATUS in
      let x' := set_bit (set_bit (set_bit x STATUS_SIE (Z.testbit x (Z.of_nat STATUS_SPIE))) STATUS_SPIE true) STATUS_SPP false in
      Some (set_user (negb (Z.testbit x (Z.of_nat STATUS_SPP))) (set_csr SSTATUS x' (set_pc (h_csr h SEPC) h)))
  end.

(** A routine of the page at [va], whose contents are in the physical page
    [pa]: every instruction has to be fetched from there. *)
Fixpoint run (va pa next : Z) (code : list instr) (h : hart) : option hart :=
  match code with
  | [] => Some h
  | i :: code =>
      if bool_decide (translate (h_mem h) (h_csr h SATP) PTE_X va = Some pa)
      then h ← exec next i h; run va pa next code h else None
  end.

(** What the hart does on a trap from user mode, with the vector [stvec]. *)
Definition take_trap (stvec : Z) (h : hart) : hart :=
  let x := h_csr h SSTATUS in
  let x' := set_bit (set_bit (set_bit x STATUS_SPIE (Z.testbit x (Z.of_nat STATUS_SIE))) STATUS_SIE false) STATUS_SPP (negb (h_user h)) in
  set_user false (set_csr SEPC (h_pc h) (set_csr SSTATUS x' (set_pc stvec h))).

(** ** [trampoline.S] *)

Definition uservec : list instr :=
  [Csrw SSCRATCH A0;
   Li A0 TRAPFRAME;
   Sd RA 40 A0; Sd SP 48 A0; Sd GP 56 A0; Sd TP 64 A0;
   Sd T0 72 A0; Sd T1 80 A0; Sd T2 88 A0; Sd S0 96 A0; Sd S1 104 A0;
   Sd A1 120 A0; Sd A2 128 A0; Sd A3 136 A0; Sd A4 144 A0; Sd A5 152 A0; Sd A6 160 A0; Sd A7 168 A0;
   Sd S2 176 A0; Sd S3 184 A0; Sd S4 192 A0; Sd S5 200 A0; Sd S6 208 A0; Sd S7 216 A0; Sd S8 224 A0;
   Sd S9 232 A0; Sd S10 240 A0; Sd S11 248 A0;
   Sd T3 256 A0; Sd T4 264 A0; Sd T5 272 A0; Sd T6 280 A0;
   Csrr T0 SSCRATCH;
   Sd T0 112 A0;
   Ld SP 8 A0;
   Ld TP 32 A0;
   Ld T0 16 A0;
   Ld T1 0 A0;
   Sfence;
   Csrw SATP T1;
   Sfence;
   Jalr T0].

Definition userret : list instr :=
  [Sfence;
   Csrw SATP A0;
   Sfence;
   Li A0 TRAPFRAME;
   Ld RA 40 A0; Ld SP 48 A0; Ld GP 56 A0; Ld TP 64 A0;
   Ld T0 72 A0; Ld T1 80 A0; Ld T2 88 A0; Ld S0 96 A0; Ld S1 104 A0;
   Ld A1 120 A0; Ld A2 128 A0; Ld A3 136 A0; Ld A4 144 A0; Ld A5 152 A0; Ld A6 160 A0; Ld A7 168 A0;
   Ld S2 176 A0; Ld S3 184 A0; Ld S4 192 A0; Ld S5 200 A0; Ld S6 208 A0; Ld S7 216 A0; Ld S8 224 A0;
   Ld S9 232 A0; Ld S10 240 A0; Ld S11 248 A0;
   Ld T3 256 A0; Ld T4 264 A0; Ld T5 272 A0; Ld T6 280 A0;
   Ld A0 112 A0;
   Sret].

(** ** [swtch.S] *)

Definition swtch_code : list instr :=
  [Sd RA 0 A0; Sd SP 8 A0; Sd S0 16 A0; Sd S1 24 A0; Sd S2 32 A0; Sd S3 40 A0; Sd S4 48 A0; Sd S5 56 A0;
   Sd S6 64 A0; Sd S7 72 A0; Sd S8 80 A0; Sd S9 88 A0; Sd S10 96 A0; Sd S11 104 A0;
   Ld RA 0 A1; Ld SP 8 A1; Ld S0 16 A1; Ld S1 24 A1; Ld S2 32 A1; Ld S3 40 A1; Ld S4 48 A1; Ld S5 56 A1;
   Ld S6 64 A1; Ld S7 72 A1; Ld S8 80 A1; Ld S9 88 A1; Ld S10 96 A1; Ld S11 104 A1;
   Ret].

(** ** [kernelvec.S], up to the call and after it *)

Definition kernelvec (kerneltrap : Z) : list instr :=
  [Addi SP SP (-256);
   Sd RA 0 SP; Sd GP 16 SP; Sd TP 24 SP; Sd T0 32 SP; Sd T1 40 SP; Sd T2 48 SP;
   Sd A0 72 SP; Sd A1 80 SP; Sd A2 88 SP; Sd A3 96 SP; Sd A4 104 SP; Sd A5 112 SP; Sd A6 120 SP; Sd A7 128 SP;
   Sd T3 216 SP; Sd T4 224 SP; Sd T5 232 SP; Sd T6 240 SP;
   Call kerneltrap].

Definition kernelvec_ret : list instr :=
  [Ld RA 0 SP; Ld GP 16 SP; Ld T0 32 SP; Ld T1 40 SP; Ld T2 48 SP;
   Ld A0 72 SP; Ld A1 80 SP; Ld A2 88 SP; Ld A3 96 SP; Ld A4 104 SP; Ld A5 112 SP; Ld A6 120 SP; Ld A7 128 SP;
   Ld T3 216 SP; Ld T4 224 SP; Ld T5 232 SP; Ld T6 240 SP;
   Addi SP SP 256;
   Sret].

(** ** [entry.S] *)

Definition entry_code (stack0 start : Z) : list instr :=
  [Li SP stack0;
   Li A0 (1024 * 4);
   Csrr A1 MHARTID;
   Addi A1 A1 1;
   Mul A0 A0 A1;
   Add SP SP A0;
   Call start].
