(* ===== verification/AsmSpec.v ===== *)
(** * What the assembly routines do

    [uservec] and [userret] save and restore every user register in the
    trapframe across the change of page tables; [swtch] exchanges contexts;
    [kernelvec] keeps the interrupted code's registers; [_entry] finds a stack. *)

From stdpp Require Import base gmap strings numbers list.
From S2P Require Import Prelude State Strings Printf Memory Kalloc Vm PageTable UserSpace Spinlock Proc Process Trap Asm.

(** ** Windows: ranges of memory that can be used while the code runs *)

(** Memories that differ at most in the range. *)
Definition differs (pa len : Z) (m m' : mem) : Prop := forall x, ~ (pa <= x < pa + len) -> m' x = m x.

(** The offset of a doubleword of a range. *)
Definition slot (len o : Z) : Prop := 0 <= o /\ o + 8 <= len /\ o mod 8 = 0.

(** The page table [satp] gives the [len] bytes at [va] as those at [pa], and
    the code from [tpa] at [tva], whatever is stored in the range. *)
Record window (m : mem) (satp tva tpa va pa len : Z) : Prop := {
  win_fetch m' : differs pa len m m' -> translate m' satp PTE_X tva = Some tpa;
  win_read m' o : differs pa len m m' -> slot len o -> translate m' satp PTE_R (va + o) = Some (pa + o);
  win_write m' o : differs pa len m m' -> slot len o -> translate m' satp PTE_W (va + o) = Some (pa + o);
  win_va : 0 <= va /\ va + len <= 2 ^ 64 /\ va mod 8 = 0
}.

Definition regs_ok (h : hart) : Prop := forall r, 0 <= h_reg h r < 2 ^ 64.

(** Registers saved at, and restored from, these offsets. *)
Definition save (base : reg) (L : list (reg * Z)) : list instr := (fun p => Sd p.1 p.2 base) <$> L.
Definition restore (base : reg) (L : list (reg * Z)) : list instr := (fun p => Ld p.1 p.2 base) <$> L.

Section runs.
Context (tva tpa next satp va pa len : Z).
Implicit Types (h : hart) (L : list (reg * Z)) (code : list instr) (m : mem).

Lemma differs_refl m : differs pa len m m.
Proof. by intros x _. Qed.

Lemma differs_trans m m1 m2 : differs pa len m m1 -> differs pa len m1 m2 -> differs pa len m m2.
Proof. intros H1 H2 x Hx. by rewrite H2, H1. Qed.

Lemma window_differs m m' : window m satp tva tpa va pa len -> differs pa len m m' -> window m' satp tva tpa va pa len.
Proof.
  intros W D. split; [intros m2 D2; apply W|intros m2 o D2; apply W|intros m2 o D2; apply W|apply W]; by eapply differs_trans.
Qed.

Lemma slot_align m o : window m satp tva tpa va pa len -> slot len o -> wrap64 (va + o) = va + o /\ (va + o) mod 8 = 0.
Proof.
  intros W (H1 & H2 & H3). destruct (win_va _ _ _ _ _ _ _ W) as (H4 & H5 & H6). split; [apply wrap64_small; lia|].
  by rewrite <- Zplus_mod_idemp_l, H6, Z.add_0_l.
Qed.

Lemma run_step i h code h1 : translate (h_mem h) (h_csr h SATP) PTE_X tva = Some tpa -> exec next i h = Some h1 ->
  run tva tpa next (i :: code) h = run tva tpa next code h1.
Proof. intros Hf He. cbn [run]. rewrite bool_decide_true by done. by rewrite He. Qed.

Lemma exec_sd src off base h : window (h_mem h) satp tva tpa va pa len -> h_csr h SATP = satp -> h_reg h base = va -> slot len off ->
  exec next (Sd src off base) h = Some (set_mem (st64 (h_mem h) (pa + off) (h_reg h src)) h).
Proof.
  intros W Hs Hb Ho. destruct (slot_align _ _ W Ho) as [H1 H2]. cbn [exec]. unfold store. rewrite Hb, H1, H2, Hs.
  by rewrite (win_write _ _ _ _ _ _ _ W _ _ (differs_refl _) Ho).
Qed.

Lemma exec_ld dst off base h : window (h_mem h) satp tva tpa va pa len -> h_csr h SATP = satp -> h_reg h base = va -> slot len off ->
  exec next (Ld dst off base) h = Some (set_reg dst (ld64 (h_mem h) (pa + off)) h).
Proof.
  intros W Hs Hb Ho. destruct (slot_align _ _ W Ho) as [H1 H2]. cbn [exec]. unfold load. rewrite Hb, H1, H2, Hs.
  by rewrite (win_read _ _ _ _ _ _ _ W _ _ (differs_refl _) Ho).
Qed.

Lemma slot_differs m o v : slot len o -> differs pa len m (st64 m (pa + o) v).
Proof. intros (H1 & H2 & _) x Hx. transitivity (stn 8 m (pa + o) v x); [done|]. apply stn_frame. change (Z.of_nat 8) with 8. lia. Qed.

Lemma slots_apart o o' : slot len o -> slot len o' -> o <> o' -> o + 8 <= o' \/ o' + 8 <= o.
Proof. intros (_ & _ & H1) (_ & _ & H2) Hne. pose proof (Z.div_mod o 8). pose proof (Z.div_mod o' 8). lia. Qed.

Lemma run_save base L code h :
  window (h_mem h) satp tva tpa va pa len -> h_csr h SATP = satp -> h_reg h base = va -> regs_ok h ->
  Forall (slot len) L.*2 -> NoDup L.*2 ->
  exists m', run tva tpa next (save base L ++ code) h = run tva tpa next code (set_mem m' h) /\ differs pa len (h_mem h) m' /\
    (forall r o, (r, o) ∈ L -> ld64 m' (pa + o) = h_reg h r) /\
    (forall o, slot len o -> o ∉ L.*2 -> ld64 m' (pa + o) = ld64 (h_mem h) (pa + o)).
Proof.
  intros W Hs Hb Hr. revert h W Hs Hb Hr. induction L as [|[r o] L IH]; intros h W Hs Hb Hr HF HN.
  { exists (h_mem h). split_and!; [by destruct h|apply differs_refl|intros r o H; by apply not_elem_of_nil in H|done]. }
  apply Forall_cons in HF as [Ho HF]. apply NoDup_cons in HN as [Hno HN]. cbn [fst snd] in *.
  set (m1 := st64 (h_mem h) (pa + o) (h_reg h r)). assert (D1 : differs pa len (h_mem h) m1) by by apply slot_differs.
  destruct (IH (set_mem m1 h)) as (m' & E & D & HL & HO); [by eapply window_differs|done|done|done|done|done|].
  exists m'. split_and!.
  - change (save base ((r, o) :: L) ++ code) with (Sd r o base :: (save base L ++ code)).
    erewrite run_step; [exact E| |by apply exec_sd]. rewrite Hs. apply W, differs_refl.
  - by eapply differs_trans.
  - intros r' o' [[= -> ->]|H]%elem_of_cons; [|by apply HL]. rewrite HO by done. by apply ld64_st64_eq.
  - intros o' Ho' [Hne Hn]%not_elem_of_cons. rewrite HO by done. apply ld64_st64_ne.
    destruct (slots_apart o o') as [?|?]; [done|done|by intros ->|lia|lia].
Qed.

Lemma run_restore base L code h :
  window (h_mem h) satp tva tpa va pa len -> h_csr h SATP = satp -> h_reg h base = va ->
  Forall (slot len) L.*2 -> NoDup L.*1 -> base ∉ L.*1 ->
  exists f, run tva tpa next (restore base L ++ code) h = run tva tpa next code (mkhart f (h_csr h) (h_pc h) (h_user h) (h_mem h)) /\
    (forall r o, (r, o) ∈ L -> f r = ld64 (h_mem h) (pa + o)) /\ (forall r, r ∉ L.*1 -> f r = h_reg h r).
Proof.
  intros W Hs Hb. revert h W Hs Hb. induction L as [|[r o] L IH]; intros h W Hs Hb HF HN Hbase.
  { exists (h_reg h). split_and!; [by destruct h|intros r o H; by apply not_elem_of_nil in H|done]. }
  apply Forall_cons in HF as [Ho HF]. apply NoDup_cons in HN as [Hno HN]. apply not_elem_of_cons in Hbase as [Hb1 Hb2]. cbn [fst snd] in *.
  destruct (IH (set_reg r (ld64 (h_mem h) (pa + o)) h)) as (f & E & HL & HO); [done|done|cbn; by rewrite decide_False|done|done|done|].
  cbn [set_reg h_reg h_csr h_pc h_user h_mem] in *. exists f. split_and!.
  - change (restore base ((r, o) :: L) ++ code) with (Ld r o base :: (restore base L ++ code)).
    erewrite run_step; [exact E| |by apply exec_ld]. rewrite Hs. apply W, differs_refl.
  - intros r' o' [[= -> ->]|H]%elem_of_cons; [|by apply HL]. rewrite HO by done. by rewrite decide_True.
  - intros r' [Hne Hn]%not_elem_of_cons. rewrite HO by done. by rewrite decide_False.
Qed.

End runs.

(** ** The trampoline *)

(** The offset of a user register in [struct trapframe] ([proc.h]). *)
Definition tf_slot (r : reg) : Z :=
  match r with
  | RA => 40 | SP => 48 | GP => 56 | TP => 64 | T0 => 72 | T1 => 80 | T2 => 88 | S0 => 96 | S1 => 104
  | A0 => 112 | A1 => 120 | A2 => 128 | A3 => 136 | A4 => 144 | A5 => 152 | A6 => 160 | A7 => 168
  | S2 => 176 | S3 => 184 | S4 => 192 | S5 => 200 | S6 => 208 | S7 => 216 | S8 => 224 | S9 => 232
  | S10 => 240 | S11 => 248 | T3 => 256 | T4 => 264 | T5 => 272 | T6 => 280
  end.

(** The registers that are saved while [a0] points to the trapframe. *)
Definition user_regs : list reg :=
  [RA; SP; GP; TP; T0; T1; T2; S0; S1; A1; A2; A3; A4; A5; A6; A7; S2; S3; S4; S5; S6; S7; S8; S9; S10; S11; T3; T4; T5; T6].

Definition user_slots : list (reg * Z) := (fun r => (r, tf_slot r)) <$> user_regs.

Lemma user_regs_all r : r <> A0 -> r ∈ user_regs.
Proof. intros H. by destruct r; first [done|refine (bool_decide_unpack _ _)]. Qed.

Lemma user_slots_all r : r <> A0 -> (r, tf_slot r) ∈ user_slots.
Proof. intros H. unfold user_slots. apply (list_elem_of_fmap_2 (fun r => (r, tf_slot r))). by apply user_regs_all. Qed.

Lemma user_slots_ok : Forall (slot PGSIZE) user_slots.*2 /\ NoDup user_slots.*2 /\ NoDup user_slots.*1 /\ A0 ∉ user_slots.*1.
Proof.
  split_and!; [|by refine (bool_decide_unpack _ _)..]. apply Forall_forall. intros o Ho.
  repeat (apply elem_of_cons in Ho as [->|Ho]; [unfold slot; split_and!; done|]). by apply not_elem_of_nil in Ho.
Qed.

Ltac slot_done := by (unfold slot; split_and!; done).

Section trampoline.
Context (tpa next satp tf : Z).
Implicit Types (h : hart) (m : mem).

(** The user page table has the trampoline and the trapframe where they
    belong; the kernel's, which the trapframe names, has the trampoline. *)
Record tramp_ok (m : mem) : Prop := {
  to_win : window m satp TRAMPOLINE tpa TRAPFRAME tf PGSIZE;
  to_kernel m' : differs tf PGSIZE m m' -> translate m' (ld64 m (tf + tf_kernel_satp)) PTE_X TRAMPOLINE = Some tpa
}.

(** The end of [uservec], from the loads on. *)
Lemma run_enter_kernel h : tramp_ok (h_mem h) -> h_csr h SATP = satp -> h_reg h A0 = TRAPFRAME ->
  exists h', run TRAMPOLINE tpa next [Ld SP 8 A0; Ld TP 32 A0; Ld T0 16 A0; Ld T1 0 A0; Sfence; Csrw SATP T1; Sfence; Jalr T0] h = Some h' /\
    h_mem h' = h_mem h /\
    h_pc h' = ld64 (h_mem h) (tf + tf_kernel_trap) /\ h_reg h' RA = next /\ h_reg h' SP = ld64 (h_mem h) (tf + tf_kernel_sp) /\
    h_reg h' TP = ld64 (h_mem h) (tf + tf_kernel_hartid) /\ h_csr h' SATP = ld64 (h_mem h) (tf + tf_kernel_satp) /\
    h_csr h' SEPC = h_csr h SEPC /\ h_csr h' SSTATUS = h_csr h SSTATUS /\ h_user h' = h_user h.
Proof.
  intros [W HK] Hs Ha. destruct (run_restore TRAMPOLINE tpa next satp TRAPFRAME tf PGSIZE A0
    [(SP, 8); (TP, 32); (T0, 16); (T1, 0)] [Sfence; Csrw SATP T1; Sfence; Jalr T0] h W Hs Ha) as (f & E & HL & HO).
  1: repeat (apply Forall_cons_2; [slot_done|]); apply Forall_nil_2.
  1,2: by refine (bool_decide_unpack _ _).
  set (h1 := mkhart f (h_csr h) (h_pc h) (h_user h) (h_mem h)) in E.
  assert (H1 : f T1 = ld64 (h_mem h) (tf + tf_kernel_satp)) by (apply (HL T1 0); by refine (bool_decide_unpack _ _)).
  exists (set_reg RA next (set_pc (f T0) (set_csr SATP (f T1) h1))). split.
  { refine (eq_trans E _). assert (Hf : translate (h_mem h) (h_csr h SATP) PTE_X TRAMPOLINE = Some tpa) by (rewrite Hs; apply W, differs_refl).
    assert (Hk : translate (h_mem h) (f T1) PTE_X TRAMPOLINE = Some tpa) by (rewrite H1; apply HK, differs_refl).
    do 4 (erewrite run_step; [|first [exact Hf|exact Hk]|reflexivity]). done. }
  cbn. split_and!; [done|..|done|done|done]; try done; [apply (HL T0 16)|apply (HL SP 8)|apply (HL TP 32)]; by refine (bool_decide_unpack _ _).
Qed.

Lemma wp_uservec h : tramp_ok (h_mem h) -> h_csr h SATP = satp -> regs_ok h ->
  exists h', run TRAMPOLINE tpa next uservec h = Some h' /\ differs tf PGSIZE (h_mem h) (h_mem h') /\
    (forall r, ld64 (h_mem h') (tf + tf_slot r) = h_reg h r) /\
    (forall o, o ∈ [tf_kernel_satp; tf_kernel_sp; tf_kernel_trap; tf_epc; tf_kernel_hartid] ->
       ld64 (h_mem h') (tf + o) = ld64 (h_mem h) (tf + o)) /\
    h_pc h' = ld64 (h_mem h) (tf + tf_kernel_trap) /\ h_reg h' RA = next /\ h_reg h' SP = ld64 (h_mem h) (tf + tf_kernel_sp) /\
    h_reg h' TP = ld64 (h_mem h) (tf + tf_kernel_hartid) /\ h_csr h' SATP = ld64 (h_mem h) (tf + tf_kernel_satp) /\
    h_csr h' SEPC = h_csr h SEPC /\ h_csr h' SSTATUS = h_csr h SSTATUS /\ h_user h' = h_user h.
Proof.
  intros [W HK] Hs Hr. destruct user_slots_ok as (HF & HN & _ & _).
  set (h1 := set_reg A0 TRAPFRAME (set_csr SSCRATCH (h_reg h A0) h)).
  assert (Hr1 : regs_ok h1). { intros r. unfold h1. cbn. destruct (decide (r = A0)); [done|apply Hr]. }
  change uservec with (Csrw SSCRATCH A0 :: Li A0 TRAPFRAME :: save A0 user_slots ++
    [Csrr T0 SSCRATCH; Sd T0 112 A0; Ld SP 8 A0; Ld TP 32 A0; Ld T0 16 A0; Ld T1 0 A0; Sfence; Csrw SATP T1; Sfence; Jalr T0]).
  erewrite run_step by (reflexivity || (rewrite Hs; apply W, differs_refl)).
  erewrite run_step by (reflexivity || (cbn; rewrite Hs; apply W, differs_refl)). fold h1.
  destruct (run_save TRAMPOLINE tpa next satp TRAPFRAME tf PGSIZE A0 user_slots
    [Csrr T0 SSCRATCH; Sd T0 112 A0; Ld SP 8 A0; Ld TP 32 A0; Ld T0 16 A0; Ld T1 0 A0; Sfence; Csrw SATP T1; Sfence; Jalr T0]
    h1 W Hs eq_refl Hr1 HF HN) as (m1 & -> & D1 & HL & HO).
  assert (HL1 : forall r, r <> A0 -> ld64 m1 (tf + tf_slot r) = h_reg h r).
  { intros r Hne. rewrite (HL r _ (user_slots_all r Hne)). unfold h1. cbn. by rewrite decide_False. }
  assert (W1 : window m1 satp TRAMPOLINE tpa TRAPFRAME tf PGSIZE) by (eapply window_differs; [exact W|done]).
  set (m2 := st64 m1 (tf + 112) (h_reg h A0)). assert (Ho : slot PGSIZE 112) by slot_done.
  assert (D2 : differs tf PGSIZE (h_mem h) m2) by (eapply differs_trans; [exact D1|by apply slot_differs]).
  set (h2 := set_mem m2 (set_reg T0 (h_reg h A0) (set_mem m1 h1))).
  assert (Hf1 : translate m1 (h_csr h SATP) PTE_X TRAMPOLINE = Some tpa) by (rewrite Hs; apply W1, differs_refl).
  erewrite run_step; [|exact Hf1|reflexivity].
  erewrite run_step; [|exact Hf1|by apply (exec_sd TRAMPOLINE tpa next satp TRAPFRAME tf PGSIZE)]. fold h2.
  assert (HK2 : forall o, o ∈ [tf_kernel_satp; tf_kernel_sp; tf_kernel_trap; tf_epc; tf_kernel_hartid] -> ld64 m2 (tf + o) = ld64 (h_mem h) (tf + o)).
  { intros o Hin. unfold m2. rewrite ld64_st64_ne.
    - apply HO; repeat (apply elem_of_cons in Hin as [->|Hin]; [first [slot_done|by refine (bool_decide_unpack _ _)]|]); by apply not_elem_of_nil in Hin.
    - repeat (apply elem_of_cons in Hin as [->|Hin]; [unfold tf_kernel_satp, tf_kernel_sp, tf_kernel_trap, tf_epc, tf_kernel_hartid; lia|]).
      by apply not_elem_of_nil in Hin. }
  destruct (run_enter_kernel h2) as (h' & E & Em & E1 & E2 & E3 & E4 & E5 & E6 & E7 & E8); [|done|done|].
  { split; [exact (window_differs _ _ _ _ _ _ _ _ W D2)|]. intros m' D'. change (h_mem h2) with m2. rewrite HK2 by by refine (bool_decide_unpack _ _).
    apply HK. by eapply differs_trans. }
  exists h'. change (h_mem h2) with m2 in *. rewrite Em. split_and!; try done.
  - intros r. destruct (decide (r = A0)) as [->|Hne]; [by apply ld64_st64_eq|]. unfold m2. rewrite ld64_st64_ne; [by apply HL1|].
    destruct r; cbn [tf_slot]; first [congruence|lia].
  - rewrite E1. apply HK2. by refine (bool_decide_unpack _ _).
  - rewrite E3. apply HK2. by refine (bool_decide_unpack _ _).
  - rewrite E4. apply HK2. by refine (bool_decide_unpack _ _).
  - rewrite E5. apply HK2. by refine (bool_decide_unpack _ _).
Qed.
Definition sret_status (x : Z) : Z :=
  set_bit (set_bit (set_bit x STATUS_SIE (Z.testbit x (Z.of_nat STATUS_SPIE))) STATUS_SPIE true) STATUS_SPP false.

Lemma run_userret h : window (h_mem h) satp TRAMPOLINE tpa TRAPFRAME tf PGSIZE ->
  translate (h_mem h) (h_csr h SATP) PTE_X TRAMPOLINE = Some tpa -> h_reg h A0 = satp ->
  exists h', run TRAMPOLINE tpa next userret h = Some h' /\ h_mem h' = h_mem h /\
    (forall r, h_reg h' r = ld64 (h_mem h) (tf + tf_slot r)) /\ h_csr h' SATP = satp /\ h_pc h' = h_csr h SEPC /\
    h_csr h' SSTATUS = sret_status (h_csr h SSTATUS) /\ h_user h' = negb (Z.testbit (h_csr h SSTATUS) (Z.of_nat STATUS_SPP)).
Proof.
  intros W Hf Ha. destruct user_slots_ok as (HF & _ & HN & HB). set (m := h_mem h) in *.
  assert (Hf1 : translate m satp PTE_X TRAMPOLINE = Some tpa) by (apply W, differs_refl).
  set (h1 := set_reg A0 TRAPFRAME (set_csr SATP (h_reg h A0) h)).
  change userret with (Sfence :: Csrw SATP A0 :: Sfence :: Li A0 TRAPFRAME :: restore A0 user_slots ++ [Ld A0 112 A0; Sret]).
  do 2 (erewrite run_step; [|exact Hf|reflexivity]).
  do 2 (erewrite run_step; [|cbn; rewrite Ha; exact Hf1|reflexivity]). fold h1.
  destruct (run_restore TRAMPOLINE tpa next satp TRAPFRAME tf PGSIZE A0 user_slots [Ld A0 112 A0; Sret] h1 W Ha eq_refl HF HN HB) as (f & -> & HL & HO).
  set (h2 := mkhart _ _ _ _ _). assert (Hs2 : h_csr h2 SATP = satp) by exact Ha.
  assert (HA0 : h_reg h2 A0 = TRAPFRAME) by exact (HO A0 HB).
  erewrite run_step; [|rewrite Hs2; exact Hf1|apply (exec_ld TRAMPOLINE tpa next satp TRAPFRAME tf PGSIZE); [exact W|done|done|slot_done]].
  erewrite run_step; [|cbn; rewrite Ha; exact Hf1|reflexivity]. eexists. split; [reflexivity|]. cbn.
  split_and!; try done. intros r. destruct (decide (r = A0)) as [->|Hne]; [done|]. by apply HL, user_slots_all.
Qed.

End trampoline.

(** ** Windows from page tables *)

Lemma MAKE_SATP_root root : aligned root -> 0 <= root < 2 ^ 56 ->
  satp_root (MAKE_SATP root) = root /\ Z.shiftr (MAKE_SATP root) 60 = 8.
Proof.
  unfold aligned, PGSIZE, satp_root, MAKE_SATP. intros Ha Hr. assert (Hd := Z.div_mod root 4096).
  assert (Eq : Z.shiftr root 12 = root / 4096) by by rewrite Z.shiftr_div_pow2.
  assert (Hq : 0 <= root / 4096 < 2 ^ 44) by (split; [apply Z.div_pos; lia|apply Z.div_lt_upper_bound; lia]). split.
  - rewrite Z.land_lor_distr_l. change (Z.land (Z.shiftl 8 60) (Z.ones 44)) with 0. rewrite Z.lor_0_l, Eq, Z.land_ones, Z.mod_small by lia.
    rewrite Z.shiftl_mul_pow2 by lia. lia.
  - rewrite Z.shiftr_lor, Eq. change (Z.shiftr (Z.shiftl 8 60) 60) with 8.
    rewrite (Z.shiftr_div_pow2 (root / 4096)), (Z.div_small (root / 4096)) by lia. done.
Qed.

Lemma leaf_page m root va o : aligned va -> 0 <= o < PGSIZE -> leaf m root (va + o) = leaf m root va.
Proof.
  intros Ha Ho. assert (E : forall level, 0 <= level -> PX level (va + o) = PX level va).
  { intros level Hl. rewrite !PX_div by done. f_equal. rewrite Z.pow_add_r by lia. change (2 ^ 12) with 4096.
    rewrite <- !Z.div_div by (try lia; apply Z.pow_pos_nonneg; lia). f_equal. unfold aligned, PGSIZE in *.
    pose proof (Z.div_mod va 4096). symmetry. apply (Z.div_unique_pos _ _ _ o); lia. }
  unfold leaf, leaf_addr. by rewrite !E.
Qed.

Lemma translate_leaf m root need va pa f o : aligned root -> 0 <= root < 2 ^ 56 -> vpage va -> 0 <= o < PGSIZE ->
  aligned pa -> 0 <= pa < 2 ^ 56 -> 0 <= f < 2 ^ 10 -> 0 <= need < 2 ^ 10 ->
  leaf m root va = Some (mk_pte pa f) -> has f need = true -> has f PTE_U = false ->
  translate m (MAKE_SATP root) need (va + o) = Some (pa + o).
Proof.
  intros Hr1 Hr2 [Hv1 Hv2] Ho Ha Hp Hf Hn Hl Hh Hu. destruct (MAKE_SATP_root root Hr1 Hr2) as [E1 E2].
  unfold translate. rewrite E1, E2. cbn [Z.eqb].
  assert (Hlt : va + o < MAXVA). { unfold aligned, PGSIZE, MAXVA in *. change (Z.shiftl 1 _) with (2 ^ 38) in *. pose proof (Z.div_mod va 4096). lia. }
  rewrite (proj2 (Z.leb_le 0 (va + o))), (proj2 (Z.ltb_lt _ _) Hlt) by lia. cbn [andb negb].
  rewrite leaf_page, Hl by done. cbn [mbind option_bind]. rewrite !has_mk_pte, Hh, Hu, PTE2PA_mk by done. cbn. f_equal.
  unfold aligned, PGSIZE in *. rewrite <- Zplus_mod_idemp_l, Hv1, Z.add_0_l, Z.mod_small by lia. done.
Qed.

(** The page [q] is not part of the page table. *)
Lemma leaf_differs kend l m m' root N q len va : 0 < kend -> pt_wf kend l m root N ->
  (forall pi p, N !! pi = Some p -> q + len <= p \/ p + PGSIZE <= q) -> differs q len m m' ->
  leaf m' root va = leaf m root va.
Proof.
  intros Hk H Hq D. apply (leaf_frame kend Hk l root N m m' H). intros pi p a Hp Ha. apply D.
  destruct (Hq _ _ Hp); unfold in_page in Ha; lia.
Qed.

(** The mappings the trampoline needs: in the page table [root] of a process
    with the trapframe [tf], and in the kernel's, [kroot]. *)
Record tramp_maps (kend : Z) (l : list Z) (m : mem) (root : Z) (N : tree) (kroot : Z) (NK : tree) (tf tpa : Z) : Prop := {
  tm_tree : pt_wf kend l m root N;
  tm_ktree : pt_wf kend l m kroot NK;
  tm_text : leaf m root TRAMPOLINE = Some (mk_pte tpa (Z.lor (Z.lor PTE_R PTE_X) PTE_V));
  tm_ktext : leaf m kroot TRAMPOLINE = Some (mk_pte tpa (Z.lor (Z.lor PTE_R PTE_X) PTE_V));
  tm_frame : leaf m root TRAPFRAME = Some (mk_pte tf (Z.lor (Z.lor PTE_R PTE_W) PTE_V));
  tm_tpa : aligned tpa /\ 0 <= tpa < 2 ^ 56;
  tm_tf : page_ok kend tf /\ ~ tree_page N tf /\ ~ tree_page NK tf
}.

Lemma tree_apart kend l m root N q : pt_wf kend l m root N -> aligned q -> ~ tree_page N q ->
  forall pi p, N !! pi = Some p -> q + PGSIZE <= p \/ p + PGSIZE <= q.
Proof.
  intros H Hq Hn pi p Hp. destruct (pt_page H Hp) as ([Ha _] & _). apply aligned_disjoint; [done|done|].
  intros <-. apply Hn. by exists pi.
Qed.

Lemma tramp_window kend l m root N kroot NK tf tpa : 0 < kend -> tramp_maps kend l m root N kroot NK tf tpa ->
  window m (MAKE_SATP root) TRAMPOLINE tpa TRAPFRAME tf PGSIZE /\
  forall m', differs tf PGSIZE m m' -> translate m' (MAKE_SATP kroot) PTE_X TRAMPOLINE = Some tpa.
Proof.
  intros Hk [H1 H2 H3 H4 H5 [H6 H7] (H8 & H9 & H10)]. destruct (page_ok_range _ Hk _ H8) as [Ha Hr].
  destruct (pt_page H1 (pt_root H1)) as (Hp1 & _). apply (page_ok_range _ Hk) in Hp1 as [Ha1 Hr1].
  destruct (pt_page H2 (pt_root H2)) as (Hp2 & _). apply (page_ok_range _ Hk) in Hp2 as [Ha2 Hr2].
  assert (Hv1 : vpage TRAMPOLINE) by by vm_compute. assert (Hv2 : vpage TRAPFRAME) by by vm_compute.
  assert (L1 : forall m' va, differs tf PGSIZE m m' -> leaf m' root va = leaf m root va).
  { intros m' va. eapply leaf_differs; [done|done|by eapply tree_apart]. }
  assert (L2 : forall m' va, differs tf PGSIZE m m' -> leaf m' kroot va = leaf m kroot va).
  { intros m' va. eapply leaf_differs; [done|done|by eapply tree_apart]. }
  assert (T : forall m' need o, differs tf PGSIZE m m' -> slot PGSIZE o -> need = PTE_R \/ need = PTE_W ->
    translate m' (MAKE_SATP root) need (TRAPFRAME + o) = Some (tf + o)).
  { intros m' need o D (Ho1 & Ho2 & _) Hn. eapply translate_leaf; [done|lia|done|lia|done|lia| | |by rewrite L1| |]; by destruct Hn as [->| ->]. }
  split; [split|].
  - intros m' D. rewrite <- (Z.add_0_r TRAMPOLINE), <- (Z.add_0_r tpa).
    eapply translate_leaf; [done|lia|done|done|done|lia| | |by rewrite L1| |]; done.
  - intros m' o D Ho. apply T; [done|done|by left].
  - intros m' o D Ho. apply T; [done|done|by right].
  - by vm_compute.
  - intros m' D. rewrite <- (Z.add_0_r TRAMPOLINE), <- (Z.add_0_r tpa).
    eapply translate_leaf; [done|lia|done|done|done|lia| | |by rewrite L2| |]; done.
Qed.

(** ** Traps *)

Lemma testbit_set_bit x n k b : Z.testbit (set_bit x n b) (Z.of_nat k) = if (k =? n)%nat then b else Z.testbit x (Z.of_nat k).
Proof.
  unfold set_bit. destruct (Nat.eqb_spec k n) as [->|Hne].
  - destruct b; [by rewrite Z.setbit_eq by lia|by rewrite Z.clearbit_eq].
  - destruct b; [by rewrite Z.setbit_neq by lia|by rewrite Z.clearbit_neq by lia].
Qed.

Lemma take_trap_status v h :
  Z.testbit (h_csr (take_trap v h) SSTATUS) (Z.of_nat STATUS_SPP) = negb (h_user h) /\
  Z.testbit (h_csr (take_trap v h) SSTATUS) (Z.of_nat STATUS_SIE) = false.
Proof.
  change (h_csr (take_trap v h) SSTATUS) with (set_bit (set_bit (set_bit (h_csr h SSTATUS) STATUS_SPIE
    (Z.testbit (h_csr h SSTATUS) (Z.of_nat STATUS_SIE))) STATUS_SIE false) STATUS_SPP (negb (h_user h))).
  by rewrite !testbit_set_bit.
Qed.

Lemma tramp_maps_ok kend l m root N kroot NK tf tpa : 0 < kend -> tramp_maps kend l m root N kroot NK tf tpa ->
  ld64 m (tf + tf_kernel_satp) = MAKE_SATP kroot -> tramp_ok tpa (MAKE_SATP root) tf m.
Proof. intros Hk M Hs. destruct (tramp_window _ _ _ _ _ _ _ _ _ Hk M) as [W K]. split; [done|]. by rewrite Hs. Qed.

Lemma take_trap_spie v h :
  Z.testbit (h_csr (take_trap v h) SSTATUS) (Z.of_nat STATUS_SPIE) = Z.testbit (h_csr h SSTATUS) (Z.of_nat STATUS_SIE).
Proof.
  change (h_csr (take_trap v h) SSTATUS) with (set_bit (set_bit (set_bit (h_csr h SSTATUS) STATUS_SPIE
    (Z.testbit (h_csr h SSTATUS) (Z.of_nat STATUS_SIE))) STATUS_SIE false) STATUS_SPP (negb (h_user h))).
  by rewrite !testbit_set_bit.
Qed.

(** C11: A trap from user space and the return from it: whatever the kernel does
    in between, the user's registers come back as the trapframe has them, so
    that all but the result in [a0] are kept. *)
Theorem trap_roundtrip (kend : Z) (l : list Z) (root kroot tf tpa stvec userret_at : Z) (N NK : tree) (h : hart)
    (Hk : 0 < kend) (Hm : tramp_maps kend l (h_mem h) root N kroot NK tf tpa) (Hr : regs_ok h)
    (Hs : h_csr h SATP = MAKE_SATP root) (Hks : ld64 (h_mem h) (tf + tf_kernel_satp) = MAKE_SATP kroot) :
  exists h1, run TRAMPOLINE tpa userret_at uservec (take_trap stvec h) = Some h1 /\
    h_pc h1 = ld64 (h_mem h) (tf + tf_kernel_trap) /\ h_reg h1 RA = userret_at /\ h_csr h1 SEPC = h_pc h /\
    h_csr h1 SATP = MAKE_SATP kroot /\ differs tf PGSIZE (h_mem h) (h_mem h1) /\
    forall l2 kroot2 N2 NK2 h2, tramp_maps kend l2 (h_mem h2) root N2 kroot2 NK2 tf tpa -> h_csr h2 SATP = MAKE_SATP kroot2 -> h_reg h2 A0 = MAKE_SATP root ->
      (forall r, r <> A0 -> ld64 (h_mem h2) (tf + tf_slot r) = ld64 (h_mem h1) (tf + tf_slot r)) ->
      exists h3, run TRAMPOLINE tpa 0 userret h2 = Some h3 /\ h_mem h3 = h_mem h2 /\ h_pc h3 = h_csr h2 SEPC /\
        (forall r, r <> A0 -> h_reg h3 r = h_reg h r) /\ h_reg h3 A0 = ld64 (h_mem h2) (tf + tf_a 0).
Proof.
  assert (T := tramp_maps_ok _ _ _ _ _ _ _ _ _ Hk Hm Hks).
  destruct (wp_uservec tpa userret_at _ tf (take_trap stvec h) T Hs Hr) as (h1 & E & D & HL & _ & E1 & E2 & _ & _ & E4 & E3 & _).
  exists h1. split_and!; [done|done|done|done|by rewrite E4|done|]. intros l2 kroot2 N2 NK2 h2 M2 Hs2 Ha Hkeep. destruct (tramp_window _ _ _ _ _ _ _ _ _ Hk M2) as [W2 K2].
  destruct (run_userret tpa 0 _ tf h2 W2) as (h3 & E' & Em & HL' & _ & Ep & _); [rewrite Hs2; apply K2, differs_refl|done|].
  exists h3. split_and!; [done..| |by rewrite HL']. intros r Hne. rewrite HL', Hkeep, HL by done. done.
Qed.

(** The mappings are kept by what leaves the page tables alone. *)
Lemma tramp_maps_frame kend l m m' root N kroot NK tf tpa : 0 < kend -> tramp_maps kend l m root N kroot NK tf tpa ->
  (forall q a, tree_page N q \/ tree_page NK q -> in_page q a -> m' a = m a) -> tramp_maps kend l m' root N kroot NK tf tpa.
Proof.
  intros Hk [H1 H2 H3 H4 H5 H6 H7] E.
  destruct (leaf_frame kend Hk l root N m m' H1) as [F1 L1]; [intros pi q a Hq; apply E; left; by exists pi|].
  destruct (leaf_frame kend Hk l kroot NK m m' H2) as [F2 L2]; [intros pi q a Hq; apply E; right; by exists pi|].
  split; rewrite ?L1, ?L2; done.
Qed.

Lemma tramp_maps_differs kend l m m' root N kroot NK tf tpa : 0 < kend -> tramp_maps kend l m root N kroot NK tf tpa ->
  differs tf PGSIZE m m' -> tramp_maps kend l m' root N kroot NK tf tpa.
Proof.
  intros Hk M D. apply (tramp_maps_frame kend l m); [done|done|]. intros q a Hq Ha. apply D. intros Ht.
  destruct (tm_tf _ _ _ _ _ _ _ _ _ M) as ([Hal _] & H1 & H2).
  assert (q + PGSIZE <= tf \/ tf + PGSIZE <= q) as Hd; [|unfold in_page in Ha; lia].
  destruct Hq as [[pi Hq]|[pi Hq]].
  - destruct (tree_apart _ _ _ _ _ _ (tm_tree _ _ _ _ _ _ _ _ _ M) Hal H1 _ _ Hq); [by right|by left].
  - destruct (tree_apart _ _ _ _ _ _ (tm_ktree _ _ _ _ _ _ _ _ _ M) Hal H2 _ _ Hq); [by right|by left].
Qed.

(** The hart is where the C code, in the state [s], leaves it. *)
Record at_kernel (s : kst) (h : hart) : Prop := {
  ak_mem : h_mem h = k_mem s;
  ak_satp : h_csr h SATP = r_satp (k_csr s);
  ak_sepc : h_csr h SEPC = r_sepc (k_csr s);
  ak_status n : n <> STATUS_SIE -> Z.testbit (h_csr h SSTATUS) (Z.of_nat n) = Z.testbit (r_sstatus (k_csr s)) (Z.of_nat n);
  ak_mode : h_user h = false
}.

(** The memory [prepare_return] leaves. *)
Definition readied (m : mem) (tf satp ksp trap hartid : Z) : mem :=
  st64 (st64 (st64 (st64 m (tf + tf_kernel_satp) satp) (tf + tf_kernel_sp) ksp) (tf + tf_kernel_trap) trap) (tf + tf_kernel_hartid) hartid.

Lemma readied_differs m tf satp ksp trap hartid : differs tf PGSIZE m (readied m tf satp ksp trap hartid).
Proof. unfold readied. do 3 (eapply differs_trans; [|apply slot_differs; slot_done]). apply slot_differs. slot_done. Qed.

(** The trapframe then. *)
Lemma readied_reads m tf satp ksp trap hartid (m' := readied m tf satp ksp trap hartid) :
  0 <= satp < 2 ^ 64 -> 0 <= ksp < 2 ^ 64 -> 0 <= trap < 2 ^ 64 -> 0 <= hartid < 2 ^ 64 ->
  ld64 m' (tf + tf_kernel_satp) = satp /\ ld64 m' (tf + tf_kernel_sp) = ksp /\ ld64 m' (tf + tf_kernel_trap) = trap /\
  ld64 m' (tf + tf_kernel_hartid) = hartid /\ ld64 m' (tf + tf_epc) = ld64 m (tf + tf_epc) /\
  forall r, ld64 m' (tf + tf_slot r) = ld64 m (tf + tf_slot r).
Proof.
  intros H1 H2 H3 H4. unfold m', readied, tf_kernel_satp, tf_kernel_sp, tf_kernel_trap, tf_kernel_hartid, tf_epc.
  split_and!; [..|intros r; by rewrite !ld64_st64_ne by (destruct r; cbn [tf_slot]; lia)].
  all: repeat first [rewrite ld64_st64_eq by done|rewrite ld64_st64_ne by lia]; done.
Qed.

Section return_to_user.
Context {I : Image} (p : nat) (x : proc) (s : kst).
Context (Hwf : sync_wf (k_sync s)) (Hrun : running (k_sync s) = Some p) (Hx : k_procs s !! p = Some x) (Htf : p_trapframe x <> 0).

Lemma wp_tf_set off v Q s' : k_procs s' = k_procs s ->
  Q tt (set_k_mem (st64 (k_mem s') (p_trapframe x + off) v) s') -> wp (tf_set p off v) Q s'.
Proof using Hx Htf.
  intros E HQ. unfold tf_set. apply wp_bind. eapply wp_getp; [by rewrite E|]. rewrite (proj2 (Z.eqb_neq _ _) Htf). exact HQ.
Qed.

Lemma wp_tf_get off Q s' : k_procs s' = k_procs s -> Q (ld64 (k_mem s') (p_trapframe x + off)) s' -> wp (tf_get p off) Q s'.
Proof using Hx Htf.
  intros E HQ. unfold tf_get. apply wp_bind. eapply wp_getp; [by rewrite E|]. rewrite (proj2 (Z.eqb_neq _ _) Htf). exact HQ.
Qed.

Lemma wp_prepare_return Q :
  (forall s', k_mem s' = readied (k_mem s) (p_trapframe x) (r_satp (k_csr s)) (wrap64 (p_kstack x + PGSIZE)) sym_usertrap (Z.of_nat (y_hart (k_sync s))) ->
     k_csr s' = set_r_sepc (ld64 (k_mem s') (p_trapframe x + tf_epc))
       (set_r_sstatus (Z.lor (Z.land (r_sstatus (k_csr s)) (Z.lnot SSTATUS_SPP)) SSTATUS_SPIE)
          (set_r_stvec (TRAMPOLINE + (sym_uservec - sym_trampoline)) (k_csr s))) ->
     k_procs s' = k_procs s -> k_end s' = k_end s -> Q tt s') ->
  wp prepare_return Q s.
Proof using Type*.
  intros HQ. unfold prepare_return.
  apply wp_bind, wp_bind, wp_myproc'; [done|]. rewrite Hrun. apply wp_deref with (a := p); [done|].
  apply wp_bind, wp_updcpu; [destruct (sync_wf_touch _ Hwf) as (c & Hc & _); by eexists|].
  apply wp_bind, wp_modify, wp_bind, wp_gets, wp_bind, wp_tf_set; [done|].
  apply wp_bind. eapply wp_getp; [exact Hx|]. apply wp_bind, wp_tf_set; [done|]. apply wp_bind, wp_tf_set; [done|].
  apply wp_bind, wp_gets, wp_bind, wp_tf_set; [done|]. apply wp_bind, wp_gets, wp_bind, wp_modify.
  apply wp_bind, wp_tf_get; [done|]. apply wp_modify.
  apply HQ.
  - unfold readied. reflexivity.
  - cbn [k_csr set_k_csr k_mem set_k_mem upd_sync set_k_sync set_r_sepc set_r_sstatus set_r_stvec r_scause r_sepc r_stval r_sstatus r_stvec r_satp]. reflexivity.
  - reflexivity.
  - reflexivity.
Qed.

End return_to_user.

Lemma MAKE_SATP_range root : aligned root -> 0 <= root < 2 ^ 56 -> 0 <= MAKE_SATP root < 2 ^ 64.
Proof.
  intros Ha Hr. destruct (MAKE_SATP_root root Ha Hr) as [_ E]. assert (H0 : 0 <= MAKE_SATP root).
  { unfold MAKE_SATP. apply Z.lor_nonneg. split; [done|]. apply Z.shiftr_nonneg. lia. }
  split; [done|]. rewrite Z.shiftr_div_pow2 in E by lia. pose proof (Z.div_mod (MAKE_SATP root) (2 ^ 60)).
  pose proof (Z.mod_pos_bound (MAKE_SATP root) (2 ^ 60)). lia.
Qed.

(** C4: After [prepare_return], [userret] enters user mode, with interrupts on, at
    the saved program counter and with the registers of the trapframe. When
    the program traps again, having changed neither page tables nor
    trapframe, [uservec] saves its registers and arrives in [usertrap] on the
    kernel's page table and the kernel stack of the process. *)
Theorem user_entry {I : Image} (p : nat) (x : proc) (s : kst) (l : list Z) (N NK : tree) (kroot userret_at : Z)
    (Hend : 0 < k_end s) (Hwf : sync_wf (k_sync s)) (Hrun : running (k_sync s) = Some p) (Hx : k_procs s !! p = Some x)
    (Hhart : Z.of_nat (y_hart (k_sync s)) < 2 ^ 64) (Hsym : 0 <= sym_usertrap < 2 ^ 64) (Hks : r_satp (k_csr s) = MAKE_SATP kroot)
    (Hm : tramp_maps (k_end s) l (k_mem s) (p_pagetable x) N kroot NK (p_trapframe x) sym_trampoline) :
  wp prepare_return (fun _ s' => r_stvec (k_csr s') = TRAMPOLINE + (sym_uservec - sym_trampoline) /\
    forall h, at_kernel s' h -> h_reg h A0 = MAKE_SATP (p_pagetable x) ->
    exists h1, run TRAMPOLINE sym_trampoline 0 userret h = Some h1 /\
      h_user h1 = true /\ Z.testbit (h_csr h1 SSTATUS) (Z.of_nat STATUS_SIE) = true /\
      h_pc h1 = ld64 (k_mem s) (p_trapframe x + tf_epc) /\ (forall r, h_reg h1 r = ld64 (k_mem s) (p_trapframe x + tf_slot r)) /\
      forall h2, regs_ok h2 -> h_user h2 = true -> h_csr h2 SATP = h_csr h1 SATP ->
        (forall q a, q = p_trapframe x \/ tree_page N q \/ tree_page NK q -> in_page q a -> h_mem h2 a = h_mem h1 a) ->
        exists h3, run TRAMPOLINE sym_trampoline userret_at uservec (take_trap (r_stvec (k_csr s')) h2) = Some h3 /\
          h_user h3 = false /\ h_pc h3 = sym_usertrap /\ h_reg h3 RA = userret_at /\ h_reg h3 SP = wrap64 (p_kstack x + PGSIZE) /\
          h_reg h3 TP = Z.of_nat (y_hart (k_sync s)) /\ h_csr h3 SATP = r_satp (k_csr s) /\ h_csr h3 SEPC = h_pc h2 /\
          Z.testbit (h_csr h3 SSTATUS) (Z.of_nat STATUS_SPP) = false /\ Z.testbit (h_csr h3 SSTATUS) (Z.of_nat STATUS_SIE) = false /\
          forall r, ld64 (h_mem h3) (p_trapframe x + tf_slot r) = h_reg h2 r) s.
Proof.
  set (tf := p_trapframe x) in *. destruct (tm_tf _ _ _ _ _ _ _ _ _ Hm) as (Hp & Hn1 & Hn2).
  destruct (page_ok_range _ Hend _ Hp) as [Ha Hr]. assert (Htf : p_trapframe x <> 0) by (fold tf; lia).
  destruct (pt_page (tm_ktree _ _ _ _ _ _ _ _ _ Hm) (pt_root (tm_ktree _ _ _ _ _ _ _ _ _ Hm))) as (Hpk & _).
  apply (page_ok_range _ Hend) in Hpk as [Hak Hrk].
  apply (wp_prepare_return p x s Hwf Hrun Hx Htf). intros s' Em Ec _ Ee. fold tf in Em, Ec. split; [by rewrite Ec|].
  assert (HkS : 0 <= r_satp (k_csr s) < 2 ^ 64) by (rewrite Hks; apply MAKE_SATP_range; [done|lia]).
  destruct (readied_reads (k_mem s) tf (r_satp (k_csr s)) (wrap64 (p_kstack x + PGSIZE)) sym_usertrap (Z.of_nat (y_hart (k_sync s))))
    as (R1 & R2 & R3 & R4 & R5 & R6); [done|apply wrap64_nonneg|done|lia|]. rewrite <- Em in R1, R2, R3, R4, R5, R6.
  assert (M' : tramp_maps (k_end s) l (k_mem s') (p_pagetable x) N kroot NK tf sym_trampoline).
  { eapply tramp_maps_differs; [done|done|]. rewrite Em. apply readied_differs. }
  destruct (tramp_window _ _ _ _ _ _ _ _ _ Hend M') as [W K].
  intros h [A1 A2 A3 A4 A5] HA0. rewrite <- A1 in W, K.
  destruct (run_userret sym_trampoline 0 _ tf h W) as (h1 & E & E1 & E2 & E3 & E4 & E5 & E6);
    [rewrite A2, Ec; cbn; rewrite Hks; apply K, differs_refl|done|].
  assert (Hspp : Z.testbit (h_csr h SSTATUS) (Z.of_nat STATUS_SPP) = false).
  { rewrite A4 by done. rewrite Ec. cbn. by rewrite Z.lor_spec, Z.land_spec, andb_false_r. }
  assert (Hspie : Z.testbit (h_csr h SSTATUS) (Z.of_nat STATUS_SPIE) = true).
  { rewrite A4 by done. rewrite Ec. cbn. by rewrite Z.lor_spec, orb_true_r. }
  exists h1. split_and!; [done|by rewrite E6, Hspp|by rewrite E5; unfold sret_status; rewrite !testbit_set_bit|
    rewrite E4, A3, Ec; exact R5|intros r; by rewrite E2, A1, R6|].
  intros h2 Hr2 Hu2 Hs2 Hkeep. rewrite E1, A1 in Hkeep.
  assert (M2 : tramp_maps (k_end s) l (h_mem h2) (p_pagetable x) N kroot NK tf sym_trampoline).
  { apply (tramp_maps_frame _ _ (k_mem s')); [done|done|]. intros q a Hq. apply Hkeep. by right. }
  assert (L : forall o, 0 <= o <= PGSIZE - 8 -> ld64 (h_mem h2) (tf + o) = ld64 (k_mem s') (tf + o)).
  { intros o Ho. apply (ldn_ext 8). intros a Haa. apply (Hkeep tf); [by left|]. change (Z.of_nat 8) with 8 in Haa. unfold in_page. lia. }
  assert (T : tramp_ok sym_trampoline (MAKE_SATP (p_pagetable x)) tf (h_mem h2)).
  { apply (tramp_maps_ok (k_end s) l _ _ N kroot NK); [done|done|]. by rewrite L, R1. }
  destruct (wp_uservec sym_trampoline userret_at _ tf (take_trap (r_stvec (k_csr s')) h2) T) as
    (h3 & F & _ & F2 & _ & F4 & F5 & F6 & F7 & F8 & F9 & F10 & F11); [by rewrite <- E3|done|].
  change (h_mem (take_trap (r_stvec (k_csr s')) h2)) with (h_mem h2) in F4, F6, F7, F8. rewrite L in F4, F6, F7, F8 by done.
  exists h3. split_and!; [done|done|by rewrite F4|done|by rewrite F6|by rewrite F7|by rewrite F8|by rewrite F9| | |done].
  - rewrite F10. destruct (take_trap_status (r_stvec (k_csr s')) h2) as [-> _]. by rewrite Hu2.
  - rewrite F10. apply take_trap_status.
Qed.

(** ** Kernel memory *)

(** Pages that are where their addresses say. *)
Definition direct (m : mem) (root a b f : Z) : Prop :=
  forall va, aligned va -> a <= va < b -> leaf m root va = Some (mk_pte va f).

Definition RX : Z := Z.lor (Z.lor PTE_R PTE_X) PTE_V.
Definition RW : Z := Z.lor (Z.lor PTE_R PTE_W) PTE_V.

(** The kernel's page table: its code and its memory are mapped directly. *)
Record kernel_maps (kend : Z) (l : list Z) (m : mem) (kroot : Z) (NK : tree) (etext : Z) : Prop := {
  km_tree : pt_wf kend l m kroot NK;
  km_text : direct m kroot KERNBASE etext RX;
  km_data : direct m kroot etext PHYSTOP RW;
  km_etext : aligned etext /\ KERNBASE <= etext <= kend /\ kend <= PHYSTOP
}.

Lemma page_of a : exists b o, a = b + o /\ aligned b /\ 0 <= o < PGSIZE.
Proof.
  exists (PGSIZE * (a / PGSIZE)), (a mod PGSIZE). unfold PGSIZE, aligned. split_and!; [by apply Z.div_mod|by rewrite Z.mul_comm, Z.mod_mul| |]; by apply Z.mod_pos_bound.
Qed.

(** The kernel's variables, which lie below [end], can be used. *)
Lemma kernel_window kend l m kroot NK etext text va len : 0 < kend -> kernel_maps kend l m kroot NK etext ->
  aligned text -> KERNBASE <= text < etext -> etext <= va -> 0 <= len -> va + len <= kend -> va mod 8 = 0 ->
  window m (MAKE_SATP kroot) text text va va len.
Proof.
  intros Hk [H1 H2 H3 (H4 & [H5 H6] & H7)] Ht1 Ht2 Hva Hlen Hend Hal.
  assert (HP : PHYSTOP = 2281701376) by done. assert (HB : KERNBASE = 2147483648) by done. assert (HV : MAXVA = 2 ^ 38) by done.
  destruct (pt_page H1 (pt_root H1)) as (Hp1 & _). apply (page_ok_range _ Hk) in Hp1 as [Ha1 Hr1].
  assert (L : forall m' a, differs va len m m' -> leaf m' kroot a = leaf m kroot a).
  { intros m' a. eapply leaf_differs; [done|done|]. intros pi p Hp. destruct (pt_page H1 Hp) as ([_ [Hp1 _]] & _). lia. }
  assert (T : forall m' need o, differs va len m m' -> slot len o -> need = PTE_R \/ need = PTE_W ->
    translate m' (MAKE_SATP kroot) need (va + o) = Some (va + o)).
  { intros m' need o D (Ho1 & Ho2 & Ho3) Hn. destruct (page_of (va + o)) as (b & q & E & Hb & Hq). rewrite E.
    assert (Hbe : etext <= b). { unfold aligned, PGSIZE in *. pose proof (Z.div_mod etext 4096). pose proof (Z.div_mod b 4096). lia. }
    eapply translate_leaf; [done|lia|split; [done|lia]|done|done|lia| | |rewrite L by done; apply H3; [done|lia]| |]; by destruct Hn as [->| ->]. }
  split.
  - intros m' D. rewrite <- (Z.add_0_r text). eapply translate_leaf; [done|lia|split; [done|lia]|done|done|lia| | |rewrite L by done; by apply H2| |]; done.
  - intros m' o D Ho. apply T; [done|done|by left].
  - intros m' o D Ho. apply T; [done|done|by right].
  - lia.
Qed.

(** ** Context switches *)

Definition ctx_regs : list reg := [RA; SP; S0; S1; S2; S3; S4; S5; S6; S7; S8; S9; S10; S11].

(** The offset of a register in [struct context] ([proc.h]). *)
Definition ctx_slot (r : reg) : Z :=
  match r with
  | RA => 0 | SP => 8 | S0 => 16 | S1 => 24 | S2 => 32 | S3 => 40 | S4 => 48 | S5 => 56 | S6 => 64 | S7 => 72
  | S8 => 80 | S9 => 88 | S10 => 96 | S11 => 104 | _ => 0
  end.

Definition context_size : Z := 112.

Definition ctx_slots : list (reg * Z) := (fun r => (r, ctx_slot r)) <$> ctx_regs.

Lemma ctx_slots_ok : Forall (slot context_size) ctx_slots.*2 /\ NoDup ctx_slots.*2 /\ NoDup ctx_slots.*1 /\ A1 ∉ ctx_slots.*1.
Proof.
  split_and!; [|by refine (bool_decide_unpack _ _)..]. apply Forall_forall. intros o Ho.
  repeat (apply elem_of_cons in Ho as [->|Ho]; [slot_done|]). by apply not_elem_of_nil in Ho.
Qed.

Lemma ctx_slots_in r : r ∈ ctx_regs -> (r, ctx_slot r) ∈ ctx_slots.
Proof. apply (list_elem_of_fmap_2 (fun r => (r, ctx_slot r))). Qed.

Lemma ctx_slot_ok r : slot context_size (ctx_slot r).
Proof. by destruct r; slot_done. Qed.

Lemma run_swtch h satp text old new : h_csr h SATP = satp -> h_reg h A0 = old -> h_reg h A1 = new -> regs_ok h ->
  window (h_mem h) satp text text old old context_size ->
  (forall m', differs old context_size (h_mem h) m' -> window m' satp text text new new context_size) ->
  exists h', run text text 0 swtch_code h = Some h' /\ differs old context_size (h_mem h) (h_mem h') /\
    (forall r, r ∈ ctx_regs -> ld64 (h_mem h') (old + ctx_slot r) = h_reg h r) /\
    (forall r, r ∈ ctx_regs -> h_reg h' r = ld64 (h_mem h') (new + ctx_slot r)) /\
    (forall r, r ∉ ctx_regs -> h_reg h' r = h_reg h r) /\ h_pc h' = h_reg h' RA /\ h_csr h' = h_csr h /\ h_user h' = h_user h.
Proof.
  intros Hs Ho Hn Hr Wo Wn. destruct ctx_slots_ok as (HF & HN & HN1 & HB).
  change swtch_code with (save A0 ctx_slots ++ restore A1 ctx_slots ++ [Ret]).
  destruct (run_save text text 0 satp old old context_size A0 ctx_slots (restore A1 ctx_slots ++ [Ret]) h) as (m1 & -> & D & HL & _); [done..|].
  destruct (run_restore text text 0 satp new new context_size A1 ctx_slots [Ret] (set_mem m1 h)) as (f & -> & HL1 & HO); [by apply Wn|done..|].
  eexists. split.
  { erewrite run_step; [reflexivity| |reflexivity]. cbn. rewrite Hs. apply (Wn m1 D), differs_refl. }
  cbn [set_pc h_mem h_reg h_pc h_csr h_user set_mem] in *. split_and!; [done| | | |done|done|done].
  - intros r Hin. by apply HL, ctx_slots_in.
  - intros r Hin. by apply HL1, ctx_slots_in.
  - intros r Hnin. by apply HO.
Qed.

(** A context in the kernel's variables. *)
Definition context_at (etext kend c : Z) : Prop := etext <= c /\ c + context_size <= kend /\ c mod 8 = 0.

Definition contexts_apart (c c' : Z) : Prop := c + context_size <= c' \/ c' + context_size <= c.

Lemma differs_context m m' c c' r : differs c context_size m m' -> contexts_apart c c' ->
  ld64 m' (c' + ctx_slot r) = ld64 m (c' + ctx_slot r).
Proof.
  intros D A. destruct (ctx_slot_ok r) as (H1 & H2 & _). apply (ldn_ext 8). intros x Hx. change (Z.of_nat 8) with 8 in Hx. apply D.
  unfold contexts_apart in A. lia.
Qed.

(** C10: [swtch] continues where the new context was left. And when some later
    [swtch], on any hart, switches to the context it saved, it returns to its
    caller with the caller's stack and callee-saved registers. *)
Theorem swtch_returns (kend : Z) (l : list Z) (kroot etext text old new : Z) (NK : tree) (h : hart)
    (Hk : 0 < kend) (Hm : kernel_maps kend l (h_mem h) kroot NK etext) (Ht1 : aligned text) (Ht2 : KERNBASE <= text < etext)
    (Hs : h_csr h SATP = MAKE_SATP kroot) (Ho : h_reg h A0 = old) (Hn : h_reg h A1 = new) (Hr : regs_ok h)
    (Cold : context_at etext kend old) (Cnew : context_at etext kend new) (Hapart : contexts_apart old new) :
  exists h1, run text text 0 swtch_code h = Some h1 /\ h_pc h1 = ld64 (h_mem h) (new + ctx_slot RA) /\
    (forall r, r ∈ ctx_regs -> h_reg h1 r = ld64 (h_mem h) (new + ctx_slot r)) /\
    differs old context_size (h_mem h) (h_mem h1) /\
    forall l2 NK2 h2 other, kernel_maps kend l2 (h_mem h2) kroot NK2 etext -> h_csr h2 SATP = MAKE_SATP kroot -> regs_ok h2 ->
      h_reg h2 A0 = other -> h_reg h2 A1 = old -> context_at etext kend other -> contexts_apart other old ->
      (forall r, r ∈ ctx_regs -> ld64 (h_mem h2) (old + ctx_slot r) = ld64 (h_mem h1) (old + ctx_slot r)) ->
      exists h3, run text text 0 swtch_code h2 = Some h3 /\ h_pc h3 = h_reg h RA /\
        (forall r, r ∈ ctx_regs -> h_reg h3 r = h_reg h r) /\ (forall r, r ∉ ctx_regs -> h_reg h3 r = h_reg h2 r).
Proof.
  assert (W : forall l' NK' m c, kernel_maps kend l' m kroot NK' etext -> context_at etext kend c -> window m (MAKE_SATP kroot) text text c c context_size).
  { intros l' NK' m c M (H1 & H2 & H3). by apply (kernel_window kend l' m kroot NK' etext). }
  assert (F : forall l' NK' m m' c c', kernel_maps kend l' m kroot NK' etext -> context_at etext kend c -> context_at etext kend c' ->
    differs c context_size m m' -> window m' (MAKE_SATP kroot) text text c' c' context_size).
  { intros l' NK' m m' c c' M (H1 & H2 & H3) C' D. apply (W l' NK'); [|done]. destruct M as [M1 M2 M3 M4].
    destruct (leaf_frame kend Hk l' kroot NK' m m' M1) as [M1' L].
    { intros pi p a Hp Ha. apply D. destruct (pt_page M1 Hp) as ([_ [Hp1 _]] & _). unfold in_page in Ha. lia. }
    split; [done|intros va; rewrite L; apply M2|intros va; rewrite L; apply M3|done]. }
  destruct (run_swtch h (MAKE_SATP kroot) text old new Hs Ho Hn Hr) as (h1 & E & D & HL & HL1 & _ & Ep & _);
    [by eapply W|intros m' D; exact (F _ _ _ _ _ _ Hm Cold Cnew D)|].
  assert (HR : forall r, r ∈ ctx_regs -> h_reg h1 r = ld64 (h_mem h) (new + ctx_slot r)).
  { intros r Hin. rewrite HL1 by done. exact (differs_context _ _ _ _ r D Hapart). }
  exists h1. split_and!; [done|rewrite Ep; apply HR; by refine (bool_decide_unpack _ _)|done|done|].
  intros l2 NK2 h2 other M2 Hs2 Hr2 Ha0 Ha1 C2 A2 Hkeep.
  destruct (run_swtch h2 (MAKE_SATP kroot) text other old Hs2 Ha0 Ha1 Hr2) as (h3 & E3 & D3 & _ & HL3 & HO3 & Ep3 & _);
    [by eapply W|intros m' D'; exact (F _ _ _ _ _ _ M2 C2 Cold D')|].
  assert (HR3 : forall r, r ∈ ctx_regs -> h_reg h3 r = h_reg h r).
  { intros r Hin. rewrite HL3, (differs_context _ _ _ _ _ D3 A2), Hkeep, HL by done. done. }
  exists h3. split_and!; [done|rewrite Ep3; apply HR3; by refine (bool_decide_unpack _ _)|done|done].
Qed.

(** ** Interrupts in the kernel *)

Definition kvec_save : list (reg * Z) :=
  [(RA, 0); (GP, 16); (TP, 24); (T0, 32); (T1, 40); (T2, 48); (A0, 72); (A1, 80); (A2, 88); (A3, 96); (A4, 104); (A5, 112);
   (A6, 120); (A7, 128); (T3, 216); (T4, 224); (T5, 232); (T6, 240)].

Definition kvec_restore : list (reg * Z) := filter (fun p => p.1 <> TP) kvec_save.

Lemma kvec_slots : Forall (slot 256) kvec_save.*2 /\ NoDup kvec_save.*2 /\ Forall (slot 256) kvec_restore.*2 /\
  NoDup kvec_restore.*1 /\ SP ∉ kvec_restore.*1.
Proof.
  assert (H : forall o, o ∈ kvec_save.*2 -> slot 256 o).
  { intros o Ho. repeat (apply elem_of_cons in Ho as [->|Ho]; [slot_done|]). by apply not_elem_of_nil in Ho. }
  split_and!; [by apply Forall_forall|by refine (bool_decide_unpack _ _)| |by refine (bool_decide_unpack _ _)..].
  apply Forall_forall. intros o [q [-> Hq]]%list_elem_of_fmap_1. apply H. apply list_elem_of_filter in Hq as [_ Hq].
  by apply list_elem_of_fmap_2.
Qed.

(** The registers a C function keeps. *)
Definition callee_saved : list reg := [SP; S0; S1; S2; S3; S4; S5; S6; S7; S8; S9; S10; S11].

Lemma kvec_cases r : r <> TP -> r <> SP ->
  (exists o, (r, o) ∈ kvec_restore) \/ r ∈ callee_saved /\ r ∉ kvec_restore.*1.
Proof.
  intros H1 H2. destruct (decide (r ∈ kvec_restore.*1)) as [Hin|Hn].
  - left. apply list_elem_of_fmap_1 in Hin as [[r' o] [-> Hin]]. by exists o.
  - right. split; [|done]. destruct r; first [congruence|by refine (bool_decide_unpack _ _)|exfalso; apply Hn; by refine (bool_decide_unpack _ _)].
Qed.

(** An interrupt in the kernel: when [kerneltrap] keeps the registers a C
    function keeps, and the frame that [kernelvec] pushed, the interrupted
    code goes on with all its registers but [tp], which tells the hart. *)
Theorem kernelvec_roundtrip (h : hart) (satp tva tpa pa stvec kerneltrap after : Z)
    (Hs : h_csr h SATP = satp) (Hr : regs_ok h) (Hsp : 256 <= h_reg h SP)
    (W : window (h_mem h) satp tva tpa (h_reg h SP - 256) pa 256) :
  exists h1, run tva tpa after (kernelvec kerneltrap) (take_trap stvec h) = Some h1 /\
    h_pc h1 = kerneltrap /\ h_reg h1 RA = after /\ differs pa 256 (h_mem h) (h_mem h1) /\
    (forall r, r ∈ callee_saved -> r <> SP -> h_reg h1 r = h_reg h r) /\ h_reg h1 SP = h_reg h SP - 256 /\
    forall h2, h_csr h2 SATP = satp -> (forall r, r ∈ callee_saved -> h_reg h2 r = h_reg h1 r) ->
      window (h_mem h2) satp tva tpa (h_reg h SP - 256) pa 256 ->
      (forall o, slot 256 o -> ld64 (h_mem h2) (pa + o) = ld64 (h_mem h1) (pa + o)) ->
      h_csr h2 SEPC = h_pc h -> h_csr h2 SSTATUS = h_csr h1 SSTATUS ->
      exists h3, run tva tpa 0 kernelvec_ret h2 = Some h3 /\ h_pc h3 = h_pc h /\ h_user h3 = h_user h /\ h_mem h3 = h_mem h2 /\
        Z.testbit (h_csr h3 SSTATUS) (Z.of_nat STATUS_SIE) = Z.testbit (h_csr h SSTATUS) (Z.of_nat STATUS_SIE) /\
        (forall r, r <> TP -> h_reg h3 r = h_reg h r) /\ h_reg h3 TP = h_reg h2 TP.
Proof.
  destruct kvec_slots as (K1 & K2 & K3 & K4 & K5). assert (Hsr := Hr SP). set (va := h_reg h SP - 256) in *.
  assert (Ew : wrap64 (h_reg h SP + -256) = va) by (unfold va; rewrite wrap64_small by lia; lia).
  set (h0 := set_reg SP va (take_trap stvec h)).
  assert (Hr0 : regs_ok h0). { intros r. unfold h0. cbn. destruct (decide (r = SP)); [unfold va; lia|apply Hr]. }
  change (kernelvec kerneltrap) with (Addi SP SP (-256) :: save SP kvec_save ++ [Call kerneltrap]).
  erewrite run_step; [|cbn; rewrite Hs; apply W, differs_refl|cbn [exec]; reflexivity].
  change (set_reg SP (wrap64 (h_reg (take_trap stvec h) SP + -256)) (take_trap stvec h)) with (set_reg SP (wrap64 (h_reg h SP + -256)) (take_trap stvec h)).
  rewrite Ew. fold h0.
  destruct (run_save tva tpa after satp va pa 256 SP kvec_save [Call kerneltrap] h0 W Hs eq_refl Hr0 K1 K2) as (m1 & -> & D & HL & _).
  set (h1 := set_reg RA after (set_pc kerneltrap (set_mem m1 h0))).
  exists h1. split_and!; [erewrite run_step; [reflexivity|cbn; rewrite Hs; by apply W|reflexivity]|done|done|done| |done|].
  { intros r Hin Hne. unfold h1, h0. cbn. rewrite (decide_False (P := r = SP)) by done.
    rewrite decide_False; [done|]. intros ->. revert Hin. by refine (bool_decide_unpack (_ ∉ _) _). }
  intros h2 Hs2 Hcs W2 Hkeep Hpc Hst. change (h_mem h1) with m1 in Hkeep.
  assert (HSP : h_reg h2 SP = va) by (rewrite Hcs; [done|by refine (bool_decide_unpack _ _)]).
  change kernelvec_ret with (restore SP kvec_restore ++ [Addi SP SP 256; Sret]).
  destruct (run_restore tva tpa 0 satp va pa 256 SP kvec_restore [Addi SP SP 256; Sret] h2 W2 Hs2 HSP K3 K4 K5) as (f & -> & HL2 & HO2).
  assert (Hf2 : translate (h_mem h2) (h_csr h2 SATP) PTE_X tva = Some tpa) by (rewrite Hs2; apply W2, differs_refl).
  eexists. split; [do 2 (erewrite run_step; [|exact Hf2|reflexivity]); reflexivity|]. cbn [set_user set_csr set_pc set_reg h_pc h_user h_mem h_reg].
  split_and!; [exact Hpc| |done| | |].
  - change (negb (Z.testbit (h_csr h2 SSTATUS) (Z.of_nat STATUS_SPP)) = h_user h). rewrite Hst.
    destruct (take_trap_status stvec h) as [Ht _]. change (h_csr h1 SSTATUS) with (h_csr (take_trap stvec h) SSTATUS). rewrite Ht. apply negb_involutive.
  - change (Z.testbit (sret_status (h_csr h2 SSTATUS)) (Z.of_nat STATUS_SIE) = Z.testbit (h_csr h SSTATUS) (Z.of_nat STATUS_SIE)).
    unfold sret_status. rewrite !testbit_set_bit, Hst. cbn [Nat.eqb STATUS_SIE STATUS_SPP STATUS_SPIE].
    change (h_csr h1 SSTATUS) with (h_csr (take_trap stvec h) SSTATUS). apply take_trap_spie.
  - intros r Hne. destruct (decide (r = SP)) as [->|Hsp']; [rewrite HO2, HSP by done; unfold va; rewrite wrap64_small by lia; lia|].
    destruct (kvec_cases r Hne Hsp') as [[o Hin]|[Hin Hn]].
    + rewrite (HL2 _ _ Hin), Hkeep, (HL r o).
      * unfold h0. cbn. by rewrite decide_False.
      * by apply list_elem_of_filter in Hin as [_ ?].
      * apply (proj1 (Forall_forall _ _) K3). by apply (list_elem_of_fmap_2 snd _ (r, o)).
    + rewrite HO2, Hcs by done. unfold h1, h0. cbn. rewrite (decide_False (P := r = SP)) by done. rewrite decide_False; [done|].
      intros ->. revert Hin. by refine (bool_decide_unpack (_ ∉ _) _).
  - rewrite decide_False by done. apply HO2. by refine (bool_decide_unpack _ _).
Qed.

(** ** The first instructions *)

(** Every hart gets a page of its own of [stack0] as its stack. *)
Theorem entry_stack (stack0 start pc spin : Z) (h : hart) (Hsatp : h_csr h SATP = 0)
    (Hid : 0 <= h_csr h MHARTID < Z.of_nat NCPU) (Hst : 0 <= stack0 <= PHYSTOP - 4096 * Z.of_nat NCPU) :
  exists h', run pc pc spin (entry_code stack0 start) h = Some h' /\ h_pc h' = start /\
    h_reg h' SP = stack0 + 4096 * (h_csr h MHARTID + 1) /\ stack0 < h_reg h' SP <= stack0 + 4096 * Z.of_nat NCPU /\ h_mem h' = h_mem h.
Proof.
  assert (HN : Z.of_nat NCPU = 8) by done. assert (HP : PHYSTOP = 2281701376) by done. rewrite HN, HP in *.
  assert (F : forall m, translate m 0 PTE_X pc = Some pc) by done.
  assert (E : wrap64 (stack0 + wrap64 (1024 * 4 * wrap64 (h_csr h MHARTID + 1))) = stack0 + 4096 * (h_csr h MHARTID + 1)).
  { rewrite (wrap64_small (_ + 1)), (wrap64_small (1024 * 4 * _)), wrap64_small by lia. lia. }
  eexists. split; [unfold entry_code; do 7 (erewrite run_step; [|cbn; rewrite Hsatp; apply F|reflexivity]); reflexivity|].
  match goal with |- context [h_reg ?x SP] =>
    change (h_reg x SP) with (wrap64 (stack0 + wrap64 (1024 * 4 * wrap64 (h_csr h MHARTID + 1)))) end.
  rewrite E. split_and!; [done|done|lia|lia|done].
Qed.
