(* ===== verification/Kvm.v ===== *)
(** * The page tables the kernel makes ([kvmmake] of [vm.c], [proc_pagetable] of [proc.c])

    What the kernel's own page table and the page table of a new process map,
    how much memory they need, and that the memory of a process is given back
    with [proc_freepagetable]. *)

From stdpp Require Import base gmap strings numbers list.
From S2P Require Import Prelude State Spinlock Strings Memory Kalloc Vm PageTable UserSpace UserCopy UserFree Proc Devices Process Asm AsmSpec.

(** ** Pages taken from the free list *)

Section count.
Implicit Types (N : tree) (l : list Z) (s : kst).

(** Every page taken is a page of the tree. *)
Lemma step_count s l root N s' l' N' : vm_inv s l root N -> vm_step s l root N s' l' N' ->
  (length l' + size N' = length l + size N)%nat.
Proof.
  intros I S. assert (I' := step_inv S). assert (Hsub := step_tree S). set (D := N' ∖ N).
  assert (EN : size N' = (size N + size D)%nat).
  { rewrite <- (map_difference_union N N' Hsub). fold D. apply map_size_disj_union. by apply map_disjoint_difference_r1. }
  assert (HD : forall pi p, D !! pi = Some p <-> N' !! pi = Some p /\ N !! pi = None).
  { intros pi p. unfold D. by rewrite lookup_difference_Some. }
  assert (HP : l ≡ₚ l' ++ (map_to_list D).*2).
  { apply NoDup_Permutation.
    - apply (inv_free _ _ _ _ I).
    - apply NoDup_app. split_and!; [apply (inv_free _ _ _ _ I')| |].
      + intros q Hq [[pi p] [-> Hin]]%list_elem_of_fmap_1. apply elem_of_map_to_list, HD in Hin as [Hin _].
        destruct (pt_page (inv_tree _ _ _ _ I') Hin) as (_ & Hn & _). done.
      + apply NoDup_fmap_2_strong; [|apply NoDup_map_to_list]. intros [pi p] [pi' p'] H1 H2 E. cbn in E. subst p'.
        apply elem_of_map_to_list, HD in H1 as [H1 _]. apply elem_of_map_to_list, HD in H2 as [H2 _].
        by rewrite (pt_inj (inv_tree _ _ _ _ I') H1 H2).
    - intros q. rewrite elem_of_app. split.
      + intros Hq. destruct (step_keep S q Hq) as [?|[pi Hpi]]; [by left|right]. apply list_elem_of_fmap. exists (pi, q). split; [done|].
        apply elem_of_map_to_list, HD. split; [done|]. destruct (N !! pi) as [p|] eqn:E; [|done].
        rewrite (lookup_weaken _ _ _ _ E Hsub) in Hpi. injection Hpi as ->.
        by destruct (pt_page (inv_tree _ _ _ _ I) E) as (_ & Hn & _).
      + intros [Hq|[[pi p] [-> Hin]]%list_elem_of_fmap_1]; [by apply (step_list S)|].
        apply elem_of_map_to_list, HD in Hin as [Hin Hn]. destruct (step_pages S pi p Hin); [congruence|done]. }
  rewrite HP, length_app, length_fmap, length_map_to_list. lia.
Qed.

(** The paths of the tree are among [P]. *)
Definition within (P : list (list Z)) (N : tree) : Prop := forall pi, is_Some (N !! pi) -> pi ∈ P.

Lemma within_size P N : within P N -> (size N <= length P)%nat.
Proof.
  intros H. rewrite <- length_map_to_list, <- (length_fmap fst). apply submseteq_length, NoDup_submseteq; [apply NoDup_fst_map_to_list|].
  intros pi [[pi' p] [-> Hin]]%list_elem_of_fmap_1. apply H. apply elem_of_map_to_list in Hin. by eexists.
Qed.

Lemma within_size_lt P N pi : within P N -> pi ∈ P -> N !! pi = None -> (size N < length P)%nat.
Proof.
  intros H Hin Hn. rewrite <- length_map_to_list, <- (length_fmap fst).
  apply (submseteq_length (pi :: (map_to_list N).*1)), NoDup_submseteq.
  - apply NoDup_cons. split; [|apply NoDup_fst_map_to_list]. intros [[pi' p] [-> Hp]]%list_elem_of_fmap_1. apply elem_of_map_to_list in Hp. cbn in Hn. congruence.
  - intros pi' [->|[[pi2 p] [-> Hp]]%list_elem_of_fmap_1]%elem_of_cons; [done|]. apply H. apply elem_of_map_to_list in Hp. by eexists.
Qed.

(** The paths of the addresses from [a] to [b] are. *)
Definition covers (P : list (list Z)) (a b : Z) : Prop := forall va, a <= va < b -> [PX 2 va] ∈ P /\ path va ∈ P.

Lemma within_new P a b N N' : within P N -> covers P a b -> new_paths a b N N' -> within P N'.
Proof. intros H C Hn pi Hpi. destruct (Hn pi Hpi) as [?|(va & Hva & [->| ->])]; [by apply H|by apply C..]. Qed.

(** [kvmmap] succeeds when there are pages for the paths that are missing. *)
Lemma wp_kvmmap P root va pa perm (n : nat) s l N Q :
  vm_inv s l root N -> within P N -> (length P <= length l + size N)%nat -> covers P va (va + Z.of_nat (S n) * PGSIZE) ->
  vpage va -> va + Z.of_nat (S n) * PGSIZE <= MAXVA -> aligned pa -> 0 <= pa -> pa + Z.of_nat (S n) * PGSIZE <= 2 ^ 56 ->
  0 <= perm < 2 ^ 10 ->
  (forall va', vpage va' -> va <= va' < va + Z.of_nat (S n) * PGSIZE -> leaf (k_mem s) root va' = None) ->
  (forall s' l' N', vm_step s l root N s' l' N' -> maps root va pa perm (S n) (k_mem s) (k_mem s') -> within P N' ->
     (length l' + size N' = length l + size N)%nat -> Q tt s') ->
  wp (kvmmap root va pa (Z.of_nat (S n) * PGSIZE) perm) Q s.
Proof.
  intros I HW HP HC Hva Hmax Hpa Hpa0 Hpa1 Hperm Hnone HQ. unfold kvmmap. apply wp_bind.
  apply (wp_mappages_paths root va _ pa perm s l N _ n); [done..|].
  intros r j s' l' N' S M _ Pn Hr. assert (Hc := step_count _ _ _ _ _ _ _ I S). assert (HW' := within_new _ _ _ _ _ HW HC Pn).
  destruct Hr as [[-> ->]|(_ & _ & -> & va' & Hva' & Hmiss)]; [apply wp_ret; by eapply HQ|].
  destruct (HC va' Hva') as [_ Hp]. pose proof (within_size_lt _ _ _ HW' Hp Hmiss). cbn [length] in Hc. lia.
Qed.

End count.

(** ** The addresses of the kernel *)

(** The page-table pages the kernel's page table needs. *)
Definition kernel_paths : list (list Z) :=
  [[]; [0]; [2]; [255]] ++ ((fun i => [0; i]) <$> seqZ 96 33) ++ ((fun i => [2; i]) <$> seqZ 0 64) ++ [[255; 511]].

Lemma PX_within va i lo hi : 0 <= i < 512 -> 0 <= lo -> hi <= 512 -> i * 2 ^ 30 + lo * 2 ^ 21 <= va < i * 2 ^ 30 + hi * 2 ^ 21 ->
  PX 2 va = i /\ lo <= PX 1 va < hi.
Proof.
  intros Hi Hlo Hhi Hva. rewrite !PX_div by lia. change (2 ^ (12 + 9 * 2)) with (2 ^ 30). change (2 ^ (12 + 9 * 1)) with (2 ^ 21).
  assert (E : va / 2 ^ 30 = i) by (symmetry; apply (Z.div_unique_pos _ _ _ (va - i * 2 ^ 30)); lia).
  rewrite E, Z.mod_small by lia. split; [done|].
  assert (E2 : va / 2 ^ 21 = i * 512 + (va - i * 2 ^ 30) / 2 ^ 21).
  { replace va with ((va - i * 2 ^ 30) + (i * 512) * 2 ^ 21) at 1 by lia. rewrite Z.div_add by lia. lia. }
  assert (Hq : lo <= (va - i * 2 ^ 30) / 2 ^ 21 < hi).
  { split; [apply Z.div_le_lower_bound; lia|apply Z.div_lt_upper_bound; lia]. }
  rewrite E2, Z.add_comm, Z.mod_add, Z.mod_small by lia. done.
Qed.

Lemma covers_low a b : PLIC <= a -> b <= UART0 + 2 ^ 21 -> covers kernel_paths a b.
Proof.
  intros Ha Hb va Hva. assert (HP : PLIC = 201326592) by done. assert (HU : UART0 = 268435456) by done.
  destruct (PX_within va 0 96 129) as [E H]; [lia..|]. unfold path. rewrite E. split; [by refine (bool_decide_unpack _ _)|].
  unfold kernel_paths. rewrite !elem_of_app, !list_elem_of_fmap. right. left. exists (PX 1 va). split; [done|]. apply elem_of_seqZ. lia.
Qed.

Lemma covers_ram a b : KERNBASE <= a -> b <= PHYSTOP -> covers kernel_paths a b.
Proof.
  intros Ha Hb va Hva. assert (HP : PHYSTOP = 2281701376) by done. assert (HB : KERNBASE = 2147483648) by done.
  destruct (PX_within va 2 0 64) as [E H]; [lia..|]. unfold path. rewrite E. split; [by refine (bool_decide_unpack _ _)|].
  unfold kernel_paths. rewrite !elem_of_app, !list_elem_of_fmap. right. right. left. exists (PX 1 va). split; [done|]. apply elem_of_seqZ. lia.
Qed.

Lemma covers_high a b : MAXVA - 2 ^ 21 <= a -> b <= MAXVA -> covers kernel_paths a b.
Proof.
  intros Ha Hb va Hva. assert (HP : MAXVA = 2 ^ 38) by done.
  destruct (PX_within va 255 511 512) as [E H]; [lia..|]. unfold path. rewrite E. replace (PX 1 va) with 511 by lia.
  split; by refine (bool_decide_unpack _ _).
Qed.

(** What is mapped, but for the stacks. *)
Definition base_leaf (etext tramp va : Z) : option Z :=
  if decide (va = TRAMPOLINE) then Some (mk_pte tramp RX) else
  if decide (etext <= va < PHYSTOP) then Some (mk_pte va RW) else
  if decide (KERNBASE <= va < etext) then Some (mk_pte va RX) else
  if decide (PLIC <= va < PLIC + 0x4000000) then Some (mk_pte va RW) else
  if decide (va = VIRTIO0 \/ va = UART0) then Some (mk_pte va RW) else None.

(** The stacks, each with an unmapped page below it. *)
Definition stack_leaf (stacks : list Z) (va : Z) : option Z :=
  let i := Z.to_nat ((TRAMPOLINE - va) / (2 * PGSIZE) - 1) in
  if decide (va = KSTACK i) then (fun q => mk_pte q RW) <$> stacks !! i else None.

Definition kernel_leaf (etext tramp : Z) (stacks : list Z) (va : Z) : option Z :=
  match stack_leaf stacks va with Some v => Some v | None => base_leaf etext tramp va end.

Lemma TRAMPOLINE_val : TRAMPOLINE = 2 ^ 38 - 4096.
Proof. done. Qed.

Lemma stack_index i : Z.to_nat ((TRAMPOLINE - KSTACK i) / (2 * PGSIZE) - 1) = i.
Proof.
  unfold KSTACK, PGSIZE. replace (TRAMPOLINE - (TRAMPOLINE - (Z.of_nat i + 1) * 2 * 4096)) with ((Z.of_nat i + 1) * (2 * 4096)) by lia.
  rewrite Z.div_mul by lia. lia.
Qed.

Lemma stack_leaf_at stacks i : stack_leaf stacks (KSTACK i) = (fun q => mk_pte q RW) <$> stacks !! i.
Proof. unfold stack_leaf. by rewrite stack_index, decide_True. Qed.

Lemma stack_leaf_snoc stacks q va :
  stack_leaf (stacks ++ [q]) va = if decide (va = KSTACK (length stacks)) then Some (mk_pte q RW) else stack_leaf stacks va.
Proof.
  case_decide as E; [subst va; rewrite stack_leaf_at; by rewrite lookup_app_r, Nat.sub_diag by lia|].
  unfold stack_leaf. set (i := Z.to_nat _). case_decide as Ei; [|done]. f_equal.
  destruct (decide (i < length stacks)%nat); [by rewrite lookup_app_l|]. rewrite !lookup_ge_None_2; [done|lia|].
  rewrite length_app. cbn. assert (i <> length stacks) by congruence. lia.
Qed.

Lemma stack_leaf_nil va : stack_leaf [] va = None.
Proof. unfold stack_leaf. by case_decide. Qed.

Lemma KSTACK_range i : (i < NPROC)%nat -> MAXVA - 2 ^ 21 <= KSTACK i - PGSIZE /\ KSTACK i + PGSIZE < TRAMPOLINE /\ aligned (KSTACK i).
Proof.
  intros Hi. assert (HN : NPROC = 64%nat) by done. assert (HM : MAXVA = 2 ^ 38) by done. unfold KSTACK, aligned, PGSIZE. rewrite TRAMPOLINE_val, HM. split_and!; [lia|lia|].
  replace (2 ^ 38 - 4096 - (Z.of_nat i + 1) * 2 * 4096) with ((2 ^ 26 - 1 - (Z.of_nat i + 1) * 2) * 4096) by lia. by apply Z.mod_mul.
Qed.

Lemma stack_leaf_guard stacks i : stack_leaf stacks (KSTACK i - PGSIZE) = None.
Proof.
  unfold stack_leaf. replace (Z.to_nat _) with i; [by rewrite decide_False by (unfold PGSIZE; lia)|].
  unfold KSTACK, PGSIZE. replace (TRAMPOLINE - (TRAMPOLINE - (Z.of_nat i + 1) * 2 * 4096 - 4096)) with (4096 + (Z.of_nat i + 1) * (2 * 4096)) by lia.
  rewrite Z.div_add by lia. change (4096 / (2 * 4096)) with 0. lia.
Qed.

Lemma base_leaf_high etext tramp va : etext <= PHYSTOP -> MAXVA - 2 ^ 21 <= va -> va <> TRAMPOLINE -> base_leaf etext tramp va = None.
Proof.
  intros He Hva Ht. assert (HM : MAXVA = 2 ^ 38) by done. assert (HP : PHYSTOP = 2281701376) by done.
  assert (HL : PLIC = 201326592) by done. assert (HU : UART0 = 268435456) by done. assert (HV : VIRTIO0 = 268439552) by done.
  unfold base_leaf. repeat case_decide; (lia || done).
Qed.

(** No page is mapped below a stack. *)
Lemma kernel_leaf_guard etext tramp stacks i : etext <= PHYSTOP -> (i < NPROC)%nat -> kernel_leaf etext tramp stacks (KSTACK i - PGSIZE) = None.
Proof.
  intros He Hi. destruct (KSTACK_range i Hi) as (H1 & H2 & _). unfold kernel_leaf. rewrite stack_leaf_guard.
  apply base_leaf_high; [done|done|]. unfold PGSIZE in *. lia.
Qed.

(** ** A new page table *)

Lemma ld64_memset m q i : 0 <= i < 512 -> ld64 (memset m q 0 pgsize) (q + 8 * i) = 0.
Proof.
  intros Hi. apply (ldn_zero 8). intros x Hx. rewrite memset_spec, pgsize_Z. change (Z.of_nat 8) with 8 in Hx. zcases; lia || done.
Qed.

Lemma new_root s s1 q l : sync_wf (k_sync s) -> lock_free LKmem (k_sync s) -> kmem_wf s (q :: l) -> vm_frame s s1 -> kmem_wf s1 l ->
  let s2 := set_k_mem (memset (k_mem s1) q 0 pgsize) s1 in
  vm_inv s2 l q {[ [] := q ]} /\ forall va, leaf (k_mem s2) q va = None.
Proof.
  intros Hw Hl Hk Hf Hk1 s2. destruct Hk as [Hend _ Hnd Hall]. apply Forall_cons in Hall as [Hq Hall]. apply NoDup_cons in Hnd as [Hql _].
  assert (Hz : forall i, 0 <= i < 512 -> has (ld64 (k_mem s2) (q + 8 * i)) PTE_V = false).
  { intros i Hi. cbn [s2 set_k_mem k_mem]. by rewrite ld64_memset. }
  assert (Hf2 : vm_frame s s2) by (eapply vm_frame_trans; [exact Hf|apply vm_frame_mem]). split.
  - split; [by eapply vm_frame_wf|by eapply vm_frame_lock| |].
    + apply kmem_wf_mem; [done|]. intros r Hr. rewrite Forall_forall in Hall. destruct (Hall r Hr) as [Har _].
      apply (same_outside_ld64 q); [apply same_outside_memset|].
      destruct (aligned_disjoint r q Har (proj1 Hq)); [congruence|unfold PGSIZE in *; lia..].
    + change (k_end s2) with (k_end s1). rewrite (vm_frame_end _ _ Hf). split.
      * by rewrite lookup_singleton_eq.
      * intros pi p [<- <-]%lookup_singleton_Some. split_and!; [done|done|cbn; lia].
      * by intros pi pi' p [<- _]%lookup_singleton_Some [<- _]%lookup_singleton_Some.
      * intros pi i p [E _]%lookup_singleton_Some. by destruct pi.
      * intros pi p i [<- <-]%lookup_singleton_Some _ Hi. cbn [app]. rewrite lookup_singleton_ne by done. by apply Hz.
  - intros va. unfold leaf, leaf_addr. by rewrite Hz by apply PX_range.
Qed.

(** ** [kvmmake] *)

(** The page table at [root] maps what [f] says; the pages [X] are in use,
    but not for the table. *)
Record ktab (s0 : kst) (root : Z) (X : list Z) (f : Z -> option Z) (s : kst) (l : list Z) (N : tree) : Prop := {
  kt_inv : vm_inv s l root N;
  kt_frame : vm_frame s0 s;
  kt_in : within kernel_paths N;
  kt_leaf : forall va, vpage va -> leaf (k_mem s) root va = f va;
  kt_private : forall q, q ∈ X -> page_ok (k_end s0) q /\ q ∉ l /\ ~ tree_page N q
}.

Definition add_leaf (va sz pa perm : Z) (f : Z -> option Z) (va' : Z) : option Z :=
  if decide (va <= va' < va + sz) then Some (mk_pte (pa + (va' - va)) (Z.lor perm PTE_V)) else f va'.

Lemma ktab_ext s0 root X f g s l N : (forall va, vpage va -> f va = g va) -> ktab s0 root X f s l N -> ktab s0 root X g s l N.
Proof. intros E [H1 H2 H3 H4 H5]. split; [done..| |done]. intros va Hva. by rewrite H4, E. Qed.

Section kvm.
Context (s0 : kst) (root : Z).
Implicit Types (s : kst) (l X : list Z) (N : tree) (f : Z -> option Z).

Lemma wp_kvmmap_tab X f s l N va pa sz perm Q :
  ktab s0 root X f s l N -> (length kernel_paths <= length l + size N)%nat -> covers kernel_paths va (va + sz) ->
  vpage va -> aligned sz -> 0 < sz -> va + sz <= MAXVA -> aligned pa -> 0 <= pa -> pa + sz <= 2 ^ 56 -> 0 <= perm < 2 ^ 10 ->
  (forall va', vpage va' -> va <= va' < va + sz -> f va' = None) ->
  (forall s' l' N', ktab s0 root X (add_leaf va sz pa perm f) s' l' N' -> (length l' + size N' = length l + size N)%nat -> Q tt s') ->
  wp (kvmmap root va pa sz perm) Q s.
Proof.
  intros [H1 H2 H3 H4 H5] HP HC Hva Hsz Hsz0 Hmax Hpa Hpa0 Hpa1 Hperm Hnone HQ.
  assert (exists n, sz = Z.of_nat (S n) * PGSIZE) as [n ->].
  { exists (Z.to_nat (sz / PGSIZE - 1)). unfold aligned, PGSIZE in *. pose proof (Z.div_mod sz 4096). lia. }
  apply (wp_kvmmap kernel_paths root va pa perm n s l N); try done; [intros va' Hv Hr; rewrite H4 by done; by apply Hnone|].
  intros s' l' N' S M W C. apply (HQ s' l' N'); [|done]. split; [apply (step_inv S)| |done| |].
  - eapply vm_frame_trans; [exact H2|apply (step_frame S)].
  - intros va' Hv'. rewrite (M va' Hv'). unfold add_leaf. case_decide; [done|by apply H4].
  - intros q Hq. destruct (H5 q Hq) as (P1 & P2 & P3). split_and!; [done|intros Hin; by apply P2, (step_list S)|].
    intros [pi Hpi]. destruct (step_pages S pi q Hpi) as [Hq1|Hq1]; [|done]. apply P3. by exists pi.
Qed.

(** A page for the kernel's own use. *)
Lemma wp_kalloc_tab X f s l N Q : ktab s0 root X f s l N -> (0 < length l)%nat ->
  (forall q l' s', 0 < q -> q ∉ X -> ktab s0 root (q :: X) f s' l' N -> (S (length l') = length l)%nat -> Q q s') -> wp kalloc Q s.
Proof.
  intros [H1 H2 H3 H4 H5] Hl HQ. apply (wp_kalloc_vm s l root N); [done|intros s' ->; cbn in Hl; lia|].
  intros q l' s' -> Hq Hq0 Hn Ht I' F' L' _. assert (E := vm_frame_end _ _ H2). rewrite E in Hq. apply (HQ q l' s'); [done| | |done].
  - intros Hin. destruct (H5 q Hin) as (_ & P2 & _). apply P2. constructor.
  - split; [done|by eapply vm_frame_trans|done|intros va Hva; by rewrite L', H4|]. intros r [->|Hr]%elem_of_cons; [done|].
    destruct (H5 r Hr) as (P1 & P2 & P3). split_and!; [done| |done]. intros Hin. apply P2. by constructor.
Qed.

Lemma wp_proc_mapstacks etext tramp s l N Q : etext <= PHYSTOP ->
  ktab s0 root [] (base_leaf etext tramp) s l N -> (length kernel_paths + NPROC <= length l + size N)%nat ->
  (forall s' l' N' stacks, ktab s0 root stacks (kernel_leaf etext tramp (rev stacks)) s' l' N' -> NoDup stacks -> length stacks = NPROC ->
     (length l' + size N' + NPROC = length l + size N)%nat -> Q tt s') ->
  wp (proc_mapstacks root) Q s.
Proof.
  intros He T HP HQ. unfold proc_mapstacks.
  apply (wp_for_each (fun pre s1 => exists l1 N1 stacks, ktab s0 root stacks (kernel_leaf etext tramp (rev stacks)) s1 l1 N1 /\
    NoDup stacks /\ length stacks = length pre /\ (length l1 + size N1 + length pre = length l + size N)%nat)).
  - exists l, N, []. split_and!; [|constructor|done|cbn; lia]. eapply ktab_ext; [|exact T]. intros va _. unfold kernel_leaf. by rewrite stack_leaf_nil.
  - intros pre i post s1 Epre (l1 & N1 & stacks & T1 & Hnd & Hlen & Hc).
    assert (Hi : i = length pre /\ (i < NPROC)%nat).
    { assert (E : seq 0 NPROC !! length pre = Some i) by (rewrite Epre; by apply list_lookup_middle). apply lookup_seq in E. lia. }
    destruct Hi as [-> Hi]. destruct (KSTACK_range _ Hi) as (R1 & R2 & R3). assert (HM : MAXVA = 2 ^ 38) by done.
    assert (Hs := within_size _ _ (kt_in _ _ _ _ _ _ _ T1)).
    apply wp_bind, (wp_kalloc_tab stacks (kernel_leaf etext tramp (rev stacks)) s1 l1 N1); [done|lia|].
    intros q l2 s2 Hq Hqn T2 Hc2. destruct (Z.eqb_spec q 0); [lia|].
    destruct (kt_private _ _ _ _ _ _ _ T2 q) as ([Hqa Hqr] & _); [constructor|].
    assert (HPH : PHYSTOP = 2281701376) by done. rewrite TRAMPOLINE_val in R2. unfold PGSIZE in *.
    apply (wp_kvmmap_tab (q :: stacks) (kernel_leaf etext tramp (rev stacks)) s2 l2 N1); try done;
      [lia|apply covers_high; unfold PGSIZE; lia|split; [done|unfold PGSIZE; lia]|lia|unfold PGSIZE; lia..| |].
    + intros va' [Ha' _] Hr'. assert (va' = KSTACK (length pre)) as ->.
      { unfold aligned, PGSIZE in *. pose proof (Z.div_mod va' 4096). pose proof (Z.div_mod (KSTACK (length pre)) 4096). lia. }
      unfold kernel_leaf. rewrite stack_leaf_at, lookup_ge_None_2 by (rewrite length_rev; lia). cbn. apply base_leaf_high; [done|lia|].
      rewrite TRAMPOLINE_val. lia.
    + intros s3 l3 N3 T3 Hc3. exists l3, N3, (q :: stacks). split_and!; [|by constructor|cbn; rewrite length_app; cbn; lia|rewrite length_app; cbn; lia].
      eapply ktab_ext; [|exact T3]. intros va [Hva _]. unfold kernel_leaf. cbn [rev]. rewrite stack_leaf_snoc, length_rev, Hlen. unfold add_leaf.
      destruct (decide (va = KSTACK (length pre))) as [->|Hne].
      * rewrite decide_True by (unfold PGSIZE; lia). by rewrite Z.sub_diag, Z.add_0_r.
      * rewrite decide_False; [done|]. intros Hr. apply Hne. unfold aligned, PGSIZE in *. pose proof (Z.div_mod va 4096).
        pose proof (Z.div_mod (KSTACK (length pre)) 4096). lia.
  - intros s1 (l1 & N1 & stacks & T1 & Hnd & Hlen & Hc). rewrite length_seq in *. by apply (HQ s1 l1 N1 stacks).
Qed.

End kvm.

Section kvmmake.
Context {I : Image}.
Context (He1 : aligned sym_etext) (He2 : KERNBASE < sym_etext < PHYSTOP) (Ht1 : aligned sym_trampoline) (Ht2 : 0 <= sym_trampoline < 2 ^ 55).

(** The maps of [kvmmake] before those of the stacks, from the last one on. *)
Definition kvm_maps : Z -> option Z :=
  add_leaf TRAMPOLINE PGSIZE sym_trampoline (Z.lor PTE_R PTE_X)
    (add_leaf sym_etext (PHYSTOP - sym_etext) sym_etext (Z.lor PTE_R PTE_W)
      (add_leaf KERNBASE (sym_etext - KERNBASE) KERNBASE (Z.lor PTE_R PTE_X)
        (add_leaf PLIC 0x4000000 PLIC (Z.lor PTE_R PTE_W)
          (add_leaf VIRTIO0 PGSIZE VIRTIO0 (Z.lor PTE_R PTE_W)
            (add_leaf UART0 PGSIZE UART0 (Z.lor PTE_R PTE_W) (fun _ => None)))))).

Lemma one_page a va : aligned a -> aligned va -> a <= va < a + PGSIZE <-> va = a.
Proof using. unfold aligned, PGSIZE. intros. pose proof (Z.div_mod va 4096). pose proof (Z.div_mod a 4096). lia. Qed.

Lemma kvm_maps_base va : vpage va -> kvm_maps va = base_leaf sym_etext sym_trampoline va.
Proof using He2.
  clear Ht1 Ht2. intros [Ha Hr]. unfold kvm_maps, add_leaf, base_leaf.
  assert (H1 := one_page TRAMPOLINE va eq_refl Ha). assert (H2 := one_page VIRTIO0 va eq_refl Ha). assert (H3 := one_page UART0 va eq_refl Ha).
  replace (sym_etext + (PHYSTOP - sym_etext)) with PHYSTOP by lia. replace (KERNBASE + (sym_etext - KERNBASE)) with sym_etext by lia.
  replace (sym_etext + (va - sym_etext)) with va by lia. replace (KERNBASE + (va - KERNBASE)) with va by lia.
  replace (PLIC + (va - PLIC)) with va by lia. replace (VIRTIO0 + (va - VIRTIO0)) with va by lia. replace (UART0 + (va - UART0)) with va by lia.
  destruct (decide (TRAMPOLINE <= va < TRAMPOLINE + PGSIZE)) as [Ht|Ht].
  { apply H1 in Ht. rewrite (decide_True (P := va = TRAMPOLINE)) by done. by rewrite Ht, Z.sub_diag, Z.add_0_r. }
  rewrite (decide_False (P := va = TRAMPOLINE)) by tauto. do 3 (case_decide; [done|]).
  destruct (decide (VIRTIO0 <= va < VIRTIO0 + PGSIZE)); [by rewrite decide_True by tauto|].
  destruct (decide (UART0 <= va < UART0 + PGSIZE)); [by rewrite decide_True by tauto|by rewrite decide_False by tauto].
Qed.

Lemma wp_kvmmake s l Q : sync_wf (k_sync s) -> lock_free LKmem (k_sync s) -> kmem_wf s l -> (length kernel_paths + NPROC <= length l)%nat ->
  (forall root s' l' N stacks, ktab s root stacks (kernel_leaf sym_etext sym_trampoline (rev stacks)) s' l' N -> NoDup stacks -> length stacks = NPROC ->
     (length l' + size N + NPROC = length l)%nat -> Q root s') ->
  wp kvmmake Q s.
Proof using Type*.
  intros Hw Hl Hk HP HQ. unfold kvmmake. apply wp_bind. eapply wp_mono; [exact (wp_kalloc_list s l Hw Hl Hk)|]. cbv beta.
  intros r s1 (Hf%kmem_vm_frame & Hk1). destruct l as [|root l]; [cbn in HP; lia|]. destruct Hk1 as (-> & Hk1 & _).
  destruct (new_root s s1 root l Hw Hl Hk Hf Hk1) as [I2 L2]. set (s2 := set_k_mem _ s1) in I2, L2.
  assert (Hroot : 0 < root). { destruct Hk as [Hend _ _ Hall]. apply Forall_cons in Hall as [Hq _]. pose proof (page_ok_pos _ _ Hend Hq). lia. }
  destruct (Z.eqb_spec root 0); [lia|]. apply wp_bind, wp_modify. fold s2. cbn [length] in HP.
  assert (T : ktab s root [] (fun _ => None) s2 l {[ [] := root ]}).
  { split; [done|eapply vm_frame_trans; [exact Hf|apply vm_frame_mem]| |done|intros q Hq; by apply not_elem_of_nil in Hq].
    intros pi [p [<- _]%lookup_singleton_Some]. by refine (bool_decide_unpack _ _). }
  assert (Hsz : size ({[ [] := root ]} : tree) = 1%nat) by apply map_size_singleton.
  assert (E1 : PHYSTOP = 2281701376) by done. assert (E2 : KERNBASE = 2147483648) by done. assert (E3 : MAXVA = 2 ^ 38) by done.
  assert (E4 : PLIC = 201326592) by done. assert (E5 : UART0 = 268435456) by done. assert (E6 : VIRTIO0 = 268439552) by done.
  assert (E7 := TRAMPOLINE_val). assert (E8 : PGSIZE = 4096) by done.
  apply wp_bind, (wp_kvmmap_tab s root [] (fun _ => None) s2 l {[ [] := root ]}); try done; [lia|apply covers_low; lia|].
  intros s3 l3 N3 T3 C3.
  apply wp_bind. eapply (wp_kvmmap_tab s root); [exact T3|lia|apply covers_low; lia|done|done|done|done|done|done|done|done| |].
  { intros va' _ Hr. unfold add_leaf. rewrite decide_False by lia. done. }
  intros s4 l4 N4 T4 C4.
  apply wp_bind. eapply (wp_kvmmap_tab s root); [exact T4|lia|apply covers_low; lia|done|done|done|done|done|done|done|done| |].
  { intros va' _ Hr. unfold add_leaf. rewrite !decide_False by lia. done. }
  intros s5 l5 N5 T5 C5.
  assert (Ha : aligned (sym_etext - KERNBASE) /\ aligned (PHYSTOP - sym_etext)).
  { unfold aligned in *. rewrite E1, E2, E8 in *. pose proof (Z.div_mod sym_etext 4096). split.
    - replace (sym_etext - 2147483648) with ((sym_etext / 4096 - 524288) * 4096) by lia. by apply Z.mod_mul.
    - replace (2281701376 - sym_etext) with ((557056 - sym_etext / 4096) * 4096) by lia. by apply Z.mod_mul. }
  apply wp_bind. eapply (wp_kvmmap_tab s root); [exact T5|lia|apply covers_ram; lia|split; [done|lia]|apply Ha|lia|lia|done|lia|lia|done| |].
  { intros va' _ Hr. unfold add_leaf. rewrite !decide_False by lia. done. }
  intros s6 l6 N6 T6 C6.
  apply wp_bind. eapply (wp_kvmmap_tab s root); [exact T6|lia|apply covers_ram; lia|split; [done|lia]|apply Ha|lia|lia|done|lia|lia|done| |].
  { intros va' _ Hr. unfold add_leaf. rewrite !decide_False by lia. done. }
  intros s7 l7 N7 T7 C7.
  apply wp_bind. eapply (wp_kvmmap_tab s root); [exact T7|lia|apply covers_high; lia|split; [done|lia]|done|done|lia|done|lia|lia|done| |].
  { intros va' _ Hr. unfold add_leaf. rewrite !decide_False by lia. done. }
  intros s8 l8 N8 T8 C8.
  apply wp_bind, (wp_proc_mapstacks s root sym_etext sym_trampoline s8 l8 N8); [lia|exact (ktab_ext _ _ _ _ _ _ _ _ kvm_maps_base T8)|lia|].
  intros s9 l9 N9 stacks T9 Hnd Hlen C9. apply wp_ret. apply (HQ root s9 l9 N9 stacks); [done|done|done|cbn [length]; lia].
Qed.

End kvmmake.

(** No page of the kernel is open to user code, or both writable and
    executable. *)
Lemma kernel_leaf_flags etext tramp stacks va v : kernel_leaf etext tramp stacks va = Some v ->
  has v PTE_U = false /\ has v PTE_W && has v PTE_X = false.
Proof.
  assert (H : forall q f, f = RX \/ f = RW -> has (mk_pte q f) PTE_U = false /\ has (mk_pte q f) PTE_W && has (mk_pte q f) PTE_X = false).
  { intros q f Hf. rewrite !has_mk_pte by done. by destruct Hf as [->| ->]. }
  unfold kernel_leaf, stack_leaf, base_leaf. case_decide as Ek; [destruct (stacks !! _) as [q|]|].
  1: intros [= <-]; apply H; by right.
  all: cbn; repeat case_decide; first [done|intros [= <-]; apply H; tauto].
Qed.

Lemma kernel_leaf_low etext tramp stacks va : va < MAXVA - 2 ^ 21 -> (length stacks <= NPROC)%nat -> kernel_leaf etext tramp stacks va = base_leaf etext tramp va.
Proof.
  intros Hva Hn. unfold kernel_leaf, stack_leaf. case_decide as Ek; [|done]. set (i := Z.to_nat _) in *.
  destruct (stacks !! i) as [q|] eqn:E; [|done]. apply lookup_lt_Some in E.
  destruct (KSTACK_range i) as [H1 _]; [lia|]. unfold PGSIZE in *. lia.
Qed.

Lemma kernel_table_maps kend l m root N etext tramp stacks : pt_wf kend l m root N -> aligned etext -> KERNBASE < etext <= kend -> kend <= PHYSTOP ->
  (length stacks <= NPROC)%nat -> (forall va, vpage va -> leaf m root va = kernel_leaf etext tramp stacks va) ->
  kernel_maps kend l m root N etext.
Proof.
  intros H He1 He2 He3 Hs HL. assert (E1 : PHYSTOP = 2281701376) by done. assert (E2 : KERNBASE = 2147483648) by done. assert (E3 : MAXVA = 2 ^ 38) by done.
  split; [done| | |split_and!; [done|lia|lia|lia]].
  - intros va Ha Hr. rewrite HL, kernel_leaf_low by (done || lia || (split; [done|lia])). unfold base_leaf. rewrite TRAMPOLINE_val.
    do 2 (rewrite decide_False by lia). by rewrite decide_True.
  - intros va Ha Hr. rewrite HL, kernel_leaf_low by (done || lia || (split; [done|lia])). unfold base_leaf. rewrite TRAMPOLINE_val.
    rewrite decide_False by lia. by rewrite decide_True.
Qed.

(** ** Properties *)

(** C5: [kvmmake] makes the kernel's page table: with 166 free pages it succeeds,
    and it never uses more. Devices, the kernel's code and all memory are
    mapped where they are, the trampoline at the top of the address space and
    64 kernel stacks below it, on pages of their own, each with an unmapped
    page below it; nothing else is mapped, nothing is open to user code, and
    no page is both writable and executable. *)
Theorem kvmmake_spec {I : Image} (s : kst) (l : list Z) (Hwf : sync_wf (k_sync s)) (Hlock : lock_free LKmem (k_sync s)) (Hk : kmem_wf s l)
    (Hmem : (166 <= length l)%nat) (He : aligned sym_etext) (Hb : KERNBASE < sym_etext <= k_end s)
    (Ht : aligned sym_trampoline) (Hr : KERNBASE <= sym_trampoline < sym_etext) :
  wp kvmmake (fun root s' => exists l' N stacks,
    vm_inv s' l' root N /\ vm_frame s s' /\ (length l <= length l' + 166)%nat /\
    (forall va, vpage va -> leaf (k_mem s') root va = kernel_leaf sym_etext sym_trampoline stacks va) /\
    length stacks = NPROC /\ NoDup stacks /\ (forall q, q ∈ stacks -> page_ok (k_end s) q /\ q ∉ l' /\ ~ tree_page N q) /\
    (forall i, (i < NPROC)%nat -> leaf (k_mem s') root (KSTACK i - PGSIZE) = None) /\
    (forall va v, vpage va -> leaf (k_mem s') root va = Some v -> has v PTE_U = false /\ has v PTE_W && has v PTE_X = false) /\
    kernel_maps (k_end s) l' (k_mem s') root N sym_etext) s.
Proof.
  assert (E1 : PHYSTOP = 2281701376) by done.
  assert (Hend : k_end s < PHYSTOP).
  { destruct Hk as [_ _ _ Hall]. destruct l as [|q l]; [cbn in Hmem; lia|]. apply Forall_cons in Hall as [[_ Hq] _]. lia. }
  apply (wp_kvmmake He ltac:(lia) Ht ltac:(unfold KERNBASE in *; lia) s l); [done|done|done|by change (length kernel_paths + NPROC)%nat with 166%nat|].
  intros root s' l' N stacks T Hnd Hlen C. assert (Hs := within_size _ _ (kt_in _ _ _ _ _ _ _ T)). change (length kernel_paths) with 102%nat in Hs.
  change NPROC with 64%nat in C. destruct T as [T1 T2 T3 T4 T5]. exists l', N, (rev stacks). split_and!; try done.
  - lia.
  - by rewrite length_rev.
  - by apply NoDup_ListNoDup, NoDup_rev, NoDup_ListNoDup.
  - intros q Hq. apply T5, list_elem_of_In, in_rev, list_elem_of_In. done.
  - intros i Hi. destruct (KSTACK_range i Hi) as (R1 & R2 & R3). assert (E3 : MAXVA = 2 ^ 38) by done. rewrite TRAMPOLINE_val in R2.
    rewrite T4; [apply kernel_leaf_guard; [lia|done]|]. unfold vpage, aligned, PGSIZE in *. split; [|lia].
    rewrite <- (Z.mod_add _ 1), Z.mul_1_l, Z.sub_add by lia. done.
  - intros va v Hva Hv. apply (kernel_leaf_flags sym_etext sym_trampoline (rev stacks) va). by rewrite <- T4.
  - apply (kernel_table_maps _ _ _ _ _ _ sym_trampoline (rev stacks)); [|done|done|lia|rewrite length_rev; lia|done].
    rewrite <- (vm_frame_end _ _ T2). apply T1.
Qed.

(** ** The page table of a new process *)

Definition user_paths : list (list Z) := [[]; [255]; [255; 511]].

Lemma path_high va : MAXVA - 2 ^ 21 <= va < MAXVA -> path va = [255; 511] /\ [PX 2 va] = [255].
Proof.
  intros Hva. assert (HP : MAXVA = 2 ^ 38) by done. destruct (PX_within va 255 511 512) as [E H]; [lia..|]. unfold path. rewrite E.
  by replace (PX 1 va) with 511 by lia.
Qed.

Lemma covers_user a b : MAXVA - 2 ^ 21 <= a -> b <= MAXVA -> covers user_paths a b.
Proof. intros Ha Hb va Hva. destruct (path_high va) as [-> ->]; [lia|]. split; by refine (bool_decide_unpack _ _). Qed.

(** What a new page table maps. *)
Definition user_leaf (tramp tf va : Z) : option Z :=
  if decide (va = TRAPFRAME) then Some (mk_pte tf RW) else
  if decide (va = TRAMPOLINE) then Some (mk_pte tramp RX) else None.

Lemma leaf_path s l root N va v : vm_inv s l root N -> leaf (k_mem s) root va = Some v -> is_Some (N !! path va).
Proof. intros I. rewrite (leaf_tree _ _ _ _ _ I). by destruct (N !! path va). Qed.

Section proc_pagetable.
Context {I : Image} (p : nat) (x : proc) (s : kst) (l : list Z).
Context (Hwf : sync_wf (k_sync s)) (Hlock : lock_free LKmem (k_sync s)) (Hk : kmem_wf s l) (Hx : k_procs s !! p = Some x).
Context (Ht1 : aligned sym_trampoline) (Ht2 : 0 <= sym_trampoline < 2 ^ 55) (Htf : page_ok (k_end s) (p_trapframe x)).

(** A table made from pages of the free list. *)
Record made (root : Z) (N : tree) (f : Z -> option Z) (s' : kst) (l' : list Z) : Prop := {
  md_inv : vm_inv s' l' root N;
  md_frame : vm_frame s s';
  md_in : within user_paths N;
  md_count : (length l' + size N = length l)%nat;
  md_leaf : forall va, vpage va -> leaf (k_mem s') root va = f va;
  md_sub : forall q, q ∈ l' \/ tree_page N q <-> q ∈ l;
  md_mem : forall a, (forall q, q ∈ l -> ~ in_page q a) -> k_mem s' a = k_mem s a
}.

Lemma made_step root N f s1 l1 s2 l2 N2 g : made root N f s1 l1 -> vm_step s1 l1 root N s2 l2 N2 -> within user_paths N2 ->
  (forall va, vpage va -> leaf (k_mem s2) root va = g va) -> made root N2 g s2 l2.
Proof.
  intros [H1 H2 H3 H4 H5 H6 H7] S W L. split; [apply (step_inv S)|eapply vm_frame_trans; [exact H2|apply (step_frame S)]|done| |done| |].
  - rewrite (step_count _ _ _ _ _ _ _ H1 S). done.
  - intros q. rewrite <- H6. split.
    + intros [Hq|[pi Hpi]]; [left; by apply (step_list S)|]. destruct (step_pages S pi q Hpi); [right; by exists pi|by left].
    + intros [Hq|[pi Hpi]]; [by apply (step_keep S)|right]. exists pi. by apply (lookup_weaken _ _ _ _ Hpi (step_tree S)).
  - intros a Ha. rewrite (step_mem S); [by apply H7| |]; [intros pi q Hq|intros q Hq]; apply Ha, H6; [right; by exists pi|by left].
Qed.

(** One page near the top of the address space. *)
Lemma wp_map_high root N f s1 l1 va pa perm Q : made root N f s1 l1 -> vpage va -> MAXVA - 2 ^ 21 <= va -> aligned pa -> 0 <= pa < 2 ^ 55 ->
  0 <= perm < 2 ^ 10 -> f va = None ->
  (forall s2 l2 N2, made root N2 (add_leaf va PGSIZE pa perm f) s2 l2 -> Q 0 s2) ->
  (forall s2 l2 N2, made root N2 f s2 l2 -> l2 = [] -> N2 !! [255; 511] = None -> N ⊆ N2 -> Q (-1) s2) ->
  wp (mappages root va PGSIZE pa perm) Q s1.
Proof.
  intros M Hva Hhi Hpa Hpr Hperm Hf HQ1 HQ2. assert (E3 : MAXVA = 2 ^ 38) by done. assert (E8 : PGSIZE = 4096) by done. destruct (Hva) as [Ha Hr].
  assert (Hlt : va + PGSIZE <= MAXVA). { unfold aligned in Ha. rewrite E3, E8 in *. pose proof (Z.div_mod va 4096). lia. }
  apply (wp_mappages_paths root va PGSIZE pa perm s1 l1 N _ 0); [apply M|done|done|done|done|lia|lia|done| |].
  { intros va' [Ha' Hr'] H. assert (va' = va) as -> by (by apply one_page). rewrite (md_leaf _ _ _ _ _ M) by done. exact Hf. }
  intros r j s2 l2 N2 S Mp _ P Hr2.
  assert (W : within user_paths N2) by (eapply within_new; [apply M|apply covers_user; [done|exact Hlt]|done]).
  assert (M2 : made root N2 (add_leaf va (Z.of_nat j * PGSIZE) pa perm f) s2 l2).
  { eapply made_step; [exact M|exact S|done|]. intros va' Hv'. rewrite (Mp va' Hv'). unfold add_leaf. case_decide; [done|]. by apply M. }
  destruct Hr2 as [[-> ->]|(-> & Hj & -> & va' & Hva' & Hmiss)]; [by apply (HQ1 s2 l2 N2)|].
  destruct (path_high va') as [Ep _]; [lia|]. rewrite Ep in Hmiss. apply (HQ2 s2 [] N2); [|done|done|apply (step_tree S)].
  destruct M2 as [A1 A2 A3 A4 A5 A6 A7]. split; try done. intros va2 Hv2. rewrite A5 by done. unfold add_leaf. rewrite decide_False; [done|].
  assert (j = 0%nat) as -> by lia. lia.
Qed.

Lemma wp_proc_pagetable Q :
  (forall s' l', vm_frame s s' -> ready s' l' -> (forall q, q ∈ l' <-> q ∈ l) -> (length l < 3)%nat ->
     (forall a, (forall q, q ∈ l -> ~ in_page q a) -> k_mem s' a = k_mem s a) -> Q 0 s') ->
  (forall root N s' l', root <> 0 -> made root N (user_leaf sym_trampoline (p_trapframe x)) s' l' -> Q root s') ->
  wp (proc_pagetable p) Q s.
Proof.
  intros HQ0 HQ. unfold proc_pagetable, uvmcreate. apply wp_bind, wp_bind. eapply wp_mono; [exact (wp_kalloc_list s l Hwf Hlock Hk)|]. cbv beta.
  intros r s1 (Hf%kmem_vm_frame & Hk1).
  destruct (decide (l = [])) as [El|Hne].
  { rewrite El in Hk1. destruct Hk1 as (-> & Hk1 & Em). apply wp_ret, wp_ret.
    apply (HQ0 s1 []); [done| |by rewrite El|rewrite El; cbn; lia|by rewrite Em].
    split; [by eapply vm_frame_wf|by eapply vm_frame_lock|done]. }
  assert (exists root l0, l = root :: l0) as (root & l0 & El) by (destruct l as [|root l0]; [done|by exists root, l0]).
  rewrite El in Hk1. destruct Hk1 as (-> & Hk1 & Ho & _).
  assert (Hroot : 0 < root /\ root ∉ l0).
  { destruct Hk as [Hend _ Hnd Hall]. rewrite El in Hnd, Hall. apply Forall_cons in Hall as [Hq _]. apply NoDup_cons in Hnd as [Hn _].
    pose proof (page_ok_pos _ _ Hend Hq). split; [lia|done]. }
  destruct Hroot as [Hroot Hr0]. assert (Ez : (root =? 0) = false) by (apply Z.eqb_neq; lia). rewrite Ez. apply wp_bind, wp_modify, wp_ret. rewrite Ez.
  destruct (new_root s s1 root l0 Hwf Hlock ltac:(by rewrite <- El) Hf Hk1) as [I2 L2]. set (s2 := set_k_mem _ s1) in *.
  assert (M : made root {[ [] := root ]} (fun _ => None) s2 l0).
  { split; [done|eapply vm_frame_trans; [exact Hf|apply vm_frame_mem]| |rewrite El, map_size_singleton; cbn; lia|done| |].
    - intros pi [q [<- _]%lookup_singleton_Some]. by refine (bool_decide_unpack _ _).
    - intros q. rewrite El, elem_of_cons. split.
      + intros [?|[pi [_ <-]%lookup_singleton_Some]]; [by right|by left].
      + intros [->|?]; [right; exists []; by rewrite lookup_singleton_eq|by left].
    - intros a Ha. cbn. rewrite (same_outside_memset root (k_mem s1) 0 a), Ho; [done|apply Ha; rewrite El; constructor..]. }
  clearbody s2. assert (E3 : MAXVA = 2 ^ 38) by done. assert (E7 := TRAMPOLINE_val). assert (E9 : TRAPFRAME = 2 ^ 38 - 8192) by done.
  apply wp_bind, (wp_map_high root {[ [] := root ]} (fun _ => None) s2 l0); [done|done|lia|done|done|done|done| |].
  - intros s3 l3 N3 M3. apply wp_bind. apply wp_getp with (p := x); [by destruct (md_frame _ _ _ _ _ M3) as [-> _]|].
    destruct Htf as [Hta Htr]. assert (HPH : PHYSTOP = 2281701376) by done. assert (Hkend := kmem_end _ _ Hk).
    apply wp_bind, (wp_map_high root N3 (add_leaf TRAMPOLINE PGSIZE sym_trampoline (Z.lor PTE_R PTE_X) (fun _ => None)) s3 l3);
      [done|done|lia|done|lia|done| | |].
    + unfold add_leaf. rewrite decide_False; [done|]. unfold PGSIZE. lia.
    + intros s4 l4 N4 M4. apply wp_ret. apply (HQ root N4 s4 l4); [lia|]. destruct M4 as [A1 A2 A3 A4 A5 A6 A7]. split; try done.
      intros va Hva. rewrite A5 by done. unfold add_leaf, user_leaf. assert (H1 := one_page TRAPFRAME va eq_refl (proj1 Hva)).
      assert (H2 := one_page TRAMPOLINE va eq_refl (proj1 Hva)). destruct (decide (va = TRAPFRAME)) as [->|Hn1].
      { rewrite decide_True by tauto. by rewrite Z.sub_diag, Z.add_0_r. }
      rewrite decide_False by tauto. destruct (decide (va = TRAMPOLINE)) as [->|Hn2].
      { rewrite decide_True by tauto. by rewrite Z.sub_diag, Z.add_0_r. }
      by rewrite decide_False by tauto.
    + intros s4 l4 N4 M4 _ Hmiss Hsub. exfalso. assert (HT : leaf (k_mem s3) root TRAMPOLINE <> None).
      { rewrite (md_leaf _ _ _ _ _ M3) by done. unfold add_leaf. rewrite decide_True by (unfold PGSIZE; lia). done. }
      destruct (leaf (k_mem s3) root TRAMPOLINE) as [v|] eqn:Ev; [|done].
      destruct (leaf_path _ _ _ _ _ _ (md_inv _ _ _ _ _ M3) Ev) as [q Hq]. destruct (path_high TRAMPOLINE) as [Ep _]; [lia|]. rewrite Ep in Hq.
      rewrite (lookup_weaken _ _ _ _ Hq Hsub) in Hmiss. done.
  - intros s3 l3 N3 M3 -> Hmiss _. cbn [Z.ltb Z.compare]. destruct M3 as [A1 A2 A3 A4 A5 A6 A7].
    apply wp_bind. eapply (wp_uvmfree s3 [] root N3 0); [done| |lia|intros va Hv _; by apply A5|].
    { split; [intros va v _ Hr; lia|intros va va' v v' _ _ Hr; lia]. }
    intros s4 l4 [F1 F2 F3 F4]. apply wp_ret.
    assert (Hheld : forall q, held s3 root N3 0 q <-> tree_page N3 q).
    { intros q. unfold held. split; [|tauto]. intros [?|(va & v & _ & Hr & _)]; [done|lia]. }
    apply (HQ0 s4 l4); [by eapply vm_frame_trans|done| | |].
    + intros q. by rewrite F3, Hheld, <- A6.
    + assert (Hlt := within_size_lt _ _ _ A3 ltac:(by refine (bool_decide_unpack ([255; 511] ∈ user_paths) _)) Hmiss).
      change (length user_paths) with 3%nat in Hlt. cbn [length] in A4. lia.
    + intros a Ha. rewrite F4, A7; [done|done|]. intros q Hq%Hheld. apply Ha, A6. by right.
Qed.

End proc_pagetable.

(** ** Giving an address space back *)

(** The entry of the page [a] is cleared, and the page kept. *)
Record cleared (s : kst) (l : list Z) (root : Z) (N : tree) (a : Z) (s' : kst) : Prop := {
  cl_inv : vm_inv s' l root N;
  cl_frame : vm_frame s s';
  cl_leaf : forall va, vpage va -> leaf (k_mem s') root va = if decide (va = a) then None else leaf (k_mem s) root va;
  cl_mem : forall x, (forall q, tree_page N q -> ~ in_page q x) -> k_mem s' x = k_mem s x
}.

Lemma cleared_skip s l root N a : vm_inv s l root N -> leaf (k_mem s) root a = None -> cleared s l root N a s.
Proof. intros I E. split; [done|apply vm_frame_refl| |done]. intros va _. by case_decide; subst. Qed.

(** [uvmunmap] of one page, without freeing it. *)
Lemma wp_uvmunmap_keep a s l root N Q :
  vm_inv s l root N -> vpage a -> (forall s', cleared s l root N a s' -> Q tt s') -> wp (uvmunmap root a 1 false) Q s.
Proof.
  intros I Ha HQ. assert (HP : MAXVA = 2 ^ 38) by done. destruct (Ha) as [Hal Hr]. unfold uvmunmap. rewrite Hal. cbn [negb Z.eqb].
  unfold PGSIZE. rewrite (wrap64_small (1 * 4096)), (wrap64_small (a + _)) by lia. change (Z.to_nat 1) with 1%nat.
  cbn [uvmunmap_loop]. rewrite (proj2 (Z.ltb_lt a _)) by lia. cbn [negb]. unfold PGSIZE.
  rewrite (wrap64_small (a + 4096)), Z.mul_1_l, Z.ltb_irrefl by lia. cbn [negb].
  destruct (walk_leaf _ l root N a s (kmem_end _ _ (inv_free _ _ _ _ I)) (inv_tree _ _ _ _ I) ltac:(lia)) as (pte & E & Hcase).
  apply wp_bind. eapply wp_eq; [exact E|]. apply wp_bind.
  destruct Hcase as [[-> Hl]|(p0 & Hp0 & Hpte & Hz%Z.eqb_neq & Hl)]; [by apply wp_ret, wp_ret, HQ, cleared_skip|].
  rewrite Hz. subst pte. apply wp_bind, wp_gets. unfold valid_pte in Hl. destruct (has _ PTE_V) eqn:Hv; cbn [negb].
  2: by apply wp_ret, wp_ret, HQ, cleared_skip.
  cbn [when]. apply wp_bind, wp_ret, wp_modify, wp_ret. change (set_k_mem _ s) with (set_leaf p0 a 0 s).
  assert (S2 := vm_step_set_leaf s _ root N a p0 0 I Hp0). apply HQ. split.
  - apply (step_inv S2).
  - apply (step_frame S2).
  - intros va Hva. by rewrite (leaf_set_leaf s _ root N) by (done || lia).
  - intros x HN. cbn [set_leaf k_mem set_k_mem].
    rewrite (same_outside_st64 p0 _ _ (8 * PX 0 a)) by first [by apply HN; exists (path a)|pose proof (PX_range 0 a); unfold PGSIZE; lia].
    done.
Qed.

(** [proc_freepagetable] of an address space that maps, above its user pages,
    only the trampoline and the trapframe: these are kept, and all else is
    free again. *)
Lemma wp_proc_freepagetable s l root N sz Q :
  vm_inv s l root N -> owned (k_end s) l (k_mem s) root N 0 sz -> 0 <= sz <= TRAPFRAME ->
  (forall va, vpage va -> sz <= va -> va <> TRAMPOLINE -> va <> TRAPFRAME -> leaf (k_mem s) root va = None) ->
  (forall s' l', freed s l (held s root N sz) s' l' -> Q tt s') -> wp (proc_freepagetable root sz) Q s.
Proof.
  intros I Ho Hsz Hrest HQ. assert (HP : MAXVA = 2 ^ 38) by done. assert (ET := TRAMPOLINE_val). assert (EF : TRAPFRAME = 2 ^ 38 - 8192) by done.
  unfold proc_freepagetable. apply wp_bind. eapply wp_uvmunmap_keep; [exact I|done|]. intros s1 [I1 F1 L1 M1].
  apply wp_bind. eapply wp_uvmunmap_keep; [exact I1|done|]. intros s2 [I2 F2 L2 M2].
  assert (F12 : vm_frame s s2) by by eapply vm_frame_trans.
  assert (L : forall va, vpage va -> va < sz -> leaf (k_mem s2) root va = leaf (k_mem s) root va).
  { intros va Hv Hr. rewrite L2, L1 by done. by rewrite !decide_False by lia. }
  assert (Hheld : forall q, held s2 root N sz q <-> held s root N sz q).
  { intros q. unfold held. rewrite (pages_of_ext (k_mem s)); [done|]. intros va Hv Hr. apply L; [done|lia]. }
  eapply (wp_uvmfree s2 l root N sz); [exact I2| |lia| |].
  - rewrite (vm_frame_end _ _ F12). destruct Ho as [Op Oj]. split.
    + intros va v Hv Hr. rewrite L by (done || lia). by apply Op.
    + intros va va' v v' Hv Hv' Hr Hr'. rewrite !L by (done || lia). by apply Oj.
  - intros va Hv Hr. rewrite L2, L1 by done. do 2 (case_decide; [done|]). by apply Hrest.
  - intros s3 l3 [A1 A2 A3 A4]. apply (HQ s3 l3). split; [by eapply vm_frame_trans|done| |].
    + intros q. by rewrite A3, Hheld.
    + intros a Ha. rewrite A4, M2, M1; [done| | |]; [intros q Hq; apply Ha; by left..|]. intros q Hq%Hheld. by apply Ha.
Qed.

(** The memory of a parent is copied to a new page table, which is then torn
    down. *)
Lemma wp_copy_free s l old new No N tramp tf sz Q :
  vm_inv s l old No -> vm_inv s l new N -> owned (k_end s) l (k_mem s) old No 0 sz -> 0 <= sz <= TRAPFRAME ->
  (forall q, tree_page N q -> ~ tree_page No q /\ ~ pages_of (k_mem s) old 0 sz q) ->
  (forall va, vpage va -> leaf (k_mem s) new va = user_leaf tramp tf va) ->
  (forall r s' l', ready s' l' -> (forall q, q ∈ l' <-> q ∈ l \/ tree_page N q) ->
     (forall va, leaf (k_mem s') old va = leaf (k_mem s) old va) ->
     (forall va, 0 <= va < sz -> umem (k_mem s') old va = umem (k_mem s) old va) -> Q r s') ->
  wp (r ← uvmcopy old new sz; proc_freepagetable new (if r <? 0 then 0 else sz);; mret r) Q s.
Proof.
  intros Iold Inew Hown Hsz Hapart Hleaf HQ. assert (HP : MAXVA = 2 ^ 38) by done.
  assert (ET := TRAMPOLINE_val). assert (EF : TRAPFRAME = 2 ^ 38 - 8192) by done.
  apply wp_bind. eapply (wp_uvmcopy s l old new No N sz); [done..| |lia|].
  { intros va Hv Hr. rewrite Hleaf by done. unfold user_leaf. by rewrite !decide_False by lia. }
  intros r s2 l2 N2 D. assert (F2 := dup_frame _ _ _ _ _ _ _ _ _ _ _ D).
  set (sz' := if r <? 0 then 0 else sz). assert (Hsz' : 0 <= sz' <= sz) by (unfold sz'; destruct (r <? 0); lia).
  assert (Hup : forall va, vpage va -> sz' <= va < sz -> leaf (k_mem s2) new va = None).
  { intros va Hv Hr. destruct (dup_result _ _ _ _ _ _ _ _ _ _ _ D) as [[E _]|(-> & Hn & _)]; [|apply Hn; [done|lia]].
    unfold sz' in Hr. rewrite E in Hr. cbn in Hr. lia. }
  assert (Hheld : forall q, q ∈ l2 \/ held s2 new N2 sz' q <-> q ∈ l \/ tree_page N q).
  { intros q. rewrite <- (dup_pages _ _ _ _ _ _ _ _ _ _ _ D q). unfold held.
    rewrite (pages_of_split _ _ 0 sz' sz q) by lia. split; [tauto|]. intros [?|[?|[?|(va & v & Hv & Hr & Hl & _)]]]; try tauto.
    by rewrite Hup in Hl. }
  apply wp_bind. eapply (wp_proc_freepagetable s2 l2 new N2 sz'); [apply D| |lia| |].
  - rewrite (vm_frame_end _ _ F2). eapply owned_sub; [| |apply (dup_own _ _ _ _ _ _ _ _ _ _ _ D)]; lia.
  - intros va Hv Hr Hn1 Hn2. destruct (decide (va < sz)); [apply Hup; [done|lia]|].
    rewrite (dup_rest _ _ _ _ _ _ _ _ _ _ _ D va Hv), Hleaf by (done || lia). unfold user_leaf. by rewrite !decide_False by done.
  - intros s3 l3 [F3 R3 L3 M3]. destruct (dup_old_inv _ _ _ _ _ _ _ _ _ _ _ D) as [_ _ If2 It2].
    assert (Hold := dup_old _ _ _ _ _ _ _ _ _ _ _ D).
    destruct (space_frame (k_end s2) l2 (k_mem s2) (k_mem s3) old No sz (held s2 new N2 sz')) as (_ & Hl & Hm); try done.
    + by apply (kmem_end _ _ If2).
    + rewrite (vm_frame_end _ _ F2). apply D.
    + lia.
    + intros q Hq. assert (Hin : q ∈ l \/ tree_page N q) by (apply Hheld; by right). split_and!.
      * destruct R3 as [_ _ [_ _ _ Hall]]. rewrite Forall_forall in Hall. apply Hall, L3. by right.
      * destruct Hin as [Hin|Hin]; [|by apply Hapart]. intros [pi Hpi].
        by destruct (pt_page (inv_tree _ _ _ _ Iold) Hpi) as (_ & ? & _).
      * rewrite (pages_of_ext (k_mem s)) by done. destruct Hin as [Hin|Hin]; [|by apply Hapart].
        intros (va & v & Hv & Hr & Hl & <-). by destruct (own_page Hown va v Hv Hr Hl) as (_ & ? & _).
    + apply wp_ret. apply (HQ r s3 l3); [done|intros q; by rewrite L3|intros va; by rewrite Hl|].
      intros va Hva. rewrite Hm by done. by apply (dup_old_mem _ _ _ _ _ _ _ _ _ _ _ D).
Qed.

(** ** Properties *)

(** [proc_pagetable] gives 0, with all memory free that was, when there are
    not three free pages; otherwise a page table that maps the trampoline and
    the trapframe of the process and nothing else. With it, and a kernel page
    table that maps the trampoline, user space can be entered. *)
Theorem proc_pagetable_spec {I : Image} (p : nat) (x : proc) (s : kst) (l : list Z)
    (Hwf : sync_wf (k_sync s)) (Hlock : lock_free LKmem (k_sync s)) (Hk : kmem_wf s l) (Hx : k_procs s !! p = Some x)
    (Ht1 : aligned sym_trampoline) (Ht2 : 0 <= sym_trampoline < 2 ^ 55)
    (Htf1 : page_ok (k_end s) (p_trapframe x)) (Htf2 : p_trapframe x ∉ l) :
  wp (proc_pagetable p) (fun root s' =>
    (root = 0 /\ (length l < 3)%nat /\ exists l', ready s' l' /\ forall q, q ∈ l' <-> q ∈ l) \/
    (root <> 0 /\ exists l' N, vm_inv s' l' root N /\ vm_frame s s' /\ (length l <= length l' + 3)%nat /\
       (forall va, vpage va -> leaf (k_mem s') root va = user_leaf sym_trampoline (p_trapframe x) va) /\
       (forall q, q ∈ l' \/ tree_page N q <-> q ∈ l) /\
       (forall a, (forall q, q ∈ l -> ~ in_page q a) -> k_mem s' a = k_mem s a) /\
       forall kroot NK, pt_wf (k_end s) l (k_mem s) kroot NK -> leaf (k_mem s) kroot TRAMPOLINE = Some (mk_pte sym_trampoline RX) ->
         ~ tree_page NK (p_trapframe x) ->
         tramp_maps (k_end s) l' (k_mem s') root N kroot NK (p_trapframe x) sym_trampoline)) s.
Proof.
  apply (wp_proc_pagetable p x s l Hwf Hlock Hk Hx Ht1 Ht2 Htf1).
  - intros s' l' F R E Hlt _. left. split_and!; [done|done|]. by exists l'.
  - intros root N s' l' Hr [A1 A2 A3 A4 A5 A6 A7]. right. split; [done|]. exists l', N.
    assert (Hs := within_size _ _ A3). change (length user_paths) with 3%nat in Hs. split_and!; [done|done|lia|done|done|done|].
    intros kroot NK K1 K2 K3. assert (Hkend := kmem_end _ _ Hk).
    destruct (leaf_frame (k_end s) Hkend l kroot NK (k_mem s) (k_mem s') K1) as [K1' L].
    { intros pi q a Hq Ha. apply A7. intros r Hr' Hin. destruct (pt_page K1 Hq) as ([Hqa _] & Hn & _). apply Hn.
      destruct Hk as [_ _ _ Hall]. rewrite Forall_forall in Hall. destruct (Hall r Hr') as [Hra _].
      by rewrite (in_page_apart q r a Hqa Hra Ha Hin). }
    assert (Hu : forall va, vpage va -> leaf (k_mem s') root va = user_leaf sym_trampoline (p_trapframe x) va) by done.
    split; [rewrite <- (vm_frame_end _ _ A2); apply A1| |by rewrite Hu|by rewrite L|by rewrite Hu|split; [done|lia]|].
    + eapply pt_wf_freelist; [exact K1'|]. intros q Hq. apply A6. by left.
    + split_and!; [done| |done]. intros Ht. apply Htf2, A6. by right.
Qed.

(** C23: What a fork takes for the memory of the child, its end gives back. A page
    table is made for the child, with the trampoline and its trapframe, and
    the memory of the parent, of at most [TRAPFRAME] bytes, copied to it; then
    the address space of the child is torn down, as [freeproc] does it: with
    its size, or with size 0 when the copy failed. None of it panics, exactly
    the pages are free afterwards that were free before, also when memory ran
    out half way, and the address space of the parent is what it was. *)
Theorem copy_free_roundtrip {I : Image} (np : nat) (x : proc) (s : kst) (l : list Z) (old : Z) (No : tree) (sz : Z)
    (Iold : vm_inv s l old No) (Hown : owned (k_end s) l (k_mem s) old No 0 sz) (Hsz : 0 <= sz <= TRAPFRAME)
    (Hx : k_procs s !! np = Some x) (Htf : page_ok (k_end s) (p_trapframe x))
    (Ht1 : aligned sym_trampoline) (Ht2 : 0 <= sym_trampoline < 2 ^ 55) :
  wp (new ← proc_pagetable np;
      if new =? 0 then mret (-1) else
      r ← uvmcopy old new sz;
      proc_freepagetable new (if r <? 0 then 0 else sz);;
      mret r) (fun r s' => exists l', ready s' l' /\ (forall q, q ∈ l' <-> q ∈ l) /\
    (forall va, leaf (k_mem s') old va = leaf (k_mem s) old va) /\
    forall va, 0 <= va < sz -> umem (k_mem s') old va = umem (k_mem s) old va) s.
Proof.
  destruct (Iold) as [Iy Ik If It]. assert (Hkend := kmem_end _ _ If). assert (HP : MAXVA = 2 ^ 38) by done.
  assert (EF : TRAPFRAME = 2 ^ 38 - 8192) by done.
  assert (Hapart : forall q, q ∈ l -> aligned q /\ ~ tree_page No q /\ ~ pages_of (k_mem s) old 0 sz q).
  { intros q Hq. destruct If as [_ _ _ Hall]. rewrite Forall_forall in Hall. split_and!.
    - apply (Hall q Hq).
    - intros [pi Hpi]. by destruct (pt_page It Hpi) as (_ & ? & _).
    - intros (va & v & Hv & Hr & Hl & <-). by destruct (own_page Hown va v Hv Hr Hl) as (_ & ? & _). }
  assert (Hkeep := fun m' => space_frame (k_end s) l (k_mem s) m' old No sz (fun q => q ∈ l) Hkend It Hown ltac:(lia) Hapart).
  apply wp_bind, (wp_proc_pagetable np x s l Iy Ik If Hx Ht1 Ht2 Htf).
  { intros s1 l1 F1 R1 E1 _ M1. apply wp_ret. exists l1. destruct (Hkeep (k_mem s1) M1) as (_ & ? & ?). done. }
  intros new N s1 l1 Hnew [A1 A2 A3 A4 A5 A6 A7]. destruct (Z.eqb_spec new 0); [done|].
  destruct (Hkeep (k_mem s1) A7) as (It1 & L1 & U1). assert (Hl1 : forall q, q ∈ l1 -> q ∈ l) by (intros q Hq; apply A6; by left).
  eapply (wp_copy_free s1 l1 old new No N); [|done| |done| |exact A5|].
  - destruct A1 as [By Bk Bf _]. split; [done..|]. rewrite (vm_frame_end _ _ A2). by eapply pt_wf_freelist.
  - rewrite (vm_frame_end _ _ A2). destruct Hown as [Op Oj]. split; [|intros va va' v v'; rewrite !L1; apply Oj].
    intros va v Hv Hr. rewrite L1. intros Hl. destruct (Op va v Hv Hr Hl) as (? & Hn & ?). split_and!; auto.
  - intros q Hq. destruct (Hapart q) as (_ & ? & ?); [apply A6; by right|]. split; [done|]. by rewrite (pages_of_ext (k_mem s)).
  - intros r s3 l3 R3 L3 O3 U3. exists l3. split; [done|]. split; [intros q; by rewrite L3|].
    split; [intros va; by rewrite O3, L1|]. intros va Hva. by rewrite U3, U1.
Qed.
