(* ===== verification/Boot.v ===== *)
(** * Boot ([main.c], [start.c])

    The initialisation hart 0 runs before it starts scheduling, in the order
    of [main], and what the other harts run once it is done; before that, the
    way of every hart from machine mode to [main]. *)

From stdpp Require Import base gmap strings numbers list.
From S2P Require Import Prelude State Spinlock Strings Printf Memory Bytes Kalloc Vm Proc Sched Sleeplock Quiet Bio.
From S2P Require Import Log Uio Fs Devices Virtio Pipe File Process Exec Sysproc Sysfile Trap.

Definition printfinit : KM unit := initlock LPr "pr".

Section boot.
Context {W : World} {D : Disk} {T : Patience} {M : Mmio} {K : Stack} {I : Image}.

(** The boot hart, up to [started = 1]. *)
Definition main_boot : KM unit :=
  consoleinit;;
  printfinit;;
  printf "
" [];;
  printf "xv6 kernel is booting
" [];;
  printf "
" [];;
  kinit;;
  kvminit;;
  kvminithart;;
  procinit;;
  trapinit;;
  trapinithart;;
  plicinit;;
  plicinithart;;
  binit;;
  iinit;;
  fileinit;;
  virtio_disk_init;;
  userinit.

(** Another hart, after it has seen [started]. *)
Definition main_other : KM unit :=
  c ← cpuid;
  printf "hart %d starting
" [PInt (Z.of_nat c)];;
  kvminithart;;
  trapinithart;;
  plicinithart.

Definition main (rounds : nat) : KM unit :=
  c ← cpuid;
  (if (c =? 0)%nat then main_boot else main_other);;
  scheduler rounds.

End boot.

(** ** From machine mode to [main] ([start.c])

    What [start] writes to the machine-mode registers of a hart, after
    [entry.S] and before its [mret]. *)

(** ** The registers *)

Record mstate : Type := mkmstate {
  m_status : Z;
  m_epc : Z;
  m_satp : Z;
  m_edeleg : Z;
  m_ideleg : Z;
  m_sie : Z;
  m_pmpaddr0 : Z;
  m_pmpcfg0 : Z;
  m_ie : Z;
  m_envcfg : Z;
  m_counteren : Z;
  m_stimecmp : Z;
  m_tp : Z
}.

Definition MSTATUS_MPP_MASK : Z := Z.shiftl 3 11.
Definition MSTATUS_MPP_S : Z := Z.shiftl 1 11.
Definition SIE_SEIE : Z := Z.shiftl 1 9.
Definition SIE_STIE : Z := Z.shiftl 1 5.
Definition MIE_STIE : Z := Z.shiftl 1 5.

(** ** The code *)

Section start.
Context (time mhartid main : Z).

Definition timerinit (m : mstate) : mstate :=
  mkmstate (m_status m) (m_epc m) (m_satp m) (m_edeleg m) (m_ideleg m) (m_sie m) (m_pmpaddr0 m) (m_pmpcfg0 m)
    (Z.lor (m_ie m) MIE_STIE) (Z.lor (m_envcfg m) (Z.shiftl 1 63)) (Z.lor (m_counteren m) 2) (wrap64 (time + 1000000)) (m_tp m).

(** Up to the [mret]. *)
Definition start_regs (m : mstate) : mstate :=
  let x := Z.lor (Z.land (m_status m) (Z.lnot MSTATUS_MPP_MASK)) MSTATUS_MPP_S in
  let m := mkmstate x main 0 0xffff 0xffff (Z.lor (Z.lor (m_sie m) SIE_SEIE) SIE_STIE) 0x3fffffffffffff 0xf
             (m_ie m) (m_envcfg m) (m_counteren m) (m_stimecmp m) (m_tp m) in
  let m := timerinit m in
  mkmstate (m_status m) (m_epc m) (m_satp m) (m_edeleg m) (m_ideleg m) (m_sie m) (m_pmpaddr0 m) (m_pmpcfg0 m)
    (m_ie m) (m_envcfg m) (m_counteren m) (m_stimecmp m) (wrap64 (to_int mhartid)).

(** The hart after [start]: [mret] goes to [mepc] in the mode that [MPP] names. *)
Inductive mode : Type := User | Supervisor | Machine.

#[global] Instance mode_eq_dec : EqDecision mode.
Proof. solve_decision. Defined.

Definition mpp (status : Z) : option mode :=
  match Z.land (Z.shiftr status 11) 3 with 0 => Some User | 1 => Some Supervisor | 3 => Some Machine | _ => None end.

Definition start_hart (m : mstate) : option (mode * Z * mstate) :=
  let m := start_regs m in
  md ← mpp (m_status m); Some (md, m_epc m, m).

(** ** What holds in [main] *)

(** Physical memory protection: a TOR region from 0, with these permissions. *)
Definition pmp_allows (m : mstate) (a : Z) : Prop :=
  Z.land (Z.shiftr (m_pmpcfg0 m) 3) 3 = 1 /\ Z.land (m_pmpcfg0 m) 7 = 7 /\ 0 <= a < Z.shiftl (m_pmpaddr0 m) 2.

(** Every hart arrives in [main] in supervisor mode, without paging, with all
    traps delegated to it, access to all memory, external and timer interrupts
    enabled at their source, a timer that is set, and its number in [tp]. *)
Theorem start_spec (m : mstate) (Hid : 0 <= mhartid < 2 ^ 31) :
  exists m', start_hart m = Some (Supervisor, main, m') /\ m_satp m' = 0 /\
    (forall n, 0 <= n < 16 -> Z.testbit (m_edeleg m') n = true /\ Z.testbit (m_ideleg m') n = true) /\
    (forall n, 0 <= n -> Z.testbit (m_sie m') n = Z.testbit (m_sie m) n || (n =? 9) || (n =? 5)) /\
    (forall n, 0 <= n -> Z.testbit (m_ie m') n = Z.testbit (m_ie m) n || (n =? 5)) /\
    Z.testbit (m_envcfg m') 63 = true /\ Z.testbit (m_counteren m') 1 = true /\
    m_stimecmp m' = wrap64 (time + 1000000) /\ m_tp m' = mhartid /\
    (forall n, 0 <= n -> n <> 11 -> n <> 12 -> Z.testbit (m_status m') n = Z.testbit (m_status m) n) /\
    forall a, 0 <= a < PHYSTOP -> pmp_allows m' a.
Proof.
  assert (B : forall k n, 0 <= k -> 0 <= n -> Z.testbit (Z.shiftl 1 k) n = (n =? k)).
  { intros k n Hk Hn. rewrite Z.shiftl_spec by done. destruct (Z.eqb_spec n k) as [->|Hne]; [by rewrite Z.sub_diag|].
    destruct (Z.ltb_spec (n - k) 0); [by apply Z.testbit_neg_r|]. apply (Z.bits_above_log2 1); cbn; lia. }
  assert (E : mpp (m_status (start_regs m)) = Some Supervisor).
  { unfold mpp. cbn [start_regs timerinit m_status]. rewrite Z.shiftr_lor, Z.shiftr_land, Z.land_lor_distr_l, <- Z.land_assoc.
    change (Z.land (Z.shiftr (Z.lnot MSTATUS_MPP_MASK) 11) 3) with 0. rewrite Z.land_0_r. done. }
  unfold start_hart. rewrite E. eexists. split; [reflexivity|]. cbn [start_regs timerinit m_satp m_edeleg m_ideleg m_sie m_ie m_envcfg m_counteren m_stimecmp m_tp m_status].
  split_and!.
  - done.
  - intros n Hn. change 0xffff with (Z.ones 16). by rewrite Z.ones_spec_low.
  - intros n Hn. unfold SIE_SEIE, SIE_STIE. by rewrite !Z.lor_spec, !B.
  - intros n Hn. unfold MIE_STIE. by rewrite Z.lor_spec, B.
  - by rewrite Z.lor_spec, orb_true_r.
  - by rewrite Z.lor_spec, orb_true_r.
  - done.
  - rewrite to_int_small by lia. apply wrap64_small. lia.
  - intros n Hn H1 H2. rewrite Z.lor_spec, Z.land_spec, Z.lnot_spec by done. unfold MSTATUS_MPP_S. rewrite B by done.
    change MSTATUS_MPP_MASK with (Z.lor (Z.shiftl 1 11) (Z.shiftl 1 12)). rewrite Z.lor_spec, !B by done.
    rewrite (proj2 (Z.eqb_neq n 11) H1), (proj2 (Z.eqb_neq n 12) H2). by rewrite andb_true_r, orb_false_r.
  - intros a Ha. split_and!; [done|done|lia|]. etrans; [apply Ha|done].
Qed.

End start.
