(* ===== verification/Ulib.v ===== *)
(** * The user library ([user/ulib.c])

    A [char*] of a user program is the list of the characters it points to;
    reading at or past its end gives the terminating NUL. *)

From stdpp Require Import base numbers strings list.
From S2P Require Import Prelude Strings.

(** ** The code *)

(** [s[i]] *)
Definition at_ (s : list Z) (i : nat) : Z := nth i s 0.

(** [strchr]: the offset of the first [c] before the NUL. *)
Fixpoint strchr (s : list Z) (c : Z) : option nat :=
  match s with
  | [] => None
  | x :: s => if x =? 0 then None else if x =? c then Some 0%nat else S <$> strchr s c
  end.

(** What [read] returns for a request of [n] bytes when [rest] is left of the
    input: how many bytes it delivers is up to the kernel. *)
Class Reader : Type := { read_count : nat -> list Z -> nat }.

Class ReaderSpec {R : Reader} : Prop := {
  read_le n rest : (read_count n rest <= n)%nat /\ (read_count n rest <= length rest)%nat;
  read_some n rest : (0 < n)%nat -> rest <> [] -> (0 < read_count n rest)%nat
}.

(** ** Lemmas *)

(** What a C string may hold. *)
Definition no_nul (s : list Z) : Prop := Forall (fun c => c <> 0) s.

Lemma no_nul_suffix u v : no_nul (u ++ v) -> no_nul v.
Proof. intros H. by apply Forall_app in H as [_ ?]. Qed.

Lemma no_nul_tail w : no_nul w -> no_nul (tail w).
Proof. intros H. destruct H as [|? ? ? H]; [constructor|exact H]. Qed.

Lemma at_lookup s i c : s !! i = Some c -> at_ s i = c.
Proof. unfold at_. rewrite nth_lookup. by intros ->. Qed.

Lemma at_end s i : (length s <= i)%nat -> at_ s i = 0.
Proof. intros H. by apply nth_overflow. Qed.

Lemma strchr_elem s c : no_nul s -> is_Some (strchr s c) <-> c ∈ s.
Proof.
  induction 1 as [|x s Hx _ IH]; cbn [strchr].
  - split; [by intros [? ?]|by intros ?%not_elem_of_nil].
  - destruct (Z.eqb_spec x 0); [done|]. rewrite elem_of_cons. destruct (Z.eqb_spec x c) as [->|Hc].
    + split; [by left|by eexists].
    + rewrite <- IH, fmap_is_Some. naive_solver.
Qed.

(** ** Strings and memory blocks

    The same functions as those of the kernel ([string.c]), written
    differently: what they do is compared with the kernel. *)

(** ** The code *)

(** [fuel] bounds how far the NUL may be. *)
Fixpoint ustrcpy (fuel : nat) (m : mem) (s t : Z) : option mem :=
  match fuel with
  | O => None
  | S fuel =>
      let c := m t in
      let m := mupd m s c in
      if c =? 0 then Some m else ustrcpy fuel m (s + 1) (t + 1)
  end.

Fixpoint ustrcmp (fuel : nat) (p q : nat -> Z) : option Z :=
  match fuel with
  | O => None
  | S fuel => if negb (p O =? 0) && (p O =? q O) then ustrcmp fuel (inc p) (inc q) else Some (p O - q O)
  end.

Fixpoint ustrlen (fuel : nat) (s : nat -> Z) : option nat :=
  match fuel with
  | O => None
  | S fuel => if s O =? 0 then Some O else S <$> ustrlen fuel (inc s)
  end.

Fixpoint umemset_loop (m : mem) (dst c : Z) (n : nat) : mem :=
  match n with
  | O => m
  | S n => umemset_loop (mupd m dst (wrap8 c)) (dst + 1) c n
  end.

Definition umemset (m : mem) (dst c : Z) (n : nat) : mem := umemset_loop m dst c n.

Definition umemmove (m : mem) (vdst vsrc n : Z) : mem :=
  if vdst <? vsrc then copy_up m vdst vsrc (Z.to_nat n) else copy_down m (vdst + n) (vsrc + n) (Z.to_nat n).

Fixpoint umemcmp (p1 p2 : nat -> Z) (n : nat) : Z :=
  match n with
  | O => 0
  | S n => if negb (p1 O =? p2 O) then p1 O - p2 O else umemcmp (inc p1) (inc p2) n
  end.

Definition umemcpy : mem -> Z -> Z -> Z -> mem := umemmove.

(** ** The kernel's functions do the same *)

Lemma umemset_memset m dst c n a : umemset m dst c n a = memset m dst c n a.
Proof.
  rewrite memset_spec. unfold umemset. revert m dst. induction n as [|n IH]; intros m dst; cbn [umemset_loop].
  { zcases; lia || done. }
  rewrite IH. unfold mupd. zcases; lia || done.
Qed.

Lemma umemmove_memmove m dst src (n : nat) a : umemmove m dst src (Z.of_nat n) a = memmove m dst src n a.
Proof.
  unfold umemmove, memmove. rewrite Nat2Z.id. destruct (Nat.eqb_spec n 0) as [->|Hn]; [by destruct (dst <? src)|].
  destruct (Z.ltb_spec dst src).
  - destruct (Z.ltb_spec src dst); [lia|done].
  - rewrite copy_down_spec by lia. destruct (Z.ltb_spec src dst), (Z.ltb_spec dst (src + Z.of_nat n)); cbn [andb];
      rewrite ?copy_down_spec, ?copy_up_spec by lia; zcases; try lia; try done; f_equal; lia.
Qed.

Lemma umemcmp_memcmp p q n : umemcmp p q n = memcmp p q n.
Proof. revert p q. induction n as [|n IH]; intros p q; cbn; [done|]. destruct (p O =? q O); cbn [negb]; [apply IH|done]. Qed.

Lemma ustrlen_strlen fuel s : ustrlen fuel s = strlen fuel s.
Proof. revert s. induction fuel as [|fuel IH]; intros s; cbn; [done|]. by rewrite IH. Qed.

(** [strcmp] compares as far as [strncmp] with a bound past the first string. *)
Lemma ustrcmp_strncmp fuel p q k : (k < fuel)%nat -> p k = 0 -> ustrcmp fuel p q = Some (strncmp p q (S k)).
Proof.
  revert p q k. induction fuel as [|fuel IH]; intros p q k Hk H0; [lia|]. cbn [ustrcmp]. cbn [strncmp].
  destruct (negb (p O =? 0) && (p O =? q O)) eqn:E; [|done]. destruct k as [|k]; [by rewrite H0 in E|].
  apply (IH (inc p) (inc q) k); [lia|exact H0].
Qed.

(** [strcpy] copies the string with its NUL, and nothing else, when the two do
    not overlap. *)
Lemma ustrcpy_copies fuel m s t (k : nat) :
  (k < fuel)%nat -> m (t + Z.of_nat k) = 0 -> (forall i, (i < k)%nat -> m (t + Z.of_nat i) <> 0) ->
  s + Z.of_nat k < t \/ t + Z.of_nat k < s ->
  exists m', ustrcpy fuel m s t = Some m' /\ forall a, m' a = if (s <=? a) && (a <=? s + Z.of_nat k) then m (t + (a - s)) else m a.
Proof.
  revert m s t k. induction fuel as [|fuel IH]; intros m s t k Hk H0 Hn Hd; [lia|]. cbn [ustrcpy]. destruct k as [|k].
  - rewrite Z.add_0_r in *. rewrite H0. cbn. eexists. split; [done|]. intros a. unfold mupd. zcases; try lia; try done. by replace (t + (a - s)) with t by lia.
  - assert (Ht : m t <> 0) by (rewrite <- (Z.add_0_r t); apply (Hn 0%nat); lia). destruct (Z.eqb_spec (m t) 0); [done|].
    destruct (IH (mupd m s (m t)) (s + 1) (t + 1) k) as (m' & -> & Hm'); [lia| | |lia|].
    + rewrite mupd_ne by lia. replace (t + 1 + Z.of_nat k) with (t + Z.of_nat (S k)) by lia. done.
    + intros i Hi. rewrite mupd_ne by lia. replace (t + 1 + Z.of_nat i) with (t + Z.of_nat (S i)) by lia. apply Hn. lia.
    + exists m'. split; [done|]. intros a. rewrite Hm'. unfold mupd. zcases; try lia; try done; f_equal; lia.
Qed.
