(* ===== verification/Uprintf.v ===== *)
(** * Formatted output of user programs ([printf.c] of [user/])

    The user's [vprintf] walks over the format with a state variable, where the
    kernel's [printf] looks ahead, and has upper-case digits. Otherwise they
    write the same text. *)

From stdpp Require Import base strings numbers list.
From Stdlib Require Import Ascii.
From S2P Require Import Prelude Strings Printf Ulib.

(** ** The code *)

(** The character [digits[d]] of "0123456789ABCDEF". *)
Definition udigit (d : Z) : Z := if d <? 10 then 48 + d else 65 + (d - 10).

Fixpoint udigits_loop (fuel : nat) (x base : Z) : list Z :=
  match fuel with
  | O => []
  | S fuel => udigit (x mod base) :: (if x / base =? 0 then [] else udigits_loop fuel (x / base) base)
  end.

Definition uprintint (xx base : Z) (sgn : bool) : list Z :=
  let neg := sgn && (xx <? 0) in
  let x := wrap64 (if neg then - xx else xx) in
  rev (udigits_loop 64 x base ++ (if neg then [45] else [])).

Fixpoint uprintptr_loop (n : nat) (x : Z) : list Z :=
  match n with
  | O => []
  | S n => udigit (Z.shiftr x 60) :: uprintptr_loop n (wrap64 (Z.shiftl x 4))
  end.

Definition uprintptr (x : Z) : list Z := 48 :: 120 :: uprintptr_loop 16 (wrap64 x).

(** The branches for a character after a percent sign: the text, how much
    further [i] is advanced, and the arguments left. *)
Definition uconversion (c0 c1 c2 : Z) (ap : list parg) : option (list Z * nat * list parg) :=
  let int f skip := '(x, ap) ← va_int ap; Some (f x : list Z, skip : nat, ap) in
  if c0 =? chr "d" then int (fun x => uprintint (to_int x) 10 true) 0%nat
  else if (c0 =? chr "l") && (c1 =? chr "d") then int (fun x => uprintint (to_ll x) 10 true) 1%nat
  else if (c0 =? chr "l") && (c1 =? chr "l") && (c2 =? chr "d")
  then int (fun x => uprintint (to_ll x) 10 true) 2%nat
  else if c0 =? chr "u" then int (fun x => uprintint (wrap32 x) 10 false) 0%nat
  else if (c0 =? chr "l") && (c1 =? chr "u") then int (fun x => uprintint (to_ll x) 10 false) 1%nat
  else if (c0 =? chr "l") && (c1 =? chr "l") && (c2 =? chr "u")
  then int (fun x => uprintint (to_ll x) 10 false) 2%nat
  else if c0 =? chr "x" then int (fun x => uprintint (wrap32 x) 16 false) 0%nat
  else if (c0 =? chr "l") && (c1 =? chr "x") then int (fun x => uprintint (to_ll x) 16 false) 1%nat
  else if (c0 =? chr "l") && (c1 =? chr "l") && (c2 =? chr "x")
  then int (fun x => uprintint (to_ll x) 16 false) 2%nat
  else if c0 =? chr "p" then int uprintptr 0%nat
  else if c0 =? chr "c" then int (fun x => [wrap8 x]) 0%nat
  else if c0 =? chr "s" then '(s, ap) ← va_str ap; Some (s, 0%nat, ap)
  else if c0 =? chr "%" then Some ([chr "%"], 0%nat, ap)
  else Some ([chr "%"; c0], 0%nat, ap).

(** The loop; [perc] says that [state] is ['%']. *)
Fixpoint vprintf_loop (fuel : nat) (fmt : list Z) (perc : bool) (ap : list parg) : option (list Z) :=
  match fuel with
  | O => None
  | S fuel =>
      match fmt with
      | [] => Some []
      | c0 :: rest =>
          if perc then
            let c1 := nth 0 rest 0 in
            let c2 := if c1 =? 0 then 0 else nth 1 rest 0 in
            '(txt, skip, ap) ← uconversion c0 c1 c2 ap;
            out ← vprintf_loop fuel (drop skip rest) false ap;
            Some (txt ++ out)
          else if c0 =? chr "%" then vprintf_loop fuel rest true ap
          else out ← vprintf_loop fuel rest false ap; Some (c0 :: out)
      end
  end.

(** The bytes [fprintf] writes. *)
Definition vprintf (fmt : string) (ap : list parg) : option (list Z) :=
  vprintf_loop (S (String.length fmt)) (bytes_of fmt) false ap.

(** ** The same text *)

(** Equal but for the case of hexadecimal digits; the user's characters are
    bytes. *)
Definition same_char (a b : Z) : Prop := b = wrap8 a \/ 97 <= a <= 102 /\ b = a - 32.

Definition same_text : list Z -> list Z -> Prop := Forall2 same_char.

Definition byte_string (s : list Z) : Prop := Forall (fun c => 0 <= c < 256) s.

(** The string arguments hold characters. *)
Definition args_ok (ap : list parg) : Prop := Forall (fun a => match a with PStr (Some s) => byte_string s | _ => True end) ap.

Section same.
Implicit Types (ap : list parg) (fmt : list Z).

Lemma same_byte c : 0 <= c < 256 -> same_char c c.
Proof. intros H. left. unfold wrap8. by rewrite Z.mod_small. Qed.

Lemma same_bytes s : byte_string s -> same_text s s.
Proof. induction 1; constructor; [by apply same_byte|done]. Qed.

Lemma same_digit d : 0 <= d < 16 -> same_char (digit d) (udigit d).
Proof.
  intros H. unfold same_char, digit, udigit, wrap8. destruct (Z.ltb_spec d 10); [left; rewrite Z.mod_small; lia|right; lia].
Qed.

Lemma same_rev l l' : same_text l l' -> same_text (rev l) (rev l').
Proof. induction 1; cbn; [constructor|]. apply Forall2_app; [done|]. by constructor. Qed.

Lemma same_digits fuel x base : 0 <= x -> 2 <= base <= 16 -> same_text (digits_loop fuel x base) (udigits_loop fuel x base).
Proof.
  intros Hx Hb. revert x Hx. induction fuel as [|fuel IH]; intros x Hx; cbn; [constructor|].
  pose proof (Z.mod_pos_bound x base). constructor; [apply same_digit; lia|]. case_match; [constructor|]. apply IH, Z.div_pos; lia.
Qed.

Lemma same_int x base sgn : 2 <= base <= 16 -> same_text (printint x base sgn) (uprintint x base sgn).
Proof.
  intros Hb. unfold printint, printint_buf, uprintint. apply same_rev, Forall2_app; [apply same_digits; [apply wrap64_nonneg|done]|].
  case_match; [|constructor]. constructor; [by apply same_byte|constructor].
Qed.

Lemma same_ptr x : same_text (printptr x) (uprintptr x).
Proof.
  unfold printptr, uprintptr. do 2 (constructor; [by apply same_byte|]). assert (H := wrap64_nonneg x). revert H. generalize (wrap64 x) as y. generalize 16%nat as n.
  induction n as [|n IH]; intros y Hy; cbn; [constructor|]. constructor; [|apply IH, wrap64_nonneg].
  apply same_digit. rewrite Z.shiftr_div_pow2 by lia. split; [apply Z.div_pos; lia|]. apply Z.div_lt_upper_bound; lia.
Qed.

Lemma same_conversion c0 c1 c2 ap txt skip ap' :
  0 <= c0 < 256 -> args_ok ap -> conversion c0 c1 c2 ap = Some (txt, skip, ap') ->
  args_ok ap' /\ exists txt', uconversion c0 c1 c2 ap = Some (txt', skip, ap') /\ same_text txt txt'.
Proof.
  intros Hc Hap. unfold conversion, uconversion. cbv zeta.
  assert (HI : forall (f g : Z -> list Z) (k : nat), (forall x, same_text (f x) (g x)) ->
    ('(x, ap) ← va_int ap; Some (f x, k, ap)) = Some (txt, skip, ap') ->
    args_ok ap' /\ exists txt', ('(x, ap) ← va_int ap; Some (g x, k, ap)) = Some (txt', skip, ap') /\ same_text txt txt').
  { intros f g k Hfg. destruct ap as [|[x|s] ap]; [done| |done]. apply Forall_cons in Hap as [_ Hap]. cbn. intros [= <- <- <-]. split; [done|].
    by eexists. }
  repeat match goal with |- context [if ?b then _ else _] => destruct b eqn:? end; try (apply HI; intros x; apply same_int; lia).
  - apply HI, same_ptr.
  - apply HI. intros x. constructor; [|constructor]. left. unfold wrap8, wrap32. rewrite <- Znumtheory.Zmod_div_mod; try lia. by exists (2 ^ 24).
  - destruct ap as [|[x|[s|]] ap]; [done|done|..]; apply Forall_cons in Hap as [Hs Hap]; cbn; intros [= <- <- <-]; (split; [done|]); eexists; (split; [done|]).
    + by apply same_bytes.
    + apply same_bytes. by repeat constructor.
  - intros [= <- <- <-]. split; [done|]. eexists. split; [done|]. by apply same_bytes; repeat constructor.
  - intros [= <- <- <-]. split; [done|]. eexists. split; [done|]. apply same_bytes. repeat constructor; done || lia.
Qed.

(** The two loops. *)
Lemma same_loop fuel fmt ap out : byte_string fmt -> args_ok ap -> format_loop fuel fmt ap = Some out -> (length fmt < fuel)%nat ->
  forall fuel', (length fmt < fuel')%nat -> exists out', vprintf_loop fuel' fmt false ap = Some out' /\ same_text out out'.
Proof.
  revert fmt ap out. induction fuel as [|fuel IH]; intros fmt ap out Hb Hap E Hf fuel' Hf'; [done|].
  destruct fuel' as [|fuel']; [lia|]. destruct fmt as [|cx fmt]; cbn [format_loop vprintf_loop length] in *; [injection E as <-; exists []; split; [done|constructor]|].
  apply Forall_cons in Hb as [Hcx Hb]. destruct (Z.eqb_spec cx (chr "%")) as [->|Hne]; cbn [negb] in E.
  - destruct fuel' as [|fuel']; [lia|]. destruct fmt as [|c0 rest]; cbn [vprintf_loop length] in *; [injection E as <-; exists []; split; [done|constructor]|].
    apply Forall_cons in Hb as [Hc0 Hb]. set (c1 := nth 0 rest 0) in *. set (c2 := if c1 =? 0 then 0 else nth 1 rest 0) in *.
    destruct (conversion c0 c1 c2 ap) as [[[txt skip] ap']|] eqn:Ec; [|done]. cbn in E.
    destruct (same_conversion _ _ _ _ _ _ _ Hc0 Hap Ec) as (Hap' & txt' & -> & Ht). cbn.
    destruct (format_loop fuel (drop skip rest) ap') as [out0|] eqn:Eo; [|done]. injection E as <-.
    destruct (IH (drop skip rest) ap' out0) with (fuel' := fuel') as (out' & -> & Ho); [by apply Forall_drop|done|done|rewrite length_drop; lia|rewrite length_drop; lia|].
    exists (txt' ++ out'). split; [done|by apply Forall2_app].
  - destruct (format_loop fuel fmt ap) as [out0|] eqn:Eo; [|done]. injection E as <-.
    destruct (IH fmt ap out0) with (fuel' := fuel') as (out' & -> & Ho); [done|done|done|lia|lia|].
    exists (cx :: out'). split; [done|]. constructor; [by apply same_byte|done].
Qed.

End same.

Lemma bytes_of_ok t : byte_string (bytes_of t).
Proof.
  unfold byte_string, bytes_of. apply Forall_fmap, Forall_true. intros a. cbn. pose proof (nat_ascii_bounded a). lia.
Qed.

Lemma bytes_of_length t : length (bytes_of t) = String.length t.
Proof. unfold bytes_of. rewrite length_fmap. induction t; cbn; [done|]. by rewrite IHt. Qed.

(** Wherever the kernel's [printf] is defined, the user's [printf] writes the
    same text, but for the case of hexadecimal digits. *)
Theorem vprintf_printf (fmt : string) (ap : list parg) (out : list Z) (Hap : args_ok ap) (Hk : format fmt ap = Some out) :
  exists out', vprintf fmt ap = Some out' /\ same_text out out'.
Proof.
  eapply same_loop; [apply bytes_of_ok|done|exact Hk|rewrite bytes_of_length; lia|rewrite bytes_of_length; lia].
Qed.

Lemma vprintf_printf_witness : exists out', vprintf "%d %x" [PInt (-5); PInt 171] = Some out' /\ same_text (bytes_of "-5 ab") out'.
Proof. apply (vprintf_printf "%d %x" [PInt (-5); PInt 171] (bytes_of "-5 ab")); [by repeat constructor|vm_compute; reflexivity]. Defined.
