(* ===== verification/Filters.v ===== *)
(** * [wc] and [cat] ([wc.c], [cat.c])

    The files a program can open, how [read] splits their contents and where
    [read] or [write] fails are parameters. A program gives what it writes to
    descriptors 1 and 2, and its exit status. *)

From stdpp Require Import base strings numbers list.
From Stdlib Require Import Ascii.
From S2P Require Import Prelude Strings Printf Ulib Uprintf.

(** The contents of the files that [open] finds; whether a [read] with [rest]
    left fails; how many of [n] bytes are written to descriptor 1 after
    [out]. *)
Class Files : Type := {
  file_data : list Z -> option (list Z);
  read_error : list Z -> bool;
  write_count : list Z -> nat -> nat
}.

Record result : Type := mkresult { r_out : list Z; r_err : list Z; r_status : Z }.

(** What [printf] writes; the formats below have the arguments they need. *)
Definition text_of_printf (fmt : string) (ap : list parg) : list Z := default [] (vprintf fmt ap).

(** ** The code *)

Definition nl : string := String (ascii_of_nat 10) EmptyString.
Definition wc_blanks : list Z := [32; 13; 9; 10; 11].

Record counts : Type := mkcounts { w_l : Z; w_w : Z; w_c : Z; w_inword : bool }.

(** The body of the loop over the buffer; the counters are [int]. *)
Definition wc_char (k : counts) (b : Z) : counts :=
  let c := to_int (w_c k + 1) in
  let l := if b =? 10 then to_int (w_l k + 1) else w_l k in
  match strchr wc_blanks b with
  | Some _ => mkcounts l (w_w k) c false
  | None => if w_inword k then mkcounts l (w_w k) c true else mkcounts l (to_int (w_w k + 1)) c true
  end.

(** A function that returns, or calls [exit]. *)
Abbreviation ends A := (option (result + A)).

Section programs.
Context {F : Files} {R : Reader}.

(** [while((n = read(fd, buf, sizeof(buf))) > 0)]; a read that gives something
    shortens the rest. [None] is a read error. *)
Fixpoint wc_loop (fuel : nat) (rest : list Z) (k : counts) : option (option counts) :=
  if read_error rest then Some None else
  let n := read_count 512 rest in
  if (n =? 0)%nat then Some (Some k) else
  match fuel with
  | O => None
  | S fuel => wc_loop fuel (drop n rest) (foldl wc_char k (take n rest))
  end.

(** [out] is what has been written so far. *)
Definition wc (data name out : list Z) : ends (list Z) :=
  r ← wc_loop (length data) data (mkcounts 0 0 0 false);
  Some match r with
       | None => inl (mkresult (out ++ text_of_printf ("wc: read error" ++ nl) []) [] 1)
       | Some k =>
           inr (out ++ text_of_printf ("%d %d %d %s" ++ nl) [PInt (w_l k); PInt (w_w k); PInt (w_c k); PStr (Some name)])
       end.

Fixpoint wc_files (args : list (list Z)) (out : list Z) : option result :=
  match args with
  | [] => Some (mkresult out [] 0)
  | a :: args =>
      match file_data a with
      | None => Some (mkresult (out ++ text_of_printf ("wc: cannot open %s" ++ nl) [PStr (Some a)]) [] 1)
      | Some data => r ← wc data a out; match r with inl r => Some r | inr out => wc_files args out end
      end
  end.

Definition wc_main (args : list (list Z)) (stdin : list Z) : option result :=
  match args with
  | [] => r ← wc stdin [] []; Some match r with inl r => r | inr out => mkresult out [] 0 end
  | _ => wc_files args []
  end.

Fixpoint cat_loop (fuel : nat) (rest out : list Z) : ends (list Z) :=
  if read_error rest then Some (inl (mkresult out (text_of_printf ("cat: read error" ++ nl) []) 1)) else
  let n := read_count 512 rest in
  if (n =? 0)%nat then Some (inr out) else
  match fuel with
  | O => None
  | S fuel =>
      let w := write_count out n in
      let out' := out ++ take w rest in
      if negb (w =? n)%nat then Some (inl (mkresult out' (text_of_printf ("cat: write error" ++ nl) []) 1))
      else cat_loop fuel (drop n rest) out'
  end.

Definition cat (data out : list Z) : ends (list Z) := cat_loop (length data) data out.

Fixpoint cat_files (args : list (list Z)) (out : list Z) : option result :=
  match args with
  | [] => Some (mkresult out [] 0)
  | a :: args =>
      match file_data a with
      | None => Some (mkresult out (text_of_printf ("cat: cannot open %s" ++ nl) [PStr (Some a)]) 1)
      | Some data => r ← cat data out; match r with inl r => Some r | inr out => cat_files args out end
      end
  end.

Definition cat_main (args : list (list Z)) (stdin : list Z) : option result :=
  match args with
  | [] => r ← cat stdin []; Some match r with inl r => r | inr out => mkresult out [] 0 end
  | _ => cat_files args []
  end.

End programs.

(** ** What they compute *)

Definition blank (c : Z) : bool := bool_decide (c ∈ wc_blanks).

(** A word starts at position [i]. *)
Definition word_at (s : list Z) (i : nat) : bool :=
  match s !! i with
  | Some c => negb (blank c) && match i with O => true | S j => match s !! j with Some b => blank b | None => true end end
  | None => false
  end.

Definition lines_in (s : list Z) : Z := Z.of_nat (length (filter (fun c => c = 10) s)).
Definition words_in (s : list Z) : Z := Z.of_nat (length (filter (fun i => word_at s i = true) (seq 0 (length s)))).

(** The contents of the files, if all can be opened. *)
Definition all_files {F : Files} (args : list (list Z)) : option (list (list Z)) := mapM file_data args.

Section lemmas.
Implicit Types (s rest : list Z) (k : counts).

Lemma blank_strchr c : match strchr wc_blanks c with Some _ => true | None => false end = blank c.
Proof.
  unfold blank. assert (Hn : no_nul wc_blanks) by by repeat constructor. pose proof (strchr_elem wc_blanks c Hn) as H.
  case_bool_decide as Hc; destruct (strchr wc_blanks c); try done; naive_solver.
Qed.

(** The counters after the characters [s]. *)
Definition counted s k : Prop :=
  w_l k = lines_in s /\ w_w k = words_in s /\ w_c k = Z.of_nat (length s) /\
  w_inword k = match last s with Some c => negb (blank c) | None => false end.

Lemma filter_agree {A} (P Q : A -> Prop) `{!forall x, Decision (P x), !forall x, Decision (Q x)} (l : list A) :
  Forall (fun x => P x <-> Q x) l -> filter P l = filter Q l.
Proof.
  induction 1 as [|x l Hx _ IH]; [done|]. rewrite !filter_cons, IH. destruct (decide (P x)), (decide (Q x)); tauto || done.
Qed.

Lemma words_snoc s c : words_in (s ++ [c]) = words_in s + (if negb (blank c) && match last s with Some b => blank b | None => true end then 1 else 0).
Proof.
  unfold words_in. rewrite length_app, seq_app, filter_app, length_app. cbn [length seq Nat.add].
  assert (E : filter (fun i => word_at (s ++ [c]) i = true) (seq 0 (length s)) = filter (fun i => word_at s i = true) (seq 0 (length s))).
  { apply filter_agree, Forall_lookup_2. intros j i [-> Hi]%lookup_seq. unfold word_at. rewrite lookup_app_l by done.
    destruct (s !! (0 + j)%nat); [|done]. destruct (0 + j)%nat as [|i'] eqn:Ej; [done|]. by rewrite lookup_app_l by lia. }
  rewrite E, Nat2Z.inj_add. f_equal. cbn [filter list_filter].
  assert (Ew : word_at (s ++ [c]) (length s) = negb (blank c) && match last s with Some b => blank b | None => true end).
  { unfold word_at. rewrite lookup_app_r, Nat.sub_diag by done. cbn [lookup list_lookup]. f_equal. rewrite last_lookup.
    destruct (length s) as [|n] eqn:El; [apply nil_length_inv in El; by subst s|]. cbn [pred]. by rewrite lookup_app_l by lia. }
  rewrite Ew. by destruct (_ && _).
Qed.

Lemma lines_snoc s c : lines_in (s ++ [c]) = lines_in s + (if c =? 10 then 1 else 0).
Proof.
  unfold lines_in. rewrite filter_app, length_app, Nat2Z.inj_add. f_equal. cbn [filter list_filter]. by destruct (Z.eqb_spec c 10), (decide (c = 10)).
Qed.

Lemma words_le s : 0 <= words_in s <= Z.of_nat (length s).
Proof. unfold words_in. pose proof (length_filter (fun i => word_at s i = true) (seq 0 (length s))). rewrite length_seq in *. lia. Qed.

Lemma lines_le s : 0 <= lines_in s <= Z.of_nat (length s).
Proof. unfold lines_in. pose proof (length_filter (fun c => c = 10) s). lia. Qed.

Lemma wc_char_counted s k c : Z.of_nat (length s) < 2 ^ 31 - 1 -> counted s k -> counted (s ++ [c]) (wc_char k c).
Proof.
  intros Hl (E1 & E2 & E3 & E4). pose proof (words_le s). pose proof (lines_le s). unfold counted, wc_char.
  rewrite lines_snoc, words_snoc, length_app, last_snoc. cbn [length].
  assert (Hb := blank_strchr c). destruct (strchr wc_blanks c) as [i|]; rewrite <- Hb; cbn [negb andb].
  - cbn. rewrite E1, E2, E3, !to_int_small by lia. split_and!; [by destruct (c =? 10); lia|lia|lia|done].
  - rewrite E4. destruct (last s) as [b|]; [destruct (blank b)|]; cbn; rewrite ?E1, ?E2, ?E3, ?to_int_small by lia;
      (split_and!; [by destruct (c =? 10); lia|lia|lia|done]).
Qed.

Lemma wc_chars s t k : Z.of_nat (length s + length t) < 2 ^ 31 -> counted s k -> counted (s ++ t) (foldl wc_char k t).
Proof.
  revert s k. induction t as [|c t IH]; intros s k Hl Hk; cbn [foldl]; [by rewrite app_nil_r|]. cbn [length] in Hl.
  rewrite cons_middle, app_assoc. apply IH; [rewrite length_app; cbn; lia|]. apply wc_char_counted; [lia|done].
Qed.

End lemmas.

Section runs.
Context {F : Files} {R : Reader} {RS : ReaderSpec}.
Implicit Types (s rest : list Z).

Lemma read_all n rest : (0 < n)%nat -> read_count n rest = 0%nat -> rest = [].
Proof. intros Hn E. destruct rest as [|c rest]; [done|]. pose proof (read_some n (c :: rest) Hn ltac:(done)). lia. Qed.

Lemma wc_loop_counts fuel s rest k : (length rest <= fuel)%nat -> Z.of_nat (length s + length rest) < 2 ^ 31 -> counted s k ->
  exists r, wc_loop fuel rest k = Some r /\ forall k', r = Some k' -> counted (s ++ rest) k'.
Proof.
  revert s rest k. induction fuel as [|fuel IH]; intros s rest k Hf Hl Hk; cbn [wc_loop]; destruct (read_le 512 rest) as [_ H2];
    (destruct (read_error rest); [by exists None|]); destruct (Nat.eqb_spec (read_count 512 rest) 0) as [E|E]; [|lia|..].
  1, 2: apply read_all in E as ->; [exists (Some k); split; [done|]; intros k' [= <-]; by rewrite app_nil_r|lia].
  set (n := read_count 512 rest) in *. destruct (IH (s ++ take n rest) (drop n rest) (foldl wc_char k (take n rest))) as (k' & -> & Hk').
  - rewrite length_drop. lia.
  - rewrite length_app, length_take, length_drop. lia.
  - apply wc_chars; [rewrite length_take; lia|done].
  - exists k'. split; [done|]. intros k2 E2. specialize (Hk' k2 E2). by rewrite <- app_assoc, take_drop in Hk'.
Qed.

(** A loop of [cat] writes a part of what is left, all of it if it returns. *)
Lemma cat_loop_copies fuel rest out : (length rest <= fuel)%nat ->
  cat_loop fuel rest out = Some (inr (out ++ rest)) \/
  exists r, cat_loop fuel rest out = Some (inl r) /\ r_status r = 1 /\ r_out r `prefix_of` out ++ rest.
Proof.
  revert rest out. induction fuel as [|fuel IH]; intros rest out Hf; cbn [cat_loop]; destruct (read_le 512 rest) as [_ H2];
    (destruct (read_error rest); [right; eexists; split; [done|]; split; [done|by apply prefix_app_r]|]);
    destruct (Nat.eqb_spec (read_count 512 rest) 0) as [E|E]; [|lia|..].
  1, 2: apply read_all in E as ->; [left; by rewrite app_nil_r|lia].
  set (n := read_count 512 rest) in *. destruct (Nat.eqb_spec (write_count out n) n) as [->|Hw]; cbn [negb].
  - destruct (IH (drop n rest) (out ++ take n rest)) as [->|(r & -> & Hr)]; [rewrite length_drop; lia|left|right; exists r; split; [done|]].
    all: by rewrite <- app_assoc, take_drop in *.
  - right. eexists. split; [done|]. split; [done|]. cbn. apply prefix_app. eexists. symmetry. apply take_drop.
Qed.

Lemma cat_files_copies args out : exists r, cat_files args out = Some r /\
  (r_status r = 0 /\ (exists l, all_files args = Some l /\ r_out r = out ++ mjoin l) \/ r_status r = 1).
Proof.
  revert out. induction args as [|a args IH]; intros out; cbn [cat_files].
  { eexists. split; [done|]. left. split; [done|]. exists []. by rewrite app_nil_r. }
  unfold all_files in *. cbn [mapM]. destruct (file_data a) as [data|]; [|eexists; split; [done|by right]]. unfold cat.
  destruct (cat_loop_copies (length data) data out) as [->|(r & -> & Hr & _)]; [done| |exists r; split; [done|by right]]. cbn [mbind option_bind].
  destruct (IH (out ++ data)) as (r & -> & [(H1 & l & El & Er)|Hr]); exists r; (split; [done|]); [left|by right].
  split; [done|]. exists (data :: l). rewrite El. split; [done|]. by rewrite Er, <- app_assoc.
Qed.

End runs.

(** [cat] ends whatever [read] and [write] do; with status 0 it has copied its
    input, or all of the files it was given, and otherwise the status is 1. *)
Lemma cat_copies {F : Files} {R : Reader} {RS : ReaderSpec} (args : list (list Z)) (stdin : list Z) :
  exists r, cat_main args stdin = Some r /\
    (r_status r = 1 \/ r_status r = 0 /\ match args with
                                         | [] => r_out r = stdin
                                         | _ => exists l, all_files args = Some l /\ r_out r = mjoin l
                                         end).
Proof.
  destruct args as [|a args]; cbn [cat_main].
  - unfold cat. destruct (cat_loop_copies (length stdin) stdin []) as [->|(r & -> & Hr & _)]; [done|eexists; split; [done|by right]|].
    eexists. split; [done|by left].
  - destruct (cat_files_copies (a :: args) []) as (r & -> & [(H1 & H2)|Hr]); exists r; (split; [done|]); [by right|by left].
Qed.

(** The line [wc] writes for a file. *)
Definition wc_line (data name : list Z) : list Z :=
  text_of_printf ("%d %d %d %s" ++ nl) [PInt (lines_in data); PInt (words_in data); PInt (Z.of_nat (length data)); PStr (Some name)].

(** [wc] ends whatever [read] does, and unless a read fails it has counted the
    lines, the words and the bytes of the file. *)
Lemma wc_counts {F : Files} {R : Reader} {RS : ReaderSpec} (data name out : list Z) : Z.of_nat (length data) < 2 ^ 31 ->
  exists r, wc data name out = Some r /\ forall out', r = inr out' -> out' = out ++ wc_line data name.
Proof.
  intros Hl. unfold wc. destruct (wc_loop_counts (length data) [] data (mkcounts 0 0 0 false)) as ([k|] & -> & Hk); [done|done|done|..].
  - destruct (Hk k eq_refl) as (E1 & E2 & E3 & _). cbn [mbind option_bind app] in *. eexists. split; [done|]. intros out' [= <-].
    unfold wc_line. by rewrite E1, E2, E3.
  - by eexists.
Qed.
