(* ===== verification/Grind.v ===== *)
(** * The random numbers of [grind] ([grind.c])

    [do_rand] multiplies modulo [2^31 - 1] without a product of more than 31
    bits, by Schrage's decomposition. It computes the product exactly, and no
    two states of the generator have the same successor. *)

From stdpp Require Import base numbers.
From S2P Require Import Prelude.

(** ** The code *)

(** The variables are [long]; [/] and [%] truncate. [ctx] is an
    [unsigned long]; the function stores the state it returns as [int]. *)
Definition do_rand (ctx : Z) : Z * Z :=
  let x := ctx mod 0x7ffffffe + 1 in
  let hi := Z.quot x 127773 in
  let lo := Z.rem x 127773 in
  let x := 16807 * lo - 2836 * hi in
  let x := if x <? 0 then x + 0x7fffffff else x in
  let x := x - 1 in
  (wrap64 x, to_int x).

(** [rand] on the global state [rand_next]. *)
Definition rand (rand_next : Z) : Z * Z := do_rand rand_next.

(** ** The generator *)

Definition modulus : Z := 2 ^ 31 - 1.

(** The state as a residue, from 1 to [modulus - 1]. *)
Definition residue (ctx : Z) : Z := ctx mod (modulus - 1) + 1.

Lemma residue_range ctx : 1 <= residue ctx < modulus.
Proof. unfold residue, modulus. pose proof (Z.mod_pos_bound ctx (2 ^ 31 - 1 - 1)). lia. Qed.

(** Schrage's decomposition: the difference is the product, less a multiple of
    the modulus, and it is within one modulus of 0. *)
Lemma schrage x : 1 <= x < modulus ->
  16807 * Z.rem x 127773 - 2836 * Z.quot x 127773 = 16807 * x - modulus * (x / 127773) /\
  - modulus < 16807 * Z.rem x 127773 - 2836 * Z.quot x 127773 < modulus.
Proof.
  unfold modulus. intros Hx. rewrite Z.quot_div_nonneg, Z.rem_mod_nonneg by lia.
  pose proof (Z.div_mod x 127773). pose proof (Z.mod_pos_bound x 127773). lia.
Qed.

(** 16807 is invertible. *)
Lemma mult_inverse x : 0 <= x < modulus -> 1407677000 * (16807 * x mod modulus) mod modulus = x.
Proof.
  intros Hx. rewrite Z.mul_mod_idemp_r by done. rewrite Z.mul_assoc.
  change (1407677000 * 16807) with (11017 * modulus + 1). rewrite Z.mul_add_distr_r, Z.mul_1_l.
  rewrite <- (Z.mul_assoc 11017), (Z.mul_comm modulus), Z.mul_assoc, Z.add_comm, Z.mod_add by done.
  by apply Z.mod_small.
Qed.

(** The product is never 0. *)
Lemma product_range x : 1 <= x < modulus -> 1 <= 16807 * x mod modulus < modulus.
Proof.
  intros Hx. pose proof (Z.mod_pos_bound (16807 * x) modulus ltac:(done)).
  destruct (decide (16807 * x mod modulus = 0)) as [E|]; [|lia].
  assert (Hi := mult_inverse x ltac:(lia)). rewrite E in Hi. change (1407677000 * 0 mod modulus) with 0 in Hi. lia.
Qed.

Lemma do_rand_value ctx : do_rand ctx = (16807 * residue ctx mod modulus - 1, 16807 * residue ctx mod modulus - 1).
Proof.
  unfold do_rand. change 0x7ffffffe with (modulus - 1). fold (residue ctx). set (x := residue ctx).
  assert (Hx := residue_range ctx : 1 <= x < modulus). destruct (schrage x Hx) as [E Hr]. assert (Hp := product_range x Hx).
  assert (Hy : (if 16807 * Z.rem x 127773 - 2836 * Z.quot x 127773 <? 0
                then 16807 * Z.rem x 127773 - 2836 * Z.quot x 127773 + 0x7fffffff
                else 16807 * Z.rem x 127773 - 2836 * Z.quot x 127773) = 16807 * x mod modulus).
  { rewrite E in *. pose proof (Z.div_mod (16807 * x) modulus). unfold modulus in *.
    destruct (Z.ltb_spec (16807 * x - (2 ^ 31 - 1) * (x / 127773)) 0);
      [apply (Z.mod_unique _ _ (x / 127773 - 1))|apply (Z.mod_unique _ _ (x / 127773))]; lia. }
  rewrite Hy. unfold modulus in *. rewrite wrap64_small, to_int_small by lia. done.
Qed.

(** The successor of a state, as a residue. *)
Lemma do_rand_residue ctx : residue (do_rand ctx).1 = 16807 * residue ctx mod modulus.
Proof.
  rewrite do_rand_value. cbn [fst]. assert (Hp := product_range _ (residue_range ctx)).
  unfold residue at 1. rewrite Z.mod_small by lia. lia.
Qed.

(** ** The property *)

(** [do_rand] is multiplication by 16807 modulo [2^31 - 1], computed without a
    product that leaves 31 bits: after [n] calls the state is the start times
    [16807^n], every number returned is the state, from 0 to [2^31 - 3], and
    states that differ have successors that differ. *)
Theorem do_rand_lehmer (n : nat) (ctx ctx' : Z) :
  residue (Nat.iter n (fun c => (do_rand c).1) ctx) = 16807 ^ Z.of_nat n * residue ctx mod modulus /\
  (do_rand ctx).2 = (do_rand ctx).1 /\ 0 <= (do_rand ctx).2 <= 2 ^ 31 - 3 /\
  (0 <= 16807 * Z.rem (residue ctx) 127773 < 2 ^ 31 /\ 0 <= 2836 * Z.quot (residue ctx) 127773 < 2 ^ 31) /\
  (residue ctx <> residue ctx' -> (do_rand ctx).1 <> (do_rand ctx').1).
Proof.
  split; [|split; [by rewrite do_rand_value|]].
  - induction n as [|n IH].
    + cbn [Nat.iter nat_rect]. change (16807 ^ Z.of_nat 0) with 1. rewrite Z.mul_1_l. symmetry. apply Z.mod_small. pose proof (residue_range ctx). lia.
    + cbn [Nat.iter nat_rect]. rewrite do_rand_residue. change (nat_rect _ _ _ n) with (Nat.iter n (fun c => (do_rand c).1) ctx).
      rewrite IH, Z.mul_mod_idemp_r by done. rewrite Nat2Z.inj_succ, Z.pow_succ_r by lia. by rewrite Z.mul_assoc.
  - assert (Hp := product_range _ (residue_range ctx)). assert (Hr := residue_range ctx). rewrite !do_rand_value. cbn [fst snd].
    split; [unfold modulus in *; lia|]. split.
    + unfold modulus in Hr. rewrite Z.quot_div_nonneg, Z.rem_mod_nonneg by lia.
      pose proof (Z.mod_pos_bound (residue ctx) 127773). pose proof (Z.div_mod (residue ctx) 127773).
      pose proof (Z.div_pos (residue ctx) 127773). lia.
    + intros Hne Heq. apply Hne. assert (Hr' := residue_range ctx').
      rewrite <- (mult_inverse (residue ctx)), <- (mult_inverse (residue ctx')) by lia. do 2 f_equal. lia.
Qed.
