(* ===== verification/Grep.v ===== *)
(** * The pattern matcher and the line filter of [user/grep.c]

    A [char*] is the list of the characters it points to; reading at or past
    its end gives the terminating NUL. [match] is proved equivalent to a
    declarative semantics of its patterns, and [grep] to filtering the lines
    of its input with it. *)

From stdpp Require Import base strings numbers list.
From Stdlib Require Import Ascii.
From S2P Require Import Prelude Printf Ulib Uprintf Filters.

(** ** The code *)

(** The loop of [matchstar], given [matchhere(re, ...)]. *)
Fixpoint star_loop (here : list Z -> bool) (c : Z) (text : list Z) : bool :=
  if here text then true else
  match text with
  | [] => false
  | t :: text => if negb (t =? 0) && ((t =? c) || (c =? chr "."%char)) then star_loop here c text else false
  end.

Fixpoint matchhere (re text : list Z) : bool :=
  match re with
  | [] => true
  | c :: re1 =>
      if c =? 0 then true else
      match re1 with
      | d :: re2 =>
          if d =? chr "*"%char then star_loop (matchhere re2) c text
          else if (c =? chr "$"%char) && (d =? 0) then at_ text 0 =? 0
          else if negb (at_ text 0 =? 0) && ((c =? chr "."%char) || (c =? at_ text 0))
               then matchhere re1 (tail text) else false
      | [] =>
          if c =? chr "$"%char then at_ text 0 =? 0
          else if negb (at_ text 0 =? 0) && ((c =? chr "."%char) || (c =? at_ text 0))
               then matchhere re1 (tail text) else false
      end
  end.

Definition matchstar (c : Z) (re text : list Z) : bool := star_loop (matchhere re) c text.

(** The loop of [match], which looks at the empty string at the end too. *)
Fixpoint match_loop (re text : list Z) : bool :=
  if matchhere re text then true else
  match text with
  | [] => false
  | t :: text => if negb (t =? 0) then match_loop re text else false
  end.

Definition match_ (re text : list Z) : bool :=
  if at_ re 0 =? chr "^"%char then matchhere (tail re) text else match_loop re text.

Definition bufsize : nat := 1024.

Section grep.
Context {R : Reader} (pattern : list Z).

(** The inner loop, from [p]: what is written, and the bytes from the last
    [p] on. One turn for each newline. *)
Fixpoint lines_loop (fuel : nat) (p : list Z) : option (list Z * list Z) :=
  match strchr p 10 with
  | None => Some ([], p)
  | Some q =>
      match fuel with
      | O => None
      | S fuel =>
          r ← lines_loop fuel (drop (S q) p);
          Some ((if match_ pattern (take q p) then take (S q) p else []) ++ r.1, r.2)
      end
  end.

(** [buf] holds the first [m] bytes [held]; [rest] is what is left to read. *)
Fixpoint grep_loop (fuel : nat) (held rest : list Z) : option (list Z) :=
  let n := read_count (bufsize - length held - 1) rest in
  if (n =? 0)%nat then Some [] else
  match fuel with
  | O => None
  | S fuel =>
      let held := held ++ take n rest in
      r ← lines_loop (length held) held;
      out ← grep_loop fuel r.2 (drop n rest);
      Some (r.1 ++ out)
  end.

Definition grep (input : list Z) : option (list Z) := grep_loop (length input) [] input.

End grep.

Section main.
Context {F : Files} {R : Reader} (pattern : list Z).

Fixpoint grep_files (args : list (list Z)) (out : list Z) : option result :=
  match args with
  | [] => Some (mkresult out [] 0)
  | a :: args =>
      match file_data a with
      | None => Some (mkresult (out ++ text_of_printf ("grep: cannot open %s" ++ nl) [PStr (Some a)]) [] 1)
      | Some data => o ← grep pattern data; grep_files args (out ++ o)
      end
  end.

End main.

Definition grep_main {F : Files} {R : Reader} (args : list (list Z)) (stdin : list Z) : option result :=
  match args with
  | [] => Some (mkresult [] (text_of_printf ("usage: grep pattern [file ...]" ++ nl) []) 1)
  | [pattern] => o ← grep pattern stdin; Some (mkresult o [] 0)
  | pattern :: files => grep_files pattern files []
  end.

(** ** The meaning of a pattern *)

(** A one-character pattern matches one character, or with a star any number
    of them; a final dollar asks for the end of the text. *)
Inductive item : Type :=
| One (c : Z)
| Star (c : Z).

Definition admits (c x : Z) : Prop := c = chr "."%char \/ c = x.

Fixpoint items (re : list Z) : list item * bool :=
  match re with
  | [] => ([], false)
  | c :: re1 =>
      match re1 with
      | d :: re2 => if d =? chr "*"%char then let r := items re2 in (Star c :: r.1, r.2)
                    else let r := items re1 in (One c :: r.1, r.2)
      | [] => if c =? chr "$"%char then ([], true) else ([One c], false)
      end
  end.

(** The words a sequence of items stands for. *)
Inductive denotes : list item -> list Z -> Prop :=
| d_nil : denotes [] []
| d_one c x l w : admits c x -> denotes l w -> denotes (One c :: l) (x :: w)
| d_star c u l w : Forall (admits c) u -> denotes l w -> denotes (Star c :: l) (u ++ w).

(** A pattern occurs in a text at a place it is not anchored away from. *)
Definition occurs (re text : list Z) : Prop :=
  let anchored := bool_decide (head re = Some (chr "^"%char)) in
  let '(l, to_end) := items (if anchored then tail re else re) in
  exists pre w post, text = pre ++ w ++ post /\ denotes l w /\
    (anchored = true -> pre = []) /\ (to_end = true -> post = []).

Section matcher.
Implicit Types (re text w : list Z).

Lemma star_loop_spec here c text :
  no_nul text ->
  star_loop here c text = true <->
  exists u v, text = u ++ v /\ Forall (admits c) u /\ here v = true.
Proof.
  intros Hn. induction Hn as [|t text Ht Hn IH]; cbn [star_loop].
  - destruct (here []) eqn:E; split; [|done|done|].
    + intros _. by exists [], [].
    + intros (u & v & Huv & _ & Hv). symmetry in Huv. apply app_nil in Huv as [-> ->]. congruence.
  - destruct (here (t :: text)) eqn:E.
    { split; [|done]. intros _. by exists [], (t :: text). }
    destruct (Z.eqb_spec t 0); [done|]. cbn [negb andb].
    destruct ((t =? c) || (c =? chr "."%char)) eqn:Ec.
    + rewrite IH. split.
      * intros (u & v & -> & Hu & Hv). exists (t :: u), v. split_and!; [done| |done]. constructor; [|done].
        apply orb_true_iff in Ec as [Ec%Z.eqb_eq|Ec%Z.eqb_eq]; [right|left]; congruence.
      * intros (u & v & Huv & Hu & Hv). destruct u as [|t' u]; cbn in Huv; [congruence|].
        injection Huv as -> ->. exists u, v. inversion Hu; subst. done.
    + split; [done|]. intros (u & v & Huv & Hu & Hv). destruct u as [|t' u]; cbn in Huv; [congruence|].
      injection Huv as -> ->. inversion Hu as [|? ? Ha _]; subst. apply orb_false_iff in Ec as [E1%Z.eqb_neq E2%Z.eqb_neq].
      by destruct Ha.
Qed.

Definition here_spec re text : Prop :=
  exists w post, text = w ++ post /\ denotes (items re).1 w /\ ((items re).2 = true -> post = []).

(** One literal or dot in front of a pattern. *)
Lemma one_spec c re text :
  no_nul text ->
  negb (at_ text 0 =? 0) && ((c =? chr "."%char) || (c =? at_ text 0)) = true /\ here_spec re (tail text) <->
  exists w post, text = w ++ post /\ denotes (One c :: (items re).1) w /\ ((items re).2 = true -> post = []).
Proof.
  intros Hn. destruct text as [|x text]; cbn [at_ nth tail].
  - split; [by intros [? _]|]. intros (w & post & Hw & Hd & _). inversion Hd; subst. done.
  - inversion Hn as [|? ? Hx _]; subst. destruct (Z.eqb_spec x 0); [done|]. cbn [negb andb]. split.
    + intros [Hc (w & post & -> & Hd & He)]. exists (x :: w), post. split_and!; [done| |done]. constructor; [|done].
      apply orb_true_iff in Hc as [Hc%Z.eqb_eq|Hc%Z.eqb_eq]; [left|right]; done.
    + intros (w & post & Hw & Hd & He). inversion Hd as [|? x' ? w' Ha Hd'|]; subst. injection Hw as <- ->.
      split; [|by exists w', post]. apply orb_true_iff. rewrite !Z.eqb_eq. exact Ha.
Qed.

Lemma matchhere_spec re text : no_nul re -> no_nul text -> matchhere re text = true <-> here_spec re text.
Proof.
  revert text. induction re as [re IH] using (well_founded_induction (Wf_nat.well_founded_ltof _ length)).
  intros text Hre Ht. destruct re as [|c re1].
  { split; [|done]. intros _. exists [], text. by repeat split; try constructor. }
  inversion Hre as [|? ? Hc Hre1]; subst. cbn [matchhere]. destruct (Z.eqb_spec c 0); [done|].
  destruct re1 as [|d re2].
  - destruct (Z.eqb_spec c (chr "$"%char)) as [->|Hd].
    + unfold here_spec. cbn. split.
      * destruct text as [|x text]; [by exists [], []; repeat split; try constructor|].
        inversion Ht; subst. cbn. intros E%Z.eqb_eq. done.
      * intros (w & post & -> & Hw & Hp). inversion Hw; subst. by rewrite (Hp eq_refl).
    + assert (E : items [c] = ([One c], false)) by (cbn; by destruct (Z.eqb_spec c (chr "$"%char))).
      unfold here_spec. rewrite E. rewrite <- (one_spec c [] text) by done.
      rewrite <- (IH [] ltac:(unfold ltof; cbn; lia) (tail text)) by (constructor || by apply no_nul_tail).
      cbn [matchhere]. destruct (_ && _); naive_solver.
  - inversion Hre1 as [|? ? Hd Hre2]; subst. unfold here_spec. cbn [items].
    destruct (Z.eqb_spec d (chr "*"%char)) as [->|Hs]; cbn [fst snd].
    + rewrite star_loop_spec by done. split.
      * intros (u & v & -> & Hu & Hv%IH); [|unfold ltof; cbn; lia|done|by eapply no_nul_suffix].
        destruct Hv as (w & post & -> & Hw & Hp). exists (u ++ w), post. split_and!; [by rewrite app_assoc|by constructor|done].
      * intros (w & post & -> & Hw & Hp). inversion Hw as [| |? u ? w' Hu Hw']; subst. exists u, (w' ++ post).
        split_and!; [by rewrite app_assoc|done|]. apply IH; [unfold ltof; cbn; lia|done| |by exists w', post].
        rewrite <- app_assoc in Ht. by eapply no_nul_suffix.
    + destruct (Z.eqb_spec d 0); [done|]. rewrite andb_false_r.
      rewrite <- (one_spec c (d :: re2) text) by done.
      rewrite <- (IH (d :: re2) ltac:(unfold ltof; cbn; lia) (tail text)) by (done || by apply no_nul_tail).
      destruct (_ && _); naive_solver.
Qed.

Lemma match_loop_spec re text :
  no_nul re -> no_nul text ->
  match_loop re text = true <-> exists pre v, text = pre ++ v /\ here_spec re v.
Proof.
  intros Hre Hn. induction Hn as [|t text Ht Hn IH]; cbn [match_loop].
  - destruct (matchhere re []) eqn:E; split; [|done|done|].
    + intros _. exists [], []. split; [done|]. by apply matchhere_spec; [|constructor|].
    + intros (pre & v & Hv & H). symmetry in Hv. apply app_nil in Hv as [-> ->].
      apply matchhere_spec in H; [congruence|done|constructor].
  - destruct (matchhere re (t :: text)) eqn:E.
    { split; [|done]. intros _. exists [], (t :: text). split; [done|]. apply matchhere_spec; [done|by constructor|done]. }
    destruct (Z.eqb_spec t 0); [done|]. cbn [negb]. rewrite IH. split.
    + intros (pre & v & -> & H). by exists (t :: pre), v.
    + intros (pre & v & Hv & H). destruct pre as [|t' pre]; cbn in Hv.
      * subst v. apply matchhere_spec in H; [congruence|done|by constructor].
      * injection Hv as -> ->. by exists pre, v.
Qed.

Lemma match_spec re text : no_nul re -> no_nul text -> match_ re text = true <-> occurs re text.
Proof.
  intros Hre Ht.
  unfold match_, occurs.
  assert (Hfree : forall r, no_nul r -> match_loop r text = true <->
    exists pre w post, text = pre ++ w ++ post /\ denotes (items r).1 w /\
      (false = true -> pre = []) /\ ((items r).2 = true -> post = [])).
  { intros r Hr. rewrite match_loop_spec by done. unfold here_spec. split.
    - intros (pre & v & -> & w & post & -> & Hw & Hp). by exists pre, w, post.
    - intros (pre & w & post & -> & Hw & _ & Hp). exists pre, (w ++ post). split; [done|]. by exists w, post. }
  destruct re as [|c re]; cbn [at_ nth head tail].
  - rewrite bool_decide_false by done. by apply (Hfree []).
  - destruct (Z.eqb_spec c (chr "^"%char)) as [->|Hc].
    + rewrite bool_decide_true by done. inversion Hre; subst. rewrite matchhere_spec by done. unfold here_spec.
      destruct (items re) as [l e]. cbn [fst snd]. split.
      * intros (w & post & -> & Hw & Hp). by exists [], w, post.
      * intros (pre & w & post & -> & Hw & Hpre & Hp). rewrite (Hpre eq_refl). by exists w, post.
    + rewrite bool_decide_false by congruence. rewrite (Hfree (c :: re)) by done. by destruct (items (c :: re)).
Qed.

End matcher.

(** ** Lines *)

(** The lines of a text that end in a newline, without it, and what follows
    the last one. *)
Fixpoint split_lines (s : list Z) : list (list Z) * list Z :=
  match s with
  | [] => ([], [])
  | c :: s =>
      let r := split_lines s in
      if c =? 10 then ([] :: r.1, r.2)
      else match r.1 with [] => ([], c :: r.2) | l :: ls => ((c :: l) :: ls, r.2) end
  end.

(** The lines in front of the first one that, with its newline, does not fit
    in the buffer. *)
Fixpoint fitting (ls : list (list Z)) : list (list Z) :=
  match ls with
  | [] => []
  | l :: ls => if (length l <? bufsize - 1)%nat then l :: fitting ls else []
  end.

(** [out] is the lines the pattern occurs in, in order, each with its newline. *)
Inductive selects (pattern : list Z) : list (list Z) -> list Z -> Prop :=
| sel_nil : selects pattern [] []
| sel_take l ls out : occurs pattern l -> selects pattern ls out -> selects pattern (l :: ls) (l ++ [10] ++ out)
| sel_skip l ls out : ~ occurs pattern l -> selects pattern ls out -> selects pattern (l :: ls) out.

(** What the code writes for a list of lines. *)
Definition picked (pattern : list Z) (ls : list (list Z)) : list Z :=
  concat ((fun l => if match_ pattern l then l ++ [10] else []) <$> ls).

Section lines.
Context {R : Reader} {RS : ReaderSpec} (pattern : list Z).
Implicit Types (p a b : list Z).

Lemma strchr_Some p q :
  strchr p 10 = Some q ->
  split_lines p = (take q p :: (split_lines (drop (S q) p)).1, (split_lines (drop (S q) p)).2) /\
  (q < length p)%nat /\ take (S q) p = take q p ++ [10].
Proof.
  revert q. induction p as [|x p IH]; intros q; cbn [strchr split_lines]; [done|].
  destruct (x =? 0); [done|]. destruct (Z.eqb_spec x 10) as [->|].
  - intros [= <-]. cbn. split_and!; [done|lia|done].
  - destruct (strchr p 10) as [k|]; cbn; [|done]. intros [= <-].
    destruct (IH k eq_refl) as (-> & Hk & Ht). cbn. split_and!; [done|lia|]. by rewrite <- Ht.
Qed.

Lemma strchr_None p : no_nul p -> strchr p 10 = None -> split_lines p = ([], p).
Proof.
  induction 1 as [|x p Hx _ IH]; cbn [strchr split_lines]; [done|]. destruct (Z.eqb_spec x 0); [done|].
  destruct (Z.eqb_spec x 10); [done|]. destruct (strchr p 10); cbn; [done|]. by rewrite IH.
Qed.

Lemma split_lines_app a b :
  split_lines (a ++ b) =
  ((split_lines a).1 ++ (split_lines ((split_lines a).2 ++ b)).1, (split_lines ((split_lines a).2 ++ b)).2).
Proof.
  induction a as [|c a IH]; [cbn; by destruct (split_lines b)|]. cbn [app split_lines]. rewrite IH.
  destruct (Z.eqb_spec c 10) as [->|Hc]; [done|]. destruct (split_lines a) as [[|l ls] t]; cbn; [|done].
  destruct (Z.eqb_spec c 10); [done|]. by destruct (split_lines (t ++ b)) as [[|] ?].
Qed.

Lemma split_lines_rest a : split_lines (split_lines a).2 = ([], (split_lines a).2).
Proof.
  induction a as [|c a IH]; cbn [split_lines]; [done|]. destruct (Z.eqb_spec c 10) as [->|Hc]; [done|].
  destruct (split_lines a) as [[|l ls] t]; cbn in *; [|done]. destruct (Z.eqb_spec c 10); [done|]. by rewrite IH.
Qed.

Lemma split_lines_le a : (length (split_lines a).2 <= length a)%nat.
Proof.
  induction a as [|c a IH]; cbn; [lia|]. destruct (c =? 10); cbn; [lia|].
  destruct (split_lines a) as [[|l ls] t]; cbn in *; lia.
Qed.

Lemma split_lines_nul a : no_nul a -> no_nul (split_lines a).2.
Proof.
  induction 1 as [|c a Hc _ IH]; cbn; [constructor|]. destruct (c =? 10); cbn; [done|].
  destruct (split_lines a) as [[|l ls] t]; cbn in *; [by constructor|done].
Qed.

Lemma picked_app ls ls' : picked pattern (ls ++ ls') = picked pattern ls ++ picked pattern ls'.
Proof. unfold picked. by rewrite fmap_app, concat_app. Qed.

Lemma lines_loop_spec fuel p :
  no_nul p -> (length p <= fuel)%nat ->
  lines_loop pattern fuel p = Some (picked pattern (split_lines p).1, (split_lines p).2).
Proof.
  revert p. induction fuel as [|fuel IH]; intros p Hn Hf; cbn [lines_loop];
    destruct (strchr p 10) as [q|] eqn:E; try (by rewrite (strchr_None _ Hn E)).
  - destruct (strchr_Some _ _ E) as (_ & Hq & _). lia.
  - destruct (strchr_Some _ _ E) as (-> & Hq & ->). rewrite IH.
    + cbn [mbind option_bind fst snd]. unfold picked. done.
    + rewrite <- (take_drop (S q) p) in Hn. by eapply no_nul_suffix.
    + rewrite length_drop. lia.
Qed.

(** The first line, if there is one, contains what precedes it. *)
Lemma split_lines_prefix a b l ls :
  split_lines a = ([], a) -> (split_lines (a ++ b)).1 = l :: ls -> exists l', l = a ++ l'.
Proof.
  revert l ls. induction a as [|c a IH]; intros l ls Ha; cbn [app split_lines] in *; [by exists l|].
  destruct (Z.eqb_spec c 10); [done|]. destruct (split_lines a) as [[|? ?] t] eqn:E; [|done]. injection Ha as ->.
  destruct (split_lines (a ++ b)) as [[|l0 ls0] t0] eqn:E'; cbn; [done|]. intros [= <- <-].
  destruct (IH l0 ls0) as [l' ->]; [done|done|]. by exists l'.
Qed.

Lemma fitting_app ls ls' :
  Forall (fun l => (length l < bufsize - 1)%nat) ls -> fitting (ls ++ ls') = ls ++ fitting ls'.
Proof. induction 1 as [|l ls Hl _ IH]; [done|]. cbn [app fitting]. by rewrite (proj2 (Nat.ltb_lt _ _) Hl), IH. Qed.

(** A whole line and its newline are part of the text. *)
Lemma split_lines_short a : Forall (fun l => (length l < length a)%nat) (split_lines a).1.
Proof.
  induction a as [|c a IH]; cbn; [constructor|]. destruct (c =? 10); cbn.
  - constructor; [cbn; lia|]. eapply Forall_impl; [exact IH|]. cbn. lia.
  - destruct (split_lines a) as [[|l ls] t]; cbn in *; [constructor|]. inversion IH as [|? ? Hl Hls]; subst.
    constructor; [cbn; lia|]. eapply Forall_impl; [exact Hls|]. cbn. lia.
Qed.

Lemma split_lines_no_nul a : no_nul a -> Forall no_nul (split_lines a).1.
Proof.
  induction 1 as [|c a Hc _ IH]; cbn; [constructor|]. destruct (c =? 10); cbn; [constructor; [constructor|done]|].
  destruct (split_lines a) as [[|l ls] t]; cbn in *; [done|]. inversion IH; subst. constructor; [by constructor|done].
Qed.

Lemma fitting_Forall (P : list Z -> Prop) ls : Forall P ls -> Forall P (fitting ls).
Proof. induction 1 as [|l ls Hl _ IH]; cbn [fitting]; [constructor|]. by case_match; constructor. Qed.

Lemma picked_selects ls : no_nul pattern -> Forall no_nul ls -> selects pattern ls (picked pattern ls).
Proof.
  intros Hp. induction 1 as [|l ls Hl _ IH]; [constructor|]. unfold picked. cbn [fmap list_fmap concat].
  pose proof (match_spec pattern l Hp Hl) as Hm. destruct (match_ pattern l).
  - rewrite <- app_assoc. constructor; [by apply Hm|done].
  - constructor; [|done]. intros H%Hm. done.
Qed.

(** A full buffer without a newline ends the loop: a line that does not fit
    and all that follows it are not looked at. *)
Lemma grep_loop_spec fuel held rest :
  no_nul held -> no_nul rest -> split_lines held = ([], held) -> (length rest <= fuel)%nat ->
  (length held <= bufsize - 1)%nat ->
  grep_loop pattern fuel held rest = Some (picked pattern (fitting (split_lines (held ++ rest)).1)).
Proof using RS.
  revert held rest. induction fuel as [|fuel IH]; intros held rest Hh Hr Hl Hf Hle; cbn [grep_loop];
    set (n := read_count _ rest); destruct (Nat.eqb_spec n 0) as [Hn|Hn].
  1, 3: f_equal; destruct (decide (rest = [])) as [->|Hne]; [by rewrite app_nil_r, Hl|];
    destruct (split_lines (held ++ rest)).1 as [|l ls] eqn:E; [done|];
    destruct (split_lines_prefix _ _ _ _ Hl E) as [l' ->]; cbn [fitting];
    rewrite (proj2 (Nat.ltb_ge _ _)); [done|]; rewrite length_app;
    destruct (decide (0 < bufsize - length held - 1)%nat) as [H|H];
    [pose proof (read_some (bufsize - length held - 1) rest H Hne); lia|lia].
  - destruct (read_le (bufsize - length held - 1) rest). destruct rest; cbn in *; lia.
  - destruct (read_le (bufsize - length held - 1) rest) as [H1 H2]. fold n in H1, H2.
    set (h := held ++ take n rest).
    assert (Hnul : no_nul h) by (apply Forall_app; split; [done|by apply Forall_take]).
    assert (Eh : held ++ rest = h ++ drop n rest) by (unfold h; by rewrite <- app_assoc, take_drop).
    assert (Hlen : length h = (length held + n)%nat) by (unfold h; rewrite length_app, length_take; lia).
    assert (Hshort : Forall (fun l => (length l < bufsize - 1)%nat) (split_lines h).1).
    { eapply Forall_impl; [apply split_lines_short|]. cbn beta. unfold bufsize in *. lia. }
    rewrite Eh, split_lines_app. cbn [fst]. rewrite fitting_app by done.
    rewrite lines_loop_spec by done. cbn [mbind option_bind fst snd].
    rewrite IH; [cbn; by rewrite picked_app|by apply split_lines_nul|by apply Forall_drop| | |].
    + apply split_lines_rest.
    + rewrite length_drop. lia.
    + pose proof (split_lines_le h). unfold bufsize in *. lia.
Qed.

Lemma grep_spec input :
  no_nul input -> grep pattern input = Some (picked pattern (fitting (split_lines input).1)).
Proof using RS. intros Hn. unfold grep. rewrite grep_loop_spec; [done|constructor|done|done|done|cbn; lia]. Qed.

End lines.

(** ** Properties *)

(** C36: [match] is exact: it returns true if and only if the pattern occurs in
    the text, where a dot stands for any character, a star for any number of
    the character before it, a leading caret and a final dollar for the ends
    of the text. *)
Theorem match_equiv_occurs (re text : list Z) (Hre : no_nul re) (Ht : no_nul text) :
  match_ re text = true <-> occurs re text.
Proof. by apply match_spec. Qed.

(** C37: on a pattern and an input without NUL bytes, [grep] returns, however the
    kernel cuts the input into pieces, and what it writes is exactly the lines
    in which the pattern occurs, in order and each with its newline, out of
    the newline-terminated lines in front of the first one of 1023 bytes or
    more. Such a line fills the buffer and ends the reading, and a last line
    without a newline is never looked at. *)
Theorem grep_filters_lines {R : Reader} {RS : ReaderSpec} (pattern input : list Z)
    (Hp : no_nul pattern) (Hn : no_nul input) :
  exists out, grep pattern input = Some out /\ selects pattern (fitting (split_lines input).1) out.
Proof.
  exists (picked pattern (fitting (split_lines input).1)). split; [by apply grep_spec|].
  apply picked_selects; [done|]. apply fitting_Forall. by apply split_lines_no_nul.
Qed.

(** [grep] of several files writes the matching lines of each in turn. *)
Lemma grep_files_selects {F : Files} {R : Reader} {RS : ReaderSpec} pattern args l out :
  all_files args = Some l -> Forall no_nul l ->
  grep_files pattern args out =
    Some (mkresult (out ++ mjoin ((fun d => picked pattern (fitting (split_lines d).1)) <$> l)) [] 0).
Proof.
  unfold all_files. revert l out. induction args as [|a args IH]; intros l out; cbn [mapM grep_files].
  - intros [= <-] _. cbn. by rewrite app_nil_r.
  - destruct (file_data a) as [d|]; [|done]. cbn [mbind option_bind].
    destruct (mapM file_data args) as [l'|] eqn:E; [|done]. cbn. intros [= <-] [H HF]%Forall_cons.
    rewrite grep_spec by done. cbn [mbind option_bind]. rewrite (IH l') by done. cbn. by rewrite <- app_assoc.
Qed.

(** ** Instances *)

(** "^a.*b$" on "axxb". *)
Lemma match_equiv_occurs_witness : occurs [94; 97; 46; 42; 98; 36] [97; 120; 120; 98].
Proof. apply (match_equiv_occurs [94; 97; 46; 42; 98; 36] [97; 120; 120; 98]); [by repeat constructor..|reflexivity]. Defined.

(** A kernel that delivers two bytes at a time. *)
#[global] Instance slow_reader : Reader := {| read_count n rest := Nat.min 2 (Nat.min n (length rest)) |}.

#[global] Instance slow_reader_spec : ReaderSpec.
Proof.
  split; intros; unfold read_count, slow_reader; [lia|]. destruct rest; [done|]. cbn [length]. lia.
Qed.

Lemma grep_filters_lines_witness :
  exists out, grep [98] [97; 10; 98; 99; 10; 98] = Some out /\ selects [98] [[97]; [98; 99]] out.
Proof. apply (grep_filters_lines [98] [97; 10; 98; 99; 10; 98]); by repeat constructor. Defined.

Lemma grep_lines_run : grep [98] [97; 10; 98; 99; 10; 98] = Some [98; 99; 10].
Proof. reflexivity. Qed.
