(* ===== verification/Umalloc.v ===== *)
(** * The memory allocator of user programs ([user/umalloc.c])

    Free blocks form a circular list in address order that starts at the
    static header [base]; each begins with a header of 16 bytes that holds the
    next block and its size in units of 16 bytes. The model keeps the headers
    of the process's memory, typed: address [a] has a header when [a] is [base]
    or the 16 bytes at [a] lie between the first break [lo] and the break; any
    other access faults. [sbrk] grants or refuses an extension as the kernel
    pleases. *)

From stdpp Require Import base sets sorting numbers list.
From S2P Require Import Prelude.

(** ** The code *)

(** [Header]; [sizeof(Header)] is 16. *)
Record header : Type := mkheader { h_ptr : Z; h_size : Z }.

Record ust : Type := mkust { u_heap : Z -> header; u_freep : Z; u_brk : Z }.

Definition set_u_heap (v : Z -> header) (s : ust) : ust := mkust v (u_freep s) (u_brk s).
Definition set_u_freep (v : Z) (s : ust) : ust := mkust (u_heap s) v (u_brk s).
Definition set_u_brk (v : Z) (s : ust) : ust := mkust (u_heap s) (u_freep s) v.

(** Where the program's variables and its heap are, and which requests the
    kernel grants, given the break and the number of bytes. *)
Class Brk : Type := { base : Z; lo : Z; grants : Z -> Z -> bool }.

Abbreviation UM := (M ust).

Section code.
Context {B : Brk}.

Definition has_header (brk a : Z) : bool := (a =? base) || ((lo <=? a) && (a + 16 <=? brk)).

Definition geth (a : Z) : UM header :=
  ok ← gets (fun s => has_header (u_brk s) a);
  if (ok : bool) then gets (fun s => u_heap s a) else fault.

Definition updh (a : Z) (f : header -> header) : UM unit :=
  _ ← geth a;
  modify (fun s => set_u_heap (fun z => if z =? a then f (u_heap s a) else u_heap s z) s).

(** [a->s.ptr = v] and [a->s.size = v] *)
Definition set_ptr (a v : Z) : UM unit := updh a (fun h => mkheader v (h_size h)).
Definition set_size (a v : Z) : UM unit := updh a (fun h => mkheader (h_ptr h) (wrap32 v)).

(** [sbrk] of an [int]: the old break, or [SBRK_ERROR]. *)
Definition sbrk (n : Z) : UM Z :=
  brk ← gets u_brk;
  if grants brk n then modify (set_u_brk (if brk + n <? 0 then brk else brk + n));; mret brk else mret (-1).

(** The list has at most one block for every unit of the heap, and [base]. *)
Definition walk_fuel (s : ust) : nat := Z.to_nat ((u_brk s - lo) / 16) + 2.

(** The search of [free] for the block before [bp]. *)
Fixpoint free_loop (fuel : nat) (bp p : Z) : UM Z :=
  x ← geth p;
  if (p <? bp) && (bp <? h_ptr x) then mret p else
  if (h_ptr x <=? p) && ((p <? bp) || (bp <? h_ptr x)) then mret p else
  match fuel with
  | O => hang
  | S fuel => free_loop fuel bp (h_ptr x)
  end.

(** [bp] is linked to the block after it, or joined with it. *)
Definition join_next (bp p : Z) : UM unit :=
  b ← geth bp;
  x ← geth p;
  if bp + 16 * h_size b =? h_ptr x then
    n ← geth (h_ptr x);
    set_size bp (h_size b + h_size n);;
    x ← geth p;
    n ← geth (h_ptr x);
    set_ptr bp (h_ptr n)
  else set_ptr bp (h_ptr x).

(** The block before is linked to [bp], or joined with it. *)
Definition join_prev (bp p : Z) : UM unit :=
  x ← geth p;
  if p + 16 * h_size x =? bp then
    b ← geth bp;
    set_size p (h_size x + h_size b);;
    b ← geth bp;
    set_ptr p (h_ptr b)
  else set_ptr p bp.

Definition free (ap : Z) : UM unit :=
  let bp := ap - 16 in
  fuel ← gets walk_fuel;
  freep ← gets u_freep;
  p ← free_loop fuel bp freep;
  join_next bp p;;
  join_prev bp p;;
  modify (set_u_freep p).

Definition morecore (nu : Z) : UM Z :=
  let nu := if nu <? 4096 then 4096 else nu in
  p ← sbrk (to_int (nu * 16));
  if p =? -1 then mret 0 else
  set_size p nu;;
  free (p + 16);;
  gets u_freep.

(** The search of [malloc]; a turn for each block, twice around at most. *)
Fixpoint malloc_loop (fuel : nat) (nunits prevp p : Z) : UM Z :=
  x ← geth p;
  if nunits <=? h_size x then
    r ← (if h_size x =? nunits then set_ptr prevp (h_ptr x);; mret p
         else set_size p (h_size x - nunits);;
              x ← geth p;
              let p := p + 16 * h_size x in
              set_size p nunits;;
              mret p);
    modify (set_u_freep prevp);;
    mret (r + 16)
  else
    freep ← gets u_freep;
    p ← (if p =? freep then morecore nunits else mret p);
    if p =? 0 then mret 0 else
    match fuel with
    | O => hang
    | S fuel => x ← geth p; malloc_loop fuel nunits p (h_ptr x)
    end.

Definition units (nbytes : Z) : Z := (nbytes + 16 - 1) / 16 + 1.

Definition malloc (nbytes : Z) : UM Z :=
  let nunits := units nbytes in
  freep ← gets u_freep;
  prevp ← (if freep =? 0 then
             set_ptr base base;; modify (set_u_freep base);; set_size base 0;; mret base
           else mret freep);
  x ← geth prevp;
  fuel ← gets walk_fuel;
  malloc_loop (2 * fuel + Z.to_nat nunits + 4096) nunits prevp (h_ptr x).

End code.

(** ** The free list *)

(** What is known of the program's layout and of the kernel: the variables lie
    below the heap, and the heap stays below 4 GB. *)
Class BrkSpec {B : Brk} : Prop := {
  base_pos : 0 < base;
  base_lo : base + 16 <= lo;
  grants_below brk n : grants brk n = true -> 0 <= n -> brk + n <= 2 ^ 32
}.

(** A block is its address and its number of units. *)
Abbreviation block := (Z * Z)%type.

Definition before (b c : block) : Prop := b.1 + 16 * b.2 < c.1.
Definition first (l : list block) (nxt : Z) : Z := match l with [] => nxt | b :: _ => b.1 end.

(** The headers link the blocks [l], the last to [nxt]. *)
Fixpoint seg (l : list block) (nxt : Z) (h : Z -> header) : Prop :=
  match l with
  | [] => True
  | b :: l => h b.1 = mkheader (first l nxt) b.2 /\ seg l nxt h
  end.

Definition covered (l : list block) (z : Z) : Prop := Exists (fun b => b.1 <= z < b.1 + 16 * b.2) l.

Section spec.
Context {B : Brk} {BS : BrkSpec}.

Definition in_heap (brk : Z) (b : block) : Prop := 1 <= b.2 /\ lo <= b.1 /\ b.1 + 16 * b.2 <= brk.

(** The free list holds the blocks [fl], in address order, no two adjacent. *)
Record rep (fl : list block) (s : ust) : Prop := {
  rp_sorted : StronglySorted before ((base, 0) :: fl);
  rp_heap : Forall (in_heap (u_brk s)) fl;
  rp_brk : lo <= u_brk s <= 2 ^ 32;
  rp_seg : seg ((base, 0) :: fl) base (u_heap s);
  rp_freep : u_freep s ∈ ((base, 0) :: fl).*1
}.

Definition hset (a : Z) (v : header) (h : Z -> header) : Z -> header := fun z => if z =? a then v else h z.

Implicit Types (l : list block) (h : Z -> header) (s : ust).

Lemma hset_eq a v h : hset a v h a = v.
Proof. unfold hset. by rewrite Z.eqb_refl. Qed.

Lemma hset_ne a v h z : z <> a -> hset a v h z = h z.
Proof. intros H. unfold hset. by destruct (Z.eqb_spec z a). Qed.

Lemma first_app l1 l2 nxt : first (l1 ++ l2) nxt = first l1 (first l2 nxt).
Proof. by destruct l1. Qed.

Lemma seg_app l1 l2 nxt h : seg (l1 ++ l2) nxt h <-> seg l1 (first l2 nxt) h /\ seg l2 nxt h.
Proof.
  induction l1 as [|b l1 IH]; cbn [app seg]; [tauto|]. rewrite IH, first_app. tauto.
Qed.

Lemma seg_ext l nxt h h' : (forall b, b ∈ l -> h' b.1 = h b.1) -> seg l nxt h -> seg l nxt h'.
Proof.
  induction l as [|b l IH]; cbn [seg]; [done|]. intros E [H1 H2]. split; [rewrite E by set_solver; done|].
  apply IH; [|done]. intros c Hc. apply E. set_solver.
Qed.

Lemma covered_app l1 l2 z : covered (l1 ++ l2) z <-> covered l1 z \/ covered l2 z.
Proof. unfold covered. by rewrite Exists_app. Qed.

Lemma covered_cons b l z : covered (b :: l) z <-> b.1 <= z < b.1 + 16 * b.2 \/ covered l z.
Proof. unfold covered. by rewrite Exists_cons. Qed.

(** ** Primitive steps *)

Lemma wp_geth a Q s : has_header (u_brk s) a = true -> Q (u_heap s a) s -> wp (geth a) Q s.
Proof. intros H HQ. unfold geth. apply wp_bind, wp_gets. rewrite H. by apply wp_gets. Qed.

Lemma wp_updh a f Q s :
  has_header (u_brk s) a = true -> Q tt (set_u_heap (hset a (f (u_heap s a)) (u_heap s)) s) -> wp (updh a f) Q s.
Proof. intros H HQ. unfold updh. apply wp_bind, wp_geth; [done|]. by apply wp_modify. Qed.

Lemma header_base brk : has_header brk base = true.
Proof. unfold has_header. by rewrite Z.eqb_refl. Qed.

Lemma header_in brk b : in_heap brk b -> has_header brk b.1 = true.
Proof. intros (H1 & H2 & H3). unfold has_header. apply orb_true_iff. right. apply andb_true_iff. split; apply Z.leb_le; lia. Qed.

Lemma rep_header fl s a : rep fl s -> a ∈ ((base, 0) :: fl).*1 -> has_header (u_brk s) a = true.
Proof.
  intros R (b & -> & [->|Hb]%elem_of_cons)%list_elem_of_fmap; [apply header_base|]. apply header_in.
  assert (H := rp_heap _ _ R). rewrite Forall_forall in H. by apply H.
Qed.

(** ** The search of [free] *)

(** From a block before the place, to the last one before it. *)
Lemma walk_before bp P t st N fuel Q s :
  seg (P ++ (t, st) :: N) base (u_heap s) -> Forall (fun b => has_header (u_brk s) b.1 = true) (P ++ [(t, st)]) ->
  StronglySorted before (P ++ (t, st) :: N) -> Forall (fun b => 0 <= b.2) (P ++ [(t, st)]) ->
  t < bp -> base <= t -> Forall (fun b => bp < b.1) N -> (length P <= fuel)%nat -> Q t s ->
  wp (free_loop fuel bp (first P t)) Q s.
Proof.
  intros Hs Hh Hsort H0 Ht Hb HN Hf HQ. revert fuel Hs Hh Hsort H0 Hf. induction P as [|b P IH]; intros fuel Hs Hh Hsort H0 Hf.
  - cbn [first app seg fst snd] in *. destruct Hs as [E _]. apply Forall_cons in Hh as [Hh _].
    destruct fuel; cbn [free_loop]; (apply wp_bind, wp_geth; [exact Hh|]); rewrite E; cbn [h_ptr].
    all: destruct N as [|c N]; cbn [first fst snd].
    all: destruct (Z.ltb_spec t bp); [|lia].
    1, 3: destruct (Z.ltb_spec bp base); [lia|]; cbn [andb orb]; destruct (Z.leb_spec base t); [|lia]; by apply wp_ret.
    all: apply Forall_cons in HN as [Hc _]; destruct (Z.ltb_spec bp c.1); [|lia]; by apply wp_ret.
  - cbn [first app seg] in *. destruct Hs as [E Hs]. apply Forall_cons in Hh as [Hh1 Hh]. apply Forall_cons in H0 as [Hb2 H0].
    inversion_clear Hsort as [|? ? Hsort' Hall]. destruct fuel as [|fuel]; cbn [length] in Hf; [lia|].
    cbn [free_loop]. apply wp_bind, wp_geth; [done|]. rewrite E. cbn [h_ptr]. rewrite first_app. cbn [first fst].
    assert (Hn : b.1 < first P t /\ first P t < bp).
    { rewrite Forall_app, Forall_cons in Hall. destruct Hall as (Hall & Hbt & _). unfold before in *. cbn [fst snd] in *.
      destruct P as [|c P]; cbn [first]; [lia|]. apply Forall_cons in Hall as [Hbc _]. apply Forall_cons in H0 as [Hc2 _].
      inversion_clear Hsort' as [|? ? _ Hc]. rewrite Forall_app, Forall_cons in Hc. destruct Hc as (_ & Hct & _). cbn [fst snd] in *. lia. }
    destruct (Z.ltb_spec bp (first P t)); [lia|]. rewrite andb_false_r. destruct (Z.leb_spec (first P t) b.1); [lia|]. cbn [andb].
    apply IH; [done..|lia].
Qed.

(** From a block after the place, on to [base]. *)
Lemma walk_after bp N fuel Q s :
  seg N base (u_heap s) -> Forall (fun b => has_header (u_brk s) b.1 = true) N -> StronglySorted before N ->
  Forall (fun b => 0 <= b.2 /\ bp < b.1) N -> base < bp -> N <> [] ->
  wp (free_loop fuel bp base) Q s -> wp (free_loop (length N + fuel) bp (first N 0)) Q s.
Proof.
  intros Hs Hh Hsort HN Hb Hne HQ. induction N as [|b N IH]; [done|]. cbn [first length Nat.add free_loop seg] in *.
  destruct Hs as [E Hs]. apply Forall_cons in Hh as [Hh1 Hh]. apply Forall_cons in HN as [[Hb2 Hbb] HN].
  inversion_clear Hsort as [|? ? Hsort' Hall]. apply wp_bind, wp_geth; [done|]. rewrite E. cbn [h_ptr].
  destruct (Z.ltb_spec b.1 bp); [lia|]. cbn [andb orb]. destruct N as [|c N]; cbn [first].
  - destruct (Z.ltb_spec bp base); [lia|]. by rewrite andb_false_r.
  - apply Forall_cons in Hall as [Hbc _]. unfold before in Hbc. destruct (Z.leb_spec c.1 b.1); [lia|]. cbn [andb].
    apply IH; [done..|]. done.
Qed.

(** The list splits at a block that is not on it. *)
Lemma split_list fl bp n :
  Forall (fun b => 1 <= b.2) fl -> StronglySorted before fl -> 1 <= n ->
  (forall z, bp <= z < bp + 16 * n -> ~ covered fl z) ->
  exists l1 l2, fl = l1 ++ l2 /\ Forall (fun b => b.1 + 16 * b.2 <= bp) l1 /\ Forall (fun b => bp + 16 * n <= b.1) l2.
Proof.
  intros Hp Hsort Hn Hd. induction fl as [|b fl IH]; [by exists [], []|].
  apply Forall_cons in Hp as [Hb Hp]. inversion_clear Hsort as [|? ? Hsort' Hall].
  assert (Hd1 : b.1 + 16 * b.2 <= bp \/ bp + 16 * n <= b.1).
  { destruct (decide (b.1 + 16 * b.2 <= bp)) as [|H1]; [by left|]. destruct (decide (bp + 16 * n <= b.1)) as [|H2]; [by right|].
    exfalso. apply (Hd (Z.max bp b.1)); [lia|]. apply covered_cons. left. lia. }
  destruct Hd1 as [H1|H1].
  - destruct IH as (l1 & l2 & -> & F1 & F2); [done|done| |].
    { intros z Hz Hc. apply (Hd z Hz), covered_cons. by right. }
    exists (b :: l1), l2. split_and!; [done|by constructor|done].
  - exists [], (b :: fl). split_and!; [done|constructor|]. constructor; [done|].
    eapply Forall_impl; [exact Hall|]. intros c Hc. unfold before in Hc. cbn in Hc |- *. lia.
Qed.

(** The blocks take at least a unit each. *)
Lemma length_bound fl a brk :
  Forall (fun b => 1 <= b.2 /\ a <= b.1 /\ b.1 + 16 * b.2 <= brk) fl -> StronglySorted before fl -> a <= brk ->
  16 * Z.of_nat (length fl) <= brk - a.
Proof.
  revert a. induction fl as [|b fl IH]; intros a Hp Hsort Ha; cbn [length]; [lia|].
  apply Forall_cons in Hp as [(H1 & H2 & H3) Hp]. inversion_clear Hsort as [|? ? Hsort' Hall].
  enough (16 * Z.of_nat (length fl) <= brk - (b.1 + 16 * b.2)) by lia. apply IH; [|done|lia].
  apply Forall_forall. intros c Hc. rewrite Forall_forall in Hp, Hall. destruct (Hp c Hc) as (? & ? & ?).
  specialize (Hall c Hc). unfold before in Hall. split_and!; lia.
Qed.

Lemma rep_fuel fl s : rep fl s -> (length fl + 2 <= walk_fuel s)%nat.
Proof.
  intros R. assert (H := length_bound fl lo (u_brk s) (rp_heap _ _ R)). destruct (rp_brk _ _ R).
  assert (Hs := rp_sorted _ _ R). inversion_clear Hs as [|? ? Hs' _]. specialize (H Hs' ltac:(lia)).
  unfold walk_fuel. assert (Z.of_nat (length fl) <= (u_brk s - lo) / 16) by (apply Z.div_le_lower_bound; lia). lia.
Qed.

(** [bp] of [n] units lies between the blocks up to [t] and the blocks [N]. *)
Record place (fl : list block) (bp n : Z) (A : list block) (t st : Z) (N : list block) : Prop := {
  pl_list : (base, 0) :: fl = A ++ (t, st) :: N;
  pl_low : Forall (fun b => b.1 + 16 * b.2 <= bp) (A ++ [(t, st)]);
  pl_high : Forall (fun b => bp + 16 * n <= b.1) N
}.

Lemma rep_sizes fl s : rep fl s -> Forall (fun b => 0 <= b.2 /\ has_header (u_brk s) b.1 = true) ((base, 0) :: fl).
Proof.
  intros R. constructor; [split; [done|apply header_base]|]. eapply Forall_impl; [apply (rp_heap _ _ R)|].
  intros b Hb. cbn. split; [destruct Hb; lia|by apply header_in].
Qed.

Lemma find_place fl s bp n :
  rep fl s -> in_heap (u_brk s) (bp, n) -> (forall z, bp <= z < bp + 16 * n -> ~ covered fl z) ->
  exists A t st N, place fl bp n A t st N /\ base <= t /\
    wp (free_loop (walk_fuel s) bp (u_freep s)) (fun r s' => r = t /\ s' = s) s.
Proof.
  intros R (Hn & Hlo & Hbrk) Hd. cbn in Hn, Hlo, Hbrk. assert (Hbl := base_lo). assert (Hsort := rp_sorted _ _ R).
  assert (Hsz := rep_sizes _ _ R). destruct (split_list fl bp n) as (l1 & l2 & Efl & F1 & F2); [|by inversion_clear Hsort|done|done|].
  { eapply Forall_impl; [apply (rp_heap _ _ R)|]. by intros b (? & _). }
  destruct (exists_last (l := (base, 0) :: l1)) as (A & [t st] & EA); [done|].
  assert (El : (base, 0) :: fl = A ++ (t, st) :: l2) by (rewrite Efl, app_comm_cons, EA, <- app_assoc; done).
  assert (Plow : Forall (fun b => b.1 + 16 * b.2 <= bp) (A ++ [(t, st)])) by (rewrite <- EA; constructor; [cbn; lia|done]).
  assert (Hseg := rp_seg _ _ R). assert (Hfp := rp_freep _ _ R). assert (Hf := rep_fuel _ _ R).
  rewrite El in Hsort, Hsz, Hseg, Hfp. assert (Hlen := f_equal length El). rewrite length_app in Hlen. cbn [length] in Hlen.
  assert (Hbt : base <= t).
  { destruct A as [|a A]; [by injection EA as <- _|]. injection EA as <- EA. cbn in Hsort. inversion_clear Hsort as [|? ? _ Hall].
    rewrite Forall_app, Forall_cons in Hall. destruct Hall as (_ & Hall & _). unfold before in Hall. cbn in Hall. lia. }
  assert (Htb : t < bp).
  { rewrite Forall_app, Forall_singleton in Plow. destruct Plow as [_ Hp]. cbn in Hp. destruct A as [|a A].
    - injection EA as <- <- _. lia.
    - injection EA as <- EA. assert (Hin : (t, st) ∈ fl) by (rewrite Efl, EA; set_solver).
      assert (Hh := rp_heap _ _ R). rewrite Forall_forall in Hh. destruct (Hh _ Hin) as (? & _). cbn in *. lia. }
  assert (HN : Forall (fun b => 0 <= b.2 /\ bp < b.1) l2).
  { apply Forall_forall. intros b Hb. rewrite Forall_forall in F2, Hsz. specialize (F2 b Hb). destruct (Hsz b ltac:(set_solver)). lia. }
  assert (HNb : Forall (fun b => bp < b.1) l2) by (eapply Forall_impl; [exact HN|by intros b [_ ?]]).
  assert (Hwalk : forall A1 A2 fuel, A = A1 ++ A2 -> (length A2 <= fuel)%nat ->
    wp (free_loop fuel bp (first A2 t)) (fun r s' => r = t /\ s' = s) s).
  { intros A1 A2 fuel -> Hfu. rewrite <- app_assoc in Hseg, Hsort, Hsz. apply seg_app in Hseg as [_ Hseg].
    apply StronglySorted_app in Hsort as (_ & _ & Hsort). apply Forall_app in Hsz as [_ Hsz].
    assert (Hsz' : Forall (fun b => 0 <= b.2 /\ has_header (u_brk s) b.1 = true) (A2 ++ [(t, st)])).
    { apply Forall_app in Hsz as [? Hsz]. apply Forall_cons in Hsz as [? _]. apply Forall_app. by split; [|constructor]. }
    eapply (walk_before bp A2 t st l2); [done| |done| |done|done|done|done|done];
      (eapply Forall_impl; [exact Hsz'|by intros b [? ?]]). }
  exists A, t, st, l2. split_and!; [by split|done|].
  rewrite fmap_app, elem_of_app, fmap_cons, elem_of_cons in Hfp. destruct Hfp as [Hfp|[Hfp|Hfp]].
  - apply list_elem_of_fmap in Hfp as (b & -> & Hb). apply list_elem_of_split in Hb as (A1 & A2 & EA').
    apply (Hwalk A1 (b :: A2)); [done|]. rewrite EA', length_app in Hlen. lia.
  - rewrite Hfp. apply (Hwalk A []); [by rewrite app_nil_r|cbn; lia].
  - apply list_elem_of_fmap in Hfp as (b & -> & Hb). apply list_elem_of_split in Hb as (N1 & N2 & EN).
    rewrite EN, length_app in Hlen. cbn [length] in Hlen.
    replace (walk_fuel s) with (length (b :: N2) + (walk_fuel s - length (b :: N2)))%nat by (cbn [length]; lia).
    assert (El2 : A ++ (t, st) :: l2 = (A ++ (t, st) :: N1) ++ b :: N2) by (rewrite EN, <- app_assoc; done).
    rewrite El2 in Hseg, Hsort, Hsz. apply seg_app in Hseg as [_ Hseg]. apply StronglySorted_app in Hsort as (_ & _ & Hsort).
    apply Forall_app in Hsz as [_ Hsz]. apply (walk_after bp (b :: N2)); [done| |done| |lia|done|].
    + eapply Forall_impl; [exact Hsz|by intros c [_ ?]].
    + rewrite EN in HN. by apply Forall_app in HN as [_ HN].
    + assert (Eb : first A t = base) by (destruct A as [|a A]; [by injection EA as <- _|by injection EA as <- _]).
      rewrite <- Eb. apply (Hwalk [] A); [done|cbn [length]; lia].
Qed.

(** ** Joining the block with its neighbours *)

(** [N'] and [k]: the blocks after and the size of the block once it has been
    joined with the next one if they touch. *)
Definition joined (bp n : Z) (N : list block) (k : Z) (N' : list block) : Prop :=
  (N' = N /\ k = n /\ bp + 16 * n <> first N base) \/ exists sc, N = (bp + 16 * n, sc) :: N' /\ k = n + sc.

Lemma joined_spec fl s bp n A t st N k N' :
  rep fl s -> in_heap (u_brk s) (bp, n) -> place fl bp n A t st N -> joined bp n N k N' ->
  in_heap (u_brk s) (bp, k) /\ n <= k /\ StronglySorted before ((bp, k) :: N') /\ Forall (in_heap (u_brk s)) N' /\
  (forall z, covered ((bp, k) :: N') z <-> bp <= z < bp + 16 * n \/ covered N z) /\ seg N' base (u_heap s).
Proof.
  intros R Hb [El Plow Phigh] HJ. destruct Hb as (Hn & Hlo & Hbrk). cbn [fst snd] in *.
  assert (Hsort := rp_sorted _ _ R). assert (Hseg := rp_seg _ _ R). rewrite El in Hsort, Hseg.
  apply StronglySorted_app in Hsort as (_ & _ & Hsort). inversion_clear Hsort as [|? ? Hsort' _].
  apply seg_app in Hseg as [_ [_ Hseg]].
  assert (HN : Forall (in_heap (u_brk s)) N).
  { assert (Hh := rp_heap _ _ R). destruct A as [|a A]; cbn [app] in El; [by assert (fl = N) as <- by congruence|].
    assert (fl = A ++ (t, st) :: N) as -> by congruence. apply Forall_app in Hh as [_ Hh]. by apply Forall_cons in Hh as [_ Hh]. }
  destruct HJ as [(-> & -> & Hne)|(sc & -> & ->)].
  - split_and!; [by split|lia| |done|by intros z; rewrite covered_cons|done]. apply StronglySorted_cons. split; [|done].
    apply Forall_forall. intros c Hc. unfold before. cbn [fst snd]. destruct N as [|c0 N]; [by apply not_elem_of_nil in Hc|].
    cbn [first] in Hne. apply Forall_cons in Phigh as [Hc0 Phigh]. apply elem_of_cons in Hc as [->|Hc]; [lia|].
    inversion_clear Hsort' as [|? ? _ Hall]. rewrite Forall_forall in Hall. specialize (Hall c Hc). unfold before in Hall.
    apply Forall_cons in HN as [(? & _) _]. lia.
  - apply Forall_cons in HN as [(H1 & H2 & H3) HN]. cbn [fst snd] in *. inversion_clear Hsort' as [|? ? Hs Hall]. destruct Hseg as [_ Hseg].
    split_and!; [split_and!; cbn [fst snd]; lia|lia| |done| |done].
    + apply StronglySorted_cons. split; [|done]. eapply Forall_impl; [exact Hall|]. intros c Hc. unfold before in *. cbn [fst snd] in *. lia.
    + intros z. rewrite !covered_cons. cbn [fst snd]. split; [intros [?|?]; [|tauto]|intros [?|[?|?]]; [left; lia|left; lia|tauto]].
      destruct (decide (z < bp + 16 * n)); [left; lia|right; left; lia].
Qed.

(** The free list with the block joined with the one before or put after it. *)
Definition linked (A : list block) (t st bp k : Z) (N' : list block) : list block :=
  if t + 16 * st =? bp then A ++ (t, st + k) :: N' else A ++ (t, st) :: (bp, k) :: N'.

Lemma linked_rep fl s bp n A t st N k N' s' :
  rep fl s -> in_heap (u_brk s) (bp, n) -> place fl bp n A t st N -> base <= t -> joined bp n N k N' ->
  u_brk s' = u_brk s -> u_freep s' = t -> seg (linked A t st bp k N') base (u_heap s') ->
  exists fl', (base, 0) :: fl' = linked A t st bp k N' /\ rep fl' s' /\
    (forall z, covered fl' z <-> covered fl z \/ bp <= z < bp + 16 * n) /\
    exists b, b ∈ fl' /\ b.1 <= bp /\ bp + 16 * n <= b.1 + 16 * b.2.
Proof.
  intros R Hb HP Ht HJ Ebrk Efp Hseg. destruct (joined_spec _ _ _ _ _ _ _ _ _ _ R Hb HP HJ) as (Hk & Hnk & Hsk & HN' & Hcov & _).
  destruct HP as [El Plow Phigh]. assert (Hbl := base_lo). destruct Hb as (Hn & Hlo & Hbrk). cbn [fst snd] in *.
  assert (Hsort := rp_sorted _ _ R). rewrite El in Hsort. assert (Hh := rp_heap _ _ R).
  assert (HcovA : forall z, covered fl z <-> covered A z \/ t <= z < t + 16 * st \/ covered N z).
  { intros z. assert (E : covered ((base, 0) :: fl) z <-> covered fl z) by (rewrite covered_cons; cbn [fst snd]; split; [intros [?|?]; [lia|done]|tauto]).
    rewrite <- E, El, covered_app, covered_cons. done. }
  assert (Hlow : forall b, b ∈ A ++ [(t, st)] -> b.1 + 16 * b.2 <= bp) by (by rewrite Forall_forall in Plow).
  apply StronglySorted_app in Hsort as (HAt & HsA & Hst). unfold linked in *. destruct (Z.eqb_spec (t + 16 * st) bp) as [E|E].
  - destruct A as [|a A]; [injection El as <- <- _; lia|]. injection El as <- El. rewrite El in Hh.
    apply Forall_app in Hh as [HhA Hh]. apply Forall_cons in Hh as [(Ht1 & Ht2 & Ht3) _]. cbn [fst snd] in *.
    exists (A ++ (t, st + k) :: N'). split_and!; [done| | |].
    + split; rewrite ?Ebrk, ?Efp; [| |apply R|done|set_solver].
      * rewrite app_comm_cons. apply StronglySorted_app. split_and!; [|done|].
        -- intros b c Hb [->|Hc]%elem_of_cons; unfold before; cbn [fst snd].
           ++ apply (HAt b (t, st)); [done|set_solver].
           ++ assert (Hbt : before b (t, st)) by (apply HAt; [done|set_solver]). unfold before in Hbt. cbn in Hbt.
              inversion_clear Hsk as [|? ? _ Hall]. rewrite Forall_forall in Hall. specialize (Hall c Hc). unfold before in Hall. cbn in Hall. destruct Hk as (? & _). cbn in *. lia.
        -- inversion_clear Hsk as [|? ? Hs Hall]. apply StronglySorted_cons. split; [|done].
           eapply Forall_impl; [exact Hall|]. intros c Hc. unfold before in *. cbn [fst snd] in *. lia.
      * apply Forall_app. split; [done|]. constructor; [|done]. destruct Hk as (? & ? & ?). cbn [fst snd] in *. split_and!; cbn [fst snd]; lia.
    + intros z. rewrite HcovA, covered_app, !covered_cons. cbn [fst snd]. specialize (Hcov z). rewrite covered_cons in Hcov. cbn [fst snd] in Hcov.
      assert (t <= z < t + 16 * (st + k) <-> t <= z < t + 16 * st \/ bp <= z < bp + 16 * k) by lia.
      assert (~ (base <= z < base + 16 * 0)) by lia. tauto.
    + exists (t, st + k). split_and!; cbn [fst snd]; [set_solver|lia|lia].
  - assert (Efl : exists fl', (base, 0) :: fl' = A ++ (t, st) :: (bp, k) :: N' /\ Forall (in_heap (u_brk s)) fl').
    { destruct A as [|a A].
      - exists ((bp, k) :: N'). split; [cbn in *; congruence|]. by constructor.
      - injection El as <- El. exists (A ++ (t, st) :: (bp, k) :: N'). split; [done|]. rewrite El in Hh. apply Forall_app in Hh as [HhA Hh].
        apply Forall_cons in Hh as [Ht' _]. apply Forall_app. split; [done|]. constructor; [done|]. by constructor. }
    destruct Efl as (fl' & Efl & Hh'). exists fl'. split_and!; [done| | |].
    + split; rewrite ?Ebrk, ?Efp, ?Efl; [|done|apply R|done|rewrite fmap_app; set_solver].
      apply StronglySorted_app. split_and!; [|done|].
      * intros b c Hb Hc. assert (Hbt : before b (t, st)) by (apply HAt; [done|set_solver]). unfold before in *. cbn [fst snd] in *.
        assert (Hts := Hlow (t, st) ltac:(set_solver)). cbn [fst snd] in Hts.
        assert (Hst0 : 0 <= st).
        { assert (Hz := rep_sizes _ _ R). rewrite El in Hz. rewrite Forall_forall in Hz. destruct (Hz (t, st) ltac:(set_solver)). done. }
        apply elem_of_cons in Hc as [->|[->|Hc]%elem_of_cons]; cbn [fst snd]; [done|lia|].
        inversion_clear Hsk as [|? ? _ Hall]. rewrite Forall_forall in Hall. specialize (Hall c Hc). cbn in Hall. destruct Hk as (? & _). cbn in *. lia.
      * apply StronglySorted_cons. split; [|done]. assert (Hts := Hlow (t, st) ltac:(set_solver)). unfold before. cbn [fst snd] in *.
        constructor; [cbn [fst snd]; lia|]. inversion_clear Hsk as [|? ? _ Hall]. eapply Forall_impl; [exact Hall|].
        intros c Hc. unfold before in Hc. cbn [fst snd] in *. destruct Hk as (? & _). cbn in *. lia.
    + intros z. assert (E' : covered ((base, 0) :: fl') z <-> covered fl' z) by (rewrite covered_cons; cbn [fst snd]; split; [intros [?|?]; [lia|done]|tauto]).
      rewrite <- E', Efl, HcovA, covered_app, covered_cons, Hcov. cbn [fst snd]. tauto.
    + exists (bp, k). split_and!; cbn [fst snd]; [|lia|lia].
      assert (Hin : (bp, k) ∈ (base, 0) :: fl') by (rewrite Efl; set_solver). apply elem_of_cons in Hin as [Eq|]; [|done].
      injection Eq as -> _. lia.
Qed.

(** ** [free] *)

Lemma sizes_small fl s b : rep fl s -> in_heap (u_brk s) b -> 0 <= b.2 < 2 ^ 28.
Proof. intros R (H1 & H2 & H3). destruct (rp_brk _ _ R). pose proof base_lo. pose proof base_pos. lia. Qed.

Lemma wrap_size fl s b : rep fl s -> in_heap (u_brk s) b -> wrap32 b.2 = b.2.
Proof. intros R Hb. apply wrap32_small. destruct (sizes_small _ _ _ R Hb). lia. Qed.

(** Everything but the header at [a] is as before. *)
Definition only (a : Z) (s s' : ust) : Prop :=
  u_brk s' = u_brk s /\ u_freep s' = u_freep s /\ forall z, z <> a -> u_heap s' z = u_heap s z.

Section place.
Context (fl : list block) (s : ust) (bp n : Z) (A : list block) (t st : Z) (N : list block).
Context (R : rep fl s) (Hb : in_heap (u_brk s) (bp, n)) (HP : place fl bp n A t st N) (Ht : base <= t).
Context (Hn : h_size (u_heap s bp) = n).

Lemma place_head : u_heap s t = mkheader (first N base) st /\ has_header (u_brk s) t = true.
Proof using R HP Hb Hn Ht BS.
  assert (Hseg := rp_seg _ _ R). assert (Hsz := rep_sizes _ _ R). rewrite (pl_list _ _ _ _ _ _ _ HP) in Hseg, Hsz.
  apply seg_app in Hseg as [_ [Et _]]. rewrite Forall_forall in Hsz. destruct (Hsz (t, st) ltac:(set_solver)). done.
Qed.

Lemma place_below b : b ∈ A ++ [(t, st)] -> b.1 < bp.
Proof using R HP Hb Hn Ht BS.
  intros Hin. assert (Hl := pl_low _ _ _ _ _ _ _ HP). rewrite Forall_forall in Hl. specialize (Hl b Hin). cbn in Hl.
  assert (Hin' : b ∈ (base, 0) :: fl) by (rewrite (pl_list _ _ _ _ _ _ _ HP); set_solver).
  pose proof base_lo. destruct Hb as (_ & Hlo & _). cbn [fst snd] in *. apply elem_of_cons in Hin' as [->|Hin']; [cbn; lia|].
  assert (Hh := rp_heap _ _ R). rewrite Forall_forall in Hh. destruct (Hh b Hin') as (? & _). lia.
Qed.

Lemma wp_join_next Q :
  (forall k N' s', joined bp n N k N' -> u_heap s' bp = mkheader (first N' base) k -> only bp s s' -> Q tt s') ->
  wp (join_next bp t) Q s.
Proof using R HP Hb Hn Ht BS.
  intros HQ. destruct place_head as [Et Hht]. assert (Hhb := header_in _ _ Hb). cbn [fst] in Hhb.
  assert (Htb := place_below (t, st) ltac:(set_solver)). cbn [fst] in Htb.
  unfold join_next. apply wp_bind, wp_geth; [done|]. apply wp_bind, wp_geth; [done|]. rewrite Hn, Et. cbn [h_ptr h_size].
  destruct (Z.eqb_spec (bp + 16 * n) (first N base)) as [E|E].
  - assert (HJ : exists sc N', N = (bp + 16 * n, sc) :: N').
    { destruct N as [|[c sc] N']; cbn in E; [|subst c; eauto]. destruct Hb as (? & ? & _). pose proof base_lo. cbn in *. lia. }
    destruct HJ as (sc & N' & EN). assert (J : joined bp n N (n + sc) N') by (right; eauto).
    destruct (joined_spec _ _ _ _ _ _ _ _ _ _ R Hb HP J) as (Hk & _).
    assert (Hin : (bp + 16 * n, sc) ∈ fl).
    { assert (Hin : (bp + 16 * n, sc) ∈ (base, 0) :: fl) by (rewrite (pl_list _ _ _ _ _ _ _ HP), EN; set_solver).
      apply elem_of_cons in Hin as [Eq|]; [|done]. injection Eq as Eq _. destruct Hb as (? & ? & _). pose proof base_lo. cbn in *. lia. }
    assert (Hc : in_heap (u_brk s) (bp + 16 * n, sc)) by (assert (Hh := rp_heap _ _ R); rewrite Forall_forall in Hh; by apply Hh).
    assert (Hhc := header_in _ _ Hc). cbn [fst] in Hhc.
    assert (Ec : u_heap s (bp + 16 * n) = mkheader (first N' base) sc).
    { assert (Hseg := rp_seg _ _ R). rewrite (pl_list _ _ _ _ _ _ _ HP), EN in Hseg. apply seg_app in Hseg as [_ [_ [Ec _]]]. done. }
    assert (Hcb : bp + 16 * n <> bp) by (destruct Hb as (? & _); cbn in *; lia).
    rewrite <- E. apply wp_bind, wp_geth; [done|]. rewrite Ec. cbn [h_size].
    apply wp_bind, wp_updh; [done|]. apply wp_bind, wp_geth; [done|]. cbn [u_heap set_u_heap]. rewrite hset_ne, Et by lia. cbn [h_ptr].
    rewrite <- E. apply wp_bind, wp_geth; [done|]. cbn [u_heap set_u_heap]. rewrite hset_ne, Ec by done. cbn [h_ptr].
    apply wp_updh; [done|]. apply (HQ (n + sc) N' _ J).
    + cbn. rewrite !hset_eq. cbn. by rewrite (wrap_size _ _ _ R Hk : wrap32 (n + sc) = n + sc).
    + split_and!; [done|done|]. intros z Hz. cbn. by rewrite !hset_ne.
  - apply wp_updh; [done|]. apply (HQ n N); [left; done| |].
    + cbn. by rewrite hset_eq, Hn.
    + split_and!; [done|done|]. intros z Hz. cbn. by rewrite hset_ne.
Qed.

Lemma wp_join_prev k N' s1 Q :
  joined bp n N k N' -> u_heap s1 bp = mkheader (first N' base) k -> only bp s s1 ->
  (forall s', u_brk s' = u_brk s -> seg (linked A t st bp k N') base (u_heap s') ->
    (forall z, z <> bp -> z <> t -> u_heap s' z = u_heap s z) -> Q tt s') ->
  wp (join_prev bp t) Q s1.
Proof using R HP Hb Hn Ht BS.
  intros J Eb (Ebrk & Efp & Eo) HQ. destruct (joined_spec _ _ _ _ _ _ _ _ _ _ R Hb HP J) as (Hk & _ & Hsk & _ & _ & HsN).
  destruct place_head as [Et Hht]. assert (Hhb := header_in _ _ Hb). cbn [fst] in Hhb.
  assert (Htb := place_below (t, st) ltac:(set_solver)). cbn [fst] in Htb. rewrite <- Ebrk in Hht, Hhb.
  assert (Et1 : u_heap s1 t = mkheader (first N base) st) by (rewrite Eo by lia; done).
  assert (Hseg := rp_seg _ _ R). assert (Hsort := rp_sorted _ _ R). rewrite (pl_list _ _ _ _ _ _ _ HP) in Hseg, Hsort.
  apply seg_app in Hseg as [HsA _]. cbn [first fst] in HsA. apply StronglySorted_app in Hsort as (HAt & _ & _).
  assert (HneA : forall b, b ∈ A -> b.1 <> bp /\ b.1 <> t).
  { intros b HbA. split; [pose proof (place_below b ltac:(set_solver)); lia|].
    assert (Hz := rep_sizes _ _ R). rewrite (pl_list _ _ _ _ _ _ _ HP), Forall_forall in Hz. destruct (Hz b ltac:(set_solver)).
    pose proof (HAt b (t, st) HbA ltac:(set_solver)) as Hbt. unfold before in Hbt. cbn in Hbt. lia. }
  assert (HneN : forall b, b ∈ N' -> b.1 <> bp /\ b.1 <> t).
  { intros b HbN. inversion_clear Hsk as [|? ? _ Hall]. rewrite Forall_forall in Hall. specialize (Hall b HbN).
    unfold before in Hall. destruct Hk as (? & _). cbn in *. lia. }
  unfold join_prev. apply wp_bind, wp_geth; [done|]. rewrite Et1. cbn [h_size]. unfold linked in HQ.
  destruct (Z.eqb_spec (t + 16 * st) bp) as [E|E].
  - apply wp_bind, wp_geth; [done|]. rewrite Eb. cbn [h_size]. apply wp_bind, wp_updh; [done|].
    apply wp_bind, wp_geth; [done|]. cbn [u_heap set_u_heap]. rewrite hset_ne, Eb by lia. cbn [h_ptr].
    apply wp_updh; [done|]. apply HQ; [done| |].
    + assert (Hmg : in_heap (u_brk s) (t, st + k)).
      { assert (Hin : (t, st) ∈ (base, 0) :: fl) by (rewrite (pl_list _ _ _ _ _ _ _ HP); set_solver). pose proof base_lo.
        destruct Hb as (? & ? & ?), Hk as (? & ? & ?). cbn [fst snd] in *. apply elem_of_cons in Hin as [Eq|Hin]; [injection Eq as -> ->; lia|].
        assert (Hh := rp_heap _ _ R). rewrite Forall_forall in Hh. destruct (Hh _ Hin) as (? & ? & ?). cbn [fst snd] in *. split_and!; cbn [fst snd]; lia. }
      assert (Ew : wrap32 (st + k) = st + k) by apply (wrap_size _ _ _ R Hmg).
      apply seg_app. cbn [seg first fst snd u_heap set_u_heap]. split_and!; [|by rewrite !hset_eq, Ew|].
      * eapply seg_ext; [|exact HsA]. intros b HbA. destruct (HneA b HbA). cbn. by rewrite !hset_ne, Eo by done.
      * eapply seg_ext; [|exact HsN]. intros b HbN. destruct (HneN b HbN). cbn. by rewrite !hset_ne, Eo by done.
    + intros z Hz1 Hz2. cbn. by rewrite !hset_ne, Eo by done.
  - apply wp_updh; [done|]. apply HQ; [done| |].
    + apply seg_app. cbn [seg first fst snd u_heap set_u_heap]. split_and!.
      * eapply seg_ext; [|exact HsA]. intros b HbA. destruct (HneA b HbA). cbn. by rewrite !hset_ne, Eo by done.
      * by rewrite hset_eq, Et1.
      * by rewrite hset_ne by lia.
      * eapply seg_ext; [|exact HsN]. intros b HbN. destruct (HneN b HbN). cbn. by rewrite !hset_ne, Eo by done.
    + intros z Hz1 Hz2. cbn. by rewrite !hset_ne, Eo by done.
Qed.

End place.

Lemma wp_free fl s bp n Q :
  rep fl s -> in_heap (u_brk s) (bp, n) -> h_size (u_heap s bp) = n -> (forall z, bp <= z < bp + 16 * n -> ~ covered fl z) ->
  (forall fl' s', rep fl' s' -> u_brk s' = u_brk s ->
     (forall z, covered fl' z <-> covered fl z \/ bp <= z < bp + 16 * n) ->
     (exists b, b ∈ fl' /\ b.1 <= bp /\ bp + 16 * n <= b.1 + 16 * b.2) ->
     (forall a, a <> bp -> a ∉ ((base, 0) :: fl).*1 -> u_heap s' a = u_heap s a) -> Q tt s') ->
  wp (free (bp + 16)) Q s.
Proof using BS.
  intros R Hb Hn Hd HQ. destruct (find_place fl s bp n R Hb Hd) as (A & t & st & N & HP & Ht & Hw).
  unfold free. replace (bp + 16 - 16) with bp by lia. apply wp_bind, wp_gets. apply wp_bind, wp_gets. apply wp_bind.
  eapply wp_mono; [exact Hw|]. intros ? ? [-> ->]. apply wp_bind. eapply wp_join_next; [done..|].
  intros k N' s1 J Eb Ho. apply wp_bind. eapply wp_join_prev; [done..|]. intros s2 Ebrk Hseg Ho2. apply wp_modify.
  destruct (linked_rep fl s bp n A t st N k N' (set_u_freep t s2)) as (fl' & _ & R' & Hc & Hbig); [done..|].
  eapply HQ; [exact R'|done|exact Hc|exact Hbig|]. intros a Ha1 Ha2. apply Ho2; [done|]. intros ->. apply Ha2.
  rewrite (pl_list _ _ _ _ _ _ _ HP), fmap_app. set_solver.
Qed.

End spec.
