(* ===== verification/Malloc.v ===== *)
(** * [malloc] of the user library ([user/umalloc.c])

    [malloc] takes a block of the free list or the end of one, after asking
    for more memory when no block is large enough; [free] gives it back. *)

From stdpp Require Import base sets sorting numbers list.
From S2P Require Import Prelude Umalloc.

Section spec.
Context {B : Brk} {BS : BrkSpec}.
Implicit Types (l : list block) (h : Z -> header) (s : ust).

(** ** Taking a block *)

Lemma covered_in fl b : b ∈ fl -> 1 <= b.2 -> covered fl b.1.
Proof. intros Hin H. apply Exists_exists. exists b. split; [done|]. lia. Qed.

Lemma rep_covered fl s z : rep fl s -> covered fl z -> lo <= z < u_brk s.
Proof.
  intros R (b & Hin & Hz)%Exists_exists. assert (Hh := rp_heap _ _ R). rewrite Forall_forall in Hh. destruct (Hh b Hin) as (? & ? & ?). lia.
Qed.

(** A block of [nunits] at [a] has been taken from the free blocks. *)
Record taken (fl : list block) (s : ust) (nunits a : Z) (fl' : list block) (s' : ust) : Prop := {
  tk_rep : rep fl' s';
  tk_brk : u_brk s' = u_brk s;
  tk_size : h_size (u_heap s' a) = nunits;
  tk_heap : in_heap (u_brk s') (a, nunits);
  tk_covered z : covered fl' z \/ a <= z < a + 16 * nunits <-> covered fl z;
  tk_apart z : a <= z < a + 16 * nunits -> ~ covered fl' z;
  tk_other z : z <> base -> ~ covered fl z -> u_heap s' z = u_heap s z
}.

Section take.
Context (fl : list block) (s : ust) (nunits : Z) (R : rep fl s) (Hu : 1 <= nunits).
Context (X : list block) (pv kv a k : Z) (Y : list block).
Context (El : (base, 0) :: fl = X ++ (pv, kv) :: (a, k) :: Y) (Hk : nunits <= k).

Lemma take_facts :
  in_heap (u_brk s) (a, k) /\ has_header (u_brk s) pv = true /\ u_heap s a = mkheader (first Y base) k /\
  (forall b, b ∈ X ++ (pv, kv) :: Y -> b.1 <> a) /\ (forall b, b ∈ X ++ (a, k) :: Y -> b.1 <> pv) /\
  (forall b, b ∈ X ++ [(pv, kv)] -> b.1 + 16 * b.2 < a) /\ Forall (before (a, k)) Y.
Proof using R El Hu Hk BS.
  assert (Hseg := rp_seg _ _ R). assert (Hsort := rp_sorted _ _ R). assert (Hsz := rep_sizes _ _ R).
  rewrite El in Hseg, Hsort, Hsz. rewrite Forall_forall in Hsz. apply seg_app in Hseg as (_ & _ & Ea & _).
  assert (E2 : X ++ (pv, kv) :: (a, k) :: Y = (X ++ [(pv, kv)]) ++ (a, k) :: Y) by (by rewrite <- app_assoc).
  assert (Hina : (a, k) ∈ fl).
  { assert (Hin : (a, k) ∈ (base, 0) :: fl) by (rewrite El; set_solver). apply elem_of_cons in Hin as [Eq|]; [|done]. injection Eq as _ ->. lia. }
  assert (Hh := rp_heap _ _ R). rewrite Forall_forall in Hh. assert (Ha := Hh _ Hina).
  assert (Hsort2 := Hsort). rewrite E2 in Hsort2. apply StronglySorted_app in Hsort2 as (Hlow & _ & HaY).
  inversion_clear HaY as [|? ? _ HaY']. apply StronglySorted_app in Hsort as (HXp & _ & Hp). inversion_clear Hp as [|? ? _ HpY].
  assert (Hlow' : forall b, b ∈ X ++ [(pv, kv)] -> b.1 + 16 * b.2 < a) by (intros b Hb; apply (Hlow b (a, k)); [done|set_solver]).
  rewrite Forall_forall in HaY', HpY. unfold before in *. cbn [fst snd] in *.
  assert (Hs : forall b, b ∈ X ++ (pv, kv) :: (a, k) :: Y -> 0 <= b.2) by (intros b Hb; by destruct (Hsz b Hb)).
  split_and!; [done|by destruct (Hsz (pv, kv) ltac:(set_solver))|done| | |done|by apply Forall_forall].
  - intros b [Hb|[->|Hb]%elem_of_cons]%elem_of_app.
    + pose proof (Hlow' b ltac:(set_solver)). pose proof (Hs b ltac:(set_solver)). lia.
    + pose proof (Hlow' (pv, kv) ltac:(set_solver)). pose proof (Hs (pv, kv) ltac:(set_solver)). cbn in *. lia.
    + specialize (HaY' b Hb). lia.
  - assert (Hpv := Hs (pv, kv) ltac:(set_solver)). cbn in Hpv. intros b [Hb|Hb]%elem_of_app.
    + pose proof (HXp b (pv, kv) Hb ltac:(set_solver)). pose proof (Hs b ltac:(set_solver)). cbn in *. lia.
    + specialize (HpY b Hb). lia.
Qed.

Lemma take_split (r : list block) fl' :
  (base, 0) :: fl' = X ++ (pv, kv) :: r ++ Y ->
  exists W, fl = W ++ (a, k) :: Y /\ fl' = W ++ r ++ Y /\ (base, 0) :: W = X ++ [(pv, kv)].
Proof using R El.
  intros E. destruct X as [|x X']; cbn [app] in *.
  - exists []. injection El as <- <- ->. injection E as ->. done.
  - injection El as <- ->. injection E as ->. exists (X' ++ [(pv, kv)]). by rewrite <- !app_assoc.
Qed.

(** The free list when the part [r] of the block stays free. *)
Lemma take_list (r : list block) fl' :
  (base, 0) :: fl' = X ++ (pv, kv) :: r ++ Y -> (r = [] /\ k = nunits \/ r = [(a, k - nunits)] /\ nunits < k) ->
  StronglySorted before ((base, 0) :: fl') /\ Forall (in_heap (u_brk s)) fl' /\
  (forall z, covered fl' z \/ a + 16 * (k - nunits) <= z < a + 16 * k <-> covered fl z) /\
  (forall z, a + 16 * (k - nunits) <= z < a + 16 * k -> ~ covered fl' z).
Proof using R El Hu Hk BS.
  intros E Hr. destruct (take_split r fl' E) as (V & Efl & Efl' & EV). destruct take_facts as ((Ha1 & Ha2 & Ha3) & _ & _ & _ & _ & Hlow & HaY).
  cbn [fst snd] in *. assert (Hh := rp_heap _ _ R). rewrite Efl in Hh. apply Forall_app in Hh as [HhV Hh].
  apply Forall_cons in Hh as [_ HhY]. assert (Hsort := rp_sorted _ _ R). rewrite Efl, app_comm_cons in Hsort.
  apply StronglySorted_app in Hsort as (HVa & HsV & HsY). inversion_clear HsY as [|? ? HsY' _].
  rewrite <- EV in Hlow. rewrite Efl, Efl'. rewrite Forall_forall in HaY.
  assert (Hr' : forall b, b ∈ r -> b = (a, k - nunits) /\ nunits < k).
  { intros b Hb. destruct Hr as [[-> _]|[-> ?]]; [by apply not_elem_of_nil in Hb|]. by apply list_elem_of_singleton in Hb. }
  assert (Hcr : forall z, covered r z <-> a <= z < a + 16 * (k - nunits)).
  { intros z. destruct Hr as [[-> ->]|[-> ?]]; [unfold covered; rewrite Exists_nil; lia|].
    rewrite covered_cons. unfold covered. rewrite Exists_nil. cbn. tauto. }
  split_and!.
  - rewrite app_comm_cons. apply StronglySorted_app. split_and!; [|done|apply StronglySorted_app; split_and!; [| |done]].
    + intros b c Hb [Hc|Hc]%elem_of_app; [|by apply HVa; [|set_solver]]. destruct (Hr' c Hc) as [-> _]. by apply (HVa b (a, k)); [|set_solver].
    + intros b c Hb Hc. destruct (Hr' b Hb) as [-> _]. specialize (HaY c Hc). unfold before in *. cbn [fst snd] in *. lia.
    + destruct Hr as [[-> _]|[-> _]]; repeat constructor.
  - apply Forall_app. split; [done|]. apply Forall_app. split; [|done]. apply Forall_forall. intros b Hb. destruct (Hr' b Hb) as [-> ?].
    split_and!; cbn [fst snd]; lia.
  - intros z. rewrite !covered_app, covered_cons, Hcr. cbn [fst snd].
    assert (a <= z < a + 16 * k <-> a <= z < a + 16 * (k - nunits) \/ a + 16 * (k - nunits) <= z < a + 16 * k) by lia. tauto.
  - intros z Hz. rewrite !covered_app, Hcr. intros [(b & Hb & Hbz)%Exists_exists|[?|(b & Hb & Hbz)%Exists_exists]]; [|lia|].
    + specialize (Hlow b ltac:(set_solver)). lia.
    + specialize (HaY b Hb). unfold before in HaY. cbn [fst snd] in HaY. lia.
Qed.

(** The block at the end of [(a, k)] is taken; the headers that change are
    those of the previous block, of the block, and of what is taken. *)
Lemma take_done (r : list block) s' :
  let a' := a + 16 * (k - nunits) in
  (r = [] /\ k = nunits \/ r = [(a, k - nunits)] /\ nunits < k) ->
  u_brk s' = u_brk s -> u_freep s' = pv -> u_heap s' pv = mkheader (first (r ++ Y) base) kv ->
  seg r (first Y base) (u_heap s') -> h_size (u_heap s' a') = nunits ->
  (forall z, z <> pv -> z <> a -> z <> a' -> u_heap s' z = u_heap s z) ->
  exists fl', taken fl s nunits a' fl' s'.
Proof using R El Hu Hk BS.
  intros a' Hr Ebrk Efp Ep Hsr Hsz Ho. destruct take_facts as (Ha & Hhp & Ea & Hnea & Hnep & Hlow & HaY).
  destruct (Ha) as (Ha1 & Ha2 & Ha3). cbn [fst snd] in *.
  assert (Hseg := rp_seg _ _ R). rewrite El in Hseg. apply seg_app in Hseg as (HsX & _ & _ & HsY). cbn [fst snd first] in *.
  assert (Efl : exists fl', (base, 0) :: fl' = X ++ (pv, kv) :: r ++ Y).
  { destruct X as [|x X']; cbn [app] in *; [exists (r ++ Y)|exists (X' ++ (pv, kv) :: r ++ Y)]; congruence. }
  destruct Efl as [fl' Efl']. destruct (take_list r fl' Efl' Hr) as (S1 & S2 & S3 & S4). fold a' in S3, S4.
  assert (Ea' : a' + 16 * nunits = a + 16 * k) by (unfold a'; lia). rewrite <- Ea' in S3, S4.
  assert (Hcov : forall b, b ∈ (base, 0) :: fl -> b.1 = base \/ covered fl b.1).
  { intros b [->|Hb]%elem_of_cons; [by left|right]. apply covered_in; [done|]. assert (Hh := rp_heap _ _ R). rewrite Forall_forall in Hh. by destruct (Hh _ Hb). }
  assert (Hs0 : forall b, b ∈ X -> 0 <= b.2).
  { intros b Hb. assert (Hz := rep_sizes _ _ R). rewrite El, Forall_forall in Hz. by destruct (Hz b ltac:(set_solver)). }
  exists fl'. split; rewrite ?Ebrk; try done.
  - split; rewrite ?Ebrk, ?Efp; [done|done|apply R| |rewrite Efl', fmap_app; set_solver].
    rewrite Efl'. apply seg_app. cbn [seg fst snd]. split_and!; [|done|apply seg_app; split; [done|]].
    + eapply seg_ext; [|exact HsX]. intros b Hb. pose proof (Hlow b ltac:(set_solver)). pose proof (Hs0 b Hb).
      apply Ho; [apply Hnep; set_solver|lia|unfold a'; lia].
    + eapply seg_ext; [|exact HsY]. intros b Hb. rewrite Forall_forall in HaY. specialize (HaY b Hb). unfold before in HaY. cbn in HaY.
      apply Ho; [apply Hnep; set_solver|lia|unfold a'; lia].
  - split_and!; cbn [fst snd]; unfold a'; lia.
  - intros z Hz1 Hz2. apply Ho.
    + intros ->. destruct (Hcov (pv, kv)); [rewrite El; set_solver|done..].
    + intros ->. destruct (Hcov (a, k)) as [Eb|]; [rewrite El; set_solver| |done]. pose proof base_lo. cbn in Eb. lia.
    + intros ->. apply Hz2, S3. right. lia.
Qed.

Lemma wp_take Q :
  (forall fl' s' r, taken fl s nunits r fl' s' -> Q (r + 16) s') ->
  wp (r ← (if k =? nunits then set_ptr pv (first Y base);; mret a
           else set_size a (k - nunits);; x ← geth a; let p := a + 16 * h_size x in set_size p nunits;; mret p);
      modify (set_u_freep pv);; mret (r + 16)) Q s.
Proof using R El Hu Hk BS.
  intros HQ. destruct take_facts as (Ha & Hhp & Ea & Hnea & Hnep & Hlow & HaY). assert (Hha := header_in _ _ Ha). cbn [fst] in Hha.
  assert (Hsm := sizes_small _ _ _ R Ha). destruct (Ha) as (Ha1 & Ha2 & Ha3). cbn [fst snd] in *.
  assert (Hseg := rp_seg _ _ R). rewrite El in Hseg. apply seg_app in Hseg as (_ & Ep & _). cbn [fst snd first] in Ep.
  assert (Hpa : pv <> a) by (intros E; by apply (Hnea (pv, kv)); [set_solver|]).
  apply wp_bind. destruct (Z.eqb_spec k nunits) as [E|E].
  - apply wp_bind, wp_updh; [done|]. apply wp_ret. apply wp_bind, wp_modify, wp_ret.
    destruct (take_done [] (set_u_freep pv (set_u_heap (hset pv (mkheader (first Y base) (h_size (u_heap s pv))) (u_heap s)) s)))
      as [fl' HT]; cbn; [by left|done|done|by rewrite hset_eq, Ep|done| |by intros z ? ? ?; rewrite hset_ne|].
    + rewrite E, Z.sub_diag, Z.mul_0_r, Z.add_0_r, hset_ne, Ea by done. done.
    + rewrite E, Z.sub_diag, Z.mul_0_r, Z.add_0_r in HT. by apply (HQ fl').
  - assert (Hw1 : wrap32 (k - nunits) = k - nunits) by (apply wrap32_small; lia).
    assert (Hw2 : wrap32 nunits = nunits) by (apply wrap32_small; lia). set (a' := a + 16 * (k - nunits)).
    assert (Hha' : has_header (u_brk s) a' = true).
    { apply (header_in _ (a', nunits)). split_and!; cbn [fst snd]; unfold a'; lia. }
    apply wp_bind, wp_updh; [done|]. apply wp_bind, wp_geth; [done|]. cbn [u_heap set_u_heap]. rewrite hset_eq. cbn [h_size].
    rewrite Hw1. fold a'. apply wp_bind, wp_updh; [done|]. apply wp_ret. apply wp_bind, wp_modify, wp_ret.
    match goal with |- Q _ ?u => destruct (take_done [(a, k - nunits)] u) as [fl' HT]; cbn; [right; split; [done|lia]|done|done|..] end.
    + rewrite hset_ne; [by rewrite hset_ne|]. specialize (Hlow (pv, kv) ltac:(set_solver)). cbn in Hlow.
      assert (Hz := rep_sizes _ _ R). rewrite El, Forall_forall in Hz. destruct (Hz (pv, kv) ltac:(set_solver)) as [Hkv _]. cbn in Hkv. unfold a'. lia.
    + split; [|done]. rewrite hset_ne by (unfold a'; lia). by rewrite hset_eq, Ea.
    + fold a'. rewrite hset_eq. cbn. done.
    + intros z Hz1 Hz2 Hz3. by rewrite !hset_ne.
    + by apply (HQ fl').
Qed.

End take.

(** ** The search *)

(** The last of some blocks, or the one before them. *)
Fixpoint lastp (pv : Z) (l : list block) : Z := match l with [] => pv | b :: l => lastp b.1 l end.

Lemma node_facts fl s b : rep fl s -> b ∈ (base, 0) :: fl -> b.1 <> 0 /\ has_header (u_brk s) b.1 = true.
Proof.
  intros R Hb. assert (Hz := rep_sizes _ _ R). rewrite Forall_forall in Hz. destruct (Hz b Hb) as [_ Hh]. split; [|done].
  pose proof base_pos. pose proof base_lo. apply elem_of_cons in Hb as [->|Hb]; [cbn; lia|].
  assert (Hi := rp_heap _ _ R). rewrite Forall_forall in Hi. destruct (Hi b Hb) as (? & ? & _). lia.
Qed.

Section search.
Context (fl : list block) (s : ust) (nunits : Z) (Q : Z -> ust -> Prop).
Context (R : rep fl s) (Hu : 1 <= nunits).
Context (HQ : forall fl' s' r, taken fl s nunits r fl' s' -> Q (r + 16) s').

(** One block is looked at: it is taken, or the search goes on. *)
Lemma wp_look X pv kv a k Y fuel :
  (base, 0) :: fl = X ++ (pv, kv) :: (a, k) :: Y -> a <> u_freep s \/ nunits <= k ->
  (k < nunits -> wp (malloc_loop fuel nunits a (first Y base)) Q s) ->
  wp (malloc_loop (S fuel) nunits pv a) Q s.
Proof using R Hu HQ BS.
  intros El Hf Hgo. destruct (node_facts fl s (a, k) R) as [Ha0 Hha]; [rewrite El; set_solver|]. cbn [fst] in *.
  assert (Hseg := rp_seg _ _ R). rewrite El in Hseg. apply seg_app in Hseg as (_ & _ & Ea & _). cbn [fst snd] in Ea.
  cbn [malloc_loop]. apply wp_bind, wp_geth; [done|]. rewrite Ea. cbn [h_ptr h_size].
  destruct (Z.leb_spec nunits k) as [Hk|Hk]; [by eapply wp_take|].
  apply wp_bind, wp_gets. destruct (Z.eqb_spec a (u_freep s)); [destruct Hf; [done|lia]|]. apply wp_bind, wp_ret.
  destruct (Z.eqb_spec a 0); [done|]. apply wp_bind, wp_geth; [done|]. rewrite Ea. cbn [h_ptr]. by apply Hgo.
Qed.

Lemma wp_scan_blocks l X pv kv Y fuel :
  (base, 0) :: fl = X ++ (pv, kv) :: l ++ Y -> u_freep s ∉ l.*1 ->
  (Forall (fun b => b.2 < nunits) l -> wp (malloc_loop fuel nunits (lastp pv l) (first Y base)) Q s) ->
  wp (malloc_loop (length l + fuel) nunits pv (first (l ++ Y) base)) Q s.
Proof using R Hu HQ BS.
  revert X pv kv. induction l as [|[a k] l IH]; intros X pv kv El Hf Hend; [by apply Hend|].
  cbn [app first fst length Nat.add]. eapply (wp_look X pv kv a k (l ++ Y)); [exact El|left; set_solver|]. intros Hk.
  apply (IH (X ++ [(pv, kv)]) a k); [rewrite El, <- app_assoc; done|set_solver|]. intros Hl. apply Hend. by constructor.
Qed.

(** Once around the list, from the block [freep] points to. *)
Lemma wp_round m :
  (Forall (fun b => b.2 < nunits) fl -> forall m' pv, (m <= m')%nat -> wp (malloc_loop m' nunits pv (u_freep s)) Q s) ->
  wp (malloc_loop (length fl + S m) nunits (u_freep s) (h_ptr (u_heap s (u_freep s)))) Q s.
Proof using R Hu HQ BS.
  intros Hend. assert (Hf := rp_freep _ _ R). apply list_elem_of_fmap in Hf as ([f kf] & Ef & Hin). cbn [fst] in Ef.
  apply list_elem_of_split in Hin as (P & Y & El). rewrite Ef in *.
  assert (Hseg := rp_seg _ _ R). rewrite El in Hseg. apply seg_app in Hseg as (_ & E & _). cbn [fst snd] in E. rewrite E. cbn [h_ptr].
  assert (Hsort := rp_sorted _ _ R). rewrite El in Hsort. apply StronglySorted_app in Hsort as (HPf & _ & HfY).
  inversion_clear HfY as [|? ? _ HfY']. assert (Hz := rep_sizes _ _ R). rewrite El, Forall_forall in Hz.
  assert (Hkf : 0 <= kf) by by destruct (Hz (f, kf) ltac:(set_solver)).
  assert (HfY : u_freep s ∉ Y.*1).
  { rewrite Ef. intros (b & -> & Hb)%list_elem_of_fmap. rewrite Forall_forall in HfY'. specialize (HfY' b Hb). unfold before in HfY'. cbn in *. lia. }
  assert (HfP : forall b, b ∈ P -> b.1 <> f).
  { intros b Hb. specialize (HPf b (f, kf) Hb ltac:(set_solver)). destruct (Hz b ltac:(set_solver)) as [? _]. unfold before in HPf. cbn in *. lia. }
  assert (Hlen := f_equal length El). rewrite length_app in Hlen. cbn [length] in Hlen.
  rewrite <- (app_nil_r Y). replace (length fl + S m)%nat with (length Y + (length P + S m))%nat by lia.
  eapply (wp_scan_blocks Y P f kf []); [by rewrite app_nil_r|done|]. intros HY. cbn [first].
  destruct P as [|p0 P]; cbn [app] in El.
  - injection El as <- <- ->. apply Hend; [done|lia].
  - injection El as <- Efl. destruct (node_facts fl s (base, 0) R) as [Hb0 Hhb]; [set_solver|]. cbn [fst] in *.
    assert (Eb : u_heap s base = mkheader (first fl base) 0) by (assert (H := rp_seg _ _ R); by destruct H).
    cbn [length Nat.add malloc_loop]. apply wp_bind, wp_geth; [done|]. rewrite Eb. cbn [h_ptr h_size].
    destruct (Z.leb_spec nunits 0); [lia|]. apply wp_bind, wp_gets.
    destruct (Z.eqb_spec base (u_freep s)) as [Eq|_]; [exfalso; apply (HfP (base, 0)); [set_solver|cbn; congruence]|].
    apply wp_bind, wp_ret. destruct (Z.eqb_spec base 0); [done|]. apply wp_bind, wp_geth; [done|]. rewrite Eb. cbn [h_ptr]. rewrite Efl.
    eapply (wp_scan_blocks P [] base 0 ((f, kf) :: Y)); [by rewrite <- Efl| |].
    { rewrite Ef. intros (b & Eb' & Hb)%list_elem_of_fmap. apply (HfP b); [set_solver|done]. }
    intros HP. cbn [first fst]. destruct (decide (nunits <= kf)) as [Hk|Hk].
    + destruct (exists_last (l := (base, 0) :: P)) as (X & [pv kv] & EX); [done|].
      assert (Elp : lastp base P = pv).
      { clear -EX. revert EX. generalize base, 0. revert X. induction P as [|b P IH]; intros X b0 z EX; cbn.
        - destruct X as [|x X]; [by injection EX|]. injection EX as _ EX. by destruct X.
        - destruct X as [|x X]; [done|]. injection EX as _ EX. destruct b as [b1 b2]. by apply (IH X b1 b2). }
      rewrite Elp. eapply (wp_look X pv kv f kf Y); [|by right|lia].
      rewrite Efl, app_comm_cons, EX, <- app_assoc. done.
    + apply Hend; [|lia]. rewrite Efl. apply Forall_app. split; [done|]. constructor; [cbn; lia|done].
Qed.

End search.

(** ** More memory *)

(** The heap has grown by the units between the old and the new break. *)
Record extended (fl : list block) (s : ust) (n : Z) (fl' : list block) (s' : ust) : Prop := {
  ex_rep : rep fl' s';
  ex_brk : u_brk s' = u_brk s + 16 * n;
  ex_covered z : covered fl' z <-> covered fl z \/ u_brk s <= z < u_brk s';
  ex_other z : z <> base -> ~ covered fl z -> ~ u_brk s <= z < u_brk s' -> u_heap s' z = u_heap s z
}.

Lemma rep_brk fl s brk : rep fl s -> u_brk s <= brk <= 2 ^ 32 -> rep fl (set_u_brk brk s).
Proof.
  intros [R1 R2 R3 R4 R5] Hb. split; cbn; [done| |lia|done|done]. eapply Forall_impl; [exact R2|].
  intros b (? & ? & ?). split_and!; lia.
Qed.

Lemma rep_heap fl s a v : rep fl s -> a ∉ ((base, 0) :: fl).*1 -> rep fl (set_u_heap (hset a v (u_heap s)) s).
Proof.
  intros [R1 R2 R3 R4 R5] Ha. split; cbn [u_heap u_brk u_freep set_u_heap]; [done|done|done| |done].
  eapply seg_ext; [|exact R4]. intros b Hb. apply hset_ne. intros E. apply Ha. rewrite <- E. apply list_elem_of_fmap. by exists b.
Qed.

Definition grow (nu : Z) : Z := if nu <? 4096 then 4096 else nu.

Lemma wp_morecore fl s nunits Q :
  rep fl s -> 1 <= nunits -> 16 * nunits < 2 ^ 31 ->
  (grants (u_brk s) (16 * grow nunits) = false -> Q 0 s) ->
  (forall fl' s', extended fl s (grow nunits) fl' s' -> (exists b, b ∈ fl' /\ nunits <= b.2) -> u_freep s' <> 0 -> Q (u_freep s') s') ->
  wp (morecore nunits) Q s.
Proof using BS.
  intros R Hu Hmax HQ0 HQ. unfold morecore. fold (grow nunits). assert (Hg : nunits <= grow nunits /\ 0 <= 16 * grow nunits < 2 ^ 31).
  { unfold grow. destruct (Z.ltb_spec nunits 4096); lia. }
  rewrite (Z.mul_comm (grow nunits)), to_int_small by lia. destruct Hg as [Hg1 Hg2].
  destruct (rp_brk _ _ R) as [Hb1 Hb2]. pose proof base_pos. pose proof base_lo.
  unfold sbrk. apply wp_bind, wp_bind, wp_gets. destruct (grants (u_brk s) (16 * grow nunits)) eqn:G; [|apply wp_ret; by apply HQ0].
  assert (Hbelow := grants_below _ _ G ltac:(lia)). destruct (Z.ltb_spec (u_brk s + 16 * grow nunits) 0); [lia|].
  apply wp_bind, wp_modify, wp_ret. destruct (Z.eqb_spec (u_brk s) (-1)); [lia|].
  set (brk' := u_brk s + 16 * grow nunits) in *. set (s1 := set_u_brk brk' s).
  assert (R1 : rep fl s1) by (apply rep_brk; [done|lia]).
  assert (Hin : in_heap (u_brk s1) (u_brk s, grow nunits)) by (split_and!; cbn; unfold brk'; lia).
  assert (Hfree : forall z, u_brk s <= z < u_brk s + 16 * grow nunits -> ~ covered fl z) by (intros z Hz Hc%(rep_covered _ _ _ R); lia).
  assert (Hnew : u_brk s ∉ ((base, 0) :: fl).*1).
  { intros (b & Eb & [->|Hb]%elem_of_cons)%list_elem_of_fmap; [cbn in Eb; lia|]. apply (Hfree (u_brk s)); [lia|].
    rewrite Eb. apply covered_in; [done|]. assert (Hh := rp_heap _ _ R). rewrite Forall_forall in Hh. by destruct (Hh b Hb). }
  apply wp_bind, wp_updh; [by apply (header_in _ _ Hin)|]. set (s2 := set_u_heap _ s1).
  assert (R2 : rep fl s2) by (by apply rep_heap). apply wp_bind. eapply (wp_free fl s2 (u_brk s) (grow nunits)); [done|done| |done|].
  { cbn. rewrite hset_eq. cbn. apply wrap32_small. lia. }
  intros fl' s3 R3 Ebrk Hcov (b & Hb & Hb1' & Hb2') Ho. apply wp_gets. eapply (HQ fl').
  - split; [done|by rewrite Ebrk|by rewrite Ebrk|]. intros z Hz1 Hz2 Hz3. rewrite Ho.
    + cbn. rewrite hset_ne; [done|]. intros ->. apply Hz3. rewrite Ebrk. cbn. unfold brk'. lia.
    + intros ->. apply Hz3. rewrite Ebrk. cbn. unfold brk'. lia.
    + intros (c & Ec & [->|Hc]%elem_of_cons)%list_elem_of_fmap; [done|]. apply Hz2. rewrite Ec. apply covered_in; [done|].
      assert (Hh := rp_heap _ _ R). rewrite Forall_forall in Hh. by destruct (Hh c Hc).
  - exists b. split; [done|]. lia.
  - assert (Hf := rp_freep _ _ R3). apply list_elem_of_fmap in Hf as (c & -> & Hc). by apply (node_facts fl' s3).
Qed.

(** ** [malloc] *)

(** [malloc] has taken a block, after extending the heap or not. *)
Record allocated (fl : list block) (s : ust) (nunits a : Z) (fl' : list block) (s' : ust) : Prop := {
  al_rep : rep fl' s';
  al_brk : u_brk s <= u_brk s';
  al_size : h_size (u_heap s' a) = nunits;
  al_heap : in_heap (u_brk s') (a, nunits);
  al_covered z : covered fl' z \/ a <= z < a + 16 * nunits <-> covered fl z \/ u_brk s <= z < u_brk s';
  al_apart z : a <= z < a + 16 * nunits -> ~ covered fl' z;
  al_other z : z <> base -> ~ covered fl z -> ~ u_brk s <= z < u_brk s' -> u_heap s' z = u_heap s z
}.

Lemma taken_allocated fl s nunits a fl' s' : taken fl s nunits a fl' s' -> allocated fl s nunits a fl' s'.
Proof.
  intros [T1 T2 T3 T4 T5 T6 T7]. split; try done.
  - lia.
  - intros z. rewrite T5. split; [tauto|]. intros [?|?]; [done|lia].
  - intros z Hz1 Hz2 _. by apply T7.
Qed.

Lemma extended_allocated fl s n fl1 s1 nunits a fl' s' :
  extended fl s n fl1 s1 -> 0 <= n -> taken fl1 s1 nunits a fl' s' -> allocated fl s nunits a fl' s'.
Proof.
  intros [E1 E2 E3 E4] Hn [T1 T2 T3 T4 T5 T6 T7]. split; try done.
  - lia.
  - intros z. rewrite T5, E3, T2. done.
  - intros z Hz1 Hz2 Hz3. rewrite T2 in Hz3. rewrite T7; [by apply E4|done|]. rewrite E3. tauto.
Qed.

Lemma wp_malloc_loop fl s nunits F Q :
  rep fl s -> 1 <= nunits -> 16 * nunits < 2 ^ 31 -> (2 * walk_fuel s + Z.to_nat nunits + 4096 <= F)%nat ->
  (grants (u_brk s) (16 * grow nunits) = false -> Q 0 s) ->
  (forall fl' s' a, allocated fl s nunits a fl' s' -> Q (a + 16) s') ->
  wp (malloc_loop F nunits (u_freep s) (h_ptr (u_heap s (u_freep s)))) Q s.
Proof using BS.
  intros R Hu Hmax HF HQ0 HQ. assert (Hfu := rep_fuel _ _ R).
  replace F with (length fl + S (F - length fl - 1))%nat by lia. eapply wp_round; [done|done| |].
  { intros fl' s' r HT. by eapply HQ, taken_allocated. }
  intros Hsmall m pv Hm. assert (Hf := rp_freep _ _ R). apply list_elem_of_fmap in Hf as (b & Eb & Hb). 
  assert (Hhd : has_header (u_brk s) (u_freep s) = true) by (rewrite Eb; by apply (node_facts fl s)).
  assert (Hsz : h_size (u_heap s (u_freep s)) < nunits).
  { assert (Hseg := rp_seg _ _ R). assert (Hin := Hb). apply list_elem_of_split in Hb as (X & Y & El). rewrite El in Hseg.
    apply seg_app in Hseg as (_ & E & _). rewrite Eb, E. cbn. apply elem_of_cons in Hin as [->|Hin]; [cbn; lia|]. rewrite Forall_forall in Hsmall. by apply Hsmall. }
  destruct m as [|m]; [lia|]. cbn [malloc_loop]. apply wp_bind, wp_geth; [done|].
  destruct (Z.leb_spec nunits (h_size (u_heap s (u_freep s)))); [lia|]. apply wp_bind, wp_gets. rewrite Z.eqb_refl.
  apply wp_bind. eapply wp_morecore; [done|done|done|intros G; cbn; apply wp_ret; by apply HQ0|].
  intros fl1 s1 HE (c & Hc & Hck) Hfp. destruct (Z.eqb_spec (u_freep s1) 0); [done|].
  assert (R1 := ex_rep _ _ _ _ _ HE). assert (Hf1 := rp_freep _ _ R1). apply list_elem_of_fmap in Hf1 as (b1 & Eb1 & Hb1').
  apply wp_bind, wp_geth; [rewrite Eb1; by apply (node_facts fl1 s1)|].
  assert (Hg : 0 <= grow nunits <= nunits + 4096) by (unfold grow; destruct (Z.ltb_spec nunits 4096); lia).
  assert (Hfu1 := rep_fuel _ _ R1). assert (Ew : (walk_fuel s1 <= walk_fuel s + Z.to_nat nunits + 4096)%nat).
  { unfold walk_fuel. rewrite (ex_brk _ _ _ _ _ HE). replace (u_brk s + 16 * grow nunits - lo) with (u_brk s - lo + grow nunits * 16) by lia.
    rewrite Z.div_add by lia. destruct (rp_brk _ _ R). assert (0 <= (u_brk s - lo) / 16) by (apply Z.div_pos; lia). lia. }
  replace m with (length fl1 + S (m - length fl1 - 1))%nat by lia. eapply wp_round; [done|done| |].
  - intros fl' s' r HT. eapply HQ, extended_allocated; [exact HE|lia|done].
  - intros Hs1. rewrite Forall_forall in Hs1. specialize (Hs1 c Hc). cbn in Hs1. lia.
Qed.

(** The allocator before its first use, or with the free blocks [fl]. *)
Definition ready (fl : list block) (s : ust) : Prop :=
  rep fl s \/ (fl = [] /\ u_freep s = 0 /\ lo <= u_brk s <= 2 ^ 32).

Lemma wp_malloc fl s nbytes Q :
  ready fl s -> 0 <= nbytes < 2 ^ 31 - 32 ->
  (forall s', grants (u_brk s) (16 * grow (units nbytes)) = false -> ready fl s' -> u_brk s' = u_brk s ->
     (forall z, z <> base -> u_heap s' z = u_heap s z) -> Q 0 s') ->
  (forall fl' s' a, allocated fl s (units nbytes) a fl' s' -> Q (a + 16) s') ->
  wp (malloc nbytes) Q s.
Proof using BS.
  intros Hr Hn HQ0 HQ. pose proof base_pos. pose proof base_lo. unfold malloc.
  assert (Hu : 1 <= units nbytes /\ 16 * units nbytes < 2 ^ 31).
  { unfold units. pose proof (Z.div_pos (nbytes + 16 - 1) 16). pose proof (Z.mul_div_le (nbytes + 16 - 1) 16). lia. }
  destruct Hu as [Hu1 Hu2]. apply wp_bind, wp_gets. destruct Hr as [R|(-> & E0 & Hb)].
  - assert (Hf := rp_freep _ _ R). apply list_elem_of_fmap in Hf as (b & Eb & Hin). destruct (node_facts fl s b R Hin) as [Hf0 Hh].
    destruct (Z.eqb_spec (u_freep s) 0); [congruence|]. apply wp_bind, wp_ret. apply wp_bind, wp_geth; [by rewrite Eb|].
    apply wp_bind, wp_gets. eapply wp_malloc_loop; [done|done|done|lia| |done]. intros G. apply HQ0; [done|by left|done|done].
  - rewrite E0. cbn [Z.eqb]. set (s1 := mkust (hset base (mkheader base 0) (u_heap s)) base (u_brk s)).
    apply wp_bind, wp_bind, wp_updh; [apply header_base|]. apply wp_bind, wp_modify. apply wp_bind, wp_updh; [apply header_base|].
    apply wp_ret. cbn [set_u_heap set_u_freep u_heap u_brk u_freep]. match goal with |- wp _ _ ?u => set (s2 := u) end.
    assert (E2 : forall z, u_heap s2 z = u_heap s1 z).
    { intros z. cbn. unfold hset. rewrite !Z.eqb_refl. by destruct (Z.eqb_spec z base). }
    assert (R2 : rep [] s2).
    { split; [repeat constructor|constructor|done| |apply list_elem_of_singleton; done]. cbn [seg first]. split; [|done]. by rewrite E2; cbn; rewrite hset_eq. }
    apply wp_bind, wp_geth; [apply header_base|]. apply wp_bind, wp_gets.
    eapply (wp_malloc_loop [] s2); [done|done|done|lia| |].
    + intros G. apply HQ0; [done|by left|done|]. intros z Hz. rewrite E2. cbn. by rewrite hset_ne.
    + intros fl' s' a [A1 A2 A3 A4 A5 A6 A7]. apply (HQ fl'). split; try done. intros z Hz1 Hz2 Hz3.
      rewrite A7 by done. rewrite E2. cbn. by rewrite hset_ne.
Qed.

End spec.

(** ** Properties *)

(** C38: [malloc] of fewer than 2^31 - 32 bytes fails only when the kernel refuses to extend
    the heap, and then changes no header but [base]'s. Otherwise the block it
    returns has room for the bytes, lies in the heap, was free or beyond the
    old break, and is free no longer; all other free memory stays free and no
    header of an allocated block changes. *)
Theorem malloc_spec {B : Brk} {BS : BrkSpec} (fl : list block) (s : ust) (nbytes : Z)
    (Hs : ready fl s) (Hn : 0 <= nbytes < 2 ^ 31 - 32) :
  wp (malloc nbytes) (fun r s' =>
    (r = 0 /\ grants (u_brk s) (16 * grow (units nbytes)) = false /\ ready fl s' /\ u_brk s' = u_brk s /\
       forall z, z <> base -> u_heap s' z = u_heap s z) \/
    exists fl', allocated fl s (units nbytes) (r - 16) fl' s' /\ nbytes <= 16 * (units nbytes - 1)) s.
Proof.
  apply (wp_malloc fl s nbytes); [done|done| |].
  - intros s' G R E Ho. left. done.
  - intros fl' s' a HA. right. exists fl'. replace (a + 16 - 16) with a by lia. split; [done|]. unfold units.
    pose proof (Z.mod_pos_bound (nbytes + 16 - 1) 16). pose proof (Z.div_mod (nbytes + 16 - 1) 16). lia.
Qed.

(** [free] of an allocated block puts exactly its memory back on the free
    list, which stays sorted and without adjacent blocks, and changes no
    header of an allocated block. *)
Theorem free_spec {B : Brk} {BS : BrkSpec} (fl : list block) (s : ust) (a n : Z)
    (R : rep fl s) (Hb : in_heap (u_brk s) (a, n)) (Hn : h_size (u_heap s a) = n)
    (Hd : forall z, a <= z < a + 16 * n -> ~ covered fl z) :
  wp (free (a + 16)) (fun _ s' => exists fl', rep fl' s' /\ u_brk s' = u_brk s /\
    (forall z, covered fl' z <-> covered fl z \/ a <= z < a + 16 * n) /\
    forall z, z <> base -> z <> a -> ~ covered fl z -> u_heap s' z = u_heap s z) s.
Proof.
  apply (wp_free fl s a n); [done..|]. intros fl' s' R' E Hc _ Ho. exists fl'. split_and!; [done..|].
  intros z Hz1 Hz2 Hz3. apply Ho; [done|]. intros (c & -> & [->|Hc']%elem_of_cons)%list_elem_of_fmap; [done|].
  apply Hz3, covered_in; [done|]. assert (Hh := rp_heap _ _ R). rewrite Forall_forall in Hh. by destruct (Hh c Hc').
Qed.

(** Memory is not lost: after [malloc] and [free] of the block the free memory
    is what it was, with the extension of the heap if there was one. *)
Theorem malloc_free {B : Brk} {BS : BrkSpec} (fl : list block) (s : ust) (nbytes : Z)
    (Hs : ready fl s) (Hn : 0 <= nbytes < 2 ^ 31 - 32) :
  wp (r ← malloc nbytes; when (negb (r =? 0)) (free r)) (fun _ s' => exists fl', ready fl' s' /\ u_brk s <= u_brk s' /\
    forall z, covered fl' z <-> covered fl z \/ u_brk s <= z < u_brk s') s.
Proof.
  apply wp_bind, (wp_malloc fl s nbytes); [done|done| |].
  - intros s' _ R E _. apply wp_ret. exists fl. split_and!; [done|lia|]. intros z. rewrite E. split; [tauto|]. intros [?|?]; [done|lia].
  - intros fl' s' a [A1 A2 A3 A4 A5 A6 _]. destruct (A4) as (_ & Hlo & _). pose proof base_pos. pose proof base_lo. cbn in Hlo.
    destruct (Z.eqb_spec (a + 16) 0); [lia|]. cbn [negb when]. eapply (wp_free fl' s' a); [done|done|done|done|].
    intros fl2 s2 R2 E2 Hc _ _. exists fl2. rewrite E2. split_and!; [by left|done|]. intros z. by rewrite Hc, A5.
Qed.

(** Evaluates the headers a run on known addresses reads. *)
Local Ltac run_step :=
  match goal with
  | |- wp (_ ≫= _) _ _ => apply wp_bind
  | |- wp (geth _) _ _ => apply wp_geth; [done|]
  | |- wp (set_ptr _ _) _ _ => apply wp_updh; [done|]
  | |- wp (set_size _ _) _ _ => apply wp_updh; [done|]
  | |- wp (gets _) _ _ => apply wp_gets
  | |- wp (modify _) _ _ => apply wp_modify
  | |- wp (mret _) _ _ => apply wp_ret
  end; cbn [set_u_heap set_u_freep set_u_brk u_heap u_brk u_freep h_ptr h_size];
  repeat first [rewrite hset_eq | rewrite hset_ne by lia]; cbn [h_ptr h_size].

(** The request for memory is truncated to an [int]: [malloc] of 4 GB less one
    byte on a fresh heap asks the kernel for 16 bytes, and returns the address
    of the break, with no memory behind it. *)
Theorem malloc_huge {B : Brk} {BS : BrkSpec} (s : ust)
    (Hf : u_freep s = 0) (Hb : u_brk s = lo) (Hg : grants lo 16 = true) :
  wp (malloc (2 ^ 32 - 1)) (fun r s' => r = lo + 16 /\ u_brk s' = lo + 16) s.
Proof.
  pose proof base_pos. pose proof base_lo. unfold malloc. change (units (2 ^ 32 - 1)) with (2 ^ 28 + 1).
  assert (Hh : forall brk, has_header brk base = true) by apply header_base.
  assert (Hl : has_header (lo + 16) lo = true) by (apply (header_in _ (lo, 1)); split_and!; cbn; lia).
  repeat run_step. rewrite Hf. cbn [Z.eqb]. repeat run_step.
  set (F := (2 * _ + _ + _)%nat). assert (EF : exists F', F = S (S F')) by (exists (F - 2)%nat; unfold F; lia).
  destruct EF as [G EF]. rewrite EF. clear F EF.
  cbn [malloc_loop]. repeat run_step. change (2 ^ 28 + 1 <=? wrap32 0) with false. cbv iota. repeat run_step. rewrite Z.eqb_refl.
  unfold morecore. change (2 ^ 28 + 1 <? 4096) with false. cbv iota zeta. change (to_int ((2 ^ 28 + 1) * 16)) with 16.
  unfold sbrk. repeat run_step. rewrite Hb, Hg. destruct (Z.ltb_spec (lo + 16) 0); [lia|]. repeat run_step.
  destruct (Z.eqb_spec lo (-1)); [lia|]. repeat run_step. unfold free. replace (lo + 16 - 16) with lo by lia. repeat run_step.
  unfold walk_fuel at 1. cbn [u_brk set_u_heap set_u_brk]. rewrite Nat.add_comm. cbn [Nat.add free_loop]. repeat run_step.
  destruct (Z.ltb_spec base lo); [|lia]. destruct (Z.ltb_spec lo base); [lia|]. rewrite Z.leb_refl. cbn [andb orb]. run_step.
  unfold join_next. repeat run_step. change (wrap32 (2 ^ 28 + 1)) with (2 ^ 28 + 1). change (wrap32 0) with 0.
  destruct (Z.eqb_spec (lo + 16 * (2 ^ 28 + 1)) base); [lia|]. repeat run_step. unfold join_prev. repeat run_step.
  destruct (Z.eqb_spec (base + 16 * 0) lo); [lia|]. repeat run_step. destruct (Z.eqb_spec base 0); [lia|]. repeat run_step.
  rewrite Z.leb_refl, Z.eqb_refl. repeat run_step. done.
Qed.

(** ** Witnesses *)

(** A program with its variables at 4096, its heap from 8192 on, and a kernel
    that grants up to 1 MB. *)
#[local] Instance small_brk : Brk := {| base := 4096; lo := 8192; grants brk n := brk + n <=? 2 ^ 20 |}.

#[local] Instance small_brk_spec : BrkSpec.
Proof. split; cbn; [lia|lia|]. intros brk n ?%Z.leb_le _. lia. Qed.

Definition fresh_heap : ust := mkust (fun _ => mkheader 0 0) 0 8192.

Lemma fresh_ready : ready [] fresh_heap.
Proof. right. by split_and!. Qed.

(** A heap of 100 units, with the 10 units at 8192 allocated. *)
Definition used_heap : ust :=
  mkust (fun z => if z =? 4096 then mkheader 8352 0 else if z =? 8352 then mkheader 4096 90 else mkheader 0 10) 4096 9792.

Lemma used_rep : rep [(8352, 90)] used_heap.
Proof.
  split; [repeat constructor|apply Forall_singleton; by split_and!|done|by split_and!|by left].
Qed.

Lemma malloc_spec_witness : wp (malloc 100) (fun r s' =>
    r = 0 \/ exists fl', allocated [] fresh_heap 8 (r - 16) fl' s') fresh_heap.
Proof.
  eapply wp_mono; [apply (malloc_spec [] fresh_heap 100)|].
  - exact fresh_ready.
  - lia.
  - intros r s' [(-> & _)|(fl' & H & _)]; [left; reflexivity|right]. exists fl'. exact H.
Defined.

Lemma free_spec_witness : wp (free (8192 + 16)) (fun _ s' => exists fl', rep fl' s' /\
    forall z, covered fl' z <-> covered [(8352, 90)] z \/ 8192 <= z < 8352) used_heap.
Proof.
  eapply wp_mono; [apply (free_spec [(8352, 90)] used_heap 8192 10)|].
  - exact used_rep.
  - split_and!; cbn; lia.
  - reflexivity.
  - intros z Hz Hc. apply covered_cons in Hc as [Hc|Hc]; [cbn in Hc; lia|by apply Exists_nil in Hc].
  - intros [] s' (fl' & H1 & _ & H2 & _). exists fl'. split; [exact H1|exact H2].
Defined.

Lemma malloc_free_witness : wp (r ← malloc 100; when (negb (r =? 0)) (free r)) (fun _ s' => exists fl', ready fl' s' /\
    forall z, covered fl' z <-> covered [] z \/ 8192 <= z < u_brk s') fresh_heap.
Proof.
  eapply wp_mono; [apply (malloc_free [] fresh_heap 100)|].
  - exact fresh_ready.
  - lia.
  - intros [] s' (fl' & H1 & _ & H2). exists fl'. split; [exact H1|exact H2].
Defined.

Lemma malloc_huge_witness : wp (malloc (2 ^ 32 - 1)) (fun r s' => r = 8208 /\ u_brk s' = 8208) fresh_heap.
Proof.
  eapply wp_mono; [apply (malloc_huge fresh_heap)|].
  - reflexivity.
  - reflexivity.
  - reflexivity.
  - intros r s' [-> E]. split; [reflexivity|exact E].
Defined.
