(* ===== verification/Mkfs.v ===== *)
(** * The program that makes the disk image ([mkfs/mkfs.c])

    [mkfs] runs on the host: it writes a file system with the given files into
    an image, which is a file of [FSSIZE] sectors. A structure in memory is
    the list of its bytes; the host is little-endian. [die] and a failing
    [assert] end the program ([Panic]). *)

From stdpp Require Import base gmap strings numbers list.
From S2P Require Import Prelude State Strings Printf Bytes Cache Log LogSpec Fs Ulib.

Definition FSSIZE : Z := 2000.
Definition NINODES : Z := 200.

(** The global variables, and the image: its sectors and their number. *)
Record mkst : Type := mkmkst {
  mk_img : disk;
  mk_len : Z;
  mk_sb : superblock;
  mk_freeinode : Z;
  mk_freeblock : Z
}.

Definition set_mk_img (v : disk) (s : mkst) : mkst := mkmkst v (mk_len s) (mk_sb s) (mk_freeinode s) (mk_freeblock s).
Definition set_mk_len (v : Z) (s : mkst) : mkst := mkmkst (mk_img s) v (mk_sb s) (mk_freeinode s) (mk_freeblock s).
Definition set_mk_sb (v : superblock) (s : mkst) : mkst := mkmkst (mk_img s) (mk_len s) v (mk_freeinode s) (mk_freeblock s).
Definition set_mk_freeinode (v : Z) (s : mkst) : mkst := mkmkst (mk_img s) (mk_len s) (mk_sb s) v (mk_freeblock s).
Definition set_mk_freeblock (v : Z) (s : mkst) : mkst := mkmkst (mk_img s) (mk_len s) (mk_sb s) (mk_freeinode s) v.

(** The host: whether the image can be created, and the contents of a file
    that can be opened. *)
Class Host : Type := { create_ok : list Z -> bool; contents : list Z -> option (list Z) }.

Abbreviation MK := (M mkst).

Definition die {A} (msg : string) : MK A := panic msg.
Definition assert (b : bool) : MK unit := if b then mret tt else panic "assert".

(** The disk layout. *)
Definition nbitmap : Z := FSSIZE / Z.of_nat BPB + 1.
Definition ninodeblocks : Z := NINODES / Z.of_nat IPB + 1.
Definition nlog : Z := Z.of_nat LOGBLOCKS + 1.
Definition nmeta : Z := 2 + nlog + ninodeblocks + nbitmap.
Definition nblocks : Z := FSSIZE - nmeta.

(** Conversion to the byte order of RISC-V. *)
Definition xshort (x : Z) : Z := le_val [wrap8 x; wrap8 (Z.shiftr x 8)].
Definition xint (x : Z) : Z := le_val [wrap8 x; wrap8 (Z.shiftr x 8); wrap8 (Z.shiftr x 16); wrap8 (Z.shiftr x 24)].

(** The sector [lseek] to [sec * BSIZE] goes to; the product is a [uint]. *)
Definition sector (sec : Z) : Z := wrap32 (sec * Z.of_nat BSIZE) / Z.of_nat BSIZE.

(** Writing past the end makes the image longer. *)
Definition wsect (sec : Z) (buf : list Z) : MK unit :=
  modify (fun s => set_mk_len (Z.max (mk_len s) (sector sec + 1)) (set_mk_img (vset (sector sec) buf (mk_img s)) s)).

Definition rsect (sec : Z) : MK (list Z) :=
  n ← gets mk_len;
  if sector sec <? n then gets (fun s => mk_img s (sector sec)) else die "read".

Definition winode (inum : Z) (ip : list Z) : MK unit :=
  sb ← gets mk_sb;
  let bn := IBLOCK inum sb in
  buf ← rsect bn;
  wsect bn (splice (dinode_off inum) ip buf).

Definition rinode (inum : Z) : MK (list Z) :=
  sb ← gets mk_sb;
  let bn := IBLOCK inum sb in
  buf ← rsect bn;
  mret (slice (dinode_off inum) dinode_size buf).

(** [freeblock++] *)
Definition next_block : MK Z :=
  b ← gets mk_freeblock;
  modify (set_mk_freeblock (wrap32 (b + 1)));;
  mret b.

Definition mk_ialloc (type : Z) : MK Z :=
  inum ← gets mk_freeinode;
  modify (set_mk_freeinode (wrap32 (inum + 1)));;
  let din := replicate dinode_size 0 in
  let din := put16 di_type (xshort type) din in
  let din := put16 di_nlink (xshort 1) din in
  let din := put32 di_size (xint 0) din in
  winode inum din;;
  mret inum.

(** The loop of [balloc]: the first [used] bits are set. *)
Definition balloc_buf (used : nat) : list Z :=
  foldl (fun buf i => <[(i / 8)%nat := wrap8 (Z.lor (nth (i / 8) buf 0) (Z.shiftl 1 (Z.of_nat (i mod 8))))]> buf)
    (replicate BSIZE 0) (seq 0 used).

Definition mk_balloc (used : Z) : MK unit :=
  assert (used <? Z.of_nat BPB);;
  sb ← gets mk_sb;
  wsect (sb_bmapstart sb) (balloc_buf (Z.to_nat used)).

(** The sector of block [fbn] of the file, allocated if need be: the inode and
    the sector. *)
Definition iappend_block (din : list Z) (fbn : Z) : MK (list Z * Z) :=
  if fbn <? Z.of_nat NDIRECT then
    let k := di_addrs (Z.to_nat fbn) in
    din ← (if xint (get32 k din) =? 0 then b ← next_block; mret (put32 k (xint b) din) else mret din);
    mret (din, xint (get32 k din))
  else
    let k := di_addrs NDIRECT in
    let j := (4 * Z.to_nat (fbn - Z.of_nat NDIRECT))%nat in
    din ← (if xint (get32 k din) =? 0 then b ← next_block; mret (put32 k (xint b) din) else mret din);
    indirect ← rsect (xint (get32 k din));
    indirect ← (if get32 j indirect =? 0 then
                  b ← next_block;
                  let indirect := put32 j (xint b) indirect in
                  wsect (xint (get32 k din)) indirect;;
                  mret indirect
                else mret indirect);
    mret (din, xint (get32 j indirect)).

(** The loop of [iappend]; every turn writes at least one byte. *)
Fixpoint iappend_loop (fuel : nat) (din p : list Z) (off n : Z) : MK (list Z * Z) :=
  if n <=? 0 then mret (din, off) else
  match fuel with
  | O => hang
  | S fuel =>
      let fbn := off / Z.of_nat BSIZE in
      assert (fbn <? Z.of_nat MAXFILE);;
      r ← iappend_block din fbn;
      let '(din, x) := r in
      let n1 := Z.min n (wrap32 ((fbn + 1) * Z.of_nat BSIZE - off)) in
      buf ← rsect x;
      wsect x (splice (Z.to_nat (off - fbn * Z.of_nat BSIZE)) (take (Z.to_nat n1) p) buf);;
      iappend_loop fuel din (drop (Z.to_nat n1) p) (wrap32 (off + n1)) (n - n1)
  end.

Definition iappend (inum : Z) (p : list Z) (n : Z) : MK unit :=
  din ← rinode inum;
  let off := xint (get32 di_size din) in
  r ← iappend_loop (Z.to_nat n) din p off n;
  let '(din, off) := r in
  winode inum (put32 di_size (xint off) din).

(** A directory entry with these bytes at the start of its name. *)
Definition mk_dirent_bytes (inum : Z) (name : list Z) : list Z :=
  splice 2 name (put16 0 (xshort inum) (replicate dirent_size 0)).

(** The bytes of the superblock. *)
Definition sb_bytes (sb : superblock) : list Z :=
  mjoin (le_bytes 4 <$> [sb_magic sb; sb_size sb; sb_nblocks sb; sb_ninodes sb; sb_nlog sb; sb_logstart sb;
                         sb_inodestart sb; sb_bmapstart sb]).

(** The name a file gets in the image. *)
Definition shortname (arg : list Z) : list Z := if strncmp (arr arg) (lit "user/") 5 =? 0 then drop 5 arg else arg.
Definition skip_underscore (name : list Z) : list Z := if at_ name 0 =? 95 then drop 1 name else name.

Section main.
Context {H : Host} {R : Reader}.

(** The loop that copies a file, of which [rest] is left. *)
Fixpoint copy_loop (fuel : nat) (inum : Z) (rest : list Z) : MK unit :=
  let cc := read_count BSIZE rest in
  if (cc =? 0)%nat then mret tt else
  match fuel with
  | O => hang
  | S fuel => iappend inum (take cc rest) (Z.of_nat cc);; copy_loop fuel inum (drop cc rest)
  end.

Definition add_file (rootino : Z) (arg : list Z) : MK unit :=
  let name := shortname arg in
  assert (bool_decide (strchr name slash = None));;
  match contents arg with
  | None => die "open"
  | Some data =>
      let name := skip_underscore name in
      assert (length name <=? DIRSIZ)%nat;;
      inum ← mk_ialloc T_FILE;
      iappend rootino (mk_dirent_bytes inum (strncpy_arr name DIRSIZ)) (Z.of_nat dirent_size);;
      copy_loop (length data) inum data
  end.

Definition mk_main (argv : list (list Z)) : MK unit :=
  if (length argv <? 2)%nat then die "usage" else
  assert (BSIZE mod dinode_size =? 0)%nat;;
  assert (BSIZE mod dirent_size =? 0)%nat;;
  if negb (create_ok (nth 1 argv [])) then die "create" else
  modify (set_mk_len 0);;
  let sb := mksuper FSMAGIC (xint FSSIZE) (xint nblocks) (xint NINODES) (xint nlog) (xint 2) (xint (2 + nlog))
              (xint (2 + nlog + ninodeblocks)) in
  modify (set_mk_sb sb);;
  modify (set_mk_freeblock nmeta);;
  for_each (seq 0 (Z.to_nat FSSIZE)) (fun i => wsect (Z.of_nat i) (replicate BSIZE 0));;
  wsect 1 (splice 0 (sb_bytes sb) (replicate BSIZE 0));;
  rootino ← mk_ialloc T_DIR;
  assert (rootino =? ROOTINO);;
  iappend rootino (mk_dirent_bytes rootino [46; 0]) (Z.of_nat dirent_size);;
  iappend rootino (mk_dirent_bytes rootino [46; 46; 0]) (Z.of_nat dirent_size);;
  for_each (drop 2 argv) (add_file rootino);;
  din ← rinode rootino;
  let off := xint (get32 di_size din) in
  let off := wrap32 ((off / Z.of_nat BSIZE + 1) * Z.of_nat BSIZE) in
  winode rootino (put32 di_size (xint off) din);;
  used ← gets mk_freeblock;
  mk_balloc used.

End main.

(** Before [main] runs, with an empty image. *)
Definition mk_init : mkst := mkmkst (fun _ => []) 0 (mksuper 0 0 0 0 0 0 0 0) 1 0.
