(* ===== verification/MkfsFile.v ===== *)
(** * Files of the image ([iappend] of [mkfs.c])

    The free map of the image is written at the end; until then the blocks in
    use are those below [freeblock]. The proofs keep next to the image the disk
    [G] it would be with its free map, on which the theory of files of the
    kernel applies: what [iappend] does to a file is what [writei] does. *)

From stdpp Require Import base gmap strings numbers list.
From S2P Require Import Prelude State Strings Printf Bytes Cache Log LogSpec Fs Bitmap FileData FileWrite Writei Icache Namei Ulib Mkfs.

(** The superblock of the image. *)
Definition sbk : superblock := mksuper FSMAGIC 2000 1953 200 31 2 33 46.

Lemma sbk_ok : sb_ok sbk.
Proof. by split. Qed.

Lemma nmeta_val : nmeta = 47.
Proof. vm_compute. reflexivity. Qed.

#[local] Opaque nmeta in_use alloc_view.

Lemma sbk_map b : 0 <= b < 2000 -> BBLOCK b sbk = 46.
Proof. intros H. unfold BBLOCK. rewrite Z.div_small; [done|]. change (Z.of_nat BPB) with 8192. lia. Qed.

Lemma xint_id x : 0 <= x < 2 ^ 32 -> xint x = x.
Proof.
  intros H. unfold xint, wrap8. rewrite !Z.shiftr_div_pow2 by lia.
  replace [_; _; _; _] with (le_bytes 4 x).
  - rewrite le_val_bytes. by apply Z.mod_small.
  - cbn [le_bytes]. rewrite !Z.div_div by lia. done.
Qed.

Lemma xshort_id x : 0 <= x < 2 ^ 16 -> xshort x = x.
Proof.
  intros H. unfold xshort, wrap8. rewrite !Z.shiftr_div_pow2 by lia.
  replace [_; _] with (le_bytes 2 x) by done. rewrite le_val_bytes. by apply Z.mod_small.
Qed.

Lemma sector_id z : 0 <= z < 2000 -> sector z = z.
Proof.
  intros H. unfold sector. change (Z.of_nat BSIZE) with 1024. rewrite wrap32_small by lia. apply Z.div_mul. lia.
Qed.

(** ** Steps on the image *)

(** The image is [G] but for the free map, which in [G] says what is in use. *)
Record sim (s : mkst) (G : disk) : Prop := {
  sm_sb : mk_sb s = sbk;
  sm_len : mk_len s = 2000;
  sm_img z : z <> 46 -> G z = mk_img s z;
  sm_use b : 0 <= b < 2000 -> in_use sbk G b = (b <? mk_freeblock s);
  sm_map : map_wf sbk G;
  sm_free : nmeta <= mk_freeblock s <= 2000;
  sm_zero z : mk_freeblock s <= z < 2000 -> mk_img s z = replicate BSIZE 0;
  sm_blk z : 0 <= z < 2000 -> length (mk_img s z) = BSIZE
}.

Section steps.
Implicit Types (s : mkst) (G : disk).

Lemma wp_rsect z Q s :
  mk_len s = 2000 -> 0 <= z < 2000 -> Q (mk_img s z) s -> wp (rsect z) Q s.
Proof.
  intros Hl Hz HQ. unfold rsect. apply wp_bind, wp_gets. rewrite Hl, sector_id by done.
  destruct (Z.ltb_spec z 2000); [|lia]. by apply wp_gets.
Qed.

Definition put_sector (z : Z) (v : list Z) (s : mkst) : mkst := set_mk_img (vset z v (mk_img s)) s.

Lemma wp_wsect z v Q s :
  mk_len s = 2000 -> 0 <= z < 2000 -> Q tt (put_sector z v s) -> wp (wsect z v) Q s.
Proof.
  intros Hl Hz HQ. unfold wsect. apply wp_modify. same_state HQ. rewrite sector_id by done.
  unfold put_sector, set_mk_img, set_mk_len. cbn. rewrite Hl. f_equal. lia.
Qed.

Lemma wp_next_block Q s :
  0 <= mk_freeblock s < 2000 -> Q (mk_freeblock s) (set_mk_freeblock (mk_freeblock s + 1) s) -> wp next_block Q s.
Proof.
  intros H HQ. unfold next_block. apply wp_bind, wp_gets. rewrite wrap32_small by lia. apply wp_bind, wp_modify. by apply wp_ret.
Qed.

(** A sector below [freeblock], not of the free map, is overwritten. *)
Lemma sim_put s G z v :
  sim s G -> 0 <= z < mk_freeblock s -> z <> 46 -> length v = BSIZE -> sim (put_sector z v s) (vset z v G).
Proof.
  intros [S1 S2 S3 S4 S5 S6 S7 S8] Hz Hm Hv.
  assert (Hne : forall b, 0 <= b < sb_size sbk -> BBLOCK b sbk <> z) by (intros b Hb; rewrite sbk_map; done).
  assert (HU : forall b, 0 <= b < 2000 -> in_use sbk (vset z v G) b = in_use sbk G b) by (intros b Hb; by apply in_use_other).
  split; cbn; try done.
  - intros z' Hz'. destruct (decide (z' = z)) as [->|E]; [by rewrite !vset_eq|rewrite !vset_ne by done; by apply S3].
  - intros b Hb. rewrite HU by done. by apply S4.
  - destruct S5 as [M1 M2 M3 M4]. split; [by apply map_ok_other| |by rewrite HU|done].
    intros b Hb. rewrite HU; [by apply M2|]. by rewrite sbk_map.
  - intros z' Hz'. rewrite vset_ne by lia. by apply S7.
  - intros z' Hz'. destruct (decide (z' = z)) as [->|E]; [by rewrite vset_eq|rewrite vset_ne by done; by apply S8].
Qed.

End steps.

(** ** The inode in memory *)

(** [din] holds the bytes of the inode. *)
Definition din_is (din : list Z) (x : inode) : Prop := length din = dinode_size /\ dec_dinode 0 din x = x.

Section din.
Implicit Types (din : list Z) (x : inode).

Lemma din_addrs din x : din_is din x -> i_addrs x = (fun i => get32 (di_addrs i) din) <$> seq 0 (NDIRECT + 1).
Proof. intros [_ E]. by rewrite <- E at 1. Qed.

Lemma din_addr din x k : din_is din x -> (k <= NDIRECT)%nat -> get32 (di_addrs k) din = nth k (i_addrs x) 0.
Proof.
  intros H Hk. rewrite (din_addrs _ _ H), nth_lookup, list_lookup_fmap, lookup_seq_lt by (unfold NDIRECT in *; lia). done.
Qed.

(** Overwriting a field. *)
Lemma din_put_addr din x k b :
  din_is din x -> (k <= NDIRECT)%nat -> 0 <= b < 2 ^ 32 ->
  din_is (put32 (di_addrs k) b din) (set_i_addrs (<[k := b]> (i_addrs x)) x).
Proof.
  intros Hd Hk Hb. assert (EA := din_addrs _ _ Hd). destruct Hd as [Hl E]. unfold NDIRECT in Hk. unfold dinode_size in Hl.
  split; [unfold dinode_size; rewrite put_le_length; unfold di_addrs; lia|].
  assert (Ha : (fun i => get32 (di_addrs i) (put32 (di_addrs k) b din)) <$> seq 0 (NDIRECT + 1) = <[k := b]> (i_addrs x)).
  { rewrite EA. apply list_eq. intros i. rewrite list_lookup_fmap. destruct (decide (i < 13)%nat) as [Hi|Hi].
    - rewrite lookup_seq_lt by done. cbn [fmap option_fmap option_map]. destruct (decide (i = k)) as [->|Hne].
      + rewrite list_lookup_insert_eq by (rewrite length_fmap, length_seq; unfold NDIRECT; lia).
        f_equal. rewrite get_put_same by (unfold di_addrs; lia). by apply Z.mod_small.
      + rewrite list_lookup_insert_ne, list_lookup_fmap, lookup_seq_lt by done. cbn [fmap option_fmap option_map]. f_equal.
        apply get_put_other; unfold di_addrs; lia.
    - rewrite !lookup_ge_None_2; [done|rewrite length_insert, length_fmap, length_seq; unfold NDIRECT; lia|rewrite length_seq; unfold NDIRECT; lia]. }
  rewrite <- E. unfold dec_dinode, set_i_addrs. cbn [i_dev i_inum i_ref i_valid i_type i_major i_minor i_nlink i_size i_addrs].
  rewrite !Nat.add_0_l. f_equal; try (first [apply get_put_other | f_equal; apply get_put_other]; unfold di_type, di_major, di_minor, di_nlink, di_size, di_addrs; lia).
  etrans; [exact Ha|]. by rewrite EA.
Qed.

Lemma din_put_size din x v :
  din_is din x -> 0 <= v < 2 ^ 32 -> din_is (put32 di_size v din) (set_i_size v x).
Proof.
  intros [Hl E] Hv. unfold dinode_size in Hl. split; [unfold dinode_size; rewrite put_le_length; unfold di_size; lia|].
  rewrite <- E at 2. unfold dec_dinode, set_i_size. cbn [i_dev i_inum i_ref i_valid i_type i_major i_minor i_nlink i_size i_addrs].
  f_equal; try (first [apply get_put_other | f_equal; apply get_put_other]; unfold di_type, di_major, di_minor, di_nlink, di_size, di_addrs; lia).
  - rewrite get_put_same by (unfold di_size; lia). by apply Z.mod_small.
  - apply list_fmap_ext. intros i k [-> Hk]%lookup_seq. apply get_put_other; unfold di_size, di_addrs, NDIRECT in *; lia.
Qed.

End din.

(** ** Finding or allocating a block *)

Section block.
Implicit Types (s : mkst) (G : disk) (x : inode) (din : list Z).

(** The block [freeblock] is taken. *)
Lemma sim_alloc s G (f := mk_freeblock s) :
  sim s G -> f < 2000 ->
  in_use sbk G f = false /\ 0 <= f < sb_size sbk /\ sim (set_mk_freeblock (f + 1) s) (alloc_view sbk f G).
Proof.
  intros S Hf. destruct (S) as [S1 S2 S3 S4 S5 S6 S7 S8]. fold f in S4, S6, S7. assert (Hn := nmeta_val).
  assert (Hfree : in_use sbk G f = false) by (rewrite S4 by lia; apply Z.ltb_irrefl).
  split_and!; [done|lia|cbn; lia|].
  destruct (alloc_view_spec sbk G f) as (A1 & A2 & A3 & A4 & A5); [apply sbk_ok|apply S5..|cbn; lia|done|].
  destruct (map_wf_alloc sbk sbk_ok G f) as (_ & M & _); [done|cbn; lia|done|].
  split; cbn [mk_sb mk_len mk_img mk_freeblock set_mk_freeblock]; [exact S1|exact S2| | |exact M| | |exact S8].
  - intros z Hz. destruct (decide (z = f)) as [->|Hne]; [rewrite A3; symmetry; apply S7; lia|].
    rewrite A5; [by apply S3|done|]. rewrite sbk_map; [done|lia].
  - intros b Hb. rewrite A4 by done. case_decide as E; [subst b; symmetry; apply Z.ltb_lt; lia|]. rewrite S4 by done.
    destruct (Z.ltb_spec b f), (Z.ltb_spec b (f + 1)); [reflexivity|lia|lia|reflexivity].
  - lia.
  - intros z Hz. apply S7. lia.
Qed.

(** Block [bn] of the file is there, and no other has been added. *)
Record placed (bn : nat) x G x' G' (n : Z) : Prop := {
  pl_grown : fgrown sbk x G x' G';
  pl_there : addr_of x' G' bn <> 0;
  pl_others k : (k < MAXFILE)%nat -> k <> bn -> addr_of x' G' k = addr_of x G k;
  pl_ind : (ind_addr x' = 0 <-> ind_addr x = 0 /\ (bn < NDIRECT)%nat);
  pl_count : n = Zb (addr_of x G bn =? 0) + Zb ((NDIRECT <=? bn)%nat && (ind_addr x =? 0))
}.

(** A fresh block for [bn] adds no other. *)
Lemma fresh_others b bn x G x' G' k :
  fresh_step sbk b x G x' G' -> addr_of x' G' bn = b -> (bn < MAXFILE)%nat -> (k < MAXFILE)%nat -> k <> bn ->
  addr_of x' G' k = addr_of x G k.
Proof.
  intros F Hb Hbn Hk Hne. destruct (fs_addr _ _ _ _ _ _ F k Hk) as [|[_ E]]; [done|].
  destruct Hne. by apply (fs_one _ _ _ _ _ _ F).
Qed.

Lemma wp_iappend_direct (bn : nat) din x Q s G :
  sim s G -> ino_wf sbk x G -> din_is din x -> (bn < NDIRECT)%nat -> mk_freeblock s + Zb (addr_of x G bn =? 0) <= 2000 ->
  (forall din' x' G' s' n, sim s' G' -> din_is din' x' -> placed bn x G x' G' n -> mk_freeblock s' = mk_freeblock s + n ->
     mk_freeinode s' = mk_freeinode s -> Q (din', addr_of x' G' bn) s') ->
  wp (iappend_block din (Z.of_nat bn)) Q s.
Proof.
  intros S Wx Hd Hbn Hroom HQ. unfold iappend_block. destruct (Z.ltb_spec (Z.of_nat bn) (Z.of_nat NDIRECT)); [|lia].
  rewrite Nat2Z.id. assert (HM : (bn < MAXFILE)%nat) by (unfold MAXFILE; lia).
  assert (Ea : addr_of x G bn = nth bn (i_addrs x) 0) by (unfold addr_of; by destruct (Nat.ltb_spec bn NDIRECT); [|lia]).
  assert (Hr : 0 <= addr_of x G bn < 2 ^ 32).
  { destruct (decide (addr_of x G bn = 0)) as [->|H0]; [lia|]. destruct (iw_data _ _ _ Wx bn HM H0) as [R _ _ _]. cbn in R. lia. }
  assert (Hcnt : (NDIRECT <=? bn)%nat = false) by (apply Nat.leb_gt; lia).
  rewrite (din_addr _ _ _ Hd), <- Ea, xint_id by (done || lia). destruct (Z.eqb_spec (addr_of x G bn) 0) as [H0|H0].
  - cbn in Hroom. assert (Hn := nmeta_val). assert (Hf := sm_free _ _ S).
    destruct (sim_alloc s G S) as (Hu & Hfr & S'); [lia|]. set (f := mk_freeblock s) in *.
    destruct (fresh_direct sbk sbk_ok x G f Wx (sm_map _ _ S) Hfr Hu bn Hbn H0) as [F Eb].
    set (x' := set_i_addrs _ x) in *. set (G' := alloc_view sbk f G) in *.
    assert (Hd' : din_is (put32 (di_addrs bn) f din) x') by (apply din_put_addr; [done|lia|lia]).
    apply wp_bind, wp_bind, wp_next_block; [fold f; lia|]. fold f. apply wp_ret. rewrite xint_id by lia. apply wp_ret.
    assert (Eg : xint (get32 (di_addrs bn) (put32 (di_addrs bn) f din)) = addr_of x' G' bn).
    { rewrite (din_addr _ _ bn Hd'), Eb by lia. unfold x'. cbn. rewrite nth_lookup, list_lookup_insert_eq; [by apply xint_id; lia|].
      rewrite (iw_len _ _ _ Wx). lia. }
    rewrite Eg. apply (HQ _ x' G' _ 1); [done|done| |done|done]. split.
    + by eapply fresh_grown.
    + rewrite Eb. lia.
    + intros k Hk Hne. by eapply fresh_others.
    + destruct (fs_ind _ _ _ _ _ _ F) as [->|(_ & _ & Hno)]; [|by destruct (Hno bn HM)]. split; [by split|by intros []].
    + rewrite H0, Hcnt. done.
  - apply wp_bind, wp_ret, wp_ret. rewrite (din_addr _ _ bn Hd), <- Ea, xint_id by (done || lia).
    apply (HQ din x G s 0); [done|done| |lia|done]. split; [by apply fgrown_refl; [|apply S]|done|done|split; [by split|by intros []]|].
    rewrite Hcnt. by destruct (Z.eqb_spec (addr_of x G bn) 0).
Qed.

(** A data block is a sector below [freeblock], not of the free map. *)
Lemma data_sector s G a : sim s G -> data_block sbk G a -> 0 <= a < 2000 /\ a < mk_freeblock s /\ a <> 46 /\ mk_img s a = G a.
Proof.
  intros S [R U N _]. cbn in R. rewrite (sm_use _ _ S) in U by lia. apply Z.ltb_lt in U.
  assert (a <> 46) by (intros ->; apply (N 1); [by cbn|]; by rewrite sbk_map). split_and!; [lia|lia|done|done|].
  symmetry. by apply (sm_img _ _ S).
Qed.

(** The indirect block is there, or allocated. *)
Lemma wp_iappend_ind din x Q s G :
  sim s G -> ino_wf sbk x G -> din_is din x -> mk_freeblock s + Zb (ind_addr x =? 0) <= 2000 ->
  (forall din' x' G' s', sim s' G' -> din_is din' x' -> fgrown sbk x G x' G' -> ind_addr x' <> 0 ->
     (forall k, (k < MAXFILE)%nat -> addr_of x' G' k = addr_of x G k) ->
     mk_freeblock s' = mk_freeblock s + Zb (ind_addr x =? 0) -> mk_freeinode s' = mk_freeinode s -> Q din' s') ->
  wp (if xint (get32 (di_addrs NDIRECT) din) =? 0 then b ← next_block; mret (put32 (di_addrs NDIRECT) (xint b) din) else mret din) Q s.
Proof.
  intros S Wx Hd Hroom HQ. assert (Hn := nmeta_val). assert (Hf := sm_free _ _ S).
  rewrite (din_addr _ _ NDIRECT Hd) by lia. fold (ind_addr x).
  assert (Hr : 0 <= ind_addr x < 2 ^ 32).
  { destruct (decide (ind_addr x = 0)) as [->|H0]; [lia|]. destruct (iw_ind _ _ _ Wx H0) as [R _ _ _]. cbn in R. lia. }
  rewrite xint_id by done. destruct (Z.eqb_spec (ind_addr x) 0) as [H0|H0].
  - cbn [Zb] in *. destruct (sim_alloc s G S) as (Hu & Hfr & S'); [lia|]. set (f := mk_freeblock s) in *.
    destruct (fresh_indirect sbk sbk_ok x G f Wx (sm_map _ _ S) Hfr Hu H0) as [F Eb].
    set (x' := set_i_addrs _ x) in *. set (G' := alloc_view sbk f G) in *.
    assert (Hd' : din_is (put32 (di_addrs NDIRECT) f din) x') by (apply din_put_addr; [done|lia|lia]).
    apply wp_bind, wp_next_block; [fold f; lia|]. fold f. apply wp_ret. rewrite xint_id by lia.
    apply (HQ _ x' G'); [done|done|by eapply fresh_grown|rewrite Eb; lia| |done|done].
    intros k Hk. destruct (fs_addr _ _ _ _ _ _ F k Hk) as [|[_ E]]; [done|].
    destruct (fs_ind _ _ _ _ _ _ F) as [E'|(_ & _ & Hno)]; [lia|by destruct (Hno k Hk)].
  - apply wp_ret. apply (HQ din x G s); [done|done|by apply fgrown_refl; [|apply S]|done|done|cbn [Zb]; lia|done].
Qed.

Lemma wp_iappend_block (bn : nat) din x Q s G :
  sim s G -> ino_wf sbk x G -> din_is din x -> (bn < MAXFILE)%nat ->
  mk_freeblock s + Zb (addr_of x G bn =? 0) + Zb ((NDIRECT <=? bn)%nat && (ind_addr x =? 0)) <= 2000 ->
  (forall din' x' G' s' n, sim s' G' -> din_is din' x' -> placed bn x G x' G' n -> mk_freeblock s' = mk_freeblock s + n ->
     mk_freeinode s' = mk_freeinode s -> Q (din', addr_of x' G' bn) s') ->
  wp (iappend_block din (Z.of_nat bn)) Q s.
Proof.
  intros S Wx Hd Hbn Hroom HQ. assert (Hn := nmeta_val). destruct (Nat.leb_spec NDIRECT bn) as [Hge|Hlt]; cbn [andb] in Hroom.
  2: { apply (wp_iappend_direct bn din x Q s G); [done..|cbn [Zb] in Hroom; lia|done]. }
  unfold iappend_block. destruct (Z.ltb_spec (Z.of_nat bn) (Z.of_nat NDIRECT)); [lia|].
  replace (Z.to_nat (Z.of_nat bn - Z.of_nat NDIRECT)) with (bn - NDIRECT)%nat by lia. set (j := (bn - NDIRECT)%nat).
  assert (Hz : forall b, 0 <= Zb b) by by intros []. assert (Hz0 := Hz (addr_of x G bn =? 0)).
  apply wp_bind, (wp_iappend_ind din x _ s G); [done..|lia|]. intros din1 x1 G1 s1 S1 Hd1 Gr1 Hi1 Ha1 Hf1 Hfi1.
  assert (W1 := gr_wf _ _ _ _ _ Gr1). assert (Di := iw_ind _ _ _ W1 Hi1).
  destruct (data_sector _ _ _ S1 Di) as (Hir & Hif & Hi46 & Eimg).
  rewrite (din_addr _ _ NDIRECT Hd1) by lia. fold (ind_addr x1). rewrite xint_id by lia.
  apply wp_bind, wp_rsect; [apply S1|done|]. rewrite Eimg.
  assert (Hj : (j < NINDIRECT)%nat) by (unfold MAXFILE in Hbn; unfold j; lia).
  assert (Ea : addr_of x1 G1 bn = get32 (4 * j) (G1 (ind_addr x1))).
  { unfold addr_of. destruct (Nat.ltb_spec bn NDIRECT); [lia|].
    destruct (Z.eqb_spec (ind_addr x1) 0) as [E|_]; [destruct (Hi1 E)|reflexivity]. }
  rewrite <- Ea, Ha1 by done. destruct (Z.eqb_spec (addr_of x G bn) 0) as [H0|H0].
  - cbn [Zb] in Hroom. assert (Hf1' := sm_free _ _ S1).
    destruct (sim_alloc s1 G1 S1) as (Hu & Hfr & S2); [lia|]. set (f := mk_freeblock s1) in *.
    destruct (fresh_entry sbk sbk_ok x1 G1 f W1 (sm_map _ _ S1) Hfr Hu bn) as [F Eb]; [lia|done|by rewrite Ha1|]. fold j in F, Eb.
    set (G2 := entry_view sbk x1 G1 f j) in *. set (ib := put32 (4 * j) f (G1 (ind_addr x1))) in *.
    assert (Hlen : length ib = BSIZE).
    { unfold ib. rewrite put_le_length; [apply Di|]. rewrite (db_len _ _ _ Di). change NINDIRECT with 256%nat in Hj. unfold BSIZE. lia. }
    assert (S3 : sim (put_sector (ind_addr x1) ib (set_mk_freeblock (f + 1) s1)) G2) by (apply sim_put; [done|cbn; lia|done|done]).
    apply wp_bind, wp_bind, wp_next_block; [fold f; lia|]. fold f. rewrite (xint_id f) by lia. cbv zeta. fold ib.
    apply wp_bind, wp_wsect; [apply S2|done|]. apply wp_ret, wp_ret.
    assert (Ef : xint (get32 (4 * j) ib) = addr_of x1 G2 bn).
    { rewrite Eb. assert (E := ind_put j j f (G1 (ind_addr x1)) (db_len _ _ _ Di) Hj Hj ltac:(lia)). rewrite decide_True in E by done.
      unfold ind in E. fold ib in E. rewrite E. apply xint_id. lia. }
    rewrite Ef. apply (HQ din1 x1 G2 _ (1 + Zb (ind_addr x =? 0))); [done|done| |cbn; lia|done]. split.
    + eapply fgrown_trans; [done|exact Gr1|]. by eapply fresh_grown.
    + rewrite Eb. lia.
    + intros k Hk Hne. rewrite (fresh_others f bn x1 G1 x1 G2 k) by done. by apply Ha1.
    + split; [intros E; destruct (Hi1 E)|intros [_ ?]; lia].
    + rewrite H0. destruct (Nat.leb_spec NDIRECT bn); [done|lia].
  - apply wp_bind, wp_ret, wp_ret.
    assert (Hr : 0 <= addr_of x G bn < 2 ^ 32) by (destruct (iw_data _ _ _ Wx bn Hbn H0) as [R _ _ _]; cbn in R; lia).
    rewrite <- Ea, xint_id by by rewrite Ha1.
    apply (HQ din1 x1 G1 s1 (Zb (ind_addr x =? 0))); [done|done| |done|done]. split.
    + done.
    + by rewrite Ha1.
    + intros k Hk _. by apply Ha1.
    + split; [intros E; destruct (Hi1 E)|intros [_ ?]; lia].
    + destruct (Z.eqb_spec (addr_of x G bn) 0) as [E|_]; [destruct (H0 E)|]. destruct (Nat.leb_spec NDIRECT bn); [cbn [andb Zb]; lia|lia].
Qed.

End block.

(** ** Appending *)

(** A file of [sz] bytes has the blocks for them and no other. *)
Record dense (x : inode) (G : disk) (sz : nat) : Prop := {
  dn_data bn : (bn < MAXFILE)%nat -> addr_of x G bn = 0 <-> (sz <= bn * BSIZE)%nat;
  dn_ind : ind_addr x = 0 <-> (sz <= NDIRECT * BSIZE)%nat
}.

(** The number of blocks of a file of [sz] bytes. *)
Definition nblk (sz : nat) : Z := Z.of_nat ((sz + (BSIZE - 1)) / BSIZE) + Zb (NDIRECT * BSIZE <? sz)%nat.

Section append.
Implicit Types (s : mkst) (G : disk) (x : inode) (din p : list Z) (off m : nat).

Lemma block_before off (bn : nat) : (off <= bn * BSIZE)%nat <-> (off / BSIZE < bn \/ off / BSIZE = bn /\ off mod BSIZE = 0)%nat.
Proof.
  pose proof BSIZE_pos. pose proof (Nat.div_mod_eq off BSIZE). pose proof (Nat.mod_upper_bound off BSIZE ltac:(lia)). nia.
Qed.

Lemma next_before off m (bn : nat) : (0 < m <= BSIZE - off mod BSIZE)%nat ->
  (off + m <= bn * BSIZE)%nat <-> (off <= bn * BSIZE)%nat /\ (bn <> off / BSIZE)%nat.
Proof.
  intros Hm. pose proof BSIZE_pos. pose proof (Nat.div_mod_eq off BSIZE). pose proof (Nat.mod_upper_bound off BSIZE ltac:(lia)).
  rewrite (block_before off bn). set (q := (off / BSIZE)%nat) in *. split.
  - intros Ha. assert (q < bn)%nat; [|lia]. apply Nat.nle_gt. intros Hb. apply (Nat.mul_le_mono_r _ _ BSIZE) in Hb. lia.
  - intros [Ha Hb]. assert (Hc : (S q <= bn)%nat) by lia. apply (Nat.mul_le_mono_r _ _ BSIZE) in Hc. lia.
Qed.

Lemma ceil_next off m : (0 < m <= BSIZE - off mod BSIZE)%nat ->
  ((off + m + (BSIZE - 1)) / BSIZE = (off + (BSIZE - 1)) / BSIZE + if decide (off mod BSIZE = 0) then 1 else 0)%nat.
Proof.
  intros Hm. pose proof BSIZE_pos. pose proof (Nat.div_mod_eq off BSIZE). pose proof (Nat.mod_upper_bound off BSIZE ltac:(lia)).
  set (q := (off / BSIZE)%nat) in *. set (r := (off mod BSIZE)%nat) in *.
  assert (E1 : ((off + m + (BSIZE - 1)) / BSIZE = S q)%nat).
  { symmetry. apply (Nat.div_unique _ _ _ (r + m - 1)); nia. }
  rewrite E1. case_decide as Hr.
  - assert (E2 : ((off + (BSIZE - 1)) / BSIZE = q)%nat) by (symmetry; apply (Nat.div_unique _ _ _ (BSIZE - 1)); nia). lia.
  - assert (E2 : ((off + (BSIZE - 1)) / BSIZE = S q)%nat) by (symmetry; apply (Nat.div_unique _ _ _ (r - 1)); nia). lia.
Qed.

Lemma nblk_mono off off' : (off <= off')%nat -> nblk off <= nblk off'.
Proof.
  intros H. unfold nblk. assert ((off + (BSIZE - 1)) / BSIZE <= (off' + (BSIZE - 1)) / BSIZE)%nat.
  { apply Nat.Div0.div_le_mono. lia. }
  destruct (Nat.ltb_spec (NDIRECT * BSIZE) off), (Nat.ltb_spec (NDIRECT * BSIZE) off'); cbn [Zb]; lia.
Qed.

(** A turn of the loop. *)
Lemma nblk_turn off m x G (bn := (off / BSIZE)%nat) :
  dense x G off -> (0 < m <= BSIZE - off mod BSIZE)%nat -> (bn < MAXFILE)%nat ->
  nblk (off + m) = nblk off + (Zb (addr_of x G bn =? 0) + Zb ((NDIRECT <=? bn)%nat && (ind_addr x =? 0))).
Proof.
  intros [D1 D2] Hm Hbn. unfold nblk. rewrite ceil_next by done. pose proof BSIZE_pos.
  assert (E1 : Zb (addr_of x G bn =? 0) = Z.of_nat (if decide (off mod BSIZE = 0) then 1 else 0)%nat).
  { specialize (D1 bn Hbn). rewrite block_before in D1. fold bn in D1. destruct (Z.eqb_spec (addr_of x G bn) 0) as [H0|H0]; case_decide; cbn [Zb]; try lia; tauto || (apply D1 in H0; lia). }
  assert (E2 : Zb (NDIRECT * BSIZE <? off + m)%nat = Zb (NDIRECT * BSIZE <? off)%nat + Zb ((NDIRECT <=? bn)%nat && (ind_addr x =? 0))).
  { assert (N := next_before off m NDIRECT Hm). fold bn in N. assert (B := block_before off NDIRECT). fold bn in B.
    destruct (Nat.ltb_spec (NDIRECT * BSIZE) (off + m)), (Nat.ltb_spec (NDIRECT * BSIZE) off), (Nat.leb_spec NDIRECT bn),
      (Z.eqb_spec (ind_addr x) 0) as [Hi|Hi]; cbn [Zb andb]; try lia; exfalso; try (apply D2 in Hi; lia); try (apply Hi, D2; lia); lia. }
  lia.
Qed.

Lemma dense_turn off m x G x' G' n (bn := (off / BSIZE)%nat) :
  dense x G off -> (0 < m <= BSIZE - off mod BSIZE)%nat -> (bn < MAXFILE)%nat -> placed bn x G x' G' n -> dense x' G' (off + m).
Proof.
  intros [D1 D2] Hm Hbn [_ Pt Po Pi _]. split.
  - intros k Hk. rewrite next_before by done. fold bn. destruct (decide (k = bn)) as [->|Hne]; [tauto|].
    rewrite Po, D1 by done. tauto.
  - rewrite Pi, D2, (next_before off m NDIRECT) by done. fold bn. split.
    + intros [H Hlt]. split; [done|lia].
    + intros [H Hne]. split; [done|]. apply block_before in H. fold bn in H. lia.
Qed.

(** Storing into a block of the file changes no address. *)
Lemma dense_store x G a v sz : dense x G sz -> ind_addr x <> a -> dense x (vset a v G) sz.
Proof.
  intros [D1 D2] Ha. split; [|done]. intros bn Hbn. rewrite <- D1 by done. unfold addr_of. by rewrite vset_ne.
Qed.

Lemma wp_iappend_loop fuel off p din x Q s G :
  sim s G -> ino_wf sbk x G -> din_is din x -> dense x G off -> (off + length p <= MAXFILE * BSIZE)%nat ->
  (length p <= fuel)%nat -> mk_freeblock s + (nblk (off + length p) - nblk off) <= 2000 ->
  (forall din' x' G' s', sim s' G' -> din_is din' x' -> wrote sbk x G off p x' G' -> dense x' G' (off + length p) ->
     mk_freeblock s' = mk_freeblock s + (nblk (off + length p) - nblk off) -> mk_freeinode s' = mk_freeinode s ->
     Q (din', Z.of_nat (off + length p)) s') ->
  wp (iappend_loop fuel din p (Z.of_nat off) (Z.of_nat (length p))) Q s.
Proof.
  revert off p din x s G. induction fuel as [|fuel IH]; intros off p din x s G S Wx Hd Dn Hmax Hf Hroom HQ; cbn [iappend_loop];
    destruct (Z.leb_spec (Z.of_nat (length p)) 0) as [Hz|Hpos]; [|lia|..].
  1, 2: assert (length p = 0)%nat as E0 by lia; apply nil_length_inv in E0; subst p; cbn [length] in *; rewrite Nat.add_0_r in *;
    apply wp_ret, (HQ din x G s); [done|done|by apply wrote_grown, fgrown_refl, S|done|lia|done].
  assert (Hmx : Z.of_nat (MAXFILE * BSIZE) < 2 ^ 31) by by rewrite Nat2Z.inj_mul.
  pose proof BSIZE_pos as HB. pose proof (Nat.mod_upper_bound off BSIZE ltac:(lia)) as Hmod. pose proof (Nat.div_mod_eq off BSIZE) as Hdm.
  assert (Hbn : (off / BSIZE < MAXFILE)%nat) by (apply block_lt; lia). set (bn := (off / BSIZE)%nat) in *.
  rewrite <- Nat2Z.inj_div. fold bn. unfold assert. destruct (Z.ltb_spec (Z.of_nat bn) (Z.of_nat MAXFILE)); [|lia].
  apply wp_bind, wp_ret. set (m := Nat.min (length p) (BSIZE - off mod BSIZE)).
  assert (Hm : (0 < m <= BSIZE - off mod BSIZE)%nat /\ (m <= length p)%nat) by (unfold m; lia). destruct Hm as [Hm Hml].
  assert (Hmono := nblk_mono (off + m) (off + length p) ltac:(lia)).
  assert (Hcnt := nblk_turn off m x G Dn Hm Hbn). fold bn in Hcnt.
  apply wp_bind, (wp_iappend_block bn din x _ s G); [done..|lia|]. intros din1 x1 G1 s1 n S1 Hd1 Pl Hf1 Hfi1.
  assert (Dn1 := dense_turn off m x G x1 G1 n Dn Hm Hbn Pl). destruct Pl as [Gr Hthere _ _ Hn]. set (a := addr_of x1 G1 bn) in *.
  assert (W1 := gr_wf _ _ _ _ _ Gr). assert (Da := iw_data _ _ _ W1 bn Hbn Hthere). fold a in Da.
  destruct (data_sector _ _ _ S1 Da) as (Har & Haf & Ha46 & Eimg).
  assert (Hni : ind_addr x1 <> a) by (intros E; by apply (iw_noind _ _ _ W1 bn)).
  cbv zeta. apply wp_bind, wp_rsect; [apply S1|done|]. rewrite Eimg.
  assert (En1 : Z.min (Z.of_nat (length p)) (wrap32 ((Z.of_nat bn + 1) * Z.of_nat BSIZE - Z.of_nat off)) = Z.of_nat m).
  { assert (Z.of_nat BSIZE < 2 ^ 32) by reflexivity. rewrite wrap32_small by lia. unfold m. lia. }
  rewrite En1, Nat2Z.id. replace (Z.to_nat (Z.of_nat off - Z.of_nat bn * Z.of_nat BSIZE)) with (off mod BSIZE)%nat by lia.
  assert (Hlm : length (take m p) = m) by (rewrite length_take; lia). set (v := splice (off mod BSIZE) (take m p) (G1 a)).
  assert (Hv : length v = BSIZE) by (unfold v; rewrite splice_length; rewrite (db_len _ _ _ Da), ?Hlm; lia).
  apply wp_bind, wp_wsect; [apply S1|done|]. assert (S2 := sim_put s1 G1 a v S1 ltac:(lia) Ha46 Hv).
  assert (Wr : wrote sbk x1 G1 off (take m p) x1 (vset a v G1)).
  { apply wrote_block; [done|apply S1|done|done|done|rewrite Hlm; lia]. }
  rewrite wrap32_small by lia. rewrite <- Nat2Z.inj_add, <- Nat2Z.inj_sub by lia. rewrite <- (length_drop p m).
  assert (El : (off + m + length (drop m p) = off + length p)%nat) by (rewrite length_drop; lia).
  apply (IH (off + m)%nat (drop m p) din1 x1 _ (vset a v G1)); rewrite ?El; [done|apply Wr|done|by apply dense_store|done|lia|cbn; lia|].
  intros din2 x2 G2 s2 S3 Hd2 Wr2 Dn2 Hf2 Hfi2.
  apply (HQ din2 x2 G2); [done|done| |done|cbn in Hf2; lia|by rewrite Hfi2].
  rewrite <- (take_drop m p). eapply (wrote_app sbk x G off (take m p) x1 (vset a v G1)); [done| |by rewrite Hlm|rewrite Hlm, length_drop; lia].
  apply (wrote_app sbk x G off [] x1 G1 (take m p)); [done|by apply wrote_grown|by rewrite Nat.add_0_r|cbn [length]; rewrite Hlm; lia].
Qed.

End append.
