(* ===== verification/MkfsSpec.v ===== *)
(** * The image [mkfs] makes

    [built] relates the image to the files put into it: inode [i + 1] holds
    file [i], no block belongs to two files, and exactly the blocks of the
    files are allocated. Every step of [mkfs] keeps it. *)

From stdpp Require Import base gmap strings numbers list.
From S2P Require Import Prelude State Strings Printf Bytes Cache Log LogSpec Fs Bitmap FileData FileWrite Writei Icache Namei Ulib Mkfs MkfsFile.

#[local] Opaque nmeta in_use alloc_view.

(** ** Slots of inodes *)

Lemma IBLOCK_sbk inum : 0 <= inum < 208 -> IBLOCK inum sbk = 33 + inum / 16 /\ 33 <= IBLOCK inum sbk <= 45.
Proof.
  intros H. unfold IBLOCK. change (Z.of_nat IPB) with 16. cbn [sb_inodestart sbk].
  assert (0 <= inum / 16 < 13) by (split; [apply Z.div_pos; lia|apply Z.div_lt_upper_bound; lia]).
  rewrite wrap32_small by lia. lia.
Qed.

Lemma dinode_off_sbk inum : dinode_off inum = (64 * Z.to_nat (inum mod 16))%nat.
Proof. unfold dinode_off, dinode_size. change (Z.of_nat IPB) with 16. lia. Qed.

Section slots.
Implicit Types (l din : list Z) (x : inode).

Lemma get_slice n (off m k : nat) l : (k + n <= m)%nat -> get_le n k (slice off m l) = get_le n (off + k) l.
Proof.
  intros H. unfold get_le, slice. f_equal. rewrite skipn_firstn_comm, drop_drop, take_take. f_equal; lia.
Qed.

Lemma get_splice_in n (off k : nat) din l :
  (k + n <= length din)%nat -> (off + length din <= length l)%nat -> get_le n (off + k) (splice off din l) = get_le n k din.
Proof.
  intros H1 H2. rewrite <- (get_slice n off (length din) k) by lia. by rewrite slice_splice_same.
Qed.

(** Reading the inode of a slot. *)
Lemma dec_slice (off : nat) l x : dec_dinode 0 (slice off dinode_size l) x = dec_dinode off l x.
Proof.
  unfold dec_dinode, dinode_size, di_type, di_major, di_minor, di_nlink, di_size, di_addrs, NDIRECT.
  rewrite !get_slice by lia. f_equal. apply list_fmap_ext. intros i k [-> Hk]%lookup_seq. by rewrite get_slice by lia.
Qed.

Lemma dec_splice_same (off : nat) din l x :
  length din = dinode_size -> (off + dinode_size <= length l)%nat -> dec_dinode off (splice off din l) x = dec_dinode 0 din x.
Proof.
  intros H1 H2. rewrite <- dec_slice. f_equal. rewrite <- H1. apply slice_splice_same. lia.
Qed.

Lemma dec_splice_other (off off' : nat) din l x :
  length din = dinode_size -> (off + dinode_size <= length l)%nat -> (off' + dinode_size <= length l)%nat ->
  (off + dinode_size <= off' \/ off' + dinode_size <= off)%nat -> dec_dinode off' (splice off din l) x = dec_dinode off' l x.
Proof.
  intros H1 H2 H3 H4. rewrite <- !(dec_slice off'). f_equal. apply slice_splice_out; lia.
Qed.

(** The slot of an inode on the disk. *)
Definition slot_view (inum : Z) (din : list Z) (G : disk) : disk :=
  let z := IBLOCK inum sbk in vset z (splice (dinode_off inum) din (G z)) G.

Lemma node_slot_same (inum : Z) din x (G : disk) :
  0 <= inum < 208 -> length (G (IBLOCK inum sbk)) = BSIZE -> din_is din x -> x = set_i_addrs (i_addrs x) (set_i_size (i_size x)
    (mkinode 0 inum 0 false (i_type x) (i_major x) (i_minor x) (i_nlink x) 0 [])) ->
  node sbk (slot_view inum din G) inum = x.
Proof.
  intros Hi Hl [Hd E] Ex. unfold node, slot_view. rewrite vset_eq.
  rewrite dec_splice_same by (done || by apply dinode_off_lt). rewrite <- E. rewrite Ex. done.
Qed.

Lemma node_slot_other (inum j : Z) din (G : disk) :
  0 <= inum < 208 -> 0 <= j < 208 -> j <> inum -> length din = dinode_size -> length (G (IBLOCK inum sbk)) = BSIZE ->
  node sbk (slot_view inum din G) j = node sbk G j.
Proof.
  intros Hi Hj Hne Hd Hl. unfold node, slot_view. destruct (IBLOCK_sbk inum Hi) as [Ei _], (IBLOCK_sbk j Hj) as [Ej _].
  destruct (decide (IBLOCK j sbk = IBLOCK inum sbk)) as [E|E]; [|by rewrite vset_ne]. rewrite E, vset_eq.
  pose proof (Z.div_mod inum 16). pose proof (Z.div_mod j 16).
  pose proof (Z.mod_pos_bound inum 16). pose proof (Z.mod_pos_bound j 16).
  apply dec_splice_other; [done|by apply dinode_off_lt|by apply dinode_off_lt|].
  rewrite !dinode_off_sbk. unfold dinode_size. lia.
Qed.

End slots.

(** ** Files *)

(** The inode [x] holds a file of this type with this size, of which the bytes
    are these and then zeros. *)
Record holds (x : inode) (G : disk) (ty sz : Z) (bytes : list Z) : Prop := {
  ho_type : i_type x = ty;
  ho_nlink : i_nlink x = 1;
  ho_size : i_size x = sz;
  ho_max : (length bytes <= MAXFILE * BSIZE)%nat;
  ho_wf : ino_wf sbk x G;
  ho_dense : dense x G (length bytes);
  ho_bytes i : (i < MAXFILE * BSIZE)%nat -> fbyte x G i = nth i bytes 0;
  ho_home a : owns x G a -> nmeta <= a
}.

Section files.
Implicit Types (x : inode) (G : disk) (bytes : list Z).

Lemma owns_addrs x G G' a : (forall bn, addr_of x G' bn = addr_of x G bn) -> owns x G' a <-> owns x G a.
Proof. intros E. unfold owns. by setoid_rewrite E. Qed.

(** What happens elsewhere does not matter to a file. *)
Lemma holds_ext x G G' ty sz bytes :
  holds x G ty sz bytes -> (forall z, owns x G z -> G' z = G z /\ in_use sbk G' z = true) ->
  holds x G' ty sz bytes /\ (forall a, owns x G' a <-> owns x G a).
Proof.
  intros [H1 H2 H3 H4 W [D1 D2] B Ho] HE.
  assert (EA : forall bn, addr_of x G' bn = addr_of x G bn).
  { intros bn. unfold addr_of. destruct (bn <? NDIRECT)%nat; [done|]. destruct (Z.eqb_spec (ind_addr x) 0) as [|Hi]; [done|].
    destruct (HE (ind_addr x)) as [-> _]; [split; [done|by left]|done]. }
  assert (EO : forall a, owns x G' a <-> owns x G a) by (intros a; by apply owns_addrs).
  assert (ED : forall a, owns x G a -> data_block sbk G a -> data_block sbk G' a).
  { intros a Ha [R U N L]. destruct (HE a Ha) as [E U']. split; [done|done|done|by rewrite E]. }
  split; [|exact EO]. split; [done..| | | |].
  - destruct W as [W1 W2 W3 W4 W5]. split; [exact W1| | | |].
    + intros bn Hbn. rewrite EA. intros H0. apply ED; [split; [done|right; by exists bn]|by apply W2].
    + intros H0. apply ED; [split; [done|by left]|by apply W3].
    + intros bn bn'. rewrite !EA. apply W4.
    + intros bn. rewrite EA. apply W5.
  - split; [intros bn Hbn; rewrite EA; by apply D1|done].
  - intros i Hi. rewrite <- B by done. unfold fbyte, fblock. rewrite EA. destruct (Z.eqb_spec (addr_of x G (i / BSIZE)) 0) as [|H0]; [done|].
    destruct (HE (addr_of x G (i / BSIZE))) as [-> _]; [|done]. split; [done|right; exists (i / BSIZE)%nat; split; [by apply block_lt|done]].
  - intros a Ha. by apply Ho, EO.
Qed.

(** The size is not part of what the blocks say. *)
Lemma holds_size x G ty sz sz' bytes : holds x G ty sz bytes -> holds (set_i_size sz' x) G ty sz' bytes.
Proof. intros [H1 H2 H3 H4 [W1 W2 W3 W4 W5] [D1 D2] B Ho]. split; [exact H1|exact H2|reflexivity|exact H4| |by split|exact B|exact Ho]. by split. Qed.

Lemma nth_app_at (i : nat) bytes (p : list Z) :
  nth i (bytes ++ p) 0 = if decide (length bytes <= i < length bytes + length p)%nat then nth (i - length bytes) p 0 else nth i bytes 0.
Proof.
  case_decide as H; [by apply app_nth2; lia|]. destruct (decide (i < length bytes)%nat); [by apply app_nth1|].
  rewrite !nth_overflow; [done|lia|rewrite length_app; lia].
Qed.

(** Appending to a file. *)
Lemma holds_append x G x' G' s ty sz bytes p :
  sim s G -> holds x G ty sz bytes -> (length bytes + length p <= MAXFILE * BSIZE)%nat ->
  wrote sbk x G (length bytes) p x' G' -> dense x' G' (length bytes + length p) -> holds x' G' ty sz (bytes ++ p).
Proof.
  intros Sm [H1 H2 H3 H4 W D B Ho] Hmax Wr Dn. assert (Ex := wr_x _ _ _ _ _ _ _ Wr).
  split; rewrite ?length_app; [by rewrite Ex|by rewrite Ex|by rewrite Ex|done|apply Wr|done| |].
  - intros i Hi. rewrite (wr_bytes _ _ _ _ _ _ _ Wr), nth_app_at by done. case_decide; [done|]. by apply B.
  - intros a Ha. destruct (wr_owns _ _ _ _ _ _ _ Wr a Ha) as [?|Hf]; [by apply Ho|].
    assert (Da : data_block sbk G' a).
    { destruct Ha as [H0 [->|(bn & Hbn & ->)]]; [by apply (wr_wf _ _ _ _ _ _ _ Wr)|by apply (wr_wf _ _ _ _ _ _ _ Wr)]. }
    destruct Da as [R _ _ _]. cbn in R. rewrite (sm_use _ _ Sm) in Hf by lia. apply Z.ltb_ge in Hf. pose proof (sm_free _ _ Sm). lia.
Qed.

End files.

(** ** The image and the files in it *)

Definition file_no (i : nat) : Z := Z.of_nat i + 1.

(** The blocks of the files. *)
Definition total (fs : list (Z * list Z)) : Z := foldr (fun f n => nblk (length f.2) + n) 0 fs.

(** Sector 1 is the superblock; the other sectors before the inodes are zero,
    so that the log is empty. *)
Definition sb_sector : list Z := splice 0 (sb_bytes sbk) (replicate BSIZE 0).

Record built (s : mkst) (G : disk) (fs : list (Z * list Z)) : Prop := {
  bt_sim : sim s G;
  bt_count : mk_freeinode s = Z.of_nat (length fs) + 1;
  bt_limit : (length fs < 208)%nat;
  bt_files i ty bytes : fs !! i = Some (ty, bytes) ->
    holds (node sbk G (file_no i)) G ty (Z.of_nat (length bytes)) bytes;
  bt_apart i j a : i <> j -> (i < length fs)%nat -> (j < length fs)%nat ->
    owns (node sbk G (file_no i)) G a -> ~ owns (node sbk G (file_no j)) G a;
  bt_blocks : mk_freeblock s = nmeta + total fs;
  bt_rest inum : Z.of_nat (length fs) < inum < 208 -> i_type (node sbk G inum) = 0;
  bt_meta z : 0 <= z < 33 -> G z = if z =? 1 then sb_sector else replicate BSIZE 0
}.

Section slot.
Implicit Types (s : mkst) (G : disk) (x : inode) (din : list Z).

Lemma slot_elsewhere inum din G z : z <> IBLOCK inum sbk -> slot_view inum din G z = G z.
Proof. intros H. by apply vset_ne. Qed.

Lemma slot_in_use inum din G z : 0 <= inum < 208 -> 0 <= z < 2000 -> in_use sbk (slot_view inum din G) z = in_use sbk G z.
Proof.
  intros Hi Hz. apply in_use_other; [|done]. intros b Hb. destruct (IBLOCK_sbk inum Hi). rewrite sbk_map by done. lia.
Qed.

Lemma inode_sector s G inum (z := IBLOCK inum sbk) : sim s G -> 0 <= inum < 208 ->
  0 <= z < 2000 /\ z < mk_freeblock s /\ z <> 46 /\ mk_img s z = G z /\ length (G z) = BSIZE.
Proof.
  intros S Hi. destruct (IBLOCK_sbk inum Hi) as [_ Hz]. fold z in Hz. assert (Hn := nmeta_val). assert (Hf := sm_free _ _ S).
  assert (E : G z = mk_img s z) by (apply (sm_img _ _ S); lia). split_and!; [lia|lia|lia|lia|done|]. rewrite E. apply (sm_blk _ _ S). lia.
Qed.

Lemma wp_winode inum ip Q s G :
  sim s G -> 0 <= inum < 208 -> length ip = dinode_size ->
  (forall s', sim s' (slot_view inum ip G) -> mk_freeblock s' = mk_freeblock s -> mk_freeinode s' = mk_freeinode s -> Q tt s') ->
  wp (winode inum ip) Q s.
Proof.
  intros S Hi Hl HQ. destruct (inode_sector _ _ _ S Hi) as (Hz & Hf & H46 & E & Hlz). assert (Ho := dinode_off_lt inum _ Hlz).
  unfold winode. apply wp_bind, wp_gets. rewrite (sm_sb _ _ S). apply wp_bind, wp_rsect; [apply S|done|].
  apply wp_wsect; [apply S|done|]. rewrite E. apply HQ; [|done|done]. apply sim_put; [done|lia|done|].
  rewrite splice_length; [done|lia].
Qed.

Lemma wp_rinode inum Q s G :
  sim s G -> 0 <= inum < 208 ->
  (forall din, din_is din (node sbk G inum) -> Q din s) -> wp (rinode inum) Q s.
Proof.
  intros S Hi HQ. destruct (inode_sector _ _ _ S Hi) as (Hz & Hf & H46 & E & Hlz). assert (Ho := dinode_off_lt inum _ Hlz).
  unfold rinode. apply wp_bind, wp_gets. rewrite (sm_sb _ _ S). apply wp_bind, wp_rsect; [apply S|done|]. apply wp_ret, HQ.
  rewrite E. split; [apply slice_length; lia|]. rewrite dec_slice. done.
Qed.

End slot.

(** ** [iappend] and [ialloc] *)

Section change.
Implicit Types (s : mkst) (G : disk) (x : inode) (din : list Z) (fs : list (Z * list Z)).

Lemma total_cons f fs : total (f :: fs) = nblk (length f.2) + total fs.
Proof. done. Qed.

Lemma total_insert fs i ty bytes bytes' : fs !! i = Some (ty, bytes) ->
  total (<[i := (ty, bytes')]> fs) = total fs + (nblk (length bytes') - nblk (length bytes)).
Proof.
  revert i. induction fs as [|f fs IH]; intros [|i] H; [done|done|injection H as ->|].
  - cbn [insert list_insert]. rewrite !total_cons. cbn [snd]. lia.
  - cbn [insert list_insert]. rewrite !total_cons. etrans; [apply (f_equal (Z.add _)), (IH i H)|lia].
Qed.

Lemma file_no_range s G fs i : built s G fs -> (i < length fs)%nat -> 0 <= file_no i < 208.
Proof. intros B Hi. pose proof (bt_limit _ _ _ B). unfold file_no. lia. Qed.

(** The blocks of a file are in use, not of the free map and after the inodes. *)
Lemma holds_owns x G ty sz bytes a : holds x G ty sz bytes -> owns x G a -> data_block sbk G a /\ 47 <= a < 2000.
Proof.
  intros H Ha. assert (Hh := ho_home _ _ _ _ _ H a Ha). rewrite nmeta_val in Hh.
  assert (D : data_block sbk G a) by (destruct Ha as [H0 [->|(bn & Hbn & ->)]]; by apply (ho_wf _ _ _ _ _ H)).
  destruct (D) as [R _ _ _]. cbn in R. split; [done|lia].
Qed.

(** Other files, when file [i] is written. *)
Lemma others_keep s G fs i x' G' din (x := node sbk G (file_no i)) off p j ty bytes :
  built s G fs -> (i < length fs)%nat -> i <> j -> wrote sbk x G off p x' G' -> length din = dinode_size ->
  (forall z, 33 <= z <= 45 -> G' z = G z) -> (forall z, 33 <= z <= 45 -> length (G z) = BSIZE) -> fs !! j = Some (ty, bytes) ->
  let y := node sbk G (file_no j) in let G2 := slot_view (file_no i) din G' in
  node sbk G2 (file_no j) = y /\ holds y G2 ty (Z.of_nat (length bytes)) bytes /\ (forall a, owns y G2 a <-> owns y G a).
Proof.
  intros B Hi Hij Wr Hd Hin Hlen Hj y G2. assert (Hlj := lookup_lt_Some _ _ _ Hj).
  assert (Ri := file_no_range _ _ _ _ B Hi). assert (Rj := file_no_range _ _ _ _ B Hlj).
  destruct (IBLOCK_sbk _ Ri) as [_ Zi], (IBLOCK_sbk _ Rj) as [_ Zj]. assert (Hy := bt_files _ _ _ B j ty bytes Hj).
  split; [|apply holds_ext; [exact Hy|]].
  - unfold G2. rewrite node_slot_other; [|done|done|unfold file_no; lia|done|rewrite Hin by done; by apply Hlen].
    unfold y, node. by rewrite Hin.
  - intros a Ha. destruct (holds_owns _ _ _ _ _ _ Hy Ha) as [[R U N L] Ra].
    assert (Hno : ~ owns x G a) by (intros Hx; by apply (bt_apart _ _ _ B i j a)).
    split; [unfold G2; rewrite slot_elsewhere by lia; apply (wr_other _ _ _ _ _ _ _ Wr); [cbn; lia|done|done|done]|].
    unfold G2. rewrite slot_in_use by (done || lia). apply (wr_used _ _ _ _ _ _ _ Wr); [cbn; lia|done].
Qed.

(** The written file, once its inode is in its slot. *)
Lemma slot_holds x G ty sz bytes inum din : 0 <= inum < 208 ->
  holds x G ty sz bytes -> holds x (slot_view inum din G) ty sz bytes /\ forall a, owns x (slot_view inum din G) a <-> owns x G a.
Proof.
  intros Hi Hx. destruct (IBLOCK_sbk _ Hi) as [_ Zi]. apply holds_ext; [done|]. intros a Ha.
  destruct (holds_owns _ _ _ _ _ _ Hx Ha) as [[R U N L] Ra]. rewrite slot_in_use by lia. split; [apply slot_elsewhere; lia|done].
Qed.

End change.

Section iappend.
Implicit Types (s : mkst) (G : disk) (x : inode) (din : list Z) (fs : list (Z * list Z)).

Lemma din_size din x : din_is din x -> get32 di_size din = i_size x.
Proof. intros [_ E]. by rewrite <- E. Qed.

(** The sectors before the data are those of the files' inodes and the free
    map: writing a file does not touch them. *)
Lemma meta_keep s G x ty sz bytes off p x' G' z :
  sim s G -> holds x G ty sz bytes -> wrote sbk x G off p x' G' -> 0 <= z <= 45 -> G' z = G z.
Proof.
  intros S Hx Wr Hz. pose proof nmeta_val. pose proof (sm_free _ _ S). apply (wr_other _ _ _ _ _ _ _ Wr).
  - cbn. lia.
  - rewrite (sm_use _ _ S) by lia. apply Z.ltb_lt. lia.
  - intros b Hb. rewrite sbk_map by done. lia.
  - intros Ho. apply (ho_home _ _ _ _ _ Hx) in Ho. lia.
Qed.

(** File [i] has been written, and its inode put back into its slot. *)
Lemma built_update s G fs i ty bytes off p x1 x' G' din bytes' s' (x := node sbk G (file_no i)) (G2 := slot_view (file_no i) din G') :
  built s G fs -> fs !! i = Some (ty, bytes) -> wrote sbk x G off p x1 G' -> i_addrs x' = i_addrs x1 ->
  holds x' G' ty (Z.of_nat (length bytes')) bytes' -> din_is din x' -> i_dev x' = 0 -> i_inum x' = file_no i -> i_ref x' = 0 ->
  i_valid x' = false -> sim s' G2 ->
  mk_freeblock s' = mk_freeblock s + (nblk (length bytes') - nblk (length bytes)) -> mk_freeinode s' = mk_freeinode s ->
  built s' G2 (<[i := (ty, bytes')]> fs).
Proof.
  intros B Hi Wr Ea Hx' Hd E1 E2 E3 E4 S' Hf Hfi. assert (Hli := lookup_lt_Some _ _ _ Hi). assert (Ri := file_no_range _ _ _ _ B Hli).
  assert (Hx := bt_files _ _ _ B i ty bytes Hi). fold x in Hx.
  assert (Hmeta : forall z, 0 <= z <= 45 -> G' z = G z) by (intros z Hz; by eapply meta_keep; [apply B| | |]).
  assert (Hlen : forall z, 33 <= z <= 45 -> length (G z) = BSIZE).
  { intros z Hz. rewrite (sm_img _ _ (bt_sim _ _ _ B)) by lia. apply (sm_blk _ _ (bt_sim _ _ _ B)). lia. }
  destruct (IBLOCK_sbk _ Ri) as [_ Zi].
  assert (En : node sbk G2 (file_no i) = x').
  { apply node_slot_same; [done|rewrite Hmeta by lia; by apply Hlen|done|]. destruct x'. cbn in *. by subst. }
  destruct (slot_holds _ _ _ _ _ _ din Ri Hx') as [Hx2 Ho2]. fold G2 in Hx2, Ho2.
  assert (Ho1 : forall a, owns x' G' a -> owns x1 G' a) by (intros a; unfold owns, ind_addr, addr_of; unfold ind_addr; by rewrite Ea).
  assert (Hoth : forall j f, fs !! j = Some f -> i <> j -> let y := node sbk G (file_no j) in node sbk G2 (file_no j) = y /\
    holds y G2 f.1 (Z.of_nat (length f.2)) f.2 /\ (forall a, owns y G2 a <-> owns y G a)).
  { intros j [ty' bytes''] Hj Hne. apply (others_keep s G fs i x1 G' din off p j); try done; [apply Hd|intros z Hz; apply Hmeta; lia]. }
  assert (Hnot : forall j a, i <> j -> (j < length fs)%nat -> owns (node sbk G2 (file_no j)) G2 a -> ~ owns (node sbk G2 (file_no i)) G2 a).
  { intros j a Hne Hj Ha. destruct (lookup_lt_is_Some_2 _ _ Hj) as [[tj bj] Ej]. destruct (Hoth j _ Ej Hne) as (Ey & _ & Eo).
    rewrite Ey, Eo in Ha. rewrite En, Ho2. intros Hb. destruct (wr_owns _ _ _ _ _ _ _ Wr a (Ho1 a Hb)) as [Hc|Hc].
    - by apply (bt_apart _ _ _ B i j a).
    - destruct (holds_owns _ _ _ _ _ _ (bt_files _ _ _ B j _ _ Ej) Ha) as [[_ U _ _] _]. congruence. }
  split; rewrite ?length_insert; [done|rewrite Hfi; apply B|apply B| | | | |].
  - intros j ty' b' Hj. apply list_lookup_insert_Some in Hj as [(<- & [= <- <-] & _)|[Hne Hj]]; [by rewrite En|].
    destruct (Hoth j _ Hj Hne) as (Ey & Hy & _). by rewrite Ey.
  - intros j k a Hjk Hj Hk Ha Hb. destruct (decide (i = j)) as [<-|Hne]; [by apply (Hnot k a)|].
    destruct (decide (i = k)) as [<-|Hne']; [by apply (Hnot j a)|].
    destruct (lookup_lt_is_Some_2 _ _ Hj) as [fj Ej], (lookup_lt_is_Some_2 _ _ Hk) as [fk Ek].
    destruct (Hoth j _ Ej Hne) as (Ey & _ & Eo), (Hoth k _ Ek Hne') as (Ey' & _ & Eo'). rewrite Ey, Eo in Ha. rewrite Ey', Eo' in Hb.
    by apply (bt_apart _ _ _ B j k a).
  - rewrite Hf, (total_insert _ _ _ bytes), (bt_blocks _ _ _ B) by done. lia.
  - intros inum Hr. destruct (IBLOCK_sbk inum ltac:(lia)) as [_ Zr].
    unfold G2. rewrite node_slot_other; [|done|lia|unfold file_no; lia|apply Hd|rewrite Hmeta by lia; by apply Hlen].
    unfold node. rewrite Hmeta by lia. by apply (bt_rest _ _ _ B).
  - intros z Hz. unfold G2. rewrite slot_elsewhere, Hmeta by lia. by apply (bt_meta _ _ _ B).
Qed.

Lemma wp_iappend i p ty bytes Q s G fs :
  built s G fs -> fs !! i = Some (ty, bytes) -> (length bytes + length p <= MAXFILE * BSIZE)%nat ->
  mk_freeblock s + (nblk (length bytes + length p) - nblk (length bytes)) <= 2000 ->
  (forall s' G', built s' G' (<[i := (ty, bytes ++ p)]> fs) -> Q tt s') ->
  wp (iappend (file_no i) p (Z.of_nat (length p))) Q s.
Proof.
  intros B Hi Hmax Hroom HQ. assert (Hli := lookup_lt_Some _ _ _ Hi). assert (Ri := file_no_range _ _ _ _ B Hli).
  assert (Hx := bt_files _ _ _ B i ty bytes Hi). assert (S := bt_sim _ _ _ B).
  assert (Hmx : Z.of_nat (MAXFILE * BSIZE) < 2 ^ 31) by by rewrite Nat2Z.inj_mul.
  unfold iappend. apply wp_bind, (wp_rinode _ _ _ _ S Ri). intros din Hd.
  assert (Esz : xint (get32 di_size din) = Z.of_nat (length bytes)).
  { rewrite (din_size _ _ Hd), (ho_size _ _ _ _ _ Hx). apply xint_id. lia. }
  rewrite Esz, Nat2Z.id. apply wp_bind. apply (wp_iappend_loop _ _ _ _ (node sbk G (file_no i)) _ _ G); [done|apply Hx|done|apply Hx|done|done|done|].
  intros din' x' G' s' S' Hd' Wr Dn Hf Hfi. assert (Hx' := holds_append _ _ _ _ _ _ _ _ _ S Hx Hmax Wr Dn).
  rewrite xint_id by lia. assert (Ex := wr_x _ _ _ _ _ _ _ Wr).
  assert (Hd2 := din_put_size _ _ (Z.of_nat (length bytes + length p)) Hd' ltac:(lia)).
  apply (wp_winode _ _ _ _ G' S' Ri); [apply Hd2|]. intros s2 S2 Hf2 Hfi2. eapply HQ.
  apply (built_update s G fs i ty bytes (length bytes) p x' (set_i_size (Z.of_nat (length bytes + length p)) x') G');
    rewrite ?length_app; [done|done|done|done| |done|by rewrite Ex..|done|lia|congruence].
  eapply holds_size, Hx'.
Qed.

End iappend.

Section ialloc.
Implicit Types (s : mkst) (G : disk) (x : inode) (din : list Z) (fs : list (Z * list Z)).

Lemma nth_zeros (i n : nat) : nth i (replicate n 0) 0 = 0.
Proof. revert i. induction n as [|n IH]; intros [|i]; cbn; done || apply IH. Qed.

(** An inode without blocks. *)
Definition fresh_inode (inum ty : Z) : inode := mkinode 0 inum 0 false ty 0 0 1 0 (replicate (NDIRECT + 1) 0).

Lemma fresh_addr inum ty G bn : addr_of (fresh_inode inum ty) G bn = 0.
Proof.
  unfold addr_of, ind_addr, fresh_inode. cbn [i_addrs]. rewrite !nth_zeros. by destruct (bn <? NDIRECT)%nat.
Qed.

Lemma fresh_ind inum ty : ind_addr (fresh_inode inum ty) = 0.
Proof. done. Qed.

Lemma fresh_owns inum ty G a : ~ owns (fresh_inode inum ty) G a.
Proof. intros [H [E|(bn & _ & E)]]; [by rewrite fresh_ind in E|by rewrite fresh_addr in E]. Qed.

Lemma fresh_holds inum ty G : holds (fresh_inode inum ty) G ty (Z.of_nat (length (@nil Z))) [].
Proof.
  split; [done|done|done|apply Nat.le_0_l| | | |].
  - split; [done|..]; intros *; rewrite ?fresh_addr, ?fresh_ind; done.
  - split; [intros bn _; rewrite fresh_addr|rewrite fresh_ind]; (split; [intros _; apply Nat.le_0_l|done]).
  - intros i Hi. unfold fbyte, fblock. rewrite fresh_addr. cbn [Z.eqb]. rewrite nth_zeros. by destruct i.
  - intros a Ha. by apply fresh_owns in Ha.
Qed.

Lemma total_snoc fs f : total (fs ++ [f]) = total fs + nblk (length f.2).
Proof. induction fs as [|g fs IH]; [cbn [app]; rewrite total_cons; lia|]. rewrite <- app_comm_cons, !total_cons, IH. lia. Qed.

(** A new file, in the slot after the last. *)
Lemma built_snoc s G fs ty din s' (n := file_no (length fs)) (G2 := slot_view n din G) :
  built s G fs -> n < 208 -> din_is din (fresh_inode n ty) -> sim s' G2 -> mk_freeblock s' = mk_freeblock s ->
  mk_freeinode s' = n + 1 -> built s' G2 (fs ++ [(ty, [])]).
Proof.
  intros B Hn Hd S' Hf Hfi. assert (Hn0 : 0 <= n < 208) by (unfold n, file_no in *; lia).
  destruct (inode_sector _ _ _ (bt_sim _ _ _ B) Hn0) as (Hz & _ & _ & _ & Hl). destruct (IBLOCK_sbk _ Hn0) as [_ Zn].
  assert (En : node sbk G2 n = fresh_inode n ty) by (by apply node_slot_same).
  assert (Eo : forall j, 0 <= j < 208 -> j <> n -> node sbk G2 j = node sbk G j) by (intros j Hj Hne; by apply node_slot_other; [|..|apply Hd|]).
  assert (Hold : forall j, (j < length fs)%nat -> node sbk G2 (file_no j) = node sbk G (file_no j)).
  { intros j Hj. assert (Rj := file_no_range _ _ _ _ B Hj). apply Eo; [done|unfold n, file_no; lia]. }
  assert (Hown : forall j a, (j < length fs)%nat -> owns (node sbk G2 (file_no j)) G2 a <-> owns (node sbk G (file_no j)) G a).
  { intros j a Hj. rewrite Hold by done. destruct (lookup_lt_is_Some_2 _ _ Hj) as [[tj bj] Ej].
    by apply (slot_holds _ _ _ _ _ n din Hn0 (bt_files _ _ _ B j _ _ Ej)). }
  split; rewrite ?length_app; cbn [length].
  - done.
  - rewrite Hfi. unfold n, file_no. lia.
  - unfold n, file_no in Hn. lia.
  - intros j ty' b' Hj. apply lookup_app_Some in Hj as [Hj|[Hge Hj]].
    + rewrite Hold by by eapply lookup_lt_Some. by apply (slot_holds _ _ _ _ _ n din Hn0 (bt_files _ _ _ B j _ _ Hj)).
    + apply list_lookup_singleton_Some in Hj as [Hj [= <- <-]]. assert (j = length fs) as -> by lia. fold n. rewrite En. apply fresh_holds.
  - intros j k a Hjk Hj Hk Ha Hb.
    destruct (decide (j = length fs)) as [->|Hj']; [fold n in Ha; rewrite En in Ha; by apply fresh_owns in Ha|].
    destruct (decide (k = length fs)) as [->|Hk']; [fold n in Hb; rewrite En in Hb; by apply fresh_owns in Hb|].
    apply Hown in Ha; [|lia]. apply Hown in Hb; [|lia]. apply (bt_apart _ _ _ B j k a); [done|lia|lia|done|done].
  - rewrite Hf, total_snoc, (bt_blocks _ _ _ B). assert (nblk (length ((ty, []) : Z * list Z).2) = 0) as -> by done. lia.
  - intros inum Hr. rewrite Eo by (unfold n, file_no; lia). apply (bt_rest _ _ _ B). lia.
  - intros z Hz'. unfold G2. rewrite slot_elsewhere by lia. by apply (bt_meta _ _ _ B).
Qed.

Lemma wp_mk_ialloc ty Q s G fs :
  built s G fs -> (length fs < 207)%nat -> ty = T_DIR \/ ty = T_FILE ->
  (forall s' G', built s' G' (fs ++ [(ty, [])]) -> mk_freeblock s' = mk_freeblock s -> Q (file_no (length fs)) s') -> wp (mk_ialloc ty) Q s.
Proof.
  intros B Hl Hty HQ. unfold mk_ialloc. apply wp_bind, wp_gets. apply wp_bind, wp_modify. rewrite (bt_count _ _ _ B).
  change (Z.of_nat (length fs) + 1) with (file_no (length fs)). set (n := file_no (length fs)).
  assert (Hn : 0 <= n < 208) by (unfold n, file_no; lia). cbv zeta. rewrite wrap32_small by lia. set (din := put32 di_size _ _).
  assert (Hd : din_is din (fresh_inode n ty)) by (unfold din; destruct Hty as [-> | ->]; by split).
  set (s1 := set_mk_freeinode _ s). assert (S1 : sim s1 G) by (destruct (bt_sim _ _ _ B); by split).
  apply wp_bind, (wp_winode _ _ _ _ _ S1 Hn); [apply Hd|]. intros s' S' Hf Hfi. apply wp_ret. eapply HQ; [|done].
  apply (built_snoc s G fs ty din); [done|fold n; lia|done|done|done|done].
Qed.

End ialloc.
