(* ===== verification/MkfsMain.v ===== *)
(** * [main] of [mkfs]: the file system it makes

    What the image holds when [mkfs] returns: the superblock, an empty log, the
    free map, the root directory with an entry for every file, and the
    contents of the files. The kernel's view of paths finds every file. *)

From stdpp Require Import base gmap strings numbers list.
From S2P Require Import Prelude State Strings Printf Bytes Cache Log LogSpec Fs Bitmap FileData FileWrite Writei Icache Namei Ulib Mkfs MkfsFile MkfsSpec.

(** ** The free map *)

Section bits.

Lemma balloc_buf_S (n : nat) : balloc_buf (S n) =
  <[(n / 8)%nat := wrap8 (Z.lor (nth (n / 8) (balloc_buf n) 0) (Z.shiftl 1 (Z.of_nat (n mod 8))))]> (balloc_buf n).
Proof. unfold balloc_buf. by rewrite seq_S, foldl_app. Qed.

Lemma balloc_buf_length (n : nat) : length (balloc_buf n) = BSIZE.
Proof. induction n as [|n IH]; [apply length_replicate|]. by rewrite balloc_buf_S, length_insert. Qed.

Lemma wrap8_range x : 0 <= wrap8 x < 256.
Proof. apply Z.mod_pos_bound. lia. Qed.

Lemma balloc_buf_bytes (n : nat) : Forall (fun x => 0 <= x < 256) (balloc_buf n).
Proof.
  induction n as [|n IH]; [by apply Forall_replicate|]. rewrite balloc_buf_S. apply Forall_insert; [done|apply wrap8_range].
Qed.

Lemma balloc_bit (n b : nat) : (n <= BPB)%nat -> (b < BPB)%nat ->
  Z.testbit (nth (b / 8) (balloc_buf n) 0) (Z.of_nat (b mod 8)) = (b <? n)%nat.
Proof.
  intros Hn Hb. induction n as [|n IH]; [unfold balloc_buf; cbn [seq foldl]; by rewrite nth_zeros, Z.testbit_0_l|]. specialize (IH ltac:(lia)).
  assert (Hlt : (n / 8 < length (balloc_buf n))%nat).
  { rewrite balloc_buf_length. apply Nat.Div0.div_lt_upper_bound. change BPB with (8 * BSIZE)%nat in Hn. lia. }
  pose proof (Nat.mod_upper_bound n 8 ltac:(lia)). pose proof (Nat.mod_upper_bound b 8 ltac:(lia)).
  pose proof (Nat.div_mod_eq n 8). pose proof (Nat.div_mod_eq b 8).
  rewrite balloc_buf_S, nth_lookup. destruct (decide (n / 8 = b / 8)%nat) as [E|E].
  - rewrite <- E, list_lookup_insert_eq by done. cbn [from_option id]. unfold id. rewrite wrap8_bit, Z.lor_spec, E, IH, Z.shiftl_1_l, Z.pow2_bits_eqb by lia.
    destruct (Nat.ltb_spec b n), (Nat.ltb_spec b (S n)), (Z.eqb_spec (Z.of_nat (n mod 8)) (Z.of_nat (b mod 8))); cbn; done || lia.
  - rewrite list_lookup_insert_ne, <- nth_lookup, IH by done.
    destruct (Nat.ltb_spec b n), (Nat.ltb_spec b (S n)); [reflexivity|lia|lia|reflexivity].
Qed.

(** The map says that the blocks before the first free one are in use. *)
Lemma balloc_map (V : disk) (n : Z) : 47 <= n <= 2000 -> V 46 = balloc_buf (Z.to_nat n) ->
  (forall b, 0 <= b < 2000 -> in_use sbk V b = (b <? n)) /\ map_wf sbk V.
Proof.
  intros Hn E.
  assert (HU : forall b, 0 <= b < 2000 -> in_use sbk V b = (b <? n)).
  { intros b Hb. unfold in_use. rewrite sbk_map, E by done. unfold bit_byte, bit_pos. change (Z.of_nat BPB) with 8192.
    rewrite Z.mod_small by lia.
    assert (Z.of_nat BPB = 8192) by done. rewrite balloc_bit by lia.
    destruct (Nat.ltb_spec (Z.to_nat b) (Z.to_nat n)), (Z.ltb_spec b n); done || lia. }
  split; [done|]. split.
  - intros b Hb. rewrite sbk_map, E by done. split; [apply balloc_buf_length|apply balloc_buf_bytes].
  - intros b Hb. rewrite sbk_map by done. cbn [sb_size sbk]. split; [lia|]. rewrite HU by lia. apply Z.ltb_lt. lia.
  - rewrite HU by lia. apply Z.ltb_lt. lia.
  - done.
Qed.

End bits.

#[local] Opaque nmeta in_use alloc_view.

(** ** The files of the image *)

(** The entry of a directory, as [main] makes it. *)
Definition entry (inum : Z) (name : list Z) : list Z := mk_dirent_bytes inum (strncpy_arr name DIRSIZ).

(** The root directory after the files with these names were added. *)
Definition root_bytes (nds : list (list Z * list Z)) : list Z :=
  mk_dirent_bytes ROOTINO [46; 0] ++ mk_dirent_bytes ROOTINO [46; 46; 0] ++
  mjoin (imap (fun i nd => entry (file_no (S i)) nd.1) nds).

(** The files of the image: the root directory, then those with these names
    and contents. *)
Definition layout (nds : list (list Z * list Z)) : list (Z * list Z) :=
  (T_DIR, root_bytes nds) :: ((fun nd => (T_FILE, nd.2)) <$> nds).

Section layout.
Implicit Types (nds : list (list Z * list Z)) (name data : list Z).

Lemma entry_length inum name : length (entry inum name) = dirent_size.
Proof.
  unfold entry, mk_dirent_bytes, strncpy_arr. pose proof (cstr_length DIRSIZ (arr name)).
  assert (length (put16 0 (xshort inum) (replicate dirent_size 0)) = dirent_size) as E by done.
  rewrite splice_length; rewrite E; [done|]. rewrite length_app, length_replicate. unfold dirent_size, DIRSIZ in *. lia.
Qed.

Lemma root_bytes_snoc nds name data : root_bytes (nds ++ [(name, data)]) = root_bytes nds ++ entry (file_no (S (length nds))) name.
Proof.
  unfold root_bytes. rewrite imap_app, join_app, <- !app_assoc. do 3 f_equal. cbn. by rewrite app_nil_r, Nat.add_0_r.
Qed.

Lemma root_bytes_length nds : length (root_bytes nds) = (dirent_size * (2 + length nds))%nat.
Proof.
  induction nds as [|[name data] nds IH] using rev_ind; [done|].
  rewrite root_bytes_snoc, !length_app, IH, entry_length. cbn [length]. lia.
Qed.

Lemma layout_length nds : length (layout nds) = S (length nds).
Proof. unfold layout. cbn [length]. by rewrite length_fmap. Qed.

Lemma nblk_nonneg (n : nat) : 0 <= nblk n.
Proof. unfold nblk. destruct (NDIRECT * BSIZE <? n)%nat; cbn [Zb]; lia. Qed.

Lemma total_nonneg fs : 0 <= total fs.
Proof. induction fs as [|f fs IH]; [done|]. rewrite total_cons. pose proof (nblk_nonneg (length f.2)). lia. Qed.

Lemma total_app fs fs' : total (fs ++ fs') = total fs + total fs'.
Proof. induction fs as [|f fs IH]; [done|]. rewrite <- app_comm_cons, !total_cons, IH. lia. Qed.

(** Earlier stages need fewer blocks. *)
Lemma layout_mono nds nds' : total (layout nds) <= total (layout (nds ++ nds')).
Proof.
  unfold layout. rewrite !total_cons, fmap_app, total_app. cbn [snd]. rewrite !root_bytes_length, length_app.
  pose proof (nblk_mono (dirent_size * (2 + length nds)) (dirent_size * (2 + (length nds + length nds'))) ltac:(lia)).
  pose proof (total_nonneg ((fun nd => (T_FILE, nd.2)) <$> nds')). lia.
Qed.

End layout.

(** ** Adding a file *)

Section add.
Context {H : Host} {R : Reader} {RS : ReaderSpec}.
Implicit Types (s : mkst) (G : disk) (fs : list (Z * list Z)).

Lemma wp_copy_loop fuel i ty done_ rest Q s G fs :
  built s G fs -> fs !! i = Some (ty, done_) -> (length rest <= fuel)%nat -> (length done_ + length rest <= MAXFILE * BSIZE)%nat ->
  nmeta + total (<[i := (ty, done_ ++ rest)]> fs) <= 2000 ->
  (forall s' G', built s' G' (<[i := (ty, done_ ++ rest)]> fs) -> Q tt s') ->
  wp (copy_loop fuel (file_no i) rest) Q s.
Proof.
  revert done_ rest s G fs. induction fuel as [|fuel IH]; intros done_ rest s G fs B Hi Hf Hmax Hroom HQ; cbn [copy_loop];
    destruct (read_le BSIZE rest) as [H1 H2]; destruct (Nat.eqb_spec (read_count BSIZE rest) 0) as [E|E]; [|lia|..].
  1, 2: assert (rest = []) as -> by (destruct rest as [|c rest]; [done|]; pose proof (read_some BSIZE (c :: rest) BSIZE_pos ltac:(done)); lia);
    apply wp_ret, (HQ s G); by rewrite app_nil_r, list_insert_id.
  set (cc := read_count BSIZE rest) in *. assert (Hlt : length (take cc rest) = cc) by (rewrite length_take; lia).
  assert (Hall : length (done_ ++ rest) = (length done_ + cc + (length rest - cc))%nat) by (rewrite length_app; lia).
  rewrite (total_insert _ _ _ done_) in Hroom by done. rewrite length_app in Hroom.
  pose proof (nblk_mono (length done_ + cc) (length done_ + length rest) ltac:(lia)).
  rewrite <- Hlt at 2. apply wp_bind, (wp_iappend i _ ty done_ _ s G fs); [done|done|rewrite Hlt; lia| |].
  { rewrite Hlt, (bt_blocks _ _ _ B). lia. }
  intros s' G' B'. assert (Hli := lookup_lt_Some _ _ _ Hi).
  assert (Ei : <[i := (ty, (done_ ++ take cc rest) ++ drop cc rest)]> (<[i := (ty, done_ ++ take cc rest)]> fs) = <[i := (ty, done_ ++ rest)]> fs).
  { by rewrite list_insert_insert_eq, <- app_assoc, take_drop. }
  apply (IH (done_ ++ take cc rest) (drop cc rest) s' G' _ B'); rewrite ?Ei; [by apply list_lookup_insert_eq|rewrite length_drop; lia| | |done].
  - rewrite length_app, length_drop, Hlt. lia.
  - rewrite (total_insert _ _ _ done_), length_app by done. lia.
Qed.

(** What [argv[i]] names on the host: a file with these contents, which gets
    this name in the image. *)
Record host_file (arg : list Z) (nd : list Z * list Z) : Prop := {
  so_slash : strchr (shortname arg) slash = None;
  so_data : contents arg = Some nd.2;
  so_name : skip_underscore (shortname arg) = nd.1;
  so_fits : (length nd.1 <= DIRSIZ)%nat;
  so_max : (length nd.2 <= MAXFILE * BSIZE)%nat
}.

Lemma wp_add_file arg nd nds Q s G :
  built s G (layout nds) -> host_file arg nd -> (length nds < 206)%nat -> nmeta + total (layout (nds ++ [nd])) <= 2000 ->
  (forall s' G', built s' G' (layout (nds ++ [nd])) -> Q tt s') -> wp (add_file ROOTINO arg) Q s.
Proof.
  intros B [O1 O2 O3 O4 O5] Hl Hroom HQ. destruct nd as [name data]. cbn [fst snd] in *. unfold add_file. cbv zeta.
  rewrite bool_decide_eq_true_2 by done. apply wp_bind, wp_ret. rewrite O2, O3.
  rewrite (proj2 (Nat.leb_le _ _) O4). apply wp_bind, wp_ret.
  apply wp_bind, (wp_mk_ialloc _ _ _ _ _ B); [rewrite layout_length; lia|by right|]. intros s1 G1 B1 _.
  rewrite layout_length in *. set (inum := file_no (S (length nds))).
  set (fs1 := (T_DIR, root_bytes (nds ++ [(name, data)])) :: ((fun nd => (T_FILE, nd.2)) <$> nds) ++ [(T_FILE, [])]).
  assert (E1 : <[0%nat := (T_DIR, root_bytes nds ++ entry inum name)]> (layout nds ++ [(T_FILE, [])]) = fs1).
  { unfold fs1. rewrite root_bytes_snoc. done. }
  assert (Efs : <[S (length nds) := (T_FILE, data)]> fs1 = layout (nds ++ [(name, data)])).
  { unfold fs1, layout. change (<[S (length nds) := (T_FILE, data)]> (?a :: ?l)) with (a :: <[length nds := (T_FILE, data)]> l). f_equal.
    rewrite fmap_app, insert_app_r_alt by by rewrite length_fmap. by rewrite length_fmap, Nat.sub_diag. }
  assert (Hlk : fs1 !! S (length nds) = Some (T_FILE, [])).
  { unfold fs1. rewrite lookup_cons_ne_0 by done. cbn [Nat.pred]. rewrite lookup_app_r by by rewrite length_fmap. by rewrite length_fmap, Nat.sub_diag. }
  assert (Hle : total fs1 <= total (layout (nds ++ [(name, data)]))).
  { rewrite <- Efs, (total_insert _ _ _ []) by done. pose proof (nblk_mono 0 (length data) ltac:(lia)). cbn [length]. lia. }
  assert (Hmx : (dirent_size * 208 < MAXFILE * BSIZE)%nat) by (apply Nat.ltb_lt; vm_compute; reflexivity).
  change ROOTINO with (file_no 0). rewrite <- (entry_length inum name).
  apply wp_bind, (wp_iappend 0 (entry inum name) T_DIR (root_bytes nds) _ s1 G1 (layout nds ++ [(T_FILE, [])])); [done|done| | |].
  - rewrite entry_length, root_bytes_length. change dirent_size with 16%nat in *. lia.
  - rewrite (bt_blocks _ _ _ B1). rewrite <- E1, (total_insert _ _ _ (root_bytes nds)), length_app in Hle by done. lia.
  - intros s2 G2 B2. rewrite E1 in B2.
    apply (wp_copy_loop (length data) (S (length nds)) T_FILE [] data _ s2 G2 fs1); cbn [length app]; [done|done|lia|lia|by rewrite Efs|].
    rewrite Efs. apply HQ.
Qed.

End add.

(** ** [main] *)

(** What the kernel reads from the superblock. *)
Definition super_of (l : list Z) : superblock :=
  let g k := get32 (4 * k) l in mksuper (g 0%nat) (g 1%nat) (g 2%nat) (g 3%nat) (g 4%nat) (g 5%nat) (g 6%nat) (g 7%nat).

(** The size [main] leaves in the root's inode. *)
Definition root_size (nds : list (list Z * list Z)) : nat := ((dirent_size * (2 + length nds)) / BSIZE + 1) * BSIZE.

(** The file system with these files. *)
Record image (V : disk) (nds : list (list Z * list Z)) : Prop := {
  im_super : super_of (V 1) = sbk;
  im_log : get32 0 (V (sb_logstart sbk)) = 0;
  im_map : map_wf sbk V;
  im_use b : 0 <= b < FSSIZE -> in_use sbk V b = (b <? nmeta + total (layout nds));
  im_root : holds (node sbk V ROOTINO) V T_DIR (Z.of_nat (root_size nds)) (root_bytes nds);
  im_file i name data : nds !! i = Some (name, data) ->
    holds (node sbk V (file_no (S i))) V T_FILE (Z.of_nat (length data)) data;
  im_apart i j a : i <> j -> (i <= length nds)%nat -> (j <= length nds)%nat ->
    owns (node sbk V (file_no i)) V a -> ~ owns (node sbk V (file_no j)) V a;
  im_free inum : Z.of_nat (length nds) + 1 < inum < NINODES -> i_type (node sbk V inum) = 0;
  im_len z : 0 <= z < FSSIZE -> length (V z) = BSIZE
}.

Section init.
Implicit Types (s : mkst) (G : disk).

Lemma get_zeros (n off m : nat) : get_le n off (replicate m 0) = 0.
Proof.
  unfold get_le, slice. rewrite drop_replicate, take_replicate. induction (n `min` (m - off))%nat as [|k IH]; [done|]. cbn. rewrite IH. done.
Qed.

(** Zeroing the image. *)
Lemma wp_zero (n : nat) Q s :
  Z.of_nat n <= 2000 -> mk_len s = 0 ->
  (forall s', mk_len s' = Z.of_nat n -> (forall z, 0 <= z < Z.of_nat n -> mk_img s' z = replicate BSIZE 0) -> mk_sb s' = mk_sb s ->
     mk_freeinode s' = mk_freeinode s -> mk_freeblock s' = mk_freeblock s -> Q tt s') ->
  wp (for_each (seq 0 n) (fun i => wsect (Z.of_nat i) (replicate BSIZE 0))) Q s.
Proof.
  intros Hn Hl HQ.
  set (I := fun (pre : list nat) s' => mk_len s' = Z.of_nat (length pre) /\
    (forall z, 0 <= z < Z.of_nat (length pre) -> mk_img s' z = replicate BSIZE 0) /\
    mk_sb s' = mk_sb s /\ mk_freeinode s' = mk_freeinode s /\ mk_freeblock s' = mk_freeblock s).
  apply (wp_for_each I).
  - split_and!; [done|cbn; lia|done|done|done].
  - intros pre i post s' El (I1 & I2 & I3 & I4 & I5). assert (Ei : seq 0 n !! length pre = Some i) by (by rewrite El, list_lookup_middle).
    apply lookup_seq in Ei as [-> Hlt]. cbn [Nat.add]. unfold wsect. rewrite sector_id by lia. apply wp_modify. unfold I. rewrite length_app. cbn [length].
    split_and!; [cbn; lia| |done|done|done]. intros z Hz. cbn. destruct (decide (z = Z.of_nat (length pre))) as [->|Hne]; [by rewrite vset_eq|].
    rewrite vset_ne by done. apply I2. lia.
  - intros s' (I1 & I2 & I3 & I4 & I5). rewrite length_seq in *. by apply HQ.
Qed.

(** The image before the first inode. *)
Lemma built_nil s :
  mk_sb s = sbk -> mk_len s = 2000 -> mk_freeinode s = 1 -> mk_freeblock s = nmeta ->
  (forall z, 0 <= z < 2000 -> mk_img s z = if z =? 1 then sb_sector else replicate BSIZE 0) ->
  built s (vset 46 (balloc_buf 47) (mk_img s)) [].
Proof.
  intros H1 H2 H3 H4 H5. assert (Hn := nmeta_val). set (G := vset 46 (balloc_buf 47) (mk_img s)).
  destruct (balloc_map G 47) as [U M]; [lia|apply vset_eq|].
  assert (Hz : forall z, z <> 46 -> G z = mk_img s z) by (intros z Hz; by apply vset_ne).
  split; [split|..]; cbn [length].
  - done.
  - done.
  - done.
  - intros b Hb. rewrite U, H4, Hn by done. done.
  - done.
  - lia.
  - intros z Hz'. rewrite H5 by lia. destruct (Z.eqb_spec z 1); [lia|done].
  - intros z Hz'. rewrite H5 by lia. by destruct (z =? 1).
  - lia.
  - lia.
  - done.
  - intros i j a _ Hi. lia.
  - cbn. lia.
  - intros inum Hi. destruct (IBLOCK_sbk inum ltac:(lia)) as [_ Zi]. unfold node. rewrite Hz, H5 by lia.
    destruct (Z.eqb_spec (IBLOCK inum sbk) 1); [lia|]. cbn [i_type dec_dinode]. by rewrite get_zeros.
  - intros z Hz'. rewrite Hz by lia. apply H5. lia.
Qed.

End init.

Section finish.
Implicit Types (s : mkst) (G V : disk) (nds : list (list Z * list Z)).

(** The root's size is fixed and the free map is written. *)
Lemma built_image s G nds din V (G2 := slot_view ROOTINO din G) :
  built s G (layout nds) -> (length nds <= 206)%nat ->
  din_is din (set_i_size (Z.of_nat (root_size nds)) (node sbk G ROOTINO)) ->
  (forall z, z <> 46 -> V z = G2 z) -> V 46 = balloc_buf (Z.to_nat (mk_freeblock s)) -> image V nds.
Proof.
  intros B Hl Hd HV H46. assert (Hn := nmeta_val). assert (S := bt_sim _ _ _ B). assert (Hf := sm_free _ _ S).
  destruct (balloc_map V (mk_freeblock s)) as [U M]; [lia|done|].
  assert (R1 : 0 <= ROOTINO < 208) by (change ROOTINO with 1; lia). destruct (inode_sector _ _ _ S R1) as (_ & _ & _ & _ & Hlr). destruct (IBLOCK_sbk _ R1) as [_ Zr].
  assert (HN : forall j, 0 <= j < 208 -> node sbk V j = node sbk G2 j).
  { intros j Hj. destruct (IBLOCK_sbk j Hj) as [_ Zj]. unfold node. by rewrite HV by lia. }
  assert (HK : forall y ty sz bytes, holds y G ty sz bytes -> holds y V ty sz bytes /\ forall a, owns y V a <-> owns y G a).
  { intros y ty sz bytes Hy. apply holds_ext; [done|]. intros z Hz. destruct (holds_owns _ _ _ _ _ _ Hy Hz) as [[_ Uz _ _] Rz].
    rewrite HV by lia. unfold G2. rewrite slot_elsewhere by lia. split; [done|].
    rewrite U by lia. by rewrite (sm_use _ _ S) in Uz by lia. }
  assert (Hroot := bt_files _ _ _ B 0 T_DIR (root_bytes nds) eq_refl). change (file_no 0) with ROOTINO in Hroot.
  assert (Er : node sbk V ROOTINO = set_i_size (Z.of_nat (root_size nds)) (node sbk G ROOTINO)) by (rewrite HN by done; by apply node_slot_same).
  assert (Eo : forall j, 0 <= j < 208 -> j <> ROOTINO -> node sbk V j = node sbk G j).
  { intros j Hj Hne. rewrite HN by done. apply node_slot_other; [done|done|done|apply Hd|done]. }
  assert (Hown : forall i a, (i <= length nds)%nat -> owns (node sbk V (file_no i)) V a <-> owns (node sbk G (file_no i)) G a).
  { intros i a Hi. destruct (decide (i = 0%nat)) as [->|Hi0].
    - change (file_no 0) with ROOTINO. rewrite Er. change (owns (node sbk G ROOTINO) V a <-> owns (node sbk G ROOTINO) G a). by eapply HK.
    - rewrite Eo by (unfold file_no; change ROOTINO with 1; lia). destruct (lookup_lt_is_Some_2 (layout nds) i) as [[ty b] Ei]; [rewrite layout_length; lia|].
      eapply HK, (bt_files _ _ _ B i _ _ Ei). }
  assert (Hm : forall z, 0 <= z < 33 -> V z = if z =? 1 then sb_sector else replicate BSIZE 0).
  { intros z Hz. rewrite HV by lia. unfold G2. rewrite slot_elsewhere by lia. by apply (bt_meta _ _ _ B). }
  split.
  - rewrite Hm by done. vm_compute. reflexivity.
  - cbn [sb_logstart sbk]. rewrite Hm by done. apply get_zeros.
  - done.
  - intros b Hb. rewrite U by done. by rewrite (bt_blocks _ _ _ B).
  - rewrite Er. eapply holds_size. by eapply HK.
  - intros i name data Hi. rewrite Eo.
    + eapply HK, (bt_files _ _ _ B (Datatypes.S i) T_FILE data). change (((fun nd : list Z * list Z => (T_FILE, nd.2)) <$> nds) !! i = Some (T_FILE, data)).
      by rewrite list_lookup_fmap, Hi.
    + apply lookup_lt_Some in Hi. unfold file_no. lia.
    + unfold file_no. change ROOTINO with 1. lia.
  - intros i j a Hij Hi Hj Ha Hb. rewrite Hown in Ha, Hb by done. apply (bt_apart _ _ _ B i j a); rewrite ?layout_length; [exact Hij|lia|lia|exact Ha|exact Hb].
  - intros inum Hi. change NINODES with 200 in Hi. rewrite Eo by (change ROOTINO with 1; lia). apply (bt_rest _ _ _ B). rewrite layout_length. lia.
  - intros z Hz. change FSSIZE with 2000 in Hz. destruct (decide (z = 46)) as [->|Hne]; [rewrite H46; apply balloc_buf_length|].
    rewrite HV by done. destruct (decide (z = IBLOCK ROOTINO sbk)) as [->|Hne'].
    + unfold G2, slot_view. rewrite vset_eq. pose proof (dinode_off_lt ROOTINO _ Hlr). destruct Hd as [Hd _]. rewrite splice_length; [done|lia].
    + unfold G2. rewrite slot_elsewhere, (sm_img _ _ S) by done. by apply (sm_blk _ _ S).
Qed.

End finish.

Section main.
Context {H : Host} {R : Reader} {RS : ReaderSpec}.
Implicit Types (s : mkst) (G : disk) (nds : list (list Z * list Z)).

(** The root directory is made, and then comes [k]. *)
Lemma wp_root (k : Z -> MK unit) Q s G nds :
  built s G [] -> nmeta + total (layout nds) <= 2000 ->
  (forall s' G', built s' G' (layout []) -> wp (k ROOTINO) Q s') ->
  wp (rootino ← mk_ialloc T_DIR; assert (rootino =? ROOTINO);;
      iappend rootino (mk_dirent_bytes rootino [46; 0]) (Z.of_nat dirent_size);;
      iappend rootino (mk_dirent_bytes rootino [46; 46; 0]) (Z.of_nat dirent_size);; k rootino) Q s.
Proof.
  intros B Hroom HQ. assert (Hn := nmeta_val). assert (Hm := layout_mono [] nds). cbn [app] in Hm.
  assert (E1 : total (layout []) = 1) by (vm_compute; reflexivity).
  apply wp_bind, (wp_mk_ialloc _ _ _ _ _ B); [cbn; lia|by left|]. intros s1 G1 B1 Hf1. cbn [length app].
  change (file_no 0) with ROOTINO. change (ROOTINO =? ROOTINO) with true. apply wp_bind, wp_ret.
  set (d1 := mk_dirent_bytes ROOTINO [46; 0]). set (d2 := mk_dirent_bytes ROOTINO [46; 46; 0]).
  assert (L1 : length d1 = dirent_size) by done. assert (L2 : length d2 = dirent_size) by done.
  assert (Hmx : (dirent_size * 208 < MAXFILE * BSIZE)%nat) by (apply Nat.ltb_lt; vm_compute; reflexivity).
  change dirent_size with 16%nat in *.
  change ROOTINO with (file_no 0). replace (Z.of_nat 16) with (Z.of_nat (length d1)) by by rewrite L1.
  apply wp_bind, (wp_iappend 0 d1 T_DIR [] _ s1 G1 [(T_DIR, [])]); [done|done|rewrite L1; cbn [length]; lia| |].
  { rewrite L1, (bt_blocks _ _ _ B1). assert (nblk (length (@nil Z) + 16) - nblk (length (@nil Z)) = 1) as -> by done. assert (total [(T_DIR, [])] = 0) as Et by (vm_compute; reflexivity).
    change ([] ++ [(T_DIR, [])]) with [(T_DIR, @nil Z)]. lia. }
  intros s2 G2 B2. replace (Z.of_nat (length d1)) with (Z.of_nat (length d2)) by by rewrite L1.
  apply wp_bind, (wp_iappend 0 d2 T_DIR d1 _ s2 G2 [(T_DIR, d1)]); [done|done|rewrite L1, L2; lia| |].
  { rewrite L1, L2, (bt_blocks _ _ _ B2). assert (nblk (16 + 16) - nblk 16 = 0) as -> by done. assert (total [(T_DIR, d1)] = 1) as Et by (vm_compute; reflexivity).
    change (<[0%nat:=(T_DIR, [] ++ d1)]> [(T_DIR, [])]) with [(T_DIR, d1)]. lia. }
  intros s3 G3 B3. by apply (HQ s3 G3).
Qed.

Lemma wp_add_files args nds Q s G :
  built s G (layout []) -> Forall2 host_file args nds -> (length nds <= 206)%nat -> nmeta + total (layout nds) <= 2000 ->
  (forall s' G', built s' G' (layout nds) -> Q tt s') -> wp (for_each args (add_file ROOTINO)) Q s.
Proof.
  intros B HF Hl Hroom HQ. apply (wp_for_each (fun pre s' => exists G', built s' G' (layout (take (length pre) nds)))).
  - by exists G.
  - intros pre arg post s' -> [G' B']. apply Forall2_app_inv_l in HF as (nds1 & nds2 & F1 & F2 & ->). apply Forall2_cons_inv_l in F2 as (nd & nds3 & Hso & _ & ->).
    assert (El := Forall2_length _ _ _ F1). rewrite length_app in Hl. cbn [length] in Hl. rewrite El, take_app_length in B'.
    assert (Hm := layout_mono (nds1 ++ [nd]) nds3). rewrite <- app_assoc in Hm. cbn [app] in Hm.
    apply (wp_add_file arg nd nds1 _ s' G' B' Hso); [lia|lia|]. intros s2 G2 B2. exists G2.
    rewrite length_app, El. cbn [length]. replace (nds1 ++ nd :: nds3) with ((nds1 ++ [nd]) ++ nds3) by by rewrite <- app_assoc.
    rewrite take_app_length' by (rewrite length_app; cbn [length]; lia). done.
  - intros s' [G' B']. rewrite (Forall2_length _ _ _ HF), firstn_all in B'. by apply (HQ s' G').
Qed.

(** The last steps of [main]. *)
Lemma wp_finish Q s G nds :
  built s G (layout nds) -> (length nds <= 206)%nat ->
  (forall s', mk_len s' = 2000 -> image (mk_img s') nds -> Q tt s') ->
  wp (din ← rinode ROOTINO;
      let off := xint (get32 di_size din) in
      let off := wrap32 ((off / Z.of_nat BSIZE + 1) * Z.of_nat BSIZE) in
      winode ROOTINO (put32 di_size (xint off) din);;
      used ← gets mk_freeblock;
      mk_balloc used) Q s.
Proof.
  intros B Hl HQ. assert (S := bt_sim _ _ _ B). assert (R1 : 0 <= ROOTINO < 208) by (change ROOTINO with 1; lia). assert (Hn := nmeta_val).
  apply wp_bind, (wp_rinode _ _ _ _ S R1). intros din Hd. cbv zeta.
  assert (Hroot := bt_files _ _ _ B 0 T_DIR (root_bytes nds) eq_refl). change (file_no 0) with ROOTINO in Hroot.
  assert (Hsz : (root_size nds <= 16 * BSIZE)%nat).
  { unfold root_size. apply Nat.mul_le_mono_r. change dirent_size with 16%nat. change BSIZE with 1024%nat.
    assert ((16 * (2 + length nds)) / 1024 < 5)%nat by (apply Nat.Div0.div_lt_upper_bound; lia). lia. }
  assert (Hbs : Z.of_nat BSIZE = 1024) by done.
  assert (Eo : xint (wrap32 ((xint (get32 di_size din) / Z.of_nat BSIZE + 1) * Z.of_nat BSIZE)) = Z.of_nat (root_size nds)).
  { rewrite (din_size _ _ Hd), (ho_size _ _ _ _ _ Hroot), root_bytes_length. rewrite (xint_id (Z.of_nat (dirent_size * _))) by (change dirent_size with 16%nat; lia).
    replace ((_ / _ + 1) * Z.of_nat BSIZE) with (Z.of_nat (root_size nds)) by (unfold root_size; by rewrite (Nat2Z.inj_mul _ BSIZE), Nat2Z.inj_add, Nat2Z.inj_div).
    rewrite wrap32_small by lia. apply xint_id. lia. }
  rewrite Eo. assert (Hd2 := din_put_size _ _ (Z.of_nat (root_size nds)) Hd ltac:(lia)).
  apply wp_bind, (wp_winode _ _ _ _ _ S R1); [apply Hd2|]. intros s2 S2 Hf2 _. apply wp_bind, wp_gets.
  assert (Hfr := sm_free _ _ S2). unfold mk_balloc, assert. change (Z.of_nat BPB) with 8192. destruct (Z.ltb_spec (mk_freeblock s2) 8192); [|lia].
  apply wp_bind, wp_ret, wp_bind, wp_gets. rewrite (sm_sb _ _ S2). cbn [sb_bmapstart sbk]. apply wp_wsect; [apply S2|lia|].
  apply HQ; [apply S2|]. rewrite Hf2. eapply (built_image s G nds); [done|done|exact Hd2| |apply vset_eq].
  intros z Hz. unfold put_sector. cbn [mk_img set_mk_img]. rewrite vset_ne by done. symmetry. by apply (sm_img _ _ S2).
Qed.

Lemma wp_mk_main argv nds Q s :
  (2 <= length argv)%nat -> create_ok (nth 1 argv []) = true -> mk_freeinode s = 1 -> Forall2 host_file (drop 2 argv) nds ->
  (length nds <= 206)%nat -> nmeta + total (layout nds) <= 2000 ->
  (forall s', mk_len s' = 2000 -> image (mk_img s') nds -> Q tt s') -> wp (mk_main argv) Q s.
Proof.
  intros Ha Hc Hi HF Hl Hroom HQ. unfold mk_main. destruct (Nat.ltb_spec (length argv) 2); [lia|].
  change (BSIZE mod dinode_size =? 0)%nat with true. change (BSIZE mod dirent_size =? 0)%nat with true.
  apply wp_bind, wp_ret, wp_bind, wp_ret. rewrite Hc. cbn [negb]. apply wp_bind, wp_modify. cbv zeta.
  assert (Esb : mksuper FSMAGIC (xint FSSIZE) (xint nblocks) (xint NINODES) (xint nlog) (xint 2) (xint (2 + nlog))
    (xint (2 + nlog + ninodeblocks)) = sbk) by (vm_compute; reflexivity).
  rewrite Esb. apply wp_bind, wp_modify, wp_bind, wp_modify. apply wp_bind, wp_zero; [by change FSSIZE with 2000; lia|done|].
  intros s1 Hl1 Hz1 Hsb1 Hfi1 Hfb1. change (Z.of_nat (Z.to_nat FSSIZE)) with 2000 in *. cbn in Hsb1, Hfi1, Hfb1.
  apply wp_bind, wp_wsect; [done|lia|]. fold sb_sector. eapply wp_root; [apply built_nil|exact Hroom|].
  - done.
  - done.
  - cbn. lia.
  - done.
  - intros z Hz. cbn. destruct (Z.eqb_spec z 1) as [->|Hne]; [by rewrite vset_eq|]. rewrite vset_ne by done. by apply Hz1.
  - intros s2 G2 B2. apply wp_bind. apply (wp_add_files (drop 2 argv) nds _ s2 G2 B2); [done|done|done|].
    intros s3 G3 B3. by apply (wp_finish _ _ G3 nds).
Qed.

End main.
