(* ===== verification/MkfsTree.v ===== *)
(** * The tree of the image [mkfs] makes

    The root directory of the image lists every file under its name: looking a
    name up the way the kernel does ([Namei.resolve]) finds the file. A root
    directory that fills its blocks exactly is given a size that takes in a
    block it does not have. *)

From stdpp Require Import base gmap strings numbers list.
From S2P Require Import Prelude State Strings Printf Bytes Cache Log LogSpec Fs Bitmap FileData FileWrite Writei Icache Namei Ulib Mkfs MkfsFile MkfsSpec MkfsMain.

#[local] Opaque nmeta in_use alloc_view.

(** ** Entries *)

Section entries.
Implicit Types (nm name : list Z) (l : list (list Z)) (nds : list (list Z * list Z)).

(** A name in an array, with or without a NUL after it. *)
Lemma cstr_arr (n k : nat) nm : no_nul nm -> (length nm <= n)%nat -> cstr n (arr (nm ++ replicate k 0)) = nm.
Proof.
  intros H. revert n. induction H as [|c nm Hc H IH]; intros n Hn; cbn [app length] in *.
  - destruct n; [done|]. cbn [cstr]. unfold arr. by rewrite nth_zeros.
  - destruct n as [|n]; [lia|]. cbn [cstr]. change (arr (c :: nm ++ replicate k 0) 0) with c.
    destruct (Z.eqb_spec c 0); [done|]. f_equal. etrans; [|apply (IH n); lia]. by apply cstr_ext.
Qed.

Lemma cstr_name (n : nat) nm : no_nul nm -> (length nm <= n)%nat -> cstr n (arr nm) = nm.
Proof. intros H Hn. rewrite <- (app_nil_r nm) at 1. by apply (cstr_arr n 0). Qed.

Lemma entry_fields inum nm : no_nul nm -> (length nm <= DIRSIZ)%nat -> 0 <= inum < 2 ^ 16 ->
  de_inum (entry inum nm) = inum /\ cstr DIRSIZ (arr (de_name (entry inum nm))) = nm.
Proof.
  intros Hn Hl Hi. unfold entry, mk_dirent_bytes, strncpy_arr. rewrite cstr_name by done. set (w := nm ++ _). set (b := put16 _ _ _).
  assert (Hb : length b = dirent_size) by done.
  assert (Hw : length w = DIRSIZ) by (unfold w; rewrite length_app, length_replicate; lia). unfold DIRSIZ, dirent_size in *. split.
  - unfold de_inum, get_le. rewrite slice_splice_out by (rewrite ?Hb, ?Hw; lia). change (get16 0 b = inum). unfold b.
    rewrite get_put_same, xshort_id by (done || (rewrite length_replicate; lia)). by apply Z.mod_small.
  - assert (E := slice_splice_same 2 w b). rewrite Hw, Hb in E. unfold de_name, DIRSIZ. rewrite E by lia. by apply cstr_arr.
Qed.

(** Blocks of the same length, one after the other. *)
Lemma nth_join (n k i : nat) l : Forall (fun d => length d = n) l -> (i < n)%nat ->
  nth (n * k + i) (mjoin l) 0 = nth i (nth k l (replicate n 0)) 0.
Proof.
  intros H Hi. revert k. induction H as [|d l Hd H IH]; intros k.
  - replace (nth k [] (replicate n 0)) with (replicate n 0) by by destruct k. rewrite nth_zeros. cbn. by destruct (n * k + i)%nat.
  - cbn [mjoin list_join]. destruct k as [|k].
    + rewrite Nat.mul_0_r. cbn [nth Nat.add]. apply app_nth1. lia.
    + rewrite app_nth2 by lia. replace (n * S k + i - length d)%nat with (n * k + i)%nat by lia. apply IH.
Qed.

(** The entries of the root directory, and their names. *)
Definition root_entries nds : list (list Z) :=
  mk_dirent_bytes ROOTINO [46; 0] :: mk_dirent_bytes ROOTINO [46; 46; 0] :: imap (fun i nd => entry (file_no (S i)) nd.1) nds.

Definition root_names nds : list (list Z) := [46] :: [46; 46] :: nds.*1.

(** The inode of entry [k]. *)
Definition root_ino (k : nat) : Z := if (k <? 2)%nat then ROOTINO else file_no (k - 1).

Lemma root_bytes_join nds : root_bytes nds = mjoin (root_entries nds).
Proof. done. Qed.

Lemma root_entries_length nds : length (root_entries nds) = (2 + length nds)%nat.
Proof. unfold root_entries. cbn [length]. by rewrite length_imap. Qed.

Lemma root_entries_size nds : Forall (fun d => length d = dirent_size) (root_entries nds).
Proof.
  repeat constructor. apply Forall_lookup_2. intros i d Hd. rewrite list_lookup_imap in Hd.
  destruct (nds !! i) as [nd|]; [|done]. injection Hd as <-. apply entry_length.
Qed.

Lemma root_entry nds k name :
  Forall (fun nd => no_nul nd.1 /\ (length nd.1 <= DIRSIZ)%nat) nds -> (length nds <= 206)%nat -> root_names nds !! k = Some name ->
  exists de, root_entries nds !! k = Some de /\ de_inum de = root_ino k /\ cstr DIRSIZ (arr (de_name de)) = name.
Proof.
  intros HF Hl Hk. destruct k as [|[|k]]; [injection Hk as <-; by eexists..|].
  change ((nds.*1) !! k = Some name) in Hk. rewrite list_lookup_fmap in Hk. destruct (nds !! k) as [nd|] eqn:E; [|done]. injection Hk as <-.
  exists (entry (file_no (S k)) nd.1). assert (Hlt := lookup_lt_Some _ _ _ E). split; [|].
  - change (imap (fun i nd => entry (file_no (S i)) nd.1) nds !! k = Some (entry (file_no (S k)) nd.1)). by rewrite list_lookup_imap, E.
  - destruct (Forall_lookup_1 _ _ _ _ HF E) as [H1 H2].
    destruct (entry_fields (file_no (S k)) nd.1) as [-> ->]; [done|done|unfold file_no; lia|]. done.
Qed.

End entries.

(** ** The root directory *)

Section root.
Context (V : disk) (nds : list (list Z * list Z)).
Context (I : image V nds) (Hl : (length nds <= 206)%nat).
Context (HF : Forall (fun nd => no_nul nd.1 /\ (length nd.1 <= DIRSIZ)%nat) nds).
Implicit Types (name : list Z) (k : nat).

Let x := node sbk V ROOTINO.

Lemma root_size_bounds : (dirent_size * (2 + length nds) < root_size nds <= 16 * BSIZE)%nat.
Proof using Hl.
  clear HF I x. unfold root_size. pose proof BSIZE_pos. set (off := (dirent_size * (2 + length nds))%nat).
  pose proof (Nat.div_mod_eq off BSIZE). pose proof (Nat.mod_upper_bound off BSIZE ltac:(lia)). split; [lia|].
  apply Nat.mul_le_mono_r. assert (off / BSIZE < 5)%nat; [|lia]. apply Nat.Div0.div_lt_upper_bound.
  unfold off. change dirent_size with 16%nat. change BSIZE with 1024%nat. lia.
Qed.

Lemma root_nents : (dirent_size * nents x = root_size nds)%nat.
Proof using I Hl.
  clear HF. unfold nents, x. rewrite (ho_size _ _ _ _ _ (im_root _ _ I)), Nat2Z.id. unfold root_size.
  change BSIZE with (dirent_size * 64)%nat at 2 4. set (q := (_ + 1)%nat).
  replace (q * (dirent_size * 64))%nat with (q * 64 * dirent_size)%nat by lia. rewrite Nat.div_mul; [lia|done].
Qed.

Lemma root_max (i : nat) : (i < root_size nds)%nat -> (i < MAXFILE * BSIZE)%nat.
Proof using Hl.
  intros Hi. pose proof root_size_bounds as [_ H]. assert (16 <= MAXFILE)%nat as HM by (apply Nat.leb_le; reflexivity).
  apply (Nat.mul_le_mono_r _ _ BSIZE) in HM. lia.
Qed.

Lemma root_dirent k : (k < nents x)%nat -> dirent_at x V k = nth k (root_entries nds) (replicate dirent_size 0).
Proof using I Hl.
  intros Hk. assert (En := root_nents). set (d := nth k _ _).
  assert (Hd : length d = dirent_size).
  { unfold d. rewrite nth_lookup. destruct (root_entries nds !! k) as [e|] eqn:E; [|done]. exact (Forall_lookup_1 _ _ _ _ (root_entries_size nds) E). }
  apply list_eq. intros i. destruct (decide (i < dirent_size)%nat) as [Hi|Hi].
  - unfold dirent_at. rewrite fbytes_lookup by done.
    assert (Hm : (dirent_size * k + i < MAXFILE * BSIZE)%nat) by (apply root_max; nia).
    unfold x. rewrite (ho_bytes _ _ _ _ _ (im_root _ _ I) _ Hm), root_bytes_join, nth_join by (done || apply root_entries_size). fold d.
    destruct (lookup_lt_is_Some_2 d i) as [v Hv]; [lia|]. by rewrite nth_lookup, Hv.
  - rewrite !lookup_ge_None_2; [done|lia|unfold dirent_at; rewrite fbytes_length; lia].
Qed.

Lemma root_room k : (k < 2 + length nds)%nat -> (k < nents x)%nat.
Proof using I Hl. intros Hk. pose proof root_nents. pose proof root_size_bounds. nia. Qed.

(** The entries: those of [root_entries], then unused ones. *)
Lemma root_lookup k de : entries x V !! k = Some de ->
  (exists name, root_names nds !! k = Some name /\ de_inum de = root_ino k /\ cstr DIRSIZ (arr (de_name de)) = name) \/
  (2 + length nds <= k)%nat /\ de_inum de = 0.
Proof using I Hl HF.
  intros Hk. unfold entries in Hk. rewrite list_lookup_fmap in Hk. destruct (seq 0 (nents x) !! k) as [k'|] eqn:E; [|done].
  apply lookup_seq in E as [-> Hlt]. injection Hk as <-. cbn [Nat.add]. rewrite root_dirent by done.
  destruct (decide (k < 2 + length nds)%nat) as [Hk|Hk]; [left|right].
  - destruct (lookup_lt_is_Some_2 (root_names nds) k) as [name Hn]; [unfold root_names; cbn [length]; by rewrite length_fmap|].
    destruct (root_entry nds k name HF Hl Hn) as (de & Ed & H1 & H2). exists name. by rewrite nth_lookup, Ed.
  - split; [lia|]. rewrite nth_lookup, lookup_ge_None_2 by (rewrite root_entries_length; lia). apply get_zeros.
Qed.

Lemma root_at k name : root_names nds !! k = Some name ->
  exists de, entries x V !! k = Some de /\ de_inum de = root_ino k /\ cstr DIRSIZ (arr (de_name de)) = name.
Proof using I Hl HF.
  intros Hn. destruct (root_entry nds k name HF Hl Hn) as (de & Ed & H1 & H2). exists de. split; [|done].
  assert (Hk := lookup_lt_Some _ _ _ Ed). rewrite root_entries_length in Hk. apply root_room in Hk as Hk'.
  unfold entries. rewrite list_lookup_fmap, lookup_seq_lt by done. cbn [fmap option_fmap option_map Nat.add]. f_equal.
  by rewrite root_dirent, nth_lookup, Ed.
Qed.

Lemma root_ino_pos k : root_ino k <> 0.
Proof using. clear. unfold root_ino, file_no. destruct (k <? 2)%nat; [done|lia]. Qed.

(** A name in the list is found. *)
Lemma root_find k name : NoDup (root_names nds) -> root_names nds !! k = Some name -> no_nul name -> (length name <= DIRSIZ)%nat ->
  dir_find x V name = Some (root_ino k).
Proof using I Hl HF.
  intros Hnd Hn H0 HlN. destruct (root_at k name Hn) as (de & Ed & H1 & H2). unfold dir_find.
  assert (list_find (is_entry name) (entries x V) = Some (k, de)) as ->; [|cbn [fmap option_fmap option_map snd]; by rewrite H1].
  apply list_find_Some. split_and!; [done| |].
  - split; [rewrite H1; apply root_ino_pos|]. by rewrite H2, cstr_name.
  - intros j de' Hj Hlt [Hz Hc]. rewrite cstr_name in Hc by done. destruct (root_lookup j de' Hj) as [(nm & Hnm & _ & Ec)|[Hge Hz0]]; [|done].
    assert (j = k); [|lia]. apply (NoDup_lookup _ _ _ _ Hnd Hnm). by rewrite <- Ec, <- Hc.
Qed.

(** No other name is. *)
Lemma root_absent name : cstr DIRSIZ (arr name) ∉ root_names nds -> dir_find x V name = None.
Proof using I Hl HF.
  intros Hn. unfold dir_find. assert (list_find (is_entry name) (entries x V) = None) as ->; [|done].
  apply list_find_None, Forall_lookup_2. intros k de Hk [Hz Hc].
  destruct (root_lookup k de Hk) as [(nm & Hnm & _ & Ec)|[_ Hz0]]; [|done]. apply Hn. rewrite Hc, Ec. by eapply list_elem_of_lookup_2.
Qed.

(** A root directory that ends at the end of a block: its size takes in a block
    that it does not have. *)
Lemma root_hole : ((dirent_size * (2 + length nds)) mod BSIZE = 0)%nat ->
  i_size x = Z.of_nat (dirent_size * (2 + length nds) + BSIZE) /\
  addr_of x V ((dirent_size * (2 + length nds)) / BSIZE) = 0.
Proof using I Hl.
  intros Hm. assert (Hr := im_root _ _ I). fold x in Hr. pose proof BSIZE_pos. pose proof root_size_bounds as [_ Hb].
  set (full := (dirent_size * (2 + length nds))%nat) in *. pose proof (Nat.div_mod_eq full BSIZE). split.
  - rewrite (ho_size _ _ _ _ _ Hr). unfold root_size. fold full. f_equal. lia.
  - apply (dn_data _ _ _ (ho_dense _ _ _ _ _ Hr)).
    + assert (16 <= MAXFILE)%nat by (apply Nat.leb_le; reflexivity). unfold root_size in Hb. fold full in Hb.
      assert (full / BSIZE + 1 <= 16)%nat by (apply (Nat.mul_le_mono_pos_r _ _ BSIZE); lia). lia.
    + rewrite root_bytes_length. fold full. lia.
Qed.

(** The inodes of the image make up a tree, unless the root directory ends at
    the end of a block. *)
Lemma image_tree : ((dirent_size * (2 + length nds)) mod BSIZE <> 0)%nat -> tree sbk V (fun inum => 1 <= inum <= Z.of_nat (length nds) + 1).
Proof using I Hl HF.
  intros Hmod inum Hi y. destruct (decide (inum = ROOTINO)) as [->|Hne].
  - assert (Hr := im_root _ _ I). fold x in Hr. change y with x. clear y. destruct Hr as [R1 R2 R3 R4 R5 R6 R7 R8].
    split_and!; [by rewrite R1|by rewrite R2|]. intros _. assert (En := root_nents). assert (Hb := root_size_bounds). split.
    + split; [by rewrite R3, En| |by eapply ino_blocks_ok|].
      * rewrite R3. assert (Z.of_nat (16 * BSIZE) < 2 ^ 31) by by rewrite Nat2Z.inj_mul. lia.
      * intros i Hlt. rewrite En in Hlt. cbn [Nat.add]. assert (Hbn := block_lt i (root_max i Hlt)). split; [done|].
        rewrite (dn_data _ _ _ R6) by done. rewrite root_bytes_length. unfold root_size in Hlt. clear R1 R2 R3 R4 R5 R6 R7 R8 Hbn Hb En I HF.
        change dirent_size with 16%nat in *. change BSIZE with 1024%nat in *. set (n := length nds) in *. clearbody n x.
        pose proof (Nat.div_mod_eq (16 * (2 + n)) 1024). pose proof (Nat.mod_upper_bound (16 * (2 + n)) 1024 ltac:(lia)).
        assert (i / 1024 <= (16 * (2 + n)) / 1024)%nat; [|nia].
        apply Nat.lt_succ_r, Nat.Div0.div_lt_upper_bound. lia.
    + intros de Hde Hz. apply list_elem_of_lookup_1 in Hde as [k Hk]. destruct (root_lookup k de Hk) as [(nm & Hnm & -> & _)|[_ Hz0]]; [|done].
      apply lookup_lt_Some in Hnm. unfold root_names in Hnm. cbn [length] in Hnm. rewrite length_fmap in Hnm.
      unfold root_ino, file_no. destruct (Nat.ltb_spec k 2); [change ROOTINO with 1; lia|lia].
  - change ROOTINO with 1 in Hne. set (i := Z.to_nat (inum - 2)). destruct (lookup_lt_is_Some_2 nds i) as [[name data] Ed]; [lia|].
    assert (Hf := im_file _ _ I i name data Ed). replace (file_no (S i)) with inum in Hf by (unfold file_no; lia). fold y in Hf.
    split_and!; [by rewrite (ho_type _ _ _ _ _ Hf)|by rewrite (ho_nlink _ _ _ _ _ Hf)|by rewrite (ho_type _ _ _ _ _ Hf)].
Qed.

End root.

(** The contents of a file. *)
Lemma holds_fbytes x G ty sz bytes : holds x G ty sz bytes -> fbytes x G 0 (length bytes) = bytes.
Proof.
  intros H. apply list_eq. intros i. destruct (decide (i < length bytes)%nat) as [Hi|Hi].
  - rewrite fbytes_lookup by done. cbn [Nat.add]. rewrite (ho_bytes _ _ _ _ _ H) by (pose proof (ho_max _ _ _ _ _ H); lia).
    destruct (lookup_lt_is_Some_2 bytes i Hi) as [v Hv]. by rewrite nth_lookup, Hv.
  - rewrite !lookup_ge_None_2; [done|lia|rewrite fbytes_length; lia].
Qed.

(** ** What [mkfs] guarantees *)

(** For files that the host can open, of which the names and contents are within
    the limits and which fit in the image, [mkfs] ends, and the image holds a
    file system: the superblock, an empty log, a free map that marks exactly
    the blocks in use, the root directory, every file with its contents in
    blocks of its own, and free inodes. *)
Theorem mkfs_spec {H : Host} {R : Reader} {RS : ReaderSpec} (argv : list (list Z)) (nds : list (list Z * list Z)) (s : mkst)
    (Hargs : (2 <= length argv)%nat) (Hcreate : create_ok (nth 1 argv []) = true) (Hinit : mk_freeinode s = 1)
    (Hfiles : Forall2 host_file (drop 2 argv) nds) (Hinodes : Z.of_nat (length nds) + 1 < NINODES)
    (Hroom : nmeta + total (layout nds) <= FSSIZE) :
  wp (mk_main argv) (fun _ s' => mk_len s' = FSSIZE /\ image (mk_img s') nds) s.
Proof.
  change NINODES with 200 in Hinodes. apply (wp_mk_main argv nds); [done|done|done|done|lia|done|by split].
Qed.

(** C12: Moreover, when the names differ, path lookup in the root directory finds
    every file under its name, with the contents it had on the host, and no
    other name. The inodes of the image make up the tree that the lookup of
    the kernel relies on, unless the entries fill the blocks of the root
    directory exactly (62, 126 or 190 files): then the size of the directory
    takes in one more block, and no such block was allocated. *)
Theorem mkfs_tree {H : Host} {R : Reader} {RS : ReaderSpec} (argv : list (list Z)) (nds : list (list Z * list Z)) (s : mkst)
    (Hargs : (2 <= length argv)%nat) (Hcreate : create_ok (nth 1 argv []) = true) (Hinit : mk_freeinode s = 1)
    (Hfiles : Forall2 host_file (drop 2 argv) nds) (Hinodes : Z.of_nat (length nds) + 1 < NINODES)
    (Hroom : nmeta + total (layout nds) <= FSSIZE)
    (Hnul : Forall (fun nd => no_nul nd.1) nds) (Hnames : NoDup (root_names nds)) :
  wp (mk_main argv) (fun _ s' => let V := mk_img s' in let root := node sbk V ROOTINO in
    let full := (dirent_size * (2 + length nds))%nat in
    (forall i name data, nds !! i = Some (name, data) ->
       let inum := file_no (S i) in let x := node sbk V inum in
       resolve sbk V ROOTINO [name] = Some inum /\ i_type x = T_FILE /\ i_size x = Z.of_nat (length data) /\
       fbytes x V 0 (length data) = data) /\
    (forall name, cstr DIRSIZ (arr name) ∉ root_names nds -> resolve sbk V ROOTINO [name] = None) /\
    if decide (full mod BSIZE = 0)%nat
    then i_size root = Z.of_nat (full + BSIZE) /\ addr_of root V (full / BSIZE) = 0
    else tree sbk V (fun inum => 1 <= inum <= Z.of_nat (length nds) + 1)) s.
Proof.
  change NINODES with 200 in Hinodes. assert (Hl : (length nds <= 206)%nat) by lia.
  assert (HF : Forall (fun nd => no_nul nd.1 /\ (length nd.1 <= DIRSIZ)%nat) nds).
  { apply Forall_and; split; [done|]. apply Forall_lookup_2. intros i nd Hi.
    destruct (Forall2_lookup_r _ _ _ _ _ Hfiles Hi) as (arg & _ & So). apply So. }
  apply (wp_mk_main argv nds); [done|done|done|done|done|done|]. intros s' _ I V. fold V in I. split_and!.
  - intros i name data Hi inum x. assert (Hf := im_file _ _ I i name data Hi). fold inum x in Hf.
    destruct (Forall_lookup_1 _ _ _ _ HF Hi) as [H1 H2].
    split_and!; [|apply Hf|apply Hf|].
    + cbn [resolve]. rewrite (ho_type _ _ _ _ _ (im_root _ _ I)). change (T_DIR =? T_DIR) with true.
      rewrite (root_find V nds I Hl HF (S (S i)) name Hnames); [done| |done|done].
      change ((nds.*1) !! i = Some name). by rewrite list_lookup_fmap, Hi.
    + by eapply holds_fbytes.
  - intros name Hn. cbn [resolve]. rewrite (ho_type _ _ _ _ _ (im_root _ _ I)). change (T_DIR =? T_DIR) with true.
    by rewrite (root_absent V nds I Hl HF).
  - case_decide as Hm; [by apply root_hole|by apply image_tree].
Qed.
