(* ===== verification/Ls.v ===== *)
(** * [ls] ([ls.c])

    What [ls] prints for a path. The file system is a parameter: whether a
    path can be opened, what [fstat] and [stat] give, and the bytes that
    reading a directory gives, sixteen at a time. *)

From stdpp Require Import base gmap strings numbers list.
From Stdlib Require Import Ascii.
From S2P Require Import Prelude Strings Printf Bytes Fs Icache Namei Ulib Uprintf Filters.

(** The part of [struct stat] that [ls] uses. *)
Record lstat : Type := mklstat { ls_type : Z; ls_ino : Z; ls_size : Z }.

Class Dirs : Type := {
  can_open : list Z -> bool;
  fstat_of : list Z -> option lstat;
  stat_of : list Z -> option lstat;
  dir_bytes : list Z -> list Z
}.

(** ** The code *)

(** [for(p=path+strlen(path); p >= path && *p != '/'; p--)]: [p] is [path + k - 1],
    below the string when [k] is 0; the result is the [p] after [p++]. *)
Fixpoint base_loop (path : list Z) (k : nat) : nat :=
  match k with
  | O => O
  | S j => if arr path j =? slash then k else base_loop path j
  end.

Definition fmtname (path : list Z) : list Z :=
  let p := drop (base_loop path (S (length path))) path in
  if (DIRSIZ <=? length p)%nat then p else p ++ replicate (DIRSIZ - length p) 32.

Section ls.
Context {F : Dirs}.

Definition ls_line (name : list Z) (st : lstat) : list Z :=
  text_of_printf ("%s %d %d %d" ++ nl) [PStr (Some name); PInt (ls_type st); PInt (ls_ino st); PInt (to_int (ls_size st))].

(** [buf] for an entry: the path, a slash, and the name up to its NUL. *)
Definition entry_path (path de : list Z) : list Z := path ++ slash :: cstr DIRSIZ (arr (de_name de)).

(** [while(read(fd, &de, sizeof(de)) == sizeof(de))] *)
Fixpoint ls_loop (fuel : nat) (path data out : list Z) : option (list Z) :=
  if negb (length (take 16 data) =? 16)%nat then Some out else
  match fuel with
  | O => None
  | S fuel =>
      let de := take 16 data in
      let data := drop 16 data in
      if de_inum de =? 0 then ls_loop fuel path data out else
      match stat_of (entry_path path de) with
      | None => ls_loop fuel path data (out ++ text_of_printf ("ls: cannot stat %s" ++ nl) [PStr (Some (entry_path path de))])
      | Some st => ls_loop fuel path data (out ++ ls_line (fmtname (entry_path path de)) st)
      end
  end.

(** What is written to descriptors 1 and 2. *)
Definition ls (path : list Z) : option (list Z * list Z) :=
  if negb (can_open path) then Some ([], text_of_printf ("ls: cannot open %s" ++ nl) [PStr (Some path)]) else
  match fstat_of path with
  | None => Some ([], text_of_printf ("ls: cannot stat %s" ++ nl) [PStr (Some path)])
  | Some st =>
      if (ls_type st =? T_DEVICE) || (ls_type st =? T_FILE) then Some (ls_line (fmtname path) st, []) else
      if ls_type st =? T_DIR then
        if (512 <? length path + 1 + DIRSIZ + 1)%nat then Some (text_of_printf ("ls: path too long" ++ nl) [], []) else
        out ← ls_loop (length (dir_bytes path)) path (dir_bytes path) [];
        Some (out, [])
      else Some ([], [])
  end.

Fixpoint ls_args (args : list (list Z)) (out err : list Z) : option (list Z * list Z) :=
  match args with
  | [] => Some (out, err)
  | a :: args => r ← ls a; ls_args args (out ++ r.1) (err ++ r.2)
  end.

Definition ls_main (args : list (list Z)) : option (list Z * list Z) :=
  match args with [] => ls (bytes_of ".") | _ => ls_args args [] [] end.

(** The line in full. *)
Lemma ls_line_text name st : ls_line name st =
  name ++ 32 :: uprintint (to_int (ls_type st)) 10 true ++ 32 :: uprintint (to_int (ls_ino st)) 10 true ++
  32 :: uprintint (to_int (to_int (ls_size st))) 10 true ++ [10].
Proof. unfold ls_line, text_of_printf, vprintf. cbn. done. Qed.

(** ** Names *)

Lemma base_loop_none path k : (forall j, (j < k)%nat -> arr path j <> slash) -> base_loop path k = O.
Proof.
  induction k as [|k IH]; intros H; [done|]. cbn [base_loop]. destruct (Z.eqb_spec (arr path k) slash) as [E|_]; [by apply H in E; lia|].
  apply IH. intros j Hj. apply H. lia.
Qed.

Lemma base_loop_last path i k : arr path i = slash -> (i < k)%nat -> (forall j, (i < j < k)%nat -> arr path j <> slash) ->
  base_loop path k = S i.
Proof.
  intros Hi. induction k as [|k IH]; intros Hk H; [lia|]. cbn [base_loop]. destruct (decide (i = k)) as [->|].
  - by rewrite Hi.
  - destruct (Z.eqb_spec (arr path k) slash) as [E|_]; [by apply H in E; lia|]. apply IH; [lia|]. intros j Hj. apply H. lia.
Qed.

(** Names as [ls] prints them. *)
Definition padded (name : list Z) : list Z := name ++ replicate (DIRSIZ - length name) 32.

Lemma fmtname_entry dir name : slash ∉ name -> (length name <= DIRSIZ)%nat -> fmtname (dir ++ slash :: name) = padded name.
Proof.
  intros Hs Hl. unfold fmtname. rewrite (base_loop_last _ (length dir)).
  - replace (drop (S (length dir)) (dir ++ slash :: name)) with name.
    + unfold padded. destruct (Nat.leb_spec DIRSIZ (length name)); [|done].
      replace (DIRSIZ - length name)%nat with O by lia. by rewrite app_nil_r.
    + rewrite drop_app_ge by lia. replace (S (length dir) - length dir)%nat with 1%nat by lia. done.
  - unfold arr. rewrite app_nth2, Nat.sub_diag by lia. done.
  - rewrite length_app. cbn. lia.
  - intros j Hj E. unfold arr in E. rewrite length_app in Hj. cbn [length] in Hj. rewrite app_nth2 in E by lia.
    destruct (j - length dir)%nat as [|m] eqn:Em; [lia|]. cbn [nth] in E. destruct (decide (m < length name)%nat) as [Hm|Hm].
    + apply Hs. rewrite <- E. apply list_elem_of_In, nth_In. lia.
    + rewrite nth_overflow in E by lia. done.
Qed.

(** ** Directories *)

(** What [ls] prints for a directory entry. *)
Definition entry_text (path de : list Z) : list Z :=
  if de_inum de =? 0 then [] else
  match stat_of (entry_path path de) with
  | None => text_of_printf ("ls: cannot stat %s" ++ nl) [PStr (Some (entry_path path de))]
  | Some st => ls_line (fmtname (entry_path path de)) st
  end.

Lemma ls_loop_entries des tail path out fuel :
  Forall (fun de => length de = 16%nat) des -> (length tail < 16)%nat -> (length des <= fuel)%nat ->
  ls_loop fuel path (mjoin des ++ tail) out = Some (out ++ mjoin (entry_text path <$> des)).
Proof.
  intros H Ht. revert fuel out. induction H as [|de des Hd H IH]; intros fuel out Hf.
  - cbn [mjoin list_join app]. assert (E : (length (take 16 tail) =? 16)%nat = false) by (apply Nat.eqb_neq; rewrite length_take; lia).
    destruct fuel; cbn [ls_loop]; rewrite E; cbn; by rewrite app_nil_r.
  - destruct fuel as [|fuel]; [cbn in Hf; lia|]. cbn [length] in Hf.
    replace (mjoin (de :: des) ++ tail) with (de ++ (mjoin des ++ tail)) by (cbn; by rewrite <- app_assoc).
    change (mjoin (entry_text path <$> de :: des)) with (entry_text path de ++ mjoin (entry_text path <$> des)).
    set (rest := mjoin des ++ tail) in *.
    assert (E : take 16 (de ++ rest) = de) by (rewrite <- Hd; apply take_app_length).
    assert (Ed : drop 16 (de ++ rest) = rest) by (rewrite <- Hd; apply drop_app_length).
    cbn [ls_loop]. rewrite E, Ed, Hd. cbn [Nat.eqb negb]. unfold entry_text at 1.
    destruct (de_inum de =? 0); [|destruct (stat_of (entry_path path de))]; rewrite IH by lia; by rewrite <- ?app_assoc.
Qed.

(** A directory: the line of each entry in use, in their order, and nothing for
    what is left at the end if it is no whole entry. *)
Lemma ls_directory path st des tail :
  can_open path = true -> fstat_of path = Some st -> ls_type st = T_DIR -> (length path + 1 + DIRSIZ + 1 <= 512)%nat ->
  dir_bytes path = mjoin des ++ tail -> Forall (fun de => length de = 16%nat) des -> (length tail < 16)%nat ->
  ls path = Some (mjoin (entry_text path <$> des), []).
Proof.
  intros Ho Hf Ht Hlen Eb Hd Hl. unfold ls. rewrite Ho, Hf, Ht. change (T_DIR =? T_DEVICE) with false.
  change (T_DIR =? T_FILE) with false. change (T_DIR =? T_DIR) with true. cbn [orb negb].
  rewrite (proj2 (Nat.ltb_ge _ _) Hlen), Eb, ls_loop_entries; [done|done|done|]. rewrite length_app.
  enough (length des <= length (mjoin des))%nat by lia. clear -Hd. induction Hd as [|de des H _ IH]; [done|].
  change (mjoin (de :: des)) with (de ++ mjoin des). rewrite length_app. cbn [length]. lia.
Qed.

End ls.
