(* ===== verification/Shell.v ===== *)
(** * The command parser of the shell ([user/sh.c])

    The parser walks over the input line with the pointer [*ps], here an
    offset into the line and the state of the monad; tokens are the offsets of
    their first character and of the one after their last. [nulterminate]
    then writes a NUL after every word, which turns the offsets into strings.
    The constructors' [malloc] is taken to succeed. *)

From stdpp Require Import base strings numbers list.
From Stdlib Require Import Ascii.
From S2P Require Import Prelude Printf Strings Sysfile Ulib.

(** ** Commands *)

Definition MAXARGS : nat := 10.

(** The command structures, over the type of their strings. *)
Inductive cmd (A : Type) : Type :=
| EXEC (argv : list A)
| REDIR (c : cmd A) (file : A) (mode fd : Z)
| PIPE (left right : cmd A)
| LIST (left right : cmd A)
| BACK (c : cmd A).

Arguments EXEC {A} argv.
Arguments REDIR {A} c file mode fd.
Arguments PIPE {A} left right.
Arguments LIST {A} left right.
Arguments BACK {A} c.

(** ** Tokens *)

Definition whitespace : list Z := [32; 9; 13; 10; 11].
Definition symbols : list Z := chr <$> ["<"; "|"; ">"; "&"; ";"; "("; ")"]%char.

Definition found {A} (o : option A) : bool := match o with Some _ => true | None => false end.
Definition is_ws (c : Z) : bool := found (strchr whitespace c).
Definition is_sym (c : Z) : bool := found (strchr symbols c).

Abbreviation PM := (M nat).

Section parser.
Context (buf : list Z) (es : nat).

(** The loop [s++] while [s < es] and [p] holds of the character at [s], with
    [n] characters left. *)
Fixpoint skip (p : Z -> bool) (n s : nat) : nat :=
  match n with
  | O => s
  | S n => if p (at_ buf s) then skip p n (S s) else s
  end.

(** The switch of [gettoken]: the token's code and the pointer after it. *)
Definition scan_token (s : nat) : Z * nat :=
  let c := at_ buf s in
  if c =? 0 then (c, s)
  else if bool_decide (c ∈ chr <$> ["|"; "("; ")"; ";"; "&"; "<"]%char) then (c, S s)
  else if c =? chr ">"%char then
    if at_ buf (S s) =? chr ">"%char then (chr "+"%char, S (S s)) else (c, S s)
  else (chr "a"%char, skip (fun x => negb (is_ws x) && negb (is_sym x)) (es - s) s).

(** The token's code and the pointers [q] and [eq]. *)
Definition gettoken : PM (Z * nat * nat) :=
  s ← gets (fun ps => ps);
  let q := skip is_ws (es - s) s in
  let t := scan_token q in
  modify (fun _ => skip is_ws (es - t.2) t.2);;
  mret (t.1, q, t.2).

Definition peek (toks : list Z) : PM bool :=
  s ← gets (fun ps => ps);
  let s := skip is_ws (es - s) s in
  modify (fun _ => s);;
  mret (negb (at_ buf s =? 0) && found (strchr toks (at_ buf s))).

(** ** The grammar *)

Abbreviation word := (nat * nat)%type.

(** [while(peek(ps, es, "<>"))]; every turn takes a token. *)
Fixpoint parseredirs (fuel : nat) (c : cmd word) : PM (cmd word) :=
  b ← peek (chr <$> ["<"; ">"]%char);
  if negb b then mret c else
  match fuel with
  | O => hang
  | S fuel =>
      t ← gettoken;
      w ← gettoken;
      if negb (w.1.1 =? chr "a"%char) then panic "missing file for redirection" else
      let file := (w.1.2, w.2) in
      let tok := t.1.1 in
      parseredirs fuel
        (if tok =? chr "<"%char then REDIR c file O_RDONLY 0
         else if tok =? chr ">"%char then REDIR c file (Z.lor (Z.lor O_WRONLY O_CREATE) O_TRUNC) 1
         else if tok =? chr "+"%char then REDIR c file (Z.lor O_WRONLY O_CREATE) 1
         else c)
  end.

(** [cmd->argv[argc] = q; cmd->eargv[argc] = eq]: [cmd] is the innermost
    structure of [ret], inside the redirections wrapped around it so far. *)
Fixpoint push_arg (w : word) (ret : cmd word) : cmd word :=
  match ret with
  | EXEC argv => EXEC (argv ++ [w])
  | REDIR c file mode fd => REDIR (push_arg w c) file mode fd
  | c => c
  end.

(** One turn for each word, and the one that finds the end of the line. *)
Fixpoint parseexec_loop (fuel argc : nat) (ret : cmd word) : PM (cmd word) :=
  b ← peek (chr <$> ["|"; ")"; "&"; ";"]%char);
  if (b : bool) then mret ret else
  match fuel with
  | O => hang
  | S fuel =>
      w ← gettoken;
      if w.1.1 =? 0 then mret ret else
      if negb (w.1.1 =? chr "a"%char) then panic "syntax" else
      let ret := push_arg (w.1.2, w.2) ret in
      if (MAXARGS <=? S argc)%nat then panic "too many args" else
      ret ← parseredirs es ret;
      parseexec_loop fuel (S argc) ret
  end.

(** [while(peek(ps, es, "&"))] *)
Fixpoint back_loop (fuel : nat) (c : cmd word) : PM (cmd word) :=
  b ← peek [chr "&"%char];
  if negb b then mret c else
  match fuel with
  | O => hang
  | S fuel => gettoken;; back_loop fuel (BACK c)
  end.

(** The recursive descent; [parseblock] is the only way back to [parseline]
    that does not first take a token in the caller. *)
Fixpoint parseline (fuel : nat) : PM (cmd word) :=
  match fuel with
  | O => hang
  | S fuel =>
      c ← parsepipe fuel;
      c ← back_loop es c;
      b ← peek [chr ";"%char];
      if (b : bool) then gettoken;; r ← parseline fuel; mret (LIST c r) else mret c
  end
with parsepipe (fuel : nat) : PM (cmd word) :=
  match fuel with
  | O => hang
  | S fuel =>
      c ← parseexec fuel;
      b ← peek [chr "|"%char];
      if (b : bool) then gettoken;; r ← parsepipe fuel; mret (PIPE c r) else mret c
  end
with parseexec (fuel : nat) : PM (cmd word) :=
  match fuel with
  | O => hang
  | S fuel =>
      b ← peek [chr "("%char];
      if (b : bool) then parseblock fuel else
      ret ← parseredirs es (EXEC []);
      parseexec_loop (S es) 0 ret
  end
with parseblock (fuel : nat) : PM (cmd word) :=
  match fuel with
  | O => hang
  | S fuel =>
      b ← peek [chr "("%char];
      if negb b then panic "parseblock" else
      gettoken;;
      c ← parseline fuel;
      b ← peek [chr ")"%char];
      if negb b then panic "syntax - missing )" else
      gettoken;;
      parseredirs es c
  end.

End parser.

(** [*eargv[i] = 0] and [*efile = 0] on the line [m]. *)
Fixpoint nulterminate (c : cmd (nat * nat)) (m : list Z) : list Z :=
  match c with
  | EXEC argv => foldl (fun m w => <[w.2 := 0]> m) m argv
  | REDIR c file _ _ => <[file.2 := 0]> (nulterminate c m)
  | PIPE l r | LIST l r => nulterminate r (nulterminate l m)
  | BACK c => nulterminate c m
  end.

(** The depth of the recursion is bounded by four calls for each character. *)
Definition parse_fuel (s : list Z) : nat := 4 * length s + 4.

(** The bytes of a C string as a [string]. *)
Definition text (l : list Z) : string := String.string_of_list_ascii ((fun c => ascii_of_nat (Z.to_nat c)) <$> l).

(** What [fprintf(2, "leftovers: %s\n", s)] writes. *)
Definition leftovers (rest : list Z) : string := String.append "leftovers: " (String.append (text rest) "
").

(** The line [s] is stored with its NUL. A panic writes its message to
    descriptor 2, after the leftovers when there are some. *)
Definition parsecmd (s : list Z) : PM (cmd (nat * nat) * list Z) :=
  let es := length s in
  c ← parseline s es (parse_fuel s);
  _ ← peek s es [];
  ps ← gets (fun ps => ps);
  if negb (ps =? es)%nat then panic (String.append (leftovers (drop ps s)) "syntax") else
  mret (c, nulterminate c (s ++ [0])).
