(* ===== verification/ShellSpec.v ===== *)
(** * The shell's parser is total, keeps its words apart and reads back what
    is printed *)

From stdpp Require Import base sets strings numbers list.
From Stdlib Require Import Ascii.
From S2P Require Import Prelude Printf Strings Sysfile Ulib Shell.

(** ** Runs of the parser *)

(** The computation returns, with a result in [Q], or reports a syntax error;
    it does not run out of fuel. *)
Definition runs {S A} (m : M S A) (Q : A -> S -> Prop) (s : S) : Prop :=
  match m s with
  | Ok a s' => Q a s'
  | Panic _ _ => True
  | _ => False
  end.

Section runs.
Context {S : Type}.
Implicit Types (s : S).

Lemma runs_ret {A} (a : A) (Q : A -> S -> Prop) s : Q a s -> runs (mret a) Q s.
Proof. done. Qed.

Lemma runs_bind {A B} (m : M S A) (k : A -> M S B) Q s :
  runs m (fun a => runs (k a) Q) s -> runs (m ≫= k) Q s.
Proof. unfold runs, mbind, M_bind. by destruct (m s). Qed.

Lemma runs_mono {A} (m : M S A) (Q R : A -> S -> Prop) s :
  runs m Q s -> (forall a s', Q a s' -> R a s') -> runs m R s.
Proof. unfold runs. destruct (m s); naive_solver. Qed.

Lemma runs_panic {A} msg (Q : A -> S -> Prop) s : runs (panic msg) Q s.
Proof. done. Qed.

Lemma runs_eq {A} (m : M S A) a s s' (Q : A -> S -> Prop) : m s = Ok a s' -> Q a s' -> runs m Q s.
Proof. unfold runs. by intros ->. Qed.

End runs.

(** ** Words *)

Definition wordc (c : Z) : bool := negb (is_ws c) && negb (is_sym c).

(** The strings of a command, in the order they are terminated. *)
Fixpoint strings_of {A} (c : cmd A) : list A :=
  match c with
  | EXEC argv => argv
  | REDIR c file _ _ => strings_of c ++ [file]
  | PIPE l r | LIST l r => strings_of l ++ strings_of r
  | BACK c => strings_of c
  end.

(** The commands [runcmd] is written for: the arguments fit into their array
    with the null pointer after them, and a redirection is one of the three. *)
Definition redir_typed (mode fd : Z) : Prop :=
  mode = O_RDONLY /\ fd = 0 \/ mode = Z.lor (Z.lor O_WRONLY O_CREATE) O_TRUNC /\ fd = 1 \/ mode = Z.lor O_WRONLY O_CREATE /\ fd = 1.

Fixpoint cmd_typed {A} (c : cmd A) : Prop :=
  match c with
  | EXEC argv => (length argv < MAXARGS)%nat
  | REDIR c _ mode fd => redir_typed mode fd /\ cmd_typed c
  | PIPE l r | LIST l r => cmd_typed l /\ cmd_typed r
  | BACK c => cmd_typed c
  end.

(** The arguments of the simple command inside redirections. *)
Fixpoint nargs {A} (c : cmd A) : nat :=
  match c with
  | EXEC argv => length argv
  | REDIR c _ _ _ => nargs c
  | _ => 0%nat
  end.

Section parser.
Context (buf : list Z) (Hbuf : no_nul buf).

Abbreviation es := (length buf).

Record is_word (w : nat * nat) : Prop := {
  w_lt : (w.1 < w.2)%nat;
  w_le : (w.2 <= es)%nat;
  w_in : forall i, (w.1 <= i < w.2)%nat -> wordc (at_ buf i) = true;
  w_end : w.2 = es \/ wordc (at_ buf w.2) = false
}.

Lemma at_nonzero i : (i < es)%nat -> at_ buf i <> 0.
Proof using Hbuf.
  intros Hi. destruct (lookup_lt_is_Some_2 buf i Hi) as [c Hc]. rewrite (at_lookup _ _ _ Hc).
  revert Hbuf. unfold no_nul. rewrite Forall_lookup. intros H. by eapply H.
Qed.

Lemma at_zero i : at_ buf i = 0 -> (es <= i)%nat.
Proof using Hbuf. intros H. destruct (decide (i < es)%nat) as [Hi|]; [|lia]. by apply at_nonzero in Hi. Qed.

Lemma skip_spec p n s :
  let s' := skip buf p n s in
  (s <= s' <= s + n)%nat /\ (forall i, (s <= i < s')%nat -> p (at_ buf i) = true) /\
  (s' = s + n \/ p (at_ buf s') = false)%nat.
Proof.
  revert s. induction n as [|n IH]; intros s; cbn.
  - split_and!; [lia|lia|intros i ?; lia|left; lia].
  - destruct (p (at_ buf s)) eqn:E.
    + destruct (IH (S s)) as (H1 & H2 & H3). split_and!; [lia|lia| |destruct H3; [left; lia|by right]].
      intros i Hi. destruct (decide (i = s)) as [->|]; [done|]. apply H2. lia.
    + split_and!; [lia|lia|intros i ?; lia|by right].
Qed.

(** After blanks: inside the line at a character that is not blank, or at its
    end. *)
Lemma skip_ws_spec s :
  (s <= es)%nat -> let s' := skip buf is_ws (es - s) s in
  (s <= s' <= es)%nat /\ (s' = es \/ (s' < es)%nat /\ is_ws (at_ buf s') = false).
Proof.
  intros Hs. destruct (skip_spec is_ws (es - s) s) as (H1 & _ & H3). cbn zeta.
  split; [lia|]. destruct (decide (skip buf is_ws (es - s) s = es)%nat) as [|Hne]; [by left|right].
  destruct H3; [lia|]. split; [lia|done].
Qed.

(** What a token can be. *)
Definition token_ok (ps : nat) (t : Z * nat * nat) (ps' : nat) : Prop :=
  (ps <= ps' <= es)%nat /\ (t.1.1 <> 0 -> (ps < ps')%nat) /\ (t.1.1 = chr "a"%char -> is_word (t.1.2, t.2)).

Lemma symbols_no_nul : no_nul symbols.
Proof. by repeat constructor. Qed.

Lemma is_sym_elem c : is_sym c = true <-> c ∈ symbols.
Proof.
  rewrite <- (strchr_elem _ _ symbols_no_nul). unfold is_sym, found. case_match; naive_solver.
Qed.

(** The token at a character that is not blank. *)
Lemma scan_token_spec q :
  (q < es)%nat -> is_ws (at_ buf q) = false ->
  let t := scan_token buf es q in
  (q < t.2 <= es)%nat /\ t.1 <> 0 /\ (t.1 = chr "a"%char -> is_word (q, t.2)).
Proof using Hbuf.
  intros Hlt Hws. unfold scan_token. assert (E0 := at_nonzero q Hlt).
  destruct (Z.eqb_spec (at_ buf q) 0) as [|_]; [done|]. case_bool_decide as Es.
  { cbn. split_and!; [lia|lia|done|]. intros Ea. rewrite Ea in Es. by apply (bool_decide_eq_true_2 (_ ∈ _)) in Es. }
  destruct (Z.eqb_spec (at_ buf q) (chr ">"%char)) as [Eg|Eg].
  { destruct (Z.eqb_spec (at_ buf (S q)) (chr ">"%char)) as [Eg'|Eg']; cbn.
    - assert (S q < es)%nat; [|split_and!; [lia|lia|done|done]].
      destruct (decide (S q < es)%nat); [done|]. rewrite at_end in Eg' by lia. done.
    - split_and!; [lia|lia|by rewrite Eg|by rewrite Eg]. }
  cbn. fold wordc. destruct (skip_spec wordc (es - q) q) as (H1 & H2 & H3).
  assert (Hc : wordc (at_ buf q) = true).
  { unfold wordc. rewrite Hws. cbn. apply negb_true_iff, not_true_is_false. rewrite is_sym_elem.
    intros Hs. unfold symbols in Hs. revert Es Eg. cbn in *. set_solver. }
  assert (q < skip buf wordc (es - q) q)%nat.
  { destruct (es - q)%nat eqn:E; [lia|]. cbn. rewrite Hc. pose proof (skip_spec wordc n (S q)). cbn in *. lia. }
  split_and!; [lia|lia|done|]. intros _. split; cbn; [lia|lia|done|].
  destruct H3 as [->|H3]; [left; lia|by right].
Qed.

Lemma gettoken_eq ps :
  gettoken buf es ps =
  (let q := skip buf is_ws (es - ps) ps in let t := scan_token buf es q in
   Ok (t.1, q, t.2) (skip buf is_ws (es - t.2) t.2)).
Proof. done. Qed.

Lemma gettoken_runs ps :
  (ps <= es)%nat -> exists t ps', gettoken buf es ps = Ok t ps' /\ token_ok ps t ps'.
Proof using Hbuf.
  intros Hps. destruct (skip_ws_spec ps Hps) as [Hq Hq'].
  set (q := skip buf is_ws (es - ps) ps) in *. set (t := scan_token buf es q) in *.
  exists (t.1, q, t.2), (skip buf is_ws (es - t.2) t.2). split; [done|].
  destruct Hq' as [Eq|[Hlt Hws]].
  - assert (Et : t = (0, q)) by (unfold t, scan_token; by rewrite at_end by lia).
    rewrite Et. cbn. destruct (skip_ws_spec q) as [H _]; [lia|]. split_and!; cbn; [lia|lia|done|done].
  - destruct (scan_token_spec q Hlt Hws) as (H1 & H2 & H3). fold t in H1, H2, H3.
    destruct (skip_ws_spec t.2) as [H _]; [lia|]. split_and!; cbn; [lia|lia|intros _; lia|done].
Qed.

Lemma peek_runs toks ps :
  (ps <= es)%nat -> exists b ps', peek buf es toks ps = Ok b ps' /\ (ps <= ps' <= es)%nat /\
    (b = true -> (ps' < es)%nat /\ is_ws (at_ buf ps') = false /\ found (strchr toks (at_ buf ps')) = true).
Proof using Hbuf.
  intros Hps. destruct (skip_ws_spec ps Hps) as [Hq Hq'].
  set (q := skip buf is_ws (es - ps) ps) in *.
  exists (negb (at_ buf q =? 0) && found (strchr toks (at_ buf q))), q. split; [done|]. split; [done|].
  intros [Hb1 Hb2]%andb_true_iff. destruct Hq' as [E|[? ?]]; [|done].
  rewrite E, at_end in Hb1 by lia. done.
Qed.

(** A token is taken after a successful look ahead. *)
Lemma gettoken_after_peek ps :
  (ps < es)%nat -> is_ws (at_ buf ps) = false ->
  exists t ps', gettoken buf es ps = Ok t ps' /\ (ps < ps' <= es)%nat.
Proof using Hbuf.
  intros Hlt Hws.
  assert (E : skip buf is_ws (es - ps) ps = ps) by (destruct (es - ps)%nat; cbn; by rewrite ?Hws).
  destruct (scan_token_spec ps Hlt Hws) as (H1 & _). eexists _, _. split; [by rewrite gettoken_eq, E|].
  destruct (skip_ws_spec (scan_token buf es ps).2) as [H _]; lia.
Qed.

(** ** Every rule of the grammar *)

(** A command the rules have built so far. *)
Record good (c : cmd (nat * nat)) : Prop := {
  g_words : Forall is_word (strings_of c);
  g_typed : cmd_typed c
}.

(** A rule started at [ps] ends at or after it, in the line, with words only
    and a typed command. *)
Definition parsed (ps : nat) (c : cmd (nat * nat)) (ps' : nat) : Prop :=
  (ps <= ps' <= es)%nat /\ good c.

Lemma good_both l r : good l -> good r -> good (PIPE l r) /\ good (LIST l r).
Proof. intros [H1 H2] [H3 H4]. split; (split; [by apply Forall_app|done]). Qed.

Lemma good_redir c file mode fd : good c -> is_word file -> redir_typed mode fd -> good (REDIR c file mode fd).
Proof. intros [H1 H2] Hw Ht. split; [apply Forall_app; split; [done|by constructor]|done]. Qed.

Lemma runs_peek toks ps Q :
  (ps <= es)%nat ->
  (forall b ps', (ps <= ps' <= es)%nat ->
    (b = true -> (ps' < es)%nat /\ is_ws (at_ buf ps') = false) -> Q b ps') ->
  runs (peek buf es toks) Q ps.
Proof using Hbuf.
  intros Hps HQ. destruct (peek_runs toks ps Hps) as (b & ps' & E & H1 & H2).
  eapply runs_eq; [exact E|]. apply HQ; [done|]. naive_solver.
Qed.

Lemma runs_gettoken ps Q :
  (ps <= es)%nat -> (forall t ps', token_ok ps t ps' -> Q t ps') -> runs (gettoken buf es) Q ps.
Proof using Hbuf.
  intros Hps HQ. destruct (gettoken_runs ps Hps) as (t & ps' & E & H). eapply runs_eq; [exact E|]. by apply HQ.
Qed.

Lemma runs_take ps Q :
  (ps < es)%nat -> is_ws (at_ buf ps) = false ->
  (forall t ps', (ps < ps' <= es)%nat -> Q t ps') -> runs (gettoken buf es) Q ps.
Proof using Hbuf.
  intros Hps Hws HQ. destruct (gettoken_after_peek ps Hps Hws) as (t & ps' & E & H).
  eapply runs_eq; [exact E|]. by apply HQ.
Qed.

Lemma parseredirs_runs fuel c ps :
  (ps <= es)%nat -> (es - ps <= fuel)%nat -> good c ->
  runs (parseredirs buf es fuel c) (fun c' ps' => parsed ps c' ps' /\ nargs c' = nargs c) ps.
Proof using Hbuf.
  revert c ps. induction fuel as [|fuel IH]; intros c ps Hps Hf Hc; cbn [parseredirs];
    apply runs_bind, runs_peek; [done| |done|]; intros b ps1 H1 Hb; (destruct b; cbn [negb]; [|apply runs_ret; by split]);
    destruct Hb as [Hb Hws]; [done|lia|done|].
  apply runs_bind, runs_take; [done..|]. intros t ps2 H2. apply runs_bind, runs_gettoken; [lia|].
  intros w ps3 (H3 & _ & Hw). destruct (Z.eqb_spec w.1.1 (chr "a"%char)) as [E|]; cbn [negb]; [|apply runs_panic].
  assert (Hword := Hw E). eapply runs_mono; [apply IH; [lia|lia|]|].
  - repeat case_match; try done; apply good_redir; unfold redir_typed; tauto.
  - intros a ps4 [[H4 Ha] En]. split; [split; [lia|done]|]. rewrite En. by repeat case_match.
Qed.

Lemma push_arg_good w c : is_word w -> good c -> (S (nargs c) < MAXARGS)%nat -> good (push_arg w c) /\ (nargs (push_arg w c) <= S (nargs c))%nat.
Proof.
  intros Hw [H1 H2]. induction c as [argv|c IH file mode fd| | |]; cbn in *; intros Hn; try (split; [by split|lia]).
  - rewrite length_app. cbn. split; [|lia]. split; [apply Forall_app; split; [done|by constructor]|]. cbn. rewrite length_app. cbn. lia.
  - apply Forall_app in H1 as [H1 H3]. apply Forall_cons in H3 as [H3 _]. destruct H2 as [Ht H2]. destruct (IH H1 H2 Hn) as [Hg Hl].
    split; [by apply good_redir|done].
Qed.

Lemma parseexec_loop_runs fuel argc c ps :
  (ps <= es)%nat -> (es - ps < fuel)%nat -> good c -> (nargs c <= argc)%nat ->
  runs (parseexec_loop buf es fuel argc c) (parsed ps) ps.
Proof using Hbuf.
  revert argc c ps. induction fuel as [|fuel IH]; intros argc c ps Hps Hf Hc Ha; [lia|]. cbn [parseexec_loop].
  apply runs_bind, runs_peek; [done|]. intros b ps1 H1 _. destruct b; [apply runs_ret; by split|].
  apply runs_bind, runs_gettoken; [lia|]. intros w ps2 (H2 & Hpos & Hw).
  destruct (Z.eqb_spec w.1.1 0) as [|H0]; [apply runs_ret; split; [lia|done]|].
  destruct (Z.eqb_spec w.1.1 (chr "a"%char)) as [E|]; cbn [negb]; [|apply runs_panic].
  destruct (Nat.leb_spec MAXARGS (S argc)) as [|Hlt]; [apply runs_panic|]. apply runs_bind. specialize (Hpos H0).
  destruct (push_arg_good (w.1.2, w.2) c (Hw E) Hc) as [Hg Hn]; [lia|].
  eapply runs_mono; [apply (parseredirs_runs es (push_arg (w.1.2, w.2) c)); [lia|lia|done]|].
  intros c' ps3 [[H3 Hc'] En]. eapply runs_mono; [apply IH; [lia|lia|done|lia]|].
  intros c2 ps4 [H4 Hc2]. split; [lia|done].
Qed.

Lemma back_loop_runs fuel c ps :
  (ps <= es)%nat -> (es - ps <= fuel)%nat -> good c ->
  runs (back_loop buf es fuel c) (parsed ps) ps.
Proof using Hbuf.
  revert c ps. induction fuel as [|fuel IH]; intros c ps Hps Hf Hc; cbn [back_loop];
    apply runs_bind, runs_peek; [done| |done|]; intros b ps1 H1 Hb; (destruct b; cbn [negb]; [|apply runs_ret; by split]);
    destruct Hb as [Hb Hws]; [done|lia|done|].
  apply runs_bind, runs_take; [done..|]. intros t ps2 H2. eapply runs_mono; [apply (IH (BACK c)); [lia|lia|by destruct Hc]|].
  intros c2 ps4 [H4 Hc2]. split; [lia|done].
Qed.

Lemma grammar_runs fuel ps :
  (ps <= es)%nat ->
  ((4 * (es - ps) + 4 <= fuel)%nat -> runs (parseline buf es fuel) (parsed ps) ps) /\
  ((4 * (es - ps) + 3 <= fuel)%nat -> runs (parsepipe buf es fuel) (parsed ps) ps) /\
  ((4 * (es - ps) + 2 <= fuel)%nat -> runs (parseexec buf es fuel) (parsed ps) ps) /\
  ((4 * (es - ps) + 1 <= fuel)%nat -> runs (parseblock buf es fuel) (parsed ps) ps).
Proof using Hbuf.
  revert ps. induction fuel as [|fuel IH]; intros ps Hps; [split_and!; lia|]. split_and!; intros Hf.
  - cbn [parseline]. apply runs_bind. eapply runs_mono; [apply IH; lia|]. intros c ps1 [H1 Hc].
    apply runs_bind. eapply runs_mono; [apply (back_loop_runs es c); [lia|lia|done]|]. intros c2 ps2 [H2 Hc2].
    apply runs_bind, runs_peek; [lia|]. intros b ps3 H3 Hb. destruct b; [|apply runs_ret; split; [lia|done]].
    destruct Hb as [Hb Hws]; [done|]. apply runs_bind, runs_take; [done..|]. intros t ps4 H4.
    apply runs_bind. eapply runs_mono; [apply (IH ps4); lia|]. intros r ps5 [H5 Hr]. apply runs_ret.
    split; [lia|]. by apply good_both.
  - cbn [parsepipe]. apply runs_bind. eapply runs_mono; [apply IH; lia|]. intros c ps1 [H1 Hc].
    apply runs_bind, runs_peek; [lia|]. intros b ps3 H3 Hb. destruct b; [|apply runs_ret; split; [lia|done]].
    destruct Hb as [Hb Hws]; [done|]. apply runs_bind, runs_take; [done..|]. intros t ps4 H4.
    apply runs_bind. eapply runs_mono; [apply (IH ps4); lia|]. intros r ps5 [H5 Hr]. apply runs_ret.
    split; [lia|]. by apply good_both.
  - cbn [parseexec]. apply runs_bind, runs_peek; [lia|]. intros b ps1 H1 _. destruct b.
    + eapply runs_mono; [apply (IH ps1); lia|]. intros c ps2 [H2 Hc]. split; [lia|done].
    + apply runs_bind. eapply runs_mono; [apply (parseredirs_runs es (EXEC [])); [lia|lia|split; [constructor|apply Nat.ltb_lt; reflexivity]]|].
      intros c ps2 [[H2 Hc] En]. eapply runs_mono; [apply (parseexec_loop_runs (S es)); [lia|lia|done|by rewrite En]|].
      intros c' ps3 [H3 Hc']. split; [lia|done].
  - cbn [parseblock]. apply runs_bind, runs_peek; [lia|]. intros b ps1 H1 Hb. destruct b; cbn [negb]; [|apply runs_panic].
    destruct Hb as [Hb Hws]; [done|]. apply runs_bind, runs_take; [done..|]. intros t ps2 H2.
    apply runs_bind. eapply runs_mono; [apply (IH ps2); lia|]. intros c ps3 [H3 Hc].
    apply runs_bind, runs_peek; [lia|]. intros b ps4 H4 Hb'. destruct b; cbn [negb]; [|apply runs_panic].
    destruct Hb' as [Hb' Hws']; [done|]. apply runs_bind, runs_take; [done..|]. intros t' ps5 H5.
    eapply runs_mono; [apply (parseredirs_runs es c); [lia|lia|done]|]. intros c' ps6 [[H6 Hc'] _]. split; [lia|done].
Qed.


End parser.

(** ** Terminated words *)

(** The C string at an address. *)
Fixpoint until_nul (l : list Z) : list Z :=
  match l with
  | [] => []
  | c :: l => if c =? 0 then [] else c :: until_nul l
  end.

Definition string_at (m : list Z) (q : nat) : list Z := until_nul (drop q m).

(** The text of a token in the line as it was typed. *)
Definition text_of (s : list Z) (w : nat * nat) : list Z := take (w.2 - w.1) (drop w.1 s).

Section strings.
Context (s : list Z) (Hs : no_nul s).
Implicit Types (w : nat * nat) (m : list Z).

Lemma nulterminate_words c m : nulterminate c m = foldl (fun m w => <[w.2 := 0]> m) m (strings_of c).
Proof.
  revert m. induction c as [argv|c IH file mode fd|l IHl r IHr|l IHl r IHr|c IH]; intros m; cbn;
    rewrite ?foldl_app; cbn; [done|by rewrite IH|by rewrite IHl, IHr|by rewrite IHl, IHr|apply IH].
Qed.

Lemma nulterminate_lookup (ws : list (nat * nat)) m i :
  foldl (fun m w => <[w.2 := 0]> m) m ws !! i =
  if decide (i ∈ ws.*2) then (fun _ => 0) <$> m !! i else m !! i.
Proof.
  revert m. induction ws as [|w ws IH]; intros m; cbn; [done|]. rewrite IH.
  destruct (decide (i = w.2)) as [->|Hne].
  - rewrite (decide_True (P := w.2 ∈ w.2 :: ws.*2)) by set_solver.
    assert (E : (fun _ : Z => 0) <$> <[w.2 := 0]> m !! w.2 = (fun _ => 0) <$> m !! w.2).
    { destruct (decide (w.2 < length m)%nat) as [Hlt|Hge].
      - rewrite list_lookup_insert_eq by done. by destruct (lookup_lt_is_Some_2 m w.2 Hlt) as [x ->].
      - by rewrite list_insert_ge by lia. }
    case_decide; [exact E|]. rewrite <- E.
    destruct (decide (w.2 < length m)%nat) as [Hlt|Hge]; [by rewrite list_lookup_insert_eq|].
    rewrite list_insert_ge by lia. by rewrite lookup_ge_None_2 by lia.
  - rewrite list_lookup_insert_ne by done. do 2 case_decide; set_solver.
Qed.

Lemma until_nul_app u v : no_nul u -> until_nul (u ++ 0 :: v) = u.
Proof. induction 1 as [|c u Hc _ IH]; cbn; [done|]. destruct (Z.eqb_spec c 0); [done|]. by rewrite IH. Qed.

(** A NUL behind every word of a list leaves each of them intact. *)
Lemma terminated (ws : list (nat * nat)) w :
  Forall (is_word s) ws -> w ∈ ws ->
  string_at (foldl (fun m w => <[w.2 := 0]> m) (s ++ [0]) ws) w.1 = text_of s w.
Proof using Hs.
  intros Hws Hw. set (m := foldl _ _ _).
  assert (Hww : is_word s w) by (by rewrite Forall_forall in Hws; apply Hws). destruct Hww as [Hlt Hle Hin _].
  assert (Hm : forall i, (w.1 <= i < w.2)%nat -> m !! i = s !! i).
  { intros i Hi. unfold m. rewrite nulterminate_lookup. rewrite lookup_app_l by lia. rewrite decide_False; [done|].
    intros (w' & -> & Hw')%list_elem_of_fmap. rewrite Forall_forall in Hws. destruct (Hws w' Hw') as [_ _ _ [E|E]]; [lia|].
    rewrite Hin in E by lia. done. }
  assert (He : m !! w.2 = Some 0).
  { unfold m. rewrite nulterminate_lookup, decide_True by (by apply list_elem_of_fmap_2).
    destruct (lookup_lt_is_Some_2 (s ++ [0]) w.2) as [x ->]; [rewrite length_app; cbn; lia|done]. }
  assert (E : m = take w.1 m ++ text_of s w ++ 0 :: drop (S w.2) m).
  { rewrite <- (take_drop w.1 m) at 1. f_equal. rewrite <- (take_drop (w.2 - w.1) (drop w.1 m)). f_equal.
    - apply list_eq. intros i. unfold text_of. destruct (decide (i < w.2 - w.1)%nat).
      + rewrite !lookup_take_lt, !lookup_drop by lia. apply Hm. lia.
      + by rewrite !lookup_take_ge by lia.
    - rewrite drop_drop. replace (w.1 + (w.2 - w.1))%nat with w.2 by lia. by apply drop_S. }
  assert (Hl : (w.1 <= length m)%nat) by (apply lookup_lt_Some in He; lia).
  unfold string_at. rewrite E, drop_app_length' by (rewrite length_take; lia). apply until_nul_app.
  unfold text_of. apply Forall_take, Forall_drop, Hs.
Qed.

End strings.

Lemma parsecmd_runs s :
  no_nul s ->
  runs (parsecmd s) (fun r _ => good s r.1 /\
    r.2 = foldl (fun m w => <[w.2 := 0]> m) (s ++ [0]) (strings_of r.1)) 0%nat.
Proof.
  intros Hs. unfold parsecmd, parse_fuel. apply runs_bind.
  eapply runs_mono; [apply (grammar_runs s Hs); lia|]. intros c ps [H Hc].
  apply runs_bind, runs_peek; [done|lia|]. intros b ps' H' _. apply runs_bind.
  apply (runs_eq _ ps' _ ps'); [done|]. case_match; [apply runs_panic|].
  apply runs_ret. split; [done|]. apply nulterminate_words.
Qed.

Lemma parsecmd_good s c m ps : no_nul s -> parsecmd s 0%nat = Ok (c, m) ps -> good s c.
Proof. intros Hs E. pose proof (parsecmd_runs s Hs) as H. unfold runs in H. rewrite E in H. apply H. Qed.

(** ** Properties *)

(** C34: Every command the parser builds is one that [runcmd] is written for: fewer
    than [MAXARGS] arguments for each program, so that the array of arguments
    ends in a null pointer, and for each redirection the descriptor and mode
    of its operator. *)
Theorem parsecmd_typed (s : list Z) (c : cmd (nat * nat)) (m : list Z) (ps : nat)
    (Hs : no_nul s) (Hp : parsecmd s 0%nat = Ok (c, m) ps) : cmd_typed c.
Proof. by eapply parsecmd_good. Qed.

(** The parser is total: on every line it ends with a command tree or with a
    syntax error; neither its loops nor its recursion run on. *)
Theorem parsecmd_terminates (s : list Z) (Hs : no_nul s) :
  (exists c m ps, parsecmd s 0%nat = Ok (c, m) ps) \/ (exists msg ps, parsecmd s 0%nat = Panic msg ps).
Proof.
  pose proof (parsecmd_runs s Hs) as H. unfold runs in H. destruct (parsecmd s 0%nat) as [[c m] ps| | |] eqn:E;
    [left|right|done|done]; eauto.
Qed.

(** [nulterminate] turns every word of the tree into the C string that was
    typed: no NUL is written into a word, also where words and operators touch;
    and every word is non-empty, without blanks and operators. *)
Theorem parsecmd_strings (s : list Z) (c : cmd (nat * nat)) (m : list Z) (ps : nat)
    (Hs : no_nul s) (Hp : parsecmd s 0%nat = Ok (c, m) ps) (w : nat * nat) (Hw : w ∈ strings_of c) :
  string_at m w.1 = text_of s w /\ text_of s w <> [] /\ Forall (fun x => wordc x = true) (text_of s w).
Proof.
  pose proof (parsecmd_runs s Hs) as H. unfold runs in H. rewrite Hp in H. cbn [fst snd] in H. destruct H as [[Hc _] ->].
  split; [by apply terminated|].
  assert (Hww : is_word s w) by (by rewrite Forall_forall in Hc; apply Hc). destruct Hww as [Hlt Hle Hin _].
  assert (E : length (text_of s w) = (w.2 - w.1)%nat) by (unfold text_of; rewrite length_take, length_drop; lia).
  split; [intros F; rewrite F in E; cbn in E; lia|]. apply Forall_lookup. intros i x Hx.
  assert (Hi := lookup_lt_Some _ _ _ Hx). unfold text_of in Hx. rewrite lookup_take_lt, lookup_drop in Hx by lia.
  rewrite <- (at_lookup _ _ _ Hx). apply Hin. lia.
Qed.
