(* ===== verification/ShellPrint.v ===== *)
(** * The shell's parser reads back printed commands

    [tokens] prints a command with the parentheses its structure needs;
    [parsecmd] turns the printed line into the same command again. *)

From stdpp Require Import base sets strings numbers list.
From Stdlib Require Import Ascii.
From S2P Require Import Prelude Printf Strings Sysfile Ulib Shell ShellSpec.

(** ** Printing *)

Inductive tok : Type :=
| TWord (w : list Z)
| TSym (c : Z)
| TApp.

Definition text (t : tok) : list Z :=
  match t with TWord w => w | TSym c => [c] | TApp => [62; 62] end.

Definition render (ts : list tok) : list Z := ts ≫= fun t => text t ++ [32].

Definition sym (a : ascii) : tok := TSym (chr a).

(** The three redirections. *)
Record redir := mkredir { r_tok : tok; r_mode : Z; r_fd : Z }.

Definition redir_in : redir := mkredir (sym "<") O_RDONLY 0.
Definition redir_out : redir := mkredir (sym ">") (Z.lor (Z.lor O_WRONLY O_CREATE) O_TRUNC) 1.
Definition redir_app : redir := mkredir TApp (Z.lor O_WRONLY O_CREATE) 1.

Definition redir_tok (mode fd : Z) : tok :=
  if mode =? r_mode redir_in then r_tok redir_in
  else if mode =? r_mode redir_out then r_tok redir_out else r_tok redir_app.

Definition wrap (b : bool) (ts : list tok) : list tok :=
  if b then [sym "("] ++ ts ++ [sym ")"] else ts.

(** Printed at level 0 a command is a line, at 1 the part of one before a
    semicolon, at 2 a pipeline, at 3 a stage of one. *)
Fixpoint tokens (level : nat) (c : cmd (list Z)) : list tok :=
  match c with
  | EXEC argv => TWord <$> argv
  | REDIR c file mode fd => tokens 3 c ++ [redir_tok mode fd; TWord file]
  | PIPE l r => wrap (2 <? level)%nat (tokens 3 l ++ [sym "|"] ++ tokens 2 r)
  | LIST l r => wrap (0 <? level)%nat (tokens 1 l ++ [sym ";"] ++ tokens 0 r)
  | BACK c => wrap (1 <? level)%nat (tokens 1 c ++ [sym "&"])
  end.

Definition print (c : cmd (list Z)) : list Z := render (tokens 0 c).

Definition word_ok (w : list Z) : Prop := w <> [] /\ no_nul w /\ Forall (fun x => wordc x = true) w.

(** The commands the shell has a notation for. *)
Fixpoint cmd_ok (c : cmd (list Z)) : Prop :=
  match c with
  | EXEC argv => Forall word_ok argv /\ (length argv < MAXARGS)%nat
  | REDIR c file mode fd => cmd_ok c /\ word_ok file /\
      exists r, (r = redir_in \/ r = redir_out \/ r = redir_app) /\ mode = r_mode r /\ fd = r_fd r
  | PIPE l r | LIST l r => cmd_ok l /\ cmd_ok r
  | BACK c => cmd_ok c
  end.

Fixpoint cmd_map {A B} (f : A -> B) (c : cmd A) : cmd B :=
  match c with
  | EXEC argv => EXEC (f <$> argv)
  | REDIR c file mode fd => REDIR (cmd_map f c) (f file) mode fd
  | PIPE l r => PIPE (cmd_map f l) (cmd_map f r)
  | LIST l r => LIST (cmd_map f l) (cmd_map f r)
  | BACK c => BACK (cmd_map f c)
  end.

(** ** The lexer on a printed line *)

Definition tok_ok (t : tok) : Prop :=
  match t with TWord w => word_ok w | TSym c => c ∈ symbols | TApp => True end.

Definition code (t : tok) : Z :=
  match t with TWord _ => chr "a"%char | TSym c => c | TApp => chr "+"%char end.

Section lexer.
Context (buf : list Z).
Abbreviation es := (length buf).

(** The line from [ps] on is the tokens [ts]. *)
Definition here (ps : nat) (ts : list tok) : Prop :=
  drop ps buf = render ts /\ (ps <= es)%nat /\ Forall tok_ok ts.

Lemma at_drop ps l : drop ps buf = l -> forall i, at_ buf (ps + i) = at_ l i.
Proof. intros <- i. unfold at_. by rewrite nth_lookup, nth_lookup, lookup_drop. Qed.

Lemma skip_run p s u v :
  drop s buf = u ++ v -> (s <= es)%nat -> Forall (fun c => p c = true) u ->
  (forall c v', v = c :: v' -> p c = false) ->
  skip buf p (es - s) s = (s + length u)%nat /\ drop (s + length u) buf = v.
Proof.
  intros Hd Hs Hu Hv. split; [|by rewrite <- drop_drop, Hd, drop_app_length].
  assert (En : (es - s = length u + length v)%nat) by (by rewrite <- length_app, <- Hd, length_drop).
  rewrite En. clear En Hs. revert s Hd. induction Hu as [|c u Hc _ IH]; intros s Hd; cbn.
  - rewrite Nat.add_0_r. destruct v as [|c v]; cbn; [done|]. cbn in Hd.
    assert (E : at_ buf s = c) by (rewrite <- (Nat.add_0_r s); by rewrite (at_drop _ _ Hd)).
    rewrite E. by rewrite (Hv c v).
  - assert (E : at_ buf s = c) by (rewrite <- (Nat.add_0_r s); by rewrite (at_drop _ _ Hd)).
    rewrite E, Hc, IH; [lia|]. replace (S s) with (s + 1)%nat by lia. by rewrite <- drop_drop, Hd.
Qed.

Lemma symbols_not_ws c : c ∈ symbols -> is_ws c = false /\ c <> 0.
Proof.
  unfold symbols. cbn. rewrite !elem_of_cons, elem_of_nil. intros Hc. by destruct_or! Hc; subst.
Qed.

Lemma text_cons t : tok_ok t -> exists c l, text t = c :: l /\ is_ws c = false /\ c <> 0.
Proof.
  destruct t as [[|c w]|c|]; cbn.
  - by intros [? _].
  - intros (_ & Hn & Hw). inversion Hn; subst. inversion Hw as [|? ? H _]; subst. eexists _, _. split_and!; [done| |done].
    unfold wordc in H. by destruct (is_ws c).
  - intros [? ?]%symbols_not_ws. by eexists _, _.
  - intros _. by eexists _, _.
Qed.

(** A token, or the end, is not blank. *)
Lemma render_head ts c l : Forall tok_ok ts -> render ts = c :: l -> is_ws c = false.
Proof.
  intros [|t ts' Ht _]; [done|]. destruct (text_cons t Ht) as (c' & l' & E & Hc & _).
  unfold render. cbn. rewrite E. by intros [= <- _].
Qed.

Lemma skip_here ps ts : here ps ts -> skip buf is_ws (es - ps) ps = ps.
Proof.
  intros (Hd & Hps & Hok). destruct (skip_run is_ws ps [] (render ts)) as [-> _]; [done|done|constructor| |cbn; lia].
  intros c v'. by apply render_head.
Qed.

Lemma here_end ps : here ps [] -> ps = es.
Proof. intros (Hd & Hps & _). apply (f_equal length) in Hd. rewrite length_drop in Hd. cbn in Hd. lia. Qed.

Lemma scan_here ps t ts :
  here ps (t :: ts) -> scan_token buf es ps = (code t, (ps + length (text t))%nat).
Proof.
  intros (Hd & Hps & Hok). inversion Hok as [|? ? Ht Hts]; subst. unfold render in Hd. cbn in Hd. fold (render ts) in Hd.
  rewrite <- app_assoc in Hd. assert (Hat := at_drop _ _ Hd). destruct t as [w|c|]; cbn [code text] in *.
  - destruct Ht as (Hne & Hn & Hw). destruct w as [|c w]; [done|].
    assert (E : at_ buf ps = c) by (rewrite <- (Nat.add_0_r ps); by rewrite Hat).
    inversion Hn as [|? ? Hc0 _]; subst. inversion Hw as [|? ? Hc _]; subst.
    unfold scan_token. destruct (Z.eqb_spec (at_ buf ps) 0) as [|_]; [done|].
    assert (Hs : is_sym (at_ buf ps) = false) by (unfold wordc in Hc; by destruct (is_ws _), (is_sym _)).
    assert (Hs' : at_ buf ps ∉ symbols) by (rewrite <- is_sym_elem; by rewrite Hs).
    unfold symbols in Hs'. cbn in Hs'. rewrite bool_decide_false by (cbn; set_solver).
    destruct (Z.eqb_spec (at_ buf ps) (chr ">"%char)) as [E'|_]; [set_solver|]. f_equal.
    by apply (skip_run wordc ps (at_ buf ps :: w) ([32] ++ render ts)); [..|intros ? ? [= <- _]].
  - assert (E : at_ buf ps = c) by (rewrite <- (Nat.add_0_r ps); by rewrite Hat).
    destruct (symbols_not_ws c Ht) as [_ Hc0]. unfold scan_token. rewrite E. destruct (Z.eqb_spec c 0) as [|_]; [done|].
    case_bool_decide as Hc; [f_equal; cbn; lia|].
    assert (c = chr ">"%char) as ->.
    { unfold symbols in Ht. cbn in Ht, Hc |- *. set_solver. }
    rewrite Z.eqb_refl. replace (S ps) with (ps + 1)%nat by lia. rewrite Hat. cbn. f_equal.
  - assert (E : at_ buf ps = 62) by (rewrite <- (Nat.add_0_r ps); by rewrite Hat).
    assert (E1 : at_ buf (S ps) = 62) by (replace (S ps) with (ps + 1)%nat by lia; by rewrite Hat).
    unfold scan_token. rewrite E, E1. cbn. f_equal. lia.
Qed.

Lemma gettoken_here ps t ts :
  here ps (t :: ts) ->
  gettoken buf es ps = Ok (code t, ps, (ps + length (text t))%nat) (ps + length (text t) + 1)%nat /\
  here (ps + length (text t) + 1) ts /\ text_of buf (ps, (ps + length (text t))%nat) = text t.
Proof.
  intros H. assert (Hsc := scan_here _ _ _ H). assert (Hsk := skip_here _ _ H). destruct H as (Hd & Hps & Hok).
  inversion Hok as [|? ? Ht Hts]; subst. unfold render in Hd. cbn in Hd. fold (render ts) in Hd.
  rewrite <- app_assoc in Hd.
  assert (Hd' : drop (ps + length (text t)) buf = [32] ++ render ts) by by rewrite <- drop_drop, Hd, drop_app_length.
  assert (Hle : (ps + length (text t) + 1 <= es)%nat).
  { apply (f_equal length) in Hd'. rewrite length_drop, length_app in Hd'. cbn in Hd'. lia. }
  destruct (skip_run is_ws (ps + length (text t)) [32] (render ts)) as [E1 E2]; [done|lia|by repeat constructor| |].
  { intros c v'. by apply render_head. }
  split_and!.
  - rewrite gettoken_eq. cbv zeta. rewrite Hsk, Hsc. cbn [fst snd]. by rewrite E1.
  - split_and!; [exact E2|lia|done].
  - unfold text_of. cbn [fst snd]. replace (ps + length (text t) - ps)%nat with (length (text t)) by lia.
    by rewrite Hd, take_app_length.
Qed.

Lemma gettoken_end ps : here ps [] -> gettoken buf es ps = Ok (0, ps, ps) ps.
Proof.
  intros H. assert (Hsk := skip_here _ _ H). rewrite gettoken_eq. cbv zeta. rewrite Hsk.
  assert (E : scan_token buf es ps = (0, ps)).
  { unfold scan_token. rewrite at_end; [done|]. apply here_end in H. lia. }
  rewrite E. cbn [fst snd]. by rewrite Hsk.
Qed.

(** The first token is one of the given operators. *)
Definition starts (toks : list Z) (ts : list tok) : bool :=
  match ts with
  | TSym c :: _ => bool_decide (c ∈ toks)
  | TApp :: _ => bool_decide (62 ∈ toks)
  | _ => false
  end.

Lemma peek_eq toks ps :
  peek buf es toks ps =
  (let s := skip buf is_ws (es - ps) ps in
   Ok (negb (at_ buf s =? 0) && found (strchr toks (at_ buf s))) s).
Proof. done. Qed.

Lemma peek_here toks ps ts :
  here ps ts -> toks ⊆ symbols -> peek buf es toks ps = Ok (starts toks ts) ps.
Proof.
  intros H Hsub. assert (Hsk := skip_here _ _ H). rewrite peek_eq. cbv zeta. rewrite Hsk. f_equal.
  assert (Hn : no_nul toks).
  { apply Forall_forall. intros c Hc. by apply symbols_not_ws, Hsub. }
  assert (Hf : forall c, found (strchr toks c) = bool_decide (c ∈ toks)).
  { intros c. destruct (strchr_elem toks c Hn) as [H1 H2]. destruct (strchr toks c); cbn.
    - symmetry. apply bool_decide_eq_true_2, H1. by eexists.
    - symmetry. apply bool_decide_eq_false_2. intros Hc. by destruct (H2 Hc). }
  rewrite Hf. destruct H as (Hd & Hps & Hok). destruct ts as [|t ts].
  { rewrite at_end by (apply (f_equal length) in Hd; rewrite length_drop in Hd; cbn in Hd; lia). done. }
  inversion Hok as [|? ? Ht Hts]; subst. assert (Hat := at_drop _ _ Hd 0). rewrite Nat.add_0_r in Hat. rewrite Hat.
  destruct (text_cons t Ht) as (c & l & E & _ & Hc0). unfold render. cbn. rewrite E. cbn.
  destruct (Z.eqb_spec c 0) as [|_]; [done|]. cbn [negb andb]. destruct t as [w|c'|]; cbn [text starts tok_ok] in *.
  - apply bool_decide_eq_false_2. intros Hc%Hsub%is_sym_elem. subst w. destruct Ht as (_ & _ & Hw).
    inversion Hw as [|? ? Hw' _]; subst. unfold wordc in Hw'. rewrite Hc, andb_false_r in Hw'. done.
  - by injection E as -> _.
  - by injection E as <- _.
Qed.

End lexer.

(** ** The grammar on a printed line *)

Lemma sub_symbols toks : forallb is_sym toks = true -> toks ⊆ symbols.
Proof. intros H c Hc. apply is_sym_elem. rewrite forallb_forall in H. apply H. by apply list_elem_of_In. Qed.

(** Run the next look ahead. *)
Ltac run_peek Hh :=
  match goal with
  | |- context [mbind _ (peek _ _ ?toks)] =>
      rewrite (bind_ok _ _ _ _ _ (peek_here _ toks _ _ Hh (sub_symbols toks eq_refl)))
  end.

Definition redir_ok (x : redir * list Z) : Prop :=
  (x.1 = redir_in \/ x.1 = redir_out \/ x.1 = redir_app) /\ word_ok x.2.

Definition redir_toks (rs : list (redir * list Z)) : list tok := rs ≫= fun x => [r_tok x.1; TWord x.2].

Definition apply_redirs {A} (c : cmd A) (rs : list (redir * A)) : cmd A :=
  foldl (fun c x => REDIR c x.2 (r_mode x.1) (r_fd x.1)) c rs.

Definition ops3 : list Z := chr <$> ["|"; ")"; "&"; ";"]%char.
Definition ops2 : list Z := chr <$> [")"; "&"; ";"]%char.
Definition ops0 : list Z := [chr ")"%char].

Definition followed (ops : list Z) (rest : list tok) : Prop := rest = [] \/ starts ops rest = true.

Section grammar.
Context (buf : list Z).
Abbreviation es := (length buf).
Abbreviation here := (here buf).
Abbreviation read := (cmd_map (text_of buf)).

Lemma here_length ps ts : here ps ts -> (length ts + ps <= es)%nat.
Proof.
  intros (Hd & Hps & _). assert (length ts <= length (render ts))%nat.
  { clear. induction ts as [|t ts IH]; [done|]. unfold render. cbn. rewrite !length_app. cbn. unfold render in IH. lia. }
  apply (f_equal length) in Hd. rewrite length_drop in Hd. lia.
Qed.

Lemma here_ok ps ts : here ps ts -> Forall tok_ok ts.
Proof. by intros (_ & _ & ?). Qed.

Lemma follow_not ops ops' rest :
  followed ops rest -> (forall c, c ∈ ops -> c ∈ ops' -> False) -> starts ops' rest = false.
Proof.
  intros [->|H] Hd; [done|]. destruct rest as [|[|c|] rest]; cbn in *; [done|done|..];
    apply bool_decide_eq_true_1 in H; apply bool_decide_eq_false_2; eauto.
Qed.

Lemma follow_sub ops ops' rest : followed ops rest -> ops ⊆ ops' -> followed ops' rest.
Proof.
  intros [->|H] Hs; [by left|right]. destruct rest as [|[|c|] rest]; cbn in *; [done|done|..];
    apply bool_decide_eq_true_1 in H; apply bool_decide_eq_true_2; by apply Hs.
Qed.

Lemma code_redir r : r = redir_in \/ r = redir_out \/ r = redir_app ->
  starts (chr <$> ["<"; ">"]%char) [r_tok r] = true /\
  forall (A : Type) (c : cmd A) f,
    (if code (r_tok r) =? chr "<"%char then REDIR c f O_RDONLY 0
     else if code (r_tok r) =? chr ">"%char then REDIR c f (Z.lor (Z.lor O_WRONLY O_CREATE) O_TRUNC) 1
     else if code (r_tok r) =? chr "+"%char then REDIR c f (Z.lor O_WRONLY O_CREATE) 1 else c) =
    REDIR c f (r_mode r) (r_fd r).
Proof. by intros [->|[->| ->]]. Qed.

Lemma parseredirs_here n t ps rs rest :
  here ps (redir_toks rs ++ rest) -> Forall redir_ok rs -> starts (chr <$> ["<"; ">"]%char) rest = false ->
  (length rs <= n)%nat ->
  exists t' ps', parseredirs buf es n t ps = Ok t' ps' /\ here ps' rest /\ (ps <= ps')%nat /\
    read t' = apply_redirs (read t) rs.
Proof.
  intros Hh Hrs Hrest. revert n t ps Hh. induction Hrs as [|[r f] rs [Hr Hf] _ IH]; intros n t ps Hh Hn.
  - exists t, ps. split_and!; [|done|done|done]. destruct n; cbn [parseredirs]; run_peek Hh;
      cbn [redir_toks mbind list_bind app]; by rewrite Hrest.
  - destruct n as [|n]; [cbn in Hn; lia|]. cbn [parseredirs].
    run_peek Hh.
    unfold redir_toks in Hh. cbn in Hh, Hr, Hf. fold (redir_toks rs) in Hh.
    destruct (code_redir r Hr) as [Hst Hcode].
    assert (Est : starts (chr <$> ["<"; ">"]%char) (redir_toks ((r, f) :: rs) ++ rest) = true) by exact Hst.
    rewrite Est. cbn [negb].
    destruct (gettoken_here _ _ _ _ Hh) as (E1 & H1 & _). rewrite (bind_ok _ _ _ _ _ E1).
    destruct (gettoken_here _ _ _ _ H1) as (E2 & H2 & Ht2). rewrite (bind_ok _ _ _ _ _ E2).
    cbn [fst snd code]. rewrite Z.eqb_refl. cbn [negb]. rewrite Hcode.
    match goal with |- context [parseredirs _ _ n ?c] =>
      destruct (IH n c _ H2) as (t' & ps' & E & H' & Hle & Hread); [cbn in Hn; lia|] end.
    exists t', ps'. split_and!; [exact E|done|lia|]. rewrite Hread. cbn [cmd_map]. cbn [text] in Ht2.
    cbn [text]. by rewrite Ht2.
Qed.

Lemma redir_toks_length rs : (length rs <= length (redir_toks rs))%nat.
Proof. induction rs as [|x rs IH]; [done|]. unfold redir_toks in *. cbn. lia. Qed.

Lemma loop_end n argc t ps rest :
  here ps rest -> followed ops3 rest -> parseexec_loop buf es (S n) argc t ps = Ok t ps.
Proof.
  intros Hh Hf. cbn [parseexec_loop]. run_peek Hh. destruct Hf as [->|Hf].
  - cbn [starts]. by rewrite (bind_ok _ _ _ _ _ (gettoken_end _ _ Hh)).
  - fold ops3. by rewrite Hf.
Qed.

(** No redirection comes next. *)
Lemma no_redirs n t ps ts :
  here ps ts -> starts (chr <$> ["<"; ">"]%char) ts = false -> parseredirs buf es n t ps = Ok t ps.
Proof. intros Hh Hs. destruct n; cbn [parseredirs]; run_peek Hh; by rewrite Hs. Qed.

Lemma redirs_follow rest : followed ops3 rest -> starts (chr <$> ["<"; ">"]%char) rest = false.
Proof. intros H. apply (follow_not ops3); [done|]. unfold ops3. cbn. set_solver. Qed.

Lemma loop_words ws args argc n ps rs rest :
  ws <> [] -> here ps ((TWord <$> ws) ++ redir_toks rs ++ rest) -> Forall redir_ok rs -> followed ops3 rest ->
  (argc + length ws < MAXARGS)%nat -> (length ws < n)%nat ->
  exists t' ps', parseexec_loop buf es n argc (EXEC args) ps = Ok t' ps' /\ here ps' rest /\ (ps <= ps')%nat /\
    read t' = apply_redirs (EXEC ((text_of buf <$> args) ++ ws)) rs.
Proof.
  intros Hne Hh Hrs Hf. revert args argc n ps Hne Hh.
  induction ws as [|w ws IH]; [done|]. intros args argc n ps _ Hh Hmax Hn. cbn [length] in *.
  destruct n as [|n]; [lia|]. cbn [fmap list_fmap app] in Hh. cbn [parseexec_loop]. run_peek Hh. cbn [starts].
  destruct (gettoken_here _ _ _ _ Hh) as (E1 & H1 & Ht1). rewrite (bind_ok _ _ _ _ _ E1).
  cbn [fst snd code]. change (chr "a"%char =? 0) with false. rewrite Z.eqb_refl. cbn [negb push_arg].
  destruct (Nat.leb_spec MAXARGS (S argc)) as [|_]; [lia|]. cbn [text] in *.
  set (args' := args ++ _). assert (Ha : text_of buf <$> args' = (text_of buf <$> args) ++ [w]).
  { unfold args'. rewrite fmap_app. cbn [fmap list_fmap]. by rewrite Ht1. }
  destruct ws as [|w' ws].
  - destruct (parseredirs_here es (EXEC args') _ rs rest H1 Hrs (redirs_follow _ Hf)) as (t' & ps' & E & H' & Hle & Hread).
    { assert (Hl := here_length _ _ H1). pose proof (redir_toks_length rs). rewrite !length_app in Hl. cbn in *. lia. }
    rewrite (bind_ok _ _ _ _ _ E). destruct n as [|n]; [cbn in Hn; lia|].
    exists t', ps'. split_and!; [by eapply loop_end|done|lia|]. rewrite Hread. cbn [cmd_map]. by rewrite Ha.
  - rewrite (bind_ok _ _ _ _ _ (no_redirs _ _ _ _ H1 eq_refl)).
    destruct (IH args' (S argc) n _ ltac:(done) H1) as (t' & ps' & E & H' & Hle & Hread); [cbn in *; lia|cbn in *; lia|].
    exists t', ps'. split_and!; [done|done|lia|]. rewrite Hread, Ha, <- app_assoc. done.
Qed.

(** ** Commands at each level *)

Abbreviation enough k ps := (4 * (es - ps) + k)%nat.

(** A rule run at [ps] returns a command that reads as [c], and stops at
    [rest]. *)
Definition yields (m : PM (cmd (nat * nat))) (ps : nat) (c : cmd (list Z)) (rest : list tok) : Prop :=
  exists t ps', m ps = Ok t ps' /\ here ps' rest /\ (ps <= ps')%nat /\ read t = c.

Lemma yields_bind {A} (m : PM A) k a ps ps1 c rest :
  m ps = Ok a ps1 -> (ps <= ps1)%nat -> yields (k a) ps1 c rest -> yields (m ≫= k) ps c rest.
Proof.
  intros E Hle (t & ps' & E' & ? & ? & ?). exists t, ps'. rewrite (bind_ok _ _ _ _ _ E). split_and!; [done|done|lia|done].
Qed.

Lemma yields_peek toks k ps ts c rest :
  here ps ts -> forallb is_sym toks = true -> yields (k (starts toks ts)) ps c rest ->
  yields (peek buf es toks ≫= k) ps c rest.
Proof. intros Hh Hs. apply yields_bind; [|done]. by apply peek_here, sub_symbols. Qed.

Lemma yields_ret t ps rest : here ps rest -> yields (mret t) ps (read t) rest.
Proof. intros Hh. by exists t, ps. Qed.

Definition at3 (c : cmd (list Z)) : Prop := forall fuel ps rs rest,
  here ps (tokens 3 c ++ redir_toks rs ++ rest) -> Forall redir_ok rs -> followed ops3 rest ->
  (enough 2 ps <= fuel)%nat -> yields (parseexec buf es fuel) ps (apply_redirs c rs) rest.

Definition at2 (c : cmd (list Z)) : Prop := forall fuel ps rest,
  here ps (tokens 2 c ++ rest) -> followed ops2 rest -> (enough 3 ps <= fuel)%nat ->
  yields (parsepipe buf es fuel) ps c rest.

(** The rule for a pipeline, and then turns of the loop that takes
    ampersands. *)
Definition at1 (c : cmd (list Z)) : Prop := forall fuel ps rest,
  here ps (tokens 1 c ++ rest) -> followed ops2 rest -> (enough 3 ps <= fuel)%nat ->
  exists t0 ps0 k t ps1, parsepipe buf es fuel ps = Ok t0 ps0 /\
    (forall n, back_loop buf es (k + n) t0 ps0 = back_loop buf es n t ps1) /\
    here ps1 rest /\ (k + ps <= ps1)%nat /\ read t = c.

Definition at0 (c : cmd (list Z)) : Prop := forall fuel ps rest,
  here ps (tokens 0 c ++ rest) -> followed ops0 rest -> (enough 4 ps <= fuel)%nat ->
  yields (parseline buf es fuel) ps c rest.

Lemma exec_at3 argv : cmd_ok (EXEC argv) -> at3 (EXEC argv).
Proof.
  intros [Hw Hmax] fuel ps rs rest Hh Hrs Hf Hfuel. destruct fuel as [|fuel]; [lia|]. cbn [parseexec tokens] in *.
  eapply yields_peek; [exact Hh|done|]. assert (Hlr : (length rs + ps <= es)%nat).
  { assert (Hl := here_length _ _ Hh). pose proof (redir_toks_length rs). rewrite !length_app in Hl. lia. }
  destruct argv as [|w argv]; cbn [fmap list_fmap app] in *.
  - assert (E0 : starts [chr "("%char] (redir_toks rs ++ rest) = false).
    { destruct rs as [|[r f] rs]; cbn [redir_toks mbind list_bind app].
      - apply (follow_not ops3); [done|]. unfold ops3. cbn. set_solver.
      - inversion Hrs as [|? ? [Hr _] _]; subst. cbn in Hr. by destruct Hr as [->|[->| ->]]. }
    rewrite E0.
    destruct (parseredirs_here es (EXEC []) ps rs rest Hh Hrs (redirs_follow _ Hf)) as (t' & ps' & E & H' & Hle & Hread); [lia|].
    eapply yields_bind; [exact E|done|]. exists t', ps'. split_and!; [by eapply loop_end|done|lia|done].
  - cbn [starts]. eapply yields_bind; [exact (no_redirs _ _ _ _ Hh eq_refl)|done|].
    destruct (loop_words (w :: argv) [] 0 (S es) ps rs rest) as (t' & ps' & E & H' & Hle & Hread); [done..| | |].
    + cbn in *. lia.
    + assert (Hl := here_length _ _ Hh). cbn in *. rewrite length_app, length_fmap in Hl. lia.
    + exists t', ps'. split_and!; [done|done|lia|done].
Qed.

Lemma redir_at3 c file mode fd : cmd_ok (REDIR c file mode fd) -> at3 c -> at3 (REDIR c file mode fd).
Proof.
  intros (_ & Hfile & r & Hr & -> & ->) Hc fuel ps rs rest Hh Hrs Hf Hfuel.
  apply (Hc fuel ps ((r, file) :: rs) rest); [|by constructor|done|done].
  cbn [tokens] in Hh. rewrite <- app_assoc in Hh.
  assert (E : redir_tok (r_mode r) (r_fd r) = r_tok r) by by destruct Hr as [->|[->| ->]].
  rewrite E in Hh. exact Hh.
Qed.

(** A stage alone is a pipeline. *)
Lemma at3_at2 c : tokens 2 c = tokens 3 c -> at3 c -> at2 c.
Proof.
  intros Et Hc fuel ps rest Hh Hf Hfuel. destruct fuel as [|fuel]; [lia|]. cbn [parsepipe]. rewrite Et in Hh.
  destruct (Hc fuel ps [] rest) as (t & ps' & E & H' & Hle & Hread);
    [done|by apply Forall_nil|eapply follow_sub; [exact Hf|unfold ops2, ops3; cbn; set_solver]|lia|].
  eapply yields_bind; [exact E|done|]. eapply yields_peek; [exact H'|done|].
  rewrite (follow_not ops2); [|done|unfold ops2; cbn; set_solver]. cbn in Hread. rewrite <- Hread. by apply yields_ret.
Qed.

Lemma at2_at1 c : tokens 1 c = tokens 2 c -> at2 c -> at1 c.
Proof.
  intros Et Hc fuel ps rest Hh Hf Hfuel. rewrite Et in Hh.
  destruct (Hc fuel ps rest) as (t & ps' & E & H' & Hle & Hread); [done..|].
  exists t, ps', 0%nat, t, ps'. by split_and!.
Qed.

(** After the ampersands a line ends or goes on after a semicolon. *)
Lemma back_loop_end n t ps rest :
  here ps rest -> starts [chr "&"%char] rest = false -> back_loop buf es n t ps = Ok t ps.
Proof. intros Hh Hs. destruct n; cbn [back_loop]; run_peek Hh; by rewrite Hs. Qed.

Lemma at1_line c fuel ps rest :
  at1 c -> here ps (tokens 1 c ++ rest) -> followed [chr ")"%char; chr ";"%char] rest -> (enough 3 ps <= fuel)%nat ->
  yields (c ← parsepipe buf es fuel; back_loop buf es es c) ps c rest.
Proof.
  intros Hc Hh Hf Hfuel. destruct (Hc fuel ps rest) as (t0 & ps0 & k & t & ps1 & E & Hk & H1 & Hle & Hread); [done| |done|].
  { eapply follow_sub; [done|]. unfold ops2. cbn. set_solver. }
  assert (Hes : (ps1 <= es)%nat) by apply H1. exists t, ps1. rewrite (bind_ok _ _ _ _ _ E).
  replace es with (k + (es - k))%nat at 2 by lia. rewrite Hk.
  split_and!; [|done|lia|done]. eapply back_loop_end; [done|]. apply (follow_not [chr ")"%char; chr ";"%char]); [done|]. set_solver.
Qed.

Lemma parseline_eq fuel ps :
  parseline buf es (S fuel) ps =
  ((c ← parsepipe buf es fuel; back_loop buf es es c) ≫= fun c =>
   b ← peek buf es [chr ";"%char];
   if (b : bool) then gettoken buf es;; r ← parseline buf es fuel; mret (LIST c r) else mret c) ps.
Proof.
  change (parseline buf es (S fuel) ps) with ((c ← parsepipe buf es fuel; c ← back_loop buf es es c;
    b ← peek buf es [chr ";"%char];
    if (b : bool) then gettoken buf es;; r ← parseline buf es fuel; mret (LIST c r) else mret c) ps).
  unfold mbind, M_bind. destruct (parsepipe buf es fuel ps) as [c ps1| | |]; [|done..].
  by destruct (back_loop buf es es c ps1).
Qed.

Lemma at1_at0 c : tokens 0 c = tokens 1 c -> at1 c -> at0 c.
Proof.
  intros Et Hc fuel ps rest Hh Hf Hfuel. rewrite Et in Hh. destruct fuel as [|fuel]; [lia|].
  destruct (at1_line c fuel ps rest) as (t & ps' & E & H' & Hle & Hread); [done|done| |lia|].
  { eapply follow_sub; [done|]. unfold ops0. set_solver. }
  unfold yields. rewrite parseline_eq, (bind_ok _ _ _ _ _ E). run_peek H'.
  rewrite (follow_not ops0); [|done|unfold ops0; cbn; set_solver]. exists t, ps'. by split_and!.
Qed.

(** A parenthesised line is a stage. *)
Lemma at0_at3 c : tokens 3 c = wrap true (tokens 0 c) -> at0 c -> at3 c.
Proof.
  intros Et Hc fuel ps rs rest Hh Hrs Hf Hfuel. rewrite Et in Hh. unfold wrap in Hh. rewrite <- !app_assoc in Hh. cbn [app] in Hh.
  assert (Hl := here_length _ _ Hh). destruct fuel as [|[|fuel]]; [lia..|]. cbn [parseexec].
  eapply yields_peek; [exact Hh|done|]. cbn [starts sym]. rewrite bool_decide_true by set_solver. cbn [parseblock].
  eapply yields_peek; [exact Hh|done|]. cbn [starts sym]. rewrite bool_decide_true by set_solver. cbn [negb].
  destruct (gettoken_here _ _ _ _ Hh) as (E1 & H1 & _). eapply yields_bind; [exact E1|lia|].
  destruct (Hc fuel _ _ H1) as (t & ps' & E & H' & Hle & Hread); [right; by apply bool_decide_eq_true_2; set_solver| |].
  { cbn [length] in Hl. lia. }
  eapply yields_bind; [exact E|done|]. eapply yields_peek; [exact H'|done|].
  cbn [starts sym]. rewrite bool_decide_true by set_solver. cbn [negb].
  destruct (gettoken_here _ _ _ _ H') as (E2 & H2 & _). eapply yields_bind; [exact E2|lia|].
  destruct (parseredirs_here es t _ rs rest H2 Hrs (redirs_follow _ Hf)) as (t' & ps2 & E3 & H3 & Hle3 & Hread3).
  { pose proof (redir_toks_length rs). assert (Hl2 := here_length _ _ H2). rewrite length_app in Hl2. lia. }
  exists t', ps2. split_and!; [done|done|lia|]. by rewrite Hread3, Hread.
Qed.

Lemma pipe_at2 l r : at3 l -> at2 r -> at2 (PIPE l r).
Proof.
  intros Hl Hr fuel ps rest Hh Hf Hfuel. destruct fuel as [|fuel]; [lia|].
  change (tokens 2 (PIPE l r)) with (tokens 3 l ++ [sym "|"] ++ tokens 2 r) in Hh. rewrite <- !app_assoc in Hh.
  cbn [parsepipe]. destruct (Hl fuel ps [] ([sym "|"] ++ tokens 2 r ++ rest)) as (t & ps' & E & H' & Hle & Hread);
    [done|by apply Forall_nil|right; by apply bool_decide_eq_true_2; unfold ops3; cbn; set_solver|lia|].
  eapply yields_bind; [exact E|done|]. eapply yields_peek; [exact H'|done|].
  cbn [starts sym app]. rewrite bool_decide_true by set_solver.
  destruct (gettoken_here _ _ _ _ H') as (E1 & H1 & _). eapply yields_bind; [exact E1|lia|].
  assert (Hes := here_length _ _ H1).
  destruct (Hr fuel _ _ H1 Hf) as (t2 & ps2 & E2 & H2 & Hle2 & Hread2); [lia|].
  eapply yields_bind; [exact E2|done|]. replace (PIPE l r) with (read (PIPE t t2)) by (cbn; by rewrite Hread, Hread2).
  by apply yields_ret.
Qed.

Lemma back_at1 c : at1 c -> at1 (BACK c).
Proof.
  intros Hc fuel ps rest Hh Hf Hfuel. change (tokens 1 (BACK c)) with (tokens 1 c ++ [sym "&"]) in Hh.
  rewrite <- app_assoc in Hh. destruct (Hc fuel ps ([sym "&"] ++ rest)) as (t0 & ps0 & k & t & ps1 & E & Hk & H1 & Hle & Hread);
    [done|right; by apply bool_decide_eq_true_2; unfold ops2; cbn; set_solver|lia|].
  destruct (gettoken_here _ _ _ _ H1) as (E1 & H2 & _).
  eexists t0, ps0, (S k), (BACK t), _. split_and!; [done| |exact H2|lia|cbn; by rewrite Hread].
  intros n. replace (S k + n)%nat with (k + S n)%nat by lia. rewrite Hk. cbn [back_loop]. run_peek H1.
  cbn [starts sym app]. rewrite bool_decide_true by set_solver. cbn [negb]. by rewrite (bind_ok _ _ _ _ _ E1).
Qed.

Lemma list_at0 l r : at1 l -> at0 r -> at0 (LIST l r).
Proof.
  intros Hl Hr fuel ps rest Hh Hf Hfuel. destruct fuel as [|fuel]; [lia|].
  change (tokens 0 (LIST l r)) with (tokens 1 l ++ [sym ";"] ++ tokens 0 r) in Hh. rewrite <- !app_assoc in Hh.
  destruct (at1_line l fuel ps ([sym ";"] ++ tokens 0 r ++ rest)) as (t & ps' & E & H' & Hle & Hread);
    [done|done|right; by apply bool_decide_eq_true_2; set_solver|lia|].
  destruct (gettoken_here _ _ _ _ H') as (E1 & H1 & _).
  assert (Hes := here_length _ _ H1).
  destruct (Hr fuel _ _ H1 Hf) as (t2 & ps2 & E2 & H2 & Hle2 & Hread2); [lia|].
  exists (LIST t t2), ps2. rewrite parseline_eq, (bind_ok _ _ _ _ _ E). run_peek H'.
  cbn [starts sym app]. rewrite bool_decide_true by set_solver. rewrite (bind_ok _ _ _ _ _ E1), (bind_ok _ _ _ _ _ E2).
  split_and!; [done|done|lia|]. cbn. by rewrite Hread, Hread2.
Qed.

Lemma all_levels c : cmd_ok c -> at3 c /\ at2 c /\ at1 c /\ at0 c.
Proof.
  induction c as [argv|c IH file mode fd|l IHl r IHr|l IHl r IHr|c IH]; intros Hok.
  - assert (H3 := exec_at3 argv Hok). assert (H2 := at3_at2 (EXEC argv) eq_refl H3).
    assert (H1 := at2_at1 (EXEC argv) eq_refl H2). by split_and!; [..|apply at1_at0].
  - destruct (IH (proj1 Hok)) as (Hc & _). assert (H3 := redir_at3 c file mode fd Hok Hc).
    assert (H2 := at3_at2 (REDIR c file mode fd) eq_refl H3).
    assert (H1 := at2_at1 (REDIR c file mode fd) eq_refl H2). by split_and!; [..|apply at1_at0].
  - destruct (IHl (proj1 Hok)) as (Hl & _). destruct (IHr (proj2 Hok)) as (_ & Hr & _).
    assert (H2 := pipe_at2 l r Hl Hr). assert (H1 := at2_at1 (PIPE l r) eq_refl H2).
    assert (H0 := at1_at0 (PIPE l r) eq_refl H1). by split_and!; [apply at0_at3|..].
  - destruct (IHl (proj1 Hok)) as (_ & _ & Hl & _). destruct (IHr (proj2 Hok)) as (_ & _ & _ & Hr).
    assert (H0 := list_at0 l r Hl Hr). assert (H3 := at0_at3 (LIST l r) eq_refl H0).
    assert (H2 := at3_at2 (LIST l r) eq_refl H3). by split_and!; [..|apply at2_at1|].
  - destruct (IH Hok) as (_ & _ & Hc & _). assert (H1 := back_at1 c Hc). assert (H0 := at1_at0 (BACK c) eq_refl H1).
    assert (H3 := at0_at3 (BACK c) eq_refl H0). by split_and!; [|apply at3_at2|..].
Qed.

End grammar.

(** ** Printed lines *)

Lemma sym_ok a : is_sym (chr a) = true -> tok_ok (sym a).
Proof. intros H. by apply is_sym_elem. Qed.

Lemma wrap_ok b ts : Forall tok_ok ts -> Forall tok_ok (wrap b ts).
Proof.
  intros H. destruct b; [|done]. unfold wrap. rewrite !Forall_app, !Forall_singleton. by split_and!; [apply sym_ok|..|apply sym_ok].
Qed.

Lemma tokens_ok level c : cmd_ok c -> Forall tok_ok (tokens level c).
Proof.
  revert level. induction c as [argv|c IH file mode fd|l IHl r IHr|l IHl r IHr|c IH]; intros level; cbn [cmd_ok tokens].
  - intros [H _]. by apply Forall_fmap.
  - intros (Hc & Hf & r & Hr & -> & ->). rewrite Forall_app, Forall_cons, Forall_singleton. split_and!; [by apply IH| |done].
    destruct Hr as [->|[->| ->]]; [by apply sym_ok|by apply sym_ok|done].
  - intros [Hl Hr]. apply wrap_ok. rewrite !Forall_app, Forall_singleton. split_and!; [by apply IHl|by apply sym_ok|by apply IHr].
  - intros [Hl Hr]. apply wrap_ok. rewrite !Forall_app, Forall_singleton. split_and!; [by apply IHl|by apply sym_ok|by apply IHr].
  - intros Hc. apply wrap_ok. rewrite Forall_app, Forall_singleton. split; [by apply IH|by apply sym_ok].
Qed.

Lemma render_no_nul ts : Forall tok_ok ts -> no_nul (render ts).
Proof.
  induction 1 as [|t ts Ht _ IH]; [constructor|]. unfold render. cbn. apply Forall_app. split; [|exact IH].
  apply Forall_app. split; [|by repeat constructor]. destruct t as [w|c|]; cbn in *.
  - apply Ht.
  - apply Forall_singleton. by apply symbols_not_ws.
  - by repeat constructor.
Qed.

Lemma cmd_map_ext {A B} (f g : A -> B) c : (forall x, x ∈ strings_of c -> f x = g x) -> cmd_map f c = cmd_map g c.
Proof.
  induction c as [argv|c IH file mode fd|l IHl r IHr|l IHl r IHr|c IH]; cbn; intros H; f_equal;
    try (apply IH || apply IHl || apply IHr); try (intros x Hx; apply H; set_solver).
  - apply list_fmap_ext. intros i x Hx. apply H. by eapply list_elem_of_lookup_2.
  - apply H. set_solver.
Qed.

Lemma parsecmd_printed c :
  cmd_ok c -> exists t m ps, parsecmd (print c) 0%nat = Ok (t, m) ps /\ cmd_map (text_of (print c)) t = c.
Proof.
  intros Hok. set (s := print c). assert (Hh : here s 0 (tokens 0 c ++ [])).
  { split_and!; [by rewrite app_nil_r|lia|]. rewrite app_nil_r. by apply tokens_ok. }
  destruct (all_levels s c Hok) as (_ & _ & _ & H0).
  destruct (H0 (parse_fuel s) 0%nat [] Hh) as (t & ps' & E & H' & Hle & Hread); [by left|unfold parse_fuel; lia|].
  assert (Eps := here_end _ _ H'). exists t, (nulterminate t (s ++ [0])), ps'. split; [|done].
  unfold parsecmd. rewrite (bind_ok _ _ _ _ _ E).
  rewrite (bind_ok _ _ _ _ _ (peek_here s [] _ _ H' (sub_symbols [] eq_refl))).
  rewrite (bind_ok _ _ _ ps' ps') by done. rewrite Eps, Nat.eqb_refl. done.
Qed.

(** ** Properties *)

(** C35: Round trip: the line that prints a command, with the parentheses its
    structure needs, is parsed without error into a tree whose strings, once
    terminated, make up that command again. *)
Theorem parse_print_roundtrip (c : cmd (list Z)) (Hok : cmd_ok c) :
  exists t m ps, parsecmd (print c) 0%nat = Ok (t, m) ps /\ cmd_map (fun w => string_at m w.1) t = c.
Proof.
  destruct (parsecmd_printed c Hok) as (t & m & ps & E & Hread). exists t, m, ps. split; [done|].
  assert (Hn : no_nul (print c)) by (by apply render_no_nul, tokens_ok).
  rewrite <- Hread at 1. apply cmd_map_ext. intros w Hw.
  pose proof (parsecmd_runs (print c) Hn) as H. unfold runs in H. rewrite E in H. cbn [fst snd] in H.
  destruct H as [[Hc _] ->]. by apply terminated.
Qed.

(** ** Instances *)

(** [( a | b > f ) ; c &] *)
Definition sample : cmd (list Z) :=
  LIST (PIPE (EXEC [[97]]) (REDIR (EXEC [[98]]) [102] (r_mode redir_out) 1)) (BACK (EXEC [[99]])).

Lemma sample_ok : cmd_ok sample.
Proof.
  assert (Hw : forall x, wordc x = true -> x <> 0 -> word_ok [x]) by (intros x H0 H1; by split_and!; [|apply Forall_singleton..]).
  split; [split|]; cbn [cmd_ok].
  - split; [by apply Forall_singleton, Hw|unfold MAXARGS; cbn; lia].
  - split_and!; [by apply Forall_singleton, Hw|unfold MAXARGS; cbn; lia|by apply Hw|].
    exists redir_out. by split_and!; [right; left|..].
  - split; [by apply Forall_singleton, Hw|unfold MAXARGS; cbn; lia].
Qed.

Lemma parse_print_roundtrip_witness :
  exists t m ps, parsecmd (print sample) 0%nat = Ok (t, m) ps /\ cmd_map (fun w => string_at m w.1) t = sample.
Proof. exact (parse_print_roundtrip sample sample_ok). Defined.

(** [a>b] *)
Lemma parsecmd_terminates_witness :
  (exists c m ps, parsecmd [97; 62; 98] 0%nat = Ok (c, m) ps) \/
  (exists msg ps, parsecmd [97; 62; 98] 0%nat = Panic msg ps).
Proof. apply (parsecmd_terminates [97; 62; 98]). by repeat constructor. Defined.

Lemma parsecmd_strings_witness :
  exists c m ps, parsecmd [97; 62; 98] 0%nat = Ok (c, m) ps /\ string_at m 0 = [97].
Proof.
  destruct (parsecmd [97; 62; 98] 0%nat) as [[c m] ps| | |] eqn:E; [|by vm_compute in E..].
  exists c, m, ps. split; [reflexivity|].
  apply (parsecmd_strings [97; 62; 98] c m ps ltac:(by repeat constructor) E (0, 1)%nat).
  vm_compute in E. injection E as <- _ _. cbn. set_solver.
Defined.

Lemma parsecmd_typed_witness : exists c m ps, parsecmd [97; 62; 98] 0%nat = Ok (c, m) ps /\ cmd_typed c.
Proof.
  destruct (parsecmd [97; 62; 98] 0%nat) as [[c m] ps| | |] eqn:E; [|by vm_compute in E..].
  exists c, m, ps. split; [reflexivity|]. by apply (parsecmd_typed [97; 62; 98] c m ps ltac:(by repeat constructor)).
Defined.
