(* ===== verification/Runcmd.v ===== *)
(** * The shell at work ([runcmd] and [main] of [sh.c])

    What the shell does is a tree of its system calls: each node is a call, and
    the rest of the program depends on the result. A machine runs the trees of
    the shell and of the processes it forks, in any interleaving, with the
    descriptor tables the kernel documents: [open], [dup] and [pipe] take the
    lowest free descriptor, [fork] copies the table, [exec] keeps it. A program
    that was loaded runs until it ends; when it may end is a parameter, and
    [unblocked] says that no pipe keeps it waiting. *)

From stdpp Require Import base gmap sets strings numbers list.
From Stdlib Require Import Ascii.
From S2P Require Import Prelude State Spinlock Strings Printf Proc Quiet Process Sysfile Ulib Shell ShellSpec ShellPrint.

(** ** The code *)

(** A program by its next system call. [fork] gives 0 in the child, [open] and
    [fork] are negative when they fail; [exec] returns only when it fails. *)
Inductive prog : Type :=
| Exit (status : Z)
| Exec (argv : list (list Z)) (k : prog)
| Write (fd : Z) (msg : list Z) (k : prog)
| Close (fd : Z) (k : prog)
| Open (file : list Z) (mode : Z) (k : Z -> prog)
| Dup (fd : Z) (k : prog)
| Pipe (k : option (Z * Z) -> prog)
| Fork (k : Z -> prog)
| Wait (k : prog)
| Chdir (dir : list Z) (k : Z -> prog)
| Spin.

Definition newline : list Z := [10].

Definition sh_panic (s : string) : prog := Write 2 (bytes_of s ++ newline) (Exit 1).

Definition fork1 (k : Z -> prog) : prog := Fork (fun pid => if pid =? -1 then sh_panic "fork" else k pid).

Definition failed (call : string) (name : list Z) : list Z := bytes_of call ++ name ++ bytes_of " failed" ++ newline.

Fixpoint runcmd (c : cmd (list Z)) : prog :=
  match c with
  | EXEC argv =>
      match argv with
      | [] => Exit 1
      | path :: _ => Exec argv (Write 2 (failed "exec " path) (Exit 0))
      end
  | REDIR c file mode fd =>
      Close fd (Open file mode (fun r => if r <? 0 then Write 2 (failed "open " file) (Exit 1) else runcmd c))
  | LIST l r => fork1 (fun pid => if pid =? 0 then runcmd l else Wait (runcmd r))
  | PIPE l r =>
      Pipe (fun p =>
        match p with
        | None => sh_panic "pipe"
        | Some (p0, p1) =>
            fork1 (fun pid =>
              if pid =? 0 then Close 1 (Dup p1 (Close p0 (Close p1 (runcmd l)))) else
              fork1 (fun pid =>
                if pid =? 0 then Close 0 (Dup p0 (Close p0 (Close p1 (runcmd r)))) else
                Close p0 (Close p1 (Wait (Wait (Exit 0))))))
        end)
  | BACK c => fork1 (fun pid => if pid =? 0 then runcmd c else Exit 0)
  end.

(** The commands as [runcmd] sees them: pointers to strings in the line. *)
Definition parse_line (s : list Z) : option (cmd (list Z)) :=
  match parsecmd s 0%nat with
  | Ok (c, m) _ => Some (cmd_map (fun w => string_at m w.1) c)
  | _ => None
  end.

(** [runcmd(parsecmd(cmd))] *)
Definition run_line (s : list Z) : prog :=
  match parsecmd s 0%nat with
  | Ok (c, m) _ => runcmd (cmd_map (fun w => string_at m w.1) c)
  | Panic msg _ => sh_panic msg
  | _ => Spin
  end.

(** Leading blanks and tabs are skipped. *)
Fixpoint skip_blanks (s : list Z) : list Z :=
  match s with
  | c :: s' => if (c =? 32) || (c =? 9) then skip_blanks s' else s
  | [] => []
  end.

Definition is_cd (cmd : list Z) : bool := (at_ cmd 0 =? chr "c"%char) && (at_ cmd 1 =? chr "d"%char) && (at_ cmd 2 =? 32).

(** The bytes [gets] stores, and the rest of the input. *)
Fixpoint gets_loop (n : nat) (input : list Z) : list Z * list Z :=
  match n, input with
  | S n, c :: input =>
      if (c =? 10) || (c =? 13) then ([c], input) else let '(l, rest) := gets_loop n input in (c :: l, rest)
  | _, _ => ([], input)
  end.

Definition ugets (max : nat) (input : list Z) : list Z * list Z := gets_loop (max - 1) input.

(** The line as a C string. *)
Definition getcmd (nbuf : nat) (input : list Z) : option (list Z * list Z) :=
  let '(buf, rest) := ugets nbuf input in
  if at_ buf 0 =? 0 then None else Some (until_nul buf, rest).

(** The lines that [getcmd] gives until it fails, each of which takes a byte of
    the input. *)
Fixpoint getcmds (fuel : nat) (input : list Z) : list (list Z) :=
  match fuel with
  | O => []
  | S fuel => match getcmd 100 input with Some (buf, rest) => buf :: getcmds fuel rest | None => [] end
  end.

(** The loop over the lines. *)
Fixpoint main_loop (lines : list (list Z)) : prog :=
  Write 2 (bytes_of "$ ")
    match lines with
    | [] => Exit 0
    | buf :: lines =>
        let cmd := skip_blanks buf in
        if at_ cmd 0 =? 10 then main_loop lines else
        if is_cd cmd then
          let dir := drop 3 (take (length cmd - 1) cmd) in
          Chdir dir (fun r => if r <? 0 then Write 2 (bytes_of "cannot cd " ++ dir ++ newline) (main_loop lines) else main_loop lines)
        else fork1 (fun pid => if pid =? 0 then run_line cmd else Wait (main_loop lines))
    end.

(** [while((fd = open("console", O_RDWR)) >= 0)], at most once for each
    descriptor. *)
Fixpoint open_console (fuel : nat) (k : prog) : prog :=
  Open (bytes_of "console") O_RDWR (fun fd =>
    if fd <? 0 then k else
    if 3 <=? fd then Close fd k else
    match fuel with
    | O => Spin
    | S fuel => open_console fuel k
    end).

Definition sh_lines (input : list Z) : list (list Z) := getcmds (S (length input)) input.

Definition sh_main (input : list Z) : prog := open_console NOFILE (main_loop (sh_lines input)).

(** ** The machine *)

(** A process is named by the way to it from the shell: the [n]-th child of
    [q] is [n :: q]. *)
Abbreviation path := (list nat).

(** What a descriptor refers to; a pipe is named by the process that made it,
    how many it had made before and how many children it had forked. *)
Inductive desc : Type :=
| Console
| Opened (file : list Z) (mode : Z)
| PipeR (q : path) (n c : nat)
| PipeW (q : path) (n c : nat).

Abbreviation fdt := (gmap Z desc).

Definition lowest (f : fdt) : option Z := snd <$> list_find (fun i => f !! i = None) (Z.of_nat <$> seq 0 NOFILE).

Record pst : Type := mkpst {
  ps_fds : fdt;
  ps_forks : nat;
  ps_pipes : nat;
  ps_kids : list path
}.

Definition set_fds (f : fdt) (x : pst) : pst := mkpst f (ps_forks x) (ps_pipes x) (ps_kids x).
Definition child_of (q : path) (x : pst) : path := ps_forks x :: q.
Definition child (x : pst) : pst := mkpst (ps_fds x) 0 0 [].
Definition forked (q : path) (x : pst) : pst := mkpst (ps_fds x) (S (ps_forks x)) (ps_pipes x) (child_of q x :: ps_kids x).
Definition reaped (i : nat) (x : pst) : pst := mkpst (ps_fds x) (ps_forks x) (ps_pipes x) (delete i (ps_kids x)).
Definition piped (q : path) (r w : Z) (x : pst) : pst :=
  mkpst (<[w := PipeW q (ps_pipes x) (ps_forks x)]> (<[r := PipeR q (ps_pipes x) (ps_forks x)]> (ps_fds x)))
    (ps_forks x) (S (ps_pipes x)) (ps_kids x).

(** A process runs the shell's code, or the program it has loaded (with its
    descriptors), or has ended and waits to be reaped. *)
Inductive stage : Type :=
| Shell (p : prog) (x : pst)
| Program (f : fdt)
| Zombie.

(** The processes, all names used so far, and what was loaded: by which
    process, with which arguments and descriptors. *)
Record machine : Type := mkmachine {
  m_procs : list (path * stage);
  m_used : list path;
  m_ran : list (path * list (list Z) * fdt)
}.

(** A call that concerns its own process only; whether it succeeds. *)
Inductive call (q : path) : bool -> prog * pst -> prog * pst -> Prop :=
| call_write fd msg k x : call q true (Write fd msg k, x) (k, x)
| call_close fd k x : call q true (Close fd k, x) (k, set_fds (delete fd (ps_fds x)) x)
| call_open file mode k x n : lowest (ps_fds x) = Some n ->
    call q true (Open file mode k, x) (k n, set_fds (<[n := Opened file mode]> (ps_fds x)) x)
| call_open_fails file mode k x : call q false (Open file mode k, x) (k (-1), x)
| call_dup fd d k x n : ps_fds x !! fd = Some d -> lowest (ps_fds x) = Some n ->
    call q true (Dup fd k, x) (k, set_fds (<[n := d]> (ps_fds x)) x)
| call_dup_fails fd k x : ps_fds x !! fd = None \/ lowest (ps_fds x) = None -> call q false (Dup fd k, x) (k, x)
| call_pipe k x r w : lowest (ps_fds x) = Some r -> lowest (<[r := PipeR q (ps_pipes x) (ps_forks x)]> (ps_fds x)) = Some w ->
    call q true (Pipe k, x) (k (Some (r, w)), piped q r w x)
| call_pipe_fails k x : call q false (Pipe k, x) (k None, x)
| call_fork_fails k x : call q false (Fork k, x) (k (-1), x)
| call_exec_fails argv k x : call q false (Exec argv k, x) (k, x)
| call_chdir dir k x : call q true (Chdir dir k, x) (k 0, x)
| call_chdir_fails dir k x : call q false (Chdir dir k, x) (k (-1), x).

(** The descriptors a process has open. *)
Definition fds_of (st : stage) : fdt := match st with Shell _ x => ps_fds x | Program f => f | Zombie => ∅ end.
Definition has_open (d : desc) (st : stage) : Prop := map_Exists (fun _ d' => d' = d) (fds_of st).
Definition loaded (st : stage) : bool := match st with Program _ => true | _ => false end.

#[global] Instance desc_eq_dec : EqDecision desc.
Proof. solve_decision. Defined.
#[global] Instance has_open_dec d st : Decision (has_open d st).
Proof. unfold has_open. apply _. Defined.

(** When a program that was loaded may end: at any time, or, with pipes that
    block, only once nothing it may have to wait for is left. It reads its
    input to the end of file, which comes when no process has the write end of
    the pipe open any more; and what it writes has to be taken up, so that
    either a loaded program has the read end open or no process has. *)
Definition any_time (procs : list (path * stage)) (f : fdt) : Prop := True.

Definition served (procs : list (path * stage)) (d : desc) : Prop :=
  match d with
  | PipeR q n c => Forall (fun r => ~ has_open (PipeW q n c) r.2) procs
  | PipeW q n c => Exists (fun r => loaded r.2 = true /\ has_open (PipeR q n c) r.2) procs \/
                   Forall (fun r => ~ has_open (PipeR q n c) r.2) procs
  | _ => True
  end.
Definition unblocked (procs : list (path * stage)) (f : fdt) : Prop := map_Forall (fun _ => served procs) f.

#[global] Instance served_dec procs d : Decision (served procs d).
Proof. destruct d; cbn; apply _. Defined.
#[global] Instance unblocked_dec procs f : Decision (unblocked procs f).
Proof. unfold unblocked. apply _. Defined.

(** The processes form a bag: [rest] are those that take no part in the step.
    [ends] says when programs end. *)
Inductive mstep (ends : list (path * stage) -> fdt -> Prop) : bool -> machine -> machine -> Prop :=
| step_call b procs q p x p' x' rest used ran : procs ≡ₚ (q, Shell p x) :: rest -> call q b (p, x) (p', x') ->
    mstep ends b (mkmachine procs used ran) (mkmachine ((q, Shell p' x') :: rest) used ran)
| step_fork procs q k x rest used ran pid : procs ≡ₚ (q, Shell (Fork k) x) :: rest -> 0 < pid ->
    mstep ends true (mkmachine procs used ran)
      (mkmachine ((child_of q x, Shell (k 0) (child x)) :: (q, Shell (k pid) (forked q x)) :: rest) (child_of q x :: used) ran)
| step_wait procs q k x i kid rest used ran : procs ≡ₚ (q, Shell (Wait k) x) :: (kid, Zombie) :: rest -> ps_kids x !! i = Some kid ->
    mstep ends true (mkmachine procs used ran) (mkmachine ((q, Shell k (reaped i x)) :: rest) used ran)
| step_wait_none procs q k x rest used ran : procs ≡ₚ (q, Shell (Wait k) x) :: rest -> ps_kids x = [] ->
    mstep ends true (mkmachine procs used ran) (mkmachine ((q, Shell k x) :: rest) used ran)
| step_exec procs q argv k x rest used ran : procs ≡ₚ (q, Shell (Exec argv k) x) :: rest ->
    mstep ends true (mkmachine procs used ran) (mkmachine ((q, Program (ps_fds x)) :: rest) used (ran ++ [(q, argv, ps_fds x)]))
| step_exit procs q status x rest used ran : procs ≡ₚ (q, Shell (Exit status) x) :: rest ->
    mstep ends true (mkmachine procs used ran) (mkmachine ((q, Zombie) :: rest) used ran)
| step_end procs q f rest used ran : procs ≡ₚ (q, Program f) :: rest -> ends procs f ->
    mstep ends true (mkmachine procs used ran) (mkmachine ((q, Zombie) :: rest) used ran).

(** The shell, alone, with these descriptors. *)
Definition start (p : prog) (f : fdt) : machine := mkmachine [([], Shell p (mkpst f 0 0 []))] [[]] [].

(** ** What a command asks for *)

(** A program to be run: by which process, with which arguments and
    descriptors, and which processes have to be over before. *)
Record job : Type := mkjob { j_proc : path; j_argv : list (list Z); j_fds : fdt; j_after : list path }.

Fixpoint jobs (c : cmd (list Z)) (q : path) (forks pipes : nat) (f : fdt) (dead : list path) : list job :=
  match c with
  | EXEC [] => []
  | EXEC argv => [mkjob q argv f dead]
  | REDIR c file mode fd => jobs c q forks pipes (<[fd := Opened file mode]> f) dead
  | PIPE l r => jobs l (forks :: q) 0 0 (<[1 := PipeW q pipes forks]> f) dead ++
                jobs r (S forks :: q) 0 0 (<[0 := PipeR q pipes forks]> f) dead
  | LIST l r => jobs l (forks :: q) 0 0 f dead ++ jobs r q (S forks) pipes f ((forks :: q) :: dead)
  | BACK c => jobs c (forks :: q) 0 0 f dead
  end.

(** The lines of the input: each is run by a child of the shell, which waits
    for it before the next. *)
Fixpoint session (lines : list (list Z)) (forks : nat) (f : fdt) (dead : list path) : list job :=
  match lines with
  | [] => []
  | buf :: lines =>
      let cmd := skip_blanks buf in
      if (at_ cmd 0 =? 10) || is_cd cmd then session lines forks f dead else
      match parse_line cmd with
      | Some c => jobs c [forks] 0 0 f dead
      | None => []
      end ++ session lines (S forks) f ([forks] :: dead)
  end.

(** ** Descriptors of the kernel

    [fdalloc] of [sysfile.c] takes the descriptor that the machine above
    takes: the lowest that is free. *)

(** The kernel's table and the machine's have the same free descriptors. *)
Definition same_free (f : fdt) (l : list (option nat)) : Prop :=
  length l = NOFILE /\ forall i, (i < NOFILE)%nat -> f !! Z.of_nat i = None <-> l !! i = Some None.

Lemma lowest_free f l : same_free f l -> lowest f = (fun r => Z.of_nat r.1) <$> list_find (fun o => o = None) l.
Proof.
  intros [Hl Hf]. unfold lowest. destruct (list_find (fun o => o = None) l) as [[i o]|] eqn:E.
  - apply list_find_Some in E as (Hi & -> & Hlt). assert (Hn := lookup_lt_Some _ _ _ Hi). rewrite Hl in Hn.
    assert (list_find (fun i => f !! i = None) (Z.of_nat <$> seq 0 NOFILE) = Some (i, Z.of_nat i)) as ->; [|done].
    apply list_find_Some. split_and!; [by rewrite list_lookup_fmap, lookup_seq_lt|by apply Hf|].
    intros j y Hj Hji. rewrite list_lookup_fmap, lookup_seq_lt in Hj by lia. injection Hj as <-. cbn [Nat.add].
    rewrite Hf by lia. intros Hn'. by apply (Hlt j None Hn' Hji).
  - assert (list_find (fun i => f !! i = None) (Z.of_nat <$> seq 0 NOFILE) = None) as ->; [|done].
    apply list_find_None, Forall_lookup_2. intros j y Hj. rewrite list_lookup_fmap in Hj. destruct (seq 0 NOFILE !! j) as [j'|] eqn:Ej; [|done].
    apply lookup_seq in Ej as [-> Hlt]. injection Hj as <-. cbn [Nat.add]. rewrite Hf by done. intros Hn.
    apply list_find_None in E. by apply (Forall_lookup_1 _ _ _ _ E Hn).
Qed.

(** [fdalloc] returns the lowest free descriptor, which then refers to the
    file, and fails when there is none; nothing else changes. *)
Theorem fdalloc_lowest (p file : nat) (pr : proc) (f : fdt) (s : kst)
    (Hs : quiet p s) (Hp : k_procs s !! p = Some pr) (Hf : same_free f (p_ofile pr)) :
  wp (fdalloc file) (fun r s' => Z.of_nat <$> r = lowest f /\
    s' = upd_sync touch (match r with
                         | Some fd => set_k_procs (<[p := set_p_ofile (<[fd := Some file]> (p_ofile pr)) pr]> (k_procs s)) s
                         | None => s
                         end)) s.
Proof.
  unfold fdalloc, curproc. apply wp_bind, wp_bind, wp_myproc'; [by eapply quiet_wf|]. rewrite (quiet_running p) by done.
  eapply wp_deref; [done|]. set (s1 := upd_sync touch s). rewrite (lowest_free _ _ Hf). destruct Hf as [Hl Hf].
  apply (wp_for_find (fun pre s' => s' = s1 /\ forall i, (i < length pre)%nat -> p_ofile pr !! i <> Some None)).
  - split; [done|]. cbn. lia.
  - intros pre fd post s' El [-> Hpre]. assert (Efd : seq 0 NOFILE !! length pre = Some fd) by by rewrite El, list_lookup_middle.
    apply lookup_seq in Efd as [-> Hlt]. cbn [Nat.add]. apply wp_bind. eapply wp_getp; [exact Hp|].
    destruct (lookup_lt_is_Some_2 (p_ofile pr) (length pre)) as [o Ho]; [lia|]. apply wp_bind. eapply wp_deref; [exact Ho|].
    destruct o as [g|].
    + apply wp_ret. split; [done|]. intros i Hi. rewrite length_app in Hi. cbn in Hi.
      destruct (decide (i = length pre)) as [->|Hne]; [congruence|apply Hpre; lia].
    + apply wp_bind, wp_updp; [by eapply lookup_lt_Some|]. apply wp_ret. split.
      * assert (list_find (fun o => o = None) (p_ofile pr) = Some (length pre, None)) as ->; [|done].
        apply list_find_Some. split_and!; [done|done|]. intros j y Hj Hlt' ->. by apply (Hpre j).
      * unfold upd_procs, s1. rewrite (list_alter_at _ _ _ pr) by exact Hp. done.
  - intros s' [-> Hall]. rewrite length_seq in Hall. split; [|done]. cbn.
    assert (list_find (fun o => o = None) (p_ofile pr) = None) as ->; [|done].
    apply list_find_None, Forall_lookup_2. intros i o Hi ->. apply (Hall i); [|done]. rewrite <- Hl. by eapply lookup_lt_Some.
Qed.
