(* ===== verification/RuncmdSpec.v ===== *)
(** * What the shell's processes do, in every interleaving

    [does p q x dead n L]: the program [p], run by process [q] in state [x],
    asks for the jobs [L] in at most [n] steps, its own and those of the
    processes it forks; the processes in [dead] are over. A call that fails
    may only make it ask for less. This is kept by every step of the machine,
    whatever the other processes do. *)

From stdpp Require Import base gmap sets strings numbers list.
From Stdlib Require Import Ascii.
From S2P Require Import Prelude Printf Strings State Sysfile Ulib Shell ShellSpec ShellPrint Runcmd.

(** [P] holds of some part of the jobs, in fewer steps. *)
Definition less (n : nat) (L : list job) (P : nat -> list job -> Prop) : Prop :=
  exists n' L', (n' < n)%nat /\ L' ⊆+ L /\ P n' L'.

(** [P] holds of the jobs, in fewer steps. *)
Definition next (n : nat) (L : list job) (P : nat -> list job -> Prop) : Prop :=
  exists n', (n' < n)%nat /\ P n' L.

Section does.
(** What is said of the descriptors a process has when it loads a program or
    waits. *)
Context (F : path -> fdt -> Prop).

Fixpoint does (p : prog) (q : path) (x : pst) (dead : list path) (n : nat) (L : list job) : Prop :=
  match p with
  | Exit _ => (0 < n)%nat /\ L = []
  | Exec argv k => F q (ps_fds x) /\ (1 < n)%nat /\ L = [mkjob q argv (ps_fds x) dead] /\ less n L (does k q x dead)
  | Write _ _ k => next n L (does k q x dead)
  | Close fd k => next n L (does k q (set_fds (delete fd (ps_fds x)) x) dead)
  | Open file mode k =>
      (exists fd, lowest (ps_fds x) = Some fd /\ next n L (does (k fd) q (set_fds (<[fd := Opened file mode]> (ps_fds x)) x) dead)) /\
      less n L (does (k (-1)) q x dead)
  | Dup fd k => exists d fd', ps_fds x !! fd = Some d /\ lowest (ps_fds x) = Some fd' /\
      next n L (does k q (set_fds (<[fd' := d]> (ps_fds x)) x) dead)
  | Pipe k =>
      (exists r w, lowest (ps_fds x) = Some r /\ lowest (<[r := PipeR q (ps_pipes x) (ps_forks x)]> (ps_fds x)) = Some w /\
         next n L (does (k (Some (r, w))) q (piped q r w x) dead)) /\
      less n L (does (k None) q x dead)
  | Fork k =>
      (exists n1 n2 L1 L2, (n1 + n2 < n)%nat /\ L ≡ₚ L1 ++ L2 /\ does (k 0) (child_of q x) (child x) dead n1 L1 /\
         forall pid, 0 < pid -> does (k pid) q (forked q x) dead n2 L2) /\
      less n L (does (k (-1)) q x dead)
  | Wait k => F q (ps_fds x) /\ ps_kids x <> [] /\ exists n', (n' < n)%nat /\
      forall i kid, ps_kids x !! i = Some kid -> does k q (reaped i x) (kid :: dead) n' L
  | Chdir _ k => next n L (does (k 0) q x dead) /\ less n L (does (k (-1)) q x dead)
  | Spin => False
  end.

(** ** The invariant of the machine *)

(** A process with the steps and the jobs it has left. *)
Abbreviation entry := (path * stage * (nat * list job))%type.

Definition alive (procs : list (path * stage)) : list path := procs.*1.

(** The names under [q] are those of the children it has forked. *)
Definition names_ok (used : list path) (q : path) (forks : nat) : Prop :=
  forall r m, r ++ m :: q ∈ used -> (m < forks)%nat.

Definition entry_ok (live used : list path) (e : entry) : Prop :=
  let '(q, st, (n, L)) := e in
  match st with
  | Shell p x => exists dead, does p q x dead n L /\ (forall d, d ∈ dead -> d ∈ used /\ d ∉ live) /\
      names_ok used q (ps_forks x) /\ NoDup (ps_kids x) /\ (forall kid, kid ∈ ps_kids x -> kid ∈ live /\ exists m, kid = m :: q)
  | Program f => F q f /\ n = 1%nat /\ L = []
  | Zombie => n = 0%nat /\ L = []
  end.

Definition pending (es : list entry) : list job := mjoin ((fun e : entry => e.2.2) <$> es).
Definition steps_left (es : list entry) : nat := sum_list ((fun e : entry => e.2.1) <$> es).

(** [J] are the jobs asked for at the beginning, [D] those done, [es] the
    processes; [ok] says that no call has failed so far. *)
Record bag (J : list job) (ok : bool) (live used : list path) (ran : list (path * list (list Z) * fdt))
    (D : list job) (es : list entry) : Prop := {
  bg_ok : Forall (entry_ok live used) es;
  bg_ran : ran = (fun j => (j_proc j, j_argv j, j_fds j)) <$> D;
  bg_sub : D ++ pending es ⊆+ J;
  bg_all : ok = true -> D ++ pending es ≡ₚ J;
  bg_after j d : j ∈ D -> d ∈ j_after j -> d ∈ used /\ d ∉ live
}.

Record minv (J : list job) (ok : bool) (n : nat) (m : machine) : Prop := {
  mi_live : NoDup (alive (m_procs m));
  mi_used q : q ∈ alive (m_procs m) -> q ∈ m_used m;
  mi_jobs : exists D es, es.*1 ≡ₚ m_procs m /\ steps_left es = n /\ bag J ok (alive (m_procs m)) (m_used m) (m_ran m) D es
}.

Implicit Types (J L D : list job) (es : list entry) (q kid : path) (x : pst) (used live : list path).

#[global] Instance alive_perm : Proper ((≡ₚ) ==> (≡ₚ)) alive.
Proof. intros l l' H. unfold alive. by rewrite H. Qed.

#[global] Instance pending_perm : Proper ((≡ₚ) ==> (≡ₚ)) pending.
Proof. intros l l' H. unfold pending. by rewrite H. Qed.

Lemma steps_perm es es' : es ≡ₚ es' -> steps_left es = steps_left es'.
Proof. intros H. unfold steps_left. induction H; cbn in *; lia. Qed.

Lemma pending_cons e es : pending (e :: es) = e.2.2 ++ pending es.
Proof. done. Qed.

Lemma entry_ok_live live live' used e : live ≡ₚ live' -> entry_ok live used e -> entry_ok live' used e.
Proof.
  intros H. destruct e as [[q [p x| |]] [n L]]; cbn; [|done|done]. intros (dead & H1 & H2 & H3 & H4 & H5). exists dead.
  split_and!; [done| |done|done|]; intros d Hd; [destruct (H2 d Hd)|destruct (H5 d Hd)]; by rewrite <- H.
Qed.

Lemma bag_live J ok live live' used ran D es : live ≡ₚ live' -> bag J ok live used ran D es -> bag J ok live' used ran D es.
Proof.
  intros H [B1 B2 B3 B4 B5]. split; [|done|done|done|intros j d Hj Hd; destruct (B5 j d Hj Hd); by rewrite <- H].
  eapply Forall_impl; [exact B1|]. intros e. by apply entry_ok_live.
Qed.

(** A process is singled out. *)
Lemma minv_pick J ok n m q st rest :
  minv J ok n m -> m_procs m ≡ₚ (q, st) :: rest ->
  NoDup (q :: alive rest) /\ (forall r, r ∈ q :: alive rest -> r ∈ m_used m) /\
  exists D nq Lq es, es.*1 ≡ₚ rest /\ n = (nq + steps_left es)%nat /\
    bag J ok (q :: alive rest) (m_used m) (m_ran m) D ((q, st, (nq, Lq)) :: es).
Proof.
  intros [H1 H2 (D & es & Hes & Hn & B)] Hp. assert (Ha : alive (m_procs m) ≡ₚ q :: alive rest) by by rewrite Hp.
  split_and!; [by rewrite <- Ha|intros r Hr; apply H2; by rewrite Ha|].
  rewrite Hp in Hes. symmetry in Hes. apply Permutation_map_inv in Hes as (es' & E & Hperm). destruct es' as [|[[q' st'] [nq Lq]] es']; [done|].
  injection E as -> -> Erest. exists D, nq, Lq, es'. split_and!.
  - by rewrite Erest.
  - by rewrite <- Hn, (steps_perm _ _ Hperm).
  - apply (bag_live _ _ _ _ _ _ _ _ Ha) in B. destruct B as [B1 B2 B3 B4 B5]. split; [by rewrite <- Hperm|done|by rewrite <- Hperm|by rewrite <- Hperm|done].
Qed.

(** A call of the process itself. *)
Lemma does_call p q x dead n L b p' x' :
  does p q x dead n L -> call q b (p, x) (p', x') ->
  exists n' L', (n' < n)%nat /\ L' ⊆+ L /\ (b = true -> L' = L) /\ does p' q x' dead n' L' /\
    ps_forks x' = ps_forks x /\ ps_kids x' = ps_kids x.
Proof.
  intros Hd Hc. inversion Hc; subst; cbn [does] in Hd.
  all: repeat match goal with
    | H : _ /\ _ |- _ => destruct H
    | H : exists _, _ |- _ => destruct H
    | H : next _ _ _ |- _ => destruct H as (? & ? & ?)
    | H : less _ _ _ |- _ => destruct H as (? & ? & ? & ? & ?)
    end; simplify_eq.
  all: try (match goal with H : _ \/ _ |- _ => destruct H; congruence end).
  all: do 2 eexists; (split; [|split; [|split; [|split; [eassumption|split]]]]); [eassumption|done..].
Qed.

(** One entry of the bag changes. *)
Lemma bag_replace J ok b live used ran D q st st' nq nq' Lq Lq' es :
  bag J ok live used ran D ((q, st, (nq, Lq)) :: es) -> entry_ok live used (q, st', (nq', Lq')) ->
  Lq' ⊆+ Lq -> (b = true -> Lq' = Lq) -> bag J (ok && b) live used ran D ((q, st', (nq', Lq')) :: es).
Proof.
  intros [B1 B2 B3 B4 B5] He Hs Hb. apply Forall_cons in B1 as [_ B1]. rewrite pending_cons in B3, B4. cbn [snd] in *.
  split; rewrite ?pending_cons; cbn [snd]; [by constructor|done| | |done].
  - etrans; [|exact B3]. by apply submseteq_app, submseteq_app.
  - intros [Ho Hb']%andb_true_iff. rewrite (Hb Hb'). by apply B4.
Qed.

Lemma minv_local J ok b n procs used ran q st st' rest nq nq' Lq Lq' es D :
  NoDup (q :: alive rest) -> (forall r, r ∈ q :: alive rest -> r ∈ used) -> es.*1 ≡ₚ rest -> n = (nq + steps_left es)%nat ->
  bag J ok (q :: alive rest) used ran D ((q, st, (nq, Lq)) :: es) -> procs ≡ₚ (q, st) :: rest ->
  (nq' < nq)%nat -> entry_ok (q :: alive rest) used (q, st', (nq', Lq')) -> Lq' ⊆+ Lq -> (b = true -> Lq' = Lq) ->
  exists n', (n' < n)%nat /\ minv J (ok && b) n' (mkmachine ((q, st') :: rest) used ran).
Proof.
  intros Hnd Hu Hes -> B _ Hlt He Hs Hb. exists (nq' + steps_left es)%nat. split; [lia|]. split; [done|done|].
  exists D, ((q, st', (nq', Lq')) :: es). split_and!; [cbn; by rewrite Hes|done|]. by eapply bag_replace.
Qed.

(** ** Forks and waits *)

Lemma path_suffix (r : path) (m : nat) (q : path) : r ++ m :: q <> q.
Proof. intros E. apply (f_equal length) in E. rewrite length_app in E. cbn in E. lia. Qed.

Lemma fork_fresh used q nf : names_ok used q nf -> nf :: q ∉ used.
Proof. intros H Hin. specialize (H [] nf Hin). lia. Qed.

Lemma names_fork used q nf q' forks :
  q ∈ used -> q' <> q -> names_ok used q' forks -> names_ok ((nf :: q) :: used) q' forks.
Proof.
  intros Hq Hne H r m [E|Hin]%elem_of_cons; [|by eapply H]. destruct r as [|k r]; [by injection E|].
  injection E as -> <-. by apply (H r m).
Qed.

Lemma names_self used q nf : names_ok used q nf -> names_ok ((nf :: q) :: used) q (S nf).
Proof.
  intros H r m [E|Hin]%elem_of_cons; [|specialize (H r m Hin); lia]. destruct r as [|k r]; [injection E; lia|].
  injection E as _ E. by destruct (path_suffix r m q).
Qed.

Lemma names_child used q nf : names_ok used q nf -> names_ok ((nf :: q) :: used) (nf :: q) 0.
Proof.
  intros H r m [E|Hin]%elem_of_cons; [by destruct (path_suffix r m (nf :: q))|].
  replace (r ++ m :: nf :: q) with ((r ++ [m]) ++ nf :: q) in Hin by by rewrite <- app_assoc. specialize (H _ _ Hin). lia.
Qed.

Lemma entry_ok_fork live used q nf e :
  q ∈ used -> nf :: q ∉ used -> e.1.1 <> q -> entry_ok live used e -> entry_ok ((nf :: q) :: live) ((nf :: q) :: used) e.
Proof.
  intros Hq Hf Hne. destruct e as [[q' [p x| |]] [n L]]; cbn; [|done|done]. intros (dead & H1 & H2 & H3 & H4 & H5). exists dead.
  split_and!; [done| |by apply names_fork|done|].
  - intros d Hd. destruct (H2 d Hd) as [Hu Hl]. split; [by right|]. intros [->|?]%elem_of_cons; done.
  - intros kid Hk. destruct (H5 kid Hk) as [Hl Hm]. split; [by right|done].
Qed.

Lemma entry_ok_wait live used q m e :
  e.1.1 <> q -> entry_ok ((m :: q) :: live) used e -> entry_ok live used e.
Proof.
  intros Hne. destruct e as [[q' [p x| |]] [n L]]; cbn in *; [|done|done]. intros (dead & H1 & H2 & H3 & H4 & H5). exists dead.
  split_and!; [done| |done|done|].
  - intros d Hd. destruct (H2 d Hd) as [Hu Hl]. split; [done|]. intros ?. apply Hl. by right.
  - intros kid Hk. destruct (H5 kid Hk) as [[->|Hl]%elem_of_cons [m' E]]; [|by split; [|exists m']]. by injection E as _ ->.
Qed.

(** The other processes are not [q]. *)
Lemma others_differ es rest q : es.*1 ≡ₚ rest -> NoDup (q :: alive rest) -> forall e, e ∈ es -> e.1.1 <> q.
Proof.
  intros Hes [Hq _]%NoDup_cons e He E. apply Hq. rewrite <- E. unfold alive. rewrite <- Hes. by apply list_elem_of_fmap_2, list_elem_of_fmap_2.
Qed.

Lemma minv_fork J ok n procs used ran q k x rest pid :
  minv J ok n (mkmachine procs used ran) -> procs ≡ₚ (q, Shell (Fork k) x) :: rest -> 0 < pid ->
  exists n', (n' < n)%nat /\ minv J ok n' (mkmachine ((child_of q x, Shell (k 0) (child x)) :: (q, Shell (k pid) (forked q x)) :: rest)
    (child_of q x :: used) ran).
Proof.
  intros Hm Hp Hpid. destruct (minv_pick _ _ _ _ _ _ _ Hm Hp) as (Hnd & Hu & D & nq & Lq & es & Hes & -> & B). cbn [m_used m_ran] in *.
  assert (Hoth := others_differ es rest q Hes Hnd). destruct B as [B1 B2 B3 B4 B5]. apply Forall_cons in B1 as [(dead & Hd & H2 & H3 & H4 & H5) B1].
  rewrite pending_cons in B3, B4. cbn [snd] in B3, B4. cbn [does] in Hd. destruct Hd as [(n1 & n2 & L1 & L2 & Hn & HL & Hc & Hpar) _]. unfold child_of in *. set (c := ps_forks x :: q) in *.
  assert (Hqu : q ∈ used) by (apply Hu; by left). assert (Hf := fork_fresh _ _ _ H3). fold c in Hf.
  assert (Hcl : c ∉ q :: alive rest) by (intros Hc'; by apply Hf, Hu).
  exists (n1 + (n2 + steps_left es))%nat. split; [lia|]. split; cbn [m_procs m_used m_ran].
  - change (NoDup (c :: q :: alive rest)). by constructor.
  - intros r [->|Hr]%elem_of_cons; [by left|right; by apply Hu].
  - exists D, ((c, Shell (k 0) (child x), (n1, L1)) :: (q, Shell (k pid) (forked q x), (n2, L2)) :: es).
    assert (EP : pending ((c, Shell (k 0) (child x), (n1, L1)) :: (q, Shell (k pid) (forked q x), (n2, L2)) :: es) ≡ₚ Lq ++ pending es).
    { rewrite !pending_cons, HL. cbn [snd]. by rewrite app_assoc. }
    split_and!; [cbn; by rewrite Hes|done|]. change (alive _) with (c :: q :: alive rest).
    split; [|done|by rewrite EP|by rewrite EP|].
    + constructor; [|constructor].
      * exists dead. split_and!; [done| |by apply names_child|apply NoDup_nil_2|by intros kid Hk%elem_of_nil].
        intros d Hd. destruct (H2 d Hd). split; [by right|]. intros [->|?]%elem_of_cons; done.
      * exists dead. split_and!; [by apply Hpar| |by apply names_self| |].
        -- intros d Hd. destruct (H2 d Hd). split; [by right|]. intros [->|?]%elem_of_cons; done.
        -- cbn. constructor; [|done]. intros Hk. destruct (H5 _ Hk) as [Hl _]. done.
        -- cbn. intros kid [->|Hk]%elem_of_cons; [split; [by left|by eexists]|]. destruct (H5 _ Hk). split; [by right|done].
      * apply Forall_forall. intros e He. rewrite Forall_forall in B1. apply entry_ok_fork; [done|done|by apply Hoth|by apply B1].
    + intros j d Hj Hd. destruct (B5 j d Hj Hd). split; [by right|]. intros [->|?]%elem_of_cons; done.
Qed.

Lemma NoDup_not_deleted {A} (l : list A) i a : NoDup l -> l !! i = Some a -> a ∉ delete i l.
Proof.
  intros Hnd Hi. rewrite <- (take_drop_middle l i a Hi) in Hnd. rewrite delete_take_drop.
  apply NoDup_app in Hnd as (_ & H1 & [H2 _]%NoDup_cons). intros [Ha|Ha]%elem_of_app; [|done]. apply (H1 a Ha). by left.
Qed.

Lemma NoDup_deleted {A} (l : list A) i : NoDup l -> NoDup (delete i l).
Proof. intros H. eapply sublist_NoDup; [done|]. apply sublist_delete. Qed.

Lemma minv_wait J ok n procs used ran q k x i kid rest :
  minv J ok n (mkmachine procs used ran) -> procs ≡ₚ (q, Shell (Wait k) x) :: (kid, Zombie) :: rest -> ps_kids x !! i = Some kid ->
  exists n', (n' < n)%nat /\ minv J ok n' (mkmachine ((q, Shell k (reaped i x)) :: rest) used ran).
Proof.
  intros Hm Hp Hi. destruct (minv_pick _ _ _ _ _ _ _ Hm Hp) as (Hnd & Hu & D & nq & Lq & es & Hes & -> & B). cbn [m_used m_ran] in *.
  assert (Hoth := others_differ _ _ q Hes Hnd). destruct B as [B1 B2 B3 B4 B5]. apply Forall_cons in B1 as [(dead & Hd & H2 & H3 & H4 & H5) B1].
  symmetry in Hes. apply Permutation_map_inv in Hes as (es' & E & Hperm). destruct es' as [|[[q' st'] [nz Lz]] es']; [done|]. injection E as <- <- Erest.
  rewrite Hperm in B1. apply Forall_cons in B1 as [[-> ->] B1]. rewrite (steps_perm _ _ Hperm).
  assert (Hoth' : forall e, e ∈ es' -> e.1.1 <> q) by (intros e He; apply Hoth; rewrite Hperm; by right).
  rewrite !pending_cons, Hperm, pending_cons in B3, B4. cbn [snd app] in B3, B4.
  cbn [does] in Hd. destruct Hd as (_ & _ & n' & Hn & Hk). specialize (Hk i kid Hi).
  destruct (H5 kid) as [Hkl [m ->]]; [by eapply list_elem_of_lookup_2|]. change (alive (_ :: rest)) with ((m :: q) :: alive rest) in *.
  assert (Hperm2 : q :: (m :: q) :: alive rest ≡ₚ (m :: q) :: q :: alive rest) by constructor.
  rewrite Hperm2 in Hnd. apply NoDup_cons in Hnd as [Hkn Hnd].
  exists (n' + steps_left es')%nat. split; [cbn; unfold steps_left; lia|]. split; cbn [m_procs m_used m_ran].
  - exact Hnd.
  - intros r Hr. apply Hu. rewrite Hperm2. by right.
  - exists D, ((q, Shell k (reaped i x), (n', Lq)) :: es'). split_and!; [cbn; by rewrite Erest|done|]. change (alive _) with (q :: alive rest).
    split; rewrite ?pending_cons; cbn [snd]; [|done|done|done|].
    + constructor.
      * exists ((m :: q) :: dead). split_and!; [done| |done|by apply NoDup_deleted|].
        -- intros d [->|Hd]%elem_of_cons; [split; [apply Hu; rewrite Hperm2; by left|done]|]. destruct (H2 d Hd) as [? Hl].
           split; [done|]. intros ?. apply Hl. rewrite Hperm2. by right.
        -- cbn. intros kid' Hk'. assert (Hk'' : kid' ∈ ps_kids x) by by eapply list_elem_of_delete_inv. destruct (H5 _ Hk'') as [Hl Hm'].
           split; [|done]. rewrite Hperm2 in Hl. apply elem_of_cons in Hl as [->|?]; [|done]. by destruct (NoDup_not_deleted _ _ _ H4 Hi).
      * apply Forall_forall. intros e He. rewrite Forall_forall in B1. apply (entry_ok_wait _ _ q m); [by apply Hoth'|].
        eapply entry_ok_live; [exact Hperm2|]. by apply B1.
    + intros j d Hj Hd. destruct (B5 j d Hj Hd) as [? Hl]. split; [done|]. intros ?. apply Hl. rewrite Hperm2. by right.
Qed.

(** Every step keeps the invariant and takes the machine nearer to its end. *)
Lemma minv_step ends J ok b n m m' : minv J ok n m -> mstep ends b m m' -> exists n', (n' < n)%nat /\ minv J (ok && b) n' m'.
Proof.
  intros Hm Hs. destruct Hs as [b procs q p x p' x' rest used ran Hp Hc|procs q k x rest used ran pid Hp Hpid|procs q k x i kid rest used ran Hp Hi
    |procs q k x rest used ran Hp Hk|procs q argv k x rest used ran Hp|procs q status x rest used ran Hp|procs q f rest used ran Hp _].
  - destruct (minv_pick _ _ _ _ _ _ _ Hm Hp) as (Hnd & Hu & D & nq & Lq & es & Hes & Hn & B).
    assert (He := bg_ok _ _ _ _ _ _ _ B). apply Forall_cons in He as [(dead & Hd & H2 & H3 & H4 & H5) _].
    destruct (does_call _ _ _ _ _ _ _ _ _ Hd Hc) as (n' & L' & Hlt & Hsub & HL & Hd' & Ef & Ek).
    eapply (minv_local J ok b n procs used ran q _ _ rest nq n' Lq L'); try done. exists dead. rewrite Ef, Ek. done.
  - rewrite andb_true_r. by eapply minv_fork.
  - rewrite andb_true_r. by eapply minv_wait.
  - destruct (minv_pick _ _ _ _ _ _ _ Hm Hp) as (_ & _ & D & nq & Lq & es & _ & _ & B).
    assert (He := bg_ok _ _ _ _ _ _ _ B). apply Forall_cons in He as [(dead & (_ & Hd & _) & _) _]. done.
  - destruct (minv_pick _ _ _ _ _ _ _ Hm Hp) as (Hnd & Hu & D & nq & Lq & es & Hes & -> & [B1 B2 B3 B4 B5]). cbn [m_used m_ran] in *.
    apply Forall_cons in B1 as [(dead & (HF & Hn & -> & _) & H2 & _) B1]. rewrite pending_cons in B3, B4. cbn [snd app] in B3, B4.
    exists (1 + steps_left es)%nat. split; [lia|]. split; [done|done|]. cbn [m_procs m_used m_ran].
    exists (D ++ [mkjob q argv (ps_fds x) dead]), ((q, Program (ps_fds x), (1%nat, [])) :: es). split_and!; [cbn; by rewrite Hes|done|].
    change (alive _) with (q :: alive rest). split; rewrite ?pending_cons, <- ?app_assoc; cbn [snd app].
    + by constructor.
    + by rewrite fmap_app, B2.
    + done.
    + rewrite andb_true_r. done.
    + intros j d [Hj|Hj]%elem_of_app Hd; [by apply (B5 j)|]. apply list_elem_of_singleton in Hj as ->. cbn in Hd. destruct (H2 d Hd). done.
  - destruct (minv_pick _ _ _ _ _ _ _ Hm Hp) as (Hnd & Hu & D & nq & Lq & es & Hes & Hn & B).
    assert (He := bg_ok _ _ _ _ _ _ _ B). apply Forall_cons in He as [(dead & [Hd ->] & _) _].
    by eapply (minv_local J ok true n procs used ran q _ _ rest nq 0).
  - destruct (minv_pick _ _ _ _ _ _ _ Hm Hp) as (Hnd & Hu & D & nq & Lq & es & Hes & Hn & B).
    assert (He := bg_ok _ _ _ _ _ _ _ B). apply Forall_cons in He as [(_ & -> & ->) _].
    eapply (minv_local J ok true n procs used ran q _ _ rest 1 0); try done. lia.
Qed.

(** ** Progress *)

(** A process that has not ended can go on, waits for a child or runs a
    program. *)
Lemma entry_step ends live used procs q st n L rest :
  procs ≡ₚ (q, st) :: rest -> entry_ok live used (q, st, (n, L)) -> st <> Zombie ->
  (forall ran, exists m', mstep ends true (mkmachine procs used ran) m') \/
  F q (fds_of st) /\ ((exists k x, st = Shell (Wait k) x /\ ps_kids x <> []) \/ loaded st = true).
Proof.
  intros Hp He Hz. destruct st as [p x|f|]; [|right; split; [apply He|by right]|done].
  destruct He as (dead & Hd & _). destruct p; cbn [does] in Hd.
  - left. intros ran. eexists. by eapply step_exit.
  - left. intros ran. eexists. by eapply step_exec.
  - left. intros ran. eexists. eapply step_call; [done|constructor].
  - left. intros ran. eexists. eapply step_call; [done|constructor].
  - left. intros ran. destruct Hd as [(fd & Hl & _) _]. eexists. eapply step_call; [done|by constructor].
  - left. intros ran. destruct Hd as (d & fd' & Hf & Hl & _). eexists. eapply step_call; [done|by econstructor].
  - left. intros ran. destruct Hd as [(r & w & Hr & Hw & _) _]. eexists. eapply step_call; [done|by constructor].
  - left. intros ran. eexists. by apply (step_fork _ _ q k x rest used ran 1).
  - right. split; [apply Hd|]. left. exists p, x. split; [done|apply Hd].
  - left. intros ran. eexists. eapply step_call; [done|constructor].
  - done.
Qed.

(** What is left to say of a process when no step is possible. *)
Lemma minv_stuck ends J ok n m q st :
  minv J ok n m -> (q, st) ∈ m_procs m -> st <> Zombie ->
  (exists m', mstep ends true m m') \/
  F q (fds_of st) /\ (loaded st = true \/ exists i stk, (i :: q, stk) ∈ m_procs m /\ stk <> Zombie).
Proof.
  intros Hm Hin Hz. destruct m as [procs used ran]; cbn [m_procs] in *.
  apply elem_of_Permutation in Hin as [rest Hp]; destruct (minv_pick _ _ _ _ _ _ _ Hm Hp) as (Hnd & _ & D & nq & Lq & es & Hes & _ & B).
  assert (He := bg_ok _ _ _ _ _ _ _ B). apply Forall_cons in He as [He _]. cbn [m_used] in He.
  destruct (entry_step ends _ _ _ _ _ _ _ _ Hp He Hz) as [?|[HF [(k & x & -> & Hk)|Hl]]]; [by left| |right; split; [done|by left]].
  destruct He as (dead & _ & _ & _ & _ & H5). destruct (ps_kids x) as [|kid kids] eqn:Ek; [done|].
  destruct (H5 kid) as [Hl [i ->]]; [by left|]. assert (Hlen : i :: q ∈ alive procs) by by rewrite Hp.
  unfold alive in Hlen. apply list_elem_of_fmap in Hlen as ([kid' stk] & E & Hkin). cbn in E. subst kid'.
  assert (Hd : stk = Zombie \/ stk <> Zombie) by (destruct stk; by (left + right)). destruct Hd as [->|Hkz].
  - left. rewrite Hp in Hkin. apply elem_of_cons in Hkin as [E|Hkin]; [done|]. apply elem_of_Permutation in Hkin as [rest' Hr].
    eexists. eapply (step_wait _ _ q k x 0 (i :: q) rest'); [by rewrite Hp, Hr|by rewrite Ek].
  - right. split; [done|right]. by exists i, stk.
Qed.

(** Below a process that has not ended a program is running. *)
Lemma descend ends (h : nat) J ok n m q st :
  minv J ok n m -> (q, st) ∈ m_procs m -> st <> Zombie -> (forall r, r ∈ alive (m_procs m) -> (length r <= length q + h)%nat) ->
  (exists m', mstep ends true m m') \/ exists r st', q `suffix_of` r /\ (r, st') ∈ m_procs m /\ loaded st' = true.
Proof.
  revert q st. induction h as [|h IH]; intros q st Hm Hin Hz Hmax.
  all: destruct (minv_stuck ends _ _ _ _ _ _ Hm Hin Hz) as [?|[_ [Hl|(i & stk & Hk & Hkz)]]]; [by left|right; by exists q, st|].
  - assert (Hlen : i :: q ∈ alive (m_procs m)) by by apply (list_elem_of_fmap_2 fst _ (i :: q, stk)). apply Hmax in Hlen. cbn in Hlen. lia.
  - destruct (IH (i :: q) stk Hm Hk Hkz) as [?|(r & st' & Hs & ?)]; [intros r Hr; apply Hmax in Hr; cbn; lia|by left|].
    right. exists r, st'. split; [|done]. etrans; [|exact Hs]. by exists [i].
Qed.

Lemma some_program ends J ok n m q st :
  minv J ok n m -> (q, st) ∈ m_procs m -> st <> Zombie ->
  (exists m', mstep ends true m m') \/ exists r st', q `suffix_of` r /\ (r, st') ∈ m_procs m /\ loaded st' = true.
Proof.
  intros Hm Hin Hz. eapply (descend ends (max_list (length <$> alive (m_procs m)))); [done..|].
  intros r Hr. assert (length r <= max_list (length <$> alive (m_procs m)))%nat; [|lia].
  by apply max_list_elem_of_le, list_elem_of_fmap_2.
Qed.

(** ** Runs *)

(** [k] steps; whether none of the calls failed. *)
Inductive mruns (ends : list (path * stage) -> fdt -> Prop) (m0 : machine) : bool -> nat -> machine -> Prop :=
| runs_start : mruns ends m0 true 0 m0
| runs_more b k m b' m' : mruns ends m0 b k m -> mstep ends b' m m' -> mruns ends m0 (b && b') (S k) m'.

Lemma mruns_minv ends J m0 n b k m : minv J true n m0 -> mruns ends m0 b k m -> exists n', (n' + k <= n)%nat /\ minv J b n' m.
Proof.
  intros H0. induction 1 as [|b k m b' m' _ IH Hs]; [exists n; split; [lia|done]|]. destruct IH as (n1 & Hn & Hi).
  destruct (minv_step _ _ _ _ _ _ _ Hi Hs) as (n2 & Hlt & Hi'). exists n2. split; [lia|done].
Qed.

(** What was loaded is among the jobs, each at most once, after the processes
    it has to follow. *)
Lemma minv_ran J b n m : minv J b n m -> exists D, D ⊆+ J /\ m_ran m = (fun j => (j_proc j, j_argv j, j_fds j)) <$> D /\
  forall j d, j ∈ D -> d ∈ j_after j -> d ∉ alive (m_procs m).
Proof.
  intros [_ _ (D & es & _ & _ & [_ B2 B3 _ B5])]. exists D. split_and!; [|done|intros j d Hj Hd; by destruct (B5 j d Hj Hd)].
  etrans; [|exact B3]. apply submseteq_inserts_r. done.
Qed.

(** When no call has failed and every process has ended, all of them were. *)
Lemma minv_all J n m : minv J true n m -> Forall (fun r => r.2 = Zombie) (m_procs m) ->
  exists D, D ≡ₚ J /\ m_ran m = (fun j => (j_proc j, j_argv j, j_fds j)) <$> D.
Proof.
  intros [_ _ (D & es & Hes & _ & [B1 B2 _ B4 _])] HZ. exists D. split; [|done]. rewrite <- B4 by done.
  assert (Hp : pending es = []); [|by rewrite Hp, app_nil_r]. rewrite <- Hes in HZ. clear -B1 HZ.
  induction es as [|[[q st] [n L]] es IH]; [done|]. apply Forall_cons in B1 as [He B1]. cbn in HZ. apply Forall_cons in HZ as [Hz HZ].
  cbn in Hz. subst st. destruct He as [_ ->]. rewrite pending_cons. cbn. by apply IH.
Qed.

(** The first state. *)
Lemma minv_start p f n J : does p [] (mkpst f 0 0 []) [] n J -> minv J true n (start p f).
Proof.
  intros Hd. split; [apply NoDup_singleton|by intros q Hq|]. exists [], [([], Shell p (mkpst f 0 0 []), (n, J))].
  split_and!; [done|cbn; lia|]. split; rewrite ?pending_cons; cbn [app snd].
  - apply Forall_singleton. exists []. split_and!; [done|by intros d Hd'%elem_of_nil| |apply NoDup_nil_2|by intros kid Hk%elem_of_nil].
    intros r k Hin. cbn in Hin. apply list_elem_of_singleton in Hin. by destruct r.
  - done.
  - by rewrite app_nil_r.
  - intros _. by rewrite app_nil_r.
  - by intros j d Hj%elem_of_nil.
Qed.

End does.

(** ** Pipes that block

    The ends of a pipe are where they belong: the write end with the first
    child of the process that made it and the children of that one, the read
    end with the second. Then no two programs wait for one another, however
    the pipelines are nested: among the programs that run, the leftmost waits
    for no input, and one that waits for its output to be taken up waits for a
    program further to the right. *)

Definition placed (r : path) (f : fdt) : Prop :=
  map_Forall (fun _ d => match d with
                         | PipeW q n c => n = 0%nat /\ c :: q `suffix_of` r
                         | PipeR q n c => n = 0%nat /\ S c :: q `suffix_of` r
                         | _ => True
                         end) f.

(** What a process hands on to its children, and what it does to its own
    descriptors on the way to a program. *)
Record inherits (F : path -> fdt -> Prop) : Prop := {
  in_child q f m : F q f -> F (m :: q) f;
  in_open q f fd file mode : F q f -> F q (<[fd := Opened file mode]> f);
  in_left q f c : F q f -> F (c :: q) (<[1 := PipeW q 0 c]> f);
  in_right q f c : F q f -> F (S c :: q) (<[0 := PipeR q 0 c]> f)
}.

Lemma placed_inherits : inherits placed.
Proof.
  assert (Hc : forall q f m, placed q f -> placed (m :: q) f).
  { intros q f m H i d Hd. specialize (H i d Hd). destruct d; cbn in *; [done|done|..]; destruct H as [-> H]; (split; [done|]); (etrans; [exact H|by exists [m]]). }
  split; [done|..]; intros; apply map_Forall_insert_2; try done; by apply Hc.
Qed.

Lemma anything_inherits : inherits (fun _ _ => True).
Proof. by split. Qed.

(** [a] is to the left of [b]: it descends from an earlier child of a common
    ancestor. *)
Fixpoint before (a b : path) : bool :=
  match a, b with
  | i :: a, j :: b => (i <? j)%nat || ((i =? j)%nat && before a b)
  | _, _ => false
  end.

Definition left_of (p p' : path) : Prop := before (rev p) (rev p') = true.

#[global] Instance left_of_dec p p' : Decision (left_of p p').
Proof. unfold left_of. apply _. Defined.

#[global] Instance left_of_trans : Transitive left_of.
Proof.
  intros x y z. unfold left_of. generalize (rev x) as a. generalize (rev y) as b. generalize (rev z) as c.
  induction c as [|k c IH]; intros [|j b] [|i a]; cbn [before]; try done. rewrite !orb_true_iff, !andb_true_iff, !Nat.ltb_lt, !Nat.eqb_eq.
  intros [H1|[-> H1]] [H2|[-> H2]]; [left; lia|by left|by left|right; split; [done|by eapply IH]].
Qed.

Lemma left_of_irrefl x : ~ left_of x x.
Proof.
  unfold left_of. generalize (rev x) as a. induction a as [|i a IH]; cbn [before]; [done|].
  by rewrite orb_true_iff, andb_true_iff, Nat.ltb_lt; intros [?|[_ ?]]; [lia|].
Qed.

Lemma left_of_siblings c q x y : c :: q `suffix_of` x -> S c :: q `suffix_of` y -> left_of x y.
Proof.
  intros [r ->] [r' ->]. unfold left_of. rewrite !rev_app_distr. cbn [rev]. rewrite <- !app_assoc. cbn [app].
  generalize (rev q) as l. induction l as [|i l IH]; cbn [before app].
  - rewrite orb_true_iff, Nat.ltb_lt. left. lia.
  - rewrite orb_true_iff, andb_true_iff, Nat.eqb_eq. by right.
Qed.

Lemma leftmost (P : path -> Prop) (l : list path) (HP : forall x, Decision (P x)) :
  (exists x, x ∈ l /\ P x) -> exists x, x ∈ l /\ P x /\ forall y, y ∈ l -> P y -> ~ left_of y x.
Proof.
  induction l as [|a l IH]; intros (x & Hx & Hp); [by apply elem_of_nil in Hx|].
  destruct (decide (Exists P l)) as [He|He].
  - apply Exists_exists in He. destruct (IH He) as (z & Hz & Hpz & Hmin). destruct (decide (P a /\ left_of a z)) as [[Ha Haz]|Hn].
    + exists a. split_and!; [by left|done|]. intros y [->|Hy]%elem_of_cons Hpy; [apply left_of_irrefl|].
      intros Hya. apply (Hmin y Hy Hpy). by etrans.
    + exists z. split_and!; [by right|done|]. intros y [->|Hy]%elem_of_cons Hpy; [tauto|by apply Hmin].
  - apply not_Exists_Forall in He; [|done]. rewrite Forall_forall in He. apply elem_of_cons in Hx as [->|Hx]; [|by destruct (He x Hx)].
    exists a. split_and!; [by left|done|]. intros y [->|Hy]%elem_of_cons Hpy; [apply left_of_irrefl|by destruct (He y Hy)].
Qed.

Section blocked.
Context (procs : list (path * stage)).

Definition is_running (r : path) : Prop := exists f, (r, Program f) ∈ procs.
Definition programs : list path := (filter (fun r => loaded r.2 = true) procs).*1.

Lemma running_programs r : is_running r <-> r ∈ programs.
Proof.
  unfold is_running, programs. rewrite list_elem_of_fmap. split.
  - intros [f Hf]. exists (r, Program f). split; [done|]. by apply list_elem_of_filter.
  - intros ([r' [p x|f|]] & -> & [Hl Hin]%list_elem_of_filter); [done|by exists f|done].
Qed.

(** No step is possible. *)
Context (Hplaced : forall q st, (q, st) ∈ procs -> st <> Zombie -> placed q (fds_of st) /\ exists r, q `suffix_of` r /\ is_running r).
Context (Hblocked : forall r f, (r, Program f) ∈ procs -> ~ unblocked procs f).

Lemma has_open_placed d q st : (q, st) ∈ procs -> has_open d st -> st <> Zombie /\ exists i, fds_of st !! i = Some d.
Proof.
  intros _ (i & d' & Hd & ->). split; [|by exists i]. intros ->. cbn in Hd. by rewrite lookup_empty in Hd.
Qed.

(** Nobody to the left of the pipe a program reads runs, or nobody reads it. *)
Definition nothing_missed (x : path) : Prop :=
  forall q c, S c :: q `suffix_of` x -> (exists r, c :: q `suffix_of` r /\ is_running r) ->
    forall r, r ∈ procs -> loaded r.2 = true -> ~ has_open (PipeR q 0 c) r.2.

Lemma writer_below q n c r : r ∈ procs -> has_open (PipeW q n c) r.2 -> n = 0%nat /\ exists y, c :: q `suffix_of` y /\ is_running y.
Proof.
  destruct r as [y st]. intros Hin Ho. destruct (has_open_placed _ _ _ Hin Ho) as [Hz [i Hi]].
  destruct (Hplaced y st Hin Hz) as [Hp (z & Hs & Hrun)]. specialize (Hp i _ Hi). cbn in Hp. destruct Hp as [-> Hp].
  split; [done|]. exists z. split; [by etrans|done].
Qed.

Lemma reader_below q n c r : r ∈ procs -> has_open (PipeR q n c) r.2 -> n = 0%nat /\ exists y, S c :: q `suffix_of` y /\ is_running y.
Proof.
  destruct r as [y st]. intros Hin Ho. destruct (has_open_placed _ _ _ Hin Ho) as [Hz [i Hi]].
  destruct (Hplaced y st Hin Hz) as [Hp (z & Hs & Hrun)]. specialize (Hp i _ Hi). cbn in Hp. destruct Hp as [-> Hp].
  split; [done|]. exists z. split; [by etrans|done].
Qed.

(** A program that is blocked waits for one further to the right. *)
Lemma blocked_right x : is_running x -> nothing_missed x -> exists x', is_running x' /\ nothing_missed x' /\ left_of x x'.
Proof.
  intros [f Hf] Hm. destruct (Hplaced x (Program f) Hf) as [Hp _]; [done|].
  assert (Hb := Hblocked x f Hf). apply map_not_Forall in Hb as (i & d & Hd & Hs); [|intros; apply _].
  specialize (Hp i d Hd). cbn in Hp. destruct d as [|file mode|q n c|q n c]; cbn in Hs; [done|done|..].
  - exfalso. apply not_Forall_Exists, Exists_exists in Hs as (r & Hr & Ho); [|intros; apply _]. destruct Hp as [-> Hp].
    assert (Ho' : has_open (PipeW q 0 c) r.2) by by apply dec_stable.
    destruct (writer_below _ _ _ _ Hr Ho') as [_ Hw]. apply (Hm q c Hp Hw (x, Program f) Hf eq_refl). by exists i, (PipeR q 0 c).
  - destruct Hp as [-> Hp]. apply Decidable.not_or in Hs as [Hne Hnf].
    assert (Hno : forall r, r ∈ procs -> loaded r.2 = true -> ~ has_open (PipeR q 0 c) r.2).
    { intros r Hr Hl Ho. apply Hne, Exists_exists. by exists r. }
    apply not_Forall_Exists, Exists_exists in Hnf as (r & Hr & Ho); [|intros; apply _].
    assert (Ho' : has_open (PipeR q 0 c) r.2) by by apply dec_stable.
    destruct (reader_below _ _ _ _ Hr Ho') as [_ (y & Hy & Hrun)].
    destruct (leftmost (fun z => S c :: q `suffix_of` z) programs _) as (x' & Hx' & Hs' & Hmin); [by exists y; split; [apply running_programs|]|].
    exists x'. split_and!; [by apply running_programs| |by eapply left_of_siblings].
    intros q' c' Hq' (z & Hz & Hrz) r' Hr' Hl'.
    destruct (suffix_weak_total _ _ _ Hs' Hq') as [[k E]|[k E]].
    + destruct k as [|a k]; cbn in E; simplify_eq; [by apply Hno|].
      destruct (Hmin z); [by apply running_programs| |by eapply left_of_siblings].
      etrans; [|exact Hz]. by exists (c' :: k).
    + destruct k as [|a k]; cbn in E; simplify_eq; [by apply Hno|].
      apply (Hm q' c'); [|by exists z|done|done]. etrans; [|exact Hp]. by exists (c :: k).
Qed.

Lemma nobody_runs : forall x, ~ is_running x.
Proof.
  assert (Hend : forall k x, (length (filter (left_of x) programs) <= k)%nat -> is_running x -> nothing_missed x -> False).
  { induction k as [|k IH]; intros x Hk Hr Hm; destruct (blocked_right x Hr Hm) as (x' & Hr' & Hm' & Hlt).
    all: apply running_programs in Hr' as Hin; assert (Hx' : x' ∈ filter (left_of x) programs) by by apply list_elem_of_filter.
    - destruct (filter (left_of x) programs); [by apply elem_of_nil in Hx'|cbn in Hk; lia].
    - apply (IH x'); [|done|done]. apply elem_of_Permutation in Hx' as [l El].
      assert (Hsub : filter (left_of x') programs ⊆+ l); [|apply submseteq_length in Hsub; rewrite El in Hk; cbn in Hk; lia].
      assert (E : filter (left_of x') programs ≡ₚ filter (left_of x') (x' :: l)).
      { rewrite <- El, list_filter_filter. rewrite (list_filter_iff _ (fun y => left_of x' y /\ left_of x y)); [done|].
        intros y. split; [intros H; split; [done|by etrans]|tauto]. }
      rewrite E, filter_cons_False by apply left_of_irrefl. apply sublist_submseteq, sublist_filter. }
  intros x Hx. destruct (leftmost (fun _ => True) programs _) as (y & Hy & _ & Hmin); [exists x; split; [by apply running_programs|done]|].
  apply (Hend _ y (le_n _)); [by apply running_programs|]. intros q c Hs (z & Hz & Hrz). exfalso.
  apply (Hmin z); [by apply running_programs|done|]. by eapply left_of_siblings.
Qed.

End blocked.

Lemma scan_or {A} (P : Prop) (R : A -> Prop) (l : list A) : (forall x, x ∈ l -> P \/ R x) -> P \/ Forall R l.
Proof.
  induction l as [|x l IH]; intros H; [by right|]. destruct (H x) as [?|Hx]; [by left|by left|].
  destruct IH as [?|Hl]; [intros y Hy; apply H; by right|by left|right; by constructor].
Qed.

(** With pipes that block, too, some process can go on until all have ended. *)
Lemma progress J ok n m : minv placed J ok n m -> Forall (fun r => r.2 = Zombie) (m_procs m) \/ exists m', mstep unblocked true m m'.
Proof.
  intros Hm. set (procs := m_procs m).
  destruct (scan_or (exists m', mstep unblocked true m m') (fun r => r.2 <> Zombie -> placed r.1 (fds_of r.2) /\
    (exists r', r.1 `suffix_of` r' /\ is_running procs r') /\ forall f, r.2 = Program f -> ~ unblocked procs f) procs) as [?|Hall]; [|by right|].
  { intros [q st] Hin. cbn [fst snd]. assert (Hc : (exists f, st = Program f /\ unblocked procs f) \/ forall f, st = Program f -> ~ unblocked procs f).
    { destruct st as [|f|]; [by right| |by right]. destruct (decide (unblocked procs f)); [left; by exists f|right; by intros ? [= <-]]. }
    destruct Hc as [(f & -> & Hu)|Hn].
    - left. destruct m as [ps used ran]. apply elem_of_Permutation in Hin as [rest Hp]. eexists. by eapply step_end.
    - assert (Hd : st = Zombie \/ st <> Zombie) by (destruct st; by (left + right)). destruct Hd as [->|Hz]; [by right|].
      destruct (minv_stuck _ unblocked _ _ _ _ _ _ Hm Hin Hz) as [?|[HF _]]; [by left|].
      destruct (some_program _ unblocked _ _ _ _ _ _ Hm Hin Hz) as [?|(r & st' & Hs & Hr & Hl)]; [by left|].
      right. intros _. split_and!; [done|exists r; split; [done|]|done].
      destruct st' as [|f|]; [done|by exists f|done]. }
  left. rewrite Forall_forall in Hall. apply Forall_forall. intros [q st] Hin. cbn.
  assert (Hd : st = Zombie \/ st <> Zombie) by (destruct st; by (left + right)). destruct Hd as [?|Hz]; [done|].
  exfalso. destruct (Hall _ Hin Hz) as (_ & (r & _ & Hr) & _). apply (nobody_runs procs) in Hr; [done| |].
  - intros q' st' Hin' Hz'. destruct (Hall _ Hin' Hz') as (? & ? & _). done.
  - intros r' f Hr'. by apply (Hall _ Hr').
Qed.
