(* ===== verification/ShellRun.v ===== *)
(** * The shell runs what its input asks for

    Every program a line asks for is run once, by a process with exactly the
    standard descriptors, connected as the line says, and after the commands
    that come before it. When programs end that no pipe keeps waiting, the
    shell and its children end. *)

From stdpp Require Import base gmap sets strings numbers list.
From Stdlib Require Import Ascii.
From S2P Require Import Prelude Printf Strings State Sysfile Ulib Shell ShellSpec ShellPrint Runcmd RuncmdSpec.

(** ** Descriptors *)

(** The standard descriptors are open, and no other. *)
Definition std (f : fdt) : Prop := dom f = {[0; 1; 2]}.

Section fds.
Implicit Types (f : fdt) (d : desc).

Lemma std_open f i : std f -> 0 <= i <= 2 -> f !! i <> None.
Proof. intros Hf Hi. apply not_eq_None_Some, elem_of_dom. rewrite Hf. set_solver by lia. Qed.

Lemma std_closed f i : std f -> ~ 0 <= i <= 2 -> f !! i = None.
Proof. intros Hf Hi. apply not_elem_of_dom. rewrite Hf. set_solver by lia. Qed.

Lemma std_insert f i d : std f -> 0 <= i <= 2 -> std (<[i := d]> f).
Proof. intros Hf Hi. unfold std. rewrite dom_insert_L, Hf. set_solver by lia. Qed.

(** The lowest free descriptor. *)
Lemma lowest_is f n : 0 <= n < Z.of_nat NOFILE -> f !! n = None -> (forall i, 0 <= i < n -> f !! i <> None) -> lowest f = Some n.
Proof.
  intros Hn H0 Hl. unfold lowest. assert (list_find (fun i => f !! i = None) (Z.of_nat <$> seq 0 NOFILE) = Some (Z.to_nat n, n)) as ->; [|done].
  apply list_find_Some. split_and!.
  - rewrite list_lookup_fmap, lookup_seq_lt by lia. cbn. f_equal. lia.
  - done.
  - intros j y Hj Hlt. rewrite list_lookup_fmap in Hj. destruct (seq 0 NOFILE !! j) as [j'|] eqn:E; [|done].
    apply lookup_seq in E as [-> _]. injection Hj as <-. apply Hl. lia.
Qed.

Lemma lowest_std f : std f -> lowest f = Some 3.
Proof.
  intros Hf. apply lowest_is; [unfold NOFILE; lia|apply std_closed; [done|lia]|]. intros i Hi. apply std_open; [done|lia].
Qed.

(** [close(fd)] makes [fd] the next to be taken. *)
Lemma lowest_closed f g fd : std f -> 0 <= fd <= 2 -> (forall i, 0 <= i < fd -> g !! i = f !! i) -> g !! fd = None -> lowest g = Some fd.
Proof.
  intros Hf Hfd Hg H0. apply lowest_is; [unfold NOFILE; lia|done|]. intros i Hi. rewrite Hg by done. apply std_open; [done|lia].
Qed.

Lemma lowest_fourth f d : std f -> lowest (<[3 := d]> f) = Some 4.
Proof.
  intros Hf. apply lowest_is; [unfold NOFILE; lia|rewrite lookup_insert_ne by lia; apply std_closed; [done|lia]|].
  intros i Hi. destruct (decide (i = 3)) as [->|Hne]; [by rewrite lookup_insert_eq|]. rewrite lookup_insert_ne by lia. apply std_open; [done|lia].
Qed.

(** What is left of a table with a pipe after one end replaced [fd] and both
    were closed. *)
Lemma plug f fd d d3 d4 : std f -> 0 <= fd <= 2 ->
  delete 4 (delete 3 (<[fd := d]> (delete fd (<[4 := d4]> (<[3 := d3]> f))))) = <[fd := d]> f.
Proof.
  intros Hf Hfd. apply map_eq. intros i. destruct (decide (i = fd)) as [->|Hi].
  - rewrite !lookup_delete_ne, !lookup_insert_eq by lia. done.
  - rewrite (lookup_insert_ne f) by done. destruct (decide (i = 4)) as [->|H4]; [rewrite lookup_delete_eq; symmetry; apply std_closed; [done|lia]|].
    rewrite lookup_delete_ne by done. destruct (decide (i = 3)) as [->|H3]; [rewrite lookup_delete_eq; symmetry; apply std_closed; [done|lia]|].
    by rewrite lookup_delete_ne, lookup_insert_ne, lookup_delete_ne, !lookup_insert_ne by done.
Qed.

Lemma unplug f d3 d4 : std f -> delete 4 (delete 3 (<[4 := d4]> (<[3 := d3]> f))) = f.
Proof.
  intros Hf. apply map_eq. intros i. destruct (decide (i = 4)) as [->|H4]; [rewrite lookup_delete_eq; symmetry; apply std_closed; [done|lia]|].
  rewrite lookup_delete_ne by done. destruct (decide (i = 3)) as [->|H3]; [rewrite lookup_delete_eq; symmetry; apply std_closed; [done|lia]|].
  by rewrite lookup_delete_ne, !lookup_insert_ne by done.
Qed.

End fds.

(** ** Commands *)

Section does.
Context (F : path -> fdt -> Prop) (HF : inherits F).
Implicit Types (p : prog) (q : path) (x : pst) (dead : list path) (L : list job).

Lemma less_mono n n' L P : (n <= n')%nat -> less n L P -> less n' L P.
Proof. intros Hn (m & L' & Hm & HL & HP). exists m, L'. split; [lia|done]. Qed.

Lemma next_mono n n' L P : (n <= n')%nat -> next n L P -> next n' L P.
Proof. intros Hn (m & Hm & HP). exists m. split; [lia|done]. Qed.

Lemma less_nil n n' L P : (n' < n)%nat -> P n' [] -> less n L P.
Proof. intros Hn HP. exists n', []. split; [done|]. split; [apply submseteq_nil_l|done]. Qed.

Lemma does_mono p q x dead n n' L : (n <= n')%nat -> does F p q x dead n L -> does F p q x dead n' L.
Proof.
  intros Hn. destruct p; cbn [does].
  - intros []; split; [lia|done].
  - intros (H0 & H1 & H2 & H3). split_and!; [done|lia|done|by eapply less_mono].
  - by apply next_mono.
  - by apply next_mono.
  - intros [(fd & H1 & H2) H3]. split; [exists fd; split; [done|by eapply next_mono]|by eapply less_mono].
  - intros (d & fd' & H1 & H2 & H3). exists d, fd'. split_and!; [done|done|by eapply next_mono].
  - intros [(r & w & H1 & H2 & H3) H4]. split; [exists r, w; split_and!; [done|done|by eapply next_mono]|by eapply less_mono].
  - intros [(n1 & n2 & L1 & L2 & H1 & H2) H3]. split; [exists n1, n2, L1, L2; split; [lia|done]|by eapply less_mono].
  - intros (H0 & H1 & m & H2 & H3). split; [done|]. split; [done|]. exists m. split; [lia|done].
  - intros [H1 H2]. split; [by eapply next_mono|by eapply less_mono].
  - done.
Qed.

(** A message and the end. *)
Lemma does_fail fd msg status q x dead n : (2 <= n)%nat -> does F (Write fd msg (Exit status)) q x dead n [].
Proof. intros Hn. exists 1%nat. split; [lia|]. by split; [lia|]. Qed.

Lemma does_fork1 (k : Z -> prog) q x dead n1 n2 L1 L2 :
  does F (k 0) (child_of q x) (child x) dead n1 L1 -> (forall pid, 0 < pid -> does F (k pid) q (forked q x) dead n2 L2) ->
  does F (fork1 k) q x dead (n1 + n2 + 3) (L1 ++ L2).
Proof.
  intros H1 H2. split.
  - exists n1, n2, L1, L2. split_and!; [lia|done|exact H1|]. intros pid Hpid. destruct (Z.eqb_spec pid (-1)); [lia|by apply H2].
  - apply (less_nil _ 2); [lia|]. by apply does_fail.
Qed.

(** [close(fd)], [dup] of an end of the pipe, and both ends closed. *)
Lemma does_plug fd d3 d4 (e : Z) d k q x dead n L (f := ps_fds x) :
  (e = 3 /\ d = d3 \/ e = 4 /\ d = d4) -> 0 <= fd <= 2 -> std f ->
  does F k q (set_fds (<[fd := d]> f) x) dead n L ->
  does F (Close fd (Dup e (Close 3 (Close 4 k)))) q (set_fds (<[4 := d4]> (<[3 := d3]> f)) x) dead (n + 4) L.
Proof.
  intros He Hfd Hf H. exists (n + 3)%nat. split; [lia|]. exists d, fd. cbn [ps_fds set_fds]. split_and!.
  - rewrite lookup_delete_ne by lia. destruct He as [[-> ->]|[-> ->]]; [rewrite lookup_insert_ne by done|]; by rewrite lookup_insert_eq.
  - apply (lowest_closed f); [done|done| |by rewrite lookup_delete_eq]. intros i Hi. by rewrite lookup_delete_ne, !lookup_insert_ne by lia.
  - exists (n + 2)%nat. split; [lia|]. exists (n + 1)%nat. split; [lia|]. exists n. split; [lia|].
    unfold set_fds in *. cbn [ps_fds ps_forks ps_pipes ps_kids] in *. by rewrite plug.
Qed.

Lemma does_runcmd (c : cmd (list Z)) : cmd_typed c -> forall q x dead, std (ps_fds x) -> ps_kids x = [] -> ps_pipes x = 0%nat ->
  F q (ps_fds x) ->
  exists n, does F (runcmd c) q x dead n (jobs c q (ps_forks x) (ps_pipes x) (ps_fds x) dead).
Proof.
  induction c as [argv|c IH file mode fd|l IHl r IHr|l IHl r IHr|c IH]; cbn [cmd_typed runcmd jobs]; intros Ht q x dead Hf Hk H0 HFq.
  - exists 3%nat. destruct argv as [|path argv]; [by split; [lia|]|]. split_and!; [done|lia|done|]. apply (less_nil _ 2); [lia|]. by apply does_fail.
  - destruct Ht as [Hr Ht]. assert (Hfd : 0 <= fd <= 2) by (destruct Hr as [[_ ->]|[[_ ->]|[_ ->]]]; lia).
    set (x' := set_fds (<[fd := Opened file mode]> (ps_fds x)) x).
    destruct (IH Ht q x' dead) as [n Hn]; [by apply std_insert|done|done|by apply (in_open _ HF)|]. exists (n + 4)%nat. exists (n + 3)%nat. split; [lia|]. split.
    + exists fd. cbn [ps_fds set_fds]. split.
      * apply (lowest_closed (ps_fds x)); [done|done| |by rewrite lookup_delete_eq]. intros i Hi. by rewrite lookup_delete_ne by lia.
      * exists n. split; [lia|]. destruct (Z.ltb_spec fd 0); [lia|]. rewrite insert_delete_eq. exact Hn.
    + apply (less_nil _ 2); [lia|]. by apply does_fail.
  - destruct Ht as [Hl Hr]. set (n := ps_pipes x). set (cc := ps_forks x). set (xp := piped q 3 4 x).
    destruct (IHl Hl (child_of q x) (mkpst (<[1 := PipeW q n cc]> (ps_fds x)) 0 0 []) dead) as [n1 H1]; [by apply std_insert|done|done|unfold n; rewrite H0; by apply (in_left _ HF)|].
    destruct (IHr Hr (S (ps_forks x) :: q) (mkpst (<[0 := PipeR q n cc]> (ps_fds x)) 0 0 []) dead) as [n2 H2]; [by apply std_insert|done|done|unfold n; rewrite H0; by apply (in_right _ HF)|].
    exists (n1 + 4 + (n2 + 4 + 5 + 3) + 4)%nat. split; [|apply (less_nil _ 2); [lia|by apply does_fail]].
    exists 3, 4. split_and!; [by apply lowest_std|by apply lowest_fourth|]. exists (n1 + 4 + (n2 + 4 + 5 + 3) + 3)%nat. split; [lia|]. fold xp.
    apply does_fork1; [|intros pid Hpid; destruct (Z.eqb_spec pid 0); [lia|]].
    + cbn [Z.eqb]. apply (does_plug 1 (PipeR q n cc) (PipeW q n cc) 4 (PipeW q n cc) (runcmd l) _ (child x)); [by right|lia|done|exact H1].
    + rewrite <- (app_nil_r (jobs r _ _ _ _ _)). apply does_fork1; [|intros pid' Hpid'; destruct (Z.eqb_spec pid' 0); [lia|]].
      * cbn [Z.eqb]. apply (does_plug 0 (PipeR q n cc) (PipeW q n cc) 3 (PipeR q n cc) (runcmd r) _ (child (forked q x))); [by left|lia|done|exact H2].
      * assert (HFx : forall y, F q (ps_fds (set_fds (delete 4 (delete 3 (<[4 := PipeW q n cc]> (<[3 := PipeR q n cc]> (ps_fds x))))) y))).
        { intros y. cbn [ps_fds set_fds]. by rewrite unplug. }
        exists 4%nat. split; [lia|]. exists 3%nat. split; [lia|]. split; [apply (HFx (forked q (forked q xp)))|]. split; [done|]. exists 2%nat. split; [lia|]. intros i kid Hi.
        assert (Hlen : length (delete i (ps_kids (forked q (forked q xp)))) = 1%nat).
        { rewrite length_delete; [|by eexists]. cbn. by rewrite Hk. }
        split; [apply (HFx (forked q (forked q xp)))|]. split; [intros E; change (delete i (ps_kids (forked q (forked q xp))) = []) in E; by rewrite E in Hlen|]. exists 1%nat. split; [lia|]. intros j kid' _. by split; [lia|].
  - destruct Ht as [Hl Hr]. destruct (IHl Hl (child_of q x) (child x) dead) as [n1 H1]; [done|done|done|by apply (in_child _ HF)|].
    destruct (IHr Hr q (mkpst (ps_fds x) (S (ps_forks x)) (ps_pipes x) []) (child_of q x :: dead)) as [n2 H2]; [done..|].
    exists (n1 + S n2 + 3)%nat. apply does_fork1; [exact H1|]. intros pid Hpid. destruct (Z.eqb_spec pid 0); [lia|].
    split; [done|]. split; [done|]. exists n2. split; [lia|]. intros i kid Hi. cbn [ps_kids forked] in Hi. rewrite Hk in Hi.
    destruct i as [|i]; [|done]. injection Hi as <-. unfold reaped. cbn [ps_fds ps_forks ps_pipes ps_kids forked delete list_delete]. rewrite Hk. exact H2.
  - destruct (IH Ht (child_of q x) (child x) dead) as [n1 H1]; [done|done|done|by apply (in_child _ HF)|].
    exists (n1 + 1 + 3)%nat. rewrite <- (app_nil_r (jobs c _ _ _ _ _)). apply does_fork1; [exact H1|]. intros pid Hpid.
    destruct (Z.eqb_spec pid 0); [lia|]. by split; [lia|].
Qed.

End does.

(** ** Lines *)

Section main.
Context (F : path -> fdt -> Prop) (HF : inherits F).
Implicit Types (q : path) (x : pst) (dead : list path) (f : fdt) (lines : list (list Z)).

Lemma cmd_map_typed {A B} (g : A -> B) c : cmd_typed c -> cmd_typed (cmd_map g c).
Proof.
  induction c as [argv|c IH file mode fd|l IHl r IHr|l IHl r IHr|c IH]; cbn; [by rewrite length_fmap|naive_solver..].
Qed.

Lemma skip_blanks_no_nul (s : list Z) : no_nul s -> no_nul (skip_blanks s).
Proof. induction 1 as [|c s Hc H IH]; cbn; [constructor|]. case_match; [done|by constructor]. Qed.

(** [runcmd(parsecmd(cmd))] *)
Lemma does_run_line (s : list Z) q x dead : no_nul s -> std (ps_fds x) -> ps_kids x = [] -> ps_forks x = 0%nat -> ps_pipes x = 0%nat -> F q (ps_fds x) ->
  exists n, does F (run_line s) q x dead n (match parse_line s with Some c => jobs c q 0 0 (ps_fds x) dead | None => [] end).
Proof.
  intros Hs Hf Hk H0 H1 HFq. unfold run_line, parse_line. assert (Hr := parsecmd_runs s Hs). unfold runs in Hr.
  destruct (parsecmd s 0%nat) as [[c m] ps|msg ps| |] eqn:E; [|exists 2%nat; by apply does_fail|done|done].
  destruct (does_runcmd F HF (cmd_map (fun w => string_at m w.1) c)) with (q := q) (x := x) (dead := dead) as [n Hn]; [|done|done|done|done|].
  - apply cmd_map_typed. by eapply parsecmd_good.
  - exists n. by rewrite H0, H1 in Hn.
Qed.

Lemma does_main_loop lines : Forall no_nul lines -> forall x dead, std (ps_fds x) -> ps_kids x = [] -> F [] (ps_fds x) ->
  exists n, does F (main_loop lines) [] x dead n (session lines (ps_forks x) (ps_fds x) dead).
Proof.
  induction 1 as [|buf lines Hb _ IH]; intros x dead Hf Hk HFx; cbn [main_loop session].
  { exists 2%nat. by apply does_fail. }
  cbv zeta. set (cmd := skip_blanks buf).
  destruct (at_ cmd 0 =? 10) eqn:E10; cbn [orb].
  { destruct (IH x dead Hf Hk HFx) as [n Hn]. exists (S n), n. split; [lia|done]. }
  destruct (is_cd cmd).
  { destruct (IH x dead Hf Hk HFx) as [n Hn]. exists (n + 3)%nat, (n + 2)%nat. split; [lia|]. split; [exists n; split; [lia|exact Hn]|].
    exists (n + 1)%nat, (session lines (ps_forks x) (ps_fds x) dead). split; [lia|]. split; [done|]. exists n. split; [lia|exact Hn]. }
  destruct (does_run_line cmd [ps_forks x] (child x) dead) as [n1 H1]; [by apply skip_blanks_no_nul|done|done|done|done|by apply (in_child _ HF)|].
  destruct (IH (mkpst (ps_fds x) (S (ps_forks x)) (ps_pipes x) []) ([ps_forks x] :: dead)) as [n2 H2]; [done..|].
  exists (S (n1 + S n2 + 3)), (n1 + S n2 + 3)%nat. split; [lia|]. apply does_fork1; [exact H1|].
  intros pid Hpid. destruct (Z.eqb_spec pid 0); [lia|]. split; [done|]. split; [done|]. exists n2. split; [lia|]. intros i kid Hi.
  cbn [ps_kids forked] in Hi. rewrite Hk in Hi. destruct i as [|i]; [|done]. injection Hi as <-.
  unfold reaped. cbn [ps_fds ps_forks ps_pipes ps_kids forked delete list_delete]. rewrite Hk. exact H2.
Qed.

(** Reading the lines. *)
Lemma gets_loop_spec n input : let '(l, rest) := gets_loop n input in input = l ++ rest.
Proof.
  revert input. induction n as [|n IH]; intros [|c input]; cbn; try done. destruct ((c =? 10) || (c =? 13)); [done|]. specialize (IH input).
  destruct (gets_loop n input) as [l rest]. cbn. by rewrite IH.
Qed.

Lemma gets_loop_nil n input rest : gets_loop (S n) input = ([], rest) -> input = [].
Proof. destruct input as [|c input]; [done|]. cbn. destruct ((c =? 10) || (c =? 13)); [done|]. by destruct (gets_loop n input). Qed.

Lemma until_nul_no_nul (l : list Z) : no_nul (until_nul l).
Proof. induction l as [|c l IH]; cbn; [constructor|]. destruct (Z.eqb_spec c 0); [constructor|by constructor]. Qed.

Lemma until_nul_id (l : list Z) : no_nul l -> until_nul l = l.
Proof. induction 1 as [|c l Hc _ IH]; cbn; [done|]. destruct (Z.eqb_spec c 0); [done|]. by rewrite IH. Qed.

Lemma sh_lines_no_nul input : Forall no_nul (sh_lines input).
Proof.
  unfold sh_lines. generalize (S (length input)) as n. intros n. revert input. induction n as [|n IH]; intros input; cbn; [constructor|].
  unfold getcmd. destruct (ugets 100 input) as [buf rest]. destruct (at_ buf 0 =? 0); [constructor|]. constructor; [apply until_nul_no_nul|apply IH].
Qed.

(** They make up the whole input. *)
Lemma sh_lines_all input : no_nul input -> mjoin (sh_lines input) = input.
Proof.
  intros H. unfold sh_lines. assert (Hn : (length input < S (length input))%nat) by lia. revert Hn. generalize (S (length input)) as n. intros n.
  revert input H. induction n as [|n IH]; intros input H Hn; [lia|]. cbn [getcmds]. unfold getcmd, ugets. cbn [Nat.sub].
  assert (Hs := gets_loop_spec 99 input). destruct (gets_loop 99 input) as [buf rest] eqn:E. subst input.
  apply Forall_app in H as [Hb Hr]. destruct buf as [|c buf].
  - apply gets_loop_nil in E. cbn [app] in E. by rewrite E.
  - change (at_ (c :: buf) 0) with c. apply Forall_cons in Hb as Hc. destruct Hc as [Hc _]. destruct (Z.eqb_spec c 0); [done|].
    cbn [mjoin list_join]. rewrite until_nul_id by done. f_equal. apply IH; [done|]. rewrite length_app in Hn. cbn in Hn. lia.
Qed.

Lemma does_sh_main input f : std f -> F [] f -> exists n, does F (sh_main input) [] (mkpst f 0 0 []) [] n (session (sh_lines input) 0 f []).
Proof.
  intros Hf HFf. set (lines := sh_lines input). destruct (does_main_loop lines (sh_lines_no_nul input) (mkpst f 0 0 []) []) as [n Hn]; [done..|]. exists (n + 3)%nat.
  unfold sh_main, NOFILE. fold lines. cbn [open_console]. split.
  - exists 3. split; [by apply lowest_std|]. exists (n + 2)%nat. split; [lia|]. cbn [Z.ltb Z.leb Z.compare Pos.compare Pos.compare_cont].
    exists n. split; [lia|]. unfold set_fds. cbn [ps_fds ps_forks ps_pipes ps_kids].
    rewrite delete_insert_id by (apply std_closed; [done|lia]). exact Hn.
  - exists n, (session lines 0 f []). split; [lia|]. split; [done|exact Hn].
Qed.

(** Programs get the standard descriptors and no other. *)
Lemma jobs_std (c : cmd (list Z)) : cmd_typed c -> forall q forks pipes f dead, std f -> Forall (fun j => std (j_fds j)) (jobs c q forks pipes f dead).
Proof.
  induction c as [argv|c IH file mode fd|l IHl r IHr|l IHl r IHr|c IH]; cbn [cmd_typed jobs]; intros Ht q forks pipes f dead Hf.
  - destruct argv; [constructor|by apply Forall_singleton].
  - destruct Ht as [Hr Ht]. apply IH; [done|]. apply std_insert; [done|]. destruct Hr as [[_ ->]|[[_ ->]|[_ ->]]]; lia.
  - destruct Ht as [Hl Hr]. apply Forall_app. split; [apply IHl|apply IHr]; (done || (apply std_insert; [done|lia])).
  - destruct Ht as [Hl Hr]. apply Forall_app. split; [by apply IHl|by apply IHr].
  - by apply IH.
Qed.

Lemma session_std lines : Forall no_nul lines -> forall forks f dead, std f -> Forall (fun j => std (j_fds j)) (session lines forks f dead).
Proof.
  induction 1 as [|buf lines Hb _ IH]; intros forks f dead Hf; cbn [session]; [constructor|]. cbv zeta.
  case_match; [by apply IH|]. apply Forall_app. split; [|by apply IH]. unfold parse_line.
  destruct (parsecmd (skip_blanks buf) 0%nat) as [[c m] ps|msg ps| |] eqn:E; [|constructor..]. apply jobs_std; [|done].
  apply cmd_map_typed. eapply parsecmd_good; [|done]. by apply skip_blanks_no_nul.
Qed.

End main.

(** ** Properties *)

(** C32: Whatever the order in which the shell and its children run, whenever the
    programs end, and whichever of the calls fail: a process of the shell only
    ever loads programs that a line of the input asks for, each at most once;
    the program has exactly the standard descriptors, connected as the line
    says, so that no end of a pipe is kept open by a process that does not use
    it; and the processes it has to follow, on its line and of the lines
    before, are over. *)
Theorem shell_safe (input : list Z) (f : fdt) (ends : list (path * stage) -> fdt -> Prop) (b : bool) (k : nat) (m : machine)
    (Hf : std f) (Hrun : mruns ends (start (sh_main input) f) b k m) :
  exists D, D ⊆+ session (sh_lines input) 0 f [] /\ m_ran m = (fun j => (j_proc j, j_argv j, j_fds j)) <$> D /\
    forall j, j ∈ D -> std (j_fds j) /\ forall d, d ∈ j_after j -> d ∉ alive (m_procs m).
Proof.
  destruct (does_sh_main _ anything_inherits input f Hf I) as [n Hn].
  destruct (mruns_minv _ _ _ _ _ _ _ _ (minv_start _ _ _ _ _ Hn) Hrun) as (n' & _ & Hi).
  destruct (minv_ran _ _ _ _ _ Hi) as (D & Hsub & Hran & Hafter). exists D. split; [done|]. split; [done|]. intros j Hj. split; [|intros d Hd; by apply (Hafter j)].
  assert (Hstd := session_std _ (sh_lines_no_nul input) 0 f [] Hf). rewrite Forall_forall in Hstd. apply Hstd. by eapply elem_of_submseteq.
Qed.

(** The shell is not itself part of a pipeline. *)
Definition no_pipes (f : fdt) : Prop :=
  map_Forall (fun _ d => match d with PipeR _ _ _ | PipeW _ _ _ => False | _ => True end) f.

Lemma no_pipes_placed f q : no_pipes f -> placed q f.
Proof. intros H i d Hd. specialize (H i d Hd). by destruct d. Qed.

(** C33: The shell leaves no pipeline hanging. Started outside any pipeline, the
    shell and its children come to an end in a bounded number of steps,
    however long the programs take; as long as one of them has not ended, some
    process can go on, also when a program only ends once the pipe it reads
    has no writer left and the pipe it writes has a program reading it or no
    reader left, so that nothing waits for ever for an end of a pipe that the
    shell keeps open; and at the end, when no call has failed, every program
    the input asks for was run, exactly once. That a program which waits for
    nothing ends is assumed of the programs. *)
Theorem shell_complete (input : list Z) (f : fdt) (Hf : std f) (Hn : no_pipes f) :
  exists N, forall ends b k m, mruns ends (start (sh_main input) f) b k m ->
    (k <= N)%nat /\
    (Forall (fun r => r.2 = Zombie) (m_procs m) \/ exists m', mstep unblocked true m m') /\
    (b = true -> Forall (fun r => r.2 = Zombie) (m_procs m) ->
       m_ran m ≡ₚ (fun j => (j_proc j, j_argv j, j_fds j)) <$> session (sh_lines input) 0 f []).
Proof.
  destruct (does_sh_main _ placed_inherits input f Hf (no_pipes_placed _ _ Hn)) as [n Hd]. exists n. intros ends b k m Hrun.
  destruct (mruns_minv _ _ _ _ _ _ _ _ (minv_start _ _ _ _ _ Hd) Hrun) as (n' & Hle & Hi). split_and!; [lia| |].
  - by eapply progress.
  - intros -> HZ. destruct (minv_all _ _ _ _ Hi HZ) as (D & HD & ->). by rewrite HD.
Qed.

(** ** Instances *)

Definition console : fdt := <[0 := Console]> (<[1 := Console]> (<[2 := Console]> ∅)).

Lemma console_std : std console.
Proof. unfold std, console. rewrite !dom_insert_L, dom_empty_L. set_solver. Qed.

Lemma console_no_pipes : no_pipes console.
Proof. by repeat apply map_Forall_insert_2; [..|apply map_Forall_empty]. Qed.

(** "a | b > f" and then "c" *)
Definition two_lines : list Z := bytes_of "a | b > f" ++ newline ++ bytes_of "c" ++ newline.

(** What they ask for. *)
Lemma two_lines_jobs : (fun j => (j_proc j, j_argv j, j_after j)) <$> session (sh_lines two_lines) 0 console [] =
  [([0; 0], [bytes_of "a"], []); ([1; 0], [bytes_of "b"], []); ([1], [bytes_of "c"], [[0]])]%nat.
Proof. vm_compute. reflexivity. Qed.

Definition one_line : list Z := bytes_of "a" ++ newline.

(** The shell opens the console once more, prompts and forks, and the child
    loads the program. *)
Lemma one_line_run : exists b k m, mruns any_time (start (sh_main one_line) console) b k m /\ m_ran m = [([0%nat], [bytes_of "a"], console)].
Proof.
  set (rest := fun pid => if pid =? -1 then sh_panic "fork" else if pid =? 0 then run_line (bytes_of "a" ++ newline) else Wait (main_loop [])).
  set (child_rest := Write 2 (failed "exec " (bytes_of "a")) (Exit 0)).
  assert (E1 : main_loop (sh_lines one_line) = Write 2 (bytes_of "$ ") (Fork rest)) by reflexivity.
  assert (E2 : rest 0 = Exec [bytes_of "a"] child_rest) by (vm_compute; reflexivity).
  assert (E3 : delete 3 (<[3 := Opened (bytes_of "console") O_RDWR]> console) = console) by (apply delete_insert_id; reflexivity).
  eexists _, _, _. split.
  - eapply runs_more; [eapply runs_more; [eapply runs_more; [eapply runs_more; [eapply runs_more; [apply runs_start|]|]|]|]|].
    + eapply (step_call _ true _ []); [reflexivity|]. apply (call_open _ _ _ _ _ 3). vm_compute. reflexivity.
    + eapply (step_call _ true _ []); [reflexivity|]. apply call_close.
    + eapply (step_call _ true _ []); [rewrite E1; reflexivity|]. apply call_write.
    + eapply (step_fork _ _ [] rest _ _ _ _ 1); [reflexivity|lia].
    + eapply (step_exec _ _ [0%nat] [bytes_of "a"]). rewrite E2. reflexivity.
  - cbn [m_ran app ps_fds child forked set_fds]. by rewrite E3.
Qed.

Lemma shell_safe_witness : exists m D, m_ran m <> [] /\ m_ran m = (fun j => (j_proc j, j_argv j, j_fds j)) <$> D /\
  D ⊆+ session (sh_lines one_line) 0 console [].
Proof.
  destruct one_line_run as (b & k & m & Hrun & E).
  destruct (shell_safe one_line console any_time b k m) as (D & HD & Hran & _).
  - exact console_std.
  - exact Hrun.
  - exists m, D. split; [by rewrite E|done].
Defined.

Lemma shell_complete_witness : exists N, forall b k m, mruns unblocked (start (sh_main two_lines) console) b k m ->
  (k <= N)%nat /\ (Forall (fun r => r.2 = Zombie) (m_procs m) \/ exists m', mstep unblocked true m m').
Proof.
  destruct (shell_complete two_lines console console_std console_no_pipes) as [N HN]. exists N. intros b k m Hrun.
  destruct (HN unblocked b k m Hrun) as (H1 & H2 & _). split; [exact H1|exact H2].
Defined.
