(* ===== verification/Witnesses.v ===== *)
(** * Concrete kernel states on which the theorems apply

    A machine with eight harts, all locks free and a process table of 64
    entries; each lemma instantiates a theorem at such a state and evaluates
    its hypotheses, which shows that they can hold together. *)

From stdpp Require Import base gmap strings numbers list.
From S2P Require Import Prelude State Spinlock Strings Printf Memory Kalloc Proc Sched Deadlock Sleeplock.

(** ** The machine *)

Definition ex_locks : gmap lockid spinlock :=
  list_to_map (((fun i => (LProc i, mkspin "proc" false None)) <$> seq 0 NPROC) ++
               [(LPr, mkspin "pr" false None); (LKmem, mkspin "kmem" false None);
                (LTicks, mkspin "time" false None);
                (LSleep (SLDemo 0), mkspin "sleep lock" false None);
                (LSleep (SLDemo 1), mkspin "sleep lock" false None)]).

Definition ex_sync (run : option nat) : sync :=
  mksync 0 (mkcpu run 0 false true :: replicate 7 (mkcpu None 0 false true)) ex_locks.

Definition ex_proc : proc :=
  mkproc UNUSED None false 0 0 None 0 0 0 0 (mkcontext 0 0 []) (replicate NOFILE None) None
    (replicate 16 0) 0 0 0 0 None 0 false (replicate NRES false) (-1).

Definition ex_state (run : option nat) (ps : list proc) (sl : gmap slid sleeplock) : kst :=
  mkkst (ex_sync run) (ps ++ replicate (NPROC - length ps) ex_proc) (Some 0%nat) 3 0 1000000 0 0
    (fun _ => 0) 0 0x80020000 sl false [] false false 0 (mkcsrs 0 0 0 0 0 0) ∅
    (mkfsst [] (mklog 0 0 false 0 0 []) (mksuper 0 0 0 0 0 0 0 0) [] [] (fun _ => []) [])
    (mkdevst [] 0 0 0 false [] [] (mkvdisk [] 0 [] 0 [] [] 0 [] [] (0, 0, 0)) [] (fun n => n)) false 0.

Lemma ex_wf run : sync_wf (ex_sync run).
Proof. exists (mkcpu run 0 false true). split; [done|]. by split. Qed.

Lemma ex_free run l name : ex_locks !! l = Some (mkspin name false None) -> lock_free l (ex_sync run).
Proof. intros H. by exists name. Qed.

Lemma ex_procs_free run : proc_locks_free (ex_sync run).
Proof.
  assert (H : Forall (fun i => ex_locks !! LProc i = Some (mkspin "proc" false None)) (seq 0 NPROC)).
  { vm_compute. repeat constructor. }
  intros i Hi. exists "proc". rewrite Forall_forall in H. apply H.
  apply elem_of_seq. lia.
Qed.

Lemma ex_table run ps sl : (length ps <= NPROC)%nat -> table_ok (ex_state run ps sl).
Proof. intros H. unfold table_ok, ex_state. cbn [k_procs]. rewrite length_app, length_replicate. lia. Qed.

Ltac ex_solve :=
  match goal with
  | |- sync_wf _ => apply ex_wf
  | |- proc_locks_free _ => apply ex_procs_free
  | |- lock_free _ _ => eapply ex_free; vm_compute; reflexivity
  | |- table_ok _ => apply ex_table; cbn; lia
  | |- _ => done
  end.

(** Every entry of a table is one of the given ones or the blank one. *)
Lemma ex_forall (P : proc -> Prop) run ps sl :
  P ex_proc -> Forall P ps -> Forall P (k_procs (ex_state run ps sl)).
Proof. intros H0 H. apply Forall_app. split; [done|]. by apply Forall_replicate. Qed.

(** ** Spin-locks *)

Definition st_run : kst := ex_state (Some 0%nat) [] ∅.

Lemma acquire_release_roundtrip_witness :
  wp (acquire LKmem) (fun _ s1 => lock_held LKmem (k_sync s1) /\
    (forall c, cur_cpu (k_sync s1) = Some c -> c_sie c = false) /\
    release LKmem s1 = Ok tt (upd_sync touch st_run)) st_run.
Proof. apply (acquire_release_roundtrip LKmem st_run); ex_solve. Defined.

Lemma push_pop_nesting_witness :
  wp (for_each (seq 0 3) (fun _ => push_off)) (fun _ s1 =>
    (forall c, cur_cpu (k_sync s1) = Some c -> c_sie c = false) /\
    for_each (seq 0 3) (fun _ => pop_off) s1 = Ok tt (upd_sync touch st_run)) st_run.
Proof. apply (push_pop_nesting 2 st_run); [ex_solve|done]. Defined.

(** A lock that hart 1 holds, and one that hart 0 holds. *)
Definition st_held (h : nat) : kst :=
  upd_sync (set_lock LKmem true (Some h)) st_run.

Lemma st_held_wf h : sync_wf (k_sync (st_held h)).
Proof.
  exists (mkcpu (Some 0%nat) 0 false true). split; [done|]. split; [by split|]. split; [by vm_compute|]. cbn. lia.
Qed.

Lemma spinlock_misuse_witness :
  (exists s', acquire LKmem (st_held 0) = Panic "acquire" s') /\
  (exists s', acquire LKmem (st_held 1) = Hang s') /\
  release LKmem (st_held 1) = Panic "release" (st_held 1).
Proof.
  split.
  - destruct (spinlock_misuse LKmem (st_held 0) (mkspin "kmem" true (Some 0%nat))) as (H & _);
      [apply st_held_wf|by vm_compute|by apply H].
  - destruct (spinlock_misuse LKmem (st_held 1) (mkspin "kmem" true (Some 1%nat))) as (_ & H & _);
      [apply st_held_wf|by vm_compute|]. destruct H as [[s' H1] H2]; [done|done|]. eauto.
Defined.

(** ** Pages *)

(** Two free pages. *)
Definition st_pages : kst :=
  set_k_freelist 0x80100000 (set_k_mem (st64 (st64 (fun _ => 0) 0x80100000 0x80101000) 0x80101000 0) st_run).

Lemma st_pages_wf : kmem_wf st_pages [0x80100000; 0x80101000].
Proof.
  split; cbn [st_pages k_end k_mem k_freelist set_k_freelist set_k_mem].
  - done.
  - cbn. split; [done|]. split; [|]; by vm_compute.
  - apply NoDup_cons. split; [|apply NoDup_singleton]. by intros ?%list_elem_of_singleton.
  - repeat constructor; unfold aligned, PHYSTOP, PGSIZE; done || lia.
Qed.

Lemma kalloc_spec_witness :
  wp kalloc (fun r s' => r = 0x80100000 /\ kmem_wf s' [0x80101000]) st_pages.
Proof.
  eapply wp_mono; [apply (kalloc_spec st_pages [0x80100000; 0x80101000]); [ex_solve|ex_solve|apply st_pages_wf]|].
  by intros r s' (_ & -> & ? & _).
Defined.

Lemma kfree_spec_witness :
  wp (kfree 0x80200000) (fun _ s' => kmem_wf s' [0x80200000; 0x80100000; 0x80101000]) st_pages.
Proof.
  eapply wp_mono; [apply (kfree_spec st_pages 0x80200000 [0x80100000; 0x80101000]);
    [ex_solve|ex_solve|apply st_pages_wf| |]|by intros r s' (_ & ? & _)].
  - split; [done|]. unfold PHYSTOP, KERNBASE. cbn. lia.
  - rewrite elem_of_cons, list_elem_of_singleton. lia.
Defined.

Lemma kfree_bad_panics_witness : kfree 0x80200001 st_pages = Panic "kfree" st_pages.
Proof. apply (kfree_bad_panics st_pages 0x80200001). by intros [H _]. Defined.

Lemma kinit_spec_witness :
  wp kinit (fun _ s' => lock_free LKmem (k_sync s')) st_run.
Proof.
  eapply wp_mono; [apply (kinit_spec st_run); [ex_solve|done|by vm_compute|unfold PHYSTOP, KERNBASE; cbn; lia|done]|].
  by intros r s' [_ ?].
Defined.

(** ** Sleep, wakeup, kill *)

(** pid 1 runs, pid 2 sleeps on the clock. *)
Definition ex_runner : proc := set_p_pid 1 (set_p_state RUNNING ex_proc).
Definition ex_sleeper : proc :=
  set_p_chan (Some ChTicks) (set_p_pid 2 (set_p_state SLEEPING ex_proc)).
Definition st_two : kst := ex_state (Some 0%nat) [ex_runner; ex_sleeper] ∅.

Lemma wakeup_spec_witness :
  wakeup (Some ChTicks) st_two = Ok tt (upd_sync touch (upd_procs (imap (fun i p =>
    if bool_decide (p_state p = SLEEPING) && bool_decide (p_chan p = Some ChTicks)
       && negb (bool_decide (running (k_sync st_two) = Some i))
    then set_p_state RUNNABLE p else p)) st_two)).
Proof. apply (wakeup_spec (Some ChTicks) st_two); ex_solve. Defined.

Lemma kkill_spec_witness :
  kkill 2 st_two = Ok 0 (upd_sync touch (upd_procs (alter kill1 1%nat) st_two)) /\
  kkill 9 st_two = Ok (-1) (upd_sync touch st_two).
Proof.
  split.
  - rewrite (kkill_spec 2 st_two); [done|ex_solve..].
  - rewrite (kkill_spec 9 st_two); [|ex_solve..].
    assert (E : find_pid 9 (k_procs st_two) = None) by (by vm_compute). by rewrite E.
Defined.

(** A world that hands the CPU straight back. *)
Definition world_back : World := {| resume := fun s => s |}.

Lemma sleep_null_lock_faults_witness :
  @sleep world_back (Some (ChPipeRead 0)) None st_two = Fault (upd_sync (acq (LProc 0)) st_two).
Proof. apply (sleep_null_lock_faults (W := world_back) 0); ex_solve. Defined.

Definition st_ticks : kst := upd_sync (acq LTicks) st_two.

Lemma ex_on_cpu p : on_cpu p (ex_sync (Some p)).
Proof. exists (mkcpu (Some p) 0 false true). by split_and!. Qed.

Lemma sleep_spec_witness :
  wp (@sleep world_back (Some ChTicks) (Some LTicks)) (fun _ s' => exists y',
    k_sync s' = acq LTicks y' /\ on_cpu 0 y') st_ticks.
Proof.
  destruct (sleep_spec (W := world_back) 0 (Some ChTicks) LTicks (ex_sync (Some 0%nat))
              (ex_sync (Some 0%nat)) st_ticks) as (_ & _ & _ & H);
    [done|apply ex_on_cpu|ex_solve| |done|cbn; lia|done|apply ex_on_cpu|ex_solve| |cbn; lia|].
  - apply ex_procs_free. unfold NPROC. lia.
  - apply ex_procs_free. unfold NPROC. lia.
  - eapply wp_mono; [exact H|]. intros [] s' (y' & -> & _ & ?). exists y'. split; [reflexivity|assumption].
Defined.

(** ** The scheduler *)

(** schedtest (asleep) and two RUNNABLE children, the first low on energy. *)
Definition ex_schedtest : proc :=
  set_p_name (bytes_of "schedtest" ++ replicate 7 0) (set_p_pid 3 (set_p_state SLEEPING ex_proc)).
Definition ex_child (pid budget : Z) : proc :=
  set_p_energy_budget budget (set_p_parent (Some 0%nat) (set_p_pid pid (set_p_state RUNNABLE ex_proc))).
Definition st_sched : kst := ex_state None [ex_schedtest; ex_child 4 50; ex_child 5 500] ∅.

Lemma st_sched_parents : parents_ok (k_procs st_sched).
Proof.
  assert (H : Forall (fun p => p_parent p = None \/ p_parent p = Some 0%nat) (k_procs st_sched)).
  { apply ex_forall; [by left|]. repeat (apply List.Forall_cons; [cbn; auto|]). apply List.Forall_nil. }
  intros i p j Hp Hj. destruct (proj1 (Forall_lookup _ _) H i p Hp) as [E|E]; [congruence|].
  rewrite E in Hj. injection Hj as <-. cbn. lia.
Qed.

Lemma choose_refines_policy_witness :
  exists o, policy (k_procs st_sched) o /\ choose st_sched = Ok o (upd_sync (keep o) st_sched).
Proof.
  destruct (choose_refines_policy st_sched) as (o & Ho & _ & E);
    [ex_solve|ex_solve|ex_solve|apply st_sched_parents|]. exists o. split; [exact Ho|exact E].
Defined.

Lemma choose_energy_priority_witness :
  wp choose (fun o _ => policy_facts (k_procs st_sched) o) st_sched.
Proof.
  apply (choose_energy_priority st_sched); [ex_solve|ex_solve|ex_solve|apply st_sched_parents].
Defined.

Lemma scheduler_round_spec_witness :
  exists o, policy (k_procs st_sched) o /\
  match o with
  | Some c =>
      let d := dispatch_point c (listening (k_sync st_sched)) st_sched in
      parked c (k_sync d) /\
      @scheduler_round world_back st_sched =
        (@swtch world_back;; updcpu (set_c_proc None);; release (LProc c)) d
  | None => @scheduler_round world_back st_sched = Ok tt (upd_sync (touch ∘ listening) (idle st_sched))
  end.
Proof.
  apply (scheduler_round_spec (W := world_back) st_sched); [|ex_solve|ex_solve|apply st_sched_parents].
  exists (mkcpu None 0 false true). split; [reflexivity|]. split; [by split|]. split; [reflexivity|by vm_compute].
Defined.

(** ** Deadlocks *)

(** Two processes, each holding what the other waits for. *)
Definition ex_waiter (pid : Z) (held : nat) (wanted energy : Z) : proc :=
  set_p_energy_consumed energy (set_p_waiting_res wanted (set_p_holding_res
    (<[held := true]> (replicate NRES false)) (set_p_pid pid (set_p_state SLEEPING ex_proc)))).
Definition st_rag : kst := ex_state None [ex_waiter 4 0 1 10; ex_waiter 5 1 0 20] ∅.

Lemma st_rag_ok : res_ok (k_procs st_rag).
Proof. apply ex_forall; [done|]. repeat constructor. Qed.

Lemma ex_can_print run ps sl : can_print (ex_state run ps sl).
Proof. split_and!; [apply ex_wf|done|ex_solve]. Qed.

Lemma check_deadlock_spec_witness :
  wp check_deadlock (fun r s' =>
    ((forall l, ~ cycle (k_procs st_rag) l) /\ r = 0 /\ s' = st_rag) \/
    (exists l v p, cycle (k_procs st_rag) l /\ top_energy (k_procs st_rag) l v /\
       k_procs st_rag !! v = Some p /\ r = p_pid p /\
       printed (upd_procs (alter recovered v) st_rag) s')) st_rag.
Proof.
  apply (check_deadlock_spec st_rag); [apply ex_can_print|ex_solve|ex_solve|apply st_rag_ok].
Defined.

Lemma st_rag_exclusive : exclusive (k_procs st_rag).
Proof.
  intros r i j p q Hp Hq [Hu Hr] [Hu' Hr'].
  assert (Hlive : forall k x, k_procs st_rag !! k = Some x -> p_state x <> UNUSED ->
            (k = 0%nat /\ x = ex_waiter 4 0 1 10) \/ (k = 1%nat /\ x = ex_waiter 5 1 0 20)).
  { intros [|[|k]] x Hx Hs; [left|right|].
    - split; [reflexivity|]. by injection Hx.
    - split; [reflexivity|]. by injection Hx.
    - exfalso. apply Hs. change (replicate 62 ex_proc !! k = Some x) in Hx.
      apply lookup_replicate in Hx as [-> _]. reflexivity. }
  destruct (Hlive i p Hp Hu) as [[-> ->]|[-> ->]], (Hlive j q Hq Hu') as [[-> ->]|[-> ->]];
    try reflexivity; exfalso; destruct r as [|[|r]]; try discriminate;
    change (replicate 14 false !! r = Some true) in Hr;
    apply lookup_replicate in Hr as [? _]; discriminate.
Qed.

Lemma check_deadlock_progress_witness :
  wp check_deadlock (fun _ s' => res_ok (k_procs s') /\ exclusive (k_procs s') /\
    (forall l, cycle (k_procs s') l -> cycle (k_procs st_rag) l)) st_rag /\
  wp (for_each (seq 0 NPROC) (fun _ => deadlock_recover)) (fun _ s' => forall l, ~ cycle (k_procs s') l) st_rag.
Proof.
  destruct (check_deadlock_progress st_rag) as [H1 H2]; [apply ex_can_print|ex_solve|ex_solve|apply st_rag_ok|].
  split; [|exact H2]. eapply wp_mono; [exact H1|]. intros r s' (_ & _ & _ & H3 & _ & H4).
  destruct (H4 st_rag_exclusive) as (H5 & H6 & _). split; [exact H3|]. split; [exact H5|exact H6].
Defined.

(** ** Sleep-locks *)

(** pid 4 owns A and is about to wait for B; pid 5 owns B and waits for A. *)
Definition ex_wants (pid : Z) (l : option slid) (st : procstate) : proc :=
  set_p_waiting_for_lock l (set_p_pid pid (set_p_state st ex_proc)).
Definition ex_slocks (a b : Z) : gmap slid sleeplock :=
  {[ SLDemo 0 := mksleep (0 <? a) "A" a; SLDemo 1 := mksleep (0 <? b) "B" b ]}.
Definition st_slk : kst :=
  ex_state (Some 0%nat) [ex_wants 4 (Some (SLDemo 1)) RUNNING; ex_wants 5 (Some (SLDemo 0)) SLEEPING]
    (ex_slocks 4 5).

Lemma st_slk_waits : waits_ok (k_procs st_slk) (k_slocks st_slk).
Proof.
  assert (H : Forall (fun p => p_waiting_for_lock p = None \/ p_waiting_for_lock p = Some (SLDemo 0)
                \/ p_waiting_for_lock p = Some (SLDemo 1)) (k_procs st_slk)).
  { apply ex_forall; [by left|]. repeat (apply List.Forall_cons; [cbn; auto|]). apply List.Forall_nil. }
  intros i p l Hp Hl. destruct (proj1 (Forall_lookup _ _) H i p Hp) as [E|[E|E]]; rewrite E in Hl;
    [discriminate|injection Hl as <-..]; by eexists.
Qed.

Lemma would_create_deadlock_exact_witness :
  exists b, would_create_deadlock (Some 0%nat) (Some (SLDemo 1)) st_slk = Ok b st_slk /\
    (b = true <-> exists n, owes (k_procs st_slk) (k_slocks st_slk) 4 n 5).
Proof.
  apply (would_create_deadlock_exact 0 (SLDemo 1) (ex_wants 4 (Some (SLDemo 1)) RUNNING)
           (mksleep true "B" 5) st_slk); [ex_solve|apply st_slk_waits|reflexivity|reflexivity].
Defined.

Lemma recovery_spec_witness :
  wp (energy_aware_deadlock_recovery 0 (SLDemo 1)) (fun r _ => r = 4 \/ r = 5) st_slk.
Proof.
  eapply wp_mono; [apply (recovery_spec 0 (SLDemo 1) (ex_wants 4 (Some (SLDemo 1)) RUNNING)
    (mksleep true "B" 5) st_slk);
    [apply ex_can_print|ex_solve|apply st_slk_waits|reflexivity|reflexivity]|].
  intros r s' (v & q & [Hv _] & Hq & -> & _).
  replace (owner_walk _ _ _ _ _) with [1%nat] in Hv by (by vm_compute).
  apply elem_of_cons in Hv as [->|Hv]; [left; by injection Hq as <-|].
  apply list_elem_of_singleton in Hv as ->. right. by injection Hq as <-.
Defined.

Lemma recovery_leaves_deadlock_witness :
  wp (_ ← energy_aware_deadlock_recovery 0 (SLDemo 1);
      would_create_deadlock (Some 0%nat) (Some (SLDemo 1)))
     (fun b s' => b = true /\ k_slocks s' = k_slocks st_slk) st_slk.
Proof.
  apply (recovery_leaves_deadlock 1 0 (SLDemo 1) (ex_wants 4 (Some (SLDemo 1)) RUNNING)
           (mksleep true "B" 5) st_slk);
    [apply ex_can_print|ex_solve|apply st_slk_waits|reflexivity|reflexivity|].
  apply (owes_step _ _ _ _ 1 4); [done|reflexivity|reflexivity|].
  apply (owes_here _ _ _ 0). reflexivity.
Defined.

Definition st_unlocked : kst :=
  ex_state (Some 0%nat) [ex_wants 4 None RUNNING; ex_wants 5 None SLEEPING] (ex_slocks 0 0).

Lemma acquiresleep_takes_witness :
  wp (@acquiresleep world_back 1 (SLDemo 0);; holdingsleep (SLDemo 0)) (fun b _ => b = true) st_unlocked.
Proof.
  apply (acquiresleep_takes (W := world_back) 1 0 (SLDemo 0) (mksleep false "A" 0)
           (ex_wants 4 None RUNNING) st_unlocked); ex_solve || reflexivity.
Defined.

Lemma releasesleep_spec_witness :
  releasesleep (SLDemo 0) st_slk = Ok tt (upd_sync touch
    (upd_procs (imap (wake_others (Some (ChSleep (SLDemo 0))) (running (k_sync st_slk))))
      (set_k_slocks (alter drop_lock (SLDemo 0) (k_slocks st_slk)) st_slk))).
Proof.
  apply (releasesleep_spec (SLDemo 0) (mksleep true "A" 4) st_slk);
    [ex_solve|ex_solve|ex_solve|ex_solve|reflexivity].
Defined.
