(* ===== verification/VmWitnesses.v ===== *)
(** * A concrete address space on which the page-table theorems apply

    A root table, one table of each lower level and one user page at virtual
    address 0x1000, with two pages left on the free list. *)

From stdpp Require Import base gmap strings numbers list.
From S2P Require Import Prelude State Spinlock Strings Memory Kalloc Vm PageTable UserSpace UserCopy UserAlloc UserFree Proc Process Sysproc UserView Witnesses.

Definition vroot : Z := 0x80100000.
Definition vtab1 : Z := 0x80101000.
Definition vtab0 : Z := 0x80102000.
Definition vdata : Z := 0x80103000.
Definition vfree : list Z := [0x80104000; 0x80105000].
Definition vflags : Z := Z.lor (Z.lor (Z.lor PTE_V PTE_R) PTE_W) PTE_U.

Definition vmem : mem :=
  st64 (st64 (st64 (st64 (fun _ => 0) 0x80104000 0x80105000)
    (vroot + 8 * 0) (mk_pte vtab1 PTE_V)) (vtab1 + 8 * 0) (mk_pte vtab0 PTE_V))
    (vtab0 + 8 * 1) (mk_pte vdata vflags).

Definition st_vm : kst := set_k_freelist 0x80104000 (set_k_mem vmem st_run).

Definition vtree : tree := {[ [] := vroot; [0] := vtab1; [0; 0] := vtab0 ]}.

Lemma ld64_zeroes a : ld64 (fun _ => 0) a = 0.
Proof. by apply (ldn_zero 8). Qed.

(** Every word of the memory. *)
Lemma vmem_ld64 a :
  (a = vroot -> ld64 vmem a = mk_pte vtab1 PTE_V) /\
  (a = vtab1 -> ld64 vmem a = mk_pte vtab0 PTE_V) /\
  (a = vtab0 + 8 -> ld64 vmem a = mk_pte vdata vflags) /\
  (a = 0x80104000 -> ld64 vmem a = 0x80105000) /\
  (a + 8 <= vroot \/ vroot + 8 <= a < vtab1 - 7 \/ vtab1 + 8 <= a < vtab0 + 1 \/
   vtab0 + 16 <= a < 0x80104000 - 7 \/ 0x80104008 <= a -> ld64 vmem a = 0).
Proof.
  unfold vmem, vroot, vtab1, vtab0.
  repeat split; intros H; try subst a;
    repeat first [ rewrite ld64_st64_eq by (by vm_compute) | rewrite ld64_st64_ne by lia ];
    try done; apply ld64_zeroes.
Qed.

Lemma vmem_free : kmem_wf st_vm vfree.
Proof.
  destruct (vmem_ld64 0x80104000) as (_ & _ & _ & H1 & _).
  destruct (vmem_ld64 0x80105000) as (_ & _ & _ & _ & H2).
  split; cbn [st_vm k_end k_mem k_freelist set_k_freelist set_k_mem].
  - done.
  - cbn. rewrite H1, H2 by (done || (unfold vroot, vtab1, vtab0; lia)). done.
  - apply NoDup_cons. split; [|apply NoDup_singleton]. by intros ?%list_elem_of_singleton.
  - repeat constructor; unfold aligned, PHYSTOP, PGSIZE; done || lia.
Qed.

Lemma vtree_cases pi p :
  vtree !! pi = Some p ->
  (pi = [] /\ p = vroot) \/ (pi = [0] /\ p = vtab1) \/ (pi = [0; 0] /\ p = vtab0).
Proof.
  unfold vtree. intros H. apply lookup_insert_Some in H as [[<- <-]|[_ H]]; [by left|].
  apply lookup_insert_Some in H as [[<- <-]|[_ H]]; [right; by left|].
  apply lookup_singleton_Some in H as [<- <-]. right. by right.
Qed.

Lemma vtree_wf : pt_wf (k_end st_vm) vfree vmem vroot vtree.
Proof.
  split.
  - done.
  - intros pi p H. apply vtree_cases in H as [[-> ->]|[[-> ->]|[-> ->]]]; split_and!.
    all: try (split; [done|unfold PHYSTOP, KERNBASE, vroot, vtab1, vtab0; cbn; lia]).
    all: try (unfold vfree, vroot, vtab1, vtab0; rewrite elem_of_cons, list_elem_of_singleton; lia).
    all: cbn; lia.
  - intros pi pi' p H H'. apply vtree_cases in H, H'.
    destruct H as [[-> ->]|[[-> ->]|[-> ->]]], H' as [[-> E]|[[-> E]|[-> E]]]; done.
  - intros pi i q H. apply vtree_cases in H as [[H _]|[[H _]|[H _]]].
    + by destruct pi.
    + destruct pi as [|? pi]; [injection H as ->; split; [by eexists|split; [|intros _]; lia]|]. by destruct pi.
    + destruct pi as [|x [|y pi]]; [done| |by destruct pi]. injection H as -> ->. split; [by eexists|split; [|intros _]; lia].
  - intros pi p i H Hlen Hi. apply vtree_cases in H as [[-> ->]|[[-> ->]|[-> ->]]]; cbn in Hlen; [..|lia].
    + destruct (vmem_ld64 (vroot + 8 * i)) as (H1 & _ & _ & _ & H2). cbn [app].
      destruct (decide (i = 0)) as [->|Hne]; [by apply H1|].
      unfold vtree. rewrite !lookup_insert_ne, lookup_singleton_ne by congruence.
      rewrite H2; [done|]. unfold vroot, vtab1 in *. lia.
    + destruct (vmem_ld64 (vtab1 + 8 * i)) as (_ & H1 & _ & _ & H2). cbn [app].
      destruct (decide (i = 0)) as [->|Hne]; [by apply H1|].
      unfold vtree. rewrite !lookup_insert_ne, lookup_singleton_ne by congruence.
      rewrite H2; [done|]. unfold vroot, vtab1, vtab0 in *. lia.
Qed.

Lemma st_vm_inv : vm_inv st_vm vfree vroot vtree.
Proof. split; [ex_solve|ex_solve|apply vmem_free|apply vtree_wf]. Qed.

Lemma vleaf va : vpage va -> leaf vmem vroot va = if decide (va = 0x1000) then Some (mk_pte vdata vflags) else None.
Proof.
  intros [Ha Hr]. change vmem with (k_mem st_vm). rewrite (leaf_tree _ _ _ _ _ st_vm_inv).
  change (k_mem st_vm) with vmem.
  destruct (vtree !! path va) as [p0|] eqn:E.
  - cbn [mbind option_bind]. apply vtree_cases in E as [[E _]|[[E _]|[E ->]]]; [done..|].
    injection E as E2 E1. pose proof (PX_range 0 va) as H0.
    destruct (vmem_ld64 (vtab0 + 8 * PX 0 va)) as (_ & _ & H1 & _ & H2).
    case_decide as Hd.
    + subst va. rewrite H1 by done. by vm_compute.
    + rewrite H2; [done|]. destruct (decide (PX 0 va = 1)) as [E0|]; [|].
      * exfalso. apply Hd. apply PX_inj; [done|by vm_compute|done|done|done..].
      * unfold vtab0. destruct (decide (PX 0 va = 0)) as [->|]; [|unfold vroot, vtab1, vtab0 in *; lia].
        unfold vroot, vtab1, vtab0. lia.
  - case_decide; [|done]. subst. done.
Qed.

Lemma st_vm_user : user_wf vmem vroot vtree.
Proof.
  assert (E : PTE2PA (mk_pte vdata vflags) = vdata) by (by vm_compute).
  split.
  - intros va v Hva Hv _. rewrite vleaf in Hv by done. case_decide; [|done]. injection Hv as <-.
    rewrite E. split_and!; [done|unfold vdata; lia|].
    intros pi p Hpi. apply vtree_cases in Hpi as [[-> ->]|[[-> ->]|[-> ->]]]; done.
  - intros va va' v v' Hva Hva' Hv _ Hv' _ _. rewrite vleaf in Hv, Hv' by done.
    repeat case_decide; congruence || done.
Qed.

(** ** The theorems *)

Lemma mappages_spec_witness :
  wp (mappages vroot 0x2000 0x1000 vdata PTE_R) (fun r s' => (r = 0 \/ r = -1) /\
    exists l' N', vm_inv s' l' vroot N') st_vm.
Proof.
  eapply wp_mono; [apply (mappages_spec vroot 0x2000 0x1000 vdata PTE_R 0 st_vm vfree vtree);
    [apply st_vm_inv|by split|done|by vm_compute|done|unfold vdata; lia|unfold vdata; lia|unfold PTE_R; lia|]|].
  - intros va' Hv Hr. change (k_mem st_vm) with vmem. rewrite vleaf by done. case_decide; [lia|done].
  - intros r s' (j & l' & N' & H & _ & Hr). split; [by destruct Hr as [[? _]|[? _]]; auto|].
    exists l', N'. apply (step_inv H).
Defined.

Lemma mappages_misuse_witness :
  mappages vroot 0x2001 0x1000 vdata PTE_R st_vm = Panic "mappages: va not aligned" st_vm.
Proof. destruct (mappages_misuse vroot 0x2001 0x1000 vdata PTE_R st_vm) as (H & _). by apply H. Defined.

Lemma vmapped : mapped vroot vmem 0x1ff0 3.
Proof.
  split_and!; [lia|by vm_compute|]. intros i Hi. unfold user_pa.
  assert (Hp : PGROUNDDOWN (0x1ff0 + Z.of_nat i) = 0x1000).
  { apply PGROUNDDOWN_in_page; [done|unfold PGSIZE; lia]. }
  rewrite Hp, vleaf by (by split). by eexists.
Qed.

Lemma copyin_spec_witness :
  copyin vroot 0x1ff0 3 st_vm = Ok (0, ubytes vroot vmem 0x1ff0 3) st_vm.
Proof.
  apply (copyin_spec vroot 0x1ff0 3 st_vm vfree vtree); [apply st_vm_inv|apply st_vm_user|apply vmapped].
Defined.

Lemma copyout_copyin_witness :
  exists m', copyout vroot 0x1ff0 [7; 8; 9] st_vm = Ok 0 (set_k_mem m' st_vm) /\
    copyin vroot 0x1ff0 3 (set_k_mem m' st_vm) = Ok (0, [7; 8; 9]) (set_k_mem m' st_vm).
Proof.
  destruct (copyout_copyin vroot 0x1ff0 [7; 8; 9] st_vm vfree vtree) as (m' & H1 & _ & H2);
    [apply st_vm_inv|apply st_vm_user|apply vmapped| |exists m'; split; [exact H1|exact H2]].
  intros i v Hi. assert (Hp : PGROUNDDOWN (0x1ff0 + Z.of_nat i) = 0x1000).
  { apply PGROUNDDOWN_in_page; [done|cbn in Hi; unfold PGSIZE; lia]. }
  rewrite Hp. change (k_mem st_vm) with vmem. rewrite vleaf by (by split). intros [= <-]. by vm_compute.
Defined.

(** ** A second, empty address space *)

Definition vnew : Z := 0x80106000.
Definition vnew_tree : tree := {[ [] := vnew ]}.

Lemma vnew_tree_cases pi p : vnew_tree !! pi = Some p -> pi = [] /\ p = vnew.
Proof. unfold vnew_tree. intros H. apply lookup_singleton_Some in H as [<- <-]. done. Qed.

Lemma vnew_entry i : 0 <= i -> ld64 vmem (vnew + 8 * i) = 0.
Proof. intros Hi. apply (vmem_ld64 (vnew + 8 * i)). unfold vnew. lia. Qed.

Lemma vnew_inv : vm_inv st_vm vfree vnew vnew_tree.
Proof.
  split; [ex_solve|ex_solve|apply vmem_free|]. split.
  - done.
  - intros pi p [-> ->]%vnew_tree_cases. split_and!; [split; [done|unfold PHYSTOP, KERNBASE, vnew; cbn; lia]| |cbn; lia].
    unfold vfree, vnew. rewrite elem_of_cons, list_elem_of_singleton. lia.
  - intros pi pi' p [-> ->]%vnew_tree_cases [-> _]%vnew_tree_cases. done.
  - intros pi i q [E _]%vnew_tree_cases. by destruct pi.
  - intros pi p i [-> ->]%vnew_tree_cases _ Hi. cbn [app]. unfold vnew_tree. rewrite lookup_singleton_ne by done.
    change (k_mem st_vm) with vmem. by rewrite vnew_entry by lia.
Qed.

Lemma vnew_blank va : vpage va -> leaf (k_mem st_vm) vnew va = None.
Proof. intros Hv. rewrite (leaf_tree _ _ _ _ _ vnew_inv). unfold vnew_tree, path. by rewrite lookup_singleton_ne. Qed.

Lemma vdata_pa : PTE2PA (mk_pte vdata vflags) = vdata.
Proof. by vm_compute. Qed.

Lemma vold_owned : owned (k_end st_vm) vfree (k_mem st_vm) vroot vtree 0 0x2000.
Proof.
  split.
  - intros va v Hv Hr. change (k_mem st_vm) with vmem. rewrite vleaf by done. case_decide; [|done]. intros [= <-]. rewrite vdata_pa.
    split_and!; [split; [done|unfold PHYSTOP, KERNBASE, vdata; cbn; lia]| |].
    + unfold vfree, vdata. rewrite elem_of_cons, list_elem_of_singleton. lia.
    + intros [pi Hpi]. apply vtree_cases in Hpi as [[_ E]|[[_ E]|[_ E]]]; discriminate E.
  - intros va va' v v' Hv Hv' _ _. change (k_mem st_vm) with vmem. rewrite !vleaf by done. by repeat case_decide; subst.
Qed.

Lemma vapart q : tree_page vnew_tree q -> ~ tree_page vtree q /\ ~ pages_of (k_mem st_vm) vroot 0 0x2000 q.
Proof.
  intros [pi [-> ->]%vnew_tree_cases]. split.
  - intros [pi Hpi]. apply vtree_cases in Hpi as [[_ E]|[[_ E]|[_ E]]]; discriminate E.
  - intros (va & v & Hv & _ & Hl & Hp). change (k_mem st_vm) with vmem in Hl. rewrite vleaf in Hl by done. case_decide; [|done].
    injection Hl as <-. rewrite vdata_pa in Hp. discriminate Hp.
Qed.

Lemma vsz : 0 <= 0x2000 <= MAXVA.
Proof. split; by vm_compute. Qed.

Lemma uvmcopy_spec_witness :
  wp (uvmcopy vroot vnew 0x2000) (fun r s' => (r = 0 \/ r = -1) /\ umem (k_mem s') vroot 0x1000 = umem vmem vroot 0x1000) st_vm.
Proof.
  eapply wp_mono; [apply (uvmcopy_spec st_vm vfree vroot vnew vtree vnew_tree 0x2000);
    [exact st_vm_inv|exact vnew_inv|exact vold_owned|exact vapart|intros va Hv _; by apply vnew_blank|exact vsz]|].
  intros r s' (l' & N' & D). split; [destruct (dup_result _ _ _ _ _ _ _ _ _ _ _ D) as [[? _]|[? _]]; auto|].
  apply (dup_old_mem _ _ _ _ _ _ _ _ _ _ _ D). lia.
Defined.

Lemma uvmfree_spec_witness :
  wp (uvmfree vroot 0x2000) (fun _ s' => exists l', kmem_wf s' l' /\ vdata ∈ l' /\ vroot ∈ l') st_vm.
Proof.
  eapply wp_mono; [apply (uvmfree_spec st_vm vfree vroot vtree 0x2000); [exact st_vm_inv|exact vold_owned|exact vsz|]|].
  - intros va Hv Hr. change (k_mem st_vm) with vmem. rewrite vleaf by done. case_decide; [lia|done].
  - intros [] s' (l' & F). exists l'. split_and!; [apply (fr_ready F)|apply (fr_list F)..].
    + right. right. exists 0x1000, (mk_pte vdata vflags). split_and!; [done|by vm_compute..|lia|lia| |by vm_compute].
      change (k_mem st_vm) with vmem. by rewrite vleaf by (by split).
    + right. left. by exists [].
Defined.

Lemma uvmalloc_spec_witness :
  wp (uvmalloc vroot 0x2000 0x3000 PTE_W) (fun r s' => r = 0x3000 /\ umem (k_mem s') vroot 0x2abc = Some 0 \/ r = 0) st_vm.
Proof.
  eapply wp_mono; [apply (uvmalloc_spec st_vm vfree vroot vtree 0x2000 0x3000 PTE_W);
    [exact st_vm_inv|exact vold_owned|by vm_compute|lia|by vm_compute|]|].
  - intros va Hv Hr. change (PGROUNDUP 0x2000) with 0x2000 in Hr. change (k_mem st_vm) with vmem. rewrite vleaf by done.
    case_decide; [lia|done].
  - intros r s' (l' & N' & _ & _ & _ & [[-> Hz]|[-> _]]); [left|by right]. split; [done|]. apply Hz.
    change (PGROUNDUP 0x2000) with 0x2000. lia.
Defined.

(** ** A process in the address space, calling [sbrk(4096)] *)

Definition vtf : Z := 0x80107000.
Definition vproc : proc := set_p_trapframe vtf (set_p_pagetable vroot (set_p_sz 0x2000 ex_proc)).
Definition smem : mem := st64 (st64 vmem (vtf + 112) 4096) (vtf + 120) 1.
Definition st_sbrk : kst := set_k_procs (<[0%nat := vproc]> (k_procs st_vm)) (set_k_mem smem st_vm).

Lemma vtf_private : same_outside vtf (k_mem st_vm) smem.
Proof.
  eapply same_outside_trans; [apply (same_outside_st64 vtf vmem 4096 112)|apply (same_outside_st64 vtf _ 1 120)]; unfold PGSIZE; lia.
Qed.

Lemma st_sbrk_vm : vm_inv (set_k_mem smem st_vm) vfree vroot vtree /\ forall va, leaf smem vroot va = leaf vmem vroot va.
Proof.
  apply (vm_inv_private vtf smem st_vm vfree vroot vtree st_vm_inv); [done| | |exact vtf_private].
  - unfold vfree, vtf. rewrite elem_of_cons, list_elem_of_singleton. lia.
  - intros [pi Hpi]. apply vtree_cases in Hpi as [[_ E]|[[_ E]|[_ E]]]; discriminate E.
Qed.

Lemma vm_inv_procs ps s l root N : vm_inv s l root N -> vm_inv (set_k_procs ps s) l root N.
Proof. intros [I1 I2 [K1 K2 K3 K4] I4]. by split; [| |split|]. Qed.

Lemma st_sbrk_active : active 0 vproc st_sbrk vfree vtree.
Proof.
  destruct st_sbrk_vm as [I L]. apply (vm_inv_procs (<[0%nat := vproc]> (k_procs st_vm))) in I. split; [done|done|].
  change (p_pagetable vproc) with vroot.
  assert (Hl : forall va, vpage va -> leaf smem vroot va = if decide (va = 0x1000) then Some (mk_pte vdata vflags) else None).
  { intros va Hv. by rewrite L, vleaf. }
  split; [|..|split; by vm_compute].
  - exact I.
  - destruct vold_owned as [Op Oj]. split.
    + intros va v Hv _ El. change (k_mem st_sbrk) with smem in El. rewrite L in El.
      apply (Op va v Hv); [|done]. rewrite vleaf in El by done. case_decide; [lia|done].
    + intros va va' v v' Hv Hv' _ _. change (k_mem st_sbrk) with smem.
      rewrite !Hl by done. by repeat case_decide; subst.
  - intros va Hv Hr. change (k_mem st_sbrk) with smem. rewrite Hl by done.
    change (PGROUNDUP (p_sz vproc)) with 0x2000 in Hr. case_decide; [lia|done].
Qed.

Lemma vmfault_spec_witness :
  wp (vmfault vroot 0x10 true) (fun r s' => same_view TRAPFRAME vproc st_sbrk s' /\
    (r = 0 \/ leaf (k_mem s') vroot 0 = Some (mk_pte r (Z.lor (alloc_perm PTE_W) PTE_V)))) st_sbrk.
Proof.
  eapply wp_mono; [apply (vmfault_spec 0 vproc st_sbrk vfree vtree 0x10 true); [exact st_sbrk_active|lia]|].
  intros r s' (_ & _ & Hv & Hr). split; [exact Hv|]. case_decide as Hd; [|left; apply Hr].
  destruct Hr as [[? _]|[_ ?]]; [by left|by right].
Defined.

Lemma sbrk_spec_witness :
  wp sys_sbrk (fun r s' => r = 0x2000 /\ becomes 0 vproc st_sbrk 0x3000 s' \/ r = minus1 /\ becomes 0 vproc st_sbrk 0x2000 s') st_sbrk.
Proof.
  eapply wp_mono; [apply (sbrk_spec 0 vproc st_sbrk vfree vtree); [exact st_sbrk_active|done]|].
  assert (En : to_int (ld64 (k_mem st_sbrk) (p_trapframe vproc + tf_a 0)) = 4096).
  { change (k_mem st_sbrk) with smem. unfold smem. change (p_trapframe vproc + tf_a 0) with (vtf + 112).
    rewrite ld64_st64_ne by lia. by rewrite ld64_st64_eq by lia. }
  rewrite En. intros r s' [(-> & _ & Hr & _)|(-> & Hr & _)]; [left|right]; split; [done|exact Hr|done|exact Hr].
Defined.
