(* ===== verification/FsWitnesses.v ===== *)
(** * Concrete states of the file system

    A machine with every file-system lock free, a cache of thirty buffers and
    a disk of zero blocks, driven by a disk that completes each request at
    once: the hypotheses of the file-system theorems hold there. *)

From stdpp Require Import base gmap strings numbers list.
From S2P Require Import Prelude State Spinlock Strings Printf Bytes Proc Sleeplock Quiet Bio Cache Log LogSpec Crash Witnesses.

(** ** The machine *)

Definition fx_locks : gmap lockid spinlock :=
  list_to_map ((fun l => (l, mkspin "lock" false None)) <$>
    (LProc <$> seq 0 NPROC) ++
    [LPid; LWait; LTicks; LKmem; LFtable; LItable; LBcache; LLog; LCons; LPr; LUart; LVdisk] ++
    ((fun i => LSleep (SLBuf i)) <$> seq 0 NBUF) ++ ((fun i => LSleep (SLInode i)) <$> seq 0 NINODE)).

Definition fx_sync : sync :=
  mksync 0 (mkcpu (Some 0%nat) 0 false true :: replicate 7 (mkcpu None 0 false true)) fx_locks.

(** Process 0, with pid 1, runs. *)
Definition fx_procs : list proc :=
  set_p_state RUNNING (set_p_pid 1 ex_proc) :: replicate 63 ex_proc.

Definition fx_slocks : gmap slid sleeplock :=
  list_to_map (((fun i => (SLBuf i, mksleep false "buffer" 0)) <$> seq 0 NBUF) ++
               ((fun i => (SLInode i, mksleep false "inode" 0)) <$> seq 0 NINODE)).

Definition fx_state (fs : fsst) : kst :=
  set_k_fs fs (set_k_sync fx_sync (set_k_procs fx_procs (ex_state (Some 0%nat) [] fx_slocks))).

Lemma fx_family (f : nat -> lockid) n :
  Forall (fun i => fx_locks !! f i = Some (mkspin "lock" false None)) (seq 0 n) ->
  forall i, (i < n)%nat -> lock_free (f i) fx_sync.
Proof. rewrite Forall_forall. intros H i Hi. exists "lock". apply H, elem_of_seq. lia. Qed.

Lemma fx_proc_locks : proc_locks_free fx_sync.
Proof. intros i Hi. revert i Hi. apply (fx_family LProc NPROC). vm_compute. repeat constructor. Qed.

Lemma fx_locks_free l : fs_lock l -> lock_free l fx_sync.
Proof.
  destruct 1 as [| | | | | | | | | | | |i Hi|i Hi];
    try (exists "lock"; vm_compute; reflexivity).
  - revert i Hi. apply (fx_family (fun i => LSleep (SLBuf i)) NBUF). vm_compute. repeat constructor.
  - revert i Hi. apply (fx_family (fun i => LSleep (SLInode i)) NINODE). vm_compute. repeat constructor.
Qed.

Lemma fx_quiet fs : quiet 0 (fx_state fs).
Proof.
  split.
  - by exists (mkcpu (Some 0%nat) 0 false true).
  - reflexivity.
  - unfold NPROC. lia.
  - apply fx_proc_locks.
  - apply fx_locks_free.
  - by split.
Qed.

(** ** A disk that answers at once *)

#[global] Instance ideal_disk : Disk := {|
  virtio_disk_rw b write :=
    x ← getb b;
    if (write : bool) then modify (upd_fs (disk_write (b_blockno x) (b_data x)))
    else blk ← gets (fun s => fs_disk (k_fs s) (b_blockno x)); updb b (set_b_data blk)
|}.

#[global] Instance ideal_disk_spec : DiskSpec.
Proof.
  split; intros p b x s _ _ Hx.
  - apply wp_bind. eapply wp_getb; [done|]. cbv iota. apply wp_bind, wp_gets, wp_updb; [done|].
    split_and!; [by apply frame_upd|done|done].
  - apply wp_bind. eapply wp_getb; [done|]. cbv iota. apply wp_modify.
    split_and!; [by apply frame_upd|done|done].
Qed.

#[global] Instance no_patience : Patience := {| patience := 0 |}.

(** ** A cache *)

Definition zero_block : list Z := replicate BSIZE 0.
Definition seven_block : list Z := replicate BSIZE 7.

Lemma zero_block_head : dec_n zero_block = 0.
Proof. vm_compute. reflexivity. Qed.

Lemma zero_block_length : length zero_block = BSIZE.
Proof. apply length_replicate. Qed.

#[local] Opaque zero_block seven_block.

(** Thirty buffers on the ring in order; buffer 0 may hold a block. *)
Definition fx_buf (b0 : bool) (i : nat) : buf :=
  let prev := if (i =? 0)%nat then NBUF else (i - 1)%nat in
  let next := if (i =? NBUF)%nat then 0%nat else (i + 1)%nat in
  if b0 && (i =? 0)%nat then mkbuf true false 1 45 1 prev next seven_block
  else mkbuf false false 0 0 0 prev next [].

Definition fx_bufs (b0 : bool) : list buf := fx_buf b0 <$> seq 0 (S NBUF).

Lemma fx_ring b0 : ring (fx_bufs b0) (seq 0 NBUF).
Proof. split; [done|done|]. destruct b0; vm_compute; by repeat split. Qed.

Lemma fx_lookup b0 i x : fx_bufs b0 !! i = Some x -> x = fx_buf b0 i.
Proof.
  unfold fx_bufs. rewrite list_lookup_fmap. intros (j & Hj & ->)%fmap_Some.
  apply lookup_seq in Hj as [-> _]. done.
Qed.

Lemma fx_slock i : (i < NBUF)%nat -> fx_slocks !! SLBuf i = Some (mksleep false "buffer" 0).
Proof.
  assert (H : Forall (fun i => fx_slocks !! SLBuf i = Some (mksleep false "buffer" 0)) (seq 0 NBUF)).
  { vm_compute. repeat constructor. }
  rewrite Forall_forall in H. intros Hi. apply H, elem_of_seq. lia.
Qed.

(** Block 45 has been changed by the transaction and is pinned. *)
Definition fx_view : Z -> list Z := vset 45 seven_block (fun _ => zero_block).

Definition fx_fs (b0 : bool) (lg : log) (dk : Z -> list Z) : fsst :=
  mkfsst (fx_bufs b0) lg (mksuper 0 0 0 0 0 0 0 0) [] [] dk [].

Lemma fx_cache lg : cache 1 fx_view {[45]} ∅ 1 (fx_fs true lg (fun _ => zero_block)) fx_slocks.
Proof.
  split; cbn [fs_bufs fs_disk fx_fs].
  - eexists. apply fx_ring.
  - intros i x _ ->%fx_lookup. unfold fx_buf. by destruct i.
  - intros i x _ ->%fx_lookup. unfold fx_buf. by destruct i.
  - intros i j x y _ _ ->%fx_lookup ->%fx_lookup. unfold fx_buf. by destruct i, j.
  - intros i x _ ->%fx_lookup. unfold fx_buf. destruct i; [|done]. intros _. cbn.
    by rewrite bool_decide_true, bool_decide_false by set_solver.
  - intros i x _ ->%fx_lookup. unfold fx_buf. destruct i; [|done]. reflexivity.
  - intros z Hz _. unfold fx_view. rewrite vset_ne; [done|set_solver].
  - intros z Hz. assert (z = 45) as -> by set_solver. exists 0%nat, (fx_buf true 0). by split; [unfold NBUF; lia|].
  - intros i x _ _ _ Hin. by apply elem_of_empty in Hin.
  - intros i x Hi _ _. rewrite fx_slock by done. by eexists.
Qed.

(** An empty cache over any disk. *)
Lemma fx_cache_empty lg dk : cache 1 dk ∅ ∅ 1 (fx_fs false lg dk) fx_slocks.
Proof.
  split; cbn [fs_bufs fs_disk fx_fs].
  - eexists. apply fx_ring.
  - intros i x _ ->%fx_lookup. done.
  - intros i x _ ->%fx_lookup. done.
  - intros i j x y _ _ ->%fx_lookup ->%fx_lookup. done.
  - intros i x _ ->%fx_lookup. done.
  - intros i x _ ->%fx_lookup. done.
  - done.
  - intros z Hz. by rewrite union_empty_l_L in Hz; apply elem_of_empty in Hz.
  - intros i x _ _ _ Hin. by apply elem_of_empty in Hin.
  - intros i x Hi _ _. rewrite fx_slock by done. by eexists.
Qed.

(** ** The log *)

(** A transaction of one block, the log at blocks 2 to 32. *)
Definition fx_log : log := mklog 2 0 true 1 1 (45 :: replicate 29 0).

Definition st_commit : kst := fx_state (fx_fs true fx_log (fun _ => zero_block)).

Lemma st_commit_bst : bst 0 1 fx_view {[45]} ∅ st_commit.
Proof.
  split; [apply fx_quiet|]. intros q Hq. cbn in Hq. injection Hq as <-. apply fx_cache.
Qed.

Lemma fx_geo : log_geo 2 [45].
Proof.
  split; [unfold LOGBLOCKS; lia|apply NoDup_singleton| |unfold LOGBLOCKS; cbn; lia].
  intros b ->%list_elem_of_singleton. unfold in_log, LOGBLOCKS. lia.
Qed.

(** The machine booted on a given disk. *)
Definition st_boot (dk : Z -> list Z) : kst :=
  fx_state (fx_fs false (mklog 2 0 false 1 0 (replicate 30 0)) dk).

Lemma st_boot_booted dk : booted 0 1 2 (st_boot dk).
Proof.
  split; [|done..]. split; [apply fx_quiet|]. intros q Hq. cbn in Hq. injection Hq as <-.
  apply fx_cache_empty.
Qed.

(** The machine stops when only the log block has been written, and boots. *)
Lemma commit_crash_atomic_witness :
  wp (@commit world_back ideal_disk no_patience) (fun _ s' => exists Ws,
    fs_writes (k_fs s') = Ws /\
    wp (@recover_from_log world_back ideal_disk no_patience) (fun _ t' =>
      (forall z, ~ in_log 2 z -> fs_disk (k_fs t') z = zero_block) \/
      (forall z, ~ in_log 2 z -> fs_disk (k_fs t') z = fx_view z))
      (st_boot (apply_writes (take 1 Ws) (fun _ => zero_block)))) st_commit.
Proof.
  eapply wp_mono; [apply (@commit_crash_atomic world_back ideal_disk ideal_disk_spec no_patience
                            0 1 2 fx_view [45] st_commit)|].
  - rewrite list_to_set_singleton_L. apply st_commit_bst.
  - by split.
  - apply fx_geo.
  - unfold NBUF. cbn. lia.
  - exact zero_block_head.
  - exact zero_block_length.
  - intros [] s' (Ws & -> & _ & H). exists Ws. split; [done|].
    apply (H (take 1 Ws)); [by exists (drop 1 Ws); rewrite take_drop|apply st_boot_booted|done].
Defined.

(** A disk whose log holds a committed transaction of block 45. *)
Definition fx_committed : Z -> list Z :=
  vset 2 (enc_head [45] zero_block) (vset 3 seven_block (fun _ => zero_block)).

Lemma fx_committed_head : head_ok 2 fx_committed.
Proof.
  unfold head_ok, fx_committed. rewrite vset_eq.
  assert (Hl : (head_block 1 <= length zero_block)%nat)
    by (rewrite zero_block_length; unfold head_block, BSIZE; lia).
  rewrite dec_enc_n by (exact Hl || (cbn; unfold LOGBLOCKS; lia)).
  rewrite dec_enc_blocks; [|exact Hl|cbn; unfold LOGBLOCKS; lia|intros b ->%list_elem_of_singleton; lia].
  split; [unfold LOGBLOCKS; cbn; lia|apply fx_geo].
Qed.

Lemma fx_committed_length : length (fx_committed 2) = BSIZE.
Proof. unfold fx_committed. rewrite vset_eq. vm_compute. reflexivity. Qed.

(** Recovery installs the transaction; the machine stops before the header is
    erased, boots again, and recovers to the same disk. *)
Lemma recovery_idempotent_witness :
  wp (@recover_from_log world_back ideal_disk no_patience) (fun _ s' => exists Ws,
    fs_writes (k_fs s') = Ws /\
    wp (@recover_from_log world_back ideal_disk no_patience) (fun _ t' =>
      forall z, ~ in_log 2 z -> fs_disk (k_fs t') z = fs_disk (k_fs s') z)
      (st_boot (apply_writes (take 1 Ws) fx_committed))) (st_boot fx_committed).
Proof.
  eapply wp_mono; [apply (@recovery_idempotent world_back ideal_disk ideal_disk_spec no_patience
                            0 1 2 (st_boot fx_committed))|].
  - apply st_boot_booted.
  - exact fx_committed_head.
  - exact fx_committed_length.
  - intros [] s' (Ws & E & H). exists Ws. split; [exact E|].
    apply (H (take 1 Ws)); [by exists (drop 1 Ws); rewrite take_drop|apply st_boot_booted|reflexivity].
Defined.
