(* ===== verification/StoreWitnesses.v ===== *)
(** * Files, transactions and paths on a small disk

    A disk of 64 blocks, the free map in block 45, with a file of one block: a
    transaction on it satisfies the hypotheses of the theorems about [balloc],
    [bfree], [readi] and [writei]. Then states of the log, and a directory tree. *)

From stdpp Require Import base gmap strings numbers sets list.
From S2P Require Import Prelude State Spinlock Strings Printf Memory Bytes Kalloc Vm PageTable UserMem Proc Sleeplock.
From S2P Require Import Quiet Bio Cache Log LogSpec Crash Txn Reserve Uio Fs Bitmap FileData FileWrite Writei Icache.
From S2P Require Import Namei Witnesses FsWitnesses.

(** Blocks 0 to 46 are in use; 33 to 44 hold inodes, 46 is the file's. *)
Definition sx_sb : superblock := mksuper 0 64 17 192 31 2 33 45.
Definition sx_map : list Z := replicate 5 255 ++ [127] ++ replicate (BSIZE - 6) 0.
Definition sx_disk : disk := vset 45 sx_map (vset 46 seven_block (fun _ => zero_block)).
Definition sx_inode : inode := mkinode 1 1 1 true 2 0 0 1 1024 (46 :: replicate 12 0).

Definition sx_state : kst :=
  fx_state (set_fs_sb sx_sb (set_fs_inodes [sx_inode] (fx_fs false (mklog 2 1 false 1 0 (replicate 30 0)) sx_disk))).

Lemma sx_sb_ok : sb_ok sx_sb.
Proof. by split. Qed.

Lemma sx_bblock b : 0 <= b < 64 -> BBLOCK b sx_sb = 45.
Proof. intros H. unfold BBLOCK. rewrite Z.div_small; [done|]. change (Z.of_nat BPB) with 8192. lia. Qed.

Lemma sx_map_length : length sx_map = BSIZE.
Proof. vm_compute. reflexivity. Qed.

Lemma sx_map_range : Forall (fun x => 0 <= x < 256) sx_map.
Proof. repeat apply Forall_app_2; [by apply Forall_replicate|by apply Forall_singleton|by apply Forall_replicate]. Qed.

Lemma sx_map_ok : map_ok sx_sb sx_disk.
Proof. intros b Hb. rewrite sx_bblock by done. exact (conj sx_map_length sx_map_range). Qed.

Lemma sx_used : Forall (fun b => in_use sx_sb sx_disk b = true) [0; 33; 45; 46].
Proof. repeat (apply Forall_cons; split; [vm_compute; reflexivity|]). apply Forall_nil_2. Qed.

Lemma sx_use b : b = 0 \/ b = 33 \/ b = 45 \/ b = 46 -> in_use sx_sb sx_disk b = true.
Proof. intros H. assert (U := sx_used). rewrite Forall_forall in U. apply U. set_solver. Qed.

Lemma sx_map_used : map_used sx_sb sx_disk.
Proof. intros b Hb. rewrite sx_bblock by done. split; [by cbn|]. apply sx_use. tauto. Qed.

Lemma sx_map_wf : map_wf sx_sb sx_disk.
Proof. split; [apply sx_map_ok|apply sx_map_used|apply sx_use; tauto|done]. Qed.

Lemma sx_txn : txn 0 1 2 sx_disk [] ∅ sx_state.
Proof.
  split; [|by split|apply NoDup_nil_2|constructor|done]. split; [apply fx_quiet|]. intros q Hq. cbn in Hq. injection Hq as <-.
  destruct (fx_cache_empty (mklog 2 1 false 1 0 (replicate 30 0)) sx_disk). split; assumption.
Qed.

Lemma sx_itxn : itxn 0 0 1 2 sx_sb sx_inode sx_disk [] ∅ sx_state.
Proof. split; [apply sx_txn|done..]. Qed.

Lemma sx_data b : b = 33 \/ b = 46 -> data_block sx_sb sx_disk b.
Proof.
  intros Hb. split; [destruct Hb as [->| ->]; by cbn|apply sx_use; tauto| |].
  - intros b' Hb'. rewrite sx_bblock by done. lia.
  - destruct Hb as [->| ->]; [apply zero_block_length|]. vm_compute. reflexivity.
Qed.

(** Block 0 of the file is block 46, and there are no others. *)
Lemma sx_addr bn : addr_of sx_inode sx_disk bn = if decide (bn = 0%nat) then 46 else 0.
Proof.
  unfold addr_of. destruct (Nat.ltb_spec bn NDIRECT) as [H|H].
  - destruct bn as [|bn]; [done|]. rewrite decide_False by done. cbn [nth sx_inode i_addrs].
    rewrite nth_lookup, lookup_replicate_2; [done|]. unfold NDIRECT in H. lia.
  - rewrite decide_False; [done|]. unfold NDIRECT in H. lia.
Qed.

Lemma sx_owns a : owns sx_inode sx_disk a -> a = 46.
Proof. intros [H0 [->|(bn & _ & ->)]]; [done|]. rewrite sx_addr in *. by case_decide. Qed.

Lemma sx_wf : ino_wf sx_sb sx_inode sx_disk.
Proof.
  split; [done|..].
  - intros bn _. rewrite sx_addr. case_decide; [|done]. intros _. apply sx_data. tauto.
  - done.
  - intros bn bn' _ _. rewrite !sx_addr. repeat case_decide; congruence.
  - intros bn _. rewrite sx_addr. by case_decide.
Qed.

Lemma sx_home : ino_home sx_sb sx_inode sx_disk.
Proof. split; [apply sx_data; by left|]. by intros ?%sx_owns. Qed.

Lemma sx_range : ino_range sx_inode.
Proof. split; try by cbn. apply Forall_cons. split; [done|]. by apply (Forall_replicate _ 12). Qed.

Lemma sx_room : (1023 + length [1; 2; 3] <= MAXFILE * BSIZE)%nat.
Proof. apply (Nat.le_trans _ (2 * BSIZE)); [vm_compute; lia|]. apply Nat.mul_le_mono_r. unfold MAXFILE, NDIRECT. lia. Qed.

(** ** Witnesses *)

(** The first free block is 47. *)
Lemma balloc_spec_witness :
  wp (@balloc world_back ideal_disk no_patience 1) (fun r s' => tframe sx_state s' /\
    (in_use sx_sb sx_disk r = false \/ r = 0)) sx_state.
Proof.
  eapply wp_mono; [apply (@balloc_spec world_back ideal_disk ideal_disk_spec no_patience 0 1 2 sx_disk [] sx_sb sx_state)|].
  - exact sx_txn.
  - reflexivity.
  - exact sx_sb_ok.
  - exact sx_map_ok.
  - exact sx_map_used.
  - lia.
  - unfold LOGBLOCKS. cbn. lia.
  - intros r s' (F & [(V' & _ & _ & Hf & _)|(-> & _)]); split; [done|by left|done|by right].
Defined.

(** Block 46 is returned. *)
Lemma bfree_spec_witness :
  wp (@bfree world_back ideal_disk no_patience 1 46) (fun _ s' => tframe sx_state s' /\
    exists V', txn 0 1 2 V' (record 45 []) ∅ s' /\ in_use sx_sb V' 46 = false) sx_state.
Proof.
  eapply wp_mono; [apply (@bfree_spec world_back ideal_disk ideal_disk_spec no_patience 0 1 2 46 sx_disk [] sx_sb sx_state)|].
  - exact sx_txn.
  - reflexivity.
  - exact sx_sb_ok.
  - exact sx_map_ok.
  - lia.
  - cbn. lia.
  - unfold LOGBLOCKS. cbn. lia.
  - apply sx_use. tauto.
  - intros [] s' (F & V' & X & Hu & _). split; [done|]. exists V'. split; [exact X|]. rewrite Hu by (cbn; lia). by rewrite decide_True.
Defined.

(** The last 24 bytes of the file are read. *)
Lemma readi_spec_witness :
  wp (@readi world_back ideal_disk no_patience 0 ToLocal 1000 100) (fun r _ =>
    r = (24, fbytes sx_inode sx_disk 1000 24)) sx_state.
Proof.
  eapply wp_mono; [apply (@readi_spec world_back ideal_disk ideal_disk_spec no_patience 0 0 1 sx_disk ∅ sx_inode ToLocal
    1000 100 sx_state)|].
  - apply sx_txn.
  - rewrite size_empty. unfold NBUF. lia.
  - reflexivity.
  - reflexivity.
  - apply (ino_blocks_ok sx_sb), sx_wf.
  - cbn. lia.
  - lia.
  - intros i Hi. change (avail sx_inode 1000 100) with 24%nat in Hi.
    assert (E : ((1000 + i) / BSIZE = 0)%nat) by (apply Nat.div_small; unfold BSIZE; lia).
    rewrite E, sx_addr. split; [unfold MAXFILE, NDIRECT; lia|done].
  - exact Logic.I.
  - intros r s' (-> & _). reflexivity.
Defined.

(** Three bytes are written at the end of the file, the last two of them into
    a block that is allocated. *)
Lemma writei_spec_witness :
  wp (@writei world_back ideal_disk no_patience 0 (FromLocal [1; 2; 3]) 1023 3) (fun r s' =>
    exists w x' V', r = Z.of_nat w /\ file_written sx_sb sx_inode sx_disk 1023 [1; 2; 3] w x' V') sx_state.
Proof.
  eapply wp_mono; [apply (@writei_spec world_back ideal_disk ideal_disk_spec no_patience 0 0 1 2 sx_sb 2 1023
    (FromLocal [1; 2; 3]) [1; 2; 3] sx_inode sx_disk [] sx_state)|].
  - exact sx_sb_ok.
  - lia.
  - exact sx_itxn.
  - exact sx_wf.
  - exact sx_map_wf.
  - exact sx_home.
  - exact sx_range.
  - cbn. lia.
  - exact sx_room.
  - exists []. reflexivity.
  - vm_compute. lia.
  - unfold LOGBLOCKS. cbn. lia.
  - intros r s' (w & x' & V' & bs' & -> & H & _). exists w, x', V'. split; [reflexivity|exact H].
Defined.

Lemma writei_readi_witness :
  wp (w ← @writei world_back ideal_disk no_patience 0 (FromLocal [1; 2; 3]) 1023 3;
      r ← @readi world_back ideal_disk no_patience 0 ToLocal 1023 w; mret (w, r))
    (fun wr _ => wr.2 = (wr.1, take (Z.to_nat wr.1) [1; 2; 3])) sx_state.
Proof.
  eapply wp_mono; [apply (@writei_readi world_back ideal_disk ideal_disk_spec no_patience 0 0 1 2 sx_sb 2 1023
    (FromLocal [1; 2; 3]) [1; 2; 3] sx_inode sx_disk [] sx_state)|].
  - exact sx_sb_ok.
  - lia.
  - exact sx_itxn.
  - exact sx_wf.
  - exact sx_map_wf.
  - exact sx_home.
  - exact sx_range.
  - cbn. lia.
  - cbn. lia.
  - exact sx_room.
  - exists []. reflexivity.
  - vm_compute. lia.
  - unfold LOGBLOCKS. cbn. lia.
  - intros wr s' (E & _). exact E.
Defined.

(** ** The log

    A call inside a transaction that has logged nothing, and a cache in which
    a transaction has pinned all thirty buffers. *)

(** One call in progress. *)
Definition lx_log : log := enter (fresh_log 1 2 (replicate LOGBLOCKS 0)).
Definition lx_state : kst := fx_state (fx_fs false lx_log (fun _ => zero_block)).

Lemma lx_reach : @reach world_back ideal_disk no_patience 9 (fresh_log 1 2 (replicate LOGBLOCKS 0), ∅) (lx_log, {[0%nat := ∅]}).
Proof. apply (reach_begin 0 lx_state (fx_quiet _)); [apply r_here|done|done|done]. Qed.

Lemma log_reservation_safe_witness :
  wp (log_write 0) (fun _ s' => fs_log (k_fs s') = absorb 0 lx_log) lx_state.
Proof.
  destruct (@log_reservation_safe world_back ideal_disk ideal_disk_spec no_patience 9 1 2 (replicate LOGBLOCKS 0) {[0%nat := ∅]} 0 lx_state)
    as [H _].
  - done.
  - reflexivity.
  - apply fx_quiet.
  - exact lx_reach.
  - specialize (H 0%nat ∅ 0%nat (fx_buf false 0)). change (b_blockno (fx_buf false 0)) with 0 in H.
    apply H; [apply lookup_singleton_eq|reflexivity|lia].
Defined.

(** Buffer [i] holds block [100 + i], which the log has pinned. *)
Definition lx_buf (i : nat) : buf :=
  let prev := if (i =? 0)%nat then NBUF else (i - 1)%nat in
  let next := if (i =? NBUF)%nat then 0%nat else (i + 1)%nat in
  mkbuf true false 1 (100 + Z.of_nat i) 1 prev next zero_block.

Definition lx_bufs : list buf := lx_buf <$> seq 0 (S NBUF).
Definition lx_blocks : list Z := (fun i => 100 + Z.of_nat i) <$> seq 0 NBUF.
Definition lx_full : kst :=
  fx_state (set_fs_bufs lx_bufs (fx_fs false (mklog 2 3 false 1 30 lx_blocks) (fun _ => zero_block))).

Lemma lx_lookup i x : lx_bufs !! i = Some x -> x = lx_buf i.
Proof.
  unfold lx_bufs. rewrite list_lookup_fmap. intros (j & Hj & ->)%fmap_Some. by apply lookup_seq in Hj as [-> _].
Qed.

Lemma lx_blocks_in z : z ∈ lx_blocks <-> 100 <= z < 130.
Proof.
  unfold lx_blocks. rewrite list_elem_of_fmap. split.
  - intros (i & -> & Hi%elem_of_seq). unfold NBUF in Hi. lia.
  - intros H. exists (Z.to_nat (z - 100)). rewrite elem_of_seq. unfold NBUF. lia.
Qed.

Lemma lx_bst : bst 0 1 (fun _ => zero_block) (list_to_set lx_blocks) ∅ lx_full.
Proof.
  split; [apply fx_quiet|]. intros q Hq. cbn in Hq. injection Hq as <-.
  split; cbn [fs_bufs fs_disk lx_full fx_state k_fs set_k_fs set_fs_bufs].
  - exists (seq 0 NBUF). split; [done|done|]. vm_compute. by repeat split.
  - intros i x _ ->%lx_lookup _. done.
  - intros i x _ ->%lx_lookup Hd. done.
  - intros i j x y _ _ ->%lx_lookup ->%lx_lookup _ _. cbn. lia.
  - intros i x Hi ->%lx_lookup _. cbn [lx_buf b_blockno b_refcnt].
    rewrite bool_decide_true, bool_decide_false; [done|set_solver|]. rewrite elem_of_list_to_set, lx_blocks_in. unfold NBUF in Hi. lia.
  - intros i x _ ->%lx_lookup _. done.
  - done.
  - intros z Hz. rewrite union_empty_r_L, elem_of_list_to_set, lx_blocks_in in Hz.
    exists (Z.to_nat (z - 100)), (lx_buf (Z.to_nat (z - 100))). unfold NBUF. split_and!; [lia| |done|cbn; lia].
    unfold lx_bufs. rewrite list_lookup_fmap, lookup_seq_lt; [done|]. unfold NBUF. lia.
  - intros i x _ _ _ Hin. by apply elem_of_empty in Hin.
  - intros i x Hi _ _. rewrite fx_slock by done. by eexists.
Qed.

Lemma full_log_panics_witness : panics "bget: no buffers" (@commit world_back ideal_disk no_patience) lx_full.
Proof.
  destruct (@full_log_panics world_back ideal_disk no_patience 1 2 lx_blocks 0 (fun _ => zero_block) lx_full) as (_ & _ & H).
  - apply NoDup_fmap_2; [intros i j; lia|apply NoDup_seq].
  - done.
  - apply Forall_forall. intros b Hb%lx_blocks_in. lia.
  - rewrite lx_blocks_in. change (wrap32 (2 + 1)) with 3. lia.
  - exact lx_bst.
  - done.
  - exact H.
Defined.

(** ** A directory tree

    The root directory, in block 46, with the entries ".", ".." and "a", the
    last an empty file: the theorems on path names apply there. *)

Definition px_root : inode := mkinode 0 1 0 false T_DIR 0 0 1 48 (46 :: replicate 12 0).
Definition px_file : inode := mkinode 0 2 0 false T_FILE 0 0 1 0 (replicate 13 0).

Definition px_inodes : list Z := enc_dinode px_root (dinode_off 1) (enc_dinode px_file (dinode_off 2) zero_block).
Definition px_dir : list Z :=
  mk_dirent 1 [46] ++ mk_dirent 1 [46; 46] ++ mk_dirent 2 [97] ++ replicate (BSIZE - 48) 0.
Definition px_disk : disk := vset 33 px_inodes (vset 46 px_dir (fun _ => zero_block)).

Definition px_state : kst :=
  fx_state (set_fs_sb sx_sb (set_fs_inodes (replicate NINODE (mkinode 0 0 0 false 0 0 0 0 0 []))
    (fx_fs false (mklog 2 1 false 1 0 (replicate 30 0)) px_disk))).

Lemma px_node1 : node sx_sb px_disk 1 = px_root.
Proof. vm_compute. reflexivity. Qed.

Lemma px_node2 : node sx_sb px_disk 2 = px_file.
Proof. vm_compute. reflexivity. Qed.

Lemma px_addr bn : addr_of px_root px_disk bn = if decide (bn = 0%nat) then 46 else 0.
Proof. exact (sx_addr bn). Qed.

Lemma px_dir_ok : dir_ok px_root px_disk.
Proof.
  split; [vm_compute; reflexivity|by cbn|split; [done|]|].
  - intros bn _. rewrite px_addr. case_decide; [|done]. intros _. vm_compute. reflexivity.
  - intros i Hi. change (dirent_size * nents px_root)%nat with 48%nat in Hi.
    rewrite Nat.div_small by (unfold BSIZE; lia). rewrite px_addr, decide_True by done. split; [unfold MAXFILE, NDIRECT; lia|done].
Qed.

Lemma px_entries : Forall (fun de => de_inum de = 1 \/ de_inum de = 2) (entries px_root px_disk).
Proof. vm_compute. repeat (apply Forall_cons; split; [by (left; reflexivity) || by (right; reflexivity)|]). apply Forall_nil_2. Qed.

Lemma px_tree : tree sx_sb px_disk (fun inum => inum = 1 \/ inum = 2).
Proof.
  assert (E := px_entries). rewrite Forall_forall in E.
  intros inum [->| ->]; cbv zeta; rewrite ?px_node1, ?px_node2; split_and!; try done.
  intros _. split; [apply px_dir_ok|]. intros de Hde _. by apply E.
Qed.

Lemma px_slock i : (i < NINODE)%nat -> fx_slocks !! SLInode i = Some (mksleep false "inode" 0).
Proof.
  assert (H : Forall (fun i => fx_slocks !! SLInode i = Some (mksleep false "inode" 0)) (seq 0 NINODE)).
  { vm_compute. repeat constructor. }
  rewrite Forall_forall in H. intros Hi. apply H, elem_of_seq. lia.
Qed.

Lemma px_ist : ist 0 ROOTDEV sx_sb px_disk ∅ ∅ None px_state.
Proof.
  split.
  - split; [apply fx_quiet|]. intros q Hq. cbn in Hq. injection Hq as <-.
    destruct (fx_cache_empty (mklog 2 1 false 1 0 (replicate 30 0)) px_disk). split; assumption.
  - done.
  - assert (H0 : forall i x, replicate NINODE (mkinode 0 0 0 false 0 0 0 0 0 []) !! i = Some x -> i_ref x = 0).
    { intros i x [-> _]%lookup_replicate. done. }
    split; cbn [px_state fx_state k_fs set_k_fs fs_inodes set_fs_sb set_fs_inodes].
    + apply length_replicate.
    + intros i x Hx. rewrite (H0 i x Hx). lia.
    + intros i x Hx. rewrite (H0 i x Hx). lia.
    + intros inum r Hr. by rewrite lookup_empty in Hr.
    + intros i j x y Hx _. rewrite (H0 i x Hx). lia.
    + intros i x Hx. rewrite (H0 i x Hx). lia.
  - intros i Hi. eexists. split; [by apply px_slock|]. by rewrite decide_False.
Qed.

(** ** Witnesses *)

(** The path "//a" leads to inode 2. *)
Lemma namei_spec_witness :
  wp (@namei world_back ideal_disk no_patience [47; 47; 97]) (fun r s' => exists ip x, r = Some ip /\
    fs_inodes (k_fs s') !! ip = Some x /\ i_inum x = 2) px_state.
Proof.
  eapply wp_mono; [apply (@namei_spec world_back ideal_disk ideal_disk_spec no_patience 0 sx_sb px_disk ∅
    (fun inum => inum = 1 \/ inum = 2) ∅ [47; 47; 97] 1 px_state)|].
  - exact px_ist.
  - rewrite size_empty. unfold NBUF. lia.
  - rewrite map_size_empty. unfold NINODE. lia.
  - exact px_tree.
  - reflexivity.
  - by left.
  - intros r s' [_ H]. revert H. replace (resolve _ _ _ _) with (Some 2) by (vm_compute; reflexivity).
    intros (ip & x & -> & Hx & _ & Ex & _). by exists ip, x.
Defined.

(** The file "/b" would be made in the root, under the name "b". *)
Lemma nameiparent_spec_witness :
  wp (@nameiparent world_back ideal_disk no_patience [47; 98]) (fun r s' => exists ip x, r = Some (ip, [98]) /\
    fs_inodes (k_fs s') !! ip = Some x /\ i_inum x = 1) px_state.
Proof.
  eapply wp_mono; [apply (@nameiparent_spec world_back ideal_disk ideal_disk_spec no_patience 0 sx_sb px_disk ∅
    (fun inum => inum = 1 \/ inum = 2) ∅ [47; 98] 1 px_state)|].
  - exact px_ist.
  - rewrite size_empty. unfold NBUF. lia.
  - rewrite map_size_empty. unfold NINODE. lia.
  - exact px_tree.
  - reflexivity.
  - by left.
  - intros r s' [_ H]. revert H. replace (resolve_parent _ _ _ _) with (Some (1, [98])) by (vm_compute; reflexivity).
    intros (ip & x & -> & Hx & _ & Ex & _). by exists ip, x.
Defined.
