(* ===== verification/MkfsWitnesses.v ===== *)
(** * Witnesses for [mkfs]

    A host with two files, one of which takes more than one [read]. *)

From stdpp Require Import base gmap strings numbers list.
From S2P Require Import Prelude State Strings Printf Bytes Cache Log LogSpec Fs Bitmap FileData FileWrite Writei Icache Namei Ulib Mkfs MkfsFile MkfsSpec MkfsMain MkfsTree.

(** [read] gives what is asked for, or what is left. *)
#[local] Instance full_reader : Reader := { read_count n rest := Nat.min n (length rest) }.

#[local] Instance full_reader_spec : ReaderSpec.
Proof. split; [intros; cbn; lia|]. intros n [|c rest] Hn Hr; [done|]. cbn. lia. Qed.

Definition cat_data : list Z := replicate 1500 7.
Definition readme_data : list Z := [104; 105].

#[local] Instance two_files : Host := {
  create_ok _ := true;
  contents arg := if bool_decide (arg = bytes_of "user/_cat") then Some cat_data
                  else if bool_decide (arg = bytes_of "README") then Some readme_data else None
}.

Definition mkfs_argv : list (list Z) := bytes_of <$> ["mkfs"; "fs.img"; "README"; "user/_cat"].
Definition mkfs_files : list (list Z * list Z) := [(bytes_of "README", readme_data); (bytes_of "cat", cat_data)].

Lemma small_file (data : list Z) : (length data <= 2000)%nat -> (length data <= MAXFILE * BSIZE)%nat.
Proof. intros H. assert (Z.of_nat (MAXFILE * BSIZE) = 274432) by by rewrite Nat2Z.inj_mul. lia. Qed.

Lemma mkfs_sources : Forall2 host_file (drop 2 mkfs_argv) mkfs_files.
Proof.
  constructor; [|constructor; [|constructor]].
  - split; [vm_compute; reflexivity..|apply Nat.leb_le; vm_compute; reflexivity|apply small_file, Nat.leb_le; vm_compute; reflexivity].
  - split; [vm_compute; reflexivity..|apply Nat.leb_le; vm_compute; reflexivity|apply small_file, Nat.leb_le; vm_compute; reflexivity].
Qed.

Lemma mkfs_room : nmeta + total (layout mkfs_files) <= FSSIZE.
Proof. apply Z.leb_le. by vm_compute. Qed.

Lemma mkfs_spec_witness :
  wp (mk_main mkfs_argv) (fun _ s' => mk_len s' = FSSIZE /\ image (mk_img s') mkfs_files) mk_init.
Proof.
  apply (mkfs_spec mkfs_argv mkfs_files mk_init).
  - apply Nat.leb_le. vm_compute. reflexivity.
  - reflexivity.
  - reflexivity.
  - exact mkfs_sources.
  - reflexivity.
  - exact mkfs_room.
Defined.

(** "cat" is found, as inode 3, and "ls" is not. *)
Lemma mkfs_tree_witness :
  wp (mk_main mkfs_argv) (fun _ s' => let V := mk_img s' in
    resolve sbk V ROOTINO [bytes_of "cat"] = Some 3 /\ fbytes (node sbk V 3) V 0 (length cat_data) = cat_data /\
    resolve sbk V ROOTINO [bytes_of "ls"] = None) mk_init.
Proof.
  eapply wp_mono; [apply (mkfs_tree mkfs_argv mkfs_files mk_init)|].
  - apply Nat.leb_le. vm_compute. reflexivity.
  - reflexivity.
  - reflexivity.
  - exact mkfs_sources.
  - reflexivity.
  - exact mkfs_room.
  - apply Forall_cons_2; [|apply Forall_cons_2; [|apply Forall_nil_2]]; unfold no_nul; refine (bool_decide_unpack _ _); vm_compute; exact I.
  - refine (bool_decide_unpack _ _). vm_compute. exact I.
  - intros r s' (Hf & Hn & _). cbv zeta. destruct (Hf 1%nat (bytes_of "cat") cat_data eq_refl) as (Hc & _ & _ & Hb).
    split_and!; [exact Hc|exact Hb|]. apply Hn. refine (bool_decide_unpack _ _). vm_compute. exact I.
Defined.
