(* ===== verification/IoWitnesses.v ===== *)
(** * A process with an address space, a pipe and a terminal

    The machine of the file-system witnesses with the address space of the
    page-table witnesses in process 0: the theorems on pipes, the console and
    the clock apply there. *)

From stdpp Require Import base gmap strings numbers list.
From Stdlib Require Import Ascii.
From S2P Require Import Prelude State Spinlock Strings Printf Bytes Ring Memory Kalloc Vm PageTable UserMem.
From S2P Require Import Proc Sleeplock Quiet Bio Uio Devices Tty Pipe Peterson PipeSpec File Process Trap.
From S2P Require Import TrapSpec Witnesses VmWitnesses FsWitnesses.

#[global] Instance still_world : World := {| resume := fun s => s |}.
#[global] Instance dead_bus : Mmio := {| mmio_read := fun _ _ => 0 |}.
#[global] Instance zero_stack : Stack := {| padding := fun _ n => replicate n 0 |}.
#[global] Instance flat_image : Image :=
  {| sym_trampoline := 0; sym_uservec := 0; sym_userret := 0; sym_kernelvec := 0;
     sym_usertrap := 0; sym_forkret := 0; sym_etext := 0 |}.

(** ** The machine *)

Definition ux_proc : proc :=
  set_p_state RUNNING (set_p_pid 1 (set_p_pagetable vroot (set_p_trapframe 0x87ffe000 (set_p_energy_budget 500 ex_proc)))).

Definition ux_dev (buf : list Z) (r w e : Z) : devst :=
  mkdevst buf r w e false [] [] (mkvdisk [] 0 [] 0 [] [] 0 [] [] (0, 0, 0)) [] (fun n => n).

Definition ux_state (pipes : gmap Z pipe) (d : devst) (scause : Z) : kst :=
  set_k_csr (mkcsrs scause 0 0 0 0 0) (set_k_dev d (set_k_pipes pipes (set_k_mem vmem
    (set_k_procs (ux_proc :: replicate 63 ex_proc) (fx_state (fx_fs false (mklog 0 0 false 0 0 []) (fun _ => []))))))).

Lemma ux_quiet pipes d sc : quiet 0 (ux_state pipes d sc).
Proof.
  destruct (fx_quiet (fx_fs false (mklog 0 0 false 0 0 []) (fun _ => []))) as [H1 _ H3 H4 H5 H6].
  split; [exact H1|done|exact H3|exact H4|exact H5|exact H6].
Qed.

Lemma ux_addrspace pipes d sc : addrspace vroot (ux_state pipes d sc).
Proof. split; [done|]. exists vfree, vtree. split; [apply vtree_wf|apply st_vm_user]. Qed.

Lemma ux_ubuf : ubuf vroot vmem 0x1ff0 3.
Proof.
  split; [apply vmapped|]. intros i v Hi.
  assert (Hp : PGROUNDDOWN (0x1ff0 + Z.of_nat i) = 0x1000).
  { apply PGROUNDDOWN_in_page; [done|unfold PGSIZE; lia]. }
  rewrite Hp, vleaf by (by split). intros [= <-]. by vm_compute.
Qed.

(** ** Pipes *)

(** A pipe whose counters are about to wrap around, holding two bytes. *)
Definition ux_pipe : pipe :=
  mkpipe 0 0 0 (<[511%nat := 65]> (<[0%nat := 66]> (replicate 512 0))) (2 ^ 32 - 1) 1 true true.

Lemma ux_pipe_rep : pipe_rep ux_pipe [65; 66].
Proof.
  split; [reflexivity|cbn; lia|reflexivity|unfold PIPESIZE; cbn; lia|].
  intros [|[|k]] c; intros [= <-]; vm_compute; reflexivity.
Qed.

Definition ux_pipes : kst := ux_state {[ 4096 := ux_pipe ]} (ux_dev [] 0 0 0) 0.

Lemma pipewrite_spec_witness :
  exists x' y', pipe_rep x' ([65; 66] ++ ubytes vroot vmem 0x1ff0 3) /\
    pipewrite 4096 0x1ff0 3 ux_pipes = Ok 3 (at_pipe 4096 x' y' (woken 0 (ChPipeRead 4096) ux_pipes)).
Proof.
  destruct (pipewrite_spec 0 ux_proc 4096 0x1ff0 3 ux_pipe [65; 66] ux_pipes) as (H & _);
    [apply ux_quiet|done|done|apply ux_addrspace|apply vmapped|apply lookup_singleton_eq|apply ux_pipe_rep|done|lia|].
  destruct H as (x' & y' & R & _ & _ & _ & E); [done|unfold PIPESIZE; cbn; lia|]. exists x', y'. split; [exact R|exact E].
Defined.

Lemma piperead_spec_witness :
  exists x' y' m', pipe_rep x' [] /\ uwrite vroot 0x1ff0 [65; 66] vmem m' /\
    piperead 4096 0x1ff0 3 ux_pipes =
      Ok 2 (at_pipe 4096 x' y' (woken 0 (ChPipeWrite 4096) (set_k_mem m' ux_pipes))).
Proof.
  destruct (piperead_spec 0 ux_proc 4096 0x1ff0 3 ux_pipe [65; 66] ux_pipes) as (H & _);
    [apply ux_quiet|done|done|apply ux_addrspace|apply ux_ubuf|apply lookup_singleton_eq|apply ux_pipe_rep|done|].
  destruct H as (x' & y' & m' & R & _ & _ & _ & U & E); [by left|]. exists x', y', m'. split; [exact R|].
  split; [exact U|exact E].
Defined.

(** ** The terminal *)

(** A committed "a\n" and "b" being edited. *)
Definition ux_tty : devst := ux_dev ([97; 10; 98] ++ replicate 125 0) 0 2 3.

Lemma ux_tty_rep : tty_rep ux_tty (mktty [97; 10] [98]).
Proof.
  split; [reflexivity|cbn; lia|reflexivity|reflexivity|unfold INPUT_BUF_SIZE; cbn; lia| |by repeat constructor].
  intros [|[|[|k]]] c; intros [= <-]; vm_compute; reflexivity.
Qed.

Definition ux_term : kst := ux_state ∅ ux_tty 0.

Lemma quiet_console p s : quiet p s -> console_ok s.
Proof.
  intros H. split; [by eapply quiet_wf|apply (q_calm _ _ H)|apply (q_tab _ _ H)|apply (q_procs _ _ H)| |];
    apply (q_locks _ _ H); constructor.
Qed.

Lemma consoleintr_spec_witness :
  exists d' out', tty_rep d' (mktty [97; 10; 98; 10] []) /\ out' = [10] /\
    consoleintr 13 ux_term = Ok tt (after_key ux_term (KChar 10) (mktty [97; 10] [98])
      (at_cons d' out' (touch (k_sync ux_term)) ux_term)).
Proof.
  destruct (consoleintr_spec 13 (mktty [97; 10] [98]) ux_term) as (d' & out' & R & _ & O & E);
    [eapply quiet_console, ux_quiet|lia|apply ux_tty_rep|].
  exists d', out'. split; [exact R|]. split; [exact (O ltac:(discriminate))|exact E].
Defined.

Lemma consoleread_spec_witness :
  exists r' m', tty_rep (set_d_r r' ux_tty) (mktty [] [98]) /\ uwrite vroot 0x1ff0 [97; 10] vmem m' /\
    consoleread (ToUser 0x1ff0) 3 ux_term =
      Ok 2 (set_k_sync (touch (k_sync ux_term)) (set_k_mem m' (set_k_dev (set_d_r r' ux_tty) ux_term))).
Proof.
  destruct (consoleread_spec 0 ux_proc 0x1ff0 3 [97; 10] [98] [97; 10] [] ux_term) as (r' & m' & R & U & E);
    [apply ux_quiet|done|apply ux_addrspace|apply ux_ubuf|lia|apply ux_tty_rep|reflexivity|].
  exists r', m'. split; [exact R|]. split; [exact U|exact E].
Defined.

(** ** The clock *)

Definition ux_tick : kst := ux_state ∅ ux_tty 0x8000000000000005.

Lemma clockintr_spec_witness :
  clockintr ux_tick = Ok tt (rearmed (upd_sync touch (charged (ticked ux_tick)))).
Proof.
  assert (Q : quiet 0 ux_tick) by apply ux_quiet.
  apply (clockintr_spec ux_tick); [by eapply quiet_wf|apply (q_tab _ _ Q)|apply (q_procs _ _ Q)|
    apply (q_locks _ _ Q), fl_ticks|].
  intros p Hp. rewrite (quiet_running _ _ Q) in Hp. injection Hp as <-. by exists ux_proc.
Defined.

Lemma user_tick_charges_twice_witness :
  reaches usertrap (yield;; prepare_return;; r ← getp 0; mret (MAKE_SATP (p_pagetable r)))
    (fun s' => exists q', k_procs s' !! 0%nat = Some q' /\ account q' = (2 * ENERGY_PER_TICK, 500 - 2 * ENERGY_PER_TICK, 2)) ux_tick.
Proof.
  destruct (user_tick_charges_twice 0 ux_proc ux_tick) as [H _]; [apply ux_quiet|done|done|done| |done|done|].
  - apply Forall_cons. split; [by split|]. by apply Forall_replicate.
  - destruct (H eq_refl) as (s' & E & _ & Hp). exists s'. split; [exact E|]. exact (Hp 0%nat ux_proc eq_refl).
Defined.
