(* ===== verification/KvmWitnesses.v ===== *)
(** * Witnesses for page tables and assembly

    A kernel of 128 KB boots: it sets up its allocator and its page table and
    makes a page table for process 0. A process of two pages forks. *)

From stdpp Require Import base gmap strings numbers list.
From S2P Require Import Prelude State Spinlock Strings Memory Kalloc Vm PageTable UserSpace UserCopy UserAlloc UserFree Proc Process Trap Asm AsmSpec Kvm Witnesses.

#[local] Instance ex_image : Image := {|
  sym_trampoline := 0x80007000; sym_uservec := 0x80007000; sym_userret := 0x80007098; sym_kernelvec := 0x80005000;
  sym_usertrap := 0x80002000; sym_forkret := 0x80001000; sym_etext := 0x80008000
|}.

(** The allocator at work. *)
Lemma ex_kinit : wp kinit (fun _ s => exists l, kmem_wf s l /\ (200 <= length l)%nat /\ lock_free LKmem (k_sync s) /\ sync_wf (k_sync s) /\
  running (k_sync s) = Some 0%nat /\ y_hart (k_sync s) = 0%nat /\ rest_same st_run s) st_run.
Proof.
  eapply wp_mono; [apply (wp_kinit st_run); [ex_solve|done|by vm_compute|unfold PHYSTOP, KERNBASE; cbn; lia|done]|].
  cbv beta. intros r s (H1 & H2 & H3 & H4 & H5 & H6). eexists. split; [exact H1|]. split_and!; [|done|done|by rewrite H4|by rewrite H5|done].
  rewrite length_rev. unfold pages. rewrite length_fmap, length_seq. apply Nat2Z.inj_le. rewrite Z2Nat.id by done. by vm_compute.
Qed.

Lemma kvmmake_spec_witness :
  wp (kinit;; kvmmake) (fun root s => (forall i, (i < NPROC)%nat -> leaf (k_mem s) root (KSTACK i - PGSIZE) = None) /\
    leaf (k_mem s) root 0x80005000 = Some (mk_pte 0x80005000 RX) /\ leaf (k_mem s) root 0x80009000 = Some (mk_pte 0x80009000 RW)) st_run.
Proof.
  apply wp_bind. eapply wp_mono; [exact ex_kinit|]. intros _ s1 (l0 & H1 & Hn & H2 & H3 & _ & _ & R).
  assert (E : k_end s1 = 0x80020000) by by rewrite R.
  eapply wp_mono; [apply (kvmmake_spec s1 l0 H3 H2 H1)|].
  - lia.
  - reflexivity.
  - rewrite E. done.
  - reflexivity.
  - done.
  - cbv beta. intros root s (l' & N & stacks & _ & _ & _ & L & Hs & _ & _ & G & _ & _).
    split_and!; [done| |]; (rewrite L by done; rewrite kernel_leaf_low; [reflexivity|done|by rewrite Hs]).
Defined.

(** ** A process that can run *)

Lemma vm_inv_same s s' l root N : k_sync s' = k_sync s -> k_mem s' = k_mem s -> k_freelist s' = k_freelist s -> k_end s' = k_end s ->
  vm_inv s l root N -> vm_inv s' l root N.
Proof. intros E1 E2 E3 E4 [I1 I2 [K1 K2 K3 K4] I4]. split; [by rewrite E1|by rewrite E1|split|by rewrite E4, E2]; rewrite ?E2, ?E3, ?E4; done. Qed.

(** The part of the boot that gives process 0 its page tables. *)
Definition ex_setup : KM Z :=
  kinit;;
  kvminit;;
  kvminithart;;
  pa ← kalloc;
  updp 0 (set_p_trapframe pa);;
  root ← proc_pagetable 0;
  updp 0 (set_p_pagetable root);;
  mret root.

Record ex_running (s : kst) (x : proc) (l : list Z) (N : tree) (kroot : Z) (NK : tree) : Prop := {
  xr_end : 0 < k_end s;
  xr_wf : sync_wf (k_sync s);
  xr_run : running (k_sync s) = Some 0%nat;
  xr_hart : y_hart (k_sync s) = 0%nat;
  xr_proc : k_procs s !! 0%nat = Some x;
  xr_satp : r_satp (k_csr s) = MAKE_SATP kroot;
  xr_maps : tramp_maps (k_end s) l (k_mem s) (p_pagetable x) N kroot NK (p_trapframe x) sym_trampoline
}.

Lemma frame_running s s' : vm_frame s s' -> sync_wf (k_sync s) -> running (k_sync s') = running (k_sync s) /\ y_hart (k_sync s') = y_hart (k_sync s).
Proof.
  intros [_ H] Hw. split; [symmetry; by apply touch_running|]. change (y_hart (touch (k_sync s')) = y_hart (k_sync s)). by rewrite H.
Qed.

Lemma ex_setup_runs : wp ex_setup (fun _ s => exists x l N kroot NK, ex_running s x l N kroot NK) st_run.
Proof.
  unfold ex_setup. apply wp_bind. eapply wp_mono; [exact ex_kinit|]. intros _ s1 (l0 & H1 & Hn & H2 & H3 & H4 & H5 & R).
  assert (E : k_end s1 = 0x80020000) by by rewrite R.
  assert (Hp : k_procs s1 !! 0%nat = Some ex_proc) by by rewrite R. clear R.
  apply wp_bind. unfold kvminit. apply wp_bind.
  apply (wp_kvmmake (I := ex_image) eq_refl ltac:(done) eq_refl ltac:(done) s1 l0); [exact H3|exact H2|exact H1|change (length kernel_paths + NPROC)%nat with 166%nat; lia|].
  intros kroot s2 l2 NK stacks [T1 T2 T3 T4 T5] Hnd Hlen C.
  assert (HS := within_size _ _ T3). change (length kernel_paths) with 102%nat in HS. change NPROC with 64%nat in C.
  apply wp_modify, wp_bind, wp_modify. set (s3 := set_k_csr _ _).
  assert (I3 : vm_inv s3 l2 kroot NK) by (by apply (vm_inv_same s2)).
  assert (P3 : k_procs s3 !! 0%nat = Some ex_proc) by (change (k_procs s2 !! 0%nat = Some ex_proc); by rewrite (proj1 T2)).
  assert (E3 : k_end s3 = 0x80020000) by (change (k_end s2 = 0x80020000); by rewrite (vm_frame_end _ _ T2)).
  assert (R3 : running (k_sync s3) = Some 0%nat /\ y_hart (k_sync s3) = 0%nat).
  { change (k_sync s3) with (k_sync s2). destruct (frame_running _ _ T2 H3) as [-> ->]. done. }
  assert (C3 : r_satp (k_csr s3) = MAKE_SATP kroot) by done.
  assert (L3 : leaf (k_mem s3) kroot TRAMPOLINE = Some (mk_pte sym_trampoline RX)).
  { change (leaf (k_mem s2) kroot TRAMPOLINE = Some (mk_pte sym_trampoline RX)). by rewrite T4. }
  clearbody s3. clear T1 T2 T4 T5 s2.
  apply wp_bind, (wp_kalloc_vm s3 l2 kroot NK); [done|intros s' ->; cbn in C; lia|].
  intros tf l3 s4 -> Htf Htf0 Htfn Htft I4 F4 L4 _. cbn [length] in C.
  assert (P4 : k_procs s4 !! 0%nat = Some ex_proc) by by rewrite (proj1 F4).
  apply wp_bind, wp_updp; [by eapply lookup_lt_Some|]. set (s5 := upd_procs _ s4).
  assert (I5 : vm_inv s5 l3 kroot NK) by (by apply (vm_inv_same s4)).
  assert (P5 : k_procs s5 !! 0%nat = Some (set_p_trapframe tf ex_proc)).
  { change (alter (set_p_trapframe tf) 0%nat (k_procs s4) !! 0%nat = Some (set_p_trapframe tf ex_proc)). by rewrite list_lookup_alter_eq, P4. }
  assert (E5 : k_end s5 = k_end s3) by (change (k_end s4 = k_end s3); by rewrite (vm_frame_end _ _ F4)).
  assert (R5 : running (k_sync s5) = Some 0%nat /\ y_hart (k_sync s5) = 0%nat).
  { change (k_sync s5) with (k_sync s4). destruct (frame_running _ _ F4 (inv_sync _ _ _ _ I3)) as [-> ->]. done. }
  assert (C5 : r_satp (k_csr s5) = MAKE_SATP kroot) by (change (r_satp (k_csr s4) = MAKE_SATP kroot); by rewrite (proj1 F4)).
  assert (L5 : leaf (k_mem s5) kroot TRAMPOLINE = Some (mk_pte sym_trampoline RX)) by (by rewrite <- L3, <- L4).
  clearbody s5. clear I4 L4 F4 P4 s4. destruct (I5) as [J1 J2 J3 J4].
  apply wp_bind. eapply wp_mono.
  { apply (proc_pagetable_spec 0 (set_p_trapframe tf ex_proc) s5 l3 J1 J2 J3 P5); [done|done|by rewrite E5|done]. }
  cbv beta. intros root s6 [(_ & Hlt & _)|(Hr & l6 & N & I6 & F6 & _ & _ & _ & _ & HT)]; [lia|].
  specialize (HT kroot NK J4 L5 Htft). assert (E6 := vm_frame_end _ _ F6). destruct (frame_running _ _ F6 J1) as [R6 R7].
  assert (P6 : k_procs s6 !! 0%nat = Some (set_p_trapframe tf ex_proc)) by by rewrite (proj1 F6).
  apply wp_bind, wp_updp; [by eapply lookup_lt_Some|]. apply wp_ret.
  exists (set_p_pagetable root (set_p_trapframe tf ex_proc)), l6, N, kroot, NK. split.
  - change (0 < k_end s6). rewrite E6, E5, E3. done.
  - apply (inv_sync _ _ _ _ I6).
  - etrans; [exact R6|apply R5].
  - etrans; [exact R7|apply R5].
  - change (alter (set_p_pagetable root) 0%nat (k_procs s6) !! 0%nat = Some (set_p_pagetable root (set_p_trapframe tf ex_proc))). by rewrite list_lookup_alter_eq, P6.
  - change (r_satp (k_csr s6) = MAKE_SATP kroot). by rewrite (proj1 F6).
  - change (tramp_maps (k_end s6) l6 (k_mem s6) root N kroot NK tf sym_trampoline). rewrite E6. exact HT.
Qed.

(** A program that sets all its registers to 7. *)
Definition all_sevens (h : hart) : hart := mkhart (fun _ => 7) (h_csr h) (h_pc h) (h_user h) (h_mem h).

Lemma user_entry_witness :
  wp (ex_setup;; prepare_return) (fun _ s => r_stvec (k_csr s) = TRAMPOLINE /\ exists root, forall h, at_kernel s h -> h_reg h A0 = MAKE_SATP root ->
    exists h1, run TRAMPOLINE sym_trampoline 0 userret h = Some h1 /\ h_user h1 = true /\
      exists h3, run TRAMPOLINE sym_trampoline sym_userret uservec (take_trap TRAMPOLINE (all_sevens h1)) = Some h3 /\ h_pc h3 = sym_usertrap) st_run.
Proof.
  apply wp_bind. eapply wp_mono; [exact ex_setup_runs|]. intros _ s (x & l & N & kroot & NK & [H1 H2 H3 H4 H5 H6 H7]).
  eapply wp_mono; [apply (user_entry 0 x s l N NK kroot sym_userret H1 H2 H3 H5 ltac:(by rewrite H4) ltac:(done) H6 H7)|].
  cbv beta. intros _ s' [Ev HU]. change (r_stvec (k_csr s') = TRAMPOLINE) in Ev. split; [exact Ev|]. exists (p_pagetable x). intros h Hh HA.
  destruct (HU h Hh HA) as (h1 & E & Hu & _ & _ & _ & HN). exists h1. split_and!; [exact E|exact Hu|]. rewrite Ev in HN.
  destruct (HN (all_sevens h1)) as (h3 & E3 & _ & Ep & _); [intros r; done|exact Hu|reflexivity|intros; reflexivity|by exists h3].
Defined.

(** A user hart on the tables that were set up. *)
Definition user_hart (root kroot tf : Z) (m : mem) : hart :=
  mkhart (fun r => 100 + tf_slot r) (fun c => match c with SATP => MAKE_SATP root | _ => 0 end) 0x1000 true (st64 m (tf + tf_kernel_satp) (MAKE_SATP kroot)).

Lemma trap_roundtrip_witness : exists root kroot tf m h1 h2 h3,
  run TRAMPOLINE sym_trampoline sym_userret uservec (take_trap TRAMPOLINE (user_hart root kroot tf m)) = Some h1 /\
  h2 = set_reg A0 (MAKE_SATP root) h1 /\
  run TRAMPOLINE sym_trampoline 0 userret h2 = Some h3 /\ h_reg h3 S5 = 300 /\ h_reg h3 A7 = 268.
Proof.
  destruct (wp_inv _ _ _ ex_setup_runs) as (v & s & _ & x & l & N & kroot & NK & [H1 _ _ _ _ _ HM]). set (tf := p_trapframe x) in *.
  assert (D : forall v, differs tf PGSIZE (k_mem s) (st64 (k_mem s) (tf + tf_kernel_satp) v)) by (intros w; apply slot_differs; by unfold slot).
  assert (HK : 0 <= MAKE_SATP kroot < 2 ^ 64).
  { destruct (pt_page (tm_ktree _ _ _ _ _ _ _ _ _ HM) (pt_root (tm_ktree _ _ _ _ _ _ _ _ _ HM))) as (Hpk & _).
    apply (page_ok_range _ H1) in Hpk as [Hak Hrk]. apply MAKE_SATP_range; [done|lia]. }
  set (h := user_hart (p_pagetable x) kroot tf (k_mem s)).
  assert (HM' := tramp_maps_differs _ _ _ _ _ _ _ _ _ _ H1 HM (D (MAKE_SATP kroot))).
  destruct (trap_roundtrip (k_end s) l (p_pagetable x) kroot tf sym_trampoline TRAMPOLINE sym_userret N NK h H1 HM') as (h1 & E1 & _ & _ & _ & E2 & D1 & HR).
  - intros r. unfold h, user_hart. cbn [h_reg]. destruct r; done.
  - reflexivity.
  - unfold h, user_hart. cbn [h_mem]. by apply ld64_st64_eq.
  - exists (p_pagetable x), kroot, tf, (k_mem s), h1, (set_reg A0 (MAKE_SATP (p_pagetable x)) h1).
    destruct (HR l kroot N NK (set_reg A0 (MAKE_SATP (p_pagetable x)) h1)) as (h3 & E3 & _ & _ & HL & _).
    + exact (tramp_maps_differs _ _ _ _ _ _ _ _ _ _ H1 HM' D1).
    + exact E2.
    + reflexivity.
    + reflexivity.
    + exists h3. split_and!; [exact E1|reflexivity|exact E3|by rewrite HL|by rewrite HL].
Defined.

(** ** Other assembly *)

Lemma bare_window m tva va len : 0 <= va -> va + len <= 2 ^ 64 -> va mod 8 = 0 -> window m 0 tva tva va va len.
Proof. intros H1 H2 H3. split; [done..|]. done. Qed.

(** Without paging, from the loader's start. *)
Definition boot_hart (id : Z) (user : bool) : hart :=
  mkhart (fun r => if decide (r = SP) then 0x80010000 else 5) (fun c => match c with MHARTID => id | _ => 0 end) 0x80000000 user (fun _ => 0).

Lemma entry_stack_witness : exists h, run 0x80000000 0x80000000 0 (entry_code 0x80009000 0x80000040) (boot_hart 3 false) = Some h /\ h_reg h SP = 0x8000d000.
Proof.
  destruct (entry_stack 0x80009000 0x80000040 0x80000000 0 (boot_hart 3 false) eq_refl ltac:(done) ltac:(done)) as (h & E & _ & Es & _).
  exists h. split; [exact E|rewrite Es; reflexivity].
Defined.

Lemma kernelvec_roundtrip_witness : exists h1 h3,
  run 0x80005000 0x80005000 0x80005060 (kernelvec 0x80002800) (take_trap 0x80005000 (boot_hart 0 false)) = Some h1 /\ h_pc h1 = 0x80002800 /\
  run 0x80005000 0x80005000 0 kernelvec_ret h1 = Some h3 /\ h_reg h3 T4 = 5 /\ h_reg h3 SP = 0x80010000.
Proof.
  destruct (kernelvec_roundtrip (boot_hart 0 false) 0 0x80005000 0x80005000 (0x80010000 - 256) 0x80005000 0x80002800 0x80005060) as
    (h1 & E1 & Ep & _ & _ & _ & _ & HR).
  - reflexivity.
  - intros r. unfold boot_hart. cbn [h_reg]. by destruct (decide (r = SP)).
  - done.
  - by apply bare_window.
  - exists h1. assert (X : forall c, h_csr h1 c = match c with SEPC => 0x80000000 | SSTATUS => 256 | _ => 0 end).
    { intros c. assert (Y : (fun h => h_csr h c) <$> run 0x80005000 0x80005000 0x80005060 (kernelvec 0x80002800) (take_trap 0x80005000 (boot_hart 0 false)) =
        Some (match c with SEPC => 0x80000000 | SSTATUS => 256 | _ => 0 end)) by (destruct c; vm_compute; reflexivity).
      rewrite E1 in Y. by injection Y. }
    destruct (HR h1 (X SATP) ltac:(done)) as (h3 & E3 & _ & _ & _ & _ & HL & _).
    + by apply bare_window.
    + done.
    + exact (X SEPC).
    + reflexivity.
    + exists h3. split_and!; [exact E1|exact Ep|exact E3|by rewrite HL|by rewrite HL].
Defined.

Lemma ex_kernel : wp (kinit;; kvmmake) (fun root s => exists l N, kernel_maps 0x80020000 l (k_mem s) root N sym_etext) st_run.
Proof.
  apply wp_bind. eapply wp_mono; [exact ex_kinit|]. intros _ s1 (l0 & H1 & Hn & H2 & H3 & _ & _ & R).
  assert (E : k_end s1 = 0x80020000) by by rewrite R.
  apply (wp_kvmmake (I := ex_image) eq_refl ltac:(done) eq_refl ltac:(done) s1 l0); [exact H3|exact H2|exact H1|change (length kernel_paths + NPROC)%nat with 166%nat; lia|].
  intros root s l N stacks [T1 T2 T3 T4 T5] _ Hlen _. exists l, N.
  apply (kernel_table_maps _ _ _ _ _ _ sym_trampoline (rev stacks)); [|done|done|done|rewrite length_rev; lia|done].
  rewrite <- E, <- (vm_frame_end _ _ T2). apply T1.
Qed.

(** The kernel switches from the context of a hart to that of a process. *)
Definition switch_hart (kroot old new v : Z) (m : mem) : hart :=
  mkhart (fun r => match r with A0 => old | A1 => new | _ => v end) (fun c => match c with SATP => MAKE_SATP kroot | _ => 0 end) 0x80003000 false m.

Lemma switch_hart_regs kroot old new v m : 0 <= old < 2 ^ 64 -> 0 <= new < 2 ^ 64 -> 0 <= v < 2 ^ 64 -> regs_ok (switch_hart kroot old new v m).
Proof. intros H1 H2 H3 r. by destruct r. Qed.

Lemma swtch_returns_witness : exists kroot m h1 h3,
  run 0x80003000 0x80003000 0 swtch_code (switch_hart kroot 0x8000a000 0x8000b008 33 m) = Some h1 /\
  run 0x80003000 0x80003000 0 swtch_code (switch_hart kroot 0x8000c000 0x8000a000 44 (h_mem h1)) = Some h3 /\
  h_pc h3 = 33 /\ h_reg h3 S3 = 33 /\ h_reg h3 T3 = 44.
Proof.
  destruct (wp_inv _ _ _ ex_kernel) as (kroot & s & _ & l & N & HM).
  destruct (swtch_returns 0x80020000 l kroot sym_etext 0x80003000 0x8000a000 0x8000b008 N (switch_hart kroot 0x8000a000 0x8000b008 33 (k_mem s)))
    as (h1 & E1 & _ & _ & D & HR).
  - done.
  - exact HM.
  - done.
  - done.
  - reflexivity.
  - reflexivity.
  - reflexivity.
  - by apply switch_hart_regs.
  - done.
  - done.
  - by left.
  - exists kroot, (k_mem s), h1.
    destruct (HR l N (switch_hart kroot 0x8000c000 0x8000a000 44 (h_mem h1)) 0x8000c000) as (h3 & E3 & Ep & HL & HO).
    + destruct HM as [M1 M2 M3 M4]. destruct (leaf_frame 0x80020000 ltac:(done) l kroot N (k_mem s) (h_mem h1) M1) as [M1' L].
      { intros pi p a Hp Ha. apply D. destruct (pt_page M1 Hp) as ([_ [Hp1 _]] & _). unfold in_page, context_size in *. lia. }
      split; [done|intros va; rewrite L; apply M2|intros va; rewrite L; apply M3|done].
    + reflexivity.
    + by apply switch_hart_regs.
    + reflexivity.
    + reflexivity.
    + done.
    + by right.
    + reflexivity.
    + exists h3. split_and!; [exact E1|exact E3|exact Ep| |].
      * apply HL. by refine (bool_decide_unpack _ _).
      * apply HO. by refine (bool_decide_unpack _ _).
Defined.

(** ** A fork *)

(** Process 0 gets a trapframe and an address space of two pages. *)
Definition ex_parent : KM Z :=
  kinit;;
  pa ← kalloc;
  updp 0 (set_p_trapframe pa);;
  old ← proc_pagetable 0;
  _ ← uvmalloc old 0 0x2000 PTE_W;
  mret old.

Record ex_forking (s : kst) (x : proc) (l : list Z) (old : Z) (N : tree) : Prop := {
  xf_inv : vm_inv s l old N;
  xf_own : owned (k_end s) l (k_mem s) old N 0 0x2000;
  xf_proc : k_procs s !! 0%nat = Some x;
  xf_tf : page_ok (k_end s) (p_trapframe x);
  xf_byte : umem (k_mem s) old 0x1234 = Some 0
}.

Lemma ex_parent_runs : wp ex_parent (fun old s => exists x l N, ex_forking s x l old N) st_run.
Proof.
  unfold ex_parent. apply wp_bind. eapply wp_mono; [exact ex_kinit|]. intros _ s1 (l0 & H1 & Hn & H2 & H3 & _ & _ & R).
  assert (Hp : k_procs s1 !! 0%nat = Some ex_proc) by by rewrite R. clear R.
  apply wp_bind. eapply wp_mono; [exact (wp_kalloc_list s1 l0 H3 H2 H1)|]. cbv beta. intros pa s2 (F2%kmem_vm_frame & K2).
  destruct l0 as [|pa' l1]; [cbn in Hn; lia|]. destruct K2 as (-> & K2 & _). cbn [length] in Hn.
  assert (Hpa : page_ok (k_end s2) pa' /\ pa' ∉ l1).
  { rewrite (vm_frame_end _ _ F2). destruct H1 as [_ _ Hnd Hall]. apply Forall_cons in Hall as [? _]. by apply NoDup_cons in Hnd as [? _]. }
  assert (Hp2 : k_procs s2 !! 0%nat = Some ex_proc) by by rewrite (proj1 F2).
  assert (W2 : sync_wf (k_sync s2)) by by eapply vm_frame_wf. assert (Q2 : lock_free LKmem (k_sync s2)) by by eapply vm_frame_lock.
  apply wp_bind, wp_updp; [by eapply lookup_lt_Some|]. set (s3 := upd_procs _ s2). set (x := set_p_trapframe pa' ex_proc).
  assert (P3 : k_procs s3 !! 0%nat = Some x).
  { change (alter (set_p_trapframe pa') 0%nat (k_procs s2) !! 0%nat = Some x). by rewrite list_lookup_alter_eq, Hp2. }
  assert (K3 : kmem_wf s3 l1) by (destruct K2; by split).
  apply wp_bind. eapply wp_mono; [apply (proc_pagetable_spec 0 x s3 l1 W2 Q2 K3 P3); [done|done|apply Hpa|apply Hpa]|].
  cbv beta. intros root s4 [(_ & Hlt & _)|(Hr & l4 & N & I4 & F4 & Hl4 & L4 & _)]; [lia|].
  apply wp_bind. eapply wp_uvmalloc; [exact I4|done|lia|by vm_compute| |].
  { intros va Hv Hva. rewrite L4 by done. unfold user_leaf. change (PGROUNDUP 0) with 0 in Hva.
    rewrite !decide_False; [done|assert (TRAMPOLINE = 2 ^ 38 - 4096) by done; lia|assert (TRAPFRAME = 2 ^ 38 - 8192) by done; lia]. }
  intros r s5 l5 N5 E. apply wp_ret. exists x, l5, N5. assert (F5 := en_frame _ _ _ _ _ _ _ _ _ _ _ E).
  change (PGROUNDUP 0) with 0 in E. split.
  - apply E.
  - rewrite (vm_frame_end _ _ F5). apply E.
  - rewrite (proj1 F5), (proj1 F4). exact P3.
  - rewrite (vm_frame_end _ _ F5), (vm_frame_end _ _ F4). apply Hpa.
  - destruct (en_result _ _ _ _ _ _ _ _ _ _ _ E) as [[_ Hz]|(_ & _ & Hle)].
    + destruct (Hz 0x1000) as (q & Hq & Hl & Hk); [done|lia|].
      apply (zero_umem (k_end s4) _ _ _ q PTE_W); [by vm_compute|apply (kmem_end _ _ (inv_free _ _ _ _ I4))|exact Hq|done| |exact Hk].
      change (PGROUNDDOWN 0x1234) with 0x1000. exact Hl.
    + change ((0x2000 - 0) / PGSIZE) with 2 in Hle. lia.
Qed.

Lemma copy_free_roundtrip_witness :
  wp (old ← ex_parent;
      new ← proc_pagetable 0;
      if new =? 0 then mret (-1) else
      r ← uvmcopy old new 0x2000;
      proc_freepagetable new (if r <? 0 then 0 else 0x2000);;
      mret r) (fun _ s' => exists l' old, ready s' l' /\ umem (k_mem s') old 0x1234 = Some 0) st_run.
Proof.
  apply wp_bind. eapply wp_mono; [exact ex_parent_runs|]. intros old s (x & l & N & [H1 H2 H3 H4 H5]).
  eapply wp_mono; [apply (copy_free_roundtrip 0 x s l old N 0x2000 H1 H2); [by vm_compute|exact H3|exact H4|reflexivity|done]|].
  cbv beta. intros r s' (l' & R & _ & _ & Hm). exists l', old. split; [exact R|]. rewrite Hm; [exact H5|lia].
Defined.
